(* ===== verification/_CoqProject ===== *)
-Q . S2P
Prelude.v
Malloc.v
DChainImpl.v
DChain.v
AltDChain.v
PredMapImpl.v
MapImpl.v
MapSpec.v
Map.v
PredMap.v
MapBuckets.v
DynamicTable.v
RehashingMap.v
Vector.v
Coherence.v
DoubleMap.v
FlowTable.v
Fresh.v
PredDoubleMap.v
DMapUsingMap.v
Expirator.v
Table.v
NfUtil.v
Nat.v
Firewall.v
Bridge.v
Policer.v
Cht.v
Balancer.v
MainLoop.v
KleeStubs.v
NatSymbex.v
Router.v
Xdp.v
XdpFirewall.v
Checksum.v
Crab.v
KatranNet.v
Katran.v
HealthCheck.v
KatranOptions.v
Config.v
Machine.v
