(* ===== verification/Prelude.v ===== *)
(** * A verification development for the network functions of PIX

    ** The program

    The repository holds network functions (NFs) written in C on DPDK
    ([dpdk-nfs/nf]) and on eBPF ([ebpf-nfs]), and tools that derive performance
    contracts from them. The NFs of [dpdk-nfs/nf] are the core: a packet handler
    [nf_core_process] per NF, called by [nf_main.c] for every received packet,
    over the data structures of libVig ([lib/containers]). An NF keeps its flows
    in three containers that must agree: a map from keys to indexes, a vector
    with the key of each index, and a double chain that hands out indexes and
    orders them by age; [lib/expirator.c] drops old entries from all of them.

    ** How the code is modelled

    A C function is a function to [res]: a value, or an error ([OutOfBounds],
    [AssertFail], [Exit], [NoFuel], [DivByZero], [IntOverflow]). Arrays are lists read and written
    with bounds checks, structs are records, integers are [Z] with the wrap-around
    ([u16], [u32], [u64], [i32], [i64]) written out where the code computes at
    that width. A pointer to a key is [ptr]: a local variable or an element of a
    vector, so that the aliasing between a map and its vector of keys is part of
    the model ([deref]). A packet is an array of bytes and a header an offset into
    it. Fresh memory, the outcome of every [malloc], the hash seeds, the checksums
    and tables of DPDK, [getopt_long] and the helpers and maps of the kernel are
    parameters; what the proofs use of them is named ([CsumDiff], [BpfMapLaws],
    [makes_room]). The main loop is a program over events ([io]): every answer of
    DPDK is one, and a log of events is a run. Loops are structural where the C loop
    counts; the others take fuel computed from the data (the number of slots of a
    table or of indexes of a chain), and the theorems show that it is never used up;
    the loop over IPv4 options of the router is the exception, since it need not
    end.

    ** The files

    - [Prelude.v]: results, arrays, machine integers, rings of indexes.
    - [Malloc.v]: [malloc] and [free] with failures, and what code that
      allocates several blocks guarantees.
    - [DChainImpl.v], [DChain.v]: [double-chain-impl.c] (two linked lists in one
      array of cells) and [double-chain.c] (the same with time stamps), against
      the abstract lists of their headers. [AltDChain.v]:
      [alternate-double-chain.c], the same interface over one array of links.
    - [PredMapImpl.v], [MapImpl.v]: the open-addressing hash table with chain
      counters, as an array of structs ([pred-map-impl.c]) and as a struct of
      arrays ([map-impl.c]).
    - [MapSpec.v]: [map.h] as a class of operations with laws; [Map.v],
      [PredMap.v], [RehashingMap.v], [MapBuckets.v] implement it ([map.c],
      [pred-map.c], [rehashing-map.c], and the linked lists of [map-buckets.c]).
      [DynamicTable.v]: [map-dynamic-table.c], whose table grows.
    - [Vector.v]: [vector.c], and pointers to keys.
    - [Coherence.v]: the invariant that ties map, vector and chain together,
      proved against the interface of the maps only.
    - [DoubleMap.v]: [double-map.c], values found under two keys or by index.
      [FlowTable.v]: [flowtable.c] and [flow.c], the table of flows made of one.
      [PredDoubleMap.v], [DMapUsingMap.v]: [pred-double-map.c], and the double
      map made of two maps, [double-map-using-map.c].
    - [Fresh.v]: freshly allocated containers form an empty flow table.
    - [Expirator.v]: [expirator.c], both loops.
    - [Table.v]: flow tables with a second vector, for a value of each index.
    - [NfUtil.v]: packets as bytes, header access and checksums of [nf_util.c].
    - [Nat.v], [Firewall.v], [Bridge.v], [Policer.v]: the NFs [vignat],
      [vigfw], [bridge], [vigpol]: data, initialisation, packet handler, the
      abstract step each of them implements, and what follows for traces of
      packets.
    - [Cht.v], [Balancer.v]: [vigbalancer], the consistent hashing table and the
      flows and backends around it.
    - [MainLoop.v]: [nf_main.c], the loop that receives, calls the NF and sends,
      against an interface of NFs ([NetworkFunction], [NFLaws]).
    - [KleeStubs.v], [NatSymbex.v]: the models of the containers that the
      symbolic execution uses ([lib/stubs/containers]), as sets of paths, and the
      NAT on them.
    - [Router.v]: the router with its IPv4 options, and the LPM forwarder.
    - [Xdp.v], [XdpFirewall.v]: the parsers of [ebpf-nfs/common], the interface of
      the maps of the kernel, and the firewall [ebpf-nfs/fw].
    - [Checksum.v], [Crab.v]: the Internet checksum and [bpf_csum_diff], and the
      balancer [ebpf-nfs/crab].
    - [KatranNet.v], [Katran.v]: [ebpf-nfs/katran]; hashing, checksums, parsers,
      encapsulation and ICMP replies in the first, the maps of the balancer and
      its packet handler in the second. [KatranOptions.v]: the features that are
      off by default, tunnels over UDP, inline decapsulation, the answers to
      packets that are too big, and source routing. [HealthCheck.v]: the two programs that send
      health checks through tunnels.
    - [Config.v]: the command lines of the five NFs that have one.
    - [Machine.v]: every NF in the main loop; the firewall and the NAT from the
      command line to the wire.

    ** What the theorems show

    Containers: every sequence of calls that respects the contract behaves as
    the abstract structure of the header does; allocation fails cleanly or gives
    an empty structure; the two layouts of the hash table agree, and so do the three
    double maps; the counters stay in range. Symbolic execution: its paths cover
    all that the NAT does, except for a packet that finds the flow table full, and
    none of them fails, although the NAT reads out of bounds for some packets. NFs: the packet handler never fails, implements the abstract
    step, and (over any trace) the NAT maps replies back and keeps ports apart,
    the firewall admits exactly the replies to known flows, the bridge sends
    frames where it learned addresses, the policer bounds the rate until a bucket
    expires, the balancer sends to live backends, also behind the failover of a flow,
    and keeps flows together until one meets a dead backend. Each doc comment states
    the restrictions of its claim: the ports of the NAT fit into 16 bits and packets
    from outside are addressed to them, and the sizes of vectors fit into 32 bits
    (tables of at most 2^27 flows). Programs: in the main loop
    every buffer is freed or sent once, what leaves is what the NF decided, and with
    the initialisation and the command line in front this holds from the start of
    the program. Command lines: a configuration that is accepted is well-formed.
    XDP programs: no access leaves the frame, whatever the frame; the firewall
    blocks what nobody asked for; the balancer rewrites a SYN as intended, with
    checksums that verify, and serves its targets in turn; Katran forwards a TCP
    packet to the server of its connection table or of its ring, in an encapsulation
    that the server undoes, with every counter as specified, and lets at most twice its
    limit of connections a second into the table; a tunnel that one balancer sends,
    over UDP too, is undone by the next one if it is not IPv6 over IPv4, and health checks reach the server of their mark. Where the code does not
    do what it means to, a theorem shows the behaviour it has.

    ** Not modelled

    DPDK, the kernel and libbpf; printing; the ghost code for VeriFast; the other
    KLEE stubs (DPDK, hardware, double map, batcher) and the drivers; the Pin tools,
    the C++ contract evaluator, the Python drivers, and the vendored parts of
    [ebpf-nfs]; [lpm_init], which fills a table of DPDK from a file, and the static
    table of the bridge, which is compiled out; the samples of frames that Katran
    gives to user space, its root program, which only makes tail calls, and its
    packet counter;
    [batcher.c] and the headers of arrays, which no NF includes; [map-dpdk.c] and
    [map-ruby.c], which call third-party tables, [map-null.c], which only counts its
    calls, and [pred-map2.c], a copy of [pred-map.c] for measurements. *)

From Stdlib Require Export ZArith Lia.
From stdpp Require Export base numbers option list gmap.

#[global] Open Scope Z_scope.

(** ** Results of C code

    C code that is executed by the model either produces a value or fails.
    [OutOfBounds] is an access outside an array and [DivByZero] a division by zero
    (undefined behaviour in C), [IntOverflow] a signed operation whose result is not an
    [int] (undefined as well), [AssertFail] a failed [assert], [Exit] a call of
    [rte_exit], [exit] or [abort], and [NoFuel] marks a loop that was not given enough
    iterations (the theorems show that it does not occur, or that the loop of the
    code does not end). *)
Inductive err := OutOfBounds | AssertFail | Exit | NoFuel | DivByZero | IntOverflow.

Inductive res (A : Type) :=
| Ok (a : A)
| Err (e : err).
Arguments Ok {A} a.
Arguments Err {A} e.

#[global] Instance err_eq_dec : EqDecision err.
Proof. solve_decision. Defined.

#[global] Instance res_ret : MRet res := @Ok.
#[global] Instance res_bind : MBind res :=
  λ A B f m, match m with Ok a => f a | Err e => Err e end.
#[global] Instance res_fmap : FMap res :=
  λ A B f m, match m with Ok a => Ok (f a) | Err e => Err e end.
Arguments res_ret {A} a /.
Arguments res_bind {A B} f !m /.
Arguments res_fmap {A B} f !m /.

(** [assert(b)] of the C code. *)
Definition c_assert (b : bool) : res unit := if b then Ok tt else Err AssertFail.

Lemma res_bind_Ok {A B} (f : A → res B) m b :
  (m ≫= f) = Ok b → ∃ a, m = Ok a ∧ f a = Ok b.
Proof. destruct m; [eauto | discriminate]. Qed.

(** The next statement; a rewrite, because the kernel may compare the statements by
    their values when it checks a reduction. *)
Lemma bind_Ok {A B} (a : A) (f : A → res B) : (Ok a ≫= f) = f a.
Proof. done. Qed.

(** ** Arrays

    A C array is a list; [rd] and [wr] are the accesses [a[i]] and [a[i] = v],
    which fail outside the bounds. [getz] and [setz] are their total
    counterparts, used in proofs and invariants. *)
Definition zlen {A} (l : list A) : Z := Z.of_nat (length l).

Definition rd {A} (a : list A) (i : Z) : res A :=
  if 0 <=? i then
    match a !! Z.to_nat i with Some x => Ok x | None => Err OutOfBounds end
  else Err OutOfBounds.

Definition wr {A} (a : list A) (i : Z) (v : A) : res (list A) :=
  if (0 <=? i) && (i <? zlen a) then Ok (<[Z.to_nat i := v]> a)
  else Err OutOfBounds.

Definition getz {A} `{Inhabited A} (a : list A) (i : Z) : A := a !!! Z.to_nat i.
Definition setz {A} (a : list A) (i : Z) (v : A) : list A := <[Z.to_nat i := v]> a.

Create HintDb pix.
Create Rewrite HintDb pix_len.

Section arrays.
Context {A : Type} `{Inhabited A}.
Implicit Types (a l : list A) (i j : Z) (v : A).

Lemma zlen_nonneg l : 0 <= zlen l.
Proof. unfold zlen. lia. Qed.

Lemma zlen_setz a i v : zlen (setz a i v) = zlen a.
Proof. unfold zlen, setz. by rewrite length_insert. Qed.

Lemma zlen_app l1 l2 : zlen (l1 ++ l2) = zlen l1 + zlen l2.
Proof. unfold zlen. rewrite length_app. lia. Qed.

Lemma zlen_nil : zlen (@nil A) = 0.
Proof. done. Qed.

Lemma zlen_cons v l : zlen (v :: l) = 1 + zlen l.
Proof. unfold zlen. simpl. lia. Qed.

Lemma rd_ok a i : 0 <= i < zlen a → rd a i = Ok (getz a i).
Proof.
  intros Hi. unfold rd, getz, zlen in *.
  rewrite (proj2 (Z.leb_le 0 i)) by lia.
  destruct (lookup_lt_is_Some_2 a (Z.to_nat i)) as [x Hx]; [lia|].
  rewrite Hx. by rewrite (list_lookup_total_correct _ _ _ Hx).
Qed.

Lemma rd_err a i : ¬ (0 <= i < zlen a) → rd a i = Err OutOfBounds.
Proof.
  intros Hi. unfold rd, zlen in *. destruct (Z.leb_spec 0 i); [|done].
  rewrite lookup_ge_None_2; [done | lia].
Qed.

Lemma wr_ok a i v : 0 <= i < zlen a → wr a i v = Ok (setz a i v).
Proof.
  intros Hi. unfold wr, setz.
  rewrite (proj2 (Z.leb_le 0 i)), (proj2 (Z.ltb_lt i _)) by lia. done.
Qed.

Lemma wr_err a i v : ¬ (0 <= i < zlen a) → wr a i v = Err OutOfBounds.
Proof.
  intros Hi. unfold wr.
  destruct (Z.leb_spec 0 i), (Z.ltb_spec i (zlen a)); simpl; try done; lia.
Qed.

Lemma getz_setz a i j v :
  0 <= i < zlen a → 0 <= j →
  getz (setz a i v) j = if decide (i = j) then v else getz a j.
Proof.
  intros Hi Hj. unfold getz, setz, zlen in *. case_decide as Hd.
  - subst. apply list_lookup_total_insert_eq. lia.
  - apply list_lookup_total_insert_ne. lia.
Qed.

Lemma getz_setz_eq a i v : 0 <= i < zlen a → getz (setz a i v) i = v.
Proof. intros. rewrite getz_setz by lia. by rewrite decide_True. Qed.

Lemma getz_setz_ne a i j v :
  i ≠ j → 0 <= i < zlen a → 0 <= j → getz (setz a i v) j = getz a j.
Proof. intros. rewrite getz_setz by lia. by rewrite decide_False. Qed.

Lemma getz_ext (l1 l2 : list A) :
  zlen l1 = zlen l2 →
  (∀ i, 0 <= i < zlen l1 → getz l1 i = getz l2 i) → l1 = l2.
Proof.
  intros Hl Hg. apply list_eq_same_length with (length l1); [|done|].
  { unfold zlen in *. lia. }
  intros i x y Hi Hx Hy. specialize (Hg (Z.of_nat i)).
  unfold getz, zlen in Hg. rewrite Nat2Z.id in Hg.
  rewrite (list_lookup_total_correct _ _ _ Hx),
    (list_lookup_total_correct _ _ _ Hy) in Hg. apply Hg. lia.
Qed.

Lemma setz_getz a i : 0 <= i < zlen a → setz a i (getz a i) = a.
Proof.
  intros Hi. apply getz_ext; [by rewrite zlen_setz|]. intros j Hj.
  rewrite zlen_setz in Hj. rewrite getz_setz by lia.
  case_decide; by subst.
Qed.

Lemma getz_elem_of a x : x ∈ a ↔ ∃ i, 0 <= i < zlen a ∧ getz a i = x.
Proof.
  unfold getz, zlen. split.
  - intros [i Hi]%list_elem_of_lookup.
    pose proof (lookup_lt_Some _ _ _ Hi). exists (Z.of_nat i).
    rewrite Nat2Z.id. split; [lia|]. by apply list_lookup_total_correct.
  - intros (i & Hi & <-). apply list_elem_of_lookup_total.
    exists (Z.to_nat i). split; [lia|done].
Qed.

Lemma zlen_replicate n v : 0 <= n → zlen (replicate (Z.to_nat n) v) = n.
Proof. intros. unfold zlen. rewrite length_replicate. lia. Qed.

Lemma getz_replicate n i v :
  0 <= i < n → getz (replicate (Z.to_nat n) v) i = v.
Proof.
  intros. unfold getz. apply lookup_total_replicate_2. lia.
Qed.
End arrays.

#[export] Hint Rewrite @zlen_setz @zlen_app @zlen_cons @zlen_nil : pix_len.
#[export] Hint Resolve zlen_nonneg : pix.

(** Executes the reads and writes at the head of a goal, discharging bounds by
    linear arithmetic over lengths. *)
Ltac zlen_simpl := autorewrite with pix_len in *.
Ltac bounds := autorewrite with pix_len; lia.
Ltac crun_step :=
  match goal with
  | |- context [rd ?a ?i] => rewrite (rd_ok a i) by bounds
  | |- context [wr ?a ?i ?v] => rewrite (wr_ok a i v) by bounds
  end.
Ltac crun := repeat (crun_step; simpl).

(** Decides the tests whose answer follows from the context. *)
Ltac dec_simpl :=
  repeat match goal with
  | |- context [decide ?P] =>
      first [ rewrite (decide_True (P := P)) by (done || congruence)
            | rewrite (decide_False (P := P)) by (done || congruence) ]
  end.

(** ** Machine integers *)
Definition u8 (x : Z) : Z := x mod 2 ^ 8.
Definition u16 (x : Z) : Z := x mod 2 ^ 16.
Definition u32 (x : Z) : Z := x mod 2 ^ 32.
Definition u64 (x : Z) : Z := x mod 2 ^ 64.
Definition i32 (x : Z) : Z := (x + 2 ^ 31) mod 2 ^ 32 - 2 ^ 31.
Definition i64 (x : Z) : Z := (x + 2 ^ 63) mod 2 ^ 64 - 2 ^ 63.

Lemma u16_id x : 0 <= x < 2 ^ 16 → u16 x = x.
Proof. intros. by apply Z.mod_small. Qed.
Lemma u32_id x : 0 <= x < 2 ^ 32 → u32 x = x.
Proof. intros. by apply Z.mod_small. Qed.
Lemma u64_id x : 0 <= x < 2 ^ 64 → u64 x = x.
Proof. intros. by apply Z.mod_small. Qed.
Lemma i32_id x : - 2 ^ 31 <= x < 2 ^ 31 → i32 x = x.
Proof. intros. unfold i32. rewrite Z.mod_small; lia. Qed.
Lemma i32_pow2 n : 0 <= n < 31 → i32 (2 ^ n) = 2 ^ n.
Proof.
  intros Hn. apply i32_id. pose proof (Z.pow_lt_mono_r 2 n 31 ltac:(lia) ltac:(lia) ltac:(lia)).
  pose proof (Z.pow_pos_nonneg 2 n ltac:(lia) ltac:(lia)). lia.
Qed.

(** The product of two [int]s. *)
Definition int_mul (x y : Z) : res Z :=
  if (- 2 ^ 31 <=? x * y) && (x * y <? 2 ^ 31) then Ok (x * y) else Err IntOverflow.

Lemma int_mul_ok x y : - 2 ^ 31 <= x * y < 2 ^ 31 → int_mul x y = Ok (x * y).
Proof.
  intros. unfold int_mul. by rewrite (proj2 (Z.leb_le _ _)), (proj2 (Z.ltb_lt _ _)) by lia.
Qed.
Lemma int_mul_inv x y z : int_mul x y = Ok z → z = x * y ∧ - 2 ^ 31 <= x * y < 2 ^ 31.
Proof.
  unfold int_mul. destruct (_ && _) eqn:E; [|done]. intros [= <-].
  apply andb_true_iff in E as [?%Z.leb_le ?%Z.ltb_lt]. lia.
Qed.
Lemma int_mul_overflow x y : 2 ^ 31 <= x * y → int_mul x y = Err IntOverflow.
Proof.
  intros. unfold int_mul. by rewrite (proj2 (Z.ltb_ge _ _)), andb_false_r by lia.
Qed.

Lemma i64_id x : - 2 ^ 63 <= x < 2 ^ 63 → i64 x = x.
Proof. intros. unfold i64. rewrite Z.mod_small; lia. Qed.

(** Drops the wrap-around of [long long] computations that stay in range,
    innermost first. *)
Ltac drop_i64 :=
  repeat match goal with
  | |- context [i64 ?x] =>
      lazymatch x with
      | context [i64 _] => fail
      | _ => rewrite (i64_id x) by lia
      end
  end.

(** A [uint64_t] difference assigned to a [time_t] is the signed difference
    whenever that fits. *)
Lemma i64_u64 x : - 2 ^ 63 <= x < 2 ^ 63 → i64 (u64 x) = x.
Proof.
  intros Hx. unfold i64, u64. rewrite Zplus_mod_idemp_l.
  rewrite Z.mod_small; lia.
Qed.

(** ** Lists *)
Lemma NoDup_snoc {A} (l : list A) x : NoDup l → x ∉ l → NoDup (l ++ [x]).
Proof.
  intros ??. apply NoDup_app. repeat split; [done|set_solver|apply NoDup_singleton].
Qed.

(** Distinct numbers below [n] are at most [n]. *)
Lemma zlen_range_bound (l : list Z) n :
  NoDup l → (∀ j, j ∈ l → 0 <= j < n) → zlen l <= Z.max 0 n.
Proof.
  intros Hnd Hr. assert (Hsub : l ⊆+ seqZ 0 n).
  { apply NoDup_submseteq; [done|]. intros j Hj%Hr. apply elem_of_seqZ. lia. }
  apply submseteq_length in Hsub. rewrite length_seqZ in Hsub. unfold zlen. lia.
Qed.

Lemma Permutation_move {A} (l1 l2 k : list A) x :
  (l1 ++ x :: l2) ++ k ≡ₚ (l1 ++ l2) ++ x :: k.
Proof. rewrite <- !app_assoc. simpl. by rewrite (Permutation_middle l2 k x). Qed.

(** Elements with the same image under a function without repetitions. *)
Lemma NoDup_fmap_elem {A B} (f : A → B) (l : list A) x y :
  NoDup (f <$> l) → x ∈ l → y ∈ l → f x = f y → x = y.
Proof.
  intros Hnd [i Hi]%list_elem_of_lookup [j Hj]%list_elem_of_lookup E.
  assert (i = j) as ->; [|congruence].
  eapply NoDup_lookup; [exact Hnd| |]; rewrite list_lookup_fmap.
  - by rewrite Hi.
  - rewrite Hj. simpl. by rewrite E.
Qed.

(** ** Finite maps *)
Lemma map_size_delete_pos {K A} `{Countable K} (m : gmap K A) k x :
  m !! k = Some x → Z.of_nat (size (delete k m)) = Z.of_nat (size m) - 1.
Proof.
  intros Hk. rewrite map_size_delete_Some by eauto.
  assert (size m ≠ 0%nat); [|lia]. intros E%map_size_empty_inv. subst m.
  by rewrite lookup_empty in Hk.
Qed.

(** ** Rings

    [nchain f h l t]: following [f] from [h] visits [l] and then reaches [t].
    [pchain g h l t]: following [g] from [t] visits [l] backwards and reaches
    [h]. A doubly linked segment is the conjunction of both. *)
Fixpoint nchain (f : Z → Z) (h : Z) (l : list Z) (t : Z) : Prop :=
  match l with
  | [] => f h = t
  | x :: l' => f h = x ∧ nchain f x l' t
  end.

Fixpoint pchain (g : Z → Z) (h : Z) (l : list Z) (t : Z) : Prop :=
  match l with
  | [] => g t = h
  | x :: l' => g x = h ∧ pchain g x l' t
  end.

Fixpoint lastd (h : Z) (l : list Z) : Z :=
  match l with [] => h | x :: l' => lastd x l' end.
Definition headd (l : list Z) (t : Z) : Z :=
  match l with [] => t | x :: _ => x end.

Section rings.
Implicit Types (f g : Z → Z) (l : list Z).

Lemma nchain_app f h l1 x l2 t :
  nchain f h (l1 ++ x :: l2) t ↔ nchain f h l1 x ∧ nchain f x l2 t.
Proof. revert h; induction l1 as [|a l1 IH]; intros h; simpl; [tauto|]. rewrite IH. tauto. Qed.

Lemma pchain_app g h l1 x l2 t :
  pchain g h (l1 ++ x :: l2) t ↔ pchain g h l1 x ∧ pchain g x l2 t.
Proof. revert h; induction l1 as [|a l1 IH]; intros h; simpl; [tauto|]. rewrite IH. tauto. Qed.

Lemma lastd_elem h l : lastd h l = h ∧ l = [] ∨ lastd h l ∈ l.
Proof.
  revert h; induction l as [|a l IH]; intros h; simpl; [by left|].
  right. destruct (IH a) as [[-> ->]|?]; set_solver.
Qed.

Lemma headd_elem l t : headd l t = t ∧ l = [] ∨ headd l t ∈ l.
Proof. destruct l; simpl; [by left|set_solver]. Qed.

Lemma lastd_snoc h l x : lastd h (l ++ [x]) = x.
Proof. revert h; induction l as [|a l IH]; intros h; simpl; auto. Qed.

Lemma nchain_head f h l t : nchain f h l t → f h = headd l t.
Proof. destruct l; simpl; tauto. Qed.

Lemma pchain_last g h l t : pchain g h l t → g t = lastd h l.
Proof. revert h; induction l as [|a l IH]; intros h; simpl; [done|]. intros [_ ?]. auto. Qed.

Lemma nchain_frame f f' h l t :
  (∀ a, a = h ∨ a ∈ l → f' a = f a) → nchain f h l t → nchain f' h l t.
Proof.
  revert h; induction l as [|a l IH]; intros h Hf; simpl.
  - intros <-. apply Hf. by left.
  - intros [<- Hl]. rewrite Hf by auto. split; [done|].
    apply IH; [|done]. set_solver.
Qed.

(** Moves the start of a segment to another node with the same successor. *)
Lemma nchain_reroot f f' h h' l t :
  f' h' = f h → (∀ a, a ∈ l → f' a = f a) → nchain f h l t → nchain f' h' l t.
Proof.
  destruct l as [|a l]; simpl; [congruence|].
  intros Hh Hf [Ha Hl]. split; [congruence|]. eapply nchain_frame; [|done]. set_solver.
Qed.

Lemma pchain_frame g g' h l t :
  (∀ b, b ∈ l ∨ b = t → g' b = g b) → pchain g h l t → pchain g' h l t.
Proof.
  revert h; induction l as [|a l IH]; intros h Hg; simpl.
  - intros <-. apply Hg. by right.
  - intros [<- Hl]. rewrite Hg by set_solver. split; [done|].
    apply IH; [|done]. set_solver.
Qed.

(** Redirects the last link of a segment. *)
Lemma nchain_retarget f f' h l x y :
  NoDup (h :: l) →
  (∀ a, a = h ∨ a ∈ l → a ≠ lastd h l → f' a = f a) →
  f' (lastd h l) = y → nchain f h l x → nchain f' h l y.
Proof.
  revert h; induction l as [|a l IH]; intros h Hnd Hf Hy; simpl; [done|].
  simpl in *. intros [<- Hl]. apply NoDup_cons in Hnd as [Hh Hnd]. split.
  - apply Hf; [by left|]. intros Heq.
    apply Hh, elem_of_cons.
    destruct (lastd_elem (f h) l) as [[E _]|E]; rewrite <- Heq in E; auto.
  - apply IH; [done| |done|done]. intros b Hb. apply Hf. set_solver.
Qed.

(** Redirects the first back link of a segment. *)
Lemma pchain_resource g g' h h' l t :
  NoDup (l ++ [t]) →
  (∀ b, b ∈ l ∨ b = t → b ≠ headd l t → g' b = g b) →
  g' (headd l t) = h' → pchain g h l t → pchain g' h' l t.
Proof.
  destruct l as [|a l]; simpl; [done|].
  intros Hnd Hg Hh [_ Hl]. split; [done|]. apply NoDup_cons in Hnd as [Ha Hnd].
  eapply pchain_frame; [|done]. intros b Hb. apply Hg; set_solver.
Qed.

(** Unlinks [x] from a ring through the sentinel [h]. *)
Lemma ring_unlink f f' g g' h l1 x l2 :
  NoDup (h :: l1 ++ x :: l2) →
  (∀ a, a = h ∨ a ∈ l1 ++ l2 → a ≠ lastd h l1 → f' a = f a) →
  f' (lastd h l1) = headd l2 h →
  (∀ b, b = h ∨ b ∈ l1 ++ l2 → b ≠ headd l2 h → g' b = g b) →
  g' (headd l2 h) = lastd h l1 →
  nchain f h (l1 ++ x :: l2) h → pchain g h (l1 ++ x :: l2) h →
  nchain f' h (l1 ++ l2) h ∧ pchain g' h (l1 ++ l2) h.
Proof.
  intros Hnd Hf Hfl Hg Hgl [Hn1 Hn2]%nchain_app [Hp1 Hp2]%pchain_app.
  apply NoDup_cons in Hnd as [Hh [Hnd1 [Hd Hnd2]]%NoDup_app].
  apply NoDup_cons in Hnd2 as [Hx Hnd2].
  assert (Hl : lastd h l1 ∉ l2).
  { destruct (lastd_elem h l1) as [[-> _]|]; set_solver. }
  assert (Hn1' : nchain f' h l1 (headd l2 h)).
  { eapply nchain_retarget; [| |done|exact Hn1].
    - apply NoDup_cons. set_solver.
    - set_solver. }
  destruct l2 as [|q l2]; simpl in *.
  - rewrite app_nil_r in *. split; [done|].
    destruct (decide (l1 = [])) as [->|Hne]; [done|].
    destruct (exists_last Hne) as (l0 & p & ->). rewrite lastd_snoc in *.
    apply pchain_app in Hp1 as [Hp1 _]. apply pchain_app. split.
    + eapply pchain_frame; [|exact Hp1]. set_solver.
    + done.
  - apply NoDup_cons in Hnd2 as [Hq Hnd2]. rewrite nchain_app, pchain_app.
    destruct Hn2 as [_ Hn2], Hp2 as [_ Hp2]. repeat split.
    + done.
    + eapply nchain_frame; [|done]. set_solver.
    + destruct (decide (l1 = [])) as [->|Hne]; [done|].
      destruct (exists_last Hne) as (l0 & p & ->). rewrite lastd_snoc in *.
      apply pchain_app in Hp1 as [Hp1 _]. apply pchain_app. split; [|done].
      eapply pchain_frame; [|exact Hp1]. set_solver.
    + eapply pchain_frame; [|done]. set_solver.
Qed.

(** Links [x] at the end of a ring through the sentinel [h]. *)
Lemma ring_append f f' g g' h l x :
  NoDup (h :: l ++ [x]) →
  (∀ a, a = h ∨ a ∈ l → a ≠ lastd h l → f' a = f a) →
  f' (lastd h l) = x → f' x = h →
  (∀ b, b ∈ l → g' b = g b) → g' x = lastd h l → g' h = x →
  nchain f h l h → pchain g h l h →
  nchain f' h (l ++ [x]) h ∧ pchain g' h (l ++ [x]) h.
Proof.
  intros Hnd Hf Hfl Hfx Hg Hgx Hgh Hn Hp.
  apply NoDup_cons in Hnd as [Hh [Hnd [Hd _]]%NoDup_app].
  rewrite nchain_app, pchain_app. simpl. repeat split; [|done| |done].
  - eapply nchain_retarget; [|exact Hf|done|exact Hn]. apply NoDup_cons. set_solver.
  - destruct (decide (l = [])) as [->|Hne]; [done|].
    destruct (exists_last Hne) as (l0 & p & ->). rewrite lastd_snoc in *.
    apply pchain_app in Hp as [Hp _]. apply pchain_app. split; [|done].
    eapply pchain_frame; [|exact Hp]. set_solver.
Qed.
End rings.

(** ** Counting

    [zcount f n] is the number of [j] in [0, n) with [f j]. *)
Definition lcount (f : Z → bool) (l : list Z) : Z :=
  foldr (λ j acc, Z.b2z (f j) + acc) 0 l.
Definition zcount (f : Z → bool) (n : Z) : Z := lcount f (seqZ 0 n).

Section counting.
Implicit Types (f g : Z → bool) (l : list Z) (n j : Z).

Lemma lcount_ext f g l : (∀ j, j ∈ l → f j = g j) → lcount f l = lcount g l.
Proof.
  induction l as [|a l IH]; simpl; intros Hfg; [done|].
  rewrite Hfg, IH by set_solver. done.
Qed.

Lemma lcount_update f g l j :
  NoDup l → j ∈ l → (∀ i, i ∈ l → i ≠ j → g i = f i) →
  lcount g l = lcount f l - Z.b2z (f j) + Z.b2z (g j).
Proof.
  induction l as [|a l IH]; simpl; [by intros _ ?%elem_of_nil|].
  intros [Ha Hnd]%NoDup_cons Hj Hfg. apply elem_of_cons in Hj as [->|Hj].
  - rewrite (lcount_ext g f); [lia|]. intros i Hi. apply Hfg; set_solver.
  - rewrite IH by set_solver. rewrite (Hfg a) by set_solver. lia.
Qed.

Lemma lcount_bounds f l : 0 <= lcount f l <= zlen l.
Proof.
  unfold zlen. induction l as [|a l IH]; simpl; [lia|]. destruct (f a); simpl; lia.
Qed.

Lemma lcount_pos f l j : j ∈ l → f j = true → 0 < lcount f l.
Proof.
  induction l as [|a l IH]; simpl; [by intros ?%elem_of_nil|].
  intros [->|Hj]%elem_of_cons Hf.
  - rewrite Hf. pose proof (lcount_bounds f l). simpl. lia.
  - specialize (IH Hj Hf). destruct (f a); simpl; lia.
Qed.

Lemma lcount_lt f l : lcount f l < zlen l → ∃ j, j ∈ l ∧ f j = false.
Proof.
  unfold zlen. induction l as [|a l IH]; simpl; [lia|].
  destruct (f a) eqn:Hf; simpl.
  - intros. destruct IH as (j & ? & ?); [lia|]. exists j. set_solver.
  - exists a. set_solver.
Qed.

Lemma lcount_full f l j : zlen l <= lcount f l → j ∈ l → f j = true.
Proof.
  unfold zlen. induction l as [|a l IH]; simpl; [by intros _ ?%elem_of_nil|].
  pose proof (lcount_bounds f l) as Hb. unfold zlen in Hb.
  intros Hl [->|Hj]%elem_of_cons; destruct (f _) eqn:E in Hl; simpl in *; try lia; auto.
  apply IH; [lia|done].
Qed.

Lemma zcount_ext f g n : (∀ j, 0 <= j < n → f j = g j) → zcount f n = zcount g n.
Proof. intros Hfg. apply lcount_ext. intros j Hj%elem_of_seqZ. apply Hfg. lia. Qed.

Lemma zcount_update f g n j :
  0 <= j < n → (∀ i, 0 <= i < n → i ≠ j → g i = f i) →
  zcount g n = zcount f n - Z.b2z (f j) + Z.b2z (g j).
Proof.
  intros Hj Hfg. apply lcount_update; [apply NoDup_seqZ|apply elem_of_seqZ; lia|].
  intros i Hi%elem_of_seqZ. apply Hfg. lia.
Qed.

Lemma zcount_bounds f n : 0 <= n → 0 <= zcount f n <= n.
Proof.
  intros Hn. pose proof (lcount_bounds f (seqZ 0 n)) as H. unfold zlen in H.
  rewrite length_seqZ in H. unfold zcount. lia.
Qed.

Lemma zcount_pos f n j : 0 <= j < n → f j = true → 0 < zcount f n.
Proof. intros Hj. apply lcount_pos, elem_of_seqZ. lia. Qed.

Lemma zcount_lt f n : 0 <= n → zcount f n < n → ∃ j, 0 <= j < n ∧ f j = false.
Proof.
  intros Hn Hlt. destruct (lcount_lt f (seqZ 0 n)) as (j & Hj%elem_of_seqZ & Hf).
  { unfold zlen. rewrite length_seqZ. unfold zcount in Hlt. lia. }
  exists j. split; [lia|done].
Qed.

Lemma zcount_mono f g n :
  (∀ j, 0 <= j < n → f j = true → g j = true) → zcount f n <= zcount g n.
Proof.
  intros Hfg. unfold zcount.
  assert (∀ j, j ∈ seqZ 0 n → f j = true → g j = true) as Hl.
  { intros j Hj%elem_of_seqZ. apply Hfg. lia. }
  induction (seqZ 0 n) as [|a l IH]; simpl; [lia|].
  assert (Z.b2z (f a) <= Z.b2z (g a)).
  { destruct (f a) eqn:E; simpl; [by rewrite Hl by set_solver|destruct (g a); simpl; lia]. }
  assert (lcount f l <= lcount g l) by (apply IH; set_solver). unfold lcount in *. lia.
Qed.

Lemma zcount_full f n : n <= zcount f n → ∀ j, 0 <= j < n → f j = true.
Proof.
  intros Hn j Hj. apply (lcount_full f (seqZ 0 n)); [|apply elem_of_seqZ; lia].
  unfold zlen. rewrite length_seqZ. unfold zcount in Hn. lia.
Qed.

Lemma zcount_false f n : (∀ j, 0 <= j < n → f j = false) → zcount f n = 0.
Proof.
  intros Hf. rewrite (zcount_ext f (λ _, false)) by done.
  unfold zcount. induction (seqZ 0 n); simpl; lia.
Qed.
End counting.

(** ** Cyclic distance

    [dist c s i] is the number of steps from [s] to [i] on a cycle of length [c]. *)
Definition dist (c s i : Z) : Z := (i - s) mod c.

Section cyclic.
Variable c : Z.
Hypothesis Hc : 0 < c.

Lemma dist_bound s i : 0 <= dist c s i < c.
Proof. apply Z.mod_pos_bound. lia. Qed.

Lemma dist_step s i : 0 <= i < c → dist c s ((s mod c + i) mod c) = i.
Proof.
  intros Hi. unfold dist. rewrite Zminus_mod_idemp_l.
  rewrite (Z.mod_eq s c) by lia.
  replace (s - c * (s / c) + i - s) with (i + (- (s / c)) * c) by ring.
  rewrite Z.mod_add by lia. apply Z.mod_small. lia.
Qed.

Lemma step_dist s i : 0 <= i < c → (s mod c + dist c s i) mod c = i.
Proof.
  intros Hi. unfold dist. rewrite Zplus_mod_idemp_l, Zplus_mod_idemp_r.
  replace (s + (i - s)) with i by ring. apply Z.mod_small. lia.
Qed.

Lemma dist_inj s i j : 0 <= i < c → 0 <= j < c → dist c s i = dist c s j → i = j.
Proof.
  intros Hi Hj E. rewrite <- (step_dist s i), <- (step_dist s j) by done. by rewrite E.
Qed.
End cyclic.
