(* ===== verification/Malloc.v ===== *)
(** * Allocation with [malloc] and [free]

    The allocation functions of the containers ([map_allocate],
    [dmap_allocate], [dchain_allocate], [vector_allocate], ...) request several
    blocks and, when a request fails, release the ones they hold before they
    return 0. This file models the allocator as a set of live blocks together
    with an oracle that decides which requests succeed, and proves once and for
    all that code of that shape neither leaks nor frees twice. *)

From S2P Require Import Prelude.

(** [next_block] numbers the requests made so far, [live] are the blocks in use. *)
Record heap := mk_heap { next_block : nat; live : list nat }.

#[global] Instance heap_eq_dec : EqDecision heap.
Proof. solve_decision. Defined.

(** Blocks are numbered by the request that created them. *)
Definition heap_wf (h : heap) : Prop :=
  NoDup (live h) ∧ ∀ b, b ∈ live h → (b < next_block h)%nat.

Lemma heap_wf_empty : heap_wf (mk_heap 0 []).
Proof. split; simpl; [constructor|]. by intros b ?%elem_of_nil. Qed.

Lemma filter_ne_fresh b (l : list nat) : b ∉ l → filter (λ x, x ≠ b) l = l.
Proof.
  induction l as [|a l IH]; intros Hb; [done|].
  rewrite filter_cons_True by set_solver. rewrite IH; set_solver.
Qed.

Section malloc.
(** [ok n] says whether the [n]-th request succeeds. *)
Variable ok : nat → bool.

Definition malloc (h : heap) : option nat * heap :=
  let n := next_block h in
  if ok n then (Some n, mk_heap (S n) (n :: live h)) else (None, mk_heap (S n) (live h)).

(** [free(p)]; releasing a block that is not live is undefined behaviour. *)
Definition free (b : nat) (h : heap) : res heap :=
  if decide (b ∈ live h)
  then Ok (mk_heap (next_block h) (filter (λ x, x ≠ b) (live h)))
  else Err OutOfBounds.

Fixpoint frees (bs : list nat) (h : heap) : res heap :=
  match bs with
  | [] => Ok h
  | b :: bs' => h ← free b h; frees bs' h
  end.

(** [p = malloc(..); if (p == NULL) { free(..); ..; return fail; } k(p)] *)
Definition malloc_or {R} (cleanup : list nat) (fail : R)
    (k : nat → heap → res (R * heap)) (h : heap) : res (R * heap) :=
  match malloc h with
  | (Some b, h) => k b h
  | (None, h) => h ← frees cleanup h; Ok (fail, h)
  end.

(** [n] requests in a row, each failure releasing the earlier blocks in the
    reverse order of their creation; [k] continues with the blocks, the
    most recent first. *)
Fixpoint malloc_all {R} (n : nat) (held : list nat) (fail : R)
    (k : list nat → heap → res (R * heap)) (h : heap) : res (R * heap) :=
  match n with
  | O => k held h
  | S n' => malloc_or held fail (λ b, malloc_all n' (b :: held) fail k) h
  end.

Lemma frees_held bs n l :
  NoDup (bs ++ l) → frees bs (mk_heap n (bs ++ l)) = Ok (mk_heap n l).
Proof.
  induction bs as [|b bs IH]; simpl; [done|]. intros [Hb Hnd]%NoDup_cons.
  unfold free. simpl. rewrite decide_True by set_solver. simpl.
  rewrite filter_cons_False by naive_solver. rewrite filter_ne_fresh by done.
  by apply IH.
Qed.

(** Either all requests succeed, or one failed and the live blocks are those of
    the start. *)
Lemma malloc_all_spec {R} n held (fail : R) k l m :
  NoDup (held ++ l) → (∀ b, b ∈ held ++ l → (b < m)%nat) →
  (∃ bs h', malloc_all n held fail k (mk_heap m (held ++ l)) = k (bs ++ held) h' ∧
     length bs = n ∧ live h' = bs ++ held ++ l ∧ heap_wf h') ∨
  (∃ m', malloc_all n held fail k (mk_heap m (held ++ l)) = Ok (fail, mk_heap m' l) ∧
     ∃ r, ok r = false).
Proof.
  revert held m. induction n as [|n IH]; intros held m Hnd Hm; simpl.
  { left. exists [], (mk_heap m (held ++ l)). done. }
  unfold malloc_or, malloc. simpl. destruct (ok m) eqn:Em.
  - destruct (IH (m :: held) (S m)) as [(bs & h' & E & Hl & Hlive & Hwf)|(m' & E)].
    + simpl. apply NoDup_cons. split; [|done]. intros ?%Hm. lia.
    + simpl. intros b [->|?%Hm]%elem_of_cons; lia.
    + left. exists (bs ++ [m]), h'. rewrite <- !app_assoc. simpl in *.
      rewrite E, length_app. simpl. split_and!; [done|lia|done|apply Hwf..].
    + right. exists m'. done.
  - right. exists (S m). simpl. rewrite frees_held by done. split; [done|by exists m].
Qed.

(** The same from the start of a function: all blocks, or none. *)
Lemma malloc_all_top {R} n (fail : R) k h :
  heap_wf h →
  (∃ bs h', malloc_all n [] fail k h = k bs h' ∧ length bs = n ∧ live h' = bs ++ live h ∧
     heap_wf h') ∨
  (∃ m', malloc_all n [] fail k h = Ok (fail, mk_heap m' (live h)) ∧ ∃ r, ok r = false).
Proof.
  intros [Hnd Hb]. destruct h as [nb l]. simpl in *.
  destruct (malloc_all_spec n [] fail k l nb Hnd Hb) as [(bs & h' & E & ?)|?].
  - left. exists bs, h'. rewrite app_nil_r in E. done.
  - by right.
Qed.
End malloc.

Lemma free_below b bs n l :
  NoDup (bs ++ b :: l) → free b (mk_heap n (bs ++ b :: l)) = Ok (mk_heap n (bs ++ l)).
Proof.
  intros Hnd. unfold free. simpl. rewrite decide_True by set_solver. do 2 f_equal.
  apply NoDup_app in Hnd as (_ & Hd & [Hb _]%NoDup_cons).
  rewrite filter_app, filter_cons_False by naive_solver.
  rewrite (filter_ne_fresh b l) by done. rewrite filter_ne_fresh; [done|].
  intros Hin. apply (Hd b Hin). by left.
Qed.

(** One request keeps the allocator well formed. *)
Lemma heap_wf_request h : heap_wf h → heap_wf (mk_heap (S (next_block h)) (live h)).
Proof. intros [Hnd Hb]. split; simpl; [done|]. intros b ?%Hb. lia. Qed.

Lemma heap_wf_malloc h :
  heap_wf h → heap_wf (mk_heap (S (next_block h)) (next_block h :: live h)).
Proof.
  intros [Hnd Hb]. split; simpl.
  - apply NoDup_cons. split; [|done]. intros ?%Hb. lia.
  - intros b [->|?%Hb]%elem_of_cons; lia.
Qed.

(** [if (c(.., &p) == 0) return NULL; k(p)], where [c] is one of the allocation
    functions of the containers: it returns an [int] and stores its result. *)
Definition or_null {A R} (c : heap → res ((Z * option A) * heap))
    (k : A → heap → res (option R * heap)) (h : heap) : res (option R * heap) :=
  '((r, x), h) ← c h;
  match x with
  | Some a => if r =? 0 then Ok (None, h) else k a h
  | None => Ok (None, h)
  end.

(** An initialisation returns, what it returns satisfies [Q], and it returns
    something if no request fails. *)
Definition initialises {R} (ok : nat → bool) (Q : R → Prop) (r : res (option R * heap)) : Prop :=
  ∃ o h, r = Ok (o, h) ∧ (∀ st, o = Some st → Q st) ∧ ((∀ n, ok n = true) → is_Some o).

Lemma initialises_done {R} ok (Q : R → Prop) st h : Q st → initialises ok Q (Ok (Some st, h)).
Proof. intros HQ. exists (Some st), h. split; [done|]. split; [by intros ? [= <-]|done]. Qed.

Lemma or_null_spec {A R} ok (P : A → Prop) (Q : R → Prop) c k h :
  (∃ a h', c h = Ok ((1, Some a), h') ∧ P a ∧ heap_wf h') ∨
    (∃ n o, c h = Ok ((0, o), mk_heap n (live h)) ∧ ∃ r, ok r = false) →
  (∀ a h', P a → heap_wf h' → initialises ok Q (k a h')) →
  initialises ok Q (or_null c k h).
Proof.
  intros [(a & h' & E & HP & Hwf)|(n & o & E & r & Hr)] Hk; unfold or_null; rewrite E;
    cbn [mbind res_bind Z.eqb]; [by apply Hk|].
  exists None, (mk_heap n (live h)). split; [by destruct o|]. split; [done|].
  intros Hok. specialize (Hok r). congruence.
Qed.

Lemma malloc_or_null_spec {R} ok (Q : R → Prop) k h :
  heap_wf h → (∀ b h', heap_wf h' → initialises ok Q (k b h')) →
  initialises ok Q (malloc_or ok [] None k h).
Proof.
  intros Hwf Hk. unfold malloc_or, malloc. destruct (ok (next_block h)) eqn:E.
  - by apply Hk, heap_wf_malloc.
  - exists None, (mk_heap (S (next_block h)) (live h)). split; [done|]. split; [done|].
    intros Hok. specialize (Hok (next_block h)). congruence.
Qed.

(** [x = c(..); if (x == NULL) return NULL; k(x)] *)
Definition and_then {A R} (c : heap → res (option A * heap))
    (k : A → heap → res (option R * heap)) (h : heap) : res (option R * heap) :=
  '(x, h) ← c h;
  match x with
  | Some a => k a h
  | None => Ok (None, h)
  end.

Lemma and_then_spec {A R} ok (P : A → Prop) (Q : R → Prop) c k h :
  initialises ok P (c h) → (∀ a h', P a → initialises ok Q (k a h')) →
  initialises ok Q (and_then c k h).
Proof.
  intros (o & h' & E & HP & Hok) Hk. unfold and_then. rewrite E. cbn [mbind res_bind].
  destruct o as [a|]; [by apply Hk, HP|].
  exists None, h'. split; [done|]. split; [done|]. intros Hall. by destruct (Hok Hall).
Qed.

(** [x = c(..); if (x == NULL) rte_exit(..)] *)
Definition or_exit {A} (c : heap → res (option A * heap)) (h : heap) : res (A * heap) :=
  '(x, h) ← c h;
  match x with
  | Some a => Ok (a, h)
  | None => Err Exit
  end.

Lemma or_exit_spec {A} ok (Q : A → Prop) c h :
  initialises ok Q (c h) →
  (∃ a h', or_exit c h = Ok (a, h') ∧ Q a) ∨
  (or_exit c h = Err Exit ∧ ¬ ∀ n, ok n = true).
Proof.
  intros (o & h' & E & HQ & Hok). unfold or_exit. rewrite E. cbn [mbind res_bind].
  destruct o as [a|]; [left|right].
  - exists a, h'. split; [done|by apply HQ].
  - split; [done|]. intros Hall. by destruct (Hok Hall).
Qed.

(** *** Initialisations that clean up

    [if (c(.., &s->p) == 0) goto err; k(s->p)], where the code at [err] frees the
    blocks stored in [s] so far, and [s] itself: [held]. The block that [c] stores
    is the first it requests. (The order of the calls of [free] does not matter.) *)
Definition or_err {A R} (held : list nat) (c : heap → res ((Z * option A) * heap))
    (k : A → list nat → heap → res (option R * heap)) (h : heap) : res (option R * heap) :=
  let b := next_block h in
  let err h := h ← frees held h; Ok (None, h) in
  '((r, x), h) ← c h;
  match x with
  | Some a => if r =? 0 then err h else k a (b :: held) h
  | None => err h
  end.

Lemma malloc_or_inv {R} ok cleanup (fail : R) k h r h' :
  malloc_or ok cleanup fail k h = Ok (r, h') → r ≠ fail →
  k (next_block h) (mk_heap (S (next_block h)) (next_block h :: live h)) = Ok (r, h').
Proof.
  unfold malloc_or, malloc. destruct (ok (next_block h)); [done|].
  intros (h1 & _ & E)%res_bind_Ok Hr. by simplify_eq.
Qed.

Lemma frees_sub bs h : NoDup bs → bs ⊆ live h → ∃ h', frees bs h = Ok h'.
Proof.
  revert h. induction bs as [|b bs IH]; intros h Hnd Hsub; [by exists h|].
  apply NoDup_cons in Hnd as [Hb Hnd]. cbn [frees]. unfold free.
  rewrite decide_True by (apply Hsub; by left). cbn [mbind res_bind]. apply IH; [done|].
  intros x Hx. simpl. apply list_elem_of_filter. split; [by intros ->|]. apply Hsub. by right.
Qed.

(** What an allocation function promises its caller. *)
Definition allocates {A} (ok : nat → bool) (P : A → Prop) (c : heap → res ((Z * option A) * heap))
    : Prop :=
  ∀ h, heap_wf h →
    (∃ a h', c h = Ok ((1, Some a), h') ∧ P a ∧ heap_wf h' ∧
       next_block h ∈ live h' ∧ live h ⊆ live h') ∨
    (∃ n o, c h = Ok ((0, o), mk_heap n (live h)) ∧ ∃ r, ok r = false).

(** The state was built, or memory ran out. *)
Definition builds {R} (ok : nat → bool) (Q : R → Prop) (r : res (option R * heap)) : Prop :=
  (∃ st h, r = Ok (Some st, h) ∧ Q st) ∨
  (((∃ h, r = Ok (None, h)) ∨ r = Err OutOfBounds) ∧ ∃ n, ok n = false).

Lemma or_err_spec {A R} ok (P : A → Prop) (Q : R → Prop) held c k h :
  allocates ok P c → heap_wf h → NoDup held → held ⊆ live h →
  (∀ a held' h', P a → heap_wf h' → NoDup held' → held' ⊆ live h' → builds ok Q (k a held' h')) →
  builds ok Q (or_err held c k h).
Proof.
  intros Hc Hwf Hnd Hsub Hk. unfold or_err.
  destruct (Hc h Hwf) as [(a & h' & -> & HP & Hwf' & Hin & Hl)|(n & o & -> & Hr)]; cbn [mbind res_bind Z.eqb].
  - apply Hk; [done|done| |].
    + apply NoDup_cons. split; [|done]. intros ?%Hsub%Hwf. lia.
    + intros b [->|Hb]%elem_of_cons; [done|]. by apply Hl, Hsub.
  - destruct (frees_sub held (mk_heap n (live h)) Hnd Hsub) as (h' & E). right. split; [|done].
    left. exists h'. destruct o; by rewrite E.
Qed.
