(* ===== verification/DChainImpl.v ===== *)
(** * The index chain: [dchain_cell] arrays

    Models [lib/containers/double-chain-impl.c] and the abstract specification
    (VeriFast fixpoints) of [double-chain-impl.h]. The array of cells holds two
    rings: the doubly linked "alloc" ring through cell 0, in order of age, and
    the singly linked "free" ring through cell 1. The theorems show that every
    operation stays inside the array and implements the list operation of the
    header. *)

From S2P Require Import Prelude.

(** ** Data: [struct dchain_cell] *)
Record dchain_cell := mk_cell { prev : Z; next : Z }.

#[global] Instance dchain_cell_eq_dec : EqDecision dchain_cell.
Proof. solve_decision. Defined.
#[global] Instance dchain_cell_inhabited : Inhabited dchain_cell :=
  populate (mk_cell 0 0).

Definition ALLOC_LIST_HEAD : Z := 0.
Definition FREE_LIST_HEAD : Z := 1.
Definition DCHAIN_RESERVED : Z := 2.
Definition INDEX_SHIFT : Z := DCHAIN_RESERVED.

(** [p->prev = v] and [p->next = v] for [p = cells + i]. *)
Definition set_prev (cells : list dchain_cell) (i v : Z) : res (list dchain_cell) :=
  c ← rd cells i; wr cells i (mk_cell v (next c)).
Definition set_next (cells : list dchain_cell) (i v : Z) : res (list dchain_cell) :=
  c ← rd cells i; wr cells i (mk_cell (prev c) v).

(** ** Operations *)

(** The [while] loop of [dchain_impl_init]; [n] is the number of remaining
    iterations, [size + INDEX_SHIFT - 1 - i]. *)
Fixpoint dchain_impl_init_loop (n : nat) (cells : list dchain_cell) (i : Z)
    : res (list dchain_cell * Z) :=
  match n with
  | O => Ok (cells, i)
  | S n' =>
      cells ← set_next cells i (i + 1);
      current ← rd cells i;
      cells ← set_prev cells i (next current);
      dchain_impl_init_loop n' cells (i + 1)
  end.

Definition dchain_impl_init (cells : list dchain_cell) (size : Z)
    : res (list dchain_cell) :=
  cells ← set_prev cells ALLOC_LIST_HEAD 0;
  cells ← set_next cells ALLOC_LIST_HEAD 0;
  let i := INDEX_SHIFT in
  cells ← set_next cells FREE_LIST_HEAD i;
  fl_head ← rd cells FREE_LIST_HEAD;
  cells ← set_prev cells FREE_LIST_HEAD (next fl_head);
  '(cells, i) ← dchain_impl_init_loop (Z.to_nat (size + INDEX_SHIFT - 1 - i)) cells i;
  cells ← set_next cells i FREE_LIST_HEAD;
  last ← rd cells i;
  set_prev cells i (next last).

(** Results are [(return value, cells, *index)]. *)
Definition dchain_impl_allocate_new_index (cells : list dchain_cell) (index : Z)
    : res (Z * list dchain_cell * Z) :=
  fl_head ← rd cells FREE_LIST_HEAD;
  let allocated := next fl_head in
  if allocated =? FREE_LIST_HEAD then Ok (0, cells, index)
  else
    allocp ← rd cells allocated;
    (* Extract the link from the "empty" chain. *)
    cells ← set_next cells FREE_LIST_HEAD (next allocp);
    fl_head ← rd cells FREE_LIST_HEAD;
    cells ← set_prev cells FREE_LIST_HEAD (next fl_head);
    (* Add the link to the "new"-end "alloc" chain. *)
    cells ← set_next cells allocated ALLOC_LIST_HEAD;
    al_head ← rd cells ALLOC_LIST_HEAD;
    cells ← set_prev cells allocated (prev al_head);
    al_head ← rd cells ALLOC_LIST_HEAD;
    cells ← set_next cells (prev al_head) allocated;
    cells ← set_prev cells ALLOC_LIST_HEAD allocated;
    Ok (1, cells, allocated - INDEX_SHIFT).

Definition dchain_impl_free_index (cells : list dchain_cell) (index : Z)
    : res (Z * list dchain_cell) :=
  let freed := index + INDEX_SHIFT in
  freedp ← rd cells freed;
  let freed_prev := prev freedp in
  let freed_next := next freedp in
  (* Extract the link from the "alloc" chain. *)
  cells ← set_next cells freed_prev freed_next;
  cells ← set_prev cells freed_next freed_prev;
  (* Add the link to the "free" chain. *)
  fr_head ← rd cells FREE_LIST_HEAD;
  cells ← set_next cells freed (next fr_head);
  freedp ← rd cells freed;
  cells ← set_prev cells freed (next freedp);
  cells ← set_next cells FREE_LIST_HEAD freed;
  fr_head ← rd cells FREE_LIST_HEAD;
  cells ← set_prev cells FREE_LIST_HEAD (next fr_head);
  Ok (1, cells).

Definition dchain_impl_get_oldest_index (cells : list dchain_cell) (index : Z)
    : res (Z * Z) :=
  al_head ← rd cells ALLOC_LIST_HEAD;
  if next al_head =? ALLOC_LIST_HEAD then Ok (0, index)
  else Ok (1, next al_head - INDEX_SHIFT).

Definition dchain_impl_rejuvenate_index (cells : list dchain_cell) (index : Z)
    : res (Z * list dchain_cell) :=
  let lifted := index + INDEX_SHIFT in
  liftedp ← rd cells lifted;
  let lifted_next := next liftedp in
  let lifted_prev := prev liftedp in
  if lifted_next =? lifted_prev then
    if negb (lifted_next =? ALLOC_LIST_HEAD) then Ok (0, cells)
    else (* There is only one element allocated - no point in changing anything *)
      Ok (1, cells)
  else
    (* Unlink it from the middle of the "alloc" chain. *)
    cells ← set_next cells lifted_prev lifted_next;
    cells ← set_prev cells lifted_next lifted_prev;
    al_head ← rd cells ALLOC_LIST_HEAD;
    let al_head_prev := prev al_head in
    (* Link it at the very end - right before the special link. *)
    cells ← set_next cells lifted ALLOC_LIST_HEAD;
    cells ← set_prev cells lifted al_head_prev;
    cells ← set_next cells al_head_prev lifted;
    cells ← set_prev cells ALLOC_LIST_HEAD lifted;
    Ok (1, cells).

Definition dchain_impl_is_index_allocated (cells : list dchain_cell) (index : Z)
    : res Z :=
  let lifted := index + INDEX_SHIFT in
  liftedp ← rd cells lifted;
  Ok (Z.b2z (negb (next liftedp =? prev liftedp) || (next liftedp =? ALLOC_LIST_HEAD))).

(** ** Abstract specification: the fixpoints of [double-chain-impl.h] *)
Record dchaini := mk_dchaini { dchaini_alist_fp : list Z; dchaini_irange_fp : Z }.

(** VeriFast's [remove]: drops the first occurrence. *)
Fixpoint remove_fst (x : Z) (l : list Z) : list Z :=
  match l with
  | [] => []
  | h :: t => if h =? x then t else h :: remove_fst x t
  end.

Definition mem (x : Z) (l : list Z) : bool := existsb (Z.eqb x) l.

Definition empty_dchaini_fp (index_range : Z) : dchaini := mk_dchaini [] index_range.
Definition dchaini_out_of_space_fp (ch : dchaini) : bool :=
  dchaini_irange_fp ch <=? zlen (dchaini_alist_fp ch).
Definition dchaini_allocated_fp (ch : dchaini) (idx : Z) : bool :=
  mem idx (dchaini_alist_fp ch).
Definition dchaini_allocate_fp (ch : dchaini) (idx : Z) : dchaini :=
  mk_dchaini (dchaini_alist_fp ch ++ [idx]) (dchaini_irange_fp ch).
Definition dchaini_rejuvenate_fp (ch : dchaini) (index : Z) : dchaini :=
  mk_dchaini (remove_fst index (dchaini_alist_fp ch) ++ [index]) (dchaini_irange_fp ch).
Definition dchaini_is_empty_fp (ch : dchaini) : bool :=
  match dchaini_alist_fp ch with [] => true | _ => false end.
Definition dchaini_get_oldest_index_fp (ch : dchaini) : Z :=
  match dchaini_alist_fp ch with [] => 0 | h :: _ => h end.
Definition dchaini_remove_fp (ch : dchaini) (index : Z) : dchaini :=
  mk_dchaini (remove_fst index (dchaini_alist_fp ch)) (dchaini_irange_fp ch).

(** ** Representation *)

Definition nx (cells : list dchain_cell) (i : Z) : Z := next (getz cells i).
Definition pv (cells : list dchain_cell) (i : Z) : Z := prev (getz cells i).
Definition setn (cells : list dchain_cell) (i v : Z) : list dchain_cell :=
  setz cells i (mk_cell (pv cells i) v).
Definition setp (cells : list dchain_cell) (i v : Z) : list dchain_cell :=
  setz cells i (mk_cell v (nx cells i)).

(** [al] and [fl] are the cell numbers on the "alloc" and on the "free" ring. *)
Record rings (cells : list dchain_cell) (size : Z) (al fl : list Z) : Prop := {
  rings_len : zlen cells = size + DCHAIN_RESERVED;
  rings_nodup : NoDup (al ++ fl);
  rings_range : ∀ x, x ∈ al ++ fl → INDEX_SHIFT <= x < size + INDEX_SHIFT;
  rings_count : zlen al + zlen fl = size;
  rings_alloc_next : nchain (nx cells) ALLOC_LIST_HEAD al ALLOC_LIST_HEAD;
  rings_alloc_prev : pchain (pv cells) ALLOC_LIST_HEAD al ALLOC_LIST_HEAD;
  rings_free_next : nchain (nx cells) FREE_LIST_HEAD fl FREE_LIST_HEAD;
  rings_free_prev : ∀ x, x = FREE_LIST_HEAD ∨ x ∈ fl → pv cells x = nx cells x
}.

(** [dchainip] of the header: the indexes are cell numbers less [INDEX_SHIFT]. *)
Definition dchainip (dc : dchaini) (cells : list dchain_cell) : Prop :=
  ∃ fl, rings cells (dchaini_irange_fp dc)
          ((λ i, i + INDEX_SHIFT) <$> dchaini_alist_fp dc) fl.

Section cells.
Implicit Types (cells : list dchain_cell) (i j v : Z).

Lemma set_next_ok cells i v :
  0 <= i < zlen cells → set_next cells i v = Ok (setn cells i v).
Proof. intros. unfold set_next. crun. done. Qed.
Lemma set_prev_ok cells i v :
  0 <= i < zlen cells → set_prev cells i v = Ok (setp cells i v).
Proof. intros. unfold set_prev. crun. done. Qed.
Lemma zlen_setn cells i v : zlen (setn cells i v) = zlen cells.
Proof. apply zlen_setz. Qed.
Lemma zlen_setp cells i v : zlen (setp cells i v) = zlen cells.
Proof. apply zlen_setz. Qed.

Lemma nx_setn cells i v j : 0 <= i < zlen cells → 0 <= j →
  nx (setn cells i v) j = if decide (i = j) then v else nx cells j.
Proof. intros. unfold nx, setn. rewrite getz_setz by lia. by case_decide. Qed.
Lemma pv_setn cells i v j : 0 <= i < zlen cells → 0 <= j →
  pv (setn cells i v) j = pv cells j.
Proof.
  intros. unfold pv, setn. rewrite getz_setz by lia. case_decide; by subst.
Qed.
Lemma nx_setp cells i v j : 0 <= i < zlen cells → 0 <= j →
  nx (setp cells i v) j = nx cells j.
Proof.
  intros. unfold nx, setp. rewrite getz_setz by lia. case_decide; by subst.
Qed.
Lemma pv_setp cells i v j : 0 <= i < zlen cells → 0 <= j →
  pv (setp cells i v) j = if decide (i = j) then v else pv cells j.
Proof. intros. unfold pv, setp. rewrite getz_setz by lia. by case_decide. Qed.
End cells.

#[export] Hint Rewrite zlen_setn zlen_setp : pix_len.

(** Runs the cell accesses of an operation and normalises the reads of the
    resulting array. *)
Ltac cell_bounds := autorewrite with pix_len in *; unfold INDEX_SHIFT, DCHAIN_RESERVED,
  ALLOC_LIST_HEAD, FREE_LIST_HEAD in *; lia.
Ltac cell_read :=
  repeat first
    [ rewrite nx_setn by cell_bounds | rewrite pv_setn by cell_bounds
    | rewrite nx_setp by cell_bounds | rewrite pv_setp by cell_bounds ].
Ltac cell_step :=
  match goal with
  | |- context [rd ?a ?i] => rewrite (rd_ok a i) by cell_bounds
  | |- context [set_next ?a ?i ?v] => rewrite (set_next_ok a i v) by cell_bounds
  | |- context [set_prev ?a ?i ?v] => rewrite (set_prev_ok a i v) by cell_bounds
  end; simpl;
  repeat match goal with
  | |- context [next (getz ?c ?i)] => fold (nx c i)
  | |- context [prev (getz ?c ?i)] => fold (pv c i)
  end.

(** *** Facts about the rings *)
Section ring_facts.
Context {cells : list dchain_cell} {size : Z} {al fl : list Z}.
Hypothesis Hr : rings cells size al fl.

Lemma rings_heads_fresh : ALLOC_LIST_HEAD ∉ al ++ fl ∧ FREE_LIST_HEAD ∉ al ++ fl.
Proof.
  split; intros Hin%(rings_range _ _ _ _ Hr); cell_bounds.
Qed.

Lemma rings_nodup_alloc : NoDup (ALLOC_LIST_HEAD :: al).
Proof.
  pose proof rings_heads_fresh as [? _]. pose proof (rings_nodup _ _ _ _ Hr) as Hnd.
  apply NoDup_app in Hnd as (? & _ & _). apply NoDup_cons. set_solver.
Qed.

Lemma rings_nodup_free : NoDup (FREE_LIST_HEAD :: fl).
Proof.
  pose proof rings_heads_fresh as [_ ?]. pose proof (rings_nodup _ _ _ _ Hr) as Hnd.
  apply NoDup_app in Hnd as (_ & _ & ?). apply NoDup_cons. set_solver.
Qed.

Lemma rings_cell_bound x :
  x = ALLOC_LIST_HEAD ∨ x = FREE_LIST_HEAD ∨ x ∈ al ∨ x ∈ fl → 0 <= x < zlen cells.
Proof.
  pose proof (rings_len _ _ _ _ Hr). pose proof (rings_count _ _ _ _ Hr).
  pose proof (zlen_nonneg al). pose proof (zlen_nonneg fl).
  intros [->|[->|Hx]]; [cell_bounds..|].
  assert (Hin : x ∈ al ++ fl) by set_solver.
  apply (rings_range _ _ _ _ Hr) in Hin. cell_bounds.
Qed.

(** Every cell that is not a sentinel is on exactly one ring. *)
Lemma rings_cover x :
  INDEX_SHIFT <= x < size + INDEX_SHIFT → x ∈ al ∨ x ∈ fl.
Proof.
  intros Hx. rewrite <- elem_of_app.
  assert (Hsub : al ++ fl ⊆+ seqZ INDEX_SHIFT size).
  { apply NoDup_submseteq; [apply (rings_nodup _ _ _ _ Hr)|].
    intros y Hy%(rings_range _ _ _ _ Hr). apply elem_of_seqZ. lia. }
  apply submseteq_length_Permutation in Hsub.
  - rewrite Hsub. apply elem_of_seqZ. lia.
  - pose proof (rings_count _ _ _ _ Hr) as Hc. rewrite <- zlen_app in Hc.
    unfold zlen in Hc. rewrite length_seqZ. lia.
Qed.

Lemma rings_disjoint x : x ∈ al → x ∈ fl → False.
Proof.
  pose proof (rings_nodup _ _ _ _ Hr) as Hnd.
  apply NoDup_app in Hnd as (_ & Hd & _). intros ? ?. by eapply Hd.
Qed.

Lemma rings_alloc_elem x :
  x = ALLOC_LIST_HEAD ∨ x ∈ al →
  0 <= x < zlen cells ∧ x ≠ FREE_LIST_HEAD ∧ x ∉ fl.
Proof.
  intros Hx. pose proof rings_heads_fresh as [HA HF].
  rewrite elem_of_app in HA, HF. split; [|split].
  - apply rings_cell_bound. tauto.
  - destruct Hx as [->|Hx]; [done|]. intros ->. tauto.
  - destruct Hx as [->|Hx]; [tauto|]. intros ?. by eapply rings_disjoint.
Qed.

(** Moving cells between the rings keeps the bookkeeping part of [rings]. *)
Lemma rings_perm c al' fl' :
  al' ++ fl' ≡ₚ al ++ fl → zlen c = zlen cells →
  nchain (nx c) ALLOC_LIST_HEAD al' ALLOC_LIST_HEAD →
  pchain (pv c) ALLOC_LIST_HEAD al' ALLOC_LIST_HEAD →
  nchain (nx c) FREE_LIST_HEAD fl' FREE_LIST_HEAD →
  (∀ x, x = FREE_LIST_HEAD ∨ x ∈ fl' → pv c x = nx c x) →
  rings c size al' fl'.
Proof.
  intros Hperm Hc ????. split; [..|done|done|done|done].
  - rewrite Hc. apply (rings_len _ _ _ _ Hr).
  - rewrite Hperm. apply (rings_nodup _ _ _ _ Hr).
  - intros x. rewrite Hperm. apply (rings_range _ _ _ _ Hr).
  - rewrite <- zlen_app, <- (rings_count _ _ _ _ Hr), <- zlen_app.
    unfold zlen. by rewrite Hperm.
Qed.

Lemma rings_free_elem x :
  x = FREE_LIST_HEAD ∨ x ∈ fl → 0 <= x < zlen cells ∧ x ∉ ALLOC_LIST_HEAD :: al.
Proof.
  intros Hx. pose proof rings_heads_fresh as [HA HF].
  rewrite elem_of_app in HA, HF. split; [apply rings_cell_bound; tauto|].
  rewrite elem_of_cons. intros [E|Hal].
  - destruct Hx as [->|Hx]; [done|]. rewrite E in Hx. tauto.
  - destruct Hx as [->|Hx]; [tauto|]. by eapply rings_disjoint.
Qed.

(** The test of [dchain_impl_is_index_allocated]. *)
Lemma rings_alloc_test x :
  INDEX_SHIFT <= x < size + INDEX_SHIFT →
  (nx cells x ≠ pv cells x ∨ nx cells x = ALLOC_LIST_HEAD) ↔ x ∈ al.
Proof.
  intros Hx. pose proof rings_nodup_alloc as Hnd. pose proof rings_heads_fresh as Hfresh.
  split.
  - intros Ht. destruct (rings_cover x Hx) as [|Hfl]; [done|]. exfalso.
    pose proof (rings_free_prev _ _ _ _ Hr x (or_intror Hfl)).
    destruct Ht as [?|Ht]; [congruence|].
    apply list_elem_of_split in Hfl as (l1 & l2 & Efl).
    pose proof (rings_free_next _ _ _ _ Hr) as Hn. rewrite Efl in Hn.
    apply nchain_app in Hn as [_ Hn%nchain_head]. rewrite Ht in Hn.
    destruct (headd_elem l2 FREE_LIST_HEAD) as [[E _]|E]; rewrite <- Hn in E.
    + discriminate.
    + rewrite Efl in Hfresh. set_solver.
  - intros Hal. apply list_elem_of_split in Hal as (l1 & l2 & E).
    pose proof (rings_alloc_next _ _ _ _ Hr) as Hn.
    pose proof (rings_alloc_prev _ _ _ _ Hr) as Hp.
    rewrite E in Hn, Hp, Hnd.
    apply nchain_app in Hn as [_ Hn%nchain_head].
    apply pchain_app in Hp as [Hp%pchain_last _]. rewrite Hn, Hp.
    destruct (headd_elem l2 ALLOC_LIST_HEAD) as [[Eh _]|Eh]; [by right|].
    left. intros Heq. rewrite Heq in Eh.
    apply NoDup_cons in Hnd as [Hnh [_ [Hd _]]%NoDup_app].
    destruct (lastd_elem ALLOC_LIST_HEAD l1) as [[El _]|El].
    + rewrite El in Eh. apply Hnh, elem_of_app. right. by apply elem_of_cons; right.
    + eapply Hd; [exact El|]. by apply elem_of_cons; right.
Qed.
End ring_facts.

(** Reads a cell of the array produced by an operation, given the descriptions
    [Hnx] and [Hpv] of its links and the bounds [Hb] of the old rings. *)
Ltac read_at Hnx Hpv Hb :=
  intros;
  first [ rewrite Hnx by (apply Hb; set_solver) | rewrite Hpv by (apply Hb; set_solver) ];
  repeat case_decide; try congruence; subst; exfalso; set_solver.

(** ** Operations on the rings *)
Section ops.
Implicit Types (cells : list dchain_cell) (al fl : list Z).

Lemma nchain_seqZ f a n t :
  (∀ k, 0 <= k < n → f (a + k) = a + k + 1) → f (a + n) = t → 0 <= n →
  nchain f a (seqZ (a + 1) n) t.
Proof.
  intros Hf Ht Hn. revert a Hf Ht. 
  assert (Hind : ∀ m : nat, ∀ a, (∀ k, 0 <= k < Z.of_nat m → f (a + k) = a + k + 1) →
     f (a + Z.of_nat m) = t → nchain f a (seqZ (a + 1) (Z.of_nat m)) t).
  { induction m as [|m IH]; intros a Hf Ht.
    - simpl. by rewrite Z.add_0_r in Ht.
    - rewrite seqZ_cons by lia. simpl. split.
      + specialize (Hf 0). rewrite Z.add_0_r in Hf. apply Hf. lia.
      + replace (Z.pred (Z.of_nat (S m))) with (Z.of_nat m) by lia.
        replace (Z.succ (a + 1)) with (a + 1 + 1) by lia. apply IH.
        * intros k Hk. specialize (Hf (k + 1)). replace (a + 1 + k) with (a + (k + 1)) by lia.
          apply Hf. lia.
        * rewrite <- Ht. f_equal. lia. }
  intros a. rewrite <- (Z2Nat.id n) by lia. apply Hind.
Qed.

Lemma init_loop_ok n cells i :
  2 <= i → i + Z.of_nat n < zlen cells →
  ∃ cells', dchain_impl_init_loop n cells i = Ok (cells', i + Z.of_nat n) ∧
    zlen cells' = zlen cells ∧
    (∀ j, i <= j < i + Z.of_nat n → nx cells' j = j + 1 ∧ pv cells' j = j + 1) ∧
    (∀ j, 0 <= j → ¬ (i <= j < i + Z.of_nat n) →
      nx cells' j = nx cells j ∧ pv cells' j = pv cells j).
Proof.
  revert cells i; induction n as [|n IH]; intros cells i Hi Hn; cbn [dchain_impl_init_loop].
  - exists cells. rewrite Z.add_0_r. repeat split; try lia.
  - do 3 cell_step. cell_read. rewrite decide_True by done.
    destruct (IH (setp (setn cells i (i + 1)) i (i + 1)) (i + 1)) as (c & Hc & Hl & Hin & Hout);
      [lia|cell_bounds|].
    exists c. rewrite Hc. split; [do 2 f_equal; lia|].
    split; [by autorewrite with pix_len in Hl|]. split.
    + intros j Hj. destruct (decide (j = i)) as [->|].
      * destruct (Hout i) as [-> ->]; [lia..|]. cell_read. by rewrite !decide_True.
      * apply Hin. lia.
    + intros j ? Hj. destruct (Hout j) as [-> ->]; [lia..|]. cell_read.
      rewrite !decide_False by lia. done.
Qed.

Lemma rings_init cells size :
  0 < size → zlen cells = size + DCHAIN_RESERVED →
  ∃ cells', dchain_impl_init cells size = Ok cells' ∧
    rings cells' size [] (seqZ INDEX_SHIFT size).
Proof.
  intros Hs Hl. unfold dchain_impl_init. do 5 cell_step. cell_read.
  set (c0 := setp _ _ _).
  destruct (init_loop_ok (Z.to_nat (size + INDEX_SHIFT - 1 - INDEX_SHIFT)) c0 INDEX_SHIFT)
    as (c & Hc & Hcl & Hin & Hout); [subst c0; cell_bounds..|].
  rewrite Hc. simpl. subst c0. autorewrite with pix_len in Hcl.
  assert (Hi : INDEX_SHIFT + Z.of_nat (Z.to_nat (size + INDEX_SHIFT - 1 - INDEX_SHIFT))
               = size + 1) by cell_bounds.
  rewrite Hi in *. do 3 cell_step. eexists. split; [done|].
  set (c1 := setp _ _ _).
  assert (Hnx : ∀ j, 0 <= j < size + 2 → nx c1 j = if decide (j = 0) then 0
     else if decide (j = size + 1) then 1 else j + 1).
  { intros j Hj. subst c1. cell_read. repeat case_decide; try lia; try done.
    - subst. destruct (Hout 0) as [-> _]; [cell_bounds..|]. cell_read. done.
    - destruct (decide (j = 1)) as [->|].
      + destruct (Hout 1) as [-> _]; [cell_bounds..|]. cell_read. done.
      + destruct (Hin j) as [-> _]; cell_bounds. }
  assert (Hpv : ∀ j, 0 <= j < size + 2 → pv c1 j = nx c1 j).
  { intros j Hj. rewrite Hnx by done. subst c1. cell_read. repeat case_decide; try lia; try done.
    - subst. destruct (Hout 0) as [_ ->]; [cell_bounds..|]. cell_read. done.
    - destruct (decide (j = 1)) as [->|].
      + destruct (Hout 1) as [_ ->]; [cell_bounds..|]. cell_read. done.
      + destruct (Hin j) as [_ ->]; cell_bounds. }
  split.
  - subst c1. cell_bounds.
  - apply NoDup_seqZ.
  - intros x. rewrite app_nil_l, elem_of_seqZ. cell_bounds.
  - unfold zlen. rewrite length_seqZ. simpl. lia.
  - simpl. rewrite Hnx by cell_bounds. done.
  - simpl. rewrite Hpv, Hnx by cell_bounds. done.
  - change INDEX_SHIFT with (FREE_LIST_HEAD + 1). apply nchain_seqZ; [|..|lia].
    + intros k Hk. rewrite Hnx by cell_bounds. rewrite !decide_False by cell_bounds. done.
    + rewrite Hnx by cell_bounds. rewrite decide_False, decide_True by cell_bounds. done.
  - intros x Hx. apply Hpv. rewrite elem_of_seqZ in Hx. cell_bounds.
Qed.

(** The last four assignments of both [dchain_impl_allocate_new_index] and
    [dchain_impl_rejuvenate_index]: linking [x] at the end of the "alloc" ring. *)
Lemma link_end c l x :
  nchain (nx c) ALLOC_LIST_HEAD l ALLOC_LIST_HEAD →
  pchain (pv c) ALLOC_LIST_HEAD l ALLOC_LIST_HEAD →
  NoDup (ALLOC_LIST_HEAD :: l ++ [x]) →
  (∀ y, y ∈ ALLOC_LIST_HEAD :: l ++ [x] → 0 <= y < zlen c) →
  let r := lastd ALLOC_LIST_HEAD l in
  let c' := setp (setn (setp (setn c x ALLOC_LIST_HEAD) x r) r x) ALLOC_LIST_HEAD x in
  0 <= r < zlen c ∧
  nchain (nx c') ALLOC_LIST_HEAD (l ++ [x]) ALLOC_LIST_HEAD ∧
  pchain (pv c') ALLOC_LIST_HEAD (l ++ [x]) ALLOC_LIST_HEAD ∧
  (∀ j, 0 <= j → j ∉ ALLOC_LIST_HEAD :: l ++ [x] → nx c' j = nx c j ∧ pv c' j = pv c j).
Proof.
  intros Hn Hp Hnd Hb r c'.
  assert (Hr : r ∈ ALLOC_LIST_HEAD :: l).
  { destruct (lastd_elem ALLOC_LIST_HEAD l) as [[? _]|?]; subst r; set_solver. }
  assert (Hx : x ∉ ALLOC_LIST_HEAD :: l).
  { rewrite app_comm_cons in Hnd. apply NoDup_app in Hnd. set_solver. }
  assert (HA : ALLOC_LIST_HEAD ∉ l) by (apply NoDup_cons in Hnd; set_solver).
  assert (Hrx : r ≠ x) by congruence.
  assert (HAx : ALLOC_LIST_HEAD ≠ x) by set_solver.
  assert (Hbr : 0 <= r < zlen c) by (apply Hb; set_solver).
  assert (Hbx : 0 <= x < zlen c) by (apply Hb; set_solver).
  assert (HbA : 0 <= ALLOC_LIST_HEAD < zlen c) by (apply Hb; set_solver).
  assert (Hnx : ∀ j, 0 <= j → nx c' j = if decide (j = r) then x
      else if decide (j = x) then ALLOC_LIST_HEAD else nx c j).
  { intros. subst c'. cell_read. repeat case_decide; congruence. }
  assert (Hpv : ∀ j, 0 <= j → pv c' j = if decide (j = ALLOC_LIST_HEAD) then x
      else if decide (j = x) then r else pv c j).
  { intros. subst c'. cell_read. repeat case_decide; congruence. }
  clearbody c'. destruct (ring_append (nx c) (nx c') (pv c) (pv c') ALLOC_LIST_HEAD l x)
    as [Hn' Hp']; try done; fold r.
  1-6: intros; first [rewrite Hnx by (apply Hb; set_solver)
                     | rewrite Hpv by (apply Hb; set_solver)];
      repeat case_decide; try congruence; set_solver.
  split; [done|split; [done|split; [done|]]]. intros j Hj Hout. rewrite Hnx, Hpv by done.
  assert (j ≠ r ∧ j ≠ x ∧ j ≠ ALLOC_LIST_HEAD) as (? & ? & ?) by set_solver. by dec_simpl.
Qed.

Lemma rings_allocate_full cells size al index :
  rings cells size al [] →
  dchain_impl_allocate_new_index cells index = Ok (0, cells, index).
Proof.
  intros Hr. pose proof (rings_cell_bound Hr FREE_LIST_HEAD) as Hb.
  specialize (Hb (or_intror (or_introl eq_refl))).
  unfold dchain_impl_allocate_new_index. cell_step.
  pose proof (rings_free_next _ _ _ _ Hr) as Hn. simpl in Hn. by rewrite Hn.
Qed.

Lemma rings_allocate_new cells size al x fl index :
  rings cells size al (x :: fl) →
  ∃ cells', dchain_impl_allocate_new_index cells index = Ok (1, cells', x - INDEX_SHIFT) ∧
    rings cells' size (al ++ [x]) fl.
Proof.
  intros Hr. pose proof (rings_cell_bound Hr) as Hb.
  pose proof (Hb ALLOC_LIST_HEAD ltac:(tauto)) as HbA.
  destruct (rings_free_elem Hr FREE_LIST_HEAD) as [HbF HFal]; [by left|].
  destruct (rings_free_elem Hr x) as [HbX HXal]; [set_solver|].
  pose proof (rings_nodup_free Hr) as [HFx [Hxfl _]%NoDup_cons]%NoDup_cons.
  pose proof (rings_free_next _ _ _ _ Hr) as [Hfx Hfn].
  unfold dchain_impl_allocate_new_index. cell_step. rewrite Hfx.
  destruct (Z.eqb_spec x FREE_LIST_HEAD) as [->|HxF]; [set_solver|].
  do 4 cell_step. cell_read. dec_simpl.
  set (c := setp (setn cells FREE_LIST_HEAD (nx cells x)) FREE_LIST_HEAD (nx cells x)).
  assert (Hc : zlen c = zlen cells) by (subst c; by autorewrite with pix_len).
  assert (Hfr : ∀ j, 0 <= j → j ≠ FREE_LIST_HEAD → nx c j = nx cells j ∧ pv c j = pv cells j).
  { intros. subst c. cell_read. by dec_simpl. }
  destruct (link_end c al x) as (Hbr & Hn & Hp & Hframe).
  { eapply nchain_frame; [|apply (rings_alloc_next _ _ _ _ Hr)]. intros a Ha.
    apply Hfr; [apply Hb; tauto|]. intros ->. set_solver. }
  { eapply pchain_frame; [|apply (rings_alloc_prev _ _ _ _ Hr)]. intros a Ha.
    apply Hfr; [apply Hb; tauto|]. intros ->. set_solver. }
  { rewrite app_comm_cons. apply NoDup_snoc; [apply (rings_nodup_alloc Hr)|done]. }
  { rewrite Hc. intros y Hy. apply Hb. set_solver. }
  assert (Hlast : pv c ALLOC_LIST_HEAD = lastd ALLOC_LIST_HEAD al).
  { destruct (Hfr ALLOC_LIST_HEAD) as [_ ->]; [lia|done|].
    apply (pchain_last _ _ _ _ (rings_alloc_prev _ _ _ _ Hr)). }
  assert (HxA : x ≠ ALLOC_LIST_HEAD) by set_solver.
  rewrite Hc in Hbr. do 2 cell_step. cell_read. dec_simpl. rewrite Hlast.
  do 2 cell_step. cell_read. dec_simpl. rewrite ?Hlast. repeat cell_step.
  eexists. split; [done|]. eapply (rings_perm Hr); [|..|exact Hn|exact Hp| |].
  - by rewrite <- app_assoc.
  - by autorewrite with pix_len.
  - eapply nchain_reroot; [| |exact Hfn].
    + rewrite (proj1 (Hframe FREE_LIST_HEAD ltac:(lia) ltac:(set_solver))).
      subst c. cell_read. by dec_simpl.
    + intros a Ha. destruct (rings_free_elem Hr a) as [? ?]; [set_solver|].
      assert (a ≠ FREE_LIST_HEAD ∧ a ≠ x) as [? ?] by (split; congruence || set_solver).
      destruct (Hframe a) as [-> _]; [lia|set_solver|]. apply Hfr; [lia|done].
  - intros a Ha. destruct (rings_free_elem Hr a) as [? ?]; [set_solver|].
    destruct (Hframe a) as [-> ->]; [lia|set_solver|].
    destruct Ha as [->|Ha]; [subst c; cell_read; by dec_simpl|].
    destruct (Hfr a) as [-> ->]; [lia|set_solver|]. apply (rings_free_prev _ _ _ _ Hr). set_solver.
Qed.

(** The first half of both [dchain_impl_free_index] and
    [dchain_impl_rejuvenate_index]: taking cell [x] out of the "alloc" ring. *)
Lemma rings_unlink cells size l1 x l2 fl :
  rings cells size (l1 ++ x :: l2) fl →
  let p := lastd ALLOC_LIST_HEAD l1 in
  let q := headd l2 ALLOC_LIST_HEAD in
  let c := setp (setn cells p q) q p in
  pv cells x = p ∧ nx cells x = q ∧
  (0 <= p < zlen cells ∧ p ≠ x ∧ p ≠ FREE_LIST_HEAD ∧ p ∉ fl) ∧
  (0 <= q < zlen cells ∧ q ≠ x ∧ q ≠ FREE_LIST_HEAD ∧ q ∉ fl) ∧
  nchain (nx c) ALLOC_LIST_HEAD (l1 ++ l2) ALLOC_LIST_HEAD ∧
  pchain (pv c) ALLOC_LIST_HEAD (l1 ++ l2) ALLOC_LIST_HEAD.
Proof.
  intros Hr p q c. pose proof (rings_nodup_alloc Hr) as HndA.
  assert (Hp : p = ALLOC_LIST_HEAD ∨ p ∈ l1).
  { destruct (lastd_elem ALLOC_LIST_HEAD l1) as [[? _]|?]; subst p; auto. }
  assert (Hq : q = ALLOC_LIST_HEAD ∨ q ∈ l2).
  { destruct (headd_elem l2 ALLOC_LIST_HEAD) as [[? _]|?]; subst q; auto. }
  destruct (rings_alloc_elem Hr p) as (Hbp & HpF & Hpfl); [clear -Hp; set_solver|].
  destruct (rings_alloc_elem Hr q) as (Hbq & HqF & Hqfl); [clear -Hq; set_solver|].
  assert (Hx : x ≠ ALLOC_LIST_HEAD ∧ x ∉ l1 ∧ x ∉ l2).
  { clear -HndA. apply NoDup_cons in HndA as [? (_ & Hd1 & [? _]%NoDup_cons)%NoDup_app].
    split_and!; [set_solver| |done]. intros ?. eapply Hd1; [done|]. set_solver. }
  assert (Hpx : p ≠ x) by (destruct Hp; intros ?; subst x; tauto).
  assert (Hqx : q ≠ x) by (destruct Hq; intros ?; subst x; tauto).
  pose proof (rings_alloc_next _ _ _ _ Hr) as Han.
  pose proof (rings_alloc_prev _ _ _ _ Hr) as Hap.
  assert (Hnn : ∀ y, y = ALLOC_LIST_HEAD ∨ y ∈ l1 ++ l2 → 0 <= y).
  { intros y Hy. destruct (rings_alloc_elem Hr y); [clear -Hy; set_solver|lia]. }
  split; [|split; [|do 2 (split; [done|])]].
  - apply pchain_app in Hap as [Hap%pchain_last _]. done.
  - apply nchain_app in Han as [_ Han%nchain_head]. done.
  - eapply (ring_unlink (nx cells) (nx c) (pv cells) (pv c)); try done; fold p q; subst c;
      intros; try match goal with H : _ ∨ _ |- _ => apply Hnn in H end;
      cell_read; by dec_simpl.
Qed.

Lemma rings_free cells size l1 x l2 fl :
  rings cells size (l1 ++ x :: l2) fl →
  ∃ cells', dchain_impl_free_index cells (x - INDEX_SHIFT) = Ok (1, cells') ∧
    rings cells' size (l1 ++ l2) (x :: fl).
Proof.
  intros Hr. destruct (rings_unlink _ _ _ _ _ _ Hr)
    as (Hpvx & Hnxx & (Hbp & Hpx & HpF & Hpfl) & (Hbq & Hqx & HqF & Hqfl) & Hn & Hp).
  set (p := lastd _ _) in *. set (q := headd _ _) in *.
  destruct (rings_alloc_elem Hr x) as (Hbx & HxF & Hxfl); [set_solver|].
  pose proof (rings_nodup_free Hr) as HndF.
  pose proof (@rings_alloc_elem _ _ _ _ Hr) as Hae. pose proof (rings_cell_bound Hr) as Hb.
  pose proof (rings_nodup_alloc Hr) as HndA. clearbody p q.
  destruct Hr as [Hlen Hnd Hrange Hcount _ _ Hfn Hfp].
  assert (HxA : x ≠ ALLOC_LIST_HEAD ∧ x ∉ l1 ++ l2).
  { clear -HndA. rewrite <- Permutation_middle in HndA.
    apply NoDup_cons in HndA as [? [? _]%NoDup_cons]. set_solver. }
  destruct HxA as [HxA Hx12].
  unfold dchain_impl_free_index. rewrite Z.sub_add. cell_step. rewrite Hpvx, Hnxx.
  set (c := setp (setn cells p q) q p) in *.
  do 2 cell_step. fold c. assert (Hc : zlen c = zlen cells) by (subst c; by autorewrite with pix_len).
  assert (HbF : 0 <= FREE_LIST_HEAD < zlen cells) by (apply Hb; tauto).
  do 7 cell_step. eexists. split; [done|].
  set (c' := setp _ _ _).
  assert (Hfree : ∀ j, 0 <= j → j ≠ p → j ≠ q → nx c j = nx cells j ∧ pv c j = pv cells j).
  { intros. subst c. cell_read. by dec_simpl. }
  destruct (Hfree FREE_LIST_HEAD) as [HF _]; [lia|done..|].
  assert (Hnx : ∀ j, 0 <= j → nx c' j = if decide (j = FREE_LIST_HEAD) then x
      else if decide (j = x) then nx cells FREE_LIST_HEAD else nx c j).
  { intros. subst c'. cell_read. repeat case_decide; congruence. }
  assert (Hpv : ∀ j, 0 <= j → pv c' j = if decide (j = FREE_LIST_HEAD) then x
      else if decide (j = x) then nx cells FREE_LIST_HEAD else pv c j).
  { intros. subst c'. cell_read. repeat case_decide; congruence. }
  assert (Hc' : zlen c' = zlen cells) by (subst c'; by autorewrite with pix_len).
  clearbody c c'.
  assert (Hal : ∀ y, y ∈ l1 ++ l2 ∨ y = ALLOC_LIST_HEAD → 0 <= y ∧ y ≠ FREE_LIST_HEAD ∧ y ≠ x).
  { intros y Hy. destruct (Hae y) as (? & ? & _); [clear -Hy; set_solver|].
    split; [lia|split; [done|]]. intros ->. clear -Hy Hx12 HxA. set_solver. }
  assert (Hfl : ∀ a, a ∈ fl → a ≠ x ∧ a ≠ p ∧ a ≠ q ∧ a ≠ FREE_LIST_HEAD).
  { apply NoDup_cons in HndF as [? _]. intros a Ha. split_and!; congruence. }
  split.
  - congruence.
  - by rewrite <- Permutation_move.
  - intros y. rewrite <- Permutation_move. apply Hrange.
  - autorewrite with pix_len in *. lia.
  - eapply nchain_frame; [|exact Hn]. intros a Ha. destruct (Hal a) as (? & ? & ?); [tauto|].
    rewrite Hnx by done. by dec_simpl.
  - eapply pchain_frame; [|exact Hp]. intros a Ha. destruct (Hal a) as (? & ? & ?); [tauto|].
    rewrite Hpv by done. by dec_simpl.
  - simpl. rewrite Hnx by lia. dec_simpl. split; [done|].
    eapply nchain_reroot; [| |exact Hfn].
    + rewrite Hnx by lia. by dec_simpl.
    + intros a Ha. pose proof (Hb a ltac:(tauto)). rewrite Hnx by lia.
      destruct (Hfl a Ha) as (? & ? & ? & ?). dec_simpl. apply Hfree; [lia|done..].
  - intros y Hy. rewrite elem_of_cons in Hy.
    destruct Hy as [->|[->|Hy]]; [rewrite Hnx, Hpv by lia; by dec_simpl..|].
    pose proof (Hb y ltac:(tauto)). rewrite Hnx, Hpv by lia.
    destruct (Hfl y Hy) as (? & ? & ? & ?). dec_simpl.
    destruct (Hfree y) as [-> ->]; [lia|done..|]. apply Hfp. tauto.
Qed.

Lemma rings_rejuvenate_free cells size al fl x :
  rings cells size al fl → INDEX_SHIFT <= x < size + INDEX_SHIFT → x ∉ al →
  dchain_impl_rejuvenate_index cells (x - INDEX_SHIFT) = Ok (0, cells).
Proof.
  intros Hr Hx Hnal. pose proof (proj1 (rings_alloc_test Hr x Hx)) as Ht.
  pose proof (rings_len _ _ _ _ Hr).
  unfold dchain_impl_rejuvenate_index. rewrite Z.sub_add. cell_step.
  destruct (Z.eqb_spec (nx cells x) (pv cells x)); [|tauto].
  destruct (Z.eqb_spec (nx cells x) ALLOC_LIST_HEAD); [tauto|done].
Qed.

Lemma rings_rejuvenate_alloc cells size l1 x l2 fl :
  rings cells size (l1 ++ x :: l2) fl →
  ∃ cells', dchain_impl_rejuvenate_index cells (x - INDEX_SHIFT) = Ok (1, cells') ∧
    rings cells' size ((l1 ++ l2) ++ [x]) fl.
Proof.
  intros Hr. destruct (rings_unlink _ _ _ _ _ _ Hr)
    as (Hpvx & Hnxx & (Hbp & Hpx & HpF & Hpfl) & (Hbq & Hqx & HqF & Hqfl) & Hn & Hp).
  destruct (rings_alloc_elem Hr x) as (Hbx & HxF & Hxfl); [set_solver|].
  assert (Hxx : INDEX_SHIFT <= x < size + INDEX_SHIFT).
  { apply (rings_range _ _ _ _ Hr). set_solver. }
  pose proof (rings_nodup_alloc Hr) as HndA.
  unfold dchain_impl_rejuvenate_index. rewrite Z.sub_add. cell_step.
  destruct (Z.eqb_spec (nx cells x) (pv cells x)) as [Heq|Hneq].
  { assert (nx cells x = ALLOC_LIST_HEAD) as E.
    { destruct (proj2 (rings_alloc_test Hr x Hxx)); [set_solver|done..]. }
    rewrite E. simpl. exists cells. split; [done|].
    assert (l1 = [] ∧ l2 = []) as [-> ->]; [|done].
    apply NoDup_cons in HndA as [HA _]. rewrite E in Heq, Hnxx. rewrite Hpvx in Heq.
    destruct (lastd_elem ALLOC_LIST_HEAD l1) as [[_ ->]|E1]; [|rewrite <- Heq in E1; set_solver].
    destruct (headd_elem l2 ALLOC_LIST_HEAD) as [[_ ->]|E2]; [done|rewrite <- Hnxx in E2; set_solver]. }
  rewrite Hpvx, Hnxx in *. set (p := lastd _ l1) in *. set (q := headd _ _) in *.
  set (c := setp (setn cells p q) q p) in *. do 2 cell_step. fold c.
  assert (Hc : zlen c = zlen cells) by (subst c; by autorewrite with pix_len).
  pose proof (pchain_last _ _ _ _ Hp) as Hlast. set (r := lastd _ (l1 ++ l2)) in *.
  assert (Hr' : r = ALLOC_LIST_HEAD ∨ r ∈ l1 ++ l2).
  { destruct (lastd_elem ALLOC_LIST_HEAD (l1 ++ l2)) as [[? _]|?]; subst r; auto. }
  destruct (rings_alloc_elem Hr r) as (Hbr & HrF & Hrfl); [clear -Hr'; set_solver|].
  pose proof (rings_cell_bound Hr) as Hb.
  assert (HbA : 0 <= ALLOC_LIST_HEAD < zlen cells) by (apply Hb; tauto).
  assert (HbF : 0 <= FREE_LIST_HEAD < zlen cells) by (apply Hb; tauto).
  destruct (link_end c (l1 ++ l2) x Hn Hp) as (_ & Hn' & Hp' & Hframe).
  { rewrite app_comm_cons. rewrite <- Permutation_middle in HndA. apply NoDup_snoc.
    - clear -HndA. apply NoDup_cons in HndA as [? [? ?]%NoDup_cons]. apply NoDup_cons. set_solver.
    - clear -HndA. apply NoDup_cons in HndA as [? [? ?]%NoDup_cons]. set_solver. }
  { rewrite Hc. intros y Hy. apply Hb. clear -Hy. set_solver. }
  fold r in Hn', Hp', Hframe.
  cell_step. rewrite Hlast. do 4 cell_step. eexists. split; [done|].
  assert (Hfree : ∀ j, j = FREE_LIST_HEAD ∨ j ∈ fl → nx c j = nx cells j ∧ pv c j = pv cells j).
  { intros j Hj. destruct (rings_free_elem Hr j Hj) as [? _].
    assert (j ≠ p ∧ j ≠ q) as [? ?] by (destruct Hj as [->|?]; split; congruence).
    subst c. cell_read. by dec_simpl. }
  assert (Hfree' : ∀ j, j = FREE_LIST_HEAD ∨ j ∈ fl → 0 <= j ∧ j ∉ ALLOC_LIST_HEAD :: (l1 ++ l2) ++ [x]).
  { intros j Hj. destruct (rings_free_elem Hr j Hj) as [? Hout]. split; [lia|].
    clear -Hout. set_solver. }
  eapply (rings_perm Hr); [|..|exact Hn'|exact Hp'| |].
  - by rewrite (Permutation_move l1 l2 fl x), <- (app_assoc (l1 ++ l2)).
  - by autorewrite with pix_len.
  - eapply nchain_frame; [|apply (rings_free_next _ _ _ _ Hr)]. intros a Ha.
    destruct (Hfree' a Ha) as [? ?]. destruct (Hframe a) as [-> _]; [done..|]. by apply Hfree.
  - intros a Ha. destruct (Hfree' a Ha) as [? ?]. destruct (Hframe a) as [-> ->]; [done..|].
    destruct (Hfree a Ha) as [-> ->]. by apply (rings_free_prev _ _ _ _ Hr).
Qed.
End ops.

(** ** The contracts of [double-chain-impl.h] *)
Section lists.
Implicit Types (l : list Z).

Lemma mem_spec x l : mem x l = true ↔ x ∈ l.
Proof.
  unfold mem. rewrite existsb_exists. setoid_rewrite Z.eqb_eq.
  setoid_rewrite <- list_elem_of_In. naive_solver.
Qed.

Lemma mem_false x l : mem x l = false ↔ x ∉ l.
Proof. rewrite <- not_true_iff_false, mem_spec. done. Qed.

Lemma remove_fst_split x l1 l2 : x ∉ l1 → remove_fst x (l1 ++ x :: l2) = l1 ++ l2.
Proof.
  induction l1 as [|a l1 IH]; intros Hx; simpl.
  - by rewrite Z.eqb_refl.
  - rewrite (proj2 (Z.eqb_neq a x)) by set_solver. rewrite IH by set_solver. done.
Qed.

Lemma elem_of_shift x l : x + INDEX_SHIFT ∈ ((λ i, i + INDEX_SHIFT) <$> l) ↔ x ∈ l.
Proof.
  rewrite list_elem_of_fmap. split.
  - intros (y & Hy & ?). assert (x = y) as -> by lia. done.
  - eauto.
Qed.
End lists.

Section contracts.
Context {dc : dchaini} {cells : list dchain_cell}.
Hypothesis Hdc : dchainip dc cells.

Lemma dchainip_range i :
  dchaini_allocated_fp dc i = true → 0 <= i < dchaini_irange_fp dc.
Proof.
  destruct Hdc as [fl Hr]. intros Hi%mem_spec%elem_of_shift.
  assert (Hin : i + INDEX_SHIFT ∈ ((λ i, i + INDEX_SHIFT) <$> dchaini_alist_fp dc) ++ fl)
    by set_solver.
  apply (rings_range _ _ _ _ Hr) in Hin. lia.
Qed.

Lemma dchainip_nodup : NoDup (dchaini_alist_fp dc).
Proof.
  destruct Hdc as [fl Hr]. pose proof (rings_nodup _ _ _ _ Hr) as Hnd.
  apply NoDup_app in Hnd as [Hnd _]. by apply NoDup_fmap_1 in Hnd.
Qed.

Lemma dchainip_len : zlen (dchaini_alist_fp dc) <= dchaini_irange_fp dc.
Proof.
  destruct Hdc as [fl Hr]. pose proof (rings_count _ _ _ _ Hr) as Hc.
  unfold zlen in *. rewrite length_fmap in Hc. lia.
Qed.

Lemma dchain_impl_allocate_new_index_spec index :
  if dchaini_out_of_space_fp dc
  then dchain_impl_allocate_new_index cells index = Ok (0, cells, index)
  else ∃ ni cells', dchain_impl_allocate_new_index cells index = Ok (1, cells', ni) ∧
    0 <= ni < dchaini_irange_fp dc ∧ dchaini_allocated_fp dc ni = false ∧
    dchainip (dchaini_allocate_fp dc ni) cells'.
Proof.
  destruct Hdc as [fl Hr]. unfold dchaini_out_of_space_fp.
  pose proof (rings_count _ _ _ _ Hr) as Hc. unfold zlen at 1 in Hc. rewrite length_fmap in Hc.
  destruct (Z.leb_spec (dchaini_irange_fp dc) (zlen (dchaini_alist_fp dc))) as [Hle|Hlt].
  - destruct fl as [|x fl]; [by eapply rings_allocate_full|].
    autorewrite with pix_len in Hc. pose proof (zlen_nonneg fl). unfold zlen in *. lia.
  - destruct fl as [|x fl]; [unfold zlen in *; simpl in Hc; lia|].
    destruct (rings_allocate_new _ _ _ _ _ index Hr) as (c & Hc' & Hr').
    exists (x - INDEX_SHIFT), c. split; [done|]. split; [|split].
    + assert (Hin : x ∈ ((λ i, i + INDEX_SHIFT) <$> dchaini_alist_fp dc) ++ x :: fl) by set_solver.
      apply (rings_range _ _ _ _ Hr) in Hin. lia.
    + apply mem_false. intros Hin%elem_of_shift. rewrite Z.sub_add in Hin.
      eapply (rings_disjoint Hr); [exact Hin|]. set_solver.
    + exists fl. simpl. rewrite fmap_app. simpl. by rewrite Z.sub_add.
Qed.

Lemma dchain_impl_free_index_spec index :
  dchaini_allocated_fp dc index = true →
  ∃ cells', dchain_impl_free_index cells index = Ok (1, cells') ∧
    dchainip (dchaini_remove_fp dc index) cells'.
Proof.
  destruct Hdc as [fl Hr]. intros Hi%mem_spec.
  apply list_elem_of_split_l in Hi as (l1 & l2 & E & Hni).
  rewrite E, fmap_app in Hr. simpl in Hr.
  destruct (rings_free _ _ _ _ _ _ Hr) as (c & Hc & Hr').
  rewrite Z.add_simpl_r in Hc. exists c. split; [done|].
  exists (index + INDEX_SHIFT :: fl). unfold dchaini_remove_fp. simpl.
  by rewrite E, (remove_fst_split _ _ _ Hni), fmap_app.
Qed.

Lemma dchain_impl_get_oldest_index_spec index :
  dchain_impl_get_oldest_index cells index =
    Ok (if dchaini_is_empty_fp dc then (0, index) else (1, dchaini_get_oldest_index_fp dc)).
Proof.
  destruct Hdc as [fl Hr]. pose proof (rings_cell_bound Hr ALLOC_LIST_HEAD ltac:(tauto)) as Hb.
  unfold dchain_impl_get_oldest_index. cell_step.
  pose proof (rings_alloc_next _ _ _ _ Hr) as Hn. apply nchain_head in Hn. rewrite Hn.
  pose proof (rings_heads_fresh Hr) as [HA _].
  unfold dchaini_is_empty_fp, dchaini_get_oldest_index_fp.
  destruct (dchaini_alist_fp dc) as [|a l]; [done|]. simpl.
  destruct (Z.eqb_spec (a + INDEX_SHIFT) ALLOC_LIST_HEAD) as [E|]; [set_solver|].
  do 2 f_equal. lia.
Qed.

Lemma dchain_impl_rejuvenate_index_spec index :
  0 <= index < dchaini_irange_fp dc →
  if dchaini_allocated_fp dc index
  then ∃ cells', dchain_impl_rejuvenate_index cells index = Ok (1, cells') ∧
    dchainip (dchaini_rejuvenate_fp dc index) cells'
  else dchain_impl_rejuvenate_index cells index = Ok (0, cells).
Proof.
  destruct Hdc as [fl Hr]. intros Hi. unfold dchaini_allocated_fp.
  destruct (mem index _) eqn:Hm.
  - apply mem_spec in Hm. apply list_elem_of_split_l in Hm as (l1 & l2 & E & Hni).
    rewrite E, fmap_app in Hr. simpl in Hr.
    destruct (rings_rejuvenate_alloc _ _ _ _ _ _ Hr) as (c & Hc & Hr').
    rewrite Z.add_simpl_r in Hc. exists c. split; [done|]. exists fl.
    unfold dchaini_rejuvenate_fp. simpl.
    by rewrite E, (remove_fst_split _ _ _ Hni), !fmap_app.
  - apply mem_false in Hm. rewrite <- elem_of_shift in Hm.
    rewrite <- (Z.add_simpl_r index INDEX_SHIFT) at 1.
    eapply rings_rejuvenate_free; [exact Hr|lia|done].
Qed.

Lemma dchain_impl_is_index_allocated_spec index :
  0 <= index < dchaini_irange_fp dc →
  dchain_impl_is_index_allocated cells index = Ok (Z.b2z (dchaini_allocated_fp dc index)).
Proof.
  destruct Hdc as [fl Hr]. intros Hi. pose proof (rings_len _ _ _ _ Hr).
  unfold dchain_impl_is_index_allocated. cell_step. do 2 f_equal.
  pose proof (rings_alloc_test Hr (index + INDEX_SHIFT) ltac:(lia)) as Ht.
  apply eq_true_iff_eq. unfold dchaini_allocated_fp.
  rewrite mem_spec, <- elem_of_shift, <- Ht, orb_true_iff, negb_true_iff, Z.eqb_neq, Z.eqb_eq. done.
Qed.
End contracts.

Lemma dchain_impl_init_spec cells size :
  0 < size → zlen cells = size + DCHAIN_RESERVED →
  ∃ cells', dchain_impl_init cells size = Ok cells' ∧
    dchainip (empty_dchaini_fp size) cells'.
Proof.
  intros Hs Hl. destruct (rings_init cells size Hs Hl) as (c & Hc & Hr).
  exists c. split; [done|]. by exists (seqZ INDEX_SHIFT size).
Qed.

(** ** What the contracts leave out *)

(** [dchain_impl_free_index] does not check that the index it is given is in
    use, although [double-chain-impl.h] specifies that it returns 0 and changes
    nothing when it is not: on a new chain of two indexes, freeing the free index
    0 returns 1, and the next two allocations hand out index 0 twice. *)
Theorem free_index_of_free_index :
  ∃ c0 c1 c2 c3,
    dchain_impl_init (replicate 4 (mk_cell 0 0)) 2 = Ok c0 ∧
    dchain_impl_is_index_allocated c0 0 = Ok 0 ∧
    dchain_impl_free_index c0 0 = Ok (1, c1) ∧
    dchain_impl_allocate_new_index c1 7 = Ok (1, c2, 0) ∧
    dchain_impl_allocate_new_index c2 7 = Ok (1, c3, 0).
Proof. do 4 eexists. vm_compute. repeat split. Qed.
