(* ===== verification/DChain.v ===== *)
(** * The index allocator with time stamps: [DoubleChain]

    Models [lib/containers/double-chain.c] and the abstract specification of
    [double-chain.h]. A chain is a list of pairs (index, time of last use), the
    oldest first. *)

From Stdlib Require Import Sorting.Sorted.
From S2P Require Import Prelude.
From S2P Require Import Malloc.
From S2P Require Import DChainImpl.

(** ** Data *)
Record DoubleChain := mk_chain { cells : list dchain_cell; timestamps : list Z }.

#[global] Instance DoubleChain_eq_dec : EqDecision DoubleChain.
Proof. solve_decision. Defined.

(** ** Operations

    [index_out] is the value of [*index_out] before the call; the results are
    (return value, chain, [*index_out] after the call). *)
Definition dchain_allocate_new_index (chain : DoubleChain) (index_out time : Z)
    : res (Z * DoubleChain * Z) :=
  '(ret, cs, index_out) ← dchain_impl_allocate_new_index (cells chain) index_out;
  if negb (ret =? 0) then
    ts ← wr (timestamps chain) index_out time;
    Ok (ret, mk_chain cs ts, index_out)
  else Ok (ret, mk_chain cs (timestamps chain), index_out).

Definition dchain_rejuvenate_index (chain : DoubleChain) (index time : Z)
    : res (Z * DoubleChain) :=
  '(ret, cs) ← dchain_impl_rejuvenate_index (cells chain) index;
  if negb (ret =? 0) then
    ts ← wr (timestamps chain) index time;
    Ok (ret, mk_chain cs ts)
  else Ok (ret, mk_chain cs (timestamps chain)).

Definition dchain_expire_one_index (chain : DoubleChain) (index_out time : Z)
    : res (Z * DoubleChain * Z) :=
  '(has_ind, index_out) ← dchain_impl_get_oldest_index (cells chain) index_out;
  if negb (has_ind =? 0) then
    t ← rd (timestamps chain) index_out;
    if t <? time then
      '(rez, cs) ← dchain_impl_free_index (cells chain) index_out;
      Ok (rez, mk_chain cs (timestamps chain), index_out)
    else Ok (0, chain, index_out)
  else Ok (0, chain, index_out).

Definition dchain_is_index_allocated (chain : DoubleChain) (index : Z) : res Z :=
  dchain_impl_is_index_allocated (cells chain) index.

(** [dchain_allocate]: three blocks (the structure, the cells, the time stamps).
    [cells0] and [ts0] are the contents of the fresh arrays. The result is the
    return value, the block stored in [*chain_out] and the chain built there. *)
Definition dchain_allocate (ok : nat → bool) (index_range : Z) (old_chain_out : nat)
    (cells0 : list dchain_cell) (ts0 : list Z)
    : heap → res ((Z * nat * option DoubleChain) * heap) :=
  let fail := (0, old_chain_out, None) in
  malloc_or ok [] fail (λ chain_alloc,
  malloc_or ok [chain_alloc] fail (λ cells_alloc,
  malloc_or ok [cells_alloc; chain_alloc] fail (λ timestamps_alloc h,
    cs ← dchain_impl_init cells0 index_range;
    Ok ((1, chain_alloc, Some (mk_chain cs ts0)), h)))).

(** ** Abstract specification: the fixpoints of [double-chain.h] *)
Record dchain := mk_dchain {
  dchain_alist_fp : list (Z * Z);
  dchain_index_range_fp : Z;
  dchain_low_fp : Z;
  dchain_high_fp : Z }.

Definition empty_dchain_fp (index_range low : Z) : dchain := mk_dchain [] index_range low low.
Definition dchain_out_of_space_fp (ch : dchain) : bool :=
  dchain_index_range_fp ch <=? zlen (dchain_alist_fp ch).
Definition dchain_indexes_fp (ch : dchain) : list Z := (dchain_alist_fp ch).*1.
Definition same_index (i : Z) (b : Z * Z) : bool := i =? b.1.
Definition dchain_allocated_fp (ch : dchain) (index : Z) : bool :=
  existsb (same_index index) (dchain_alist_fp ch).
Definition dchain_allocate_fp (ch : dchain) (index t : Z) : dchain :=
  mk_dchain (dchain_alist_fp ch ++ [(index, t)]) (dchain_index_range_fp ch) (dchain_low_fp ch) t.

Fixpoint remove_by_index_fp (lst : list (Z * Z)) (i : Z) : list (Z * Z) :=
  match lst with
  | [] => []
  | h :: t => if h.1 =? i then t else h :: remove_by_index_fp t i
  end.

Definition dchain_rejuvenate_fp (ch : dchain) (index time : Z) : dchain :=
  mk_dchain (remove_by_index_fp (dchain_alist_fp ch) index ++ [(index, time)])
    (dchain_index_range_fp ch) (dchain_low_fp ch) time.

Fixpoint alist_get_fp (al : list (Z * Z)) (i : Z) : Z :=
  match al with
  | [] => 0
  | h :: t => if h.1 =? i then h.2 else alist_get_fp t i
  end.
Definition dchain_get_time_fp (ch : dchain) (index : Z) : Z :=
  alist_get_fp (dchain_alist_fp ch) index.

Definition dchain_is_empty_fp (ch : dchain) : bool :=
  match dchain_alist_fp ch with [] => true | _ => false end.
Definition dchain_get_oldest_index_fp (ch : dchain) : Z :=
  match dchain_alist_fp ch with [] => 0 | h :: _ => h.1 end.
Definition dchain_get_oldest_time_fp (ch : dchain) : Z :=
  match dchain_alist_fp ch with [] => 0 | h :: _ => h.2 end.
Definition dchain_remove_index_fp (ch : dchain) (index : Z) : dchain :=
  mk_dchain (remove_by_index_fp (dchain_alist_fp ch) index)
    (dchain_index_range_fp ch) (dchain_low_fp ch) (dchain_high_fp ch).

Definition is_cell_expired (time : Z) (cell : Z * Z) : bool := cell.2 <? time.
Definition get_expired_indexes_fp (time : Z) (lst : list (Z * Z)) : list Z :=
  (List.filter (is_cell_expired time) lst).*1.
Definition dchain_get_expired_indexes_fp (ch : dchain) (time : Z) : list Z :=
  get_expired_indexes_fp time (dchain_alist_fp ch).
Definition dchain_expire_old_indexes_fp (ch : dchain) (time : Z) : dchain :=
  mk_dchain (fold_left remove_by_index_fp (get_expired_indexes_fp time (dchain_alist_fp ch))
                       (dchain_alist_fp ch))
    (dchain_index_range_fp ch) (dchain_low_fp ch) (dchain_high_fp ch).

Fixpoint bnd_sorted_fp (times : list Z) (low high : Z) : bool :=
  match times with
  | [] => true
  | h :: t => (low <=? h) && (h <=? high) && bnd_sorted_fp t h high
  end.
Definition dchain_sorted_fp (ch : dchain) : bool :=
  bnd_sorted_fp (dchain_alist_fp ch).*2 (dchain_low_fp ch) (dchain_high_fp ch).

(** ** Representation *)
Record double_chainp (ch : dchain) (chain : DoubleChain) : Prop := {
  dcp_cells : dchainip (mk_dchaini (dchain_indexes_fp ch) (dchain_index_range_fp ch)) (cells chain);
  dcp_tslen : zlen (timestamps chain) = dchain_index_range_fp ch;
  dcp_times : ∀ i t, (i, t) ∈ dchain_alist_fp ch → getz (timestamps chain) i = t;
  dcp_sorted : dchain_sorted_fp ch = true;
  dcp_bounds : dchain_low_fp ch <= dchain_high_fp ch
}.

(** ** Lemmas on the abstract chain *)
Section alist.
Implicit Types (l : list (Z * Z)) (i t low high : Z) (ch : dchain).

Lemma bnd_sorted_spec ts low high :
  bnd_sorted_fp ts low high = true ↔
  StronglySorted Z.le ts ∧ Forall (λ t, low <= t <= high) ts.
Proof.
  revert low. induction ts as [|t ts IH]; intros low; simpl.
  - split; [repeat constructor | done].
  - rewrite !andb_true_iff, !Z.leb_le, IH, Forall_cons.
    split; [intros ((? & ?) & ? & Hf) | intros (Hs & ? & Hf)].
    + rewrite Forall_forall in Hf. split; [constructor; [done|]|].
      * apply Forall_forall. intros x ?%Hf. lia.
      * split; [lia|]. apply Forall_forall. intros x ?%Hf. lia.
    + inversion Hs as [|? ? ? Hle]; subst. split; [lia|split; [done|]].
      rewrite Forall_forall in Hf, Hle. apply Forall_forall. intros x Hx.
      specialize (Hf x Hx). specialize (Hle x Hx). lia.
Qed.

Lemma StronglySorted_snoc (ts : list Z) t :
  StronglySorted Z.le ts → Forall (λ x, x <= t) ts → StronglySorted Z.le (ts ++ [t]).
Proof.
  induction 1 as [|a ts Hs IH Ha]; simpl; intros Hf.
  - repeat constructor.
  - apply Forall_cons in Hf as [? ?]. constructor; [auto|].
    apply Forall_app. split; [done|]. by repeat constructor.
Qed.

Lemma StronglySorted_remove (ts1 ts2 : list Z) t :
  StronglySorted Z.le (ts1 ++ t :: ts2) → StronglySorted Z.le (ts1 ++ ts2).
Proof.
  induction ts1 as [|a ts1 IH]; simpl; inversion 1 as [|? ? Hs Hf]; subst; [done|].
  constructor; [auto|]. rewrite Forall_app, Forall_cons in Hf. apply Forall_app. tauto.
Qed.

Lemma dchain_allocated_spec ch i :
  dchain_allocated_fp ch i = true ↔ i ∈ dchain_indexes_fp ch.
Proof.
  unfold dchain_allocated_fp, dchain_indexes_fp, same_index.
  rewrite existsb_exists, list_elem_of_fmap. setoid_rewrite Z.eqb_eq.
  setoid_rewrite <- list_elem_of_In. naive_solver.
Qed.

Lemma dchain_allocated_mem ch i :
  dchain_allocated_fp ch i = mem i (dchain_indexes_fp ch).
Proof. apply eq_true_iff_eq. by rewrite dchain_allocated_spec, mem_spec. Qed.

Lemma elem_of_indexes_split ch i :
  i ∈ dchain_indexes_fp ch →
  ∃ l1 t l2, dchain_alist_fp ch = l1 ++ (i, t) :: l2 ∧ i ∉ l1.*1.
Proof.
  unfold dchain_indexes_fp. induction (dchain_alist_fp ch) as [|[j u] l IH]; simpl.
  - by intros ?%elem_of_nil.
  - intros Hi. destruct (decide (i = j)) as [->|Hne].
    + exists [], u, l. split; [done|apply not_elem_of_nil].
    + destruct IH as (l1 & t & l2 & -> & Hn); [set_solver|].
      exists ((j, u) :: l1), t, l2. split; [done|]. simpl. set_solver.
Qed.

Lemma remove_by_index_split l1 i t l2 :
  i ∉ l1.*1 → remove_by_index_fp (l1 ++ (i, t) :: l2) i = l1 ++ l2.
Proof.
  induction l1 as [|[j u] l1 IH]; simpl; intros Hi.
  - by rewrite Z.eqb_refl.
  - rewrite (proj2 (Z.eqb_neq j i)) by set_solver. rewrite IH by set_solver. done.
Qed.

Lemma remove_by_index_fst l i : (remove_by_index_fp l i).*1 = remove_fst i l.*1.
Proof.
  induction l as [|[j t] l IH]; simpl; [done|].
  destruct (j =? i); [done|]. by rewrite fmap_cons, IH.
Qed.

Lemma remove_by_index_sublist l i : remove_by_index_fp l i `sublist_of` l.
Proof.
  induction l as [|[j t] l IH]; simpl; [constructor|].
  destruct (j =? i); [by apply sublist_cons|by apply sublist_skip].
Qed.

Lemma remove_by_index_sorted l i low high :
  bnd_sorted_fp l.*2 low high = true →
  bnd_sorted_fp (remove_by_index_fp l i).*2 low high = true.
Proof.
  rewrite !bnd_sorted_spec.
  destruct (decide (i ∈ l.*1)) as [Hi|Hi].
  - destruct (elem_of_indexes_split (mk_dchain l 0 0 0) i Hi) as (l1 & t & l2 & E & Hn).
    simpl in E. subst l. rewrite remove_by_index_split by done.
    rewrite !fmap_app. simpl. rewrite !Forall_app, Forall_cons.
    intros [?%StronglySorted_remove ?]. tauto.
  - assert (remove_by_index_fp l i = l) as ->; [|done].
    induction l as [|[j t] l IH]; simpl in *; [done|].
    rewrite (proj2 (Z.eqb_neq j i)) by set_solver. rewrite IH; set_solver.
Qed.

Lemma snoc_sorted l i low high t :
  low <= high → high <= t → bnd_sorted_fp l.*2 low high = true →
  bnd_sorted_fp (l ++ [(i, t)]).*2 low t = true.
Proof.
  intros ??. rewrite !bnd_sorted_spec, fmap_app. simpl. intros [Hs Hf]. split.
  - apply StronglySorted_snoc; [done|]. eapply Forall_impl; [exact Hf|]. simpl. lia.
  - apply Forall_app. split; [|repeat constructor; lia].
    eapply Forall_impl; [exact Hf|]. simpl. lia.
Qed.
End alist.

(** ** The contracts of [double-chain.h] *)
Section contracts.
Context {ch : dchain} {chain : DoubleChain}.
Hypothesis Hch : double_chainp ch chain.

Lemma chain_eta : mk_chain (cells chain) (timestamps chain) = chain.
Proof. by destruct chain. Qed.

Lemma double_chainp_nodup : NoDup (dchain_indexes_fp ch).
Proof. apply (dchainip_nodup (dcp_cells _ _ Hch)). Qed.

Lemma double_chainp_range i :
  i ∈ dchain_indexes_fp ch → 0 <= i < dchain_index_range_fp ch.
Proof.
  intros Hi. apply (dchainip_range (dcp_cells _ _ Hch)).
  unfold dchaini_allocated_fp. by apply mem_spec.
Qed.

Lemma double_chainp_len : zlen (dchain_alist_fp ch) <= dchain_index_range_fp ch.
Proof.
  pose proof (dchainip_len (dcp_cells _ _ Hch)) as Hl. simpl in Hl.
  unfold dchain_indexes_fp, zlen in *. by rewrite length_fmap in Hl.
Qed.

Lemma alist_index_elem i t : (i, t) ∈ dchain_alist_fp ch → i ∈ dchain_indexes_fp ch.
Proof. intros Hi. apply list_elem_of_fmap. by exists (i, t). Qed.

(** Updating the time stamp of an index that is not in [l] keeps those in [l]. *)
Lemma times_update l i t :
  (∀ j u, (j, u) ∈ l → (j, u) ∈ dchain_alist_fp ch) → i ∉ l.*1 →
  0 <= i < dchain_index_range_fp ch →
  ∀ j u, (j, u) ∈ l ++ [(i, t)] → getz (setz (timestamps chain) i t) j = u.
Proof.
  intros Hsub Hi Hr j u. rewrite elem_of_app, list_elem_of_singleton.
  pose proof (dcp_tslen _ _ Hch) as Hlen. intros [Hju|[= -> ->]].
  - pose proof (double_chainp_range j (alist_index_elem _ _ (Hsub _ _ Hju))).
    rewrite getz_setz_ne; [by apply (dcp_times _ _ Hch), Hsub| |lia|lia].
    intros ->. apply Hi, list_elem_of_fmap. by exists (j, u).
  - apply getz_setz_eq. lia.
Qed.

Lemma dchain_allocate_new_index_spec index_out time :
  dchain_high_fp ch <= time →
  if dchain_out_of_space_fp ch
  then dchain_allocate_new_index chain index_out time = Ok (0, chain, index_out)
  else ∃ ni chain', dchain_allocate_new_index chain index_out time = Ok (1, chain', ni) ∧
    0 <= ni < dchain_index_range_fp ch ∧ dchain_allocated_fp ch ni = false ∧
    double_chainp (dchain_allocate_fp ch ni time) chain'.
Proof.
  intros Ht. pose proof (dchain_impl_allocate_new_index_spec (dcp_cells _ _ Hch) index_out) as H.
  unfold dchaini_out_of_space_fp, dchain_out_of_space_fp, dchain_indexes_fp, zlen in *.
  simpl in H. rewrite length_fmap in H. unfold dchain_allocate_new_index.
  destruct (_ <=? _).
  - rewrite H. simpl. by rewrite chain_eta.
  - destruct H as (ni & c & -> & Hni & Hna & Hc). simpl in *.
    pose proof (dcp_tslen _ _ Hch) as Hlen. crun.
    exists ni. eexists. split; [done|]. split; [done|]. split.
    { by rewrite dchain_allocated_mem. }
    apply mem_false in Hna. split; simpl.
    + unfold dchain_indexes_fp. simpl. by rewrite fmap_app.
    + by autorewrite with pix_len.
    + by apply times_update.
    + unfold dchain_sorted_fp. simpl. eapply snoc_sorted; [|exact Ht|apply Hch].
      apply (dcp_bounds _ _ Hch).
    + pose proof (dcp_bounds _ _ Hch). lia.
Qed.

Lemma dchain_rejuvenate_index_spec index time :
  0 <= index < dchain_index_range_fp ch → dchain_high_fp ch <= time →
  if dchain_allocated_fp ch index
  then ∃ chain', dchain_rejuvenate_index chain index time = Ok (1, chain') ∧
    double_chainp (dchain_rejuvenate_fp ch index time) chain'
  else dchain_rejuvenate_index chain index time = Ok (0, chain).
Proof.
  intros Hi Ht. pose proof (dchain_impl_rejuvenate_index_spec (dcp_cells _ _ Hch) index Hi) as H.
  unfold dchaini_allocated_fp in H. simpl in H. rewrite <- dchain_allocated_mem in H.
  unfold dchain_rejuvenate_index. destruct (dchain_allocated_fp ch index) eqn:Ha.
  - destruct H as (c & -> & Hc). simpl.
    pose proof (dcp_tslen _ _ Hch) as Hlen. crun. eexists. split; [done|].
    apply dchain_allocated_spec in Ha. pose proof double_chainp_nodup as Hnd.
    destruct (elem_of_indexes_split _ _ Ha) as (l1 & t & l2 & E & Hn). split; simpl.
    + unfold dchain_indexes_fp in *. simpl. by rewrite fmap_app, remove_by_index_fst.
    + by autorewrite with pix_len.
    + apply times_update; [|unfold dchain_indexes_fp in Hnd|done].
      * intros j u Hju. by eapply elem_of_sublist, remove_by_index_sublist.
      * rewrite E in *. rewrite remove_by_index_split, fmap_app by done.
        rewrite fmap_app, fmap_cons in Hnd. simpl in Hnd.
        rewrite <- Permutation_middle in Hnd. by apply NoDup_cons in Hnd as [? _].
    + eapply snoc_sorted; [|exact Ht|apply remove_by_index_sorted, Hch].
      apply (dcp_bounds _ _ Hch).
    + pose proof (dcp_bounds _ _ Hch). lia.
  - rewrite H. simpl. by rewrite chain_eta.
Qed.

Lemma dchain_expire_one_index_spec index_out time :
  if dchain_is_empty_fp ch
  then dchain_expire_one_index chain index_out time = Ok (0, chain, index_out)
  else let oi := dchain_get_oldest_index_fp ch in
    dchain_allocated_fp ch oi = true ∧
    if dchain_get_oldest_time_fp ch <? time
    then ∃ chain', dchain_expire_one_index chain index_out time = Ok (1, chain', oi) ∧
      double_chainp (dchain_remove_index_fp ch oi) chain'
    else dchain_expire_one_index chain index_out time = Ok (0, chain, oi).
Proof.
  unfold dchain_expire_one_index.
  rewrite (dchain_impl_get_oldest_index_spec (dcp_cells _ _ Hch) index_out).
  unfold dchaini_is_empty_fp, dchaini_get_oldest_index_fp, dchain_is_empty_fp,
    dchain_get_oldest_index_fp, dchain_get_oldest_time_fp, dchain_indexes_fp. simpl.
  destruct (dchain_alist_fp ch) as [|[i t] l] eqn:E; [done|]. simpl.
  assert (Hin : (i, t) ∈ dchain_alist_fp ch) by (rewrite E; set_solver).
  pose proof (alist_index_elem _ _ Hin) as Hidx.
  pose proof (double_chainp_range _ Hidx). pose proof (dcp_tslen _ _ Hch).
  split; [by apply dchain_allocated_spec|].
  crun. rewrite (dcp_times _ _ Hch _ _ Hin). destruct (t <? time); [|done].
  destruct (dchain_impl_free_index_spec (dcp_cells _ _ Hch) i) as (c & -> & Hc).
  { by apply mem_spec. }
  simpl. eexists. split; [done|]. split; simpl.
  - unfold dchain_indexes_fp in *. simpl. by rewrite remove_by_index_fst.
  - done.
  - intros j u Hju. apply (dcp_times _ _ Hch).
    by eapply elem_of_sublist, remove_by_index_sublist.
  - apply remove_by_index_sorted, Hch.
  - apply (dcp_bounds _ _ Hch).
Qed.

Lemma double_chainp_cells : zlen (cells chain) = dchain_index_range_fp ch + DCHAIN_RESERVED.
Proof. destruct (dcp_cells _ _ Hch) as [fl Hr]. apply (rings_len _ _ _ _ Hr). Qed.

Lemma dchain_is_index_allocated_spec index :
  0 <= index < dchain_index_range_fp ch →
  dchain_is_index_allocated chain index = Ok (Z.b2z (dchain_allocated_fp ch index)).
Proof.
  intros Hi. unfold dchain_is_index_allocated. rewrite dchain_allocated_mem.
  apply (dchain_impl_is_index_allocated_spec (dcp_cells _ _ Hch) index Hi).
Qed.
End contracts.

(** [dchain_allocate] either returns 1 with an empty chain and three new
    blocks, or, only if a request fails,
    returns 0, releases every block it had obtained (whichever of the
    three requests fails) and restores [*chain_out]. *)
Theorem dchain_allocate_no_leak ok index_range old cells0 ts0 h :
  heap_wf h → 0 < index_range → zlen cells0 = index_range + DCHAIN_RESERVED →
  zlen ts0 = index_range →
  (∃ b chain h', dchain_allocate ok index_range old cells0 ts0 h = Ok ((1, b, Some chain), h') ∧
     double_chainp (empty_dchain_fp index_range 0) chain ∧ heap_wf h' ∧
     ∃ bs, length bs = 3%nat ∧ live h' = bs ++ live h) ∨
  (∃ n, dchain_allocate ok index_range old cells0 ts0 h =
     Ok ((0, old, None), mk_heap n (live h)) ∧
     ∃ r, ok r = false).
Proof.
  intros Hwf Hr Hc Ht.
  set (k := λ (bs : list nat) (h : heap), cs ← dchain_impl_init cells0 index_range;
    Ok ((1, nth 2 bs 0%nat, Some (mk_chain cs ts0)), h)).
  assert (dchain_allocate ok index_range old cells0 ts0 h =
    malloc_all ok 3 [] (0, old, None) k h) as -> by reflexivity.
  destruct (malloc_all_top ok 3 (0, old, None) k h Hwf) as [(bs & h' & -> & Hl & Hlive & Hwf')|?];
    [left|by right].
  destruct (dchain_impl_init_spec cells0 index_range Hr Hc) as (cs & Ec & Hcs).
  exists (nth 2 bs 0%nat), (mk_chain cs ts0), h'. unfold k. rewrite Ec. split; [done|].
  split; [|split; [done|by exists bs]].
  split; simpl; [done|done| |done|done]. by intros i t ?%elem_of_nil.
Qed.

(** ** Runs of the index allocator

    A client issues a sequence of calls; the abstract chain says which answers
    it may get. *)
Inductive call :=
| AllocateNewIndex (time : Z)
| RejuvenateIndex (index time : Z)
| ExpireOneIndex (time : Z)
| IsIndexAllocated (index : Z).

(** The answer: the returned int, and the index stored through [index_out]
    when there is one. *)
Definition exec_call (chain : DoubleChain) (c : call) : res (Z * option Z * DoubleChain) :=
  match c with
  | AllocateNewIndex time =>
      '(ret, chain, index) ← dchain_allocate_new_index chain 0 time;
      Ok (ret, if ret =? 0 then None else Some index, chain)
  | RejuvenateIndex index time =>
      '(ret, chain) ← dchain_rejuvenate_index chain index time; Ok (ret, None, chain)
  | ExpireOneIndex time =>
      '(ret, chain, index) ← dchain_expire_one_index chain 0 time;
      Ok (ret, if ret =? 0 then None else Some index, chain)
  | IsIndexAllocated index =>
      ret ← dchain_is_index_allocated chain index; Ok (ret, None, chain)
  end.

Fixpoint exec_calls (chain : DoubleChain) (cs : list call)
    : res (list (Z * option Z) * DoubleChain) :=
  match cs with
  | [] => Ok ([], chain)
  | c :: cs' =>
      '(ret, out, chain) ← exec_call chain c;
      '(answers, chain) ← exec_calls chain cs';
      Ok ((ret, out) :: answers, chain)
  end.

(** What the header requires of a call: an index in range, and no going back in time. *)
Definition call_ok (ch : dchain) (c : call) : Prop :=
  match c with
  | AllocateNewIndex time => dchain_high_fp ch <= time
  | RejuvenateIndex index time =>
      0 <= index < dchain_index_range_fp ch ∧ dchain_high_fp ch <= time
  | ExpireOneIndex _ => True
  | IsIndexAllocated index => 0 <= index < dchain_index_range_fp ch
  end.

Inductive call_spec (ch : dchain) : call → Z * option Z → dchain → Prop :=
| spec_no_space time :
    dchain_out_of_space_fp ch = true →
    call_spec ch (AllocateNewIndex time) (0, None) ch
| spec_allocate time i :
    dchain_out_of_space_fp ch = false → 0 <= i < dchain_index_range_fp ch →
    dchain_allocated_fp ch i = false →
    call_spec ch (AllocateNewIndex time) (1, Some i) (dchain_allocate_fp ch i time)
| spec_rejuvenate i time :
    dchain_allocated_fp ch i = true →
    call_spec ch (RejuvenateIndex i time) (1, None) (dchain_rejuvenate_fp ch i time)
| spec_rejuvenate_free i time :
    dchain_allocated_fp ch i = false →
    call_spec ch (RejuvenateIndex i time) (0, None) ch
| spec_expire time :
    dchain_is_empty_fp ch = false → dchain_get_oldest_time_fp ch < time →
    call_spec ch (ExpireOneIndex time) (1, Some (dchain_get_oldest_index_fp ch))
      (dchain_remove_index_fp ch (dchain_get_oldest_index_fp ch))
| spec_expire_none time :
    dchain_is_empty_fp ch = true ∨ time <= dchain_get_oldest_time_fp ch →
    call_spec ch (ExpireOneIndex time) (0, None) ch
| spec_is_allocated i :
    call_spec ch (IsIndexAllocated i) (Z.b2z (dchain_allocated_fp ch i), None) ch.

(** A run: the calls respect the header, the answers are those of the abstract chain. *)
Inductive run_spec : dchain → list call → list (Z * option Z) → dchain → Prop :=
| run_nil ch : run_spec ch [] [] ch
| run_cons ch c a ch' cs rs ch'' :
    call_spec ch c a ch' → run_spec ch' cs rs ch'' → run_spec ch (c :: cs) (a :: rs) ch''.

(** The calls of a run keep the requirements of the header whatever the answers are. *)
Fixpoint calls_ok (range high : Z) (cs : list call) : Prop :=
  match cs with
  | [] => True
  | AllocateNewIndex time :: cs' => high <= time ∧ calls_ok range time cs'
  | RejuvenateIndex i time :: cs' =>
      0 <= i < range ∧ high <= time ∧ calls_ok range time cs'
  | ExpireOneIndex _ :: cs' => calls_ok range high cs'
  | IsIndexAllocated i :: cs' => 0 <= i < range ∧ calls_ok range high cs'
  end.

Lemma exec_call_spec ch chain c :
  double_chainp ch chain → call_ok ch c →
  ∃ ret out chain' ch', exec_call chain c = Ok (ret, out, chain') ∧
    call_spec ch c (ret, out) ch' ∧ double_chainp ch' chain'.
Proof.
  intros Hch Hok. destruct c as [time|i time|time|i]; simpl in *.
  - pose proof (dchain_allocate_new_index_spec Hch 0 time Hok) as H.
    destruct (dchain_out_of_space_fp ch) eqn:E.
    + rewrite H. exists 0, None, chain, ch. split; [done|]. split; [by constructor|done].
    + destruct H as (ni & chain' & -> & Hni & Hn & Hc).
      exists 1, (Some ni), chain', (dchain_allocate_fp ch ni time).
      split; [done|]. split; [by constructor|done].
  - destruct Hok as [Hi Ht]. pose proof (dchain_rejuvenate_index_spec Hch i time Hi Ht) as H.
    destruct (dchain_allocated_fp ch i) eqn:E.
    + destruct H as (chain' & -> & Hc). exists 1, None, chain', (dchain_rejuvenate_fp ch i time).
      split; [done|]. split; [by constructor|done].
    + rewrite H. exists 0, None, chain, ch. split; [done|]. split; [by constructor|done].
  - pose proof (dchain_expire_one_index_spec Hch 0 time) as H.
    destruct (dchain_is_empty_fp ch) eqn:E.
    + rewrite H. exists 0, None, chain, ch. split; [done|].
      split; [apply spec_expire_none; by left|done].
    + destruct H as [_ H]. destruct (Z.ltb_spec (dchain_get_oldest_time_fp ch) time) as [Ht|Ht].
      * destruct H as (chain' & -> & Hc). do 4 eexists. split; [done|].
        split; [by apply spec_expire|done].
      * rewrite H. exists 0, None, chain, ch. split; [done|].
        split; [apply spec_expire_none; by right|done].
  - rewrite (dchain_is_index_allocated_spec Hch) by done. do 4 eexists.
    split; [done|]. split; [constructor|done].
Qed.

(** What the requirements of the remaining calls depend on. *)
Lemma call_spec_bounds ch c a ch' cs :
  call_spec ch c a ch' →
  calls_ok (dchain_index_range_fp ch) (dchain_high_fp ch) (c :: cs) →
  call_ok ch c ∧ calls_ok (dchain_index_range_fp ch') (dchain_high_fp ch') cs.
Proof.
  assert (Hmono : ∀ range h h' l, h' <= h → calls_ok range h l → calls_ok range h' l).
  { intros range h h' l. revert h h'. induction l as [|[] l IH]; intros h h' Hh; simpl; [done|..].
    - intros [? ?]. split; [lia|done].
    - intros (? & ? & ?). split; [done|]. split; [lia|done].
    - by apply IH.
    - intros [? ?]. split; [done|]. by apply (IH h). }
  destruct 1; simpl; intuition (try done; try lia; eauto).
Qed.

Lemma calls_ok_head ch c cs :
  calls_ok (dchain_index_range_fp ch) (dchain_high_fp ch) (c :: cs) → call_ok ch c.
Proof. destruct c; simpl; tauto. Qed.

(** C9: For every sequence of calls that respects the header (indexes in range,
    time not going backwards), the linked-list code of the index allocator runs
    without an access outside of its arrays, and every answer it gives is one
    the abstract chain (an age-ordered list of index/time pairs) allows: a fresh
    index is never one in use, expiration hands out the oldest index only if it
    is too old, and so on. *)
Theorem dchain_run_refines ch chain cs :
  double_chainp ch chain →
  calls_ok (dchain_index_range_fp ch) (dchain_high_fp ch) cs →
  ∃ answers chain' ch', exec_calls chain cs = Ok (answers, chain') ∧
    run_spec ch cs answers ch' ∧ double_chainp ch' chain'.
Proof.
  revert ch chain. induction cs as [|c cs IH]; intros ch chain Hch Hok.
  { exists [], chain, ch. split; [done|]. split; [constructor|done]. }
  destruct (exec_call_spec ch chain c Hch (calls_ok_head _ _ _ Hok))
    as (ret & out & chain1 & ch1 & E & Hs & Hc1).
  destruct (call_spec_bounds _ _ _ _ _ Hs Hok) as [_ Hok1].
  destruct (IH ch1 chain1 Hc1 Hok1) as (answers & chain' & ch' & E' & Hr & Hc').
  exists ((ret, out) :: answers), chain', ch'. cbn [exec_calls]. rewrite E. cbn [mbind res_bind].
  rewrite E'. split; [done|]. split; [by econstructor|done].
Qed.

(** A chain of two indexes as [dchain_allocate] leaves it. *)
Definition two_cells : list dchain_cell := [mk_cell 0 0; mk_cell 2 2; mk_cell 3 3; mk_cell 1 1].

Lemma two_cells_ok : double_chainp (empty_dchain_fp 2 0) (mk_chain two_cells [0; 0]).
Proof.
  destruct (dchain_impl_init_spec (replicate 4 (mk_cell 0 0)) 2) as (cs & E & Hcs); [done..|].
  vm_compute in E. injection E as <-.
  split; simpl; [done|done| |done|done]. by intros i t ?%elem_of_nil.
Qed.

Lemma dchain_run_refines_witness :
  ∃ answers chain' ch',
    exec_calls (mk_chain two_cells [0; 0])
      [AllocateNewIndex 1; AllocateNewIndex 2; AllocateNewIndex 3; RejuvenateIndex 0 4;
       ExpireOneIndex 3; IsIndexAllocated 1] = Ok (answers, chain') ∧
    run_spec (empty_dchain_fp 2 0)
      [AllocateNewIndex 1; AllocateNewIndex 2; AllocateNewIndex 3; RejuvenateIndex 0 4;
       ExpireOneIndex 3; IsIndexAllocated 1] answers ch' ∧
    double_chainp ch' chain'.
Proof.
  apply (dchain_run_refines (empty_dchain_fp 2 0)); [exact two_cells_ok|simpl; lia].
Defined.

Lemma dchain_allocate_no_leak_witness :
  (∃ b chain h', dchain_allocate (λ n, negb (n =? 2)%nat) 2 9 (replicate 4 (mk_cell 0 0)) [0; 0]
       (mk_heap 0 []) = Ok ((1, b, Some chain), h') ∧
     double_chainp (empty_dchain_fp 2 0) chain ∧ heap_wf h' ∧
     ∃ bs, length bs = 3%nat ∧ live h' = bs ++ []) ∨
  (∃ n, dchain_allocate (λ n, negb (n =? 2)%nat) 2 9 (replicate 4 (mk_cell 0 0)) [0; 0]
       (mk_heap 0 []) = Ok ((0, 9%nat, None), mk_heap n []) ∧
     ∃ r, negb (r =? 2)%nat = false).
Proof.
  apply (dchain_allocate_no_leak (λ n, negb (n =? 2)%nat) 2 9 (replicate 4 (mk_cell 0 0)) [0; 0]
    (mk_heap 0 [])); try done.
  split; simpl; [constructor|]. by intros b ?%elem_of_nil.
Defined.
