(* ===== verification/AltDChain.v ===== *)
(** * An index allocator with a bit per cell: [lib/containers/alternate-double-chain.c]

    An alternative to [double-chain.c] that the build leaves out. One ring through the
    cell number [capacity] holds the indexes in use, by age; a free index is found by
    a scan for a cell that is not [busy]. The scan does not wrap around at the end of
    the array: the abstract allocator of this file says what the code does then. *)

From S2P Require Import Prelude.
From S2P Require Import Malloc.
From S2P Require Import DChainImpl.
From S2P Require Import DChain.

Module AltDChain.

Record dchain_cell := mk_cell { prev : Z; next : Z; timestamp : Z; busy : Z }.
Record DoubleChain := mk_chain { cells : list dchain_cell; free_index : Z; capacity : Z }.

#[global] Instance alt_cell_eq_dec : EqDecision dchain_cell.
Proof. solve_decision. Defined.
#[global] Instance alt_cell_inhabited : Inhabited dchain_cell := populate (mk_cell 0 0 0 0).

Definition DCHAIN_RESERVED : Z := 1.

(** ** Operations *)
Implicit Types (c : dchain_cell) (cs : list dchain_cell) (chain : DoubleChain) (i index time : Z).

(** [p->field = v], as the function [f] on the cell. *)
Definition upd cs i (f : dchain_cell → dchain_cell) : res (list dchain_cell) :=
  c ← rd cs i; wr cs i (f c).
Definition with_prev (v : Z) c : dchain_cell := mk_cell v (next c) (timestamp c) (busy c).
Definition with_next (v : Z) c : dchain_cell := mk_cell (prev c) v (timestamp c) (busy c).
Definition with_timestamp (v : Z) c : dchain_cell := mk_cell (prev c) (next c) v (busy c).
Definition with_busy (v : Z) c : dchain_cell := mk_cell (prev c) (next c) (timestamp c) v.
Definition with_cells chain cs : DoubleChain := mk_chain cs (free_index chain) (capacity chain).

(** The loop of [dchain_get_free_index]; [res = i & (index_range - 1)] is not used. *)
Fixpoint get_free_loop (n : nat) cs i : res Z :=
  match n with
  | O => Ok (-1)
  | S n => c ← rd cs i; if busy c =? 0 then Ok i else get_free_loop n cs (i + 1)
  end.
Definition dchain_get_free_index chain : res Z :=
  let start := free_index chain in
  let index_range := capacity chain in
  get_free_loop (Z.to_nat (i32 (start + index_range) - start)) (cells chain) start.

(** The loop of [dchain_allocate] over the cells. *)
Fixpoint init_loop (n : nat) cs i : res (list dchain_cell) :=
  match n with
  | O => Ok cs
  | S n =>
      cs ← upd cs i (with_timestamp (-1));
      cs ← upd cs i (with_prev (-1));
      cs ← upd cs i (with_next (-1));
      cs ← upd cs i (with_busy 0);
      init_loop n cs (i + 1)
  end.

(** [cells0] is the contents of the fresh array. The result is the return value, the
    block stored in [*chain_out] and the chain built there. *)
Definition dchain_allocate (ok : nat → bool) (index_range : Z) (old_chain_out : nat)
    (cells0 : list dchain_cell) : heap → res ((Z * nat * option DoubleChain) * heap) :=
  let fail := (0, old_chain_out, None) in
  malloc_or ok [] fail (λ chain_alloc,
  malloc_or ok [chain_alloc] fail (λ cells_alloc h,
    cs ← init_loop (Z.to_nat index_range) cells0 0;
    cs ← upd cs index_range (with_timestamp (-1));
    cs ← upd cs index_range (with_prev (-1));
    cs ← upd cs index_range (with_next (-1));
    cs ← upd cs index_range (with_busy 1);
    Ok ((1, chain_alloc, Some (mk_chain cs 0 index_range)), h))).

(** Results are (return value, chain, [*index_out]). *)
Definition dchain_allocate_new_index chain (index_out time : Z) : res (Z * DoubleChain * Z) :=
  index ← dchain_get_free_index chain;
  if index =? -1 then Ok (0, chain, index_out)
  else
    let cap := capacity chain in
    head ← rd (cells chain) cap;
    let prev_first := next head in
    cs ← (if negb (prev_first =? -1) then
            cs ← upd (cells chain) prev_first (with_prev index);
            upd cs index (with_next prev_first)
          else
            cs ← upd (cells chain) cap (with_prev index);
            upd cs index (with_next cap));
    cs ← upd cs cap (with_next index);
    cs ← upd cs index (with_prev cap);
    cs ← upd cs index (with_timestamp time);
    cs ← upd cs index (with_busy 1);
    fi ← (if cap =? 0 then Err DivByZero else Ok (Z.rem (index + 1) cap));
    Ok (1, mk_chain cs fi cap, index).

Definition dchain_rejuvenate_index chain index time : res (Z * DoubleChain) :=
  let cap := capacity chain in
  c ← rd (cells chain) index;
  if busy c =? 0 then Ok (0, chain)
  else
    let prev_prev := prev c in
    let prev_next := next c in
    cs ← upd (cells chain) index (with_timestamp time);
    head ← rd cs cap;
    let prev_first := next head in
    cs ← (if negb (prev_first =? index) then
            cs ← upd cs cap (with_next index);
            cs ← upd cs index (with_prev cap);
            cs ← upd cs index (with_next prev_first);
            cs ← upd cs prev_prev (with_next prev_next);
            cs ← upd cs prev_next (with_prev prev_prev);
            upd cs prev_first (with_prev index)
          else Ok cs);
    Ok (1, with_cells chain cs).

Definition dchain_expire_one_index chain (index_out time : Z) : res (Z * DoubleChain * Z) :=
  let cap := capacity chain in
  head ← rd (cells chain) cap;
  let index := prev head in
  if index =? -1 then Ok (0, chain, index_out)
  else
    c ← rd (cells chain) index;
    if time <? timestamp c then Ok (0, chain, index_out)
    else
      let prev_next := cap in
      let prev_prev := prev c in
      cs ← (if negb (prev_prev =? prev_next) then
              cs ← upd (cells chain) prev_prev (with_next prev_next);
              upd cs prev_next (with_prev prev_prev)
            else
              cs ← upd (cells chain) cap (with_prev (-1));
              upd cs cap (with_next (-1)));
      cs ← upd cs index (with_busy 0);
      Ok (1, with_cells chain cs, index).

(** ** The abstract allocator

    The abstract chain of [double-chain.h], with the position where the scan starts. *)
Record state := mk_state { chain_of : dchain; start_of : Z }.

(** The first free index that the scan finds: the scan from [s] reads the cells up to
    the one of the sentinel. *)
Fixpoint scan (n : nat) (ch : dchain) (i : Z) : option Z :=
  match n with
  | O => None
  | S n => if dchain_allocated_fp ch i then scan n ch (i + 1) else Some i
  end.

Inductive call :=
| AllocateNewIndex (time : Z)
| RejuvenateIndex (index time : Z)
| ExpireOneIndex (time : Z).

(** [None]: the scan leaves the array of cells, as it starts at 2 or above and finds
    no free index up to the end. If it starts at 1 it gives up although the index 0
    may be free. *)
Definition spec_call (s : state) (c : call) : option (Z * option Z * state) :=
  let ch := chain_of s in
  let range := dchain_index_range_fp ch in
  match c with
  | AllocateNewIndex time =>
      match scan (Z.to_nat (range - start_of s)) ch (start_of s) with
      | Some i => Some (1, Some i, mk_state (dchain_allocate_fp ch i time) ((i + 1) mod range))
      | None => if start_of s <=? 1 then Some (0, None, s) else None
      end
  | RejuvenateIndex i time =>
      if dchain_allocated_fp ch i
      then Some (1, None, mk_state (dchain_rejuvenate_fp ch i time) (start_of s))
      else Some (0, None, s)
  | ExpireOneIndex time =>
      if negb (dchain_is_empty_fp ch) && (dchain_get_oldest_time_fp ch <=? time)
      then let oi := dchain_get_oldest_index_fp ch in
           Some (1, Some oi, mk_state (dchain_remove_index_fp ch oi) (start_of s))
      else Some (0, None, s)
  end.

(** ** Representation *)
Definition nx cs i : Z := next (getz cs i).
Definition pv cs i : Z := prev (getz cs i).
Definition bz cs i : Z := busy (getz cs i).
Definition tm cs i : Z := timestamp (getz cs i).

(** The sentinel [h] and the list of indexes, following [f] forwards and [g] backwards;
    the sentinel of the empty ring has no neighbours. *)
Definition ring (f g : Z → Z) (h : Z) (l : list Z) : Prop :=
  match l with
  | [] => f h = -1 ∧ g h = -1
  | _ => nchain f h l h ∧ pchain g h l h
  end.

(** The cells of the abstract chain [ch]: the oldest index is before the sentinel. *)
Record chain_cells (ch : dchain) cs : Prop := {
  cc_range : 0 < dchain_index_range_fp ch <= 2 ^ 30;
  cc_len : zlen cs = dchain_index_range_fp ch + DCHAIN_RESERVED;
  cc_nodup : NoDup (dchain_indexes_fp ch);
  cc_in : ∀ i, i ∈ dchain_indexes_fp ch → 0 <= i < dchain_index_range_fp ch;
  cc_ring : ring (pv cs) (nx cs) (dchain_index_range_fp ch) (dchain_indexes_fp ch);
  cc_busy : ∀ i, 0 <= i < dchain_index_range_fp ch → bz cs i = Z.b2z (dchain_allocated_fp ch i);
  cc_sentinel : bz cs (dchain_index_range_fp ch) = 1;
  cc_times : ∀ i t, (i, t) ∈ dchain_alist_fp ch → tm cs i = t
}.

Record chainp (s : state) chain : Prop := {
  cp_cells : chain_cells (chain_of s) (cells chain);
  cp_cap : capacity chain = dchain_index_range_fp (chain_of s);
  cp_start : free_index chain = start_of s;
  cp_start_in : 0 <= start_of s < dchain_index_range_fp (chain_of s)
}.

(** ** Cells *)
Lemma upd_ok cs i f : 0 <= i < zlen cs → upd cs i f = Ok (setz cs i (f (getz cs i))).
Proof. intros. unfold upd. crun. done. Qed.

(** What an update with one of the setters leaves of the four fields. *)
Section fields.
Variables (cs : list dchain_cell) (i v j : Z).
Hypothesis (Hi : 0 <= i < zlen cs) (Hj : 0 <= j).

Lemma field_set {A} (F : dchain_cell → A) c :
  F (getz (setz cs i c) j) = if decide (i = j) then F c else F (getz cs j).
Proof. rewrite getz_setz by done. by case_decide. Qed.

Lemma set_prev_pv : pv (setz cs i (with_prev v (getz cs i))) j = if decide (i = j) then v else pv cs j.
Proof. apply field_set. Qed.
Lemma set_prev_nx : nx (setz cs i (with_prev v (getz cs i))) j = nx cs j.
Proof. unfold nx. rewrite field_set. case_decide; by subst. Qed.
Lemma set_prev_bz : bz (setz cs i (with_prev v (getz cs i))) j = bz cs j.
Proof. unfold bz. rewrite field_set. case_decide; by subst. Qed.
Lemma set_prev_tm : tm (setz cs i (with_prev v (getz cs i))) j = tm cs j.
Proof. unfold tm. rewrite field_set. case_decide; by subst. Qed.
Lemma set_next_nx : nx (setz cs i (with_next v (getz cs i))) j = if decide (i = j) then v else nx cs j.
Proof. apply field_set. Qed.
Lemma set_next_pv : pv (setz cs i (with_next v (getz cs i))) j = pv cs j.
Proof. unfold pv. rewrite field_set. case_decide; by subst. Qed.
Lemma set_next_bz : bz (setz cs i (with_next v (getz cs i))) j = bz cs j.
Proof. unfold bz. rewrite field_set. case_decide; by subst. Qed.
Lemma set_next_tm : tm (setz cs i (with_next v (getz cs i))) j = tm cs j.
Proof. unfold tm. rewrite field_set. case_decide; by subst. Qed.
Lemma set_time_tm : tm (setz cs i (with_timestamp v (getz cs i))) j = if decide (i = j) then v else tm cs j.
Proof. apply field_set. Qed.
Lemma set_time_pv : pv (setz cs i (with_timestamp v (getz cs i))) j = pv cs j.
Proof. unfold pv. rewrite field_set. case_decide; by subst. Qed.
Lemma set_time_nx : nx (setz cs i (with_timestamp v (getz cs i))) j = nx cs j.
Proof. unfold nx. rewrite field_set. case_decide; by subst. Qed.
Lemma set_time_bz : bz (setz cs i (with_timestamp v (getz cs i))) j = bz cs j.
Proof. unfold bz. rewrite field_set. case_decide; by subst. Qed.
Lemma set_busy_bz : bz (setz cs i (with_busy v (getz cs i))) j = if decide (i = j) then v else bz cs j.
Proof. apply field_set. Qed.
Lemma set_busy_pv : pv (setz cs i (with_busy v (getz cs i))) j = pv cs j.
Proof. unfold pv. rewrite field_set. case_decide; by subst. Qed.
Lemma set_busy_nx : nx (setz cs i (with_busy v (getz cs i))) j = nx cs j.
Proof. unfold nx. rewrite field_set. case_decide; by subst. Qed.
Lemma set_busy_tm : tm (setz cs i (with_busy v (getz cs i))) j = tm cs j.
Proof. unfold tm. rewrite field_set. case_decide; by subst. Qed.
End fields.

(** Runs the cell accesses of an operation, and reads the resulting array. *)
Ltac bound := autorewrite with pix_len in *; unfold DCHAIN_RESERVED in *; lia.
Ltac cell_step :=
  match goal with
  | |- context [rd ?a ?i] => rewrite (rd_ok a i) by bound
  | |- context [upd ?a ?i ?f] => rewrite (upd_ok a i f) by bound
  end; cbn [mbind res_bind];
  repeat match goal with
  | |- context [next (getz ?c ?i)] => fold (nx c i)
  | |- context [prev (getz ?c ?i)] => fold (pv c i)
  | |- context [busy (getz ?c ?i)] => fold (bz c i)
  | |- context [timestamp (getz ?c ?i)] => fold (tm c i)
  end.
Ltac cell_read :=
  repeat first
    [ rewrite set_prev_pv by bound | rewrite set_prev_nx by bound | rewrite set_prev_bz by bound
    | rewrite set_prev_tm by bound | rewrite set_next_nx by bound | rewrite set_next_pv by bound
    | rewrite set_next_bz by bound | rewrite set_next_tm by bound | rewrite set_time_tm by bound
    | rewrite set_time_pv by bound | rewrite set_time_nx by bound | rewrite set_time_bz by bound
    | rewrite set_busy_bz by bound | rewrite set_busy_pv by bound | rewrite set_busy_nx by bound
    | rewrite set_busy_tm by bound ].

(** ** Rings *)
Section ring_lemmas.
Implicit Types (f g : Z → Z) (l : list Z) (h x : Z).

(** The neighbour of the sentinel that was added last. *)
Lemma ring_newest f g h l : ring f g h l → h ∉ l → 0 <= h → (∀ y, y ∈ l → 0 <= y) →
  g h = if decide (l = []) then -1 else lastd h l.
Proof.
  intros Hr Hh H0 Hl. destruct l as [|a l]; [by destruct Hr|]. destruct Hr as [_ Hp].
  rewrite decide_False by done. by apply pchain_last in Hp.
Qed.

Lemma ring_frame f f' g g' h l :
  (∀ y, y = h ∨ y ∈ l → f' y = f y ∧ g' y = g y) → ring f g h l → ring f' g' h l.
Proof.
  intros Hfr Hr. destruct l as [|a l].
  - destruct (Hfr h) as [E1 E2]; [by left|]. unfold ring in *. by rewrite E1, E2.
  - destruct Hr as [Hn Hp]. split.
    + eapply nchain_frame; [|exact Hn]. intros y Hy. by apply Hfr.
    + eapply pchain_frame; [|exact Hp]. intros y Hy. apply Hfr. tauto.
Qed.

(** Adding [x] as the newest one. *)
Lemma ring_add f f' g g' h l x :
  ring f g h l → NoDup (h :: l ++ [x]) →
  f' (lastd h l) = x → f' x = h → g' x = lastd h l → g' h = x →
  (∀ y, y = h ∨ y ∈ l → y ≠ lastd h l → f' y = f y) → (∀ y, y ∈ l → g' y = g y) →
  ring f' g' h (l ++ [x]).
Proof.
  intros Hr Hnd Hfl Hfx Hgx Hgh Hf Hg. destruct l as [|a l]; [done|].
  destruct Hr as [Hn Hp].
  destruct (ring_append f f' g g' h (a :: l) x) as [Hn' Hp']; try done.
Qed.

(** Removing [x]; the sentinel of a ring that becomes empty is reset. *)
Lemma ring_remove f f' g g' h l1 x l2 :
  ring f g h (l1 ++ x :: l2) → NoDup (h :: l1 ++ x :: l2) → l1 ++ l2 ≠ [] →
  f' (lastd h l1) = headd l2 h → g' (headd l2 h) = lastd h l1 →
  (∀ y, y = h ∨ y ∈ l1 ++ l2 → y ≠ lastd h l1 → f' y = f y) →
  (∀ y, y = h ∨ y ∈ l1 ++ l2 → y ≠ headd l2 h → g' y = g y) →
  ring f' g' h (l1 ++ l2).
Proof.
  intros Hr Hnd Hne Hfl Hgl Hf Hg.
  assert (Hr' : nchain f h (l1 ++ x :: l2) h ∧ pchain g h (l1 ++ x :: l2) h) by (by destruct l1).
  destruct Hr' as [Hn Hp].
  destruct (ring_unlink f f' g g' h l1 x l2) as [Hn' Hp']; try done.
  by destruct (l1 ++ l2).
Qed.

(** The neighbours of [x]. *)
Lemma ring_neighbours f g h l1 x l2 :
  ring f g h (l1 ++ x :: l2) → f x = headd l2 h ∧ g x = lastd h l1.
Proof.
  intros Hr.
  assert (Hr' : nchain f h (l1 ++ x :: l2) h ∧ pchain g h (l1 ++ x :: l2) h) by (by destruct l1).
  destruct Hr' as [Hn Hp]. apply nchain_app in Hn as [_ Hn%nchain_head].
  by apply pchain_app in Hp as [Hp%pchain_last _].
Qed.

Lemma lastd_skip h l1 x l2 : l2 ≠ [] → lastd h (l1 ++ x :: l2) = lastd h (l1 ++ l2).
Proof.
  intros Hne. destruct (exists_last Hne) as (l3 & z & ->).
  rewrite app_comm_cons, !app_assoc. by rewrite !lastd_snoc.
Qed.

(** Moving [x], which is not the newest one, to the newest place. *)
Lemma ring_move f f' g g' h l1 x l2 :
  let p := lastd h l1 in let q := headd l2 h in let r := lastd h (l1 ++ l2) in
  ring f g h (l1 ++ x :: l2) → NoDup (h :: l1 ++ x :: l2) → l2 ≠ [] →
  (∀ j, j = h ∨ j = x ∨ j ∈ l1 ++ l2 →
     f' j = if decide (j = r) then x else if decide (j = p) then q else
            if decide (j = x) then h else f j) →
  (∀ j, j = h ∨ j = x ∨ j ∈ l1 ++ l2 →
     g' j = if decide (j = q) then p else if decide (j = x) then r else
            if decide (j = h) then x else g j) →
  ring f' g' h ((l1 ++ l2) ++ [x]).
Proof.
  intros p q r Hr Hnd Hne Hf Hg.
  assert (Hne' : l1 ++ l2 ≠ []) by (by destruct l1).
  pose proof Hnd as [Hh Hnd']%NoDup_cons. rewrite elem_of_app, elem_of_cons in Hh.
  rewrite <- Permutation_middle in Hnd'. apply NoDup_cons in Hnd' as [Hx Hnd'].
  assert (Hq : q ∈ l2) by (destruct l2; [done|by left]).
  assert (Hp : p = h ∨ p ∈ l1) by (destruct (lastd_elem h l1) as [[? _]|?]; auto).
  assert (Hrin : r ∈ l1 ++ l2).
  { destruct (lastd_elem h (l1 ++ l2)) as [[_ ?]|?]; done. }
  rewrite elem_of_app in Hx, Hrin.
  assert (Hpx : p ≠ x) by (intros E; rewrite E in Hp; destruct Hp as [Hp|?]; [apply Hh; auto|tauto]).
  assert (Hqx : q ≠ x) by (intros E; rewrite E in Hq; tauto).
  assert (Hrx : r ≠ x) by (intros E; rewrite E in Hrin; tauto).
  assert (Hqh : q ≠ h) by (intros E; rewrite E in Hq; tauto).
  assert (Hxh : x ≠ h) by (intros ->; tauto).
  apply (ring_add (λ j, if decide (j = p) then q else f j) f' (λ j, if decide (j = q) then p else g j));
    fold r.
  - eapply ring_remove; [exact Hr|done|done|..]; cbn beta; fold p q.
    + by rewrite decide_True.
    + by rewrite decide_True.
    + intros y _ Hy. by rewrite decide_False.
    + intros y _ Hy. by rewrite decide_False.
  - rewrite app_comm_cons. apply NoDup_snoc.
    + apply NoDup_cons. rewrite elem_of_app. tauto.
    + rewrite elem_of_cons, elem_of_app. tauto.
  - rewrite Hf by (rewrite elem_of_app; tauto). by rewrite decide_True.
  - rewrite Hf by auto. rewrite !decide_False by done. by rewrite decide_True.
  - rewrite Hg by auto. rewrite decide_False by done. by rewrite decide_True.
  - rewrite Hg by auto. rewrite !decide_False by done. by rewrite decide_True.
  - intros y Hy Hyr. rewrite Hf by tauto. rewrite (decide_False (P := y = r)) by done.
    rewrite (decide_False (P := y = x)); [done|]. intros ->. rewrite elem_of_app in Hy. tauto.
  - intros y Hy. rewrite Hg by tauto. rewrite elem_of_app in Hy.
    rewrite (decide_False (P := y = x)) by (intros ->; tauto).
    by rewrite (decide_False (P := y = h)) by (intros ->; tauto).
Qed.
End ring_lemmas.

(** ** The scan *)
Lemma scan_Some n ch i j :
  scan n ch i = Some j → i <= j < i + Z.of_nat n ∧ dchain_allocated_fp ch j = false.
Proof.
  revert i. induction n as [|n IH]; intros i; cbn [scan]; [done|].
  destruct (dchain_allocated_fp ch i) eqn:E.
  - intros [? ?]%IH. split; [lia|done].
  - intros [= <-]. split; [lia|done].
Qed.

Lemma scan_None n ch i j :
  scan n ch i = None → i <= j < i + Z.of_nat n → dchain_allocated_fp ch j = true.
Proof.
  revert i. induction n as [|n IH]; intros i; cbn [scan]; [lia|].
  destruct (dchain_allocated_fp ch i) eqn:E; [|done].
  intros Hs Hj. destruct (decide (j = i)) as [->|]; [done|]. apply (IH (i + 1)); [done|lia].
Qed.

Lemma get_free_loop_scan ch cs k m i :
  chain_cells ch cs → 0 <= i → i + Z.of_nat k = dchain_index_range_fp ch →
  get_free_loop (k + m) cs i =
  match scan k ch i with
  | Some j => Ok j
  | None => get_free_loop m cs (dchain_index_range_fp ch)
  end.
Proof.
  intros Hc. pose proof (cc_len _ _ Hc). revert i. induction k as [|k IH]; intros i Hi Hk.
  { simpl. f_equal. lia. }
  cbn [Nat.add get_free_loop scan]. cell_step. rewrite (cc_busy _ _ Hc) by lia.
  destruct (dchain_allocated_fp ch i); [|done]. apply IH; lia.
Qed.

Lemma get_free_index_scan s chain :
  chainp s chain →
  dchain_get_free_index chain =
  match scan (Z.to_nat (dchain_index_range_fp (chain_of s) - start_of s)) (chain_of s) (start_of s) with
  | Some j => Ok j
  | None => if start_of s <=? 1 then Ok (-1) else Err OutOfBounds
  end.
Proof.
  intros [Hc Hcap Hst Hin]. pose proof (cc_range _ _ Hc) as Hr. pose proof (cc_len _ _ Hc) as Hl.
  unfold dchain_get_free_index. rewrite Hcap, Hst, i32_id by lia.
  replace (Z.to_nat _) with (Z.to_nat (dchain_index_range_fp (chain_of s) - start_of s)
    + Z.to_nat (start_of s))%nat by lia.
  rewrite (get_free_loop_scan (chain_of s)) by (done || lia).
  destruct (scan _ _ _); [done|].
  destruct (Z.leb_spec (start_of s) 1) as [H1|H1].
  - assert (start_of s = 0 ∨ start_of s = 1) as [->| ->] by lia; [done|].
    change (Z.to_nat 1) with 1%nat. cbn [get_free_loop]. cell_step. by rewrite (cc_sentinel _ _ Hc).
  - replace (Z.to_nat (start_of s)) with (S (S (Z.to_nat (start_of s - 2)))) by lia.
    cbn [get_free_loop]. cell_step. rewrite (cc_sentinel _ _ Hc).
    cbn. by rewrite rd_err by bound.
Qed.

(** ** Operations on the cells *)
Section cell_ops.
Context {ch : dchain} {cs : list dchain_cell}.
Hypothesis Hc : chain_cells ch cs.
Let C := dchain_index_range_fp ch.
Let l := dchain_indexes_fp ch.

Lemma cells_nodup : NoDup (C :: l).
Proof.
  apply NoDup_cons. split; [|apply (cc_nodup _ _ Hc)]. intros ?%(cc_in _ _ Hc). unfold C in *. lia.
Qed.

Lemma cells_lastd l1 : (∀ y, y ∈ l1 → y ∈ l) → lastd C l1 = C ∧ l1 = [] ∨ 0 <= lastd C l1 < C.
Proof.
  intros Hsub. destruct (lastd_elem C l1) as [?|Hin]; [by left|right]. by apply (cc_in _ _ Hc), Hsub.
Qed.

(** The cells of [c'] are those of [cs] with [i] as the newest index. *)
Lemma cells_add (c' : list dchain_cell) i time :
  0 <= i < C → dchain_allocated_fp ch i = false → zlen c' = zlen cs →
  (∀ j, 0 <= j → pv c' j = if decide (j = i) then C else if decide (j = lastd C l) then i else pv cs j) →
  (∀ j, 0 <= j → nx c' j = if decide (j = C) then i else if decide (j = i) then lastd C l else nx cs j) →
  (∀ j, 0 <= j → bz c' j = if decide (j = i) then 1 else bz cs j) →
  (∀ j, 0 <= j → tm c' j = if decide (j = i) then time else tm cs j) →
  chain_cells (dchain_allocate_fp ch i time) c'.
Proof.
  intros Hi Ha Hlen Hpv Hnx Hbz Htm. pose proof (cc_range _ _ Hc) as Hr. fold C in Hr.
  assert (Hni : i ∉ l) by (intros Hin%dchain_allocated_spec; congruence).
  assert (El : dchain_indexes_fp (dchain_allocate_fp ch i time) = l ++ [i]).
  { unfold dchain_indexes_fp. simpl. by rewrite fmap_app. }
  assert (Hin : ∀ y, y ∈ l → 0 <= y < C) by (intros y Hy; by apply (cc_in _ _ Hc)).
  pose proof cells_nodup as Hnd. pose proof (cells_lastd l (λ y Hy, Hy)) as Hlast.
  assert (Hli : lastd C l ≠ i).
  { destruct (lastd_elem C l) as [[-> _]|H]; [lia|]. intros E. by rewrite E in H. }
  split; rewrite ?El; cbn [dchain_index_range_fp dchain_allocate_fp dchain_alist_fp]; fold C.
  - done.
  - rewrite Hlen. apply (cc_len _ _ Hc).
  - apply NoDup_snoc; [apply (cc_nodup _ _ Hc)|done].
  - intros j [Hj| ->%list_elem_of_singleton]%elem_of_app; [auto|lia].
  - apply (ring_add (pv cs) (pv c') (nx cs) (nx c') C l i (cc_ring _ _ Hc)).
    + rewrite app_comm_cons. apply NoDup_snoc; [done|]. rewrite elem_of_cons. intros [?|?]; [lia|done].
    + rewrite Hpv by lia. by dec_simpl.
    + rewrite Hpv by lia. by dec_simpl.
    + rewrite Hnx by lia. rewrite decide_False by lia. by dec_simpl.
    + rewrite Hnx by lia. by dec_simpl.
    + intros y Hy Hyl. assert (0 <= y ∧ y ≠ i) as [? ?].
      { destruct Hy as [->|Hy]; [lia|]. specialize (Hin y Hy). split; [lia|congruence]. }
      rewrite Hpv by done. by dec_simpl.
    + intros y Hy. specialize (Hin y Hy). rewrite Hnx by lia.
      rewrite !decide_False; [done|congruence|lia].
  - intros j Hj. rewrite Hbz by lia. unfold dchain_allocated_fp. simpl. rewrite existsb_app. simpl.
    unfold same_index at 2. simpl. rewrite orb_false_r.
    destruct (decide (j = i)) as [->|Hne]; [by rewrite Z.eqb_refl, orb_true_r|].
    rewrite (proj2 (Z.eqb_neq j i)) by done. rewrite orb_false_r. by apply (cc_busy _ _ Hc).
  - rewrite Hbz by lia. rewrite decide_False by lia. apply (cc_sentinel _ _ Hc).
  - intros j t Hj%elem_of_app. destruct Hj as [Hj|[= -> ->]%list_elem_of_singleton].
    + assert (j ∈ l) as Hjl by (apply list_elem_of_fmap; by exists (j, t)).
      specialize (Hin j Hjl). rewrite Htm by lia. rewrite decide_False by congruence.
      by apply (cc_times _ _ Hc).
    + rewrite Htm by lia. by dec_simpl.
Qed.

(** The newest index has the sentinel before it, and the other way around. *)
Lemma cells_newest : nx cs C = if decide (l = []) then -1 else lastd C l.
Proof.
  pose proof (cc_range _ _ Hc). apply (ring_newest _ _ _ _ (cc_ring _ _ Hc)).
  - pose proof cells_nodup as Hnd. by apply NoDup_cons in Hnd as [? _].
  - lia.
  - intros y Hy. apply (cc_in _ _ Hc) in Hy. lia.
Qed.

(** The cells after [dchain_allocate_new_index] gave out [i]. *)
Lemma allocate_cells chain index_out time i :
  cells chain = cs → capacity chain = C →
  0 <= i < C → dchain_allocated_fp ch i = false → dchain_get_free_index chain = Ok i →
  ∃ c' : list dchain_cell, dchain_allocate_new_index chain index_out time =
      Ok (1, mk_chain c' ((i + 1) mod C) C, i) ∧
    chain_cells (dchain_allocate_fp ch i time) c'.
Proof.
  intros Ecs Ecap Hi Ha Hfree. pose proof (cc_range _ _ Hc) as Hr. pose proof (cc_len _ _ Hc) as Hl.
  fold C in Hr, Hl. pose proof (cells_lastd l (λ y Hy, Hy)) as Hlast.
  unfold dchain_allocate_new_index. rewrite Hfree, Ecs, Ecap.
  cbn [mbind res_bind]. rewrite (proj2 (Z.eqb_neq i (-1))) by lia.
  cell_step. rewrite cells_newest. rewrite (proj2 (Z.eqb_neq C 0)) by lia.
  rewrite Z.rem_mod_nonneg by lia.
  assert (Hni : lastd C l ≠ i).
  { destruct (lastd_elem C l) as [[-> _]|H]; [lia|]. intros E. rewrite E in H.
    apply dchain_allocated_spec in H. congruence. }
  destruct (decide (l = [])) as [El|El].
  - rewrite Z.eqb_refl. cbn [negb]. rewrite El in Hlast, Hni. cbn [lastd] in *.
    do 6 cell_step. eexists. split; [done|].
    apply cells_add; try done; [by autorewrite with pix_len|..]; intros j Hj; rewrite ?El; cbn [lastd];
      cell_read; repeat case_decide; congruence || lia.
  - destruct Hlast as [[_ ?]|Hlast]; [done|].
    rewrite (proj2 (Z.eqb_neq (lastd C l) (-1))) by lia. cbn [negb].
    do 6 cell_step. eexists. split; [done|].
    apply cells_add; try done; [by autorewrite with pix_len|..]; intros j Hj;
      cell_read; repeat case_decide; congruence || lia.
Qed.

(** The cells of [c'] are those of [cs] with [x] taken out. *)
Lemma ring_in_split l1 x l2 :
  l = l1 ++ x :: l2 →
  pv cs x = headd l2 C ∧ nx cs x = lastd C l1 ∧ 0 <= x < C ∧ x ∉ l1 ∧ x ∉ l2 ∧
  (∀ y, y ∈ l1 ++ l2 → 0 <= y < C ∧ y ≠ x).
Proof.
  intros E. pose proof (cc_ring _ _ Hc) as Hr. fold C l in Hr. rewrite E in Hr.
  destruct (ring_neighbours _ _ _ _ _ _ Hr) as [Hp Hn].
  pose proof (cc_nodup _ _ Hc) as Hnd. fold l in Hnd. rewrite E, <- Permutation_middle in Hnd.
  apply NoDup_cons in Hnd as [Hx _]. rewrite elem_of_app in Hx.
  assert (Hin : ∀ y, y ∈ l → 0 <= y < C) by (intros y Hy; by apply (cc_in _ _ Hc)).
  split_and!; [done|done| | |tauto|tauto|].
  - apply Hin. rewrite E, elem_of_app, elem_of_cons. tauto.
  - apply Hin. rewrite E, elem_of_app, elem_of_cons. tauto.
  - intros y Hy. split; [apply Hin; rewrite E; rewrite elem_of_app in *; rewrite elem_of_cons; tauto|].
    intros ->. by apply elem_of_app in Hy.
Qed.

Lemma alist_split x l1 t l2 :
  dchain_alist_fp ch = l1 ++ (x, t) :: l2 → x ∉ l1.*1 ∧ x ∉ l2.*1 ∧
  remove_by_index_fp (dchain_alist_fp ch) x = l1 ++ l2.
Proof.
  intros E. destruct (ring_in_split l1.*1 x l2.*1) as (_ & _ & _ & H1 & H2 & _).
  { unfold l, dchain_indexes_fp. by rewrite E, fmap_app, fmap_cons. }
  split; [done|]. split; [done|]. rewrite E. by apply remove_by_index_split.
Qed.

(** The cells of [c'] are those of [cs] with [x] moved to the newest place. *)
Lemma cells_move (c' : list dchain_cell) l1 x t l2 time :
  dchain_alist_fp ch = l1 ++ (x, t) :: l2 → zlen c' = zlen cs →
  ring (pv c') (nx c') C ((l1 ++ l2).*1 ++ [x]) →
  (∀ j, 0 <= j → bz c' j = bz cs j) →
  (∀ j, 0 <= j → tm c' j = if decide (j = x) then time else tm cs j) →
  chain_cells (dchain_rejuvenate_fp ch x time) c'.
Proof.
  intros E Hlen Hring Hbz Htm. destruct (alist_split _ _ _ _ E) as (H1 & H2 & Er).
  pose proof (cc_range _ _ Hc) as Hr.
  assert (El : dchain_indexes_fp (dchain_rejuvenate_fp ch x time) = (l1 ++ l2).*1 ++ [x]).
  { unfold dchain_indexes_fp. simpl. by rewrite Er, fmap_app. }
  assert (Hp : (l1 ++ l2).*1 ++ [x] ≡ₚ l).
  { unfold l, dchain_indexes_fp. rewrite E, !fmap_app, fmap_cons. simpl.
    etrans; [apply Permutation_app_comm|]. simpl. apply Permutation_middle. }
  split; rewrite ?El; cbn [dchain_index_range_fp dchain_rejuvenate_fp dchain_alist_fp]; fold C.
  - done.
  - rewrite Hlen. apply (cc_len _ _ Hc).
  - rewrite Hp. apply (cc_nodup _ _ Hc).
  - intros j. rewrite Hp. apply (cc_in _ _ Hc).
  - done.
  - intros j Hj. rewrite Hbz, (cc_busy _ _ Hc) by (fold C; lia). f_equal.
    apply eq_true_iff_eq. rewrite !dchain_allocated_spec, El, Hp. done.
  - rewrite Hbz by (fold C in Hr; lia). apply (cc_sentinel _ _ Hc).
  - intros j u. rewrite Er, elem_of_app. intros [Hj|[= -> ->]%list_elem_of_singleton].
    + assert (Hjl : (j, u) ∈ dchain_alist_fp ch).
      { rewrite E. rewrite elem_of_app in *. rewrite elem_of_cons. tauto. }
      assert (j ∈ (l1 ++ l2).*1) as Hj1 by (apply list_elem_of_fmap; by exists (j, u)).
      rewrite fmap_app, elem_of_app in Hj1.
      assert (0 <= j) by (enough (0 <= j < dchain_index_range_fp ch) by lia; apply (cc_in _ _ Hc);
        apply list_elem_of_fmap; by exists (j, u)).
      rewrite Htm by done. rewrite decide_False; [by apply (cc_times _ _ Hc)|].
      intros ->. tauto.
    + assert (0 <= x) by (enough (0 <= x < dchain_index_range_fp ch) by lia; apply (cc_in _ _ Hc);
        fold l; rewrite <- Hp; apply elem_of_app; right; by apply list_elem_of_singleton).
      rewrite Htm by done. by dec_simpl.
Qed.

(** The cells of [c'] are those of [cs] with the oldest index taken out. *)
Lemma cells_drop (c' : list dchain_cell) x t l2 :
  dchain_alist_fp ch = (x, t) :: l2 → zlen c' = zlen cs →
  ring (pv c') (nx c') C l2.*1 →
  (∀ j, 0 <= j → bz c' j = if decide (j = x) then 0 else bz cs j) →
  (∀ j, 0 <= j → tm c' j = tm cs j) →
  chain_cells (dchain_remove_index_fp ch x) c'.
Proof.
  intros E Hlen Hring Hbz Htm. destruct (alist_split _ [] _ _ E) as (_ & H2 & Er).
  pose proof (cc_range _ _ Hc) as Hr. fold C in Hr. cbn [app] in Er.
  assert (El : dchain_indexes_fp (dchain_remove_index_fp ch x) = l2.*1).
  { unfold dchain_indexes_fp. simpl. by rewrite Er. }
  assert (Ell : l = x :: l2.*1) by (unfold l, dchain_indexes_fp; by rewrite E).
  pose proof (cc_nodup _ _ Hc) as Hnd. fold l in Hnd. rewrite Ell in Hnd.
  apply NoDup_cons in Hnd as [Hx Hnd].
  assert (Hin : ∀ j, j ∈ l → 0 <= j < C) by (intros j Hj; by apply (cc_in _ _ Hc)).
  assert (Hx0 : 0 <= x < C) by (apply Hin; rewrite Ell; by left).
  split; rewrite ?El; cbn [dchain_index_range_fp dchain_remove_index_fp dchain_alist_fp]; fold C.
  - done.
  - rewrite Hlen. apply (cc_len _ _ Hc).
  - done.
  - intros j Hj. apply Hin. rewrite Ell. by right.
  - done.
  - intros j Hj. rewrite Hbz by lia.
    assert (Ha : dchain_allocated_fp ch j = bool_decide (j ∈ l)).
    { apply eq_true_iff_eq. by rewrite dchain_allocated_spec, bool_decide_eq_true. }
    assert (Ha' : dchain_allocated_fp (dchain_remove_index_fp ch x) j = bool_decide (j ∈ l2.*1)).
    { apply eq_true_iff_eq. by rewrite dchain_allocated_spec, bool_decide_eq_true, El. }
    rewrite (cc_busy _ _ Hc) by done. rewrite Ha, Ha', Ell.
    destruct (decide (j = x)) as [->|Ej]; [by rewrite bool_decide_eq_false_2|].
    f_equal. apply bool_decide_ext. rewrite elem_of_cons. tauto.
  - rewrite Hbz by lia. rewrite decide_False by lia. apply (cc_sentinel _ _ Hc).
  - intros j u. rewrite Er. intros Hj.
    assert (Hjl : (j, u) ∈ dchain_alist_fp ch) by (rewrite E; by right).
    assert (0 <= j < C) by (apply Hin, list_elem_of_fmap; by exists (j, u)).
    rewrite Htm by lia. by apply (cc_times _ _ Hc).
Qed.
End cell_ops.

(** ** The operations implement the abstract allocator *)
Section ops.
Context {s : state} {chain : DoubleChain}.
Hypothesis Hp : chainp s chain.
Let ch := chain_of s.
Let C := dchain_index_range_fp ch.
Let Hc : chain_cells ch (cells chain) := cp_cells _ _ Hp.

Lemma chainp_cells cs' ch' :
  chain_cells ch' cs' → dchain_index_range_fp ch' = C →
  chainp (mk_state ch' (start_of s)) (with_cells chain cs').
Proof.
  intros Hc' E. split; cbn [chain_of start_of with_cells cells free_index capacity];
    rewrite ?E; [done|apply (cp_cap _ _ Hp)|apply (cp_start _ _ Hp)|apply (cp_start_in _ _ Hp)].
Qed.

Lemma allocate_spec index_out time :
  match spec_call s (AllocateNewIndex time) with
  | Some (r, Some i, s') => ∃ chain', dchain_allocate_new_index chain index_out time = Ok (r, chain', i) ∧
                              r ≠ 0 ∧ chainp s' chain'
  | Some (r, None, s') => s' = s ∧ dchain_allocate_new_index chain index_out time = Ok (0, chain, index_out)
                            ∧ r = 0
  | None => dchain_allocate_new_index chain index_out time = Err OutOfBounds
  end.
Proof.
  cbn [spec_call]. fold ch. pose proof (get_free_index_scan s chain Hp) as Hfree. fold ch C in Hfree.
  pose proof (cp_start_in _ _ Hp) as Hs. fold ch C in Hs. fold C.
  destruct (scan _ ch (start_of s)) as [i|] eqn:E.
  - apply scan_Some in E as [Hi Ha].
    destruct (allocate_cells Hc chain index_out time i eq_refl (cp_cap _ _ Hp)) as (c' & -> & Hc');
      [fold C; lia|done|done|].
    eexists. split; [done|]. split; [done|].
    split; cbn [chain_of start_of cells free_index capacity]; [done|done|done|].
    apply Z.mod_pos_bound. cbn. fold C. lia.
  - unfold dchain_allocate_new_index. rewrite Hfree.
    destruct (start_of s <=? 1); [|done]. done.
Qed.

Lemma rejuvenate_spec index time :
  0 <= index < C →
  match spec_call s (RejuvenateIndex index time) with
  | Some (r, _, s') => ∃ chain', dchain_rejuvenate_index chain index time = Ok (r, chain') ∧
                         chainp s' chain'
  | None => False
  end.
Proof.
  intros Hi. cbn [spec_call]. fold ch. pose proof (cc_range _ _ Hc) as Hr. fold C in Hr.
  pose proof (cc_len _ _ Hc) as Hl. fold C in Hl.
  unfold dchain_rejuvenate_index. rewrite (cp_cap _ _ Hp). fold ch C. cell_step.
  rewrite (cc_busy _ _ Hc) by done.
  destruct (dchain_allocated_fp ch index) eqn:Ha; cbn [Z.b2z Z.eqb];
    [|exists chain; by split; [|destruct s]].
  apply dchain_allocated_spec in Ha.
  destruct (elem_of_indexes_split _ _ Ha) as (l1 & t & l2 & E & _).
  assert (El : dchain_indexes_fp ch = l1.*1 ++ index :: l2.*1).
  { unfold dchain_indexes_fp. by rewrite E, fmap_app, fmap_cons. }
  destruct (ring_in_split Hc _ _ _ El) as (Hpx & Hnx & _ & Hx1 & Hx2 & Hin). fold C in Hpx, Hnx, Hin.
  rewrite Hpx, Hnx.
  assert (Hlast : nx (cells chain) C = lastd C (dchain_indexes_fp ch)).
  { pose proof (cells_newest Hc) as Hnew. fold C in Hnew. rewrite Hnew. rewrite decide_False; [done|].
    rewrite El. by destruct l1. }
  do 2 cell_step. cell_read. rewrite Hlast.
  destruct (Z.eqb_spec (lastd C (dchain_indexes_fp ch)) index) as [En|En]; cbn [negb].
  - (* the newest one already *)
    cbn [mbind res_bind]. eexists. split; [done|].
    assert (l2 = []) as ->.
    { destruct l2 as [|p l2]; [done|]. exfalso. rewrite El in En.
      destruct (exists_last (l := (p :: l2).*1)) as (l3 & z & E3); [done|].
      rewrite E3, app_comm_cons, app_assoc, lastd_snoc in En. subst z.
      apply Hx2. rewrite E3. apply elem_of_app. right. by left. }
    apply chainp_cells; [|done]. apply (cells_move Hc _ l1 index t [] time E).
    + by autorewrite with pix_len.
    + rewrite app_nil_r. change (l1.*1 ++ [index]) with (l1.*1 ++ index :: ([] : list (Z * Z)).*1).
      rewrite <- El. eapply ring_frame; [|exact (cc_ring _ _ Hc)]. fold ch C.
      intros y Hy. assert (0 <= y).
      { destruct Hy as [->|Hy]; [lia|]. apply (cc_in _ _ Hc) in Hy. lia. }
      by cell_read.
    + intros j Hj. by cell_read.
    + intros j Hj. cell_read. repeat case_decide; congruence.
  - assert (Hne : l2.*1 ≠ []).
    { intros E2. rewrite El, E2, lastd_snoc in En. done. }
    rewrite El, lastd_skip in En |- * by done. rewrite <- fmap_app in En |- *.
    set (r := lastd C (l1 ++ l2).*1) in *. set (p := lastd C l1.*1). set (q := headd l2.*1 C).
    assert (Hbnd : ∀ y, y = C ∨ y ∈ (l1 ++ l2).*1 → 0 <= y < C + 1 ∧ y ≠ index).
    { intros y [->|Hy]; [lia|]. rewrite fmap_app in Hy. apply Hin in Hy. lia. }
    assert (Hr' : r = C ∨ r ∈ (l1 ++ l2).*1) by (destruct (lastd_elem C (l1 ++ l2).*1) as [[? _]|?]; auto).
    assert (Hp' : p = C ∨ p ∈ (l1 ++ l2).*1).
    { destruct (lastd_elem C l1.*1) as [[? _]|?]; [by left|right]. rewrite fmap_app. by apply elem_of_app; left. }
    assert (Hq' : q = C ∨ q ∈ (l1 ++ l2).*1).
    { destruct (headd_elem l2.*1 C) as [[? _]|?]; [by left|right]. rewrite fmap_app. by apply elem_of_app; right. }
    apply Hbnd in Hr', Hp', Hq'.
    do 6 cell_step. eexists. split; [done|].
    apply chainp_cells; [|done]. apply (cells_move Hc _ l1 index t l2 time E).
    + by autorewrite with pix_len.
    + rewrite fmap_app. apply (ring_move (pv (cells chain)) _ (nx (cells chain)) _).
      * rewrite <- El. apply (cc_ring _ _ Hc).
      * rewrite <- El. apply (cells_nodup Hc).
      * done.
      * rewrite <- fmap_app. fold C r p q. intros j Hj. assert (0 <= j).
        { destruct Hj as [->|[->|Hj]]; [lia|lia|]. destruct (Hbnd j); [by right|lia]. }
        cell_read. repeat case_decide; congruence.
      * rewrite <- fmap_app. fold C r p q. intros j Hj. assert (0 <= j).
        { destruct Hj as [->|[->|Hj]]; [lia|lia|]. destruct (Hbnd j); [by right|lia]. }
        cell_read. repeat case_decide; congruence.
    + intros j Hj. by cell_read.
    + intros j Hj. cell_read. repeat case_decide; congruence.
Qed.

Lemma expire_spec index_out time :
  match spec_call s (ExpireOneIndex time) with
  | Some (r, Some i, s') => ∃ chain', dchain_expire_one_index chain index_out time = Ok (r, chain', i) ∧
                              r ≠ 0 ∧ chainp s' chain'
  | Some (r, None, s') => s' = s ∧ dchain_expire_one_index chain index_out time = Ok (0, chain, index_out)
                            ∧ r = 0
  | None => False
  end.
Proof.
  cbn [spec_call]. fold ch. pose proof (cc_range _ _ Hc) as Hr. fold C in Hr.
  pose proof (cc_len _ _ Hc) as Hl. fold C in Hl. pose proof (cc_ring _ _ Hc) as Hring. fold C in Hring.
  unfold dchain_expire_one_index, dchain_is_empty_fp, dchain_get_oldest_time_fp,
    dchain_get_oldest_index_fp. rewrite (cp_cap _ _ Hp). fold ch C. cell_step.
  destruct (dchain_alist_fp ch) as [|[x t] l2] eqn:E; cbn [negb andb fst snd].
  { assert (El : dchain_indexes_fp ch = []) by (unfold dchain_indexes_fp; by rewrite E).
    rewrite El in Hring. destruct Hring as [-> _]. done. }
  assert (El : dchain_indexes_fp ch = x :: l2.*1) by (unfold dchain_indexes_fp; by rewrite E).
  destruct (ring_in_split Hc [] _ _ El) as (Hpx & Hnx & Hx & _ & Hx2 & Hin). fold C in Hpx, Hnx, Hx, Hin.
  cbn [app lastd] in *.
  assert (Hold : pv (cells chain) C = x).
  { rewrite El in Hring. by destruct Hring as [Hn%nchain_head _]. }
  rewrite Hold. rewrite (proj2 (Z.eqb_neq x (-1))) by lia. cell_step.
  rewrite (cc_times _ _ Hc x t) by (rewrite E; by left). rewrite Z.leb_antisym.
  destruct (time <? t); cbn [negb]; [done|]. rewrite Hpx.
  destruct (Z.eqb_spec (headd l2.*1 C) C) as [En|En]; cbn [negb].
  - assert (l2 = []) as ->.
    { destruct l2 as [|y l2]; [done|]. cbn in En. destruct (Hin y.1) as [? _]; [by left|lia]. }
    do 3 cell_step. eexists. split; [done|]. split; [done|].
    apply chainp_cells; [|done]. apply (cells_drop Hc _ x t [] E).
    + by autorewrite with pix_len.
    + fold C. unfold ring. cbn [fmap list_fmap]. split; cell_read; by dec_simpl.
    + intros j Hj. cell_read. repeat case_decide; congruence.
    + intros j Hj. by cell_read.
  - assert (Hq : headd l2.*1 C ∈ l2.*1) by (destruct (headd_elem l2.*1 C) as [[? _]|?]; done).
    pose proof (Hin _ Hq) as [Hqb Hqx].
    do 3 cell_step. eexists. split; [done|]. split; [done|].
    apply chainp_cells; [|done]. apply (cells_drop Hc _ x t l2 E).
    + by autorewrite with pix_len.
    + fold C. rewrite El in Hring.
      apply (ring_remove (pv (cells chain)) _ (nx (cells chain)) _ C [] x l2.*1 Hring); cbn [app lastd].
      * rewrite <- El. apply (cells_nodup Hc).
      * intros E2. rewrite E2 in Hq. by apply elem_of_nil in Hq.
      * cell_read. by dec_simpl.
      * cell_read. by dec_simpl.
      * intros y [->|Hy] Hyl; [done|]. apply Hin in Hy. cell_read. by dec_simpl.
      * intros y Hy Hyl. assert (0 <= y) by (destruct Hy as [->|Hy]; [lia|]; apply Hin in Hy; lia).
        cell_read. by dec_simpl.
    + intros j Hj. cell_read. repeat case_decide; congruence.
    + intros j Hj. by cell_read.
Qed.
End ops.

(** ** Allocation *)
Lemma alt_init_loop_ok n cs i :
  0 <= i → i + Z.of_nat n <= zlen cs →
  ∃ cs' : list dchain_cell, init_loop n cs i = Ok cs' ∧ zlen cs' = zlen cs ∧
    (∀ j, i <= j < i + Z.of_nat n → bz cs' j = 0) ∧ (∀ j, 0 <= j < i → bz cs' j = bz cs j).
Proof.
  revert cs i. induction n as [|n IH]; intros cs i Hi Hn; cbn [init_loop].
  { exists cs. split; [done|]. split; [done|]. split; [lia|done]. }
  do 4 cell_step. set (cs1 := setz _ i (with_busy _ _)).
  assert (Hl1 : zlen cs1 = zlen cs) by (unfold cs1; by autorewrite with pix_len).
  assert (Hb1 : ∀ j, 0 <= j → bz cs1 j = if decide (i = j) then 0 else bz cs j).
  { intros j Hj. unfold cs1. by cell_read. }
  clearbody cs1. destruct (IH cs1 (i + 1)) as (cs' & E & Hl & Hb & Hb'); [lia|lia|]. exists cs'.
  split; [done|]. split; [congruence|]. split; intros j Hj.
  - destruct (decide (j = i)) as [->|]; [|apply Hb; lia]. rewrite Hb', Hb1 by lia. by dec_simpl.
  - rewrite Hb', Hb1 by lia. by rewrite decide_False by lia.
Qed.

(** Either all of the two blocks with an empty chain, or none. *)
Lemma allocate_empty ok index_range old cells0 h :
  heap_wf h → 0 < index_range <= 2 ^ 30 → zlen cells0 = index_range + DCHAIN_RESERVED →
  (∃ b chain h', dchain_allocate ok index_range old cells0 h = Ok ((1, b, Some chain), h') ∧
     chainp (mk_state (empty_dchain_fp index_range 0) 0) chain ∧ heap_wf h' ∧
     ∃ bs, length bs = 2%nat ∧ live h' = bs ++ live h) ∨
  (∃ n, dchain_allocate ok index_range old cells0 h = Ok ((0, old, None), mk_heap n (live h)) ∧
     ∃ r, ok r = false).
Proof.
  intros Hwf Hr Hlen.
  set (k := λ (bs : list nat) (h : heap),
    cs ← init_loop (Z.to_nat index_range) cells0 0;
    cs ← upd cs index_range (with_timestamp (-1));
    cs ← upd cs index_range (with_prev (-1));
    cs ← upd cs index_range (with_next (-1));
    cs ← upd cs index_range (with_busy 1);
    Ok ((1, nth 1 bs 0%nat, Some (mk_chain cs 0 index_range)), h)).
  assert (dchain_allocate ok index_range old cells0 h = malloc_all ok 2 [] (0, old, None) k h) as ->
    by reflexivity.
  destruct (malloc_all_top ok 2 (0, old, None) k h Hwf) as [(bs & h' & -> & Hl & Hlive & Hwf')|?];
    [left|by right].
  destruct (alt_init_loop_ok (Z.to_nat index_range) cells0 0) as (cs & E & Hlc & Hb & _);
    [lia|rewrite Hlen; unfold DCHAIN_RESERVED; lia|].
  unfold k. rewrite E. cbn [mbind res_bind]. do 4 cell_step. do 3 eexists. split; [done|].
  split; [|split; [done|by exists bs]].
  split; cbn [chain_of start_of cells free_index capacity empty_dchain_fp dchain_index_range_fp];
    [|done|done|lia].
  split; cbn [empty_dchain_fp dchain_index_range_fp dchain_indexes_fp dchain_alist_fp fmap list_fmap].
  - lia.
  - autorewrite with pix_len. congruence.
  - constructor.
  - by intros i ?%elem_of_nil.
  - unfold ring. split; cell_read; by dec_simpl.
  - intros i Hi. cell_read. rewrite decide_False by lia. rewrite Hb by lia. done.
  - cell_read. by dec_simpl.
  - by intros i t ?%elem_of_nil.
Qed.

(** ** Runs *)
Definition exec_call chain (a : call) : res (Z * option Z * DoubleChain) :=
  match a with
  | AllocateNewIndex time =>
      '(ret, chain, index) ← dchain_allocate_new_index chain 0 time;
      Ok (ret, if ret =? 0 then None else Some index, chain)
  | RejuvenateIndex index time =>
      '(ret, chain) ← dchain_rejuvenate_index chain index time; Ok (ret, None, chain)
  | ExpireOneIndex time =>
      '(ret, chain, index) ← dchain_expire_one_index chain 0 time;
      Ok (ret, if ret =? 0 then None else Some index, chain)
  end.

Fixpoint exec_calls chain (l : list call) : res (list (Z * option Z) * DoubleChain) :=
  match l with
  | [] => Ok ([], chain)
  | a :: l =>
      '(ret, out, chain) ← exec_call chain a;
      '(answers, chain) ← exec_calls chain l;
      Ok ((ret, out) :: answers, chain)
  end.

Fixpoint spec_calls (s : state) (l : list call) : option (list (Z * option Z) * state) :=
  match l with
  | [] => Some ([], s)
  | a :: l =>
      '(ret, out, s) ← spec_call s a;
      '(answers, s) ← spec_calls s l;
      Some ((ret, out) :: answers, s)
  end.

Definition calls_in (range : Z) (l : list call) : Prop :=
  Forall (λ a, match a with RejuvenateIndex i _ => 0 <= i < range | _ => True end) l.

Lemma spec_call_range s a ret out s' :
  spec_call s a = Some (ret, out, s') →
  dchain_index_range_fp (chain_of s') = dchain_index_range_fp (chain_of s).
Proof.
  destruct a; cbn [spec_call]; repeat case_match; intros [= <- <- <-] || intros [=]; done.
Qed.

Lemma alt_call_spec s chain a :
  chainp s chain →
  match a with RejuvenateIndex i _ => 0 <= i < dchain_index_range_fp (chain_of s) | _ => True end →
  match spec_call s a with
  | Some (ret, out, s') => ∃ chain', exec_call chain a = Ok (ret, out, chain') ∧ chainp s' chain'
  | None => exec_call chain a = Err OutOfBounds
  end.
Proof.
  intros Hp Ha. destruct a as [time|i time|time]; cbn [exec_call].
  - pose proof (allocate_spec Hp 0 time) as H.
    destruct (spec_call s (AllocateNewIndex time)) as [[[r [i|]] s']|]; [| |by rewrite H].
    + destruct H as (chain' & -> & Hr & Hp'). exists chain'. cbn [mbind res_bind].
      rewrite (proj2 (Z.eqb_neq r 0)) by done. done.
    + destruct H as (-> & -> & ->). by exists chain.
  - pose proof (rejuvenate_spec Hp i time Ha) as H. cbn [spec_call] in *.
    destruct (dchain_allocated_fp _ i); destruct H as (chain' & -> & Hp'); by exists chain'.
  - pose proof (expire_spec Hp 0 time) as H.
    destruct (spec_call s (ExpireOneIndex time)) as [[[r [i|]] s']|]; [| |done].
    + destruct H as (chain' & -> & Hr & Hp'). exists chain'. cbn [mbind res_bind].
      rewrite (proj2 (Z.eqb_neq r 0)) by done. done.
    + destruct H as (-> & -> & ->). by exists chain.
Qed.

Lemma exec_calls_spec s chain l :
  chainp s chain → calls_in (dchain_index_range_fp (chain_of s)) l →
  match spec_calls s l with
  | Some (answers, s') => ∃ chain', exec_calls chain l = Ok (answers, chain') ∧ chainp s' chain'
  | None => exec_calls chain l = Err OutOfBounds
  end.
Proof.
  revert s chain. induction l as [|a l IH]; intros s chain Hp Hl; cbn [spec_calls exec_calls].
  { by exists chain. }
  apply Forall_cons in Hl as [Ha Hl]. pose proof (alt_call_spec s chain a Hp Ha) as H.
  destruct (spec_call s a) as [[[ret out] s1]|] eqn:Es; cbn [mbind option_bind]; [|by rewrite H].
  destruct H as (chain1 & -> & Hp1). cbn [mbind res_bind].
  apply spec_call_range in Es. rewrite <- Es in Hl. pose proof (IH s1 chain1 Hp1 Hl) as H.
  destruct (spec_calls s1 l) as [[answers s2]|]; cbn [mbind option_bind]; [|by rewrite H].
  destruct H as (chain2 & -> & Hp2). by exists chain2.
Qed.

(** C37: A chain from [dchain_allocate], and any sequence of calls with indexes in
    range (at any times): the linked list of the alternative allocator gives exactly
    the answers of the abstract allocator of this file. An index that is handed out is
    the first free one from the position of the scan to the end of the array; the
    oldest index expires once its time is not after the given time; and the code reads
    past the end of its array exactly when the scan starts at 2 or above and every
    index from there to the end is in use. *)
Theorem alt_dchain_run_refines ok index_range old cells0 h b chain h' l :
  heap_wf h → 0 < index_range <= 2 ^ 30 → zlen cells0 = index_range + DCHAIN_RESERVED →
  dchain_allocate ok index_range old cells0 h = Ok ((1, b, Some chain), h') →
  calls_in index_range l →
  match spec_calls (mk_state (empty_dchain_fp index_range 0) 0) l with
  | Some (answers, _) => ∃ chain', exec_calls chain l = Ok (answers, chain')
  | None => exec_calls chain l = Err OutOfBounds
  end.
Proof.
  intros Hwf Hr Hl E Hin.
  destruct (allocate_empty ok index_range old cells0 h Hwf Hr Hl)
    as [(b1 & chain1 & h1 & E1 & Hp & _)|(n & E1 & _)]; [|congruence].
  assert (chain = chain1) as -> by congruence.
  pose proof (exec_calls_spec _ chain1 l Hp Hin) as H.
  destruct (spec_calls _ l) as [[answers s']|]; [|done].
  destruct H as (chain' & ? & _). by exists chain'.
Qed.

(** The index 0 is free at the end, but the scan starts at 2. *)
Definition run_off_the_end : list call :=
  [AllocateNewIndex 1; AllocateNewIndex 2; AllocateNewIndex 3; ExpireOneIndex 1; AllocateNewIndex 4;
   ExpireOneIndex 2; AllocateNewIndex 5; RejuvenateIndex 2 6; ExpireOneIndex 4; AllocateNewIndex 7].
Definition a_run : list call :=
  [AllocateNewIndex 1; AllocateNewIndex 2; RejuvenateIndex 0 3; ExpireOneIndex 2; AllocateNewIndex 4;
   AllocateNewIndex 5; ExpireOneIndex 2].

Definition three_cells : list dchain_cell := replicate 4 (mk_cell 7 7 7 7).
Definition three_chain : DoubleChain :=
  mk_chain (replicate 3 (mk_cell (-1) (-1) (-1) 0) ++ [mk_cell (-1) (-1) (-1) 1]) 0 3.

Lemma alt_dchain_run_refines_witness :
  (∃ chain', exec_calls three_chain a_run =
     Ok ([(1, Some 0); (1, Some 1); (1, None); (1, Some 1); (1, Some 2); (1, Some 1); (0, None)],
       chain')) ∧
  exec_calls three_chain run_off_the_end = Err OutOfBounds.
Proof.
  assert (E : dchain_allocate (λ _, true) 3 9 three_cells (mk_heap 0 []) =
    Ok ((1, 0%nat, Some three_chain), mk_heap 2 [1; 0]%nat)) by reflexivity.
  assert (H : ∀ l, calls_in 3 l →
    match spec_calls (mk_state (empty_dchain_fp 3 0) 0) l with
    | Some (answers, _) => ∃ chain', exec_calls three_chain l = Ok (answers, chain')
    | None => exec_calls three_chain l = Err OutOfBounds
    end).
  { intros l Hl. assert (Hr : 0 < 3 <= 2 ^ 30) by lia.
    assert (Hlen : zlen three_cells = 3 + DCHAIN_RESERVED) by reflexivity.
    apply (alt_dchain_run_refines _ _ _ _ _ _ _ _ l heap_wf_empty Hr Hlen E Hl). }
  split.
  - apply (H a_run). repeat constructor; lia.
  - apply (H run_off_the_end). repeat constructor; lia.
Defined.
End AltDChain.
