(* ===== verification/PredMapImpl.v ===== *)
(** * Open-addressing hash tables with chain counters

    Models [lib/containers/pred-map-impl.c], which keeps an array of
    [struct Bucket]. A bucket counts in [chain] the keys whose probe sequence
    passes over it, so that a lookup can stop early. The theory of this file is
    stated for any index function [loop] that computes the remainder modulo the
    capacity; the other two implementations of the repository, with one array
    per field, are reduced to it in [MapImpl.v]. *)

From S2P Require Import Prelude.

(** ** Data: [struct Bucket]. [P] is the type of the key pointers [void*]. *)
Record Bucket (P : Type) := mk_bucket {
  busybit : Z; key : P; hash : Z; chain : Z; value : Z }.
Arguments mk_bucket {P} _ _ _ _ _.
Arguments busybit {P} _.
Arguments key {P} _.
Arguments hash {P} _.
Arguments chain {P} _.
Arguments value {P} _.

#[global] Instance Bucket_inhabited `{Inhabited P} : Inhabited (Bucket P) :=
  populate (mk_bucket 0 inhabitant 0 0 0).

(** The index function of [pred-map-impl.c] and [map-impl.c] ("fast modulo"). *)
Definition loop (k capacity : Z) : Z :=
  let g := Z.land k (capacity - 1) in
  Z.land (g + capacity) (capacity - 1).

(** ** Operations *)
Section ops.
Context {P : Type}.
(** The [loop] function of the file. *)
Variable loop : Z → Z → Z.
Implicit Types (buckets : list (Bucket P)) (keyp : P).

Definition set_busybit buckets i v : res (list (Bucket P)) :=
  b ← rd buckets i; wr buckets i (mk_bucket v (key b) (hash b) (chain b) (value b)).
Definition set_chain buckets i v : res (list (Bucket P)) :=
  b ← rd buckets i; wr buckets i (mk_bucket (busybit b) (key b) (hash b) v (value b)).

(** [n] is the number of remaining iterations, [capacity - i]. *)
Fixpoint find_key_loop (n : nat) buckets keyp (eq : P → P → bool)
    (key_hash capacity start i : Z) : res Z :=
  match n with
  | O => Ok (-1)
  | S n' =>
      let index := loop (start + i) capacity in
      b ← rd buckets index;
      if negb (busybit b =? 0) && (hash b =? key_hash) then
        if eq (key b) keyp then Ok index
        else find_key_loop n' buckets keyp eq key_hash capacity start (i + 1)
      else if chain b =? 0 then Ok (-1)
      else find_key_loop n' buckets keyp eq key_hash capacity start (i + 1)
  end.

Definition find_key buckets keyp eq (key_hash capacity : Z) : res Z :=
  let start := loop key_hash capacity in
  find_key_loop (Z.to_nat capacity) buckets keyp eq key_hash capacity start 0.

(** Results are (index, buckets, [*keyp_out]); [None] leaves [*keyp_out] alone. *)
Fixpoint find_key_remove_chain_loop (n : nat) buckets keyp (eq : P → P → bool)
    (key_hash capacity start i : Z) : res (Z * list (Bucket P) * option P) :=
  match n with
  | O => Ok (-1, buckets, None)
  | S n' =>
      let index := loop (start + i) capacity in
      b ← rd buckets index;
      if negb (busybit b =? 0) && (hash b =? key_hash) && eq (key b) keyp then
        buckets ← set_busybit buckets index 0;
        Ok (index, buckets, Some (key b))
      else
        buckets ← set_chain buckets index (chain b - 1);
        find_key_remove_chain_loop n' buckets keyp eq key_hash capacity start (i + 1)
  end.

Definition find_key_remove_chain buckets keyp eq (key_hash capacity : Z) :=
  let start := loop key_hash capacity in
  find_key_remove_chain_loop (Z.to_nat capacity) buckets keyp eq key_hash capacity start 0.

Fixpoint find_empty_loop (n : nat) buckets (start capacity i : Z)
    : res (Z * list (Bucket P)) :=
  match n with
  | O => Ok (-1, buckets)
  | S n' =>
      let index := loop (start + i) capacity in
      b ← rd buckets index;
      if 0 =? busybit b then Ok (index, buckets)
      else
        buckets ← set_chain buckets index (chain b + 1);
        find_empty_loop n' buckets start capacity (i + 1)
  end.

Definition find_empty buckets (start capacity : Z) :=
  find_empty_loop (Z.to_nat capacity) buckets start capacity 0.

Fixpoint map_impl_init_loop (n : nat) buckets (i : Z) : res (list (Bucket P)) :=
  match n with
  | O => Ok buckets
  | S n' =>
      buckets ← set_busybit buckets i 0;
      buckets ← set_chain buckets i 0;
      map_impl_init_loop n' buckets (i + 1)
  end.

Definition map_impl_init buckets (capacity : Z) : res (list (Bucket P)) :=
  map_impl_init_loop (Z.to_nat capacity) buckets 0.

(** [Some v]: returns 1 with [*value = v]; [None]: returns 0. *)
Definition map_impl_get buckets keyp eq (hash capacity : Z) : res (option Z) :=
  index ← find_key buckets keyp eq hash capacity;
  if -1 =? index then Ok None
  else b ← rd buckets index; Ok (Some (value b)).

Definition map_impl_put buckets keyp (hash value capacity : Z) : res (list (Bucket P)) :=
  let start := loop hash capacity in
  '(index, buckets) ← find_empty buckets start capacity;
  b ← rd buckets index;
  wr buckets index (mk_bucket 1 keyp hash (chain b) value).

Definition map_impl_erase buckets keyp eq (hash capacity : Z)
    : res (list (Bucket P) * option P) :=
  '(_, buckets, keyp_out) ← find_key_remove_chain buckets keyp eq hash capacity;
  Ok (buckets, keyp_out).

Fixpoint map_impl_size_loop (n : nat) buckets (i s : Z) : res Z :=
  match n with
  | O => Ok s
  | S n' =>
      b ← rd buckets i;
      map_impl_size_loop n' buckets (i + 1) (if negb (busybit b =? 0) then s + 1 else s)
  end.

Definition map_impl_size buckets (capacity : Z) : res Z :=
  map_impl_size_loop (Z.to_nat capacity) buckets 0 0.
End ops.

(** ** Representation of a finite map *)
Section theory.
Context {P : Type} `{Inhabited P} {K : Type} `{Countable K}.
Variables (loop : Z → Z → Z) (cap : Z).
Hypothesis Hcap : 0 < cap.
Hypothesis Hloop : ∀ k, loop k cap = k mod cap.
Variable hsh : K → Z.
Implicit Types (buckets : list (Bucket P)) (keyp : P) (d : P → K)
  (m : gmap K (P * Z)) (i j : Z).

Definition busy buckets j : bool := negb (busybit (getz buckets j) =? 0).

(** The probe sequence of the key in bucket [j] passes over bucket [i]. *)
Definition crosses buckets i j : bool :=
  busy buckets j &&
  (dist cap (hash (getz buckets j)) i <? dist cap (hash (getz buckets j)) j).

(** [d] reads the key a pointer points to. *)
Record table d buckets m : Prop := {
  tb_len : zlen buckets = cap;
  tb_hash : ∀ j, 0 <= j < cap → busy buckets j = true →
    hash (getz buckets j) = hsh (d (key (getz buckets j)));
  tb_chain : ∀ i, 0 <= i < cap → chain (getz buckets i) = zcount (crosses buckets i) cap;
  tb_elem : ∀ k p v, m !! k = Some (p, v) ↔
    ∃ j, 0 <= j < cap ∧ busy buckets j = true ∧ key (getz buckets j) = p ∧
      d p = k ∧ value (getz buckets j) = v;
  tb_inj : ∀ i j, 0 <= i < cap → 0 <= j < cap → busy buckets i = true →
    busy buckets j = true → d (key (getz buckets i)) = d (key (getz buckets j)) → i = j;
  tb_size : Z.of_nat (size m) = zcount (busy buckets) cap
}.

Lemma probe_index h i : loop (loop h cap + i) cap = (h mod cap + i) mod cap.
Proof. by rewrite !Hloop. Qed.

Lemma probe_bound x : 0 <= x mod cap < cap.
Proof. apply Z.mod_pos_bound. lia. Qed.

Section lookup.
Context {d : P → K} {buckets : list (Bucket P)} {m : gmap K (P * Z)}.
Hypothesis Ht : table d buckets m.
Variable eq : P → P → bool.
Hypothesis Heq : ∀ p q, eq p q = true ↔ d p = d q.

Lemma find_key_loop_present keyp j n i :
  0 <= j < cap → busy buckets j = true → d (key (getz buckets j)) = d keyp →
  Z.of_nat n = cap - i → 0 <= i <= dist cap (hsh (d keyp)) j →
  find_key_loop loop n buckets keyp eq (hsh (d keyp)) cap (loop (hsh (d keyp)) cap) i = Ok j.
Proof.
  intros Hj Hb Hk. revert i. pose proof (tb_len _ _ _ Ht) as Hlen.
  pose proof (tb_hash _ _ _ Ht j Hj Hb) as Hh. rewrite Hk in Hh.
  induction n as [|n IH]; intros i Hn Hi.
  { pose proof (dist_bound cap Hcap (hsh (d keyp)) j). lia. }
  cbn [find_key_loop]. rewrite probe_index.
  set (x := (hsh (d keyp) mod cap + i) mod cap).
  pose proof (probe_bound (hsh (d keyp) mod cap + i)) as Hx. fold x in Hx.
  rewrite (rd_ok buckets x) by lia. simpl. fold (busy buckets x).
  pose proof (dist_bound cap Hcap (hsh (d keyp)) j) as Hd.
  assert (Hdx : dist cap (hsh (d keyp)) x = i) by (apply (dist_step cap Hcap); lia).
  destruct (decide (i = dist cap (hsh (d keyp)) j)) as [Hi'|Hi'].
  - assert (x = j) as -> by (apply (dist_inj cap (hsh (d keyp))); [done..|lia]).
    rewrite Hb, Hh, Z.eqb_refl. simpl. by rewrite (proj2 (Heq _ _) Hk).
  - destruct (busy buckets x && _) eqn:E.
    + apply andb_true_iff in E as [Ebx _].
      destruct (eq (key (getz buckets x)) keyp) eqn:Ek.
      * apply Heq in Ek. assert (x = j) as -> by
          (apply (tb_inj _ _ _ Ht); [done..|congruence]). lia.
      * apply IH; lia.
    + assert (chain (getz buckets x) ≠ 0) as Hc.
      { rewrite (tb_chain _ _ _ Ht) by done.
        assert (0 < zcount (crosses buckets x) cap); [|lia].
        apply (zcount_pos _ _ j Hj). unfold crosses. rewrite Hb, Hh. simpl.
        apply Z.ltb_lt. lia. }
      rewrite (proj2 (Z.eqb_neq _ _) Hc). apply IH; lia.
Qed.

Lemma find_key_loop_absent keyp key_hash start n i :
  (∀ j, 0 <= j < cap → busy buckets j = true → d (key (getz buckets j)) ≠ d keyp) →
  find_key_loop loop n buckets keyp eq key_hash cap start i = Ok (-1).
Proof.
  intros Hno. revert i. pose proof (tb_len _ _ _ Ht) as Hlen.
  induction n as [|n IH]; intros i; cbn [find_key_loop]; [done|].
  rewrite Hloop. pose proof (probe_bound (start + i)) as Hx.
  set (x := (start + i) mod cap) in *.
  rewrite (rd_ok buckets x) by lia. simpl. fold (busy buckets x).
  destruct (busy buckets x && _) eqn:E; [|by destruct (_ =? 0)].
  apply andb_true_iff in E as [Ebx _].
  destruct (eq (key (getz buckets x)) keyp) eqn:Ek; [|done].
  apply Heq in Ek. by destruct (Hno x).
Qed.

Lemma find_key_spec keyp :
  find_key loop buckets keyp eq (hsh (d keyp)) cap = Ok (-1) ∧ m !! d keyp = None ∨
  ∃ j, find_key loop buckets keyp eq (hsh (d keyp)) cap = Ok j ∧ 0 <= j < cap ∧
    busy buckets j = true ∧ d (key (getz buckets j)) = d keyp ∧
    m !! d keyp = Some (key (getz buckets j), value (getz buckets j)).
Proof.
  destruct (m !! d keyp) as [[p v]|] eqn:Hm.
  - right. destruct (proj1 (tb_elem _ _ _ Ht _ _ _) Hm) as (j & Hj & Hb & <- & Hk & <-).
    exists j. split_and!; try done; [|lia..].
    apply find_key_loop_present; try done; [lia|].
    pose proof (dist_bound cap Hcap (hsh (d keyp)) j). lia.
  - left. split; [|done]. apply find_key_loop_absent. intros j Hj Hb Hk.
    assert (m !! d keyp = Some (key (getz buckets j), value (getz buckets j))); [|congruence].
    apply (tb_elem _ _ _ Ht). by exists j.
Qed.

Lemma map_impl_get_table keyp :
  map_impl_get loop buckets keyp eq (hsh (d keyp)) cap = Ok (snd <$> m !! d keyp).
Proof.
  unfold map_impl_get. pose proof (tb_len _ _ _ Ht) as Hlen.
  destruct (find_key_spec keyp) as [[-> ->]|(j & -> & Hj & _ & _ & ->)]; [done|].
  cbn [mbind res_bind]. rewrite (proj2 (Z.eqb_neq (-1) j)) by lia.
  rewrite rd_ok by lia. done.
Qed.
End lookup.

(** *** Walking along a probe sequence

    [bumped δ h i buckets b]: [b] is [buckets] with the chain counters of the
    first [i] buckets of the probe sequence of [h] increased by [δ]. *)
Definition bumped (δ h i : Z) buckets (b : list (Bucket P)) : Prop :=
  zlen b = cap ∧ ∀ x, 0 <= x < cap →
    getz b x = mk_bucket (busybit (getz buckets x)) (key (getz buckets x))
      (hash (getz buckets x))
      (chain (getz buckets x) + (if dist cap h x <? i then δ else 0))
      (value (getz buckets x)).

Lemma bumped_0 δ h buckets : zlen buckets = cap → bumped δ h 0 buckets buckets.
Proof.
  intros Hl. split; [done|]. intros x Hx. pose proof (dist_bound cap Hcap h x).
  rewrite (proj2 (Z.ltb_ge _ _)) by lia. rewrite Z.add_0_r.
  by destruct (getz buckets x).
Qed.

(** The bucket the walk is at has not been touched yet. *)
Lemma bumped_at δ h i buckets b x :
  bumped δ h i buckets b → 0 <= x < cap → i <= dist cap h x → getz b x = getz buckets x.
Proof.
  intros [_ Hb] Hx Hi. rewrite Hb by done. rewrite (proj2 (Z.ltb_ge _ _)) by lia.
  rewrite Z.add_0_r. by destruct (getz buckets x).
Qed.

Lemma bumped_step δ h i buckets b x :
  bumped δ h i buckets b → 0 <= x < cap → dist cap h x = i →
  ∃ b', set_chain b x (chain (getz b x) + δ) = Ok b' ∧ bumped δ h (i + 1) buckets b'.
Proof.
  intros Hb Hx Hd. pose proof (bumped_at _ _ _ _ _ x Hb Hx ltac:(lia)) as Hbx.
  destruct Hb as [Hl Hb]. unfold set_chain. rewrite (rd_ok b) by lia. simpl.
  rewrite wr_ok by lia. eexists. split; [done|]. split; [by rewrite zlen_setz|].
  intros y Hy. rewrite getz_setz by lia. case_decide as Hxy.
  - subst y. rewrite Hbx, Hd, (proj2 (Z.ltb_lt _ _)) by lia. done.
  - rewrite Hb by done. do 2 f_equal.
    assert (dist cap h y ≠ i) by (intros E; apply Hxy, (dist_inj cap h); lia).
    destruct (Z.ltb_spec (dist cap h y) i), (Z.ltb_spec (dist cap h y) (i + 1)); lia.
Qed.

(** *** Insertion *)
Lemma find_empty_loop_free h n i buckets b j :
  bumped 1 h i buckets b → Z.of_nat n = cap - i → 0 <= i →
  0 <= j < cap → busy buckets j = false → i <= dist cap h j →
  ∃ x b', find_empty_loop loop n b (loop h cap) cap i = Ok (x, b') ∧
    0 <= x < cap ∧ busy buckets x = false ∧ bumped 1 h (dist cap h x) buckets b'.
Proof.
  intros Hb Hn Hi Hj Hbj Hij. pose proof (dist_bound cap Hcap h j) as Hd.
  revert i b Hb Hn Hi Hij. induction n as [|n IH]; intros i b Hb Hn Hi Hij; [lia|].
  cbn [find_empty_loop]. rewrite probe_index.
  pose proof (probe_bound (h mod cap + i)) as Hx.
  pose proof (dist_step cap Hcap h i ltac:(lia)) as Hdx.
  set (x := (h mod cap + i) mod cap) in *.
  pose proof (bumped_at _ _ _ _ _ x Hb Hx ltac:(lia)) as Hbx.
  rewrite (rd_ok b) by (rewrite (proj1 Hb); lia).
  cbn [mbind res_bind]. rewrite Z.eqb_sym.
  destruct (busybit (getz b x) =? 0) eqn:E.
  - exists x, b. rewrite Hdx. unfold busy. rewrite <- Hbx, E. done.
  - destruct (bumped_step _ _ _ _ _ _ Hb Hx Hdx) as (b' & -> & Hb'). simpl.
    apply IH; [done|lia..|]. enough (dist cap h j ≠ i) by lia.
    intros Ej. assert (x = j) as Exj by (apply (dist_inj cap h); lia).
    unfold busy in Hbj. rewrite <- Exj, <- Hbx, E in Hbj. done.
Qed.

Lemma find_empty_loop_full n i buckets start :
  zlen buckets = cap → (∀ j, 0 <= j < cap → busy buckets j = true) →
  ∃ b', find_empty_loop loop n buckets start cap i = Ok (-1, b') ∧ zlen b' = cap.
Proof.
  revert i buckets. induction n as [|n IH]; intros i b Hl Hf;
    cbn [find_empty_loop]; [by exists b|].
  rewrite Hloop. pose proof (probe_bound (start + i)) as Hx.
  rewrite rd_ok by lia. cbn [mbind res_bind]. pose proof (Hf _ Hx) as Hbx.
  unfold busy in Hbx. rewrite Z.eqb_sym.
  destruct (busybit (getz b ((start + i) mod cap)) =? 0) eqn:E; [done|].
  unfold set_chain. rewrite rd_ok by lia. simpl. rewrite wr_ok by lia. simpl.
  apply IH; [by rewrite zlen_setz|]. intros j Hj. unfold busy.
  rewrite getz_setz by lia. case_decide; simpl; [by rewrite E|]. by apply Hf.
Qed.

(** Filling bucket [x] of the table after the walk [bumped 1]. *)
Lemma bt_insert d buckets m b x keyp v :
  table d buckets m → m !! d keyp = None → 0 <= x < cap → busy buckets x = false →
  bumped 1 (hsh (d keyp)) (dist cap (hsh (d keyp)) x) buckets b →
  table d (setz b x (mk_bucket 1 keyp (hsh (d keyp)) (chain (getz b x)) v))
    (<[d keyp := (keyp, v)]> m).
Proof.
  intros Ht Hm Hx Hbx [Hl Hb]. set (h := hsh (d keyp)) in *.
  set (b' := setz b x _).
  assert (Hnew : getz b' x = mk_bucket 1 keyp h (chain (getz b x)) v).
  { apply getz_setz_eq. lia. }
  assert (Hold : ∀ y, 0 <= y < cap → y ≠ x → getz b' y = getz b y).
  { intros y Hy Hne. apply getz_setz_ne; lia. }
  assert (Hbusy : ∀ y, 0 <= y < cap → y ≠ x → busy b' y = busy buckets y).
  { intros y Hy Hne. unfold busy. by rewrite Hold, Hb. }
  assert (Hbx' : busy b' x = true) by (unfold busy; by rewrite Hnew).
  assert (Hfresh : ∀ y, 0 <= y < cap → busy buckets y = true → d (key (getz buckets y)) ≠ d keyp).
  { intros y Hy Hby E.
    assert (m !! d keyp = Some (key (getz buckets y), value (getz buckets y))); [|congruence].
    apply (tb_elem _ _ _ Ht). by exists y. }
  split.
  - unfold b'. by rewrite zlen_setz.
  - intros y Hy. destruct (decide (y = x)) as [->|Hne]; [by rewrite Hnew|].
    rewrite Hbusy, Hold, Hb by done. apply (tb_hash _ _ _ Ht y Hy).
  - intros i Hi.
    rewrite (zcount_update (crosses buckets i) (crosses b' i) cap x Hx).
    + rewrite <- (tb_chain _ _ _ Ht) by done. unfold crosses at 1 2.
      rewrite Hbx, Hbx', Hnew. cbn [hash andb Z.b2z].
      destruct (decide (i = x)) as [->|Hne].
      * rewrite Hnew. cbn [chain]. rewrite Hb by done. cbn [chain].
        rewrite Z.ltb_irrefl. simpl. lia.
      * rewrite Hold, Hb by done. cbn [chain].
        destruct (dist cap h i <? dist cap h x); simpl; lia.
    + intros y Hy Hne. unfold crosses. by rewrite Hbusy, Hold, Hb.
  - intros k p v'. destruct (decide (k = d keyp)) as [->|Hk].
    + rewrite lookup_insert_eq. split.
      * intros [= -> ->]. exists x. rewrite Hnew. done.
      * intros (y & Hy & Hby & Hp & Hd & Hv). destruct (decide (y = x)) as [->|Hne].
        { rewrite Hnew in Hp, Hv. simpl in *. congruence. }
        rewrite Hbusy in Hby by done. rewrite Hold, Hb in Hp by done. simpl in Hp.
        destruct (Hfresh y Hy Hby). congruence.
    + rewrite lookup_insert_ne by done. rewrite (tb_elem _ _ _ Ht).
      split; intros (y & Hy & Hby & Hp & Hd & Hv); exists y.
      * assert (y ≠ x) by congruence. rewrite Hbusy, Hold, Hb by done. done.
      * destruct (decide (y = x)) as [->|Hne].
        { rewrite Hnew in Hp. simpl in Hp. congruence. }
        rewrite Hbusy in Hby by done. rewrite Hold, Hb in Hp, Hv by done. done.
  - intros y z Hy Hz. destruct (decide (y = x)) as [->|Hyx], (decide (z = x)) as [->|Hzx].
    + done.
    + rewrite Hnew, (Hbusy z), (Hold z), (Hb z) by done. simpl. intros _ Hbz E.
      destruct (Hfresh z Hz Hbz). by symmetry.
    + rewrite Hnew, (Hbusy y), (Hold y), (Hb y) by done. simpl. intros Hby _ E.
      destruct (Hfresh y Hy Hby). done.
    + rewrite !Hbusy, !Hold, !Hb by done. simpl. apply (tb_inj _ _ _ Ht); done.
  - rewrite map_size_insert_None by done.
    rewrite (zcount_update (busy buckets) (busy b') cap x Hx) by auto.
    rewrite Hbx, Hbx', <- (tb_size _ _ _ Ht). simpl. lia.
Qed.

Lemma table_free_slot d buckets m :
  table d buckets m → Z.of_nat (size m) < cap →
  ∃ j, 0 <= j < cap ∧ busy buckets j = false.
Proof. intros Ht Hs. apply zcount_lt; [lia|]. rewrite <- (tb_size _ _ _ Ht). done. Qed.

Lemma map_impl_put_table d buckets m keyp v :
  table d buckets m → m !! d keyp = None → Z.of_nat (size m) < cap →
  ∃ b', map_impl_put loop buckets keyp (hsh (d keyp)) v cap = Ok b' ∧
    table d b' (<[d keyp := (keyp, v)]> m).
Proof.
  intros Ht Hm Hs. destruct (table_free_slot _ _ _ Ht Hs) as (j & Hj & Hbj).
  unfold map_impl_put, find_empty.
  destruct (find_empty_loop_free (hsh (d keyp)) (Z.to_nat cap) 0 buckets buckets j)
    as (x & b & -> & Hx & Hbx & Hb); [by apply bumped_0, (tb_len _ _ _ Ht)|lia..|done| |].
  { apply (dist_bound cap Hcap). }
  simpl. rewrite rd_ok by (rewrite (proj1 Hb); lia). simpl.
  rewrite wr_ok by (rewrite (proj1 Hb); lia). eexists. split; [done|].
  by apply (bt_insert d buckets m).
Qed.

(** With all buckets in use [find_empty] returns -1, which is then used as an index. *)
Lemma map_impl_put_full d buckets m keyp h v :
  table d buckets m → Z.of_nat (size m) = cap →
  map_impl_put loop buckets keyp h v cap = Err OutOfBounds.
Proof.
  intros Ht Hs. unfold map_impl_put, find_empty.
  destruct (find_empty_loop_full (Z.to_nat cap) 0 buckets (loop h cap)) as (b & -> & Hl).
  - apply (tb_len _ _ _ Ht).
  - apply zcount_full. rewrite <- (tb_size _ _ _ Ht). lia.
  - done.
Qed.

(** *** Removal *)
(** Emptying bucket [x] of the table after the walk [bumped (-1)]. *)
Lemma table_delete d buckets m b x :
  table d buckets m → 0 <= x < cap → busy buckets x = true →
  bumped (-1) (hash (getz buckets x)) (dist cap (hash (getz buckets x)) x) buckets b →
  table d (setz b x (mk_bucket 0 (key (getz b x)) (hash (getz b x)) (chain (getz b x))
                       (value (getz b x))))
    (delete (d (key (getz buckets x))) m).
Proof.
  intros Ht Hx Hbx [Hl Hb]. set (h := hash (getz buckets x)) in *.
  set (b' := setz b x _).
  assert (Hnew : busy b' x = false).
  { unfold busy, b'. by rewrite getz_setz_eq by lia. }
  assert (Hkey : ∀ y, 0 <= y < cap → key (getz b' y) = key (getz buckets y) ∧
    hash (getz b' y) = hash (getz buckets y) ∧ chain (getz b' y) = chain (getz b y) ∧
    value (getz b' y) = value (getz buckets y)).
  { intros y Hy. unfold b'. rewrite getz_setz by lia.
    case_decide; subst; simpl; by rewrite Hb. }
  assert (Hbusy : ∀ y, 0 <= y < cap → y ≠ x → busy b' y = busy buckets y).
  { intros y Hy Hne. unfold busy, b'. by rewrite getz_setz_ne, Hb by lia. }
  split.
  - unfold b'. by rewrite zlen_setz.
  - intros y Hy. destruct (decide (y = x)) as [->|Hne]; [by rewrite Hnew|].
    rewrite Hbusy by done. destruct (Hkey y Hy) as (-> & -> & _).
    apply (tb_hash _ _ _ Ht y Hy).
  - intros i Hi.
    rewrite (zcount_update (crosses buckets i) (crosses b' i) cap x Hx).
    + rewrite <- (tb_chain _ _ _ Ht) by done. unfold crosses.
      rewrite Hnew, Hbx. destruct (Hkey i Hi) as (_ & _ & -> & _).
      rewrite Hb by done. cbn [chain andb]. fold h.
      destruct (dist cap h i <? dist cap h x); simpl; lia.
    + intros y Hy Hne. unfold crosses. destruct (Hkey y Hy) as (_ & -> & _).
      by rewrite Hbusy.
  - intros k p v. rewrite lookup_delete_Some, (tb_elem _ _ _ Ht).
    split.
    + intros (Hk & y & Hy & Hby & Hp & Hd & Hv). exists y.
      assert (y ≠ x) by congruence. rewrite Hbusy by done.
      destruct (Hkey y Hy) as (-> & _ & _ & ->). done.
    + intros (y & Hy & Hby & Hp & Hd & Hv).
      destruct (decide (y = x)) as [->|Hne]; [congruence|]. rewrite Hbusy in Hby by done.
      destruct (Hkey y Hy) as (E1 & _ & _ & E2). rewrite E1 in Hp. rewrite E2 in Hv.
      split; [|by exists y]. intros E. apply Hne.
      apply (tb_inj _ _ _ Ht); [done..|]. congruence.
  - intros y z Hy Hz Hby Hbz.
    assert (y ≠ x) by congruence. assert (z ≠ x) by congruence.
    rewrite Hbusy in Hby by done. rewrite Hbusy in Hbz by done.
    destruct (Hkey y Hy) as (-> & _), (Hkey z Hz) as (-> & _).
    by apply (tb_inj _ _ _ Ht).
  - assert (is_Some (m !! d (key (getz buckets x)))) as Hs.
    { eexists (_, _). apply (tb_elem _ _ _ Ht). by exists x. }
    rewrite map_size_delete_Some by done.
    rewrite (zcount_update (busy buckets) (busy b') cap x Hx) by auto.
    rewrite Hnew, Hbx, <- (tb_size _ _ _ Ht). simpl.
    assert (size m ≠ 0%nat); [|lia].
    intros E%map_size_empty_inv. rewrite E, lookup_empty in Hs. by destruct Hs.
Qed.

Section erase.
Context {d : P → K} {buckets : list (Bucket P)} {m : gmap K (P * Z)}.
Hypothesis Ht : table d buckets m.
Variable eq : P → P → bool.
Hypothesis Heq : ∀ p q, eq p q = true ↔ d p = d q.

Lemma find_key_remove_chain_loop_present keyp j n i b :
  0 <= j < cap → busy buckets j = true → d (key (getz buckets j)) = d keyp →
  bumped (-1) (hsh (d keyp)) i buckets b →
  Z.of_nat n = cap - i → 0 <= i <= dist cap (hsh (d keyp)) j →
  ∃ b', bumped (-1) (hsh (d keyp)) (dist cap (hsh (d keyp)) j) buckets b' ∧
    find_key_remove_chain_loop loop n b keyp eq (hsh (d keyp)) cap
      (loop (hsh (d keyp)) cap) i =
    Ok (j, setz b' j (mk_bucket 0 (key (getz b' j)) (hash (getz b' j)) (chain (getz b' j))
                        (value (getz b' j))), Some (key (getz buckets j))).
Proof.
  intros Hj Hb Hk. pose proof (tb_hash _ _ _ Ht j Hj Hb) as Hh. rewrite Hk in Hh.
  pose proof (dist_bound cap Hcap (hsh (d keyp)) j) as Hd.
  revert i b. induction n as [|n IH]; intros i b Hbm Hn Hi; [lia|].
  cbn [find_key_remove_chain_loop]. rewrite probe_index.
  pose proof (probe_bound (hsh (d keyp) mod cap + i)) as Hx.
  pose proof (dist_step cap Hcap (hsh (d keyp)) i ltac:(lia)) as Hdx.
  set (x := (hsh (d keyp) mod cap + i) mod cap) in *.
  pose proof (bumped_at _ _ _ _ _ x Hbm Hx ltac:(lia)) as Hbx.
  pose proof (proj1 Hbm) as Hlen. rewrite (rd_ok b x) by lia.
  cbn [mbind res_bind]. rewrite Hbx. fold (busy buckets x).
  destruct (decide (i = dist cap (hsh (d keyp)) j)) as [Hi'|Hi'].
  - assert (x = j) as Exj by (apply (dist_inj cap (hsh (d keyp))); [done..|lia]).
    exists b. rewrite Exj in *. rewrite Hb, Hh, Z.eqb_refl, (proj2 (Heq _ _) Hk).
    cbn [andb]. unfold set_busybit. rewrite (rd_ok b) by lia. cbn [mbind res_bind].
    rewrite wr_ok by lia. by rewrite <- Hi'.
  - destruct (busy buckets x && _ && _) eqn:E.
    + apply andb_true_iff in E as [[Eb _]%andb_true_iff Ek].
      apply Heq in Ek. assert (x = j) by (apply (tb_inj _ _ _ Ht); [done..|congruence]).
      congruence.
    + destruct (bumped_step _ _ _ _ _ _ Hbm Hx Hdx) as (b' & Hs & Hb').
      rewrite Hbx in Hs. change (chain _ - 1) with (chain (getz buckets x) + -1).
      rewrite Hs. simpl. apply IH; [done|lia..].
Qed.

(** Erasing a stored key hands back the pointer that was stored with it. *)
Lemma map_impl_erase_table keyp p v :
  m !! d keyp = Some (p, v) →
  ∃ b', map_impl_erase loop buckets keyp eq (hsh (d keyp)) cap = Ok (b', Some p) ∧
    table d b' (delete (d keyp) m).
Proof.
  intros Hm. destruct (proj1 (tb_elem _ _ _ Ht _ _ _) Hm) as (j & Hj & Hb & Hp & Hk & Hv).
  rewrite <- Hp in Hk. pose proof (tb_hash _ _ _ Ht j Hj Hb) as Hh. rewrite Hk in Hh.
  unfold map_impl_erase, find_key_remove_chain.
  destruct (find_key_remove_chain_loop_present keyp j (Z.to_nat cap) 0 buckets)
    as (b & Hbm & ->); try done.
  - by apply bumped_0, (tb_len _ _ _ Ht).
  - lia.
  - pose proof (dist_bound cap Hcap (hsh (d keyp)) j). lia.
  - simpl. eexists. rewrite Hp. split; [done|]. rewrite <- Hk.
    apply table_delete; [done..|]. by rewrite Hh.
Qed.
End erase.

(** *** Initialisation, size and framing *)
Lemma map_impl_init_loop_spec n i (b : list (Bucket P)) :
  Z.of_nat n = cap - i → 0 <= i → zlen b = cap →
  ∃ b', map_impl_init_loop n b i = Ok b' ∧ zlen b' = cap ∧
    ∀ x, 0 <= x < cap → getz b' x =
      if i <=? x then mk_bucket 0 (key (getz b x)) (hash (getz b x)) 0 (value (getz b x))
      else getz b x.
Proof.
  revert i b. induction n as [|n IH]; intros i b Hn Hi Hl; cbn [map_impl_init_loop].
  { exists b. split; [done|]. split; [done|]. intros x Hx.
    by rewrite (proj2 (Z.leb_gt _ _)) by lia. }
  unfold set_busybit, set_chain. crun. rewrite !getz_setz_eq by lia. simpl.
  destruct (IH (i + 1) (setz (setz b i (mk_bucket 0 (key (getz b i)) (hash (getz b i))
    (chain (getz b i)) (value (getz b i)))) i (mk_bucket 0 (key (getz b i))
    (hash (getz b i)) 0 (value (getz b i))))) as (b' & -> & Hl' & Hb'); [lia|lia|bounds|].
  exists b'. split; [done|]. split; [done|]. intros x Hx. rewrite Hb' by done.
  destruct (decide (i = x)) as [->|Hne].
  - rewrite (proj2 (Z.leb_gt _ _)), Z.leb_refl by lia. by rewrite getz_setz_eq by bounds.
  - rewrite !getz_setz_ne by bounds.
    destruct (Z.leb_spec (i + 1) x), (Z.leb_spec i x); lia || done.
Qed.

Lemma table_empty d b :
  zlen b = cap → (∀ x, 0 <= x < cap → busy b x = false ∧ chain (getz b x) = 0) → table d b ∅.
Proof.
  intros Hl Hf. split; [done|..].
  - intros j Hj Hbj. destruct (Hf j Hj). congruence.
  - intros i Hi. rewrite zcount_false; [by apply Hf|]. intros j Hj. unfold crosses.
    by destruct (Hf j Hj) as [-> _].
  - intros k p v. rewrite lookup_empty. split; [done|].
    intros (j & Hj & Hbj & _). destruct (Hf j Hj). congruence.
  - intros i j Hi Hj Hbi. destruct (Hf i Hi). congruence.
  - rewrite map_size_empty, zcount_false; [done|]. intros j Hj. by apply Hf.
Qed.

Lemma map_impl_init_table d b :
  zlen b = cap → ∃ b', map_impl_init b cap = Ok b' ∧ table d b' ∅.
Proof.
  intros Hl. destruct (map_impl_init_loop_spec (Z.to_nat cap) 0 b) as (b' & E & Hl' & Hb');
    [lia|lia|done|].
  exists b'. split; [done|]. apply table_empty; [done|].
  intros x Hx. unfold busy. rewrite Hb', (proj2 (Z.leb_le _ _)) by lia. done.
Qed.

Lemma map_impl_size_loop_spec (b : list (Bucket P)) n i s :
  Z.of_nat n = cap - i → 0 <= i → zlen b = cap →
  map_impl_size_loop n b i s = Ok (s + lcount (busy b) (seqZ i (Z.of_nat n))).
Proof.
  intros Hn Hi Hl. revert i s Hn Hi.
  induction n as [|n IH]; intros i s Hn Hi; cbn [map_impl_size_loop].
  { simpl. f_equal. lia. }
  rewrite rd_ok by lia. cbn [mbind res_bind]. rewrite IH by lia. fold (busy b i).
  rewrite (seqZ_cons i (Z.of_nat (S n))) by lia. cbn [lcount foldr].
  replace (Z.pred (Z.of_nat (S n))) with (Z.of_nat n) by lia.
  replace (Z.succ i) with (i + 1) by lia. unfold lcount. destruct (busy b i); simpl; f_equal; lia.
Qed.

Lemma map_impl_size_table d b m :
  table d b m → map_impl_size b cap = Ok (Z.of_nat (size m)).
Proof.
  intros Ht. unfold map_impl_size.
  rewrite map_impl_size_loop_spec by (lia || apply (tb_len _ _ _ Ht)).
  rewrite (tb_size _ _ _ Ht), Z2Nat.id by lia. done.
Qed.

(** The table reads memory only through the stored keys. *)
Lemma table_frame d d' b m :
  (∀ k p v, m !! k = Some (p, v) → d' p = d p) → table d b m → table d' b m.
Proof.
  intros Hd Ht.
  assert (Hk : ∀ j, 0 <= j < cap → busy b j = true →
    d' (key (getz b j)) = d (key (getz b j))).
  { intros j Hj Hb. eapply Hd, (tb_elem _ _ _ Ht). by exists j. }
  split.
  - apply (tb_len _ _ _ Ht).
  - intros j Hj Hb. rewrite Hk by done. by apply (tb_hash _ _ _ Ht).
  - apply (tb_chain _ _ _ Ht).
  - intros k p v. rewrite (tb_elem _ _ _ Ht).
    split; intros (j & Hj & Hb & <- & Hdk & Hv); exists j; by rewrite Hk in *.
  - intros i j Hi Hj Hbi Hbj. rewrite !Hk by done. by apply (tb_inj _ _ _ Ht).
  - apply (tb_size _ _ _ Ht).
Qed.

Lemma bt_key d b m k p v : table d b m → m !! k = Some (p, v) → d p = k.
Proof. intros Ht (j & _ & _ & _ & Hd & _)%(tb_elem _ _ _ Ht). done. Qed.

Lemma table_size d b m : table d b m → Z.of_nat (size m) <= cap.
Proof. intros Ht. rewrite (tb_size _ _ _ Ht). apply zcount_bounds. lia. Qed.

(** The chain counters never leave the range of the stored keys. *)
Lemma table_chain_bounds d b m i :
  table d b m → 0 <= i < cap → 0 <= chain (getz b i) <= Z.of_nat (size m).
Proof.
  intros Ht Hi. rewrite (tb_chain _ _ _ Ht), (tb_size _ _ _ Ht) by done.
  split; [apply zcount_bounds; lia|]. apply zcount_mono. intros j _ Hc.
  by apply andb_true_iff in Hc as [Hc _].
Qed.
End theory.

(** ** The index function

    The two masks of [loop] compute the remainder when the capacity is a power of two. *)
Lemma loop_pow2 n k : 0 <= n → loop k (2 ^ n) = k mod 2 ^ n.
Proof.
  intros Hn. unfold loop. rewrite !Z.sub_1_r, <- Z.ones_equiv, !Z.land_ones by lia.
  rewrite Zplus_mod_idemp_l. replace (k + 2 ^ n) with (k + 1 * 2 ^ n) by ring.
  apply Z.mod_add. lia.
Qed.

(** The bit masks of [loop] ("fast modulo") compute the mathematical
    remainder, also of negative hashes, when the capacity is a power of two. *)
Theorem loop_is_mod n k : 0 <= n → loop k (2 ^ n) = k mod 2 ^ n.
Proof. apply loop_pow2. Qed.

Lemma loop_is_mod_witness : loop (-3) (2 ^ 3) = (-3) mod 2 ^ 3.
Proof. apply (loop_is_mod 3 (-3)). lia. Defined.

(** The contract of [loop] in [map-impl.c] requires only a positive capacity,
    but for one that is not a power of two the function is not the remainder and
    does not reach all buckets: with capacity 3 it never returns 1, so that a
    table of three buckets is full after two insertions. *)
Theorem loop_needs_power_of_two :
  (∀ k, loop k 3 = 0 ∨ loop k 3 = 2) ∧
  ∃ b1 b2, map_impl_put loop (replicate 3 (mk_bucket 0 0 0 0 0)) 5 5 50 3 = Ok b1 ∧
    map_impl_put loop b1 6 6 60 3 = Ok b2 ∧
    map_impl_put loop b2 7 7 70 3 = Err OutOfBounds.
Proof.
  split.
  - intros k. unfold loop. set (g := Z.land k (3 - 1)).
    assert (Hg : g = 0 ∨ g = 2).
    { unfold g. change (3 - 1) with (Z.land (Z.ones 2) 2). rewrite Z.land_assoc, Z.land_ones by lia.
      pose proof (Z.mod_pos_bound k (2 ^ 2) ltac:(lia)) as Hr. set (r := k mod 2 ^ 2) in *.
      assert (r = 0 ∨ r = 1 ∨ r = 2 ∨ r = 3) as [-> | [-> | [-> | ->]]] by lia; auto. }
    destruct Hg as [-> | ->]; vm_compute; auto.
  - do 2 eexists. vm_compute. done.
Qed.
