(* ===== verification/MapImpl.v ===== *)
(** * The hash table of [map-impl.c]

    The same algorithm as in [PredMapImpl.v], with one array per field:
    [busybits], [keyps], [k_hashes], [chns] and [values]. The file translates
    the code as it is written and shows that running it is running the code of
    [pred-map-impl.c] on the array of structs that the five arrays describe, so
    that every theorem about the latter carries over. *)

From S2P Require Import Prelude.
From S2P Require Import PredMapImpl.

Section ops.
Context {P : Type}.
(** The [loop] function of the file: masks in [map-impl.c], [%] in
    [rehashing-map-impl.c]. *)
Variable loop : Z → Z → Z.
Implicit Types (busybits k_hashes chns values : list Z) (keyps : list P) (keyp : P)
  (eq : P → P → bool) (key_hash capacity start i : Z).

Fixpoint find_key_loop (n : nat) busybits keyps k_hashes chns keyp eq
    key_hash capacity start i : res Z :=
  match n with
  | O => Ok (-1)
  | S n' =>
      let index := loop (start + i) capacity in
      bb ← rd busybits index;
      kh ← rd k_hashes index;
      chn ← rd chns index;
      kp ← rd keyps index;
      if negb (bb =? 0) && (kh =? key_hash) then
        if eq kp keyp then Ok index
        else find_key_loop n' busybits keyps k_hashes chns keyp eq key_hash capacity start (i + 1)
      else if chn =? 0 then Ok (-1)
      else find_key_loop n' busybits keyps k_hashes chns keyp eq key_hash capacity start (i + 1)
  end.

Definition find_key busybits keyps k_hashes chns keyp eq key_hash capacity : res Z :=
  let start := loop key_hash capacity in
  find_key_loop (Z.to_nat capacity) busybits keyps k_hashes chns keyp eq
    key_hash capacity start 0.

(** Returns (index, [busybits], [chns], [*keyp_out]). *)
Fixpoint find_key_remove_chain_loop (n : nat) busybits keyps k_hashes chns keyp eq
    key_hash capacity start i : res (Z * list Z * list Z * option P) :=
  match n with
  | O => Ok (-1, busybits, chns, None)
  | S n' =>
      let index := loop (start + i) capacity in
      bb ← rd busybits index;
      kh ← rd k_hashes index;
      chn ← rd chns index;
      kp ← rd keyps index;
      if negb (bb =? 0) && (kh =? key_hash) && eq kp keyp then
        busybits ← wr busybits index 0;
        keyp_out ← rd keyps index;
        Ok (index, busybits, chns, Some keyp_out)
      else
        chns ← wr chns index (chn - 1);
        find_key_remove_chain_loop n' busybits keyps k_hashes chns keyp eq
          key_hash capacity start (i + 1)
  end.

Definition find_key_remove_chain busybits keyps k_hashes chns keyp eq key_hash capacity :=
  let start := loop key_hash capacity in
  find_key_remove_chain_loop (Z.to_nat capacity) busybits keyps k_hashes chns keyp eq
    key_hash capacity start 0.

Fixpoint find_empty_loop (n : nat) busybits chns start capacity i : res (Z * list Z) :=
  match n with
  | O => Ok (-1, chns)
  | S n' =>
      let index := loop (start + i) capacity in
      bb ← rd busybits index;
      if 0 =? bb then Ok (index, chns)
      else
        chn ← rd chns index;
        chns ← wr chns index (chn + 1);
        find_empty_loop n' busybits chns start capacity (i + 1)
  end.

Definition find_empty busybits chns start capacity : res (Z * list Z) :=
  find_empty_loop (Z.to_nat capacity) busybits chns start capacity 0.

Fixpoint map_impl_init_loop (n : nat) busybits chns i : res (list Z * list Z) :=
  match n with
  | O => Ok (busybits, chns)
  | S n' =>
      busybits ← wr busybits i 0;
      chns ← wr chns i 0;
      map_impl_init_loop n' busybits chns (i + 1)
  end.

Definition map_impl_init busybits chns capacity : res (list Z * list Z) :=
  map_impl_init_loop (Z.to_nat capacity) busybits chns 0.

(** [Some v]: returns 1 with [*value = v]; [None]: returns 0. *)
Definition map_impl_get busybits keyps k_hashes chns values keyp eq (hash : Z) capacity
    : res (option Z) :=
  index ← find_key busybits keyps k_hashes chns keyp eq hash capacity;
  if -1 =? index then Ok None
  else v ← rd values index; Ok (Some v).

(** Returns ([busybits], [keyps], [k_hashes], [chns], [values]). *)
Definition map_impl_put busybits keyps k_hashes chns values keyp (hash value : Z) capacity
    : res (list Z * list P * list Z * list Z * list Z) :=
  let start := loop hash capacity in
  '(index, chns) ← find_empty busybits chns start capacity;
  busybits ← wr busybits index 1;
  keyps ← wr keyps index keyp;
  k_hashes ← wr k_hashes index hash;
  values ← wr values index value;
  Ok (busybits, keyps, k_hashes, chns, values).

(** Returns ([busybits], [chns], [*keyp_out]). *)
Definition map_impl_erase busybits keyps k_hashes chns keyp eq (hash : Z) capacity
    : res (list Z * list Z * option P) :=
  '(_, busybits, chns, keyp_out) ←
    find_key_remove_chain busybits keyps k_hashes chns keyp eq hash capacity;
  Ok (busybits, chns, keyp_out).

Fixpoint map_impl_size_loop (n : nat) busybits i (s : Z) : res Z :=
  match n with
  | O => Ok s
  | S n' =>
      bb ← rd busybits i;
      map_impl_size_loop n' busybits (i + 1) (if negb (bb =? 0) then s + 1 else s)
  end.

Definition map_impl_size busybits capacity : res Z :=
  map_impl_size_loop (Z.to_nat capacity) busybits 0 0.
End ops.

(** ** The array of structs that five arrays describe *)
Section aos.
Context {P : Type} `{Inhabited P}.

Definition aos (busybits : list Z) (keyps : list P) (k_hashes chns values : list Z)
    : list (Bucket P) :=
  (λ i, mk_bucket (getz busybits i) (getz keyps i) (getz k_hashes i) (getz chns i)
          (getz values i)) <$> seqZ 0 (zlen busybits).

Lemma zlen_aos bb kp kh ch vs : zlen (aos bb kp kh ch vs) = zlen bb.
Proof. unfold aos, zlen. rewrite length_fmap, length_seqZ. lia. Qed.

Lemma getz_aos bb kp kh ch vs i :
  0 <= i < zlen bb → getz (aos bb kp kh ch vs) i =
    mk_bucket (getz bb i) (getz kp i) (getz kh i) (getz ch i) (getz vs i).
Proof.
  intros Hi. unfold aos. unfold getz at 1. apply list_lookup_total_correct.
  rewrite list_lookup_fmap, (proj2 (lookup_seqZ 0 (zlen bb) (Z.to_nat i) i)) by lia. done.
Qed.

(** All arrays have the capacity of the table. *)
Definition same_len (cap : Z) (bb : list Z) (kp : list P) (kh ch vs : list Z) : Prop :=
  zlen bb = cap ∧ zlen kp = cap ∧ zlen kh = cap ∧ zlen ch = cap ∧ zlen vs = cap.

Lemma aos_ext bb kp kh ch vs b :
  zlen b = zlen bb →
  (∀ i, 0 <= i < zlen bb → getz b i =
     mk_bucket (getz bb i) (getz kp i) (getz kh i) (getz ch i) (getz vs i)) →
  b = aos bb kp kh ch vs.
Proof.
  intros Hl Hb. apply getz_ext; [by rewrite zlen_aos|].
  intros i Hi. rewrite Hb, getz_aos by lia. done.
Qed.
End aos.

(** Writes to one of the arrays are writes to a field of the struct. *)
Ltac aos_write :=
  apply aos_ext; [by rewrite !zlen_setz, ?zlen_aos|];
  let x := fresh "x" in let Hx := fresh "Hx" in
  intros x Hx; rewrite ?zlen_setz in Hx; rewrite !getz_setz by (rewrite ?zlen_aos; lia);
  case_decide; subst; rewrite ?getz_aos by lia; try done.

Section simulation.
Context {P : Type} `{Inhabited P}.
Variables (loop : Z → Z → Z) (cap : Z) (eq : P → P → bool).
Implicit Types (bb kh ch vs : list Z) (kp : list P) (keyp : P).

(** Reads of the five arrays against a read of the struct. *)
Lemma rd_aos {B} bb kp kh ch vs i (f : Bucket P → res B) :
  same_len cap bb kp kh ch vs →
  (b ← rd (aos bb kp kh ch vs) i; f b) =
  (a ← rd bb i; b ← rd kh i; c ← rd ch i; k ← rd kp i;
   f (mk_bucket a k b c (getz vs i))).
Proof.
  intros (L1 & L2 & L3 & L4 & L5).
  destruct (decide (0 <= i < zlen bb)) as [Hi|Hi].
  - rewrite (rd_ok (aos bb kp kh ch vs)) by (rewrite zlen_aos; lia).
    rewrite !rd_ok by lia. simpl. by rewrite getz_aos.
  - rewrite (rd_err (aos bb kp kh ch vs)) by (rewrite zlen_aos; lia).
    by rewrite (rd_err bb) by lia.
Qed.

Lemma find_key_loop_aos n bb kp kh ch vs keyp key_hash start i :
  same_len cap bb kp kh ch vs →
  find_key_loop loop n bb kp kh ch keyp eq key_hash cap start i =
  PredMapImpl.find_key_loop loop n (aos bb kp kh ch vs) keyp eq key_hash cap start i.
Proof.
  intros Hs. revert i. induction n as [|n IH]; intros i; [done|].
  cbn [find_key_loop PredMapImpl.find_key_loop].
  rewrite rd_aos, IH by done. done.
Qed.

Lemma find_empty_loop_aos n bb kp kh ch vs start i :
  same_len cap bb kp kh ch vs →
  PredMapImpl.find_empty_loop loop n (aos bb kp kh ch vs) start cap i =
  (λ '(x, ch), (x, aos bb kp kh ch vs)) <$> find_empty_loop loop n bb ch start cap i ∧
  (∀ x ch', find_empty_loop loop n bb ch start cap i = Ok (x, ch') → zlen ch' = cap).
Proof.
  revert i ch. induction n as [|n IH]; intros i ch Hs; [by split; [|intros ?? [= <- <-]; apply Hs]|].
  cbn [find_empty_loop PredMapImpl.find_empty_loop].
  pose proof Hs as (L1 & L2 & L3 & L4 & L5).
  set (x := loop (start + i) cap). destruct (decide (0 <= x < cap)) as [Hx|Hx].
  - rewrite (rd_ok (aos bb kp kh ch vs)), !rd_ok by (rewrite ?zlen_aos; lia).
    cbn [mbind res_bind]. rewrite getz_aos by lia. cbn [busybit].
    destruct (0 =? getz bb x).
    { split; [done|]. intros ?? [= <- <-]. done. }
    unfold set_chain. rewrite !rd_ok, !wr_ok by (rewrite ?zlen_aos; lia).
    cbn [mbind res_bind]. rewrite wr_ok by (rewrite ?zlen_aos; lia). cbn [mbind res_bind].
    rewrite getz_aos by lia. cbn.
    specialize (IH (i + 1) (setz ch x (getz ch x + 1))).
    replace (setz (aos bb kp kh ch vs) x _) with
      (aos bb kp kh (setz ch x (getz ch x + 1)) vs); [apply IH|].
    + unfold same_len. by rewrite zlen_setz.
    + symmetry. aos_write.
  - rewrite (rd_err (aos bb kp kh ch vs)) by (rewrite zlen_aos; lia).
    by rewrite (rd_err bb) by lia.
Qed.

Lemma find_key_remove_chain_loop_aos n bb kp kh ch vs keyp key_hash start i :
  same_len cap bb kp kh ch vs →
  PredMapImpl.find_key_remove_chain_loop loop n (aos bb kp kh ch vs) keyp eq
    key_hash cap start i =
  (λ '(x, bb, ch, out), (x, aos bb kp kh ch vs, out)) <$>
    find_key_remove_chain_loop loop n bb kp kh ch keyp eq key_hash cap start i ∧
  (∀ x bb' ch' out,
    find_key_remove_chain_loop loop n bb kp kh ch keyp eq key_hash cap start i =
      Ok (x, bb', ch', out) → zlen bb' = cap ∧ zlen ch' = cap).
Proof.
  revert i ch. induction n as [|n IH]; intros i ch Hs.
  { split; [done|]. intros ???? [= <- <- <- <-]. split; apply Hs. }
  cbn [find_key_remove_chain_loop PredMapImpl.find_key_remove_chain_loop].
  pose proof Hs as (L1 & L2 & L3 & L4 & L5).
  set (x := loop (start + i) cap). destruct (decide (0 <= x < cap)) as [Hx|Hx].
  - rewrite (rd_ok (aos bb kp kh ch vs)), !rd_ok by (rewrite ?zlen_aos; lia).
    cbn [mbind res_bind]. rewrite getz_aos by lia. cbn [busybit hash key chain].
    unfold set_busybit, set_chain. rewrite !rd_ok, !wr_ok by (rewrite ?zlen_aos; lia).
    cbn [mbind res_bind]. rewrite !wr_ok, !getz_aos by (rewrite ?zlen_aos; lia).
    cbn [mbind res_bind busybit hash key chain value].
    destruct (negb (getz bb x =? 0) && (getz kh x =? key_hash) && eq (getz kp x) keyp).
    + split.
      * simpl. do 3 f_equal. aos_write.
      * intros ???? [= <- <- <- <-]. by rewrite zlen_setz.
    + specialize (IH (i + 1) (setz ch x (getz ch x - 1))).
      replace (setz (aos bb kp kh ch vs) x _) with
        (aos bb kp kh (setz ch x (getz ch x - 1)) vs); [apply IH|].
      * unfold same_len. by rewrite zlen_setz.
      * symmetry. aos_write.
  - rewrite (rd_err (aos bb kp kh ch vs)) by (rewrite zlen_aos; lia).
    by rewrite (rd_err bb) by lia.
Qed.

Lemma map_impl_init_loop_aos n bb kp kh ch vs i :
  same_len cap bb kp kh ch vs →
  PredMapImpl.map_impl_init_loop n (aos bb kp kh ch vs) i =
  (λ '(bb, ch), aos bb kp kh ch vs) <$> map_impl_init_loop n bb ch i ∧
  (∀ bb' ch', map_impl_init_loop n bb ch i = Ok (bb', ch') → zlen bb' = cap ∧ zlen ch' = cap).
Proof.
  revert i bb ch. induction n as [|n IH]; intros i bb ch Hs.
  { split; [done|]. intros ?? [= <- <-]. split; apply Hs. }
  cbn [map_impl_init_loop PredMapImpl.map_impl_init_loop].
  pose proof Hs as (L1 & L2 & L3 & L4 & L5). unfold set_busybit, set_chain.
  destruct (decide (0 <= i < cap)) as [Hx|Hx].
  - rewrite (rd_ok (aos bb kp kh ch vs)), !wr_ok by (rewrite ?zlen_aos; lia).
    cbn [mbind res_bind]. rewrite !wr_ok by (rewrite ?zlen_aos; lia). cbn [mbind res_bind].
    rewrite rd_ok by (rewrite zlen_setz, ?zlen_aos; lia). cbn [mbind res_bind].
    rewrite wr_ok by (rewrite zlen_setz, ?zlen_aos; lia). cbn [mbind res_bind].
    rewrite getz_setz_eq, getz_aos by (rewrite ?zlen_aos; lia).
    specialize (IH (i + 1) (setz bb i 0) (setz ch i 0)).
    replace (setz (setz (aos bb kp kh ch vs) _ _) _ _) with
      (aos (setz bb i 0) kp kh (setz ch i 0) vs); [apply IH|].
    + unfold same_len. by rewrite !zlen_setz.
    + symmetry. apply aos_ext; [by rewrite !zlen_setz, ?zlen_aos|]. intros x Hi.
      rewrite zlen_setz in Hi. rewrite !getz_setz by (rewrite ?zlen_setz, ?zlen_aos; lia).
      case_decide; [by subst x|]. by rewrite getz_aos by lia.
  - rewrite (rd_err (aos bb kp kh ch vs)) by (rewrite zlen_aos; lia).
    by rewrite (wr_err bb) by lia.
Qed.

Lemma map_impl_size_loop_aos n bb kp kh ch vs i s :
  map_impl_size_loop n bb i s =
  PredMapImpl.map_impl_size_loop n (aos bb kp kh ch vs) i s.
Proof.
  revert i s. induction n as [|n IH]; intros i s; [done|].
  cbn [map_impl_size_loop PredMapImpl.map_impl_size_loop].
  destruct (decide (0 <= i < zlen bb)) as [Hx|Hx].
  - rewrite !rd_ok, getz_aos by (rewrite ?zlen_aos; lia). simpl. apply IH.
  - by rewrite !rd_err by (rewrite ?zlen_aos; lia).
Qed.

Lemma map_impl_get_aos bb kp kh ch vs keyp hash :
  same_len cap bb kp kh ch vs →
  map_impl_get loop bb kp kh ch vs keyp eq hash cap =
  PredMapImpl.map_impl_get loop (aos bb kp kh ch vs) keyp eq hash cap.
Proof.
  intros Hs. unfold map_impl_get, PredMapImpl.map_impl_get, find_key, PredMapImpl.find_key.
  rewrite (find_key_loop_aos _ _ _ _ _ vs) by done.
  destruct (PredMapImpl.find_key_loop _ _ _ _ _ _ _ _ _) as [x|]; [|done].
  cbn [mbind res_bind]. destruct (-1 =? x); [done|]. destruct Hs as (L1 & _ & _ & _ & L5).
  destruct (decide (0 <= x < cap)) as [Hx|Hx].
  - rewrite !rd_ok by (rewrite ?zlen_aos; lia). simpl. by rewrite getz_aos by lia.
  - by rewrite !rd_err by (rewrite ?zlen_aos; lia).
Qed.

Lemma map_impl_put_aos bb kp kh ch vs keyp hash value :
  same_len cap bb kp kh ch vs →
  PredMapImpl.map_impl_put loop (aos bb kp kh ch vs) keyp hash value cap =
  (λ '(bb, kp, kh, ch, vs), aos bb kp kh ch vs) <$>
    map_impl_put loop bb kp kh ch vs keyp hash value cap ∧
  (∀ bb' kp' kh' ch' vs', map_impl_put loop bb kp kh ch vs keyp hash value cap =
    Ok (bb', kp', kh', ch', vs') → same_len cap bb' kp' kh' ch' vs').
Proof.
  intros Hs. unfold map_impl_put, PredMapImpl.map_impl_put, find_empty, PredMapImpl.find_empty.
  destruct (find_empty_loop_aos (Z.to_nat cap) bb kp kh ch vs (loop hash cap) 0 Hs) as [-> Hl].
  destruct (find_empty_loop _ _ _ _ _ _ _) as [[x ch']|]; [|done].
  specialize (Hl x ch' Logic.eq_refl). cbn [mbind res_bind fmap res_fmap].
  destruct Hs as (L1 & L2 & L3 & L4 & L5).
  destruct (decide (0 <= x < cap)) as [Hx|Hx].
  - rewrite rd_ok, !wr_ok by (rewrite ?zlen_aos; lia). cbn [mbind res_bind].
    rewrite !wr_ok by (rewrite ?zlen_aos; lia). cbn [mbind res_bind fmap res_fmap].
    rewrite getz_aos by lia. split.
    + f_equal. aos_write.
    + intros ????? [= <- <- <- <- <-]. unfold same_len. by rewrite !zlen_setz.
  - rewrite rd_err by (rewrite ?zlen_aos; lia). rewrite (wr_err bb) by lia. by split.
Qed.

Lemma map_impl_erase_aos bb kp kh ch vs keyp hash :
  same_len cap bb kp kh ch vs →
  PredMapImpl.map_impl_erase loop (aos bb kp kh ch vs) keyp eq hash cap =
  (λ '(bb, ch, out), (aos bb kp kh ch vs, out)) <$>
    map_impl_erase loop bb kp kh ch keyp eq hash cap ∧
  (∀ bb' ch' out, map_impl_erase loop bb kp kh ch keyp eq hash cap = Ok (bb', ch', out) →
    same_len cap bb' kp kh ch' vs).
Proof.
  intros Hs. unfold map_impl_erase, PredMapImpl.map_impl_erase, find_key_remove_chain,
    PredMapImpl.find_key_remove_chain.
  destruct (find_key_remove_chain_loop_aos (Z.to_nat cap) bb kp kh ch vs keyp hash
    (loop hash cap) 0 Hs) as [-> Hl].
  destruct (find_key_remove_chain_loop _ _ _ _ _ _ _ _ _ _ _ _) as [[[[x bb'] ch'] out]|];
    [|done].
  split; [done|]. intros ??? [= <- <- <-]. destruct Hs as (L1 & L2 & L3 & L4 & L5).
  destruct (Hl _ _ _ _ Logic.eq_refl). unfold same_len. done.
Qed.
End simulation.

(** ** The contracts of [map-impl.h] *)
Section contracts.
Context {P : Type} `{Inhabited P} {K : Type} `{Countable K}.
Variables (loop : Z → Z → Z) (cap : Z).
Hypothesis Hcap : 0 < cap.
Hypothesis Hloop : ∀ k, loop k cap = k mod cap.
Variable hsh : K → Z.
Implicit Types (bb kh ch vs : list Z) (kp : list P) (keyp : P) (d : P → K)
  (m : gmap K (P * Z)).

(** [mapping]: the five arrays hold the finite map [m]. *)
Definition mapping d bb kp kh ch vs m : Prop :=
  same_len cap bb kp kh ch vs ∧ table cap hsh d (aos bb kp kh ch vs) m.

Lemma map_impl_init_mapping d bb kp kh ch vs :
  same_len cap bb kp kh ch vs →
  ∃ bb' ch', map_impl_init bb ch cap = Ok (bb', ch') ∧ mapping d bb' kp kh ch' vs ∅.
Proof.
  intros Hs. unfold map_impl_init.
  destruct (map_impl_init_loop_aos cap (Z.to_nat cap) bb kp kh ch vs 0 Hs) as [E Hl].
  destruct (map_impl_init_table cap Hcap hsh d (aos bb kp kh ch vs)) as (b & E' & Ht).
  { rewrite zlen_aos. apply Hs. }
  unfold PredMapImpl.map_impl_init in E'. rewrite E' in E.
  destruct (map_impl_init_loop _ _ _ _) as [[bb' ch']|]; simplify_eq/=.
  exists bb', ch'. split; [done|]. split; [|done].
  destruct (Hl _ _ Logic.eq_refl). destruct Hs as (?&?&?&?&?). done.
Qed.

Lemma map_impl_get_mapping d bb kp kh ch vs m eq keyp :
  mapping d bb kp kh ch vs m → (∀ p q, eq p q = true ↔ d p = d q) →
  map_impl_get loop bb kp kh ch vs keyp eq (hsh (d keyp)) cap = Ok (snd <$> m !! d keyp).
Proof.
  intros [Hs Ht] Heq. rewrite map_impl_get_aos by done.
  by apply (map_impl_get_table loop cap Hcap Hloop hsh (d := d)).
Qed.

Lemma map_impl_put_mapping d bb kp kh ch vs m keyp v :
  mapping d bb kp kh ch vs m → m !! d keyp = None → Z.of_nat (size m) < cap →
  ∃ bb' kp' kh' ch' vs',
    map_impl_put loop bb kp kh ch vs keyp (hsh (d keyp)) v cap = Ok (bb', kp', kh', ch', vs') ∧
    mapping d bb' kp' kh' ch' vs' (<[d keyp := (keyp, v)]> m).
Proof.
  intros [Hs Ht] Hm Hsz.
  destruct (map_impl_put_aos loop cap bb kp kh ch vs keyp (hsh (d keyp)) v Hs) as [E Hl].
  destruct (map_impl_put_table loop cap Hcap Hloop hsh d _ m keyp v Ht Hm Hsz) as (b & E' & Ht').
  rewrite E' in E. destruct (map_impl_put _ _ _ _ _ _ _ _ _ _) as [[[[[bb' kp'] kh'] ch'] vs']|];
    simplify_eq/=.
  do 5 eexists. split; [done|]. split; [|done]. by apply Hl.
Qed.

Lemma map_impl_put_mapping_full d bb kp kh ch vs m keyp h v :
  mapping d bb kp kh ch vs m → Z.of_nat (size m) = cap →
  map_impl_put loop bb kp kh ch vs keyp h v cap = Err OutOfBounds.
Proof.
  intros [Hs Ht] Hsz.
  destruct (map_impl_put_aos loop cap bb kp kh ch vs keyp h v Hs) as [E _].
  rewrite (map_impl_put_full loop cap Hcap Hloop hsh d _ m) in E by done.
  destruct (map_impl_put _ _ _ _ _ _ _ _ _ _) as [[[[[bb' kp'] kh'] ch'] vs']|]; by simplify_eq/=.
Qed.

Lemma map_impl_erase_mapping d bb kp kh ch vs m eq keyp p v :
  mapping d bb kp kh ch vs m → (∀ p q, eq p q = true ↔ d p = d q) →
  m !! d keyp = Some (p, v) →
  ∃ bb' ch', map_impl_erase loop bb kp kh ch keyp eq (hsh (d keyp)) cap = Ok (bb', ch', Some p) ∧
    mapping d bb' kp kh ch' vs (delete (d keyp) m).
Proof.
  intros [Hs Ht] Heq Hm.
  destruct (map_impl_erase_aos loop cap eq bb kp kh ch vs keyp (hsh (d keyp)) Hs) as [E Hl].
  destruct (map_impl_erase_table loop cap Hcap Hloop hsh Ht eq Heq keyp p v Hm) as (b & E' & Ht').
  rewrite E' in E. destruct (map_impl_erase _ _ _ _ _ _ _ _ _) as [[[bb' ch'] out]|];
    simplify_eq/=.
  do 2 eexists. split; [done|]. split; [|done]. by eapply Hl.
Qed.

Lemma map_impl_size_mapping d bb kp kh ch vs m :
  mapping d bb kp kh ch vs m → map_impl_size bb cap = Ok (Z.of_nat (size m)).
Proof.
  intros [Hs Ht]. unfold map_impl_size. rewrite (map_impl_size_loop_aos _ _ kp kh ch vs).
  by apply (map_impl_size_table cap Hcap hsh d).
Qed.

Lemma mapping_frame d d' bb kp kh ch vs m :
  (∀ k p v, m !! k = Some (p, v) → d' p = d p) →
  mapping d bb kp kh ch vs m → mapping d' bb kp kh ch vs m.
Proof. intros Hd [Hs Ht]. split; [done|]. by apply (table_frame cap hsh d). Qed.
End contracts.

(** C26: The code on five arrays of [map-impl.c] and the code on an array of
    structs of [pred-map-impl.c] are the same function: on arrays of one length,
    whatever they contain, lookup, insertion and removal give the same answers
    (out-of-bounds accesses included) and corresponding tables. *)
Theorem map_impl_layouts_equivalent {P} `{Inhabited P} (loop : Z → Z → Z) cap (eq : P → P → bool)
    bb kp kh ch vs keyp hash value :
  same_len cap bb kp kh ch vs →
  map_impl_get loop bb kp kh ch vs keyp eq hash cap =
    PredMapImpl.map_impl_get loop (aos bb kp kh ch vs) keyp eq hash cap ∧
  (λ '(bb, kp, kh, ch, vs), aos bb kp kh ch vs) <$>
      map_impl_put loop bb kp kh ch vs keyp hash value cap =
    PredMapImpl.map_impl_put loop (aos bb kp kh ch vs) keyp hash value cap ∧
  (λ '(bb, ch, out), (aos bb kp kh ch vs, out)) <$>
      map_impl_erase loop bb kp kh ch keyp eq hash cap =
    PredMapImpl.map_impl_erase loop (aos bb kp kh ch vs) keyp eq hash cap ∧
  map_impl_size bb cap = PredMapImpl.map_impl_size (aos bb kp kh ch vs) cap.
Proof.
  intros Hs. split; [by apply map_impl_get_aos|].
  split; [symmetry; by apply map_impl_put_aos|].
  split; [symmetry; by apply map_impl_erase_aos|]. apply map_impl_size_loop_aos.
Qed.

Lemma map_impl_layouts_equivalent_witness :
  map_impl_get PredMapImpl.loop [1; 0] [4; 0] [6; 0] [0; 0] [9; 0] 4 Z.eqb 6 2 =
    PredMapImpl.map_impl_get PredMapImpl.loop (aos [1; 0] [4; 0] [6; 0] [0; 0] [9; 0]) 4 Z.eqb 6 2.
Proof.
  apply (map_impl_layouts_equivalent PredMapImpl.loop 2 Z.eqb [1; 0] [4; 0] [6; 0] [0; 0] [9; 0]
    4 6 0). done.
Defined.

(** The chain counters stay between 0 and the number of stored keys, so the
    increments of [find_empty] and the decrements of [find_key_remove_chain]
    cannot overflow an [int]. *)
Theorem chain_counters_bounded {P} `{Inhabited P} {K} `{Countable K} cap (hsh : K → Z) (d : P → K)
    bb kp kh ch vs m i :
  0 < cap → mapping cap hsh d bb kp kh ch vs m → 0 <= i < cap →
  0 <= getz ch i <= Z.of_nat (size m) ∧ Z.of_nat (size m) <= cap.
Proof.
  intros Hc [(L1 & _) Ht] Hi.
  pose proof (table_chain_bounds cap Hc hsh d _ m i Ht Hi) as Hb.
  rewrite getz_aos in Hb by lia. split; [done|]. by apply (table_size cap Hc hsh d _ m Ht).
Qed.

Lemma chain_counters_bounded_witness :
  0 <= getz [0; 0] 1 <= Z.of_nat (size (∅ : gmap Z (Z * Z))) ∧
  Z.of_nat (size (∅ : gmap Z (Z * Z))) <= 2.
Proof.
  apply (chain_counters_bounded 2 (λ k, k) (λ p, p) [0; 0] [0; 0] [0; 0] [0; 0] [0; 0]);
    [lia| |lia].
  split; [done|]. apply table_empty; [done|]. intros x Hx.
  assert (x = 0 ∨ x = 1) as [-> | ->] by lia; done.
Defined.
