(* ===== verification/MapSpec.v ===== *)
(** * The interface of the maps

    [lib/containers/map.h] declares operations that several files of the
    repository implement ([map.c], [pred-map.c], [rehashing-map.c]); the network
    functions are linked with one of them. The classes below are that header:
    the operations, and the contract each implementation owes its clients. A map
    stores pointers to keys, not keys: [P] is the type of the pointers, and the
    memory [d : P → K] gives the key each of them points to at the time of the
    call. A client may write to the memory of a key only while no map holds it
    ([mapp_frame]). *)

From S2P Require Import Prelude.

Class MapOps (P K M : Type) := {
  (** [Some v]: returns 1 and [*value_out = v]; [None]: returns 0. *)
  map_get : (P → K) → M → P → res (option Z);
  map_put : (P → K) → M → P → Z → res M;
  (** The second component is what is stored to [*trash], if anything is. *)
  map_erase : (P → K) → M → P → res (M * option P);
  map_size : M → Z
}.

Class MapLaws (P K M : Type) `{Countable K} `{!MapOps P K M} := {
  (** [mapp d map capacity m]: [map] stores the finite map [m], that sends a key
      to the pointer it was stored with and its value. *)
  mapp : (P → K) → M → Z → gmap K (P * Z) → Prop;
  map_get_law d map cap m key :
    mapp d map cap m → map_get d map key = Ok (snd <$> m !! d key);
  map_put_law d map cap m key v :
    mapp d map cap m → m !! d key = None → Z.of_nat (size m) < cap →
    ∃ map', map_put d map key v = Ok map' ∧ mapp d map' cap (<[d key := (key, v)]> m);
  map_erase_law d map cap m key p v :
    mapp d map cap m → m !! d key = Some (p, v) →
    ∃ map', map_erase d map key = Ok (map', Some p) ∧ mapp d map' cap (delete (d key) m);
  mapp_frame d d' map cap m :
    (∀ k p v, m !! k = Some (p, v) → d' p = d p) → mapp d map cap m → mapp d' map cap m;
  mapp_key d map cap m k p v : mapp d map cap m → m !! k = Some (p, v) → d p = k
}.

(** Implementations whose [map_size] is the number of keys. *)
Class MapSizeLaw (P K M : Type) `{Countable K} `{!MapOps P K M, !MapLaws P K M} :=
  map_size_law d map cap m : mapp d map cap m → map_size map = Z.of_nat (size m).

(** ** Runs of a map *)
Inductive map_call (P : Type) :=
| MapGet (key : P)
| MapPut (key : P) (value : Z)
| MapErase (key : P).
Arguments MapGet {P} key.
Arguments MapPut {P} key value.
Arguments MapErase {P} key.

Section runs.
Context {P K M : Type} `{Countable K} `{!MapOps P K M, !MapLaws P K M}.
Implicit Types (map : M) (d : P → K) (m : gmap K (P * Z)).

(** The answers: what a lookup found, and the pointer an erasure gave back. *)
Fixpoint exec_map d map (cs : list (map_call P)) : res (list (option Z + option P) * M) :=
  match cs with
  | [] => Ok ([], map)
  | MapGet key :: cs' =>
      r ← map_get d map key;
      '(rs, map) ← exec_map d map cs'; Ok (inl r :: rs, map)
  | MapPut key v :: cs' =>
      map ← map_put d map key v; exec_map d map cs'
  | MapErase key :: cs' =>
      '(map, trash) ← map_erase d map key;
      '(rs, map) ← exec_map d map cs'; Ok (inr trash :: rs, map)
  end.

(** The same calls on a finite map; [None] when the caller breaks the contract
    (puts a key that is present, or one too many, or erases one that is absent). *)
Fixpoint spec_map d (cap : Z) m (cs : list (map_call P))
    : option (list (option Z + option P) * gmap K (P * Z)) :=
  match cs with
  | [] => Some ([], m)
  | MapGet key :: cs' =>
      '(rs, m') ← spec_map d cap m cs'; Some (inl (snd <$> m !! d key) :: rs, m')
  | MapPut key v :: cs' =>
      match m !! d key with
      | Some _ => None
      | None => if Z.of_nat (size m) <? cap then spec_map d cap (<[d key := (key, v)]> m) cs'
                else None
      end
  | MapErase key :: cs' =>
      match m !! d key with
      | Some (p, _) =>
          '(rs, m') ← spec_map d cap (delete (d key) m) cs'; Some (inr (Some p) :: rs, m')
      | None => None
      end
  end.

Lemma exec_map_spec d cap cs map m answers m' :
  mapp d map cap m → spec_map d cap m cs = Some (answers, m') →
  ∃ map', exec_map d map cs = Ok (answers, map') ∧ mapp d map' cap m'.
Proof.
  revert map m answers. induction cs as [|[key|key v|key] cs IH]; intros map m answers Hm E; simpl in *.
  - simplify_eq. by exists map.
  - destruct (spec_map d cap m cs) as [[rs m1]|] eqn:E1; simplify_eq/=.
    rewrite (map_get_law _ _ _ _ _ Hm). simpl.
    destruct (IH _ _ _ Hm E1) as (map' & -> & Hm'). by exists map'.
  - destruct (m !! d key) eqn:Ek; [done|]. destruct (Z.ltb_spec (Z.of_nat (size m)) cap); [|done].
    destruct (map_put_law _ _ _ _ key v Hm Ek) as (map1 & -> & Hm1); [done|]. simpl. by eapply IH.
  - destruct (m !! d key) as [[p v]|] eqn:Ek; [|done].
    destruct (spec_map d cap (delete (d key) m) cs) as [[rs m1]|] eqn:E1; simplify_eq/=.
    destruct (map_erase_law _ _ _ _ key p v Hm Ek) as (map1 & -> & Hm1). simpl.
    destruct (IH _ _ _ Hm1 E1) as (map' & -> & Hm'). by exists map'.
Qed.
End runs.
