(* ===== verification/Map.v ===== *)
(** * The map of [map.c]

    [struct Map] with its five arrays, the number of keys and the two function
    pointers, and the operations of [map.h] on it. The instances at the end show
    that it implements the interface of [MapSpec.v]. *)

From S2P Require Import Prelude.
From S2P Require Import Malloc.
From S2P Require Import PredMapImpl.
From S2P Require Import MapImpl.
From S2P Require Import MapSpec.

(** [keys_eq] and [khash] are the functions the pointers of the struct refer to,
    as functions of the keys that their arguments point to. *)
Record Map (P K : Type) := mk_map {
  busybits : list Z; keyps : list P; khs : list Z; chns : list Z; vals : list Z;
  capacity : Z; map_size_field : Z; keys_eq : K → K → bool; khash : K → Z }.
Arguments mk_map {P K} _ _ _ _ _ _ _ _ _.
Arguments busybits {P K} _.
Arguments keyps {P K} _.
Arguments khs {P K} _.
Arguments chns {P K} _.
Arguments vals {P K} _.
Arguments capacity {P K} _.
Arguments map_size_field {P K} _.
Arguments keys_eq {P K} _.
Arguments khash {P K} _.

Section ops.
Context {P K : Type}.
Implicit Types (map : Map P K) (key : P) (d : P → K).

(** [map_allocate(keq, khash, capacity, &map)]. The contents of fresh memory
    are [junk]; the result is the returned int with the new [*map_out]. *)
Definition map_allocate (ok : nat → bool) (junkZ : Z → list Z) (junkP : Z → list P)
    (keq : K → K → bool) (kh : K → Z) (cap : Z) (old : option (Map P K)) (h : heap)
    : res ((Z * option (Map P K)) * heap) :=
  let fail := (0, old) in
  malloc_or ok [] fail (λ map_alloc,
  malloc_or ok [map_alloc] fail (λ bbs_alloc,
  malloc_or ok [bbs_alloc; map_alloc] fail (λ keyps_alloc,
  malloc_or ok [keyps_alloc; bbs_alloc; map_alloc] fail (λ khs_alloc,
  malloc_or ok [khs_alloc; keyps_alloc; bbs_alloc; map_alloc] fail (λ chns_alloc,
  malloc_or ok [chns_alloc; khs_alloc; keyps_alloc; bbs_alloc; map_alloc] fail (λ vals_alloc h,
    '(bbs, chs) ← map_impl_init (junkZ cap) (junkZ cap) cap;
    Ok ((1, Some (mk_map bbs (junkP cap) (junkZ cap) chs (junkZ cap) cap 0 keq kh)), h)
  )))))) h.

Definition c_map_get d map key : res (option Z) :=
  let hash := khash map (d key) in
  map_impl_get loop (busybits map) (keyps map) (khs map) (chns map) (vals map)
    key (λ p q, keys_eq map (d p) (d q)) hash (capacity map).

Definition c_map_put d map key (value : Z) : res (Map P K) :=
  let hash := khash map (d key) in
  '(bbs, kps, khs', chs, vs) ←
    map_impl_put loop (busybits map) (keyps map) (khs map) (chns map) (vals map)
      key hash value (capacity map);
  Ok (mk_map bbs kps khs' chs vs (capacity map) (map_size_field map + 1)
        (keys_eq map) (khash map)).

Definition c_map_erase d map key : res (Map P K * option P) :=
  let hash := khash map (d key) in
  '(bbs, chs, trash) ←
    map_impl_erase loop (busybits map) (keyps map) (khs map) (chns map)
      key (λ p q, keys_eq map (d p) (d q)) hash (capacity map);
  Ok (mk_map bbs (keyps map) (khs map) chs (vals map) (capacity map)
        (map_size_field map - 1) (keys_eq map) (khash map), trash).

Definition c_map_size map : Z := map_size_field map.

#[export] Instance Map_ops : MapOps P K (Map P K) := {|
  map_get := c_map_get; map_put := c_map_put; map_erase := c_map_erase;
  map_size := c_map_size |}.
End ops.

Section laws.
Context {P : Type} `{Inhabited P} {K : Type} `{Countable K}.

(** The capacity is a power of two, as the comment of the struct demands. *)
Record map_inv (d : P → K) (map : Map P K) (cap : Z) (m : gmap K (P * Z)) : Prop := {
  mi_cap : capacity map = cap;
  mi_pow2 : ∃ n, 0 <= n ∧ cap = 2 ^ n;
  mi_eq : ∀ k1 k2, keys_eq map k1 k2 = true ↔ k1 = k2;
  mi_size : map_size_field map = Z.of_nat (size m);
  mi_tab : mapping cap (khash map) d (busybits map) (keyps map) (khs map) (chns map)
             (vals map) m
}.

Lemma map_inv_cap d map cap m :
  map_inv d map cap m → 0 < cap ∧ ∀ k, loop k cap = k mod cap.
Proof.
  intros [_ (n & Hn & ->) _ _ _]. split; [lia|]. intros k. by apply loop_pow2.
Qed.

#[export] Program Instance Map_laws : MapLaws P K (Map P K) := {| mapp := map_inv |}.
Next Obligation.
  intros d map cap m key Hm. pose proof (map_inv_cap _ _ _ _ Hm) as [Hc Hl].
  destruct Hm as [E Hp Heq Hs Ht]. cbn [map_get Map_ops]. unfold c_map_get. rewrite E.
  by apply (map_impl_get_mapping loop cap Hc Hl (khash map) d).
Qed.
Next Obligation.
  intros d map cap m key v Hm Hn Hsz. pose proof (map_inv_cap _ _ _ _ Hm) as [Hc Hl].
  destruct Hm as [E Hp Heq Hs Ht]. cbn [map_put Map_ops]. unfold c_map_put. rewrite E.
  destruct (map_impl_put_mapping loop cap Hc Hl (khash map) d _ _ _ _ _ m key v Ht Hn Hsz)
    as (bb & kp & kh & ch & vs & -> & Ht').
  eexists. split; [done|]. split; simpl; try done.
  rewrite Hs, map_size_insert_None by done. lia.
Qed.
Next Obligation.
  intros d map cap m key p v Hm Hk. pose proof (map_inv_cap _ _ _ _ Hm) as [Hc Hl].
  destruct Hm as [E Hp Heq Hs Ht]. cbn [map_erase Map_ops]. unfold c_map_erase. rewrite E.
  destruct (map_impl_erase_mapping loop cap Hc Hl (khash map) d _ _ _ _ _ m
    (λ p q, keys_eq map (d p) (d q)) key p v Ht) as (bb & ch & -> & Ht'); [done..|].
  eexists. split; [done|]. split; simpl; try done.
  rewrite Hs. pose proof (map_size_delete_pos m (d key) _ Hk). lia.
Qed.
Next Obligation.
  intros d d' map cap m Hd [E Hp Heq Hs Ht]. split; try done.
  by apply (mapping_frame cap (khash map) d).
Qed.
Next Obligation.
  intros d map cap m k p v [_ _ _ _ [_ Ht]] Hk. by eapply bt_key.
Qed.

#[export] Instance Map_size_law : MapSizeLaw P K (Map P K).
Proof. intros d map cap m [_ _ _ Hs _]. done. Qed.

(** [map_allocate] either returns 1 with an empty map made of six new
    blocks, or, only if a request fails,
    returns 0, releases exactly the blocks it had obtained (whichever
    of the six requests fails) and leaves [*map_out] as it was. *)
Theorem map_allocate_no_leak ok junkZ junkP keq kh cap old h d :
  heap_wf h → (∃ n, 0 <= n ∧ cap = 2 ^ n) → (∀ k1 k2, keq k1 k2 = true ↔ k1 = k2) →
  zlen (junkZ cap) = cap → zlen (junkP cap) = cap →
  (∃ map h', map_allocate (P := P) (K := K) ok junkZ junkP keq kh cap old h =
       Ok ((1, Some map), h') ∧
     map_inv d map cap ∅ ∧ heap_wf h' ∧ ∃ bs, length bs = 6%nat ∧ live h' = bs ++ live h) ∨
  (∃ n, map_allocate ok junkZ junkP keq kh cap old h = Ok ((0, old), mk_heap n (live h)) ∧
     ∃ r, ok r = false).
Proof.
  intros Hwf Hp Heq HZ HP.
  set (k := λ (bs : list nat) (h : heap), '(bbs, chs) ← map_impl_init (junkZ cap) (junkZ cap) cap;
    Ok ((1, Some (mk_map bbs (junkP cap) (junkZ cap) chs (junkZ cap) cap 0 keq kh)), h)).
  assert (map_allocate ok junkZ junkP keq kh cap old h = malloc_all ok 6 [] (0, old) k h) as ->
    by reflexivity.
  destruct (malloc_all_top ok 6 (0, old) k h Hwf) as [(bs & h' & -> & Hb & Hlive & Hwf')|?];
    [left|by right].
  assert (Hc : 0 < cap) by (destruct Hp as (n & Hn & ->); lia).
  destruct (map_impl_init_mapping cap Hc kh d (junkZ cap) (junkP cap) (junkZ cap) (junkZ cap)
    (junkZ cap)) as (bb & ch & Ei & Hm); [done|].
  eexists _, h'. unfold k. rewrite Ei. split; [done|]. split; [|split; [done|by exists bs]].
  split; try done.
Qed.

End laws.

Lemma map_allocate_no_leak_witness :
  (∃ map h', map_allocate (P := Z) (K := Z) (λ n, negb (n =? 4)%nat) (λ c, replicate (Z.to_nat c) 9)
         (λ c, replicate (Z.to_nat c) 0) Z.eqb (λ k, k) 4 None (mk_heap 0 []) = Ok ((1, Some map), h') ∧
     map_inv (λ p, p) map 4 ∅ ∧ heap_wf h' ∧ ∃ bs, length bs = 6%nat ∧ live h' = bs ++ []) ∨
  (∃ n, map_allocate (P := Z) (K := Z) (λ n, negb (n =? 4)%nat) (λ c, replicate (Z.to_nat c) 9)
         (λ c, replicate (Z.to_nat c) 0) Z.eqb (λ k, k) 4 None (mk_heap 0 []) =
     Ok ((0, None), mk_heap n []) ∧
     ∃ r, negb (r =? 4)%nat = false).
Proof.
  apply (map_allocate_no_leak (λ n, negb (n =? 4)%nat) (λ c, replicate (Z.to_nat c) 9)
    (λ c, replicate (Z.to_nat c) 0) Z.eqb (λ k, k) 4 None (mk_heap 0 []) (λ p, p)).
  - split; simpl; [constructor|]. by intros b ?%elem_of_nil.
  - by exists 2.
  - apply Z.eqb_eq.
  - done.
  - done.
Defined.

Section claims.
Context {P : Type} `{Inhabited P} {K : Type} `{Countable K}.

(** C10: Every sequence of lookups, insertions and removals that respects the
    contract of [map.h] (insert only absent keys and only while there is room,
    erase only stored keys) runs on the hash table of [map.c] without leaving
    its arrays and gives the answers of a finite map from keys to values; an
    erasure hands back the key pointer of the insertion, and [map_size] is the
    number of keys. *)
Theorem map_run_correct (d : P → K) cap cs (map : Map P K) m answers m' :
  map_inv d map cap m → spec_map d cap m cs = Some (answers, m') →
  ∃ map', exec_map d map cs = Ok (answers, map') ∧ map_inv d map' cap m' ∧
    c_map_size map' = Z.of_nat (size m').
Proof.
  intros Hm E. destruct (exec_map_spec (MapLaws0 := Map_laws) d cap cs map m answers m' Hm E)
    as (map' & E' & Hm'). exists map'. split; [done|]. split; [done|]. apply Hm'.
Qed.

(** [map_put] on a table without a free bucket writes outside of its arrays:
    [find_empty] returns -1, which [map_impl_put] uses as an index. *)
Theorem map_put_full (d : P → K) cap (map : Map P K) m key v :
  map_inv d map cap m → Z.of_nat (size m) = cap → c_map_put d map key v = Err OutOfBounds.
Proof.
  intros Hm Hs. destruct (map_inv_cap _ _ _ _ Hm) as [Hc Hl]. destruct Hm as [E _ _ _ Ht].
  unfold c_map_put. rewrite E.
  by rewrite (map_impl_put_mapping_full loop cap Hc Hl (khash map) d _ _ _ _ _ m).
Qed.
End claims.

(** A map of one bucket. *)
Definition one_bucket : Map Z Z := mk_map [0] [0] [0] [0] [0] 1 0 Z.eqb (λ k, k).
Lemma one_bucket_ok : map_inv (λ p, p) one_bucket 1 ∅.
Proof.
  split; simpl; [done|by exists 0|apply Z.eqb_eq|done|]. split; [done|].
  apply table_empty; [done|]. intros x Hx. assert (x = 0) as -> by lia. done.
Qed.

Lemma map_run_correct_witness :
  ∃ map', exec_map (λ p, p) one_bucket [MapPut 5 7; MapGet 5; MapGet 6; MapErase 5; MapGet 5] =
      Ok ([inl (Some 7); inl None; inr (Some 5); inl None], map') ∧
    map_inv (λ p, p) map' 1 ∅ ∧ c_map_size map' = Z.of_nat (size (∅ : gmap Z (Z * Z))).
Proof.
  apply (map_run_correct (λ p, p) 1 [MapPut 5 7; MapGet 5; MapGet 6; MapErase 5; MapGet 5]
    one_bucket ∅ _ ∅); [exact one_bucket_ok|by vm_compute].
Defined.

Lemma map_put_full_witness :
  ∃ map, c_map_put (λ p, p) one_bucket 5 7 = Ok map ∧
    c_map_put (λ p, p) map 6 8 = Err OutOfBounds.
Proof.
  destruct (map_put_law (MapLaws := Map_laws) (λ p, p) one_bucket 1 ∅ 5 7 one_bucket_ok)
    as (map & E & Hm); [done|done|].
  exists map. split; [exact E|]. apply (map_put_full (λ p, p) 1 map (<[5 := (5, 7)]> ∅)); done.
Defined.
