(* ===== verification/PredMap.v ===== *)
(** * The map of [pred-map.c]

    [struct Map] over an array of [struct Bucket] ([PredMapImpl.v]); a second
    implementation of the interface of [MapSpec.v]. [pred-map2.c] is the same
    code with two copies of [map_get]. *)

From S2P Require Import Prelude.
From S2P Require Import Malloc.
From S2P Require Import PredMapImpl.
From S2P Require Import MapSpec.

Record PMap (P K : Type) := mk_pmap {
  buckets : list (Bucket P); capacity : Z; map_size_field : Z;
  keys_eq : K → K → bool; khash : K → Z }.
Arguments mk_pmap {P K} _ _ _ _ _.
Arguments buckets {P K} _.
Arguments capacity {P K} _.
Arguments map_size_field {P K} _.
Arguments keys_eq {P K} _.
Arguments khash {P K} _.

Section ops.
Context {P K : Type}.
Implicit Types (map : PMap P K) (key : P) (d : P → K).

Definition pmap_allocate (ok : nat → bool) (junk : Z → list (Bucket P))
    (keq : K → K → bool) (kh : K → Z) (cap : Z) (old : option (PMap P K)) (h : heap)
    : res ((Z * option (PMap P K)) * heap) :=
  let fail := (0, old) in
  malloc_or ok [] fail (λ map_alloc,
  malloc_or ok [map_alloc] fail (λ buckets_alloc h,
    bs ← map_impl_init (junk cap) cap;
    Ok ((1, Some (mk_pmap bs cap 0 keq kh)), h))) h.

Definition pmap_get d map key : res (option Z) :=
  let hash := khash map (d key) in
  map_impl_get loop (buckets map) key (λ p q, keys_eq map (d p) (d q)) hash (capacity map).

Definition pmap_put d map key (value : Z) : res (PMap P K) :=
  let hash := khash map (d key) in
  bs ← map_impl_put loop (buckets map) key hash value (capacity map);
  Ok (mk_pmap bs (capacity map) (map_size_field map + 1) (keys_eq map) (khash map)).

Definition pmap_erase d map key : res (PMap P K * option P) :=
  let hash := khash map (d key) in
  '(bs, trash) ← map_impl_erase loop (buckets map) key
    (λ p q, keys_eq map (d p) (d q)) hash (capacity map);
  Ok (mk_pmap bs (capacity map) (map_size_field map - 1) (keys_eq map) (khash map), trash).

Definition pmap_size map : Z := map_size_field map.

#[export] Instance PMap_ops : MapOps P K (PMap P K) := {|
  map_get := pmap_get; map_put := pmap_put; map_erase := pmap_erase; map_size := pmap_size |}.
End ops.

Section laws.
Context {P : Type} `{Inhabited P} {K : Type} `{Countable K}.

Record pmap_inv (d : P → K) (map : PMap P K) (cap : Z) (m : gmap K (P * Z)) : Prop := {
  pi_cap : capacity map = cap;
  pi_pow2 : ∃ n, 0 <= n ∧ cap = 2 ^ n;
  pi_eq : ∀ k1 k2, keys_eq map k1 k2 = true ↔ k1 = k2;
  pi_size : map_size_field map = Z.of_nat (size m);
  pi_tab : table cap (khash map) d (buckets map) m
}.

Lemma pmap_inv_cap d map cap m :
  pmap_inv d map cap m → 0 < cap ∧ ∀ k, loop k cap = k mod cap.
Proof.
  intros [_ (n & Hn & ->) _ _ _]. split; [lia|]. intros k. by apply loop_pow2.
Qed.

#[export] Program Instance PMap_laws : MapLaws P K (PMap P K) := {| mapp := pmap_inv |}.
Next Obligation.
  intros d map cap m key Hm. pose proof (pmap_inv_cap _ _ _ _ Hm) as [Hc Hl].
  destruct Hm as [E Hp Heq Hs Ht]. cbn [map_get PMap_ops]. unfold pmap_get. rewrite E.
  by apply (map_impl_get_table loop cap Hc Hl (khash map) (d := d)).
Qed.
Next Obligation.
  intros d map cap m key v Hm Hn Hsz. pose proof (pmap_inv_cap _ _ _ _ Hm) as [Hc Hl].
  destruct Hm as [E Hp Heq Hs Ht]. cbn [map_put PMap_ops]. unfold pmap_put. rewrite E.
  destruct (map_impl_put_table loop cap Hc Hl (khash map) d _ m key v Ht Hn Hsz)
    as (bs & -> & Ht').
  eexists. split; [done|]. split; simpl; try done.
  rewrite Hs, map_size_insert_None by done. lia.
Qed.
Next Obligation.
  intros d map cap m key p v Hm Hk. pose proof (pmap_inv_cap _ _ _ _ Hm) as [Hc Hl].
  destruct Hm as [E Hp Heq Hs Ht]. cbn [map_erase PMap_ops]. unfold pmap_erase. rewrite E.
  destruct (map_impl_erase_table loop cap Hc Hl (khash map) Ht
    (λ p q, keys_eq map (d p) (d q)) ltac:(intros; apply Heq) key p v Hk) as (bs & -> & Ht').
  eexists. split; [done|]. split; simpl; try done.
  rewrite Hs. pose proof (map_size_delete_pos m (d key) _ Hk). lia.
Qed.
Next Obligation.
  intros d d' map cap m Hd [E Hp Heq Hs Ht]. split; try done.
  by apply (table_frame cap (khash map) d).
Qed.
Next Obligation. intros d map cap m k p v [_ _ _ _ Ht] Hk. by eapply bt_key. Qed.

#[export] Instance PMap_size_law : MapSizeLaw P K (PMap P K).
Proof. intros d map cap m [_ _ _ Hs _]. done. Qed.

(** [map_allocate] of [pred-map.c] returns 1 with an empty map, or returns 0
    having released what it had obtained and with [*map_out] unchanged. *)
Theorem pmap_allocate_no_leak ok junk keq kh cap old h d :
  heap_wf h → (∃ n, 0 <= n ∧ cap = 2 ^ n) → (∀ k1 k2, keq k1 k2 = true ↔ k1 = k2) →
  zlen (junk cap) = cap →
  (∃ map h', pmap_allocate (P := P) (K := K) ok junk keq kh cap old h = Ok ((1, Some map), h') ∧
     pmap_inv d map cap ∅ ∧ heap_wf h' ∧ ∃ bs, length bs = 2%nat ∧ live h' = bs ++ live h) ∨
  (∃ n, pmap_allocate ok junk keq kh cap old h = Ok ((0, old), mk_heap n (live h)) ∧
     ∃ r, ok r = false).
Proof.
  intros Hwf Hp Heq Hj.
  set (k := λ (bs : list nat) (h : heap), b ← map_impl_init (junk cap) cap;
    Ok ((1, Some (mk_pmap b cap 0 keq kh)), h)).
  assert (pmap_allocate ok junk keq kh cap old h = malloc_all ok 2 [] (0, old) k h) as ->
    by reflexivity.
  destruct (malloc_all_top ok 2 (0, old) k h Hwf) as [(bs & h' & -> & Hb & Hlive & Hwf')|?];
    [left|by right].
  assert (Hc : 0 < cap) by (destruct Hp as (n & Hn & ->); lia).
  destruct (map_impl_init_table cap Hc kh d (junk cap) Hj) as (b & Ei & Ht).
  eexists _, h'. unfold k. rewrite Ei. split; [done|]. split; [|split; [done|by exists bs]].
  split; try done.
Qed.
End laws.

Lemma pmap_allocate_no_leak_witness :
  (∃ map h', pmap_allocate (P := Z) (K := Z) (λ n, (n =? 0)%nat)
         (λ c, replicate (Z.to_nat c) (mk_bucket 9 9 9 9 9)) Z.eqb (λ k, k) 4 None (mk_heap 0 []) =
       Ok ((1, Some map), h') ∧
     pmap_inv (λ p, p) map 4 ∅ ∧ heap_wf h' ∧ ∃ bs, length bs = 2%nat ∧ live h' = bs ++ []) ∨
  (∃ n, pmap_allocate (P := Z) (K := Z) (λ n, (n =? 0)%nat)
         (λ c, replicate (Z.to_nat c) (mk_bucket 9 9 9 9 9)) Z.eqb (λ k, k) 4 None (mk_heap 0 []) =
     Ok ((0, None), mk_heap n []) ∧
     ∃ r, (r =? 0)%nat = false).
Proof.
  apply (pmap_allocate_no_leak (λ n, (n =? 0)%nat)
    (λ c, replicate (Z.to_nat c) (mk_bucket 9 9 9 9 9)) Z.eqb (λ k, k) 4 None (mk_heap 0 [])
    (λ p, p)).
  - split; simpl; [constructor|]. by intros b ?%elem_of_nil.
  - by exists 2.
  - apply Z.eqb_eq.
  - done.
Defined.

(** The map of [pred-map.c], an array of structs, implements the same finite
    map interface: every sequence of calls that respects the contract of the
    header gives the answers of a finite map. *)
Theorem pmap_run_correct {P} `{Inhabited P} {K} `{Countable K} (d : P → K) cap cs
    (map : PMap P K) m answers m' :
  pmap_inv d map cap m → spec_map d cap m cs = Some (answers, m') →
  ∃ map', exec_map d map cs = Ok (answers, map') ∧ pmap_inv d map' cap m' ∧
    pmap_size map' = Z.of_nat (size m').
Proof.
  intros Hm E. destruct (exec_map_spec (MapLaws0 := PMap_laws) d cap cs map m answers m' Hm E)
    as (map' & E' & Hm'). exists map'. split; [done|]. split; [done|]. apply Hm'.
Qed.

Lemma pmap_run_correct_witness :
  let map := mk_pmap [mk_bucket 0 0 0 0 0; mk_bucket 0 0 0 0 0] 2 0 Z.eqb (λ k, k) in
  ∃ map', exec_map (λ p, p) map [MapPut 5 7; MapPut 3 8; MapGet 3; MapErase 5; MapGet 5] =
      Ok ([inl (Some 8); inr (Some 5); inl None], map') ∧
    pmap_inv (λ p, p) map' 2 (delete 5 (<[3 := (3, 8)]> (<[5 := (5, 7)]> ∅))) ∧
    pmap_size map' =
      Z.of_nat (size (delete 5 (<[3 := (3, 8)]> (<[5 := (5, 7)]> (∅ : gmap Z (Z * Z)))))).
Proof.
  intros map. eapply (pmap_run_correct (λ p, p) 2 _ map ∅); [|by vm_compute].
  split; simpl; [done|by exists 1|apply Z.eqb_eq|done|].
  apply table_empty; [done|]. intros x Hx. assert (x = 0 ∨ x = 1) as [-> | ->] by lia; done.
Defined.
