(* ===== verification/MapBuckets.v ===== *)
(** * The map of [map-buckets.c]

    An implementation of [map.h] with chains: a bucket is a linked list of nodes, and
    the nodes that are not in use are on free lists, one per bucket. Nodes are never
    allocated after [map_allocate] and move between the lists, so the model has a store
    of nodes and pointers into it. *)

From S2P Require Import Prelude.
From S2P Require Import Malloc.
From S2P Require Import MapSpec.

Module MapBuckets.

Definition MAP_BUCKETS_POWER : Z := 16.
Definition MAP_INITIAL_FREE_LIST_CAP : Z := 4.
Definition N_BUCKETS : Z := Z.shiftl 1 MAP_BUCKETS_POWER.
#[global] Strategy 1000 [N_BUCKETS].

(** A node: the free list it was allocated with, and its position there. *)
Abbreviation nptr := (Z * Z)%type.

(** [key] is [None] (null) as long as the node was never used. *)
Record MapNode (P : Type) := mk_node { key : option P; value : Z; next : option nptr }.
Arguments mk_node {P} _ _ _.
Arguments key {P} _.
Arguments value {P} _.
Arguments next {P} _.

(** [nodes] is the memory of the nodes. *)
Record Map (P K : Type) := mk_map {
  nodes : gmap nptr (MapNode P); buckets : list (option nptr); free_lists : list (option nptr);
  size_field : Z; key_equality : K → K → bool; key_hash : K → Z }.
Arguments mk_map {P K} _ _ _ _ _ _.
Arguments nodes {P K} _.
Arguments buckets {P K} _.
Arguments free_lists {P K} _.
Arguments size_field {P K} _.
Arguments key_equality {P K} _.
Arguments key_hash {P K} _.

Section ops.
Context {P K : Type}.
Implicit Types (map : Map P K) (ns : gmap nptr (MapNode P)) (d : P → K) (p : nptr).

(** [*p] for a pointer to a node. *)
Definition ld_node ns p : res (MapNode P) :=
  match ns !! p with Some n => Ok n | None => Err OutOfBounds end.
(** [*p] for a pointer that may be null. *)
Definition ld_ptr ns (p : option nptr) : res (nptr * MapNode P) :=
  match p with
  | None => Err OutOfBounds
  | Some p => n ← ld_node ns p; Ok (p, n)
  end.

(** ** Helper functions *)

(** The store of the nodes of one free list from [calloc]: all zero, then linked. *)
Definition calloc_list (l : Z) : list (nptr * MapNode P) :=
  (λ j, ((l, j), mk_node None 0 None)) <$> seqZ 0 MAP_INITIAL_FREE_LIST_CAP.
Fixpoint init_loop (n : nat) ns (free_list i : Z) : res (gmap nptr (MapNode P)) :=
  match n with
  | O => Ok ns
  | S n =>
      x ← ld_node ns (free_list, i);
      init_loop n (<[(free_list, i) := mk_node (key x) (value x) (Some (free_list, i + 1))]> ns)
        free_list (i + 1)
  end.
Definition map_init_free_list ns (free_list : Z) : res (gmap nptr (MapNode P)) :=
  init_loop (Z.to_nat (MAP_INITIAL_FREE_LIST_CAP - 1)) ns free_list 0.

Definition map_get_bucket d map (key : P) : Z :=
  let hash := key_hash map (d key) in
  Z.land hash (Z.shiftl 1 MAP_BUCKETS_POWER - 1).

(** The number of the free list; [abort] if they are all empty. *)
Fixpoint free_list_loop (n : nat) (fl : list (option nptr)) (bucket i : Z) : res Z :=
  match n with
  | O => Err Exit
  | S n =>
      let max := Z.shiftl 1 MAP_BUCKETS_POWER - 1 in
      let cand_bucket := Z.land (bucket + i) max in
      p ← rd fl cand_bucket;
      match p with Some _ => Ok cand_bucket | None => free_list_loop n fl bucket (i + 1) end
  end.
Definition map_get_free_list map (bucket : Z) : res Z :=
  free_list_loop (Z.to_nat N_BUCKETS) (free_lists map) bucket 0.

(** The loop of [map_get_node]: the result, [*out_node] and [*out_prev]. *)
Fixpoint get_node_loop (fuel : nat) ns d (keq : K → K → bool) (key0 : P)
    (out_node out_prev : option nptr) : res (bool * option nptr * option nptr) :=
  match out_node with
  | None => Ok (false, out_node, out_prev)
  | Some p =>
      match fuel with
      | O => Err NoFuel
      | S fuel =>
          n ← ld_node ns p;
          k ← match key n with Some k => Ok k | None => Err OutOfBounds end;
          if keq (d key0) (d k) then Ok (true, out_node, out_prev)
          else get_node_loop fuel ns d keq key0 (next n) out_node
      end
  end.
(** A bucket has at most as many nodes as there are in the memory. *)
Definition map_get_node d map (key0 : P) : res (bool * option nptr * option nptr) :=
  let bucket := map_get_bucket d map key0 in
  out_node ← rd (buckets map) bucket;
  get_node_loop (size (nodes map)) (nodes map) d (key_equality map) key0 out_node None.

(** ** The interface *)

(** [calloc] zeroes the structure: buckets and free lists are empty. Each free list is
    then a block of its own; [fls] are the blocks, the first list first. A failure
    releases every free list, in order (the null pointers of the missing ones do
    nothing), and the map. *)
Fixpoint allocate_lists {R} (ok : nat → bool) (n : nat) (l : Z) ns (heads : list (option nptr))
    (map_block : nat) (fls : list nat) (fail : R)
    (k : gmap nptr (MapNode P) → list (option nptr) → heap → res (R * heap)) (h : heap)
    : res (R * heap) :=
  match n with
  | O => k ns heads h
  | S n =>
      malloc_or ok (fls ++ [map_block]) fail (λ b h,
        let ns := list_to_map (calloc_list l) ∪ ns in
        ns ← map_init_free_list ns l;
        heads ← wr heads l (Some (l, 0));
        allocate_lists ok n (l + 1) ns heads map_block (fls ++ [b]) fail k h) h
  end.

(** [capacity] is not used. *)
Definition map_allocate (ok : nat → bool) (keq : K → K → bool) (kh : K → Z) (capacity : Z)
    (old : option (Map P K)) (h : heap) : res ((Z * option (Map P K)) * heap) :=
  let fail := (0, old) in
  let null := replicate (Z.to_nat N_BUCKETS) None in
  malloc_or ok [] fail (λ map_block,
    allocate_lists ok (Z.to_nat N_BUCKETS) 0 ∅ null map_block [] fail (λ ns heads h,
      Ok ((1, Some (mk_map ns null heads 0 keq kh)), h))) h.

Definition c_map_put d map (key0 : P) (v : Z) : res (Map P K) :=
  let bucket := map_get_bucket d map key0 in
  free_list ← map_get_free_list map bucket;
  head ← rd (free_lists map) free_list;
  '(node, n) ← ld_ptr (nodes map) head;
  fl ← wr (free_lists map) free_list (next n);
  chain ← rd (buckets map) bucket;
  let ns := <[node := mk_node (Some key0) v chain]> (nodes map) in
  bs ← wr (buckets map) bucket (Some node);
  Ok (mk_map ns bs fl (size_field map + 1) (key_equality map) (key_hash map)).

(** The pointer to the node is used whatever [map_get_node] returned. *)
Definition c_map_erase d map (key0 : P) : res (Map P K * option P) :=
  let bucket := map_get_bucket d map key0 in
  '(_, node, prev) ← map_get_node d map key0;
  '(node, n) ← ld_ptr (nodes map) node;
  '(bs, ns) ← match prev with
              | None => bs ← wr (buckets map) bucket (next n); Ok (bs, nodes map)
              | Some p =>
                  x ← ld_node (nodes map) p;
                  Ok (buckets map, <[p := mk_node (key x) (value x) (next n)]> (nodes map))
              end;
  free_list ← map_get_free_list map bucket;
  head ← rd (free_lists map) free_list;
  let ns := <[node := mk_node (key n) (value n) head]> ns in
  fl ← wr (free_lists map) free_list (Some node);
  Ok (mk_map ns bs fl (size_field map - 1) (key_equality map) (key_hash map), key n).

Definition c_map_get d map (key0 : P) : res (option Z) :=
  '(found, node, _) ← map_get_node d map key0;
  if found : bool then '(_, n) ← ld_ptr (nodes map) node; Ok (Some (value n)) else Ok None.

Definition c_map_size map : Z := size_field map.

#[export] Instance MapBuckets_ops : MapOps P K (Map P K) := {|
  map_get := c_map_get; map_put := c_map_put; map_erase := c_map_erase; map_size := c_map_size |}.
End ops.

(** ** Chains *)
Lemma concat_setz {A} (ls : list (list A)) i l :
  0 <= i < zlen ls → concat (setz ls i l) ++ getz ls i ≡ₚ concat ls ++ l.
Proof.
  intros Hi. unfold setz, getz. unfold zlen in Hi.
  destruct (lookup_lt_is_Some_2 ls (Z.to_nat i)) as [x Hx]; [lia|].
  rewrite (list_lookup_total_correct _ _ _ Hx).
  rewrite insert_take_drop by (eapply lookup_lt_Some; done).
  rewrite <- (take_drop_middle ls (Z.to_nat i) x Hx) at 3.
  rewrite !concat_app. cbn [concat].
  rewrite <- !(assoc_L (++)). apply Permutation_app_head.
  rewrite (Permutation_app_comm _ x), (Permutation_app_comm _ l). rewrite !(assoc_L (++)).
  rewrite (Permutation_app_comm x l). done.
Qed.

Lemma getz_concat {A} (ls : list (list A)) i x :
  0 <= i < zlen ls → x ∈ getz ls i → x ∈ concat ls.
Proof.
  intros Hi Hx. pose proof (concat_setz ls i [] Hi) as Hp. rewrite app_nil_r in Hp.
  rewrite <- Hp. apply elem_of_app. by right.
Qed.

Lemma concat_getz {A} (ls : list (list A)) x :
  x ∈ concat ls → ∃ i, 0 <= i < zlen ls ∧ x ∈ getz ls i.
Proof.
  induction ls as [|l ls IH]; cbn [concat]; [by intros ?%elem_of_nil|].
  intros [Hx|(i & Hi & Hx)%IH]%elem_of_app.
  - exists 0. rewrite zlen_cons. split; [pose proof (zlen_nonneg ls); lia|done].
  - exists (i + 1). rewrite zlen_cons. split; [lia|].
    unfold getz in *. by replace (Z.to_nat (i + 1)) with (S (Z.to_nat i)) by lia.
Qed.

Section chains.
Context {P : Type}.
Implicit Types (ns : gmap nptr (MapNode P)) (q : option nptr) (a : nptr) (l : list (nptr * P * Z)).

(** The nodes of a bucket with their keys and values. *)
Fixpoint chain ns q l : Prop :=
  match l with
  | [] => q = None
  | (a, k, v) :: l => q = Some a ∧ ∃ nx, ns !! a = Some (mk_node (Some k) v nx) ∧ chain ns nx l
  end.
(** The nodes of a free list. *)
Fixpoint free_chain ns q (f : list nptr) : Prop :=
  match f with
  | [] => q = None
  | a :: f => q = Some a ∧ ∃ n, ns !! a = Some n ∧ free_chain ns (next n) f
  end.

Definition addr (e : nptr * P * Z) : nptr := e.1.1.

Lemma chain_frame ns ns' q l :
  (∀ a, a ∈ addr <$> l → ns' !! a = ns !! a) → chain ns q l → chain ns' q l.
Proof.
  revert q. induction l as [|[[a k] v] l IH]; intros q Hf; cbn [chain]; [done|].
  intros (-> & nx & E & Hc). split; [done|]. exists nx. rewrite Hf by by left. split; [done|].
  apply IH; [|done]. intros b Hb. apply Hf. by right.
Qed.

Lemma free_chain_frame ns ns' q f :
  (∀ a, a ∈ f → ns' !! a = ns !! a) → free_chain ns q f → free_chain ns' q f.
Proof.
  revert q. induction f as [|a f IH]; intros q Hf; cbn [free_chain]; [done|].
  intros (-> & n & E & Hc). split; [done|]. exists n. rewrite Hf by by left. split; [done|].
  apply IH; [|done]. intros b Hb. apply Hf. by right.
Qed.

Lemma chain_mem ns q l a k v :
  chain ns q l → (a, k, v) ∈ l → ∃ nx, ns !! a = Some (mk_node (Some k) v nx).
Proof.
  revert q. induction l as [|[[b k'] v'] l IH]; intros q; cbn [chain]; [by intros _ ?%elem_of_nil|].
  intros (-> & nx & E & Hc) [[= -> -> ->]|Hin]%elem_of_cons; [by exists nx|]. by eapply IH.
Qed.

Lemma chain_short ns q l : NoDup (addr <$> l) → chain ns q l → (length l <= size ns)%nat.
Proof.
  intros Hnd Hc. rewrite <- size_dom, <- (length_fmap addr l), <- (size_list_to_set (C := gset nptr)) by done.
  apply subseteq_size. intros a. rewrite elem_of_list_to_set, list_elem_of_fmap, elem_of_dom.
  intros ([[b k] v] & -> & Hin). destruct (chain_mem _ _ _ _ _ _ Hc Hin) as [nx ?]. by exists (mk_node (Some k) v nx).
Qed.

(** The loop goes past the nodes with another key. *)
Lemma get_node_skip {K} ns (d : P → K) keq key0 l1 l2 q prev (fuel : nat) :
  (∀ a k v, (a, k, v) ∈ l1 → keq (d key0) (d k) = false) → chain ns q (l1 ++ l2) →
  (length l1 <= fuel)%nat →
  ∃ q' prev', chain ns q' l2 ∧
    prev' = match last l1 with Some e => Some (addr e) | None => prev end ∧
    get_node_loop fuel ns d keq key0 q prev = get_node_loop (fuel - length l1) ns d keq key0 q' prev'.
Proof.
  revert q prev fuel. induction l1 as [|[[a k] v] l1 IH]; intros q prev fuel Hk Hc Hf; cbn [app length] in *.
  - exists q, prev. by rewrite Nat.sub_0_r.
  - destruct Hc as (-> & nx & E & Hc). destruct fuel as [|fuel]; [lia|].
    destruct (IH nx (Some a) fuel) as (q' & prev' & Hc' & Hprev & E'); [|done|lia|].
    { intros b k' v' Hin. apply (Hk b k' v'). by right. }
    exists q', prev'. split; [done|]. split.
    + rewrite Hprev. destruct l1 as [|e l1]; [done|]. rewrite last_cons_cons.
      destruct (last (e :: l1)) eqn:El; [done|]. by apply last_None in El.
    + cbn [get_node_loop]. unfold ld_node. rewrite E. cbn [mbind res_bind key next].
      rewrite (Hk a k v) by by left. done.
Qed.

Lemma get_node_absent {K} ns (d : P → K) keq key0 l q :
  (∀ a k v, (a, k, v) ∈ l → keq (d key0) (d k) = false) → NoDup (addr <$> l) → chain ns q l →
  ∃ prev, get_node_loop (size ns) ns d keq key0 q None = Ok (false, None, prev).
Proof.
  intros Hk Hnd Hc. pose proof (chain_short _ _ _ Hnd Hc) as Hf. rewrite <- (app_nil_r l) in Hc.
  destruct (get_node_skip ns d keq key0 l [] q None (size ns) Hk Hc Hf) as (q' & prev' & Hc' & _ & ->).
  cbn in Hc'. subst q'. exists prev'. by destruct (size ns - length l)%nat.
Qed.

Lemma get_node_present {K} ns (d : P → K) keq key0 l1 a k v l2 q :
  (∀ a k v, (a, k, v) ∈ l1 → keq (d key0) (d k) = false) → keq (d key0) (d k) = true →
  NoDup (addr <$> l1 ++ (a, k, v) :: l2) → chain ns q (l1 ++ (a, k, v) :: l2) →
  get_node_loop (size ns) ns d keq key0 q None = Ok (true, Some a, addr <$> last l1).
Proof.
  intros Hk Hka Hnd Hc. pose proof (chain_short _ _ _ Hnd Hc) as Hf. rewrite length_app in Hf. cbn in Hf.
  destruct (get_node_skip ns d keq key0 l1 _ q None (size ns) Hk Hc) as (q' & prev' & Hc' & -> & ->); [lia|].
  destruct Hc' as (-> & nx & E & _). destruct (size ns - length l1)%nat as [|fuel] eqn:Ef; [lia|].
  cbn [get_node_loop]. unfold ld_node. rewrite E. cbn [mbind res_bind key]. rewrite Hka.
  by destruct (last l1).
Qed.

(** Unlinking a node: the one before it, or the head of the bucket, is redirected. *)
Lemma chain_unlink ns q l1 a k v l2 nx :
  NoDup (addr <$> l1 ++ (a, k, v) :: l2) → chain ns q (l1 ++ (a, k, v) :: l2) →
  ns !! a = Some (mk_node (Some k) v nx) →
  match last l1 with
  | None => chain ns nx (l1 ++ l2)
  | Some e => ∃ x, ns !! addr e = Some x ∧
      chain (<[addr e := mk_node (key x) (value x) nx]> ns) q (l1 ++ l2)
  end.
Proof.
  revert q. induction l1 as [|[[b kb] vb] l1 IH]; intros q Hnd Hc Ea; cbn [app chain] in *.
  - destruct Hc as (_ & nx' & E & Hc). cbn. congruence.
  - destruct Hc as (-> & nx' & E & Hc). rewrite fmap_cons in Hnd. apply NoDup_cons in Hnd as [Hb Hnd].
    specialize (IH nx' Hnd Hc Ea). destruct l1 as [|e l1].
    + cbn in *. exists (mk_node (Some kb) vb nx'). split; [done|]. split; [done|]. exists nx.
      split; [by rewrite lookup_insert_eq|]. eapply chain_frame; [|exact IH].
      intros c Hin. rewrite lookup_insert_ne; [done|]. intros <-. apply Hb. by right.
    + rewrite last_cons_cons. destruct (last (e :: l1)) as [e'|] eqn:El; [|by apply last_None in El].
      destruct IH as (x & Ex & IH). exists x. split; [done|]. split; [done|]. exists nx'.
      split; [|done]. rewrite lookup_insert_ne; [done|]. intros Eb.
      apply Hb. rewrite <- Eb. apply list_elem_of_fmap. exists e'. split; [done|].
      apply elem_of_app. left. by apply last_Some_elem_of.
Qed.
End chains.

Lemma concat_cons {A} (ls : list (list A)) i x :
  0 <= i < zlen ls → concat (setz ls i (x :: getz ls i)) ≡ₚ x :: concat ls.
Proof.
  intros Hi. pose proof (concat_setz ls i (x :: getz ls i) Hi) as Hp.
  rewrite <- Permutation_middle, app_comm_cons in Hp.
  by apply (Permutation_app_inv_r (getz ls i)).
Qed.

Lemma concat_uncons {A} (ls : list (list A)) i l1 x l2 :
  0 <= i < zlen ls → getz ls i = l1 ++ x :: l2 →
  concat ls ≡ₚ x :: concat (setz ls i (l1 ++ l2)).
Proof.
  intros Hi E. pose proof (concat_setz ls i (l1 ++ l2) Hi) as Hp. rewrite E in Hp.
  rewrite <- (Permutation_middle l1 l2 x) in Hp.
  rewrite <- Permutation_middle, app_comm_cons in Hp.
  symmetry. by apply (Permutation_app_inv_r (l1 ++ l2)).
Qed.

(** ** Buckets and free lists *)
Lemma N_BUCKETS_eq : N_BUCKETS = 2 ^ 16.
Proof. done. Qed.

Lemma mask_bucket x : Z.land x (Z.shiftl 1 MAP_BUCKETS_POWER - 1) = x mod N_BUCKETS.
Proof.
  unfold N_BUCKETS, MAP_BUCKETS_POWER. rewrite Z.shiftl_1_l.
  change (2 ^ 16 - 1) with (Z.ones 16). by rewrite Z.land_ones by lia.
Qed.

Lemma free_list_found (n : nat) (heads : list (option nptr)) b i j :
  zlen heads = N_BUCKETS → i <= j < i + Z.of_nat n → getz heads ((b + j) mod N_BUCKETS) ≠ None →
  ∃ c p, free_list_loop n heads b i = Ok c ∧ 0 <= c < N_BUCKETS ∧ getz heads c = Some p.
Proof.
  intros Hl. revert i. induction n as [|n IH]; intros i Hj Hn; [lia|]. cbn [free_list_loop].
  rewrite mask_bucket. pose proof (Z.mod_pos_bound (b + i) N_BUCKETS ltac:(done)) as Hb.
  rewrite rd_ok by lia. cbn [mbind res_bind].
  destruct (getz heads ((b + i) mod N_BUCKETS)) as [p|] eqn:E.
  - by exists ((b + i) mod N_BUCKETS), p.
  - apply IH; [|done]. destruct (decide (j = i)) as [->|]; [done|lia].
Qed.

Lemma free_list_none (n : nat) (heads : list (option nptr)) b i :
  zlen heads = N_BUCKETS → (∀ c, 0 <= c < N_BUCKETS → getz heads c = None) →
  free_list_loop n heads b i = Err Exit.
Proof.
  intros Hl Hn. revert i. induction n as [|n IH]; intros i; [done|]. cbn [free_list_loop].
  rewrite mask_bucket. pose proof (Z.mod_pos_bound (b + i) N_BUCKETS ltac:(done)) as Hb.
  rewrite rd_ok by lia. cbn [mbind res_bind]. by rewrite Hn.
Qed.

Section laws.
Context {P K : Type} `{Countable K}.
Implicit Types (map : Map P K) (d : P → K) (m : gmap K (P * Z)).

(** What a node of a bucket stands for. *)
Definition kv d (e : nptr * P * Z) : K * (P * Z) := (d e.1.2, (e.1.2, e.2)).

(** [bl] are the contents of the buckets and [fl] those of the free lists; every node is
    on exactly one of them. *)
Record rep d map m (bl : list (list (nptr * P * Z))) (fl : list (list nptr)) : Prop := {
  r_eq : ∀ k1 k2, key_equality map k1 k2 = true ↔ k1 = k2;
  r_bl : zlen bl = N_BUCKETS;
  r_fl : zlen fl = N_BUCKETS;
  r_b : zlen (buckets map) = N_BUCKETS;
  r_f : zlen (free_lists map) = N_BUCKETS;
  r_chain : ∀ i, 0 <= i < N_BUCKETS → chain (nodes map) (getz (buckets map) i) (getz bl i);
  r_free : ∀ i, 0 <= i < N_BUCKETS → free_chain (nodes map) (getz (free_lists map) i) (getz fl i);
  r_bucket : ∀ i a k v, 0 <= i < N_BUCKETS → (a, k, v) ∈ getz bl i → map_get_bucket d map k = i;
  r_nodup : NoDup ((addr <$> concat bl) ++ concat fl);
  r_count : zlen (concat bl) + zlen (concat fl) = N_BUCKETS * MAP_INITIAL_FREE_LIST_CAP;
  r_keys : NoDup (kv d <$> concat bl).*1;
  r_map : m = list_to_map (kv d <$> concat bl);
  r_size : size_field map = Z.of_nat (size m)
}.

(** [cap] keys fit, and one node is left. *)
Record inv d map (cap : Z) m : Prop := {
  inv_cap : cap < N_BUCKETS * MAP_INITIAL_FREE_LIST_CAP;
  inv_size : Z.of_nat (size m) <= cap;
  inv_rep : ∃ bl fl, rep d map m bl fl
}.

Section rep_facts.
Context {d : P → K} {map : Map P K} {m : gmap K (P * Z)} {bl : list (list (nptr * P * Z))}
  {fl : list (list nptr)}.
Hypothesis Hr : rep d map m bl fl.

Lemma rep_lookup k p v : m !! k = Some (p, v) ↔ ∃ a, (a, p, v) ∈ concat bl ∧ d p = k.
Proof.
  rewrite (r_map _ _ _ _ _ Hr), <- elem_of_list_to_map by apply Hr.
  rewrite list_elem_of_fmap. split.
  - intros ([[a p'] v'] & [= -> -> ->] & Hin). by exists a.
  - intros (a & Hin & <-). by exists (a, p, v).
Qed.

Lemma rep_size : Z.of_nat (size m) = zlen (concat bl).
Proof.
  rewrite (r_map _ _ _ _ _ Hr), map_size_list_to_map by apply Hr. unfold zlen. by rewrite length_fmap.
Qed.

Lemma bucket_range key : 0 <= map_get_bucket d map key < N_BUCKETS.
Proof. unfold map_get_bucket. rewrite mask_bucket. by apply Z.mod_pos_bound. Qed.

Lemma bucket_same k k' : d k = d k' → map_get_bucket d map k = map_get_bucket d map k'.
Proof. unfold map_get_bucket. by intros ->. Qed.

Lemma chain_nodup i : 0 <= i < N_BUCKETS → NoDup (addr <$> getz bl i).
Proof.
  intros Hi. pose proof (r_nodup _ _ _ _ _ Hr) as Hnd. apply NoDup_app in Hnd as (Hnd & _ & _).
  pose proof (concat_setz bl i [] ltac:(rewrite (r_bl _ _ _ _ _ Hr); done)) as Hp.
  rewrite app_nil_r in Hp. rewrite <- Hp, fmap_app in Hnd. by apply NoDup_app in Hnd as (_ & _ & ?).
Qed.

(** A key that is stored is on the chain of its bucket, behind nodes with other keys. *)
Lemma rep_find key p v :
  m !! d key = Some (p, v) →
  ∃ a l1 l2, getz bl (map_get_bucket d map key) = l1 ++ (a, p, v) :: l2 ∧ d p = d key ∧
    (∀ b k u, (b, k, u) ∈ l1 → key_equality map (d key) (d k) = false).
Proof.
  intros (a & Hin & Ed)%rep_lookup. apply concat_getz in Hin as (i & Hi & Hin).
  rewrite (r_bl _ _ _ _ _ Hr) in Hi. pose proof (r_bucket _ _ _ _ _ Hr i a p v Hi Hin) as Eb.
  rewrite (bucket_same p key Ed) in Eb. rewrite Eb.
  apply list_elem_of_split in Hin as (l1 & l2 & E). exists a, l1, l2. split; [done|]. split; [done|].
  intros b k u Hb. destruct (key_equality map (d key) (d k)) eqn:Ek; [|done]. exfalso.
  apply (r_eq _ _ _ _ _ Hr) in Ek.
  pose proof (r_keys _ _ _ _ _ Hr) as Hnd.
  rewrite (concat_uncons bl i l1 (a, p, v) l2) in Hnd by (rewrite ?(r_bl _ _ _ _ _ Hr); done).
  rewrite fmap_cons in Hnd. cbn in Hnd. apply NoDup_cons in Hnd as [Hn _]. apply Hn.
  rewrite <- list_fmap_compose. apply list_elem_of_fmap. exists (b, k, u). split; [cbn; congruence|].
  apply (getz_concat _ i); [by rewrite zlen_setz, (r_bl _ _ _ _ _ Hr)|].
  rewrite getz_setz_eq by (by rewrite (r_bl _ _ _ _ _ Hr)). apply elem_of_app. by left.
Qed.

(** The lookup of a key that is not stored. *)
Lemma rep_absent key :
  m !! d key = None →
  ∀ b k u, (b, k, u) ∈ getz bl (map_get_bucket d map key) → key_equality map (d key) (d k) = false.
Proof.
  intros Hn b k u Hin. destruct (key_equality map (d key) (d k)) eqn:Ek; [|done]. exfalso.
  apply (r_eq _ _ _ _ _ Hr) in Ek. assert (m !! d key = Some (k, u)) as E; [|congruence].
  apply rep_lookup. exists b. split; [|done].
  apply (getz_concat _ _ _ ltac:(rewrite (r_bl _ _ _ _ _ Hr); apply bucket_range) Hin).
Qed.

(** There is a free node as long as not all nodes are in use. *)
Lemma rep_free_list bucket :
  zlen (concat bl) < N_BUCKETS * MAP_INITIAL_FREE_LIST_CAP →
  ∃ c a f, map_get_free_list map bucket = Ok c ∧ 0 <= c < N_BUCKETS ∧
    getz (free_lists map) c = Some a ∧ getz fl c = a :: f.
Proof.
  intros Hlt. pose proof (r_count _ _ _ _ _ Hr) as Hc.
  destruct (concat fl) as [|x l] eqn:E; [rewrite zlen_nil in Hc; lia|].
  destruct (concat_getz fl x) as (c0 & Hc0 & Hx); [rewrite E; by left|].
  rewrite (r_fl _ _ _ _ _ Hr) in Hc0.
  destruct (free_list_found (Z.to_nat N_BUCKETS) (free_lists map) bucket 0 (dist N_BUCKETS bucket c0))
    as (c & p & Ec & Hcr & Ep).
  - apply Hr.
  - pose proof (dist_bound N_BUCKETS ltac:(done) bucket c0). rewrite Z2Nat.id by done. lia.
  - pose proof (step_dist N_BUCKETS bucket c0 Hc0) as Es.
    rewrite Zplus_mod_idemp_l in Es. rewrite Es. pose proof (r_free _ _ _ _ _ Hr c0 Hc0) as Hf.
    destruct (getz fl c0); [by apply elem_of_nil in Hx|]. destruct Hf as [-> _]. done.
  - exists c, p. pose proof (r_free _ _ _ _ _ Hr c Hcr) as Hf. rewrite Ep in Hf.
    destruct (getz fl c) as [|b f]; [done|]. destruct Hf as [[= ->] _]. by exists f.
Qed.
End rep_facts.

(** ** The operations *)
Lemma get_spec d map m bl fl key :
  rep d map m bl fl → c_map_get d map key = Ok (snd <$> m !! d key).
Proof.
  intros Hr. pose proof (bucket_range (d := d) (map := map) key) as Hb.
  unfold c_map_get, map_get_node. rewrite rd_ok by (rewrite (r_b _ _ _ _ _ Hr); done).
  cbn [mbind res_bind]. pose proof (r_chain _ _ _ _ _ Hr _ Hb) as Hc.
  pose proof (chain_nodup Hr _ Hb) as Hnd.
  destruct (m !! d key) as [[p v]|] eqn:E.
  - destruct (rep_find Hr key p v E) as (a & l1 & l2 & El & Ed & Hk). rewrite El in Hc, Hnd.
    rewrite (get_node_present _ _ _ _ l1 a p v l2 _ Hk) by (done || by apply (r_eq _ _ _ _ _ Hr)).
    destruct (chain_mem _ _ _ a p v Hc) as [nx En]; [apply elem_of_app; right; by left|].
    cbn [mbind res_bind ld_ptr]. unfold ld_node. by rewrite En.
  - destruct (get_node_absent _ _ _ _ _ _ (rep_absent Hr key E) Hnd Hc) as [prev ->]. done.
Qed.

(** A node that was first on a free list is not on any other list. *)
Lemma rep_free_fresh d map m bl fl c a f :
  rep d map m bl fl → 0 <= c < N_BUCKETS → getz fl c = a :: f →
  (∀ e i, 0 <= i < N_BUCKETS → e ∈ getz bl i → addr e ≠ a) ∧ a ∉ f ∧
  (∀ i b, 0 <= i < N_BUCKETS → i ≠ c → b ∈ getz fl i → b ≠ a) ∧
  concat fl ≡ₚ a :: concat (setz fl c f).
Proof.
  intros Hr Hc Ef. pose proof (r_nodup _ _ _ _ _ Hr) as Hnd.
  pose proof (concat_uncons fl c [] a f ltac:(rewrite (r_fl _ _ _ _ _ Hr); done) Ef) as Hp.
  cbn [app] in Hp. rewrite Hp, <- Permutation_middle in Hnd. apply NoDup_cons in Hnd as [Hn Hnd].
  rewrite elem_of_app in Hn. split; [|split; [|split; [|done]]].
  - intros e i Hi He <-. apply Hn. left. apply list_elem_of_fmap. exists e. split; [done|].
    apply (getz_concat bl i); [by rewrite (r_bl _ _ _ _ _ Hr)|done].
  - intros Ha. apply Hn. right. apply (getz_concat _ c); [by rewrite zlen_setz, (r_fl _ _ _ _ _ Hr)|].
    by rewrite getz_setz_eq by (by rewrite (r_fl _ _ _ _ _ Hr)).
  - intros i b Hi Hne Hin ->. apply Hn. right.
    apply (getz_concat _ i); [by rewrite zlen_setz, (r_fl _ _ _ _ _ Hr)|].
    rewrite getz_setz_ne; [done|congruence|rewrite (r_fl _ _ _ _ _ Hr); lia|lia].
Qed.

Lemma put_rep d map m bl fl key v :
  rep d map m bl fl → m !! d key = None → Z.of_nat (size m) < N_BUCKETS * MAP_INITIAL_FREE_LIST_CAP →
  ∃ map' bl' fl', c_map_put d map key v = Ok map' ∧ rep d map' (<[d key := (key, v)]> m) bl' fl'.
Proof.
  intros Hr Hn Hlt.
  pose proof (bucket_range (d := d) (map := map) key) as Hb. set (i := map_get_bucket d map key) in *.
  destruct (rep_free_list Hr i) as (c & a & f & Ec & Hc & Ea & Ef); [rewrite <- (rep_size Hr); lia|].
  destruct (rep_free_fresh _ _ _ _ _ _ _ _ Hr Hc Ef) as (Hbl & Haf & Hfl & Hpf).
  pose proof (r_free _ _ _ _ _ Hr c Hc) as Hfc. rewrite Ef in Hfc. destruct Hfc as (_ & n & En & Hfc).
  pose proof (r_bl _ _ _ _ _ Hr) as Lbl. pose proof (r_fl _ _ _ _ _ Hr) as Lfl.
  pose proof (r_b _ _ _ _ _ Hr) as Lb. pose proof (r_f _ _ _ _ _ Hr) as Lf.
  unfold c_map_put. fold i. rewrite Ec. cbn [mbind res_bind].
  rewrite (rd_ok (free_lists map)) by lia. rewrite Ea. cbn [mbind res_bind ld_ptr].
  unfold ld_node. rewrite En. cbn [mbind res_bind].
  rewrite (wr_ok (free_lists map)) by lia. cbn [mbind res_bind].
  rewrite rd_ok by lia. cbn [mbind res_bind]. rewrite wr_ok by lia. cbn [mbind res_bind].
  eexists _, (setz bl i ((a, key, v) :: getz bl i)), (setz fl c f). split; [done|].
  pose proof (concat_cons bl i (a, key, v) ltac:(rewrite Lbl; done)) as Hpb.
  assert (Hkeys : NoDup (kv d <$> concat (setz bl i ((a, key, v) :: getz bl i))).*1).
  { rewrite Hpb, fmap_cons. cbn. apply NoDup_cons. split; [|apply Hr].
    rewrite <- list_fmap_compose, list_elem_of_fmap. intros ([[b k] u] & Ek & Hin). cbn in Ek.
    assert (m !! d key = Some (k, u)) as E; [|congruence].
    apply (rep_lookup Hr). exists b. by rewrite Ek. }
  assert (Hm : <[d key := (key, v)]> m = list_to_map (kv d <$> concat (setz bl i ((a, key, v) :: getz bl i)))).
  { rewrite (list_to_map_proper _ (kv d <$> (a, key, v) :: concat bl) Hkeys) by (by rewrite Hpb).
    rewrite fmap_cons. change (kv d (a, key, v)) with (d key, (key, v)).
    rewrite list_to_map_cons. by rewrite (r_map _ _ _ _ _ Hr). }
  split; cbn [key_equality buckets free_lists nodes size_field]; rewrite ?zlen_setz; try done.
  - apply Hr.
  - intros j Hj. destruct (decide (i = j)) as [<-|Hne].
    + rewrite !getz_setz_eq by lia. split; [done|]. eexists. rewrite lookup_insert_eq. split; [done|].
      eapply chain_frame; [|apply (r_chain _ _ _ _ _ Hr i Hb)]. intros b Hin.
      apply list_elem_of_fmap in Hin as (e & -> & He). rewrite lookup_insert_ne; [done|].
      intros Eae. by eapply Hbl.
    + rewrite !getz_setz_ne by lia. eapply chain_frame; [|apply (r_chain _ _ _ _ _ Hr j Hj)]. intros b Hin.
      apply list_elem_of_fmap in Hin as (e & -> & He). rewrite lookup_insert_ne; [done|].
      intros Eae. by eapply Hbl.
  - intros j Hj. destruct (decide (c = j)) as [<-|Hne].
    + rewrite !getz_setz_eq by lia. eapply free_chain_frame; [|exact Hfc].
      intros b Hin. rewrite lookup_insert_ne; [done|]. by intros <-.
    + rewrite !getz_setz_ne by lia. eapply free_chain_frame; [|apply (r_free _ _ _ _ _ Hr j Hj)].
      intros b Hin. rewrite lookup_insert_ne; [done|]. intros <-. by eapply (Hfl j).
  - intros j b k u Hj. destruct (decide (i = j)) as [<-|Hne].
    + rewrite getz_setz_eq by lia. intros [[= -> -> ->]|Hin]%elem_of_cons; [done|].
      by apply (r_bucket _ _ _ _ _ Hr i b k u Hj).
    + rewrite getz_setz_ne by lia. by apply (r_bucket _ _ _ _ _ Hr j b k u Hj).
  - rewrite Hpb. rewrite fmap_cons. cbn [app]. pose proof (r_nodup _ _ _ _ _ Hr) as Hnd.
    rewrite Hpf, <- Permutation_middle in Hnd. done.
  - pose proof (r_count _ _ _ _ _ Hr) as Hcount. unfold zlen in *.
    rewrite (Permutation_length Hpb). rewrite (Permutation_length Hpf) in Hcount. cbn [length] in *. lia.
  - rewrite (r_size _ _ _ _ _ Hr), map_size_insert_None by done. lia.
Qed.

Lemma put_spec d map cap m key v :
  inv d map cap m → m !! d key = None → Z.of_nat (size m) < cap →
  ∃ map', c_map_put d map key v = Ok map' ∧ inv d map' cap (<[d key := (key, v)]> m).
Proof.
  intros [Hcap Hsz (bl & fl & Hr)] Hn Hlt.
  destruct (put_rep d map m bl fl key v Hr Hn) as (map' & bl' & fl' & E & Hr'); [lia|].
  exists map'. split; [done|]. split; [done|rewrite map_size_insert_None by done; lia|by exists bl', fl'].
Qed.

(** Without a free node the code aborts; also where it wants to give one back. *)
Lemma full_aborts d map m bl fl bucket :
  rep d map m bl fl → Z.of_nat (size m) = N_BUCKETS * MAP_INITIAL_FREE_LIST_CAP →
  map_get_free_list map bucket = Err Exit.
Proof.
  intros Hr Hs. apply free_list_none; [apply Hr|]. intros c Hc. pose proof (r_free _ _ _ _ _ Hr c Hc) as Hf.
  destruct (getz fl c) as [|a f] eqn:Ef; [done|]. exfalso.
  assert (Hin : a ∈ concat fl).
  { apply (getz_concat fl c); [by rewrite (r_fl _ _ _ _ _ Hr)|]. rewrite Ef. by left. }
  pose proof (r_count _ _ _ _ _ Hr) as Hcount. rewrite <- (rep_size Hr) in Hcount.
  destruct (concat fl) as [|b l]; [by apply elem_of_nil in Hin|]. rewrite zlen_cons in Hcount.
  pose proof (zlen_nonneg l). lia.
Qed.

Lemma full_put d map m bl fl ky v :
  rep d map m bl fl → Z.of_nat (size m) = N_BUCKETS * MAP_INITIAL_FREE_LIST_CAP →
  c_map_put d map ky v = Err Exit.
Proof. intros Hr Hs. unfold c_map_put. by rewrite (full_aborts _ _ _ _ _ _ Hr Hs). Qed.

(** Taking the node [a] out of its bucket. *)
Lemma cut_bucket d map m bl fl i l1 a p v l2 nx :
  rep d map m bl fl → 0 <= i < N_BUCKETS → getz bl i = l1 ++ (a, p, v) :: l2 →
  nodes map !! a = Some (mk_node (Some p) v nx) →
  ∃ bs ns, match addr <$> last l1 with
      | None => bs ← wr (buckets map) i nx; Ok (bs, nodes map)
      | Some p => x ← ld_node (nodes map) p;
          Ok (buckets map, <[p := mk_node (key x) (value x) nx]> (nodes map))
      end = Ok (bs, ns) ∧ zlen bs = N_BUCKETS ∧ chain ns (getz bs i) (l1 ++ l2) ∧
      (∀ j, 0 <= j < N_BUCKETS → j ≠ i → getz bs j = getz (buckets map) j) ∧
      (∀ b, b ∉ addr <$> l1 → ns !! b = nodes map !! b).
Proof.
  intros Hr Hb El En. pose proof (r_b _ _ _ _ _ Hr) as Lb.
  pose proof (r_chain _ _ _ _ _ Hr i Hb) as Hch. pose proof (chain_nodup Hr i Hb) as Hnd.
  rewrite El in Hch, Hnd.
  pose proof (chain_unlink _ _ _ _ _ _ _ _ Hnd Hch En) as Hun. destruct (last l1) as [e|] eqn:E1.
  - destruct Hun as (x & Ex & Hun). cbn [fmap option_fmap option_map]. unfold ld_node. rewrite Ex.
    cbn [mbind res_bind]. do 2 eexists. split; [done|]. split; [done|]. split; [done|]. split; [done|].
    intros b Hbn. rewrite lookup_insert_ne; [done|]. intros <-. apply Hbn, list_elem_of_fmap.
    exists e. split; [done|]. by apply last_Some_elem_of.
  - cbn [fmap option_fmap option_map]. rewrite wr_ok by lia. cbn [mbind res_bind].
    do 2 eexists. split; [done|]. split; [by rewrite zlen_setz|].
    split; [by rewrite getz_setz_eq by lia|]. split; [|done].
    intros j Hj Hne. by rewrite getz_setz_ne by lia.
Qed.

(** The map after the node went from its bucket to the free list [c]. *)
Lemma erase_rep d map m bl fl ky i c l1 a p v l2 bs ns :
  rep d map m bl fl → m !! d ky = Some (p, v) → d p = d ky →
  0 <= i < N_BUCKETS → 0 <= c < N_BUCKETS → getz bl i = l1 ++ (a, p, v) :: l2 →
  zlen bs = N_BUCKETS → chain ns (getz bs i) (l1 ++ l2) →
  (∀ j, 0 <= j < N_BUCKETS → j ≠ i → getz bs j = getz (buckets map) j) →
  (∀ b, b ∉ addr <$> l1 → ns !! b = nodes map !! b) →
  rep d (mk_map (<[a:=mk_node (Some p) v (getz (free_lists map) c)]> ns) bs
           (setz (free_lists map) c (Some a)) (size_field map - 1) (key_equality map) (key_hash map))
    (delete (d ky) m) (setz bl i (l1 ++ l2)) (setz fl c (a :: getz fl c)).
Proof.
  intros Hr Hm Ed Hb Hc El Lbs Hcut Hbs Hns.
  pose proof (r_bl _ _ _ _ _ Hr) as Lbl. pose proof (r_fl _ _ _ _ _ Hr) as Lfl.
  pose proof (r_b _ _ _ _ _ Hr) as Lb. pose proof (r_f _ _ _ _ _ Hr) as Lf.
  pose proof (concat_uncons bl i l1 (a, p, v) l2 ltac:(lia) El) as Hpb.
  pose proof (concat_cons fl c a ltac:(lia)) as Hpf.
  pose proof (r_nodup _ _ _ _ _ Hr) as Hnd'. rewrite Hpb, fmap_cons in Hnd'. cbn [app] in Hnd'.
  apply NoDup_cons in Hnd' as [Ha Hnd']. change (addr (a, p, v)) with a in Ha. rewrite elem_of_app in Ha.
  assert (Hbl' : ∀ e j, 0 <= j < N_BUCKETS → e ∈ getz (setz bl i (l1 ++ l2)) j → addr e ≠ a).
  { intros e j Hj He Eae. apply Ha. left. apply list_elem_of_fmap. exists e. split; [done|].
    apply (getz_concat _ j); [by rewrite zlen_setz, Lbl|done]. }
  assert (Hfl' : ∀ b j, 0 <= j < N_BUCKETS → b ∈ getz fl j → b ≠ a).
  { intros b j Hj Hin ->. apply Ha. right. apply (getz_concat _ j); [by rewrite Lfl|done]. }
  (* the nodes that changed were on the chain of the bucket *)
  assert (Hfar : ∀ b, b ∈ concat fl → ns !! b = nodes map !! b).
  { intros b Hin. apply Hns. intros Hl1. apply list_elem_of_fmap in Hl1 as (e & -> & He).
    pose proof (r_nodup _ _ _ _ _ Hr) as Hall. apply NoDup_app in Hall as (_ & Hall & _).
    apply (Hall (addr e)); [|done]. apply list_elem_of_fmap. exists e. split; [done|].
    apply (getz_concat bl i); [lia|]. rewrite El. apply elem_of_app. by left. }
  assert (Hother : ∀ j e, 0 <= j < N_BUCKETS → j ≠ i → e ∈ getz bl j → ns !! addr e = nodes map !! addr e).
  { intros j e Hj Hne He. apply Hns. intros Hl1. apply list_elem_of_fmap in Hl1 as (e' & E' & He').
    assert (Hin' : e' ∈ concat bl).
    { apply (getz_concat bl i); [lia|]. rewrite El. apply elem_of_app. by left. }
    pose proof (r_nodup _ _ _ _ _ Hr) as Hall. apply NoDup_app in Hall as (Hall & _ & _).
    pose proof (NoDup_fmap_elem addr _ e e' Hall (getz_concat bl j e ltac:(lia) He) Hin' E') as ->.
    destruct e' as [[b k] u]. pose proof (r_bucket _ _ _ _ _ Hr j b k u Hj He) as E1.
    assert (E2 : map_get_bucket d map k = i).
    { apply (r_bucket _ _ _ _ _ Hr i b k u Hb). rewrite El. apply elem_of_app. by left. }
    congruence. }
  assert (Hkeys : NoDup (kv d <$> (a, p, v) :: concat (setz bl i (l1 ++ l2))).*1).
  { pose proof (r_keys _ _ _ _ _ Hr) as Hk'. by rewrite Hpb in Hk'. }
  assert (Hm' : delete (d ky) m = list_to_map (kv d <$> concat (setz bl i (l1 ++ l2)))).
  { rewrite (r_map _ _ _ _ _ Hr).
    rewrite (list_to_map_proper _ (kv d <$> (a, p, v) :: concat (setz bl i (l1 ++ l2))))
      by (apply Hr || by rewrite Hpb).
    rewrite fmap_cons in Hkeys |- *. change (kv d (a, p, v)) with (d p, (p, v)) in *.
    rewrite list_to_map_cons, Ed. rewrite delete_insert_id; [done|].
    apply not_elem_of_list_to_map_1. rewrite <- Ed. rewrite fmap_cons in Hkeys.
    by apply NoDup_cons in Hkeys as [? _]. }
  pose proof (map_size_delete_pos m (d ky) _ Hm) as Hsz'.
  split; cbn [key_equality buckets free_lists nodes size_field]; rewrite ?zlen_setz; try done.
  - apply Hr.
  - intros j Hj. apply (chain_frame ns).
    { intros b Hin. apply list_elem_of_fmap in Hin as (e & -> & He). rewrite lookup_insert_ne; [done|].
      intros Eae. by eapply Hbl'. }
    destruct (decide (j = i)) as [->|Hne]; [by rewrite getz_setz_eq by lia|].
    rewrite getz_setz_ne by lia. rewrite Hbs by done. eapply chain_frame; [|apply (r_chain _ _ _ _ _ Hr j Hj)].
    intros b Hin. apply list_elem_of_fmap in Hin as (e & -> & He). by apply (Hother j).
  - intros j Hj. assert (Hfree : free_chain (<[a:=mk_node (Some p) v (getz (free_lists map) c)]> ns)
      (getz (free_lists map) j) (getz fl j)).
    { eapply free_chain_frame; [|apply (r_free _ _ _ _ _ Hr j Hj)]. intros b Hin.
      rewrite lookup_insert_ne by (intros Eab; by eapply Hfl'). apply Hfar.
      apply (getz_concat fl j); [lia|done]. }
    destruct (decide (c = j)) as [<-|Hne]; [|by rewrite !getz_setz_ne by lia].
    rewrite !getz_setz_eq by lia. split; [done|]. eexists. rewrite lookup_insert_eq. by split.
  - intros j b k u Hj. destruct (decide (i = j)) as [<-|Hne].
    + rewrite getz_setz_eq by lia. intros Hin. apply (r_bucket _ _ _ _ _ Hr i b k u Hj).
      rewrite El. rewrite elem_of_app in *. rewrite elem_of_cons. tauto.
    + rewrite getz_setz_ne by lia. by apply (r_bucket _ _ _ _ _ Hr j b k u Hj).
  - rewrite Hpf. rewrite <- Permutation_middle. apply NoDup_cons. by rewrite elem_of_app.
  - pose proof (r_count _ _ _ _ _ Hr) as Hcount. unfold zlen in *.
    rewrite (Permutation_length Hpf). rewrite (Permutation_length Hpb) in Hcount. cbn [length] in *. lia.
  - rewrite fmap_cons in Hkeys. by apply NoDup_cons in Hkeys as [_ ?].
  - rewrite (r_size _ _ _ _ _ Hr). lia.
Qed.

Lemma erase_spec d map cap m ky p v :
  inv d map cap m → m !! d ky = Some (p, v) →
  ∃ map', c_map_erase d map ky = Ok (map', Some p) ∧ inv d map' cap (delete (d ky) m).
Proof.
  intros [Hcap Hsz (bl & fl & Hr)] Hm.
  pose proof (bucket_range (d := d) (map := map) ky) as Hb.
  unfold c_map_erase, map_get_node. set (i := map_get_bucket d map ky) in *.
  destruct (rep_find Hr ky p v Hm) as (a & l1 & l2 & El & Ed & Hk). fold i in El.
  destruct (rep_free_list Hr i) as (c & _ & _ & Ec & Hc & _); [rewrite <- (rep_size Hr); lia|].
  pose proof (r_chain _ _ _ _ _ Hr i Hb) as Hch. pose proof (chain_nodup Hr i Hb) as Hnd.
  rewrite El in Hch, Hnd.
  destruct (chain_mem _ _ _ a p v Hch) as [nx En]; [apply elem_of_app; right; by left|].
  pose proof (r_b _ _ _ _ _ Hr) as Lb. pose proof (r_f _ _ _ _ _ Hr) as Lf.
  rewrite rd_ok by lia. cbn [mbind res_bind].
  rewrite (get_node_present _ _ _ _ l1 a p v l2 _ Hk) by (done || by apply (r_eq _ _ _ _ _ Hr)).
  assert (Hld : ld_node (nodes map) a = Ok (mk_node (Some p) v nx)) by (unfold ld_node; by rewrite En).
  cbn [mbind res_bind ld_ptr]. rewrite Hld. cbn [mbind res_bind next key value].
  destruct (cut_bucket _ _ _ _ _ _ _ _ _ _ _ _ Hr Hb El En) as (bs & ns & Ecut & Lbs & Hcut & Hbs & Hns).
  rewrite Ecut, bind_Ok, Ec, bind_Ok.
  rewrite rd_ok by lia. rewrite bind_Ok. rewrite wr_ok by lia. rewrite bind_Ok.
  eexists. split; [reflexivity|].
  pose proof (map_size_delete_pos m (d ky) _ Hm). split; [done|lia|].
  exists (setz bl i (l1 ++ l2)), (setz fl c (a :: getz fl c)). by eapply erase_rep.
Qed.

Lemma full_erase d map m bl fl ky p v :
  rep d map m bl fl → Z.of_nat (size m) = N_BUCKETS * MAP_INITIAL_FREE_LIST_CAP →
  m !! d ky = Some (p, v) → c_map_erase d map ky = Err Exit.
Proof.
  intros Hr Hs Hm. pose proof (bucket_range (d := d) (map := map) ky) as Hb.
  unfold c_map_erase, map_get_node. set (i := map_get_bucket d map ky) in *.
  destruct (rep_find Hr ky p v Hm) as (a & l1 & l2 & El & Ed & Hk). fold i in El.
  pose proof (r_chain _ _ _ _ _ Hr i Hb) as Hch. pose proof (chain_nodup Hr i Hb) as Hnd.
  rewrite El in Hch, Hnd.
  destruct (chain_mem _ _ _ a p v Hch) as [nx En]; [apply elem_of_app; right; by left|].
  rewrite rd_ok by (by rewrite (r_b _ _ _ _ _ Hr)). cbn [mbind res_bind].
  rewrite (get_node_present _ _ _ _ l1 a p v l2 _ Hk) by (done || by apply (r_eq _ _ _ _ _ Hr)).
  assert (Hld : ld_node (nodes map) a = Ok (mk_node (Some p) v nx)) by (unfold ld_node; by rewrite En).
  cbn [mbind res_bind ld_ptr]. rewrite Hld. cbn [mbind res_bind next key value].
  destruct (cut_bucket _ _ _ _ _ _ _ _ _ _ _ _ Hr Hb El En) as (bs & ns & -> & _).
  by rewrite bind_Ok, (full_aborts _ _ _ _ _ _ Hr Hs).
Qed.

#[export] Program Instance MapBuckets_laws : MapLaws P K (Map P K) := {| mapp := inv |}.
Next Obligation. intros d map cap m key [_ _ (bl & fl & Hr)]. by eapply get_spec. Qed.
Next Obligation. intros d map cap m key v. apply put_spec. Qed.
Next Obligation. intros d map cap m key p v. apply erase_spec. Qed.
Next Obligation.
  intros d d' map cap m Hd [Hcap Hsz (bl & fl & Hr)]. split; [done..|]. exists bl, fl.
  assert (Hkv : kv d' <$> concat bl = kv d <$> concat bl).
  { apply list_fmap_ext. intros n [[a p] v] Hin. apply list_elem_of_lookup_2 in Hin. unfold kv. cbn.
    rewrite (Hd (d p) p v); [done|]. apply (rep_lookup Hr). by exists a. }
  destruct Hr as [? ? ? ? ? ? ? Hb ? ? ? ? ?]. split; rewrite ?Hkv; try done.
  intros i a k v Hi Hin. rewrite <- (Hb i a k v Hi Hin). unfold map_get_bucket.
  enough (d' k = d k) as -> by done.
  assert (Hin' : (a, k, v) ∈ concat bl) by (apply (getz_concat _ i); [congruence|done]).
  assert (E : kv d' (a, k, v) = kv d (a, k, v)).
  { apply list_elem_of_lookup in Hin' as [n Hn].
    assert (E1 : (kv d' <$> concat bl) !! n = (kv d <$> concat bl) !! n) by (by rewrite Hkv).
    rewrite !list_lookup_fmap, Hn in E1. cbn in E1. congruence. }
  by injection E.
Qed.
Next Obligation.
  intros d map cap m k p v [_ _ (bl & fl & Hr)] Hk. apply (rep_lookup Hr) in Hk as (a & _ & Ek). done.
Qed.

#[export] Instance MapBuckets_size_law : MapSizeLaw P K (Map P K).
Proof. intros d map cap m [_ _ (bl & fl & Hr)]. apply (r_size _ _ _ _ _ Hr). Qed.
End laws.

(** ** Allocation *)
Definition list_ptrs (l : Z) : list nptr := [(l, 0); (l, 1); (l, 2); (l, 3)].

Lemma frees_all bs n l1 l0 :
  NoDup bs → NoDup (l1 ++ l0) → bs ≡ₚ l1 → frees bs (mk_heap n (l1 ++ l0)) = Ok (mk_heap n l0).
Proof.
  revert l1. induction bs as [|b bs IH]; intros l1 Hbs Hnd Hp; cbn [frees].
  { apply Permutation_nil_l in Hp. by subst. }
  apply NoDup_cons in Hbs as [Hb Hbs]. assert (Hin : b ∈ l1) by (rewrite <- Hp; by left).
  apply list_elem_of_split in Hin as (l2 & l3 & ->).
  rewrite <- (assoc_L (++)) in Hnd |- *. cbn [app] in *.
  rewrite free_below by done. rewrite bind_Ok, (assoc_L (++)). apply IH; [done| |].
  - rewrite <- (assoc_L (++)). rewrite <- Permutation_middle in Hnd. by apply NoDup_cons in Hnd as [_ ?].
  - apply (Permutation_cons_inv (a := b)). by rewrite Hp, Permutation_middle.
Qed.

Section allocation.
Context {P K : Type}.
Implicit Types (ns : gmap nptr (MapNode P)).

Lemma init_free_list_spec ns l :
  ∃ ns', map_init_free_list (list_to_map (calloc_list l) ∪ ns) l = Ok ns' ∧
    free_chain ns' (Some (l, 0)) (list_ptrs l) ∧ (∀ a, a.1 ≠ l → ns' !! a = ns !! a).
Proof.
  unfold map_init_free_list. set (ns0 := list_to_map (calloc_list l) ∪ ns).
  assert (H0 : ∀ i, 0 <= i < 4 → ns0 !! (l, i) = Some (mk_node None 0 None)).
  { intros i Hi. unfold ns0. apply lookup_union_Some_l, elem_of_list_to_map_1.
    - unfold calloc_list. rewrite <- list_fmap_compose. apply (NoDup_fmap_2_strong _); [|apply NoDup_seqZ].
      by intros x y _ _ [= ->].
    - unfold calloc_list. apply list_elem_of_fmap. exists i. split; [done|].
      apply elem_of_seqZ. unfold MAP_INITIAL_FREE_LIST_CAP. lia. }
  assert (Hold : ∀ a, a.1 ≠ l → ns0 !! a = ns !! a).
  { intros a Ha. unfold ns0. apply lookup_union_r, not_elem_of_list_to_map_1.
    unfold calloc_list. rewrite <- list_fmap_compose. intros (j & -> & _)%list_elem_of_fmap. done. }
  clearbody ns0. change (Z.to_nat (MAP_INITIAL_FREE_LIST_CAP - 1)) with 3%nat. cbn [init_loop].
  change (0 + 1) with 1. change (1 + 1) with 2. change (2 + 1) with 3. unfold ld_node. rewrite H0 by lia. rewrite bind_Ok. cbn [key value].
  rewrite lookup_insert_ne by congruence. rewrite H0 by lia. rewrite bind_Ok. cbn [key value].
  rewrite !lookup_insert_ne by congruence. rewrite H0 by lia. rewrite bind_Ok. cbn [key value].
  eexists. split; [done|]. split.
  - cbn [free_chain list_ptrs].
    repeat (split; [done|]; eexists; split;
      [repeat first [rewrite lookup_insert_eq | rewrite lookup_insert_ne by congruence]; first [done|apply H0; lia]|cbn [next]]).
    done.
  - intros a Ha. rewrite !lookup_insert_ne by (intros <-; done). by apply Hold.
Qed.

Lemma allocate_lists_spec {R} ok (n : nat) l ns heads map_block fls (fail : R) k m l0 :
  zlen heads = N_BUCKETS → 0 <= l → l + Z.of_nat n = N_BUCKETS →
  (∀ j, 0 <= j < l → getz heads j = Some (j, 0) ∧ free_chain ns (Some (j, 0)) (list_ptrs j)) →
  NoDup (rev fls ++ map_block :: l0) → (∀ b, b ∈ rev fls ++ map_block :: l0 → (b < m)%nat) →
  let run := allocate_lists ok n l ns heads map_block fls fail k (mk_heap m (rev fls ++ map_block :: l0)) in
  (∃ ns' heads' bs h', run = k ns' heads' h' ∧ zlen heads' = N_BUCKETS ∧
     (∀ j, 0 <= j < N_BUCKETS → getz heads' j = Some (j, 0) ∧ free_chain ns' (Some (j, 0)) (list_ptrs j)) ∧
     length bs = n ∧ live h' = bs ++ rev fls ++ map_block :: l0 ∧ heap_wf h') ∨
  (∃ m', run = Ok (fail, mk_heap m' l0) ∧ ∃ r, ok r = false).
Proof.
  intros Hh Hl Hn Hj Hnd Hm. revert l ns heads fls m Hh Hl Hn Hj Hnd Hm.
  induction n as [|n IH]; intros l ns heads fls m Hh Hl Hn Hj Hnd Hm; cbn [allocate_lists].
  { left. exists ns, heads, [], (mk_heap m (rev fls ++ map_block :: l0)).
    split; [done|]. split; [done|]. split; [|done]. intros j ?. apply Hj. lia. }
  unfold malloc_or, malloc. cbn [next_block live]. destruct (ok m) eqn:Em.
  - destruct (init_free_list_spec ns l) as (ns' & -> & Hc & Hold). rewrite bind_Ok.
    rewrite wr_ok by lia. rewrite bind_Ok.
    destruct (IH (l + 1) ns' (setz heads l (Some (l, 0))) (fls ++ [m]) (S m))
      as [(ns1 & heads1 & bs & h1 & E & Hh1 & Hj1 & Hlen & Hlive & Hwf)|Hfail].
    + by rewrite zlen_setz.
    + lia.
    + lia.
    + intros j Hjr. destruct (decide (j = l)) as [->|Hne]; [by rewrite getz_setz_eq by (rewrite Hh; lia)|].
      rewrite getz_setz_ne; [|congruence|rewrite Hh; lia|lia]. destruct (Hj j) as [Eh Hf]; [lia|]. split; [done|].
      eapply free_chain_frame; [|exact Hf]. intros a Ha. apply Hold.
      unfold list_ptrs in Ha. rewrite !elem_of_cons, elem_of_nil in Ha.
      destruct Ha as [->|[->|[->|[->|[]]]]]; done.
    + rewrite rev_app_distr. cbn. apply NoDup_cons. split; [|done]. intros ?%Hm. lia.
    + rewrite rev_app_distr. cbn. intros b [->|?%Hm]%elem_of_cons; lia.
    + left. rewrite rev_app_distr in E, Hlive. cbn [rev app] in E, Hlive.
      exists ns1, heads1, (bs ++ [m]), h1. split; [done|]. split; [done|]. split; [done|].
      rewrite length_app, Hlen. cbn. split; [lia|]. rewrite <- (assoc_L (++)). done.
    + right. rewrite rev_app_distr in Hfail. exact Hfail.
  - right. exists (S m). split; [|by exists m].
    change (map_block :: l0) with ([map_block] ++ l0) in *. rewrite (assoc_L (++)) in Hnd |- *.
    assert (Hp : fls ++ [map_block] ≡ₚ rev fls ++ [map_block]) by (by rewrite <- Permutation_rev).
    rewrite frees_all; [done| |done|done].
    rewrite Hp. by apply NoDup_app in Hnd as [? _].
Qed.
End allocation.

Lemma list_ptrs_concat (ls : list Z) :
  zlen (concat (list_ptrs <$> ls)) = 4 * zlen ls ∧
  (∀ a, a ∈ concat (list_ptrs <$> ls) → a.1 ∈ ls) ∧
  (NoDup ls → NoDup (concat (list_ptrs <$> ls))).
Proof.
  induction ls as [|l ls (Hl & Hin & Hnd)]; [split; [done|split; [by intros a ?%elem_of_nil|constructor]]|].
  rewrite fmap_cons. cbn [concat]. split.
  { rewrite zlen_app, zlen_cons, Hl. change (zlen (list_ptrs l)) with 4. lia. }
  split.
  - intros a [Ha|Ha%Hin]%elem_of_app; [|by right]. unfold list_ptrs in Ha.
    rewrite !elem_of_cons, elem_of_nil in Ha. destruct Ha as [->|[->|[->|[->|[]]]]]; by left.
  - intros [Hn Hnd']%NoDup_cons. apply NoDup_app. split; [|split; [|auto]].
    + unfold list_ptrs.
      repeat (apply NoDup_cons; split; [rewrite ?elem_of_cons, ?elem_of_nil; naive_solver|]). constructor.
    + intros a Ha Ha'%Hin. unfold list_ptrs in Ha. rewrite !elem_of_cons, elem_of_nil in Ha.
      destruct Ha as [->|[->|[->|[->|[]]]]]; done.
Qed.

Lemma concat_nils {A} (n : nat) : concat (replicate n (@nil A)) = [].
Proof. by induction n. Qed.

Section claims.
Context {P K : Type} `{Countable K}.
Implicit Types (map : Map P K) (d : P → K).

(** The map that [map_allocate] builds: empty buckets and full free lists. *)
Lemma empty_rep keq kh d ns heads :
  (∀ k1 k2, keq k1 k2 = true ↔ k1 = k2) → zlen heads = N_BUCKETS →
  (∀ j, 0 <= j < N_BUCKETS → getz heads j = Some (j, 0) ∧ free_chain ns (Some (j, 0)) (list_ptrs j)) →
  rep d (mk_map ns (replicate (Z.to_nat N_BUCKETS) None) heads 0 keq kh) ∅
    (replicate (Z.to_nat N_BUCKETS) []) (list_ptrs <$> seqZ 0 N_BUCKETS).
Proof.
  intros Heq Lh Hj. assert (HN : 0 <= N_BUCKETS) by (rewrite N_BUCKETS_eq; lia).
  destruct (list_ptrs_concat (seqZ 0 N_BUCKETS)) as (Hl & _ & Hnd').
  pose proof (concat_nils (A := nptr * P * Z) (Z.to_nat N_BUCKETS)) as Enil.
  assert (Lseq : zlen (seqZ 0 N_BUCKETS) = N_BUCKETS).
  { unfold zlen. rewrite length_seqZ. exact (Z2Nat.id _ HN). }
  split; rewrite ?Enil; cbn [key_equality buckets free_lists nodes size_field].
  - exact Heq.
  - exact (zlen_replicate _ _ HN).
  - unfold zlen. rewrite length_fmap. exact Lseq.
  - exact (zlen_replicate _ _ HN).
  - exact Lh.
  - intros i Hi. rewrite !getz_replicate by exact Hi. reflexivity.
  - intros i Hi. destruct (Hj i Hi) as [-> Hf].
    assert (getz (list_ptrs <$> seqZ 0 N_BUCKETS) i = list_ptrs i) as ->; [|exact Hf].
    unfold getz. apply list_lookup_total_correct. rewrite list_lookup_fmap.
    rewrite lookup_seqZ_lt by lia. cbn. do 2 f_equal. lia.
  - intros i a k v Hi. rewrite getz_replicate by exact Hi. intros Hin. destruct (not_elem_of_nil _ Hin).
  - apply Hnd', NoDup_seqZ.
  - rewrite Hl, Lseq, zlen_nil. unfold MAP_INITIAL_FREE_LIST_CAP. lia.
  - constructor.
  - reflexivity.
  - reflexivity.
Qed.

Lemma allocate_rep ok keq kh capacity old h d :
  heap_wf h → (∀ k1 k2, keq k1 k2 = true ↔ k1 = k2) →
  (∃ map h' bl fl, map_allocate (P := P) (K := K) ok keq kh capacity old h = Ok ((1, Some map), h') ∧
     rep d map ∅ bl fl ∧ heap_wf h' ∧
     ∃ bs, length bs = S (Z.to_nat N_BUCKETS) ∧ live h' = bs ++ live h) ∨
  (∃ n, map_allocate ok keq kh capacity old h = Ok ((0, old), mk_heap n (live h)) ∧ ∃ r, ok r = false).
Proof.
  intros [Hnd Hb] Heq. destruct h as [m l0]. cbn [live next_block] in *.
  unfold map_allocate, malloc_or, malloc. cbn [live next_block].
  destruct (ok m) eqn:Em; [|right; exists (S m); split; [done|by exists m]].
  assert (HN : 0 <= N_BUCKETS) by (rewrite N_BUCKETS_eq; lia).
  pose proof (Z2Nat.id _ HN) as HN'. pose proof (zlen_replicate N_BUCKETS (@None nptr) HN) as Lnull.
  set (null := replicate (Z.to_nat N_BUCKETS) (@None nptr)) in *.
  pose proof (allocate_lists_spec (P := P) ok (Z.to_nat N_BUCKETS) 0 ∅ null m [] (0, old)
    (λ ns heads h, Ok ((1, Some (mk_map ns null heads 0 keq kh)), h)) (S m) l0) as Hs.
  cbn [rev app] in Hs. destruct Hs as [(ns & heads & bs & h' & E & Lh & Hj & Hlen & Hlive & Hwf)|Hfail].
  - exact Lnull.
  - exact (Z.le_refl 0).
  - rewrite HN'. lia.
  - lia.
  - apply NoDup_cons. split; [|exact Hnd]. intros ?%Hb. lia.
  - intros b [->|?%Hb]%elem_of_cons; lia.
  - left. exists (mk_map ns null heads 0 keq kh), h', (replicate (Z.to_nat N_BUCKETS) []),
      (list_ptrs <$> seqZ 0 N_BUCKETS).
    split; [exact E|]. split; [by apply empty_rep|]. split; [exact Hwf|].
    exists (bs ++ [m]). rewrite length_app, Hlen, Hlive. cbn [length]. split; [lia|].
    by rewrite <- (assoc_L (++)).
  - right. exact Hfail.
Qed.

(** [map_allocate] of [map-buckets.c] either makes an empty map of one block for the
    structure and one per free list, or, only if a request fails, gives back every
    block it had obtained. *)
Theorem buckets_allocate_no_leak ok keq kh capacity old h d cap :
  heap_wf h → (∀ k1 k2, keq k1 k2 = true ↔ k1 = k2) →
  0 <= cap < N_BUCKETS * MAP_INITIAL_FREE_LIST_CAP →
  (∃ map h', map_allocate (P := P) (K := K) ok keq kh capacity old h = Ok ((1, Some map), h') ∧
     inv d map cap ∅ ∧ heap_wf h' ∧
     ∃ bs, length bs = S (Z.to_nat N_BUCKETS) ∧ live h' = bs ++ live h) ∨
  (∃ n, map_allocate ok keq kh capacity old h = Ok ((0, old), mk_heap n (live h)) ∧ ∃ r, ok r = false).
Proof.
  intros Hwf Heq Hcap. destruct (allocate_rep ok keq kh capacity old h d Hwf Heq)
    as [(map & h' & bl & fl & E & Hr & Hwf' & Hbs)|Hf]; [left|by right].
  exists map, h'. split; [done|]. split; [|done]. split; [lia|rewrite map_size_empty; lia|by exists bl, fl].
Qed.

(** C38: A map that [map_allocate] of [map-buckets.c] makes, a table of linked lists
    whose nodes come from free lists, answers every sequence of lookups, insertions and
    removals that respects [map.h] as a finite map does, as long as at most 262143 keys
    (one less than there are nodes) are stored at a time: no pointer is followed that
    does not point to a node, and [abort] is not called. *)
Theorem buckets_run_correct ok keq kh capacity old h d map h' cap cs answers m' :
  heap_wf h → (∀ k1 k2, keq k1 k2 = true ↔ k1 = k2) →
  0 <= cap < N_BUCKETS * MAP_INITIAL_FREE_LIST_CAP →
  map_allocate (P := P) (K := K) ok keq kh capacity old h = Ok ((1, Some map), h') →
  spec_map d cap ∅ cs = Some (answers, m') →
  ∃ map', exec_map d map cs = Ok (answers, map') ∧ c_map_size map' = Z.of_nat (size m').
Proof.
  intros Hwf Heq Hcap E Es. destruct (allocate_rep ok keq kh capacity old h d Hwf Heq)
    as [(map1 & h1 & bl & fl & E1 & Hr & _)|(n & E1 & _)]; [|congruence].
  assert (map = map1) as -> by congruence.
  destruct (exec_map_spec (MapLaws0 := MapBuckets_laws) d cap cs map1 ∅ answers m') as (map' & Ex & Hm').
  { split; [lia|rewrite map_size_empty; lia|by exists bl, fl]. }
  { done. }
  exists map'. split; [done|]. exact (map_size_law d map' cap m' Hm').
Qed.
End claims.

(** Filling a map with the keys 0, 1, 2, ... *)
Definition fill (n : nat) : list (map_call Z) := (λ k, MapPut k k) <$> seqZ 0 (Z.of_nat n).

Lemma fill_S n : fill (S n) = fill n ++ [MapPut (Z.of_nat n) (Z.of_nat n)].
Proof.
  unfold fill. rewrite Nat2Z.inj_succ, <- Z.add_1_r, seqZ_app by lia. by rewrite fmap_app.
Qed.

Lemma exec_map_app {P K M} `{Countable K} `{!MapOps P K M} (d : P → K) (map : M) l ky v map' :
  exec_map d map l = Ok ([], map') →
  exec_map d map (l ++ [MapPut ky v]) =
  match map_put d map' ky v with Ok map' => Ok ([], map') | Err e => Err e end.
Proof.
  revert map. induction l as [|[k|k u|k] l IH]; intros map E; cbn [exec_map app] in *.
  - injection E as <-. by destruct (map_put _ _ _ _).
  - apply res_bind_Ok in E as (r & _ & E). apply res_bind_Ok in E as ([rs map1] & _ & E). done.
  - apply res_bind_Ok in E as (map1 & E1 & E). rewrite E1, bind_Ok. by apply IH.
  - apply res_bind_Ok in E as ([map1 t] & _ & E). apply res_bind_Ok in E as ([rs map2] & _ & E). done.
Qed.

Lemma fill_rep map0 bl fl n :
  rep (λ p, p) map0 ∅ bl fl → Z.of_nat n <= N_BUCKETS * MAP_INITIAL_FREE_LIST_CAP →
  ∃ (map : Map Z Z) m bl' fl', exec_map (λ p, p) map0 (fill n) = Ok ([], map) ∧
    rep (λ p, p) map m bl' fl' ∧ Z.of_nat (size m) = Z.of_nat n ∧
    ∀ k v, m !! k = Some v ↔ 0 <= k < Z.of_nat n ∧ v = (k, k).
Proof.
  intros Hr. induction n as [|n IH]; intros Hn.
  { exists map0, ∅, bl, fl. split; [reflexivity|]. split; [exact Hr|]. split; [reflexivity|].
    intros k v. rewrite lookup_empty. split; [discriminate|lia]. }
  destruct IH as (map & m & bl1 & fl1 & Ex & Hr1 & Hs & Hk); [lia|].
  assert (Hnone : m !! Z.of_nat n = None).
  { destruct (m !! Z.of_nat n) as [v|] eqn:Em; [|reflexivity]. apply Hk in Em as [? _]. lia. }
  destruct (put_rep (λ p, p) map m bl1 fl1 (Z.of_nat n) (Z.of_nat n) Hr1 Hnone)
    as (map' & bl' & fl' & Ep & Hr'); [lia|].
  exists map', (<[Z.of_nat n := (Z.of_nat n, Z.of_nat n)]> m), bl', fl'.
  split. { rewrite fill_S, (exec_map_app _ _ _ _ _ _ Ex).
    change (@map_put Z Z (Map Z Z) _) with (@c_map_put Z Z). by rewrite Ep. }
  split; [exact Hr'|]. split; [rewrite map_size_insert_None by exact Hnone; lia|].
  intros k v. rewrite lookup_insert_Some, Hk. split.
  - intros [[<- <-]|[? [? ->]]]; (split; [lia|exact eq_refl]).
  - intros [? ->]. destruct (decide (Z.of_nat n = k)) as [<-|Hne].
    + left. exact (conj eq_refl eq_refl).
    + right. split; [exact Hne|]. split; [lia|exact eq_refl].
Qed.

Lemma fill_full map0 bl fl n :
  rep (λ p, p) map0 ∅ bl fl → Z.of_nat n = N_BUCKETS * MAP_INITIAL_FREE_LIST_CAP → (0 < n)%nat →
  ∃ map : Map Z Z, exec_map (λ p, p) map0 (fill n) = Ok ([], map) ∧
    c_map_put (λ p, p) map (-1) 0 = Err Exit ∧ c_map_erase (λ p, p) map 0 = Err Exit.
Proof.
  intros Hr Hn Hpos. destruct (fill_rep map0 bl fl n Hr) as (map & m & bl' & fl' & Ex & Hr' & Hs & Hk); [lia|].
  rewrite Hn in Hs. exists map. split; [exact Ex|].
  split; [exact (full_put _ _ _ _ _ _ _ Hr' Hs)|].
  refine (full_erase _ _ _ _ _ 0 0 0 Hr' Hs _). apply Hk. split; [lia|reflexivity].
Qed.

(** Every node can be in use, although no capacity is checked: after 262144 insertions
    the next one aborts, and so does every removal. *)
Theorem buckets_full_aborts :
  ∃ (n : nat) (map0 map : Map Z Z) h,
    Z.of_nat n = N_BUCKETS * MAP_INITIAL_FREE_LIST_CAP ∧
    map_allocate (λ _, true) Z.eqb (λ k, k) 140000 None (mk_heap 0 []) = Ok ((1, Some map0), h) ∧
    exec_map (λ p, p) map0 (fill n) = Ok ([], map) ∧
    c_map_put (λ p, p) map (-1) 0 = Err Exit ∧ c_map_erase (λ p, p) map 0 = Err Exit.
Proof.
  destruct (allocate_rep (P := Z) (K := Z) (λ _, true) Z.eqb (λ k, k) 140000 None (mk_heap 0 []) (λ p, p))
    as [(map0 & h & bl & fl & E & Hr & _)|(n & _ & r & [=])]; [exact heap_wf_empty|exact Z.eqb_eq|].
  assert (∃ n : nat, Z.of_nat n = N_BUCKETS * MAP_INITIAL_FREE_LIST_CAP ∧ (0 < n)%nat) as (n & Hn & Hpos).
  { assert (HB : 0 < N_BUCKETS * MAP_INITIAL_FREE_LIST_CAP)
      by (rewrite N_BUCKETS_eq; unfold MAP_INITIAL_FREE_LIST_CAP; lia).
    revert HB. generalize (N_BUCKETS * MAP_INITIAL_FREE_LIST_CAP). intros z Hz.
    exists (Z.to_nat z). lia. }
  destruct (fill_full map0 bl fl n Hr Hn Hpos) as (map & Ex & Hput & Herase).
  exists n, map0, map, h. exact (conj Hn (conj E (conj Ex (conj Hput Herase)))).
Qed.

Lemma buckets_run_correct_witness :
  ∃ (map : Map Z Z) h' map',
    map_allocate (λ _, true) Z.eqb (λ k, k) 140000 None (mk_heap 0 []) = Ok ((1, Some map), h') ∧
    exec_map (λ p, p) map [MapPut 5 70; MapGet 5; MapErase 5; MapGet 5; MapPut 5 80; MapGet 5] =
      Ok ([inl (Some 70); inr (Some 5); inl None; inl (Some 80)], map') ∧ c_map_size map' = 1.
Proof.
  destruct (buckets_allocate_no_leak (P := Z) (K := Z) (λ _, true) Z.eqb (λ k, k) 140000 None
    (mk_heap 0 []) (λ p, p) 10) as [(map & h' & E & _)|(n & _ & r & [=])].
  { exact heap_wf_empty. } { exact Z.eqb_eq. } { rewrite N_BUCKETS_eq. unfold MAP_INITIAL_FREE_LIST_CAP. lia. }
  destruct (buckets_run_correct (P := Z) (K := Z) (λ _, true) Z.eqb (λ k, k) 140000 None
    (mk_heap 0 []) (λ p, p) map h' 10
    [MapPut 5 70; MapGet 5; MapErase 5; MapGet 5; MapPut 5 80; MapGet 5]
    [inl (Some 70); inr (Some 5); inl None; inl (Some 80)] {[5 := (5, 80)]}) as (map' & Ex & Hs).
  { exact heap_wf_empty. } { exact Z.eqb_eq. } { rewrite N_BUCKETS_eq. unfold MAP_INITIAL_FREE_LIST_CAP. lia. }
  { exact E. } { reflexivity. }
  exists map, h', map'. split; [exact E|]. split; [exact Ex|exact Hs].
Defined.
End MapBuckets.
