(* ===== verification/DynamicTable.v ===== *)
(** * The map of [map-dynamic-table.c]

    An implementation of the operations of [map.h] with chains, whose table doubles when a
    [map_put] walks past another key. A chain is the list of its mappings in the order of
    [next]; the block of a mapping is the one [malloc] returned for it. *)

From S2P Require Import Prelude.
From S2P Require Import Malloc.
From S2P Require Import MapSpec.
From S2P Require Import MapBuckets.

Module DynamicTable.

Definition NUM_COLLISIONS_FOR_RESIZE : Z := 1.

Record Mapping (P : Type) := mk_mapping { block : nat; key : P; value : Z }.
Arguments mk_mapping {P} _ _ _.
Arguments block {P} _.
Arguments key {P} _.
Arguments value {P} _.

Record Map (P K : Type) := mk_map {
  size : Z; table_block : nat; table : list (list (Mapping P)); keq : K → K → bool; khash : K → Z }.
Arguments mk_map {P K} _ _ _ _ _.
Arguments size {P K} _.
Arguments table_block {P K} _.
Arguments table {P K} _.
Arguments keq {P K} _.
Arguments khash {P K} _.

Section ops.
Context {P K : Type} (ok : nat → bool).
Implicit Types (map : Map P K) (d : P → K) (k : P) (v : Z) (h : heap) (chain : list (Mapping P)).

(** The result, [*map_out] with its block, and the heap. *)
Definition map_allocate (eq : K → K → bool) (hash : K → Z) (capacity : Z)
    (map_out : option (nat * Map P K)) h : res ((Z * option (nat * Map P K)) * heap) :=
  if negb (0 <? capacity) then Ok ((0, map_out), h)
  else
    malloc_or ok [] (0, None) (λ b, malloc_or ok [b] (0, None) (λ t h,
      Ok ((1, Some (b, mk_map capacity t (replicate (Z.to_nat capacity) []) eq hash)), h))) h.

Definition with_table map (t : list (list (Mapping P))) : Map P K :=
  mk_map (size map) (table_block map) t (keq map) (khash map).

Definition bucket d map k : Z := Z.land (khash map (d k)) (size map - 1).

(** The chain with the new value, if it has the key, and the number of mappings before. *)
Fixpoint put_loop (eq : K → K → bool) d k v chain (num_collisions : Z) : option (list (Mapping P)) * Z :=
  match chain with
  | [] => (None, num_collisions)
  | mapping :: next =>
      if eq (d k) (d (key mapping))
      then (Some (mk_mapping (block mapping) (key mapping) v :: next), num_collisions)
      else let '(r, n) := put_loop eq d k v next (num_collisions + 1) in (cons mapping <$> r, n)
  end.

Definition map_put_internal d map k v h : res (Z * Map P K * heap) :=
  let bucket := bucket d map k in
  chain ← rd (table map) bucket;
  let '(found, num_collisions) := put_loop (keq map) d k v chain 0 in
  match found with
  | Some chain => t ← wr (table map) bucket chain; Ok (num_collisions, with_table map t, h)
  | None =>
      match malloc ok h with
      | (None, _) => Err AssertFail
      | (Some b, h) =>
          t ← wr (table map) bucket (mk_mapping b k v :: chain);
          Ok (num_collisions, with_table map t, h)
      end
  end.

Fixpoint erase_loop (eq : K → K → bool) d k chain : option (Mapping P * list (Mapping P)) :=
  match chain with
  | [] => None
  | mapping :: next =>
      if eq (d k) (d (key mapping)) then Some (mapping, next)
      else '(old, rest) ← erase_loop eq d k next; Some (old, mapping :: rest)
  end.

(** What is stored to [*trash] if [trash] is not null. *)
Definition map_erase d map k h : res (Map P K * option P * heap) :=
  let bucket := bucket d map k in
  chain ← rd (table map) bucket;
  match erase_loop (keq map) d k chain with
  | None => Ok (map, None, h)
  | Some (old_mapping, chain) =>
      t ← wr (table map) bucket chain;
      h ← free (block old_mapping) h;
      Ok (with_table map t, Some (key old_mapping), h)
  end.

Fixpoint get_loop (eq : K → K → bool) d k chain : option Z :=
  match chain with
  | [] => None
  | mapping :: next => if eq (d k) (d (key mapping)) then Some (value mapping) else get_loop eq d k next
  end.

Definition map_get d map k : res (option Z) :=
  chain ← rd (table map) (bucket d map k); Ok (get_loop (keq map) d k chain).

(** The mappings of bucket [i], one after the other; each step erases one, so there are as
    many steps as mappings. *)
Fixpoint move_bucket (fuel : nat) d map new_map (i : Z) h : res (Map P K * Map P K * heap) :=
  chain ← rd (table map) i;
  match chain, fuel with
  | [], _ => Ok (map, new_map, h)
  | _, O => Err NoFuel
  | mapping :: _, S fuel =>
      '(_, new_map, h) ← map_put_internal d new_map (key mapping) (value mapping) h;
      '(map, _, h) ← map_erase d map (key mapping) h;
      move_bucket fuel d map new_map i h
  end.

Fixpoint move_buckets (n : nat) d map new_map (i : Z) h : res (Map P K * Map P K * heap) :=
  match n with
  | O => Ok (map, new_map, h)
  | S n =>
      chain ← rd (table map) i;
      '(map, new_map, h) ← move_bucket (length chain) d map new_map i h;
      move_buckets n d map new_map (i + 1) h
  end.

(** The table of [map] is not released. *)
Definition map_embiggen d map h : res (Map P K * heap) :=
  '((result, new_map), h) ← map_allocate (keq map) (khash map) (i32 (size map * 2)) None h;
  match new_map with
  | Some (b, new_map) =>
      '(map, new_map, h) ← move_buckets (Z.to_nat (size map)) d map new_map 0 h;
      h ← free b h;
      Ok (new_map, h)
  | None => Err AssertFail
  end.

Definition map_put d map k v h : res (Map P K * heap) :=
  '(num_collisions, map, h) ← map_put_internal d map k v h;
  if NUM_COLLISIONS_FOR_RESIZE <=? num_collisions then map_embiggen d map h else Ok (map, h).

(** ** Runs *)
Fixpoint exec d map h (cs : list (map_call P)) : res (list (option Z + option P) * Map P K * heap) :=
  match cs with
  | [] => Ok ([], map, h)
  | MapGet k :: cs =>
      r ← map_get d map k; '(rs, map, h) ← exec d map h cs; Ok (inl r :: rs, map, h)
  | MapPut k v :: cs => '(map, h) ← map_put d map k v h; exec d map h cs
  | MapErase k :: cs =>
      '(map, trash, h) ← map_erase d map k h;
      '(rs, map, h) ← exec d map h cs; Ok (inr trash :: rs, map, h)
  end.
End ops.

(** The same calls on a finite map. The pointer of a key is the one it was first put with. *)
Section spec.
Context {P K : Type} `{Countable K}.
Implicit Types (d : P → K) (m : gmap K (P * Z)).

Definition spec_put d m (k : P) (v : Z) : gmap K (P * Z) :=
  <[d k := (match m !! d k with Some (p, _) => p | None => k end, v)]> m.

Fixpoint spec_run d m (cs : list (map_call P)) : list (option Z + option P) * gmap K (P * Z) :=
  match cs with
  | [] => ([], m)
  | MapGet k :: cs => let '(rs, m') := spec_run d m cs in (inl (snd <$> m !! d k) :: rs, m')
  | MapPut k v :: cs => spec_run d (spec_put d m k v) cs
  | MapErase k :: cs =>
      let '(rs, m') := spec_run d (delete (d k) m) cs in (inr (fst <$> m !! d k) :: rs, m')
  end.
End spec.

(** ** Blocks *)
(** The blocks [bs] are in use, and are different. *)
Definition owns (bs : list nat) (h : heap) : Prop := heap_wf h ∧ NoDup bs ∧ bs ⊆ live h.

Lemma owns_perm bs bs' h : bs ≡ₚ bs' → owns bs h → owns bs' h.
Proof. intros Hp (? & ? & ?). split; [done|]. by rewrite <- Hp. Qed.

Lemma owns_malloc ok bs h b h' : owns bs h → malloc ok h = (Some b, h') → owns (b :: bs) h'.
Proof.
  intros ([Hnd Hb] & Hn & Hs). unfold malloc. case_match; [|done]. intros [= <- <-].
  assert (Hf : next_block h ∉ live h) by (intros ?%Hb; lia).
  split; [split; cbn|split].
  - by constructor.
  - intros b [->|?%Hb]%elem_of_cons; lia.
  - constructor; [|done]. intros ?%Hs. done.
  - set_solver.
Qed.

Lemma owns_malloc_none ok bs h h' : owns bs h → malloc ok h = (None, h') → owns bs h'.
Proof.
  intros ([Hnd Hb] & Hn & Hs). unfold malloc. case_match; [done|]. intros [= <-].
  split; [split; [done|]|done]. cbn. intros b ?%Hb. lia.
Qed.

Lemma owns_free b bs h : owns (b :: bs) h → ∃ h', free b h = Ok h' ∧ owns bs h'.
Proof.
  intros ([Hnd Hb] & [Hn Hn']%NoDup_cons & Hs). unfold free. rewrite decide_True by (apply Hs; by left).
  eexists. split; [done|]. split; [split; cbn|split; [done|cbn]].
  - by apply NoDup_filter.
  - intros x [_ ?%Hb]%list_elem_of_filter. done.
  - intros x Hx. apply list_elem_of_filter. split; [by intros ->|]. apply Hs. by right.
Qed.

(** ** Chains *)
Section loops.
Context {P K : Type} (eq : K → K → bool).
Hypothesis Heq : ∀ k1 k2, eq k1 k2 = true ↔ k1 = k2.
Implicit Types (d : P → K) (k : P) (l chain : list (Mapping P)).

Definition other d k l : Prop := ∀ x, x ∈ l → d (key x) ≠ d k.

Lemma eq_other d k x l : other d k (x :: l) → eq (d k) (d (key x)) = false ∧ other d k l.
Proof.
  intros Ho. split; [|intros y Hy; apply Ho; by right].
  apply not_true_iff_false. rewrite Heq. intros E. apply (Ho x); [by left|done].
Qed.

Lemma put_loop_absent d k v l n : other d k l → put_loop eq d k v l n = (None, n + zlen l).
Proof.
  revert n. induction l as [|x l IH]; intros n Ho; cbn [put_loop]; [by rewrite Z.add_0_r|].
  apply eq_other in Ho as [-> Ho]. rewrite IH by done. rewrite zlen_cons. cbn. f_equal. lia.
Qed.

Lemma put_loop_present d k v l1 x l2 n :
  other d k l1 → d (key x) = d k →
  put_loop eq d k v (l1 ++ x :: l2) n =
    (Some (l1 ++ mk_mapping (block x) (key x) v :: l2), n + zlen l1).
Proof.
  revert n. induction l1 as [|y l1 IH]; intros n Ho Hx; cbn [put_loop app].
  - rewrite (proj2 (Heq _ _)) by done. by rewrite Z.add_0_r.
  - apply eq_other in Ho as [-> Ho]. rewrite IH by done. rewrite zlen_cons. cbn. f_equal. lia.
Qed.

Lemma erase_loop_absent d k l : other d k l → erase_loop eq d k l = None.
Proof.
  induction l as [|x l IH]; intros Ho; cbn [erase_loop]; [done|].
  apply eq_other in Ho as [-> Ho]. by rewrite IH.
Qed.

Lemma erase_loop_present d k l1 x l2 :
  other d k l1 → d (key x) = d k → erase_loop eq d k (l1 ++ x :: l2) = Some (x, l1 ++ l2).
Proof.
  induction l1 as [|y l1 IH]; intros Ho Hx; cbn [erase_loop app].
  - by rewrite (proj2 (Heq _ _)).
  - apply eq_other in Ho as [-> Ho]. by rewrite IH.
Qed.

Lemma get_loop_absent d k l : other d k l → get_loop eq d k l = None.
Proof.
  induction l as [|x l IH]; intros Ho; cbn [get_loop]; [done|].
  apply eq_other in Ho as [-> Ho]. by apply IH.
Qed.

Lemma get_loop_present d k l1 x l2 :
  other d k l1 → d (key x) = d k → get_loop eq d k (l1 ++ x :: l2) = Some (value x).
Proof.
  induction l1 as [|y l1 IH]; intros Ho Hx; cbn [get_loop app].
  - by rewrite (proj2 (Heq _ _)).
  - apply eq_other in Ho as [-> Ho]. by apply IH.
Qed.
End loops.

(** ** Tables *)
Section tables.
Context {P K : Type} `{Countable K}.
Implicit Types (map : Map P K) (d : P → K) (e : list (Mapping P)) (m : gmap K (P * Z)).

Definition kv d (x : Mapping P) : K * (P * Z) := (d (key x), (key x, value x)).

(** [e] are the mappings of the table, in any order. *)
Record rep d map e : Prop := {
  r_eq : ∀ k1 k2, keq map k1 k2 = true ↔ k1 = k2;
  r_size : 0 < size map < 2 ^ 31;
  r_len : zlen (table map) = size map;
  r_perm : concat (table map) ≡ₚ e;
  r_bucket : ∀ i x, 0 <= i < size map → x ∈ getz (table map) i → bucket d map (key x) = i;
  r_keys : NoDup ((λ x, d (key x)) <$> e)
}.

Lemma bucket_bound d map k : 0 < size map → 0 <= bucket d map k < size map.
Proof.
  intros Hs. unfold bucket. pose proof (Z.land_nonneg (khash map (d k)) (size map - 1)).
  set (a := khash map (d k)) in *. set (b := size map - 1) in *.
  assert (E : Z.ldiff (Z.land a b) b = 0).
  { apply Z.bits_inj'. intros n _. rewrite Z.ldiff_spec, Z.land_spec, Z.bits_0. by destruct (Z.testbit a n), (Z.testbit b n). }
  apply Z.sub_nocarry_ldiff in E. pose proof (proj2 (Z.ldiff_nonneg b (Z.land a b)) ltac:(left; lia)). lia.
Qed.

Definition chain_of d map (k : P) : list (Mapping P) := getz (table map) (bucket d map k).
Definition with_chain d map (k : P) (l : list (Mapping P)) : Map P K :=
  with_table map (setz (table map) (bucket d map k) l).

Section rep_facts.
Context {d : P → K} {map : Map P K} {e : list (Mapping P)}.
Hypothesis Hr : rep d map e.

Lemma rep_bound k : 0 <= bucket d map k < zlen (table map).
Proof. rewrite (r_len _ _ _ Hr). apply bucket_bound, (r_size _ _ _ Hr). Qed.

Lemma rep_rd k : rd (table map) (bucket d map k) = Ok (chain_of d map k).
Proof. apply rd_ok, rep_bound. Qed.

Lemma rep_chain_elem k x : x ∈ chain_of d map k → x ∈ e.
Proof. intros Hx. rewrite <- (r_perm _ _ _ Hr). eapply MapBuckets.getz_concat; [apply rep_bound|done]. Qed.

Lemma rep_other k : other d k e → other d k (chain_of d map k).
Proof. intros Ho x Hx. by apply Ho, rep_chain_elem with k. Qed.

Lemma rep_split k x : x ∈ e → d (key x) = d k → ∃ l1 l2, chain_of d map k = l1 ++ x :: l2 ∧ other d k l1.
Proof.
  intros Hx Ek. rewrite <- (r_perm _ _ _ Hr) in Hx. apply MapBuckets.concat_getz in Hx as (i & Hi & Hx).
  rewrite (r_len _ _ _ Hr) in Hi. pose proof (r_bucket _ _ _ Hr i x Hi Hx) as Eb.
  assert (Ec : getz (table map) i = chain_of d map k) by (unfold chain_of; rewrite <- Eb; unfold bucket; by rewrite Ek).
  rewrite Ec in Hx. apply list_elem_of_split in Hx as (l1 & l2 & El). exists l1, l2. split; [done|].
  intros y Hy Ey. pose proof (r_keys _ _ _ Hr) as Hn. rewrite <- (r_perm _ _ _ Hr) in Hn.
  rewrite <- (app_nil_r (concat _)), <- (MapBuckets.concat_setz (table map) i []) in Hn
    by by rewrite (r_len _ _ _ Hr).
  rewrite Ec, El, !fmap_app, fmap_cons in Hn. apply NoDup_app in Hn as (_ & _ & Hn).
  apply NoDup_app in Hn as (_ & Hn & _). apply (Hn (d k)); rewrite ?Ek; [|by left].
  rewrite <- Ey. apply list_elem_of_fmap. by exists y.
Qed.

(** A new chain for one bucket. *)
Lemma rep_set k l e' :
  e ++ l ≡ₚ e' ++ chain_of d map k → (∀ x, x ∈ l → bucket d map (key x) = bucket d map k) →
  NoDup ((λ x, d (key x)) <$> e') →
  wr (table map) (bucket d map k) l = Ok (setz (table map) (bucket d map k) l) ∧
  rep d (with_chain d map k l) e'.
Proof.
  intros Hp Hb Hn. split; [apply wr_ok, rep_bound|]. pose proof (rep_bound k) as Hk.
  constructor; cbn [with_chain with_table size table keq]; [apply Hr|apply Hr| | | |done].
  - rewrite zlen_setz. apply Hr.
  - pose proof (MapBuckets.concat_setz (table map) _ l Hk) as E. rewrite (r_perm _ _ _ Hr), Hp in E.
    by apply Permutation_app_inv_r in E.
  - intros i x Hi Hx. change (bucket d (with_chain d map k l) (key x)) with (bucket d map (key x)).
    destruct (decide (i = bucket d map k)) as [->|Hne].
    + rewrite getz_setz_eq in Hx by done. by apply Hb.
    + rewrite getz_setz_ne in Hx by (done || lia). by apply (r_bucket _ _ _ Hr).
Qed.

Lemma chain_bucket k x : x ∈ chain_of d map k → bucket d map (key x) = bucket d map k.
Proof. apply (r_bucket _ _ _ Hr), bucket_bound, (r_size _ _ _ Hr). Qed.
End rep_facts.

(** ** The operations *)
Section specs.
Context (ok : nat → bool).
Implicit Types (k : P) (v : Z) (h : heap).

Lemma keys_cons d k x e :
  d (key x) = d k → other d k e → NoDup ((λ x, d (key x)) <$> e) → NoDup ((λ x, d (key x)) <$> x :: e).
Proof.
  intros Ek Ho Hn. rewrite fmap_cons. apply NoDup_cons. split; [|done].
  intros (y & E & Hy)%list_elem_of_fmap. apply (Ho y Hy). congruence.
Qed.

Lemma put_new_spec d map e k v h :
  rep d map e → other d k e →
  match malloc ok h with
  | (None, _) => map_put_internal ok d map k v h = Err AssertFail
  | (Some b, h') =>
      let map' := with_chain d map k (mk_mapping b k v :: chain_of d map k) in
      map_put_internal ok d map k v h = Ok (zlen (chain_of d map k), map', h') ∧
      rep d map' (mk_mapping b k v :: e)
  end.
Proof.
  intros Hr Ho. unfold map_put_internal. cbv zeta. rewrite (rep_rd Hr), bind_Ok.
  rewrite (put_loop_absent _ (r_eq _ _ _ Hr)) by by apply (rep_other Hr). cbv beta iota.
  destruct (malloc ok h) as [[b|] h']; [|done].
  destruct (rep_set Hr k (mk_mapping b k v :: chain_of d map k) (mk_mapping b k v :: e)) as [Ew Hr'].
  - by rewrite <- Permutation_middle.
  - by intros x [->|Hx%(chain_bucket Hr)]%elem_of_cons.
  - apply (keys_cons _ k); [done|done|apply Hr].
  - change (getz (table map) (bucket d map k)) with (chain_of d map k). rewrite Ew, bind_Ok. done.
Qed.

Lemma put_known_spec d map e k v h x e' :
  rep d map e → e ≡ₚ x :: e' → d (key x) = d k →
  ∃ n l, 0 <= n ∧ let map' := with_chain d map k l in
    map_put_internal ok d map k v h = Ok (n, map', h) ∧ rep d map' (mk_mapping (block x) (key x) v :: e').
Proof.
  intros Hr Hp Ek. destruct (rep_split Hr k x) as (l1 & l2 & El & Ho); [rewrite Hp; by left|done|].
  exists (zlen l1), (l1 ++ mk_mapping (block x) (key x) v :: l2). split; [apply zlen_nonneg|].
  unfold map_put_internal. cbv zeta. rewrite (rep_rd Hr), bind_Ok, El.
  rewrite (put_loop_present _ (r_eq _ _ _ Hr)) by done. cbv beta iota.
  destruct (rep_set Hr k (l1 ++ mk_mapping (block x) (key x) v :: l2) (mk_mapping (block x) (key x) v :: e'))
    as [Ew Hr'].
  - rewrite El, Hp, <- !Permutation_middle. cbn [app]. rewrite Permutation_swap. by do 2 apply Permutation_skip.
  - assert (Hx : bucket d map (key x) = bucket d map k).
    { apply (chain_bucket Hr). rewrite El. apply elem_of_app. right. by left. }
    intros y [Hy|[->|Hy]%elem_of_cons]%elem_of_app; [|done|]; apply (chain_bucket Hr); rewrite El;
      apply elem_of_app; [by left|right; by right].
  - pose proof (r_keys _ _ _ Hr) as Hn. by rewrite Hp in Hn.
  - rewrite Ew, bind_Ok. done.
Qed.

Lemma erase_known_spec d map e k h x e' :
  rep d map e → e ≡ₚ x :: e' → d (key x) = d k →
  ∃ l1 l2, chain_of d map k = l1 ++ x :: l2 ∧ other d k l1 ∧
    map_erase d map k h = (h ← free (block x) h; Ok (with_chain d map k (l1 ++ l2), Some (key x), h)) ∧
    rep d (with_chain d map k (l1 ++ l2)) e'.
Proof.
  intros Hr Hp Ek. destruct (rep_split Hr k x) as (l1 & l2 & El & Ho); [rewrite Hp; by left|done|].
  exists l1, l2. split; [done|]. split; [done|].
  unfold map_erase. cbv zeta. rewrite (rep_rd Hr), bind_Ok, El.
  rewrite (erase_loop_present _ (r_eq _ _ _ Hr)) by done. cbv beta iota.
  destruct (rep_set Hr k (l1 ++ l2) e') as [Ew Hr'].
  - rewrite El, Hp, <- Permutation_middle. cbn [app]. by rewrite Permutation_middle.
  - intros y Hy. apply (chain_bucket Hr). rewrite El. apply elem_of_app.
    apply elem_of_app in Hy as [Hy|Hy]; [by left|right; by right].
  - pose proof (r_keys _ _ _ Hr) as Hn. rewrite Hp in Hn. by apply NoDup_cons in Hn as [_ Hn].
  - rewrite Ew, bind_Ok. done.
Qed.

Lemma erase_unknown_spec d map e k h :
  rep d map e → other d k e → map_erase d map k h = Ok (map, None, h).
Proof.
  intros Hr Ho. unfold map_erase. cbv zeta. rewrite (rep_rd Hr), bind_Ok.
  by rewrite (erase_loop_absent _ (r_eq _ _ _ Hr)) by by apply (rep_other Hr).
Qed.

(** The finite map of the mappings. *)
Definition m_of d e : gmap K (P * Z) := list_to_map (kv d <$> e).

Lemma kv_keys d e : (kv d <$> e).*1 = (λ x, d (key x)) <$> e.
Proof. by rewrite <- list_fmap_compose. Qed.

Lemma m_of_perm d e e' : NoDup ((λ x, d (key x)) <$> e) → kv d <$> e ≡ₚ kv d <$> e' → m_of d e = m_of d e'.
Proof. intros Hn Hp. unfold m_of. apply list_to_map_proper; [by rewrite kv_keys|done]. Qed.

Lemma m_of_other d k e : other d k e → m_of d e !! d k = None.
Proof.
  intros Ho. apply not_elem_of_list_to_map_1. rewrite kv_keys.
  intros (x & E & Hx)%list_elem_of_fmap. by apply (Ho x Hx).
Qed.

Lemma known_or_other d k e : other d k e ∨ ∃ x e', e ≡ₚ x :: e' ∧ d (key x) = d k.
Proof.
  destruct (decide (Exists (λ x, d (key x) = d k) e)) as [Hx|Hn].
  - right. apply Exists_exists in Hx as (x & Hx & E). apply list_elem_of_split in Hx as (l1 & l2 & ->).
    exists x, (l1 ++ l2). split; [by rewrite Permutation_middle|done].
  - left. intros x Hx E. apply Hn, Exists_exists. by exists x.
Qed.

Lemma dyn_get_spec d map e k : rep d map e → map_get d map k = Ok (snd <$> m_of d e !! d k).
Proof.
  intros Hr. unfold map_get. rewrite (rep_rd Hr), bind_Ok. f_equal.
  destruct (known_or_other d k e) as [Ho|(x & e' & Hp & Ek)].
  - rewrite m_of_other by done. by rewrite (get_loop_absent _ (r_eq _ _ _ Hr)) by by apply (rep_other Hr).
  - destruct (rep_split Hr k x) as (l1 & l2 & -> & Ho); [rewrite Hp; by left|done|].
    rewrite (get_loop_present _ (r_eq _ _ _ Hr)) by done.
    rewrite (m_of_perm _ e (x :: e')) by (apply Hr || by rewrite Hp). cbn. rewrite Ek. by rewrite lookup_insert_eq.
Qed.

(** What the operations keep. *)
Definition same map map' : Prop :=
  size map' = size map ∧ table_block map' = table_block map ∧ keq map' = keq map ∧ khash map' = khash map.

(** ** Doubling *)
Section moves.
Context (d : P → K) (F : list nat).

(** Two tables that share the mappings. *)
Record pair map new_map e1 e2 h : Prop := {
  p_old : rep d map e1;
  p_new : rep d new_map e2;
  p_keys : NoDup ((λ x, d (key x)) <$> e1 ++ e2);
  p_owns : owns (F ++ (block <$> e1 ++ e2)) h
}.

Lemma move_step map new_map e1 e2 h i x next :
  pair map new_map e1 e2 h → 0 <= i < size map → getz (table map) i = x :: next →
  (map_put_internal ok d new_map (key x) (value x) h = Err AssertFail ∧ ∃ r, ok r = false) ∨
  ∃ n new' h1 h2 e1' e2', map_put_internal ok d new_map (key x) (value x) h = Ok (n, new', h1) ∧
    map_erase d map (key x) h1 = Ok (with_table map (setz (table map) i next), Some (key x), h2) ∧
    pair (with_table map (setz (table map) i next)) new' e1' e2' h2 ∧ same new_map new' ∧
    (kv d <$> e1' ++ e2') ≡ₚ (kv d <$> e1 ++ e2).
Proof.
  intros [Hr1 Hr2 Hk Ho] Hi Hc.
  assert (Hb : bucket d map (key x) = i) by (apply (r_bucket _ _ _ Hr1); [done|rewrite Hc; by left]).
  assert (Ec : chain_of d map (key x) = x :: next) by (unfold chain_of; by rewrite Hb).
  assert (Hx : x ∈ e1) by (apply (rep_chain_elem Hr1 (key x)); rewrite Ec; by left).
  apply list_elem_of_split in Hx as (la & lb & He). assert (Hp : e1 ≡ₚ x :: la ++ lb) by (rewrite He; by rewrite Permutation_middle).
  clear He. revert Hp. generalize (la ++ lb). intros e1' Hp.
  assert (Hk' : NoDup ((λ x, d (key x)) <$> x :: e1' ++ e2)) by by rewrite app_comm_cons, <- Hp.
  assert (Hoth : other d (key x) e2).
  { intros y Hy E. rewrite fmap_cons in Hk'. apply NoDup_cons in Hk' as [Hk' _]. apply Hk'.
    rewrite <- E. apply list_elem_of_fmap. exists y. split; [done|]. apply elem_of_app. by right. }
  pose proof (put_new_spec d new_map e2 (key x) (value x) h Hr2 Hoth) as Hput.
  destruct (malloc ok h) as [[b|] h1] eqn:Em.
  2:{ left. split; [done|]. unfold malloc in Em. destruct (ok (next_block h)) eqn:Eo; [done|by eexists]. }
  right. destruct Hput as [Eput Hr2'].
  destruct (erase_known_spec d map e1 (key x) h1 x e1' Hr1 Hp eq_refl) as (l1 & l2 & El & Hol & Eer & Hr1').
  assert (l1 = [] ∧ l2 = next) as [-> ->].
  { rewrite Ec in El. destruct l1 as [|y l1]; cbn [app] in El; [split; congruence|]. exfalso.
    apply (Hol y); [by left|congruence]. }
  pose proof (owns_malloc ok _ _ _ _ Ho Em) as Ho'.
  destruct (owns_free (block x) (F ++ (block <$> e1' ++ mk_mapping b (key x) (value x) :: e2)) h1) as (h2 & Ef & Ho2).
  { eapply owns_perm; [|exact Ho']. rewrite Hp, !fmap_app, !fmap_cons. cbn [block app].
    rewrite <- (Permutation_middle (block <$> e1') _ b), <- (Permutation_middle F _ b).
    rewrite <- (Permutation_middle F _ (block x)). apply Permutation_swap. }
  rewrite Ef in Eer. cbn [app] in *. unfold with_chain in Eer, Hr1'. rewrite Hb in Eer, Hr1'.
  do 6 eexists. split; [exact Eput|]. split; [exact Eer|].
  assert (Ekv : (kv d <$> e1' ++ mk_mapping b (key x) (value x) :: e2) ≡ₚ (kv d <$> e1 ++ e2)).
  { rewrite Hp. cbn [app]. rewrite <- Permutation_middle. done. }
  split; [|split; [done|exact Ekv]]. constructor; [done|done| |done].
  rewrite <- kv_keys, Ekv, kv_keys. done.
Qed.

Lemma with_table_id map i : 0 <= i < zlen (table map) → getz (table map) i = [] →
  with_table map (setz (table map) i []) = map.
Proof.
  intros Hi E. destruct map as [sz tb t q kh]. unfold with_table. cbn in *. f_equal. rewrite <- E. by apply setz_getz.
Qed.

Lemma same_trans map1 map2 map3 : same map1 map2 → same map2 map3 → same map1 map3.
Proof. unfold same. intuition congruence. Qed.

Lemma move_bucket_spec fuel map new_map e1 e2 h i :
  pair map new_map e1 e2 h → 0 <= i < size map → (length (getz (table map) i) <= fuel)%nat →
  (move_bucket ok fuel d map new_map i h = Err AssertFail ∧ ∃ r, ok r = false) ∨
  ∃ new' h' e1' e2',
    move_bucket ok fuel d map new_map i h = Ok (with_table map (setz (table map) i []), new', h') ∧
    pair (with_table map (setz (table map) i [])) new' e1' e2' h' ∧ same new_map new' ∧
    (kv d <$> e1' ++ e2') ≡ₚ (kv d <$> e1 ++ e2).
Proof.
  revert map new_map e1 e2 h. induction fuel as [|fuel IH]; intros map new_map e1 e2 h Hpr Hi Hl;
    assert (Hi' : 0 <= i < zlen (table map)) by (by rewrite (r_len _ _ _ (p_old _ _ _ _ _ Hpr)));
    destruct (getz (table map) i) as [|x next] eqn:Ec; cbn [length] in Hl; try lia;
    cbn [move_bucket]; rewrite rd_ok, Ec, bind_Ok by done.
  1, 2: rewrite (with_table_id map i Hi' Ec); right; do 4 eexists; (split; [done|]); (split; [exact Hpr|done]).
  destruct (move_step map new_map e1 e2 h i x next Hpr Hi Ec)
    as [[E Hno]|(n & new1 & h1 & h2 & e1' & e2' & E1 & E2 & Hpr' & Hs & Hkv)].
  { left. rewrite E. done. }
  rewrite E1, bind_Ok. cbv beta iota. rewrite E2, bind_Ok. cbv beta iota.
  assert (Et : getz (setz (table map) i next) i = next) by by apply getz_setz_eq.
  destruct (IH (with_table map (setz (table map) i next)) new1 e1' e2' h2 Hpr')
    as [E|(new' & h' & e1'' & e2'' & E & Hpr'' & Hs' & Hkv')]; [done|cbn; rewrite Et; lia|by left|].
  right. exists new', h', e1'', e2''. cbn [with_table table] in E, Hpr''.
  assert (Ess : with_table (with_table map (setz (table map) i next)) (setz (setz (table map) i next) i []) =
                with_table map (setz (table map) i [])).
  { unfold with_table, setz. cbn. f_equal. by rewrite list_insert_insert_eq. }
  rewrite Ess in E, Hpr''. split; [exact E|]. split; [exact Hpr''|]. split; [by eapply same_trans|].
  by rewrite Hkv'.
Qed.

Lemma empty_buckets (t : list (list (Mapping P))) : (∀ j, 0 <= j < zlen t → getz t j = []) → concat t = [].
Proof.
  intros Hj. destruct (concat t) as [|x l] eqn:E; [done|].
  destruct (MapBuckets.concat_getz t x) as (j & Hb & Hx); [rewrite E; by left|].
  rewrite Hj in Hx by done. by apply elem_of_nil in Hx.
Qed.

Lemma move_buckets_spec n map new_map e1 e2 h i :
  pair map new_map e1 e2 h → 0 <= i → i + Z.of_nat n = size map →
  (∀ j, 0 <= j < i → getz (table map) j = []) →
  (move_buckets ok n d map new_map i h = Err AssertFail ∧ ∃ r, ok r = false) ∨
  ∃ map' new' h' e', move_buckets ok n d map new_map i h = Ok (map', new', h') ∧
    rep d new' e' ∧ owns (F ++ (block <$> e')) h' ∧ same new_map new' ∧
    (kv d <$> e') ≡ₚ (kv d <$> e1 ++ e2).
Proof.
  revert map new_map e1 e2 h i. induction n as [|n IH]; intros map new_map e1 e2 h i Hpr Hi Hn Hj; cbn [move_buckets].
  - right. exists map, new_map, h, e2. assert (e1 = []) as ->.
    { destruct Hpr as [Hr _ _ _]. apply Permutation_nil_r. rewrite <- (r_perm _ _ _ Hr).
      rewrite empty_buckets; [done|]. intros j Hb. apply Hj. rewrite (r_len _ _ _ Hr) in Hb. lia. }
    destruct Hpr. done.
  - assert (Hi' : 0 <= i < size map) by lia.
    rewrite rd_ok, bind_Ok by by rewrite (r_len _ _ _ (p_old _ _ _ _ _ Hpr)).
    destruct (move_bucket_spec _ map new_map e1 e2 h i Hpr Hi' (Nat.le_refl _))
      as [[E Hno]|(new1 & h1 & e1' & e2' & E & Hpr' & Hs & Hkv)].
    { left. by rewrite E. }
    rewrite E, bind_Ok. cbv beta iota.
    destruct (IH (with_table map (setz (table map) i [])) new1 e1' e2' h1 (i + 1) Hpr')
      as [Ef|(map' & new' & h' & e' & E' & Hr & Ho & Hs' & Hkv')]; [lia|cbn; lia| |by left|].
    { intros j Hb. cbn [with_table table]. assert (Hit : 0 <= i < zlen (table map)).
      { by rewrite (r_len _ _ _ (p_old _ _ _ _ _ Hpr)). }
      destruct (decide (j = i)) as [->|]; [by apply getz_setz_eq|].
      rewrite getz_setz_ne by (done || lia). apply Hj. lia. }
    right. exists map', new', h', e'. split; [done|]. split; [done|]. split; [done|].
    split; [by eapply same_trans|]. by rewrite Hkv'.
Qed.
End moves.

(** A new table. *)
Lemma rep_new d cap t (eq : K → K → bool) (hash : K → Z) :
  0 < cap < 2 ^ 31 → (∀ k1 k2 : K, eq k1 k2 = true ↔ k1 = k2) →
  rep d (mk_map cap t (replicate (Z.to_nat cap) []) eq hash) [].
Proof.
  intros Hc He.
  assert (Hg : ∀ i, 0 <= i < cap → getz (replicate (Z.to_nat cap) ([] : list (Mapping P))) i = [])
    by (intros; by apply getz_replicate).
  constructor; cbn [size table keq]; [done|done| | | |constructor].
  - rewrite zlen_replicate; lia.
  - rewrite empty_buckets; [done|]. intros i Hi. rewrite zlen_replicate in Hi by lia. by apply Hg.
  - intros i x Hi. rewrite Hg by done. by intros ?%elem_of_nil.
Qed.

(** Allocation: a new table, or nothing that was not there before. *)
Lemma dyn_allocate_spec (eq : K → K → bool) (hash : K → Z) cap (out : option (nat * Map P K)) bs h :
  0 < cap → owns bs h →
  (∃ h', map_allocate ok eq hash cap out h = Ok ((0, None), h') ∧ owns bs h' ∧ ∃ r, ok r = false) ∨
  (∃ b t h', map_allocate ok eq hash cap out h =
     Ok ((1, Some (b, mk_map cap t (replicate (Z.to_nat cap) ([] : list (Mapping P))) eq hash)), h') ∧
     owns (t :: b :: bs) h').
Proof.
  intros Hc Ho. unfold map_allocate. rewrite (proj2 (Z.ltb_lt _ _)) by done. cbn [negb].
  assert (Hno : ∀ h h', malloc ok h = (None, h') → ∃ r, ok r = false).
  { intros h0 h' E. unfold malloc in E. destruct (ok (next_block h0)) eqn:Eo; [done|by eexists]. }
  unfold malloc_or. destruct (malloc ok h) as [[b|] h1] eqn:E1.
  - pose proof (owns_malloc ok _ _ _ _ Ho E1) as Ho1. destruct (malloc ok h1) as [[t|] h2] eqn:E2.
    + right. exists b, t, h2. split; [done|]. by eapply owns_malloc.
    + left. destruct (owns_free b bs h2 (owns_malloc_none ok _ _ _ Ho1 E2)) as (h' & Ef & Ho').
      cbn [frees]. rewrite Ef. exists h'. split; [done|]. split; [done|by eapply Hno].
  - left. cbn [frees]. exists h1. split; [done|]. split; [by eapply owns_malloc_none|by eapply Hno].
Qed.

(** The state between calls: [leaked] are the tables that were replaced. *)
Definition inv d map h m (leaked : list nat) : Prop :=
  ∃ e, rep d map e ∧ m = m_of d e ∧ owns (leaked ++ table_block map :: (block <$> e)) h.

(** A request failed, or the table would have too many buckets. *)
Definition exhausted (cap : Z) : Prop := (∃ r, ok r = false) ∨ 2 ^ 31 <= 2 * cap.

Definition doubled map map' : Prop :=
  size map' = 2 * size map ∧ keq map' = keq map ∧ khash map' = khash map.

Lemma embiggen_spec d map h m leaked :
  inv d map h m leaked →
  (map_embiggen ok d map h = Err AssertFail ∧ exhausted (size map)) ∨
  ∃ map' h', map_embiggen ok d map h = Ok (map', h') ∧ inv d map' h' m (table_block map :: leaked) ∧
    doubled map map'.
Proof.
  intros (e & Hr & -> & Ho). pose proof (r_size _ _ _ Hr) as Hs. unfold map_embiggen.
  destruct (Z.lt_ge_cases (size map * 2) (2 ^ 31)) as [Hc|Hc].
  2:{ left. split; [|right; lia]. unfold map_allocate.
      assert (i32 (size map * 2) <= 0) as Hi.
      { unfold i32. replace (size map * 2 + 2 ^ 31) with (size map * 2 - 2 ^ 31 + 1 * 2 ^ 32) by lia.
        rewrite Z.mod_add, Z.mod_small by lia. lia. }
      rewrite (proj2 (Z.ltb_ge _ _)) by done. done. }
  rewrite i32_id by lia.
  destruct (dyn_allocate_spec (keq map) (khash map) (size map * 2) None _ h ltac:(lia) Ho)
    as [(h1 & -> & _ & Hno)|(b & t & h1 & -> & Ho1)]; rewrite bind_Ok; cbv beta iota.
  { left. split; [done|by left]. }
  set (new := mk_map (size map * 2) t _ (keq map) (khash map)).
  assert (Hn : rep d new []) by (apply rep_new; [lia|apply Hr]).
  set (F := t :: b :: leaked ++ [table_block map]).
  assert (Hp : pair d F map new e [] h1).
  { constructor; [done|done| |]; rewrite app_nil_r; [apply Hr|].
    eapply owns_perm; [|exact Ho1]. unfold F. cbn [app]. by rewrite <- app_assoc. }
  destruct (move_buckets_spec d F (Z.to_nat (size map)) map new e [] h1 0 Hp)
    as [[-> Hno]|(map1 & map' & h2 & e' & -> & Hr' & Ho2 & Hsm & Hkv)]; [done|lia|intros; lia|by left; split; [|left]|].
  right. rewrite bind_Ok. cbv beta iota.
  destruct (owns_free b (t :: leaked ++ [table_block map] ++ (block <$> e')) h2) as (h3 & -> & Ho3).
  { eapply owns_perm; [|exact Ho2]. unfold F. cbn [app]. rewrite <- app_assoc. apply Permutation_swap. }
  rewrite bind_Ok. exists map', h3. split; [done|]. destruct Hsm as (Es & Et & Ek & Eh). cbn in Es, Et, Ek, Eh.
  split; [|split; [lia|done]]. exists e'. split; [done|]. rewrite app_nil_r in Hkv. split.
  - apply m_of_perm; [apply Hr|done].
  - rewrite Et. eapply owns_perm; [|exact Ho3]. cbn [app]. rewrite <- Permutation_middle.
    rewrite (Permutation_swap _ t). apply Permutation_skip. by rewrite <- Permutation_middle.
Qed.

(** One call. *)
Lemma put_internal_inv d map h m leaked k v :
  inv d map h m leaked →
  (map_put_internal ok d map k v h = Err AssertFail ∧ ∃ r, ok r = false) ∨
  ∃ n map' h', map_put_internal ok d map k v h = Ok (n, map', h') ∧
    inv d map' h' (spec_put d m k v) leaked ∧ same map map' ∧
    (other d k (chain_of d map k) → n = zlen (chain_of d map k)).
Proof.
  intros (e & Hr & -> & Ho). unfold spec_put. destruct (known_or_other d k e) as [Hn|(x & e' & Hp & Ek)].
  - rewrite m_of_other by done. pose proof (put_new_spec d map e k v h Hr Hn) as Hput.
    destruct (malloc ok h) as [[b|] h1] eqn:Em.
    2:{ left. split; [done|]. unfold malloc in Em. destruct (ok (next_block h)) eqn:Eo; [done|by eexists]. }
    destruct Hput as [E Hr']. right. do 3 eexists. split; [exact E|]. split; [|done].
    eexists. split; [exact Hr'|]. split; [done|]. cbn.
    eapply owns_perm; [|by eapply owns_malloc]. rewrite Permutation_middle. apply Permutation_app_head, Permutation_swap.
  - destruct (put_known_spec d map e k v h x e' Hr Hp Ek) as (n & l & _ & E & Hr').
    right. do 3 eexists. split; [exact E|]. split; [|split; [done|]].
    + eexists. split; [exact Hr'|]. split; [|cbn; eapply owns_perm; [|exact Ho]; by rewrite Hp].
      rewrite (m_of_perm _ e (x :: e')) by (apply Hr || by rewrite Hp). cbn. rewrite Ek.
      by rewrite lookup_insert_eq, insert_insert_eq.
    + intros Hoth. destruct (rep_split Hr k x) as (l1 & l2 & El & _); [rewrite Hp; by left|done|].
      exfalso. apply (Hoth x); [|done]. rewrite El. apply elem_of_app. right. by left.
Qed.

Lemma erase_inv d map h m leaked k :
  inv d map h m leaked →
  ∃ map' h', map_erase d map k h = Ok (map', fst <$> m !! d k, h') ∧
    inv d map' h' (delete (d k) m) leaked ∧ same map map'.
Proof.
  intros (e & Hr & -> & Ho). destruct (known_or_other d k e) as [Hn|(x & e' & Hp & Ek)].
  - rewrite m_of_other, delete_id by (done || by apply m_of_other). exists map, h. rewrite (erase_unknown_spec _ _ e) by done.
    split; [done|]. split; [by exists e|done].
  - destruct (erase_known_spec d map e k h x e' Hr Hp Ek) as (l1 & l2 & _ & _ & E & Hr').
    destruct (owns_free (block x) (leaked ++ table_block map :: (block <$> e')) h) as (h' & Ef & Ho').
    { eapply owns_perm; [|exact Ho]. rewrite Hp, fmap_cons, Permutation_swap. by rewrite <- Permutation_middle. }
    rewrite (m_of_perm _ e (x :: e')) by (apply Hr || by rewrite Hp). cbn. rewrite Ek, lookup_insert_eq.
    rewrite E, Ef, bind_Ok. do 2 eexists. split; [done|]. split; [|done]. exists e'. split; [done|]. split; [|done].
    rewrite delete_insert_eq, delete_id; [done|]. apply m_of_other.
    pose proof (r_keys _ _ _ Hr) as Hk. rewrite Hp, fmap_cons in Hk. apply NoDup_cons in Hk as [Hk _].
    intros y Hy Ey. apply Hk. rewrite Ek, <- Ey. apply list_elem_of_fmap. by exists y.
Qed.

Lemma put_inv d map h m leaked k v :
  inv d map h m leaked →
  (map_put ok d map k v h = Err AssertFail ∧ exhausted (size map)) ∨
  ∃ map' h' more, map_put ok d map k v h = Ok (map', h') ∧ inv d map' h' (spec_put d m k v) (more ++ leaked) ∧
    size map' = size map * 2 ^ zlen more ∧ zlen more <= 1 ∧ khash map' = khash map ∧
    (other d k (chain_of d map k) → chain_of d map k ≠ [] → more = [table_block map]).
Proof.
  intros Hi. unfold map_put.
  destruct (put_internal_inv d map h m leaked k v Hi) as [[-> Hno]|(n & map1 & h1 & -> & Hi1 & (Es & Et & Ee & Eh) & Hn)].
  { left. split; [done|by left]. }
  rewrite bind_Ok. cbv beta iota. unfold NUM_COLLISIONS_FOR_RESIZE. destruct (Z.leb_spec 1 n).
  - destruct (embiggen_spec d map1 h1 _ leaked Hi1) as [[-> Hx]|(map' & h' & -> & Hi' & E1 & E2 & E3)].
    { left. split; [done|by rewrite <- Es]. }
    right. exists map', h', [table_block map]. rewrite Et in Hi'. split; [done|]. split; [done|].
    split; [change (zlen [table_block map]) with 1; lia|]. split; [done|]. split; [congruence|done].
  - right. exists map1, h1, []. split; [done|]. split; [done|]. split; [change (zlen []) with 0; lia|].
    split; [done|]. split; [done|]. intros Ho Hne. specialize (Hn Ho). destruct (chain_of d map k) as [|x l]; [done|].
    rewrite zlen_cons in Hn. pose proof (zlen_nonneg l). lia.
Qed.

(** ** Runs *)
Fixpoint puts (cs : list (map_call P)) : Z :=
  match cs with
  | [] => 0
  | MapPut _ _ :: cs => puts cs + 1
  | _ :: cs => puts cs
  end.

Lemma puts_nonneg cs : 0 <= puts cs.
Proof. induction cs as [|[] cs IH]; cbn; lia. Qed.

Lemma exec_inv d cs map h m leaked :
  inv d map h m leaked →
  (exec ok d map h cs = Err AssertFail ∧ ((∃ r, ok r = false) ∨ 2 ^ 31 <= size map * 2 ^ puts cs)) ∨
  ∃ map' h' more, exec ok d map h cs = Ok (fst (spec_run d m cs), map', h') ∧
    inv d map' h' (snd (spec_run d m cs)) (more ++ leaked) ∧ size map' = size map * 2 ^ zlen more.
Proof.
  revert map h m leaked. induction cs as [|[k|k v|k] cs IH]; intros map h m leaked Hi; cbn [exec spec_run].
  - right. exists map, h, []. split; [done|]. split; [done|]. change (zlen []) with 0. lia.
  - assert (Hg : map_get d map k = Ok (snd <$> m !! d k)).
    { destruct Hi as (e & Hr & -> & _). by apply dyn_get_spec. }
    rewrite Hg, bind_Ok. destruct (IH map h m leaked Hi) as [[-> Hx]|(map' & h' & more & -> & ? & ?)]; [by left|].
    right. destruct (spec_run d m cs). by exists map', h', more.
  - assert (Hpos : 0 < size map) by (destruct Hi as (e & Hr & _); pose proof (r_size _ _ _ Hr); lia).
    pose proof (puts_nonneg cs). assert (0 < 2 ^ puts cs) by (by apply Z.pow_pos_nonneg).
    cbn [puts]. rewrite Z.pow_add_r by lia. change (2 ^ 1) with 2.
    destruct (put_inv d map h m leaked k v Hi) as [[-> [Hx|Hx]]|(map1 & h1 & more & -> & Hi1 & Es & Hle & _)].
    { left. split; [done|by left]. } { left. split; [done|right; nia]. }
    rewrite bind_Ok. cbv beta iota. pose proof (zlen_nonneg more).
    assert (0 < 2 ^ zlen more <= 2).
    { split; [by apply Z.pow_pos_nonneg|]. pose proof (Z.pow_le_mono_r 2 (zlen more) 1). lia. }
    destruct (IH map1 h1 _ (more ++ leaked) Hi1) as [[-> [Hx|Hx]]|(map' & h' & more' & -> & Hi' & Es')].
    { left. split; [done|by left]. } { left. split; [done|right; nia]. }
    right. exists map', h', (more' ++ more). split; [done|]. split; [by rewrite <- app_assoc|].
    pose proof (zlen_nonneg more'). rewrite zlen_app, Z.pow_add_r by lia. nia.
  - destruct (erase_inv d map h m leaked k Hi) as (map1 & h1 & -> & Hi1 & Es & _). rewrite bind_Ok. cbv beta iota.
    destruct (IH map1 h1 _ leaked Hi1) as [[-> Hx]|(map' & h' & more & -> & ? & ?)]; [left|].
    { split; [done|]. rewrite Es in Hx. exact Hx. }
    right. destruct (spec_run d (delete (d k) m) cs). exists map', h', more. split; [done|]. split; [done|congruence].
Qed.

(** ** Keys with the same hash *)
(** A key in a chain behind another one: its [map_put] doubles the table. *)
Lemma collision_doubles d map h m leaked k1 k2 v :
  inv d map h m leaked → m !! d k1 ≠ None → m !! d k2 = None → khash map (d k1) = khash map (d k2) →
  (map_put ok d map k2 v h = Err AssertFail ∧ exhausted (size map)) ∨
  ∃ map' h', map_put ok d map k2 v h = Ok (map', h') ∧
    inv d map' h' (spec_put d m k2 v) (table_block map :: leaked) ∧ size map' = 2 * size map ∧
    khash map' = khash map.
Proof.
  intros Hi H1 H2 Hh. destruct (put_inv d map h m leaked k2 v Hi) as [?|(map' & h' & more & E & Hi' & Es & _ & Ek & Hm)]; [by left|].
  right. exists map', h'. destruct Hi as (e & Hr & -> & _).
  destruct (known_or_other d k2 e) as [Ho2|(x & e' & Hp & Ex)].
  2:{ rewrite (m_of_perm _ e (x :: e')) in H2 by (apply Hr || by rewrite Hp). cbn in H2. by rewrite Ex, lookup_insert_eq in H2. }
  assert (Hc : chain_of d map k2 ≠ []).
  { destruct (known_or_other d k1 e) as [Ho|(x & e' & Hp & Ex)]; [by rewrite m_of_other in H1|].
    destruct (rep_split Hr k1 x) as (l1 & l2 & El & _); [rewrite Hp; by left|done|].
    assert (Eb : bucket d map k2 = bucket d map k1) by (unfold bucket; by rewrite Hh).
    unfold chain_of in *. rewrite Eb, El. by destruct l1. }
  rewrite (Hm (rep_other Hr k2 Ho2) Hc) in *. split; [done|]. split; [done|]. split; [|done].
  rewrite Es. change (zlen [table_block map]) with 1. lia.
Qed.

Fixpoint rounds (n : nat) (k : P) (v : Z) : list (map_call P) :=
  match n with O => [] | S n => MapPut k v :: MapErase k :: rounds n k v end.

(** A key that comes and goes while another key with its hash is there makes the table double
    each time, until there is no memory for it or its size is no [int]: at most 31 times. *)
Theorem dyn_collisions_abort d map h m leaked k1 k2 v n :
  inv d map h m leaked → m !! d k1 ≠ None → m !! d k2 = None → khash map (d k1) = khash map (d k2) →
  2 ^ 31 <= size map * 2 ^ Z.of_nat n → exec ok d map h (rounds n k2 v) = Err AssertFail.
Proof.
  revert map h m leaked. induction n as [|n IH]; intros map h m leaked Hi H1 H2 Hh Hs; cbn [rounds exec].
  { destruct Hi as (e & Hr & _). pose proof (r_size _ _ _ Hr). cbn in Hs. lia. }
  destruct (collision_doubles d map h m leaked k1 k2 v Hi H1 H2 Hh)
    as [[-> _]|(map1 & h1 & -> & Hi1 & Es & Ek)]; [done|]. rewrite bind_Ok. cbv beta iota.
  destruct (erase_inv d map1 h1 _ _ k2 Hi1) as (map2 & h2 & -> & Hi2 & Es2 & _ & _ & Ek2). rewrite bind_Ok. cbv beta iota.
  assert (Ed : delete (d k2) (spec_put d m k2 v) = m) by (unfold spec_put; by rewrite delete_insert_id).
  rewrite Ed in Hi2. rewrite (IH map2 h2 m _ Hi2); [done|done|done|by rewrite Ek2, Ek|].
  rewrite Es2, Es. rewrite Nat2Z.inj_succ, Z.pow_succ_r in Hs by lia. lia.
Qed.

(** The map against the finite map: from its allocation, every sequence of calls either gives
    the answers of a finite map, or ends in a failed [assert], which takes a request for memory
    that failed or a table of [2 ^ 31] buckets. Every doubling leaves one block, the old table,
    allocated and out of reach. *)
Theorem dyn_run_correct d (eq : K → K → bool) (hash : K → Z) cap (out : option (nat * Map P K)) bs h cs :
  0 < cap < 2 ^ 31 → (∀ x y : K, eq x y = true ↔ x = y) → owns bs h →
  (∃ h', map_allocate ok eq hash cap out h = Ok ((0, None), h') ∧ owns bs h' ∧ ∃ r, ok r = false) ∨
  ∃ b map h1, map_allocate ok eq hash cap out h = Ok ((1, Some (b, map)), h1) ∧
    ((exec ok d map h1 cs = Err AssertFail ∧ ((∃ r, ok r = false) ∨ 2 ^ 31 <= cap * 2 ^ puts cs)) ∨
     ∃ map' h' leaked, exec ok d map h1 cs = Ok (fst (spec_run d ∅ cs), map', h') ∧
       size map' = cap * 2 ^ zlen leaked ∧
       NoDup (leaked ++ table_block map' :: (block <$> concat (table map'))) ∧ leaked ⊆ live h').
Proof.
  intros Hc He Ho. destruct (dyn_allocate_spec eq hash cap out bs h ltac:(lia) Ho)
    as [?|(b & t & h1 & E & Ho1)]; [by left|right].
  do 3 eexists. split; [exact E|].
  match goal with |- context [exec ok d ?x _ _] => set (map := x) end.
  assert (Hi : inv d map h1 ∅ []).
  { exists []. split; [by apply rep_new|]. split; [done|]. destruct Ho1 as (Hw & Hn & Hl).
    split; [done|]. cbn. split; [repeat constructor; by intros ?%elem_of_nil|]. set_solver. }
  destruct (exec_inv d cs map h1 ∅ [] Hi) as [Hf|(map' & h' & more & Ee & Hi' & Es)]; [left; exact Hf|right].
  exists map', h', more. split; [done|]. split; [done|].
  destruct Hi' as (e & Hr & _ & _ & Hn & Hl). rewrite app_nil_r in *. split.
  - by rewrite (r_perm _ _ _ Hr).
  - set_solver.
Qed.
End specs.
End tables.
End DynamicTable.
