(* ===== verification/RehashingMap.v ===== *)
(** * The rehashing map

    Models [rehashing-map-impl.c], a variant of [map-impl.c] whose [loop] takes
    the remainder with [%] and whose [find_empty] counts the buckets it visits,
    and [rehashing-map.c], which keeps two tables and moves all keys to the other
    one, under a new hash seed, when an insertion had to visit too many buckets. *)

From S2P Require Import Prelude.
From S2P Require Import Malloc.
From S2P Require Import PredMapImpl.
From S2P Require Import MapImpl.
From S2P Require Import MapSpec.

(** ** [rehashing-map-impl.c] *)

(** The [%] of C truncates towards zero; [g + capacity] is a sum of [int]s, which wraps
    around when the capacity is close to [INT_MAX] (the contract of [loop] asks for
    [2 * capacity < INT_MAX]). *)
Definition loop_rem (k capacity : Z) : Z :=
  let g := Z.rem k capacity in
  Z.rem (i32 (g + capacity)) capacity.

Section impl.
Context {P : Type}.
Implicit Types (busybits k_hashes chns values : list Z) (keyps : list P) (keyp : P)
  (eq : P → P → bool) (hash capacity start i : Z).

Definition rh_find_key := @find_key P loop_rem.
Definition rh_find_key_remove_chain := @find_key_remove_chain P loop_rem.

(** [num_traversals] is the counter that the caller reads. *)
Fixpoint rh_find_empty_loop (n : nat) busybits chns start capacity i (num_traversals : Z)
    : res (Z * list Z * Z) :=
  match n with
  | O => Ok (-1, chns, num_traversals)
  | S n' =>
      let index := loop_rem (start + i) capacity in
      let num_traversals := num_traversals + 1 in
      bb ← rd busybits index;
      if 0 =? bb then Ok (index, chns, num_traversals)
      else
        chn ← rd chns index;
        chns ← wr chns index (chn + 1);
        rh_find_empty_loop n' busybits chns start capacity (i + 1) num_traversals
  end.

Definition rh_find_empty busybits chns start capacity : res (Z * list Z * Z) :=
  rh_find_empty_loop (Z.to_nat capacity) busybits chns start capacity 0 0.

Definition rh_map_impl_init := map_impl_init.
Definition rh_map_impl_get := @map_impl_get P loop_rem.
Definition rh_map_impl_erase := @map_impl_erase P loop_rem.
Definition rh_map_impl_size := map_impl_size.

Definition rh_map_impl_put busybits keyps k_hashes chns values keyp hash (value : Z) capacity
    : res (list Z * list P * list Z * list Z * list Z * Z) :=
  let start := loop_rem hash capacity in
  '(index, chns, num_traversals) ← rh_find_empty busybits chns start capacity;
  busybits ← wr busybits index 1;
  keyps ← wr keyps index keyp;
  k_hashes ← wr k_hashes index hash;
  values ← wr values index value;
  Ok (busybits, keyps, k_hashes, chns, values, num_traversals).
End impl.

(** ** [rehashing-map.c] *)
Definition REHASHING_THRESHOLD : Z := 5.

Record Map_Internal (P K : Type) := mk_internal {
  busybits : list Z; keyps : list P; khs : list Z; chns : list Z; vals : list Z;
  capacity : Z; size_field : Z; keys_eq : K → K → bool; khash : K → Z; hash_seed : Z }.
Arguments mk_internal {P K} _ _ _ _ _ _ _ _ _ _.
Arguments busybits {P K} _.
Arguments keyps {P K} _.
Arguments khs {P K} _.
Arguments chns {P K} _.
Arguments vals {P K} _.
Arguments capacity {P K} _.
Arguments size_field {P K} _.
Arguments keys_eq {P K} _.
Arguments khash {P K} _.
Arguments hash_seed {P K} _.

(** [map_0], [map_1] and [current_map] are the fields of [struct Map];
    [rand_calls] counts the calls of [rand()] made so far. *)
Record RMap (P K : Type) := mk_rmap {
  map_0 : Map_Internal P K; map_1 : Map_Internal P K; current_map : bool; rand_calls : nat }.
Arguments mk_rmap {P K} _ _ _ _.
Arguments map_0 {P K} _.
Arguments map_1 {P K} _.
Arguments current_map {P K} _.
Arguments rand_calls {P K} _.

Section ops.
Context {P K : Type}.
(** The values that successive calls of [rand()] return. *)
Variable rand : nat → Z.
Implicit Types (map : RMap P K) (t : Map_Internal P K) (key : P) (d : P → K).

Definition CURRENT_MAP map : Map_Internal P K := if current_map map then map_1 map else map_0 map.
Definition OTHER_MAP map : Map_Internal P K := if current_map map then map_0 map else map_1 map.
Definition set_current map t : RMap P K :=
  if current_map map then mk_rmap (map_0 map) t true (rand_calls map)
  else mk_rmap t (map_1 map) false (rand_calls map).
Definition set_other map t : RMap P K :=
  if current_map map then mk_rmap t (map_1 map) true (rand_calls map)
  else mk_rmap (map_0 map) t false (rand_calls map).

(** The two tables of a map are allocated like the map of [map.c]. *)
Definition map_internal_allocate (ok : nat → bool) (junkZ : Z → list Z) (junkP : Z → list P)
    (keq : K → K → bool) (kh : K → Z) (cap : Z) (h : heap)
    : res ((Z * option (Map_Internal P K)) * heap) :=
  let fail := (0, None) in
  malloc_or ok [] fail (λ map_alloc,
  malloc_or ok [map_alloc] fail (λ bbs_alloc,
  malloc_or ok [bbs_alloc; map_alloc] fail (λ keyps_alloc,
  malloc_or ok [keyps_alloc; bbs_alloc; map_alloc] fail (λ khs_alloc,
  malloc_or ok [khs_alloc; keyps_alloc; bbs_alloc; map_alloc] fail (λ chns_alloc,
  malloc_or ok [chns_alloc; khs_alloc; keyps_alloc; bbs_alloc; map_alloc] fail (λ vals_alloc h,
    '(bbs, chs) ← rh_map_impl_init (junkZ cap) (junkZ cap) cap;
    Ok ((1, Some (mk_internal bbs (junkP cap) (junkZ cap) chs (junkZ cap) cap 0 keq kh 0)), h)
  )))))) h.

Definition with_seed t (seed : Z) : Map_Internal P K :=
  mk_internal (busybits t) (keyps t) (khs t) (chns t) (vals t) (capacity t) (size_field t)
    (keys_eq t) (khash t) seed.

(** [map_allocate]. [map_out] is the block that [*map_out] points to, if any; the
    result is the return value, the new [*map_out] and the map built there.
    [rand()] has been called [n] times before. *)
Definition rmap_allocate (ok : nat → bool) (junkZ : Z → list Z) (junkP : Z → list P)
    (keq : K → K → bool) (kh : K → Z) (cap : Z) (map_out : option nat) (n : nat)
    : heap → res ((Z * option nat * option (RMap P K)) * heap) :=
  malloc_or ok [] (0, map_out, None) (λ map_alloc h,
    '((_, m0), h) ← map_internal_allocate ok junkZ junkP keq kh cap h;
    match m0 with
    | None => h ← free map_alloc h; Ok ((0, Some map_alloc, None), h)
    | Some m0 =>
        '((_, m1), h) ← map_internal_allocate ok junkZ junkP keq kh cap h;
        match m1 with
        | None => h ← free map_alloc h; Ok ((0, Some map_alloc, None), h)
        | Some m1 =>
            Ok ((1, Some map_alloc,
                 Some (mk_rmap (with_seed m0 (rand n)) (with_seed m1 (rand (S n))) false (S (S n)))), h)
        end
    end).

Definition rmap_get d map key : res (option Z) :=
  let cur := CURRENT_MAP map in
  let hash := Z.lxor (khash cur (d key)) (hash_seed cur) in
  rh_map_impl_get (busybits cur) (keyps cur) (khs cur) (chns cur) (vals cur) key
    (λ p q, keys_eq cur (d p) (d q)) hash (capacity cur).

(** [map_impl_put] into one table, followed by [++size]. *)
Definition internal_put t key (hash value : Z) : res (Map_Internal P K * Z) :=
  '(bbs, kps, ks, chs, vs, num_traversals) ←
    rh_map_impl_put (busybits t) (keyps t) (khs t) (chns t) (vals t) key hash value (capacity t);
  Ok (mk_internal bbs kps ks chs vs (capacity t) (size_field t + 1) (keys_eq t) (khash t)
        (hash_seed t), num_traversals).

(** The loop that moves the keys; [n] is [capacity - i]. *)
Fixpoint rehash_loop (n : nat) d (kh : K → Z) (cur other : Map_Internal P K) (i : Z)
    : res (Map_Internal P K) :=
  match n with
  | O => Ok other
  | S n' =>
      bb ← rd (busybits cur) i;
      if negb (bb =? 0) then
        key ← rd (keyps cur) i;
        value ← rd (vals cur) i;
        let hash := Z.lxor (kh (d key)) (hash_seed other) in
        '(other, _) ← internal_put other key hash value;
        rehash_loop n' d kh cur other (i + 1)
      else rehash_loop n' d kh cur other (i + 1)
  end.

Definition rmap_put d map key (value : Z) : res (RMap P K) :=
  let cur := CURRENT_MAP map in
  let kh := khash cur in
  let hash := Z.lxor (kh (d key)) (hash_seed cur) in
  '(cur, num_traversals) ← internal_put cur key hash value;
  let map := set_current map cur in
  if REHASHING_THRESHOLD <? num_traversals then
    let other := OTHER_MAP map in
    '(bbs, chs) ← rh_map_impl_init (busybits other) (chns other) (capacity other);
    let other := mk_internal bbs (keyps other) (khs other) chs (vals other) (capacity other)
                   (size_field other) (keys_eq other) (khash other) (rand (rand_calls map)) in
    other ← rehash_loop (Z.to_nat (capacity cur)) d kh cur other 0;
    let map := set_other map other in
    Ok (mk_rmap (map_0 map) (map_1 map) (negb (current_map map)) (S (rand_calls map)))
  else Ok map.

Definition rmap_erase d map key : res (RMap P K * option P) :=
  let cur := CURRENT_MAP map in
  let hash := Z.lxor (khash cur (d key)) (hash_seed cur) in
  '(bbs, chs, trash) ←
    rh_map_impl_erase (busybits cur) (keyps cur) (khs cur) (chns cur) key
      (λ p q, keys_eq cur (d p) (d q)) hash (capacity cur);
  Ok (set_current map (mk_internal bbs (keyps cur) (khs cur) chs (vals cur) (capacity cur)
        (size_field cur - 1) (keys_eq cur) (khash cur) (hash_seed cur)), trash).

Definition rmap_size map : Z := size_field (CURRENT_MAP map).

#[export] Instance RMap_ops : MapOps P K (RMap P K) := {|
  map_get := rmap_get; map_put := rmap_put; map_erase := rmap_erase; map_size := rmap_size |}.
End ops.

(** ** Proofs *)
Definition INT_MAX : Z := 2 ^ 31 - 1.

Lemma loop_rem_mod k cap : 0 < cap → 2 * cap < INT_MAX → loop_rem k cap = k mod cap.
Proof.
  unfold INT_MAX. intros Hc Hi. unfold loop_rem.
  pose proof (Z.rem_bound_abs k cap ltac:(lia)) as Hb. rewrite i32_id by lia.
  rewrite Z.rem_mod_nonneg by lia.
  rewrite (Z.quot_rem k cap) at 2 by lia.
  replace (Z.rem k cap + cap) with (Z.rem k cap + 1 * cap) by ring.
  rewrite Z.mod_add by lia.
  rewrite (Z.add_comm (cap * _)), (Z.mul_comm cap), Z.mod_add by lia. done.
Qed.

Lemma rh_find_empty_loop_eq n bb ch start cap i t :
  (λ '(x, ch, _), (x, ch)) <$> rh_find_empty_loop n bb ch start cap i t =
  find_empty_loop loop_rem n bb ch start cap i.
Proof.
  revert ch i t. induction n as [|n IH]; intros ch i t; [done|].
  cbn [rh_find_empty_loop find_empty_loop]. destruct (rd bb _) as [bb0|]; [|done].
  cbn [mbind res_bind]. destruct (0 =? bb0); [done|]. destruct (rd ch _) as [c|]; [|done].
  cbn [mbind res_bind]. destruct (wr ch _ _) as [ch'|]; [|done]. cbn [mbind res_bind]. apply IH.
Qed.

(** The put of this file is the put of [MapImpl.v], with a count. *)
Lemma rh_map_impl_put_eq {P} bb (kp : list P) kh ch vs keyp hash value cap :
  (λ '(a, b, c, d, e, _), (a, b, c, d, e)) <$>
    rh_map_impl_put bb kp kh ch vs keyp hash value cap =
  map_impl_put loop_rem bb kp kh ch vs keyp hash value cap.
Proof.
  unfold rh_map_impl_put, map_impl_put, rh_find_empty, find_empty.
  rewrite <- (rh_find_empty_loop_eq _ _ _ _ _ _ 0).
  destruct (rh_find_empty_loop _ _ _ _ _ _ _) as [[[x ch'] t]|]; [|done].
  cbn [mbind res_bind fmap res_fmap]. 
  by destruct (wr bb x 1), (wr kp x keyp), (wr kh x hash), (wr vs x value).
Qed.

Section laws.
Context {P : Type} `{Inhabited P} {K : Type} `{Countable K}.
Implicit Types (map : RMap P K) (t : Map_Internal P K) (key : P) (d : P → K)
  (m : gmap K (P * Z)).

Definition seeded t : K → Z := λ k, Z.lxor (khash t k) (hash_seed t).

(** A table that holds [m]. *)
Definition internal_map d t (cap : Z) m : Prop :=
  mapping cap (seeded t) d (busybits t) (keyps t) (khs t) (chns t) (vals t) m.

Definition internal_conf t (cap : Z) (keq : K → K → bool) (kh : K → Z) : Prop :=
  capacity t = cap ∧ keys_eq t = keq ∧ khash t = kh ∧
  same_len cap (busybits t) (keyps t) (khs t) (chns t) (vals t).

Record rmap_inv d map (cap : Z) m : Prop := {
  ri_pos : 0 < cap;
  ri_int : 2 * cap < INT_MAX;
  ri_conf : ∃ keq kh, (∀ k1 k2, keq k1 k2 = true ↔ k1 = k2) ∧
    internal_conf (CURRENT_MAP map) cap keq kh ∧ internal_conf (OTHER_MAP map) cap keq kh;
  ri_map : internal_map d (CURRENT_MAP map) cap m
}.

Lemma CURRENT_set map t : CURRENT_MAP (set_current map t) = t.
Proof. unfold CURRENT_MAP, set_current. by destruct (current_map map). Qed.
Lemma OTHER_set map t : OTHER_MAP (set_current map t) = OTHER_MAP map.
Proof. unfold OTHER_MAP, set_current. by destruct (current_map map). Qed.

Lemma internal_put_spec d t cap keq kh m key v :
  0 < cap → 2 * cap < INT_MAX → internal_conf t cap keq kh → internal_map d t cap m →
  m !! d key = None → Z.of_nat (size m) < cap →
  ∃ t' n, internal_put t key (seeded t (d key)) v = Ok (t', n) ∧
    internal_conf t' cap keq kh ∧ internal_map d t' cap (<[d key := (key, v)]> m) ∧
    hash_seed t' = hash_seed t ∧ size_field t' = size_field t + 1.
Proof.
  intros Hc Hci (E1 & E2 & E3 & Hl) Hm Hn Hs. unfold internal_put. rewrite E1.
  destruct (map_impl_put_mapping loop_rem cap Hc (λ k, loop_rem_mod k cap Hc Hci) (seeded t) d
    _ _ _ _ _ m key v Hm Hn Hs) as (bb & kp & ks & ch & vs & E & Hm').
  rewrite <- rh_map_impl_put_eq in E.
  destruct (rh_map_impl_put _ _ _ _ _ _ _ _ _) as [[[[[[bb' kp'] ks'] ch'] vs'] n]|];
    simplify_eq/=.
  do 2 eexists. split; [done|]. split; [|done].
  split; [done|]. split; [done|]. split; [done|]. apply Hm'.
Qed.

(** While the loop runs, the other table holds the keys of the buckets it has passed. *)
Definition moved d (cur : Map_Internal P K) (i : Z) m' : Prop :=
  ∀ k p v, m' !! k = Some (p, v) ↔
    ∃ j, 0 <= j < i ∧ negb (getz (busybits cur) j =? 0) = true ∧ getz (keyps cur) j = p ∧
      d p = k ∧ getz (vals cur) j = v.

Lemma moved_all d cur cap m m' :
  internal_map d cur cap m → moved d cur cap m' → m' = m.
Proof.
  intros [Hl Ht] Hmv. apply map_eq. intros k. apply option_eq. intros [p v].
  rewrite (Hmv k p v), (tb_elem _ _ _ _ _ Ht). destruct Hl as (L1 & _). unfold busy.
  split; intros (j & Hj & Hrest); exists j; (split; [done|]); rewrite getz_aos in * by lia; done.
Qed.

Lemma moved_sub d cur cap m i m' :
  internal_map d cur cap m → 0 <= i <= cap → moved d cur i m' → m' ⊆ m.
Proof.
  intros [Hl Ht] Hi Hmv. apply map_subseteq_spec. intros k [p v].
  rewrite (Hmv k p v), (tb_elem _ _ _ _ _ Ht). destruct Hl as (L1 & _). unfold busy.
  intros (j & Hj & Hrest). exists j. split; [lia|]. by rewrite getz_aos by lia.
Qed.

Lemma rehash_loop_spec d cap keq kh cur m n other i m' :
  0 < cap → 2 * cap < INT_MAX → internal_conf cur cap keq kh → internal_map d cur cap m →
  Z.of_nat n = cap - i → 0 <= i → internal_conf other cap keq kh →
  internal_map d other cap m' → moved d cur i m' →
  ∃ other', rehash_loop n d kh cur other i = Ok other' ∧ internal_conf other' cap keq kh ∧
    internal_map d other' cap m ∧ hash_seed other' = hash_seed other.
Proof.
  intros Hc Hci Hcur Hm. revert i other m'.
  induction n as [|n IH]; intros i other m' Hn Hi Hoc Hom Hmv; cbn [rehash_loop].
  { assert (i = cap) as -> by lia. exists other. split; [done|]. split; [done|].
    split; [|done]. by rewrite <- (moved_all _ _ _ _ _ Hm Hmv). }
  destruct Hcur as (E1 & E2 & E3 & L1 & L2 & L3 & L4 & L5).
  assert (Hcur : internal_conf cur cap keq kh) by done.
  rewrite (rd_ok (busybits cur)) by lia. cbn [mbind res_bind].
  destruct (negb (getz (busybits cur) i =? 0)) eqn:Hb.
  - rewrite (rd_ok (keyps cur)), (rd_ok (vals cur)) by lia. cbn [mbind res_bind].
    set (key := getz (keyps cur) i). set (v := getz (vals cur) i).
    pose proof (moved_sub d cur cap m i m' Hm ltac:(lia) Hmv) as Hsub.
    destruct Hm as [Hl Ht].
    assert (Hki : m !! d key = Some (key, v)).
    { apply (tb_elem _ _ _ _ _ Ht). exists i. split; [lia|]. unfold busy.
      by rewrite getz_aos by lia. }
    assert (Hnone : m' !! d key = None).
    { destruct (m' !! d key) as [[p w]|] eqn:E; [|done].
      apply Hmv in E as (j & Hj & Hbj & Hp & Hd & Hw).
      assert (j = i); [|lia]. apply (tb_inj _ _ _ _ _ Ht); [lia|lia|..];
        unfold busy; rewrite ?getz_aos by lia; try done. simpl. by rewrite Hp. }
    assert (Hsz : Z.of_nat (size m') < cap).
    { assert (size (<[d key := (key, v)]> m') ≤ size m)%nat.
      { apply map_subseteq_size. by apply insert_subseteq_l. }
      rewrite map_size_insert_None in * by done.
      pose proof (table_size cap Hc (seeded cur) d _ m Ht). lia. }
    destruct Hoc as (O1 & O2 & O3 & O4).
    destruct (internal_put_spec d other cap keq kh m' key v Hc Hci) as (o & nt & E & Hoc' & Hom' & Hs & _);
      [done..|]. unfold seeded in E. rewrite O3 in E. rewrite E. cbn [mbind res_bind].
    destruct (IH (i + 1) o (<[d key := (key, v)]> m')) as (o' & -> & ? & ? & ?);
      [lia|lia|done|done| |exists o'; split; [done|]; split; [done|]; split; [done|congruence]].
    intros k p w. destruct (decide (k = d key)) as [->|Hne].
    + rewrite lookup_insert_eq. split.
      * intros [= <- <-]. exists i. split; [lia|done].
      * intros (j & Hj & Hbj & Hp & Hd & Hw). assert (j = i) as ->; [|by rewrite <- Hp, <- Hw].
        apply (tb_inj _ _ _ _ _ Ht); [lia|lia|..];
          unfold busy; rewrite ?getz_aos by lia; try done. simpl. by rewrite Hp.
    + rewrite lookup_insert_ne by done. rewrite (Hmv k p w).
      split; intros (j & Hj & Hrest); exists j; (split; [|done]); [lia|].
      assert (j ≠ i); [|lia]. intros ->. destruct Hrest as (_ & Hp & Hd & _).
      apply Hne. unfold key. congruence.
  - apply (IH _ _ m'); [lia|lia|done|done|]. intros k p w. rewrite (Hmv k p w).
    split; intros (j & Hj & Hrest); exists j; (split; [|done]); [lia|].
    assert (j ≠ i); [|lia]. intros ->. destruct Hrest as (Hbi & _). congruence.
Qed.
End laws.

Section interface.
Context {P : Type} `{Inhabited P} {K : Type} `{Countable K}.
Variable rand : nat → Z.
Implicit Types (map : RMap P K) (t : Map_Internal P K) (key : P) (d : P → K)
  (m : gmap K (P * Z)).

Lemma rmap_get_spec d map cap m key :
  rmap_inv d map cap m → rmap_get d map key = Ok (snd <$> m !! d key).
Proof.
  intros [Hc Hci (keq & kh & Heq & (E1 & E2 & E3 & _) & _) Hm]. unfold rmap_get.
  rewrite E1, E2. unfold rh_map_impl_get.
  by apply (map_impl_get_mapping loop_rem cap Hc (λ k, loop_rem_mod k cap Hc Hci)
    (seeded (CURRENT_MAP map)) d).
Qed.

Lemma rmap_erase_spec d map cap m key p v :
  rmap_inv d map cap m → m !! d key = Some (p, v) →
  ∃ map', rmap_erase d map key = Ok (map', Some p) ∧ rmap_inv d map' cap (delete (d key) m).
Proof.
  intros [Hc Hci (keq & kh & Heq & (E1 & E2 & E3 & Hl) & Ho) Hm] Hk. unfold rmap_erase.
  rewrite E1, E2. unfold rh_map_impl_erase.
  destruct (map_impl_erase_mapping loop_rem cap Hc (λ k, loop_rem_mod k cap Hc Hci)
    (seeded (CURRENT_MAP map)) d _ _ _ _ _ m (λ p q, keq (d p) (d q)) key p v Hm
    ltac:(intros; apply Heq) Hk) as (bb & ch & E & Hm').
  unfold seeded in E. rewrite E. cbn [mbind res_bind]. eexists. split; [done|]. split; [done|done| |by rewrite CURRENT_set].
  exists keq, kh. rewrite CURRENT_set, OTHER_set. split; [done|]. split; [|done].
  split; [done|]. split; [done|]. split; [done|]. apply Hm'.
Qed.

Lemma rmap_put_spec d map cap m key v :
  rmap_inv d map cap m → m !! d key = None → Z.of_nat (size m) < cap →
  ∃ map', rmap_put rand d map key v = Ok map' ∧ rmap_inv d map' cap (<[d key := (key, v)]> m).
Proof.
  intros [Hc Hci (keq & kh & Heq & Hcur & Ho) Hm] Hn Hs. unfold rmap_put.
  destruct (internal_put_spec d (CURRENT_MAP map) cap keq kh m key v Hc Hci Hcur Hm Hn Hs)
    as (cur & nt & E & Hcur' & Hm' & _). unfold seeded in E. rewrite E. cbn [mbind res_bind].
  assert (Hkh : khash (CURRENT_MAP map) = kh) by apply Hcur. rewrite Hkh.
  destruct (REHASHING_THRESHOLD <? nt).
  - rewrite OTHER_set. destruct Ho as (O1 & O2 & O3 & O4). rewrite O1.
    destruct (map_impl_init_mapping cap Hc (λ k, Z.lxor (kh k) (rand (rand_calls (set_current map cur))))
      d _ _ _ _ _ O4) as (bb & ch & Ei & Hm0).
    unfold rh_map_impl_init. rewrite Ei. cbn [mbind res_bind]. set (other := mk_internal _ _ _ _ _ _ _ _ _ _).
    destruct (rehash_loop_spec d cap keq kh cur (<[d key := (key, v)]> m) (Z.to_nat (capacity cur))
      other 0 ∅) as (other' & -> & Hoc & Hom & _).
    + done.
    + done.
    + done.
    + done.
    + destruct Hcur' as (-> & _). lia.
    + lia.
    + split; [done|]. split; [done|]. split; [done|]. apply Hm0.
    + unfold internal_map, seeded. simpl. rewrite O3. exact Hm0.
    + intros k p w. rewrite lookup_empty. split; [done|]. intros (j & Hj & _). lia.
    + cbn [mbind res_bind]. eexists. split; [done|].
      assert (Ecur : CURRENT_MAP (mk_rmap (map_0 (set_other (set_current map cur) other'))
        (map_1 (set_other (set_current map cur) other'))
        (negb (current_map (set_other (set_current map cur) other')))
        (S (rand_calls (set_other (set_current map cur) other')))) = other').
      { unfold CURRENT_MAP, set_other, set_current. by destruct (current_map map). }
      assert (Eoth : OTHER_MAP (mk_rmap (map_0 (set_other (set_current map cur) other'))
        (map_1 (set_other (set_current map cur) other'))
        (negb (current_map (set_other (set_current map cur) other')))
        (S (rand_calls (set_other (set_current map cur) other')))) = cur).
      { unfold OTHER_MAP, set_other, set_current. by destruct (current_map map). }
      split; [done|done| |by rewrite Ecur]. exists keq, kh. rewrite Ecur, Eoth. done.
  - eexists. split; [done|]. split; [done|done| |by rewrite CURRENT_set].
    exists keq, kh. rewrite CURRENT_set, OTHER_set. done.
Qed.

#[export] Program Instance RMap_laws :
  @MapLaws P K (RMap P K) _ _ (RMap_ops rand) := {| mapp := rmap_inv |}.
Next Obligation. intros. by eapply rmap_get_spec. Qed.
Next Obligation. intros. by eapply rmap_put_spec. Qed.
Next Obligation. intros. by eapply rmap_erase_spec. Qed.
Next Obligation.
  intros d d' map cap m Hd [Hc Hci Hconf Hm]. split; [done|done|done|].
  by apply (mapping_frame cap (seeded (CURRENT_MAP map)) d).
Qed.
Next Obligation. intros d map cap m k p v [_ _ _ [_ Ht]] Hk. by eapply bt_key. Qed.
End interface.

(** C30: The rehashing map gives the answers of a finite map too, for every
    capacity whose double is below [INT_MAX] (the probes are computed in [int]) and
    whatever seeds [rand()] returns: moving all keys to the other table in the middle of
    [map_put] neither loses, duplicates nor changes an entry. *)
Theorem rmap_run_correct {P} `{Inhabited P} {K} `{Countable K} (rand : nat → Z) (d : P → K) cap cs
    (map : RMap P K) m answers m' :
  rmap_inv d map cap m → spec_map d cap m cs = Some (answers, m') →
  ∃ map', exec_map (MapOps0 := RMap_ops rand) d map cs = Ok (answers, map') ∧
    rmap_inv d map' cap m'.
Proof.
  intros Hm E. apply (exec_map_spec (MapLaws0 := RMap_laws rand) d cap cs map m answers m' Hm E).
Qed.

(** Two empty tables of eight buckets and a poor hash function. *)
Definition eight_buckets : Map_Internal Z Z :=
  let z := replicate 8 0 in mk_internal z z z z z 8 0 Z.eqb (λ _, 0) 0.
Definition rmap8 : RMap Z Z := mk_rmap eight_buckets eight_buckets false 0.

Lemma rmap8_ok : rmap_inv (λ p, p) rmap8 8 ∅.
Proof.
  split; [lia|done| |].
  - exists Z.eqb, (λ _, 0). split; [apply Z.eqb_eq|]. by repeat split.
  - split; [done|]. apply table_empty; [done|]. intros x Hx.
    assert (x = 0 ∨ x = 1 ∨ x = 2 ∨ x = 3 ∨ x = 4 ∨ x = 5 ∨ x = 6 ∨ x = 7) as Hc by lia.
    repeat (destruct Hc as [->|Hc]; [done|]). by subst.
Qed.

Definition puts (ks : list Z) : list (map_call Z) := (λ k, MapPut k (10 * k)) <$> ks.

Lemma rmap_run_correct_witness :
  ∃ map' m', exec_map (MapOps0 := RMap_ops (λ n, Z.of_nat n + 3)) (λ p, p) rmap8
      (puts [1; 2; 3; 4; 5; 6] ++ [MapGet 4; MapErase 1; MapGet 1]) =
      Ok ([inl (Some 40); inr (Some 1); inl None], map') ∧
    rmap_inv (λ p, p) map' 8 m'.
Proof.
  eassert (E : spec_map (λ p : Z, p) 8 (∅ : gmap Z (Z * Z))
    (puts [1; 2; 3; 4; 5; 6] ++ [MapGet 4; MapErase 1; MapGet 1]) = Some (_, _)) by by vm_compute.
  destruct (rmap_run_correct (λ n, Z.of_nat n + 3) (λ p, p) 8 _ rmap8 ∅ _ _ rmap8_ok E)
    as (map' & E' & Hm'). exists map'. eexists. split; [exact E'|exact Hm'].
Defined.

(** [map_put] of [rehashing-map.c] does not reset the size of the table it
    moves the keys to, so the second rehashing adds the number of keys to a
    stale count: with colliding keys, after six insertions, one removal and one
    more insertion (a legal sequence), [map_size] is 12 for a map of six keys. *)
Theorem rmap_size_wrong_after_rehash :
  ∃ map', exec_map (MapOps0 := RMap_ops (λ _, 0)) (λ p, p) rmap8
      (puts [1; 2; 3; 4; 5; 6] ++ [MapErase 6] ++ puts [7]) = Ok ([inr (Some 6)], map') ∧
    spec_map (λ p : Z, p) 8 ∅ (puts [1; 2; 3; 4; 5; 6] ++ [MapErase 6] ++ puts [7]) ≠ None ∧
    rmap_size map' = 12.
Proof. eexists. vm_compute. done. Qed.

(** ** Allocation *)
Section alloc.
Context {P : Type} `{Inhabited P} {K : Type} `{Countable K}.
Variables (ok : nat → bool) (junkZ : Z → list Z) (junkP : Z → list P).
Variables (keq : K → K → bool) (kh : K → Z) (cap : Z).
Hypothesis Hcap : 0 < cap.
Hypothesis Hint : 2 * cap < INT_MAX.
Hypothesis HZ : zlen (junkZ cap) = cap.
Hypothesis HP : zlen (junkP cap) = cap.

(** What [map_internal_allocate] returns: an empty table for every seed. *)
Lemma map_internal_allocate_spec d h :
  heap_wf h →
  (∃ t h' bs, map_internal_allocate ok junkZ junkP keq kh cap h = Ok ((1, Some t), h') ∧
     (∀ seed, internal_conf (with_seed t seed) cap keq kh ∧
       internal_map d (with_seed t seed) cap ∅) ∧
     length bs = 6%nat ∧ live h' = bs ++ live h ∧ heap_wf h') ∨
  (∃ n, map_internal_allocate ok junkZ junkP keq kh cap h = Ok ((0, None), mk_heap n (live h))).
Proof.
  intros Hwf.
  set (k := λ (bs : list nat) (h : heap), '(bbs, chs) ← rh_map_impl_init (junkZ cap) (junkZ cap) cap;
    Ok ((1, Some (mk_internal bbs (junkP cap) (junkZ cap) chs (junkZ cap) cap 0 keq kh 0)), h)).
  assert (map_internal_allocate ok junkZ junkP keq kh cap h = malloc_all ok 6 [] (0, None) k h) as ->
    by reflexivity.
  destruct (malloc_all_top ok 6 (0, None) k h Hwf) as [(bs & h' & -> & Hb & Hlive & Hwf')|(n & E & _)];
    [left|right; by exists n].
  assert (Hm : ∀ seed, ∃ bb ch, rh_map_impl_init (junkZ cap) (junkZ cap) cap = Ok (bb, ch) ∧
    mapping cap (λ x, Z.lxor (kh x) seed) d bb (junkP cap) (junkZ cap) ch (junkZ cap) ∅).
  { intros seed. by apply map_impl_init_mapping. }
  destruct (Hm 0) as (bb & ch & E & _). unfold k. rewrite E. cbn [mbind res_bind].
  eexists _, h', bs. split; [done|]. split; [|done].
  intros seed. destruct (Hm seed) as (bb' & ch' & E' & Hmap). rewrite E in E'. injection E' as <- <-.
  split; [|done]. split; [done|]. split; [done|]. split; [done|]. apply Hmap.
Qed.

(** [map_allocate] of [rehashing-map.c] sets up an empty map, for any capacity
    whose double is below [INT_MAX], if it gets its thirteen blocks. If it does not get the first, it changes
    nothing. But if a later request fails, it leaves [*map_out] pointing to the
    block it has freed, and if the failing request is one for the second table,
    it loses the six blocks of the first. *)
Theorem rmap_allocate_outcomes rand map_out n h d :
  (∀ k1 k2, keq k1 k2 = true ↔ k1 = k2) → heap_wf h →
  let run := rmap_allocate rand ok junkZ junkP keq kh cap map_out n h in
  (∃ b map h' bs, run = Ok ((1, Some b, Some map), h') ∧ rmap_inv d map cap ∅ ∧
     length bs = 13%nat ∧ live h' = bs ++ live h) ∨
  (∃ h', run = Ok ((0, map_out, None), h') ∧ live h' = live h) ∨
  (∃ b h' lost, run = Ok ((0, Some b, None), h') ∧ b ∉ live h' ∧ live h' = lost ++ live h ∧
     (lost = [] ∨ length lost = 6%nat)).
Proof.
  intros Heq Hwf run. unfold run, rmap_allocate, malloc_or, malloc.
  pose proof (heap_wf_malloc _ Hwf) as Hwf1.
  set (b := next_block h) in *. set (h1 := mk_heap (S b) (b :: live h)) in *.
  destruct (ok b); [|right; left; eexists; by split].
  assert (Hbl : b ∉ live h) by (destruct Hwf as [_ Hb]; intros ?%Hb; unfold b in *; lia).
  destruct (map_internal_allocate_spec d h1 Hwf1)
    as [(t0 & h2 & bs0 & -> & Ht0 & Hb0 & Hl2 & Hwf2)|(k & ->)]; cbn [mbind res_bind].
  - destruct (map_internal_allocate_spec d h2 Hwf2)
      as [(t1 & h3 & bs1 & -> & Ht1 & Hb1 & Hl3 & Hwf3)|(k & ->)]; cbn [mbind res_bind].
    + left. exists b. eexists _, h3, (bs1 ++ bs0 ++ [b]). split; [done|]. split.
      * split; [done|done| |apply Ht0]. exists keq, kh. split; [done|]. split; [apply Ht0|apply Ht1].
      * rewrite Hl3, Hl2, !length_app. simpl. rewrite <- !app_assoc. split; [lia|done].
    + right. right. destruct Hwf2 as [Hnd _]. rewrite Hl2 in *. unfold h1 in *. simpl in *.
      rewrite free_below by done. cbn [mbind res_bind].
      exists b, (mk_heap k (bs0 ++ live h)), bs0. split; [done|]. simpl.
      split; [|by split; [|right]]. apply NoDup_app in Hnd as (_ & Hd & _).
      rewrite elem_of_app. intros [Hin|Hin]; [|done]. apply (Hd b Hin). by left.
  - right. right. unfold h1 in *. simpl in *.
    pose proof (free_below b [] k (live h) (proj1 Hwf1)) as Hf. simpl in Hf. rewrite Hf. cbn [mbind res_bind].
    exists b, (mk_heap k (live h)), []. split; [done|]. split; [done|]. split; [done|by left].
Qed.
End alloc.

(** The second table cannot be allocated: six blocks are lost, the output dangles. *)
Lemma rmap_allocate_outcomes_witness :
  let run := rmap_allocate (P := Z) (K := Z) (λ _, 0) (λ n, negb (n =? 9)%nat)
    (λ c, replicate (Z.to_nat c) 7) (λ c, replicate (Z.to_nat c) 0) Z.eqb (λ k, k) 4 None 0
    (mk_heap 0 []) in
  ((∃ b map h' bs, run = Ok ((1, Some b, Some map), h') ∧ rmap_inv (λ p, p) map 4 ∅ ∧
     length bs = 13%nat ∧ live h' = bs ++ []) ∨
   (∃ h', run = Ok ((0, None, None), h') ∧ live h' = []) ∨
   (∃ b h' lost, run = Ok ((0, Some b, None), h') ∧ b ∉ live h' ∧ live h' = lost ++ [] ∧
     (lost = [] ∨ length lost = 6%nat))) ∧
  run = Ok ((0, Some 0%nat, None), mk_heap 10 [6; 5; 4; 3; 2; 1]%nat).
Proof.
  split; [|by vm_compute].
  apply (rmap_allocate_outcomes (λ n, negb (n =? 9)%nat) (λ c, replicate (Z.to_nat c) 7)
    (λ c, replicate (Z.to_nat c) 0) Z.eqb (λ k, k) 4); [lia|done|done|done|apply Z.eqb_eq| ].
  split; simpl; [constructor|by intros b ?%elem_of_nil].
Defined.
