(* ===== verification/Vector.v ===== *)
(** * Vectors

    Models [lib/containers/vector.c]: an array of [capacity] elements of
    [elem_size] bytes. [vector_borrow] computes the address of an element, which
    is undefined outside of the array; the client then reads or writes the
    element through that address and gives it back with [vector_return], which
    does nothing. An address into a vector is the index of its element.
    [vector_allocate] computes the size of the elements in 32 bits; the loop that
    initialises them fails if it leaves the block. *)

From S2P Require Import Prelude.
From S2P Require Import Malloc.

Record Vector (A : Type) := mk_vector { data : list A; elem_size : Z; vec_capacity : Z }.
Arguments mk_vector {A} _ _ _.
Arguments data {A} _.
Arguments elem_size {A} _.
Arguments vec_capacity {A} _.

(** A [void*] that is either the address of a local variable holding [k], or of
    the [i]-th element of a vector. *)
Inductive ptr (K : Type) :=
| Local (k : K)
| Cell (i : Z).
Arguments Local {K} k.
Arguments Cell {K} i.

#[global] Instance ptr_eq_dec `{EqDecision K} : EqDecision (ptr K).
Proof. solve_decision. Defined.
#[global] Instance ptr_inhabited {K} : Inhabited (ptr K) := populate (Cell 0).

Section ops.
Context {A : Type}.
Implicit Types (vector : Vector A).

(** The [for] loop of [vector_allocate]; [n] is [capacity - i]. The array has [bytes]
    bytes, and the address of element [i] is computed with the [int] product
    [elem_size * i]. *)
Fixpoint vector_init_loop (n : nat) (elem_size bytes : Z) (init_elem : A → A) (elems : list A)
    (i : Z) : res (list A) :=
  match n with
  | O => Ok elems
  | S n' =>
      offset ← int_mul elem_size i;
      if bytes <? offset + elem_size then Err OutOfBounds
      else
        x ← rd elems i;
        elems ← wr elems i (init_elem x);
        vector_init_loop n' elem_size bytes init_elem elems (i + 1)
  end.

(** [junk] is the contents of the fresh array, as far as it goes: [elem_size] is an [int]
    and [capacity] is [unsigned], so that the size passed to [malloc] is a 32-bit product,
    which wraps around. The result is the return value, the block stored in
    [*vector_out] and the vector built there. *)
Definition vector_allocate (ok : nat → bool) (elem_size capacity : Z) (init_elem : A → A)
    (old_vector_out : nat) (junk : list A) : heap → res ((Z * nat * option (Vector A)) * heap) :=
  let fail := (0, old_vector_out, None) in
  malloc_or ok [] fail (λ vector_alloc,
  let bytes := u32 (elem_size * capacity) in
  malloc_or ok [vector_alloc] fail (λ data_alloc h,
    elems ← vector_init_loop (Z.to_nat capacity) elem_size bytes init_elem junk 0;
    Ok ((1, vector_alloc, Some (mk_vector elems elem_size capacity)), h))).

(** The address of element [index]. A vector that [vector_allocate] has returned has
    [capacity] elements whose offsets are [int]s ([vector_allocate_size]), so the product
    [index * elem_size] of an index in range does not overflow. *)
Definition vector_borrow vector (index : Z) : res (ptr A) :=
  if (0 <=? index) && (index <? zlen (data vector)) then Ok (Cell index) else Err OutOfBounds.

Definition vector_return vector (index : Z) (value : ptr A) : res unit := Ok tt.

(** [*p] and [*p = x] for a pointer to an element. *)
Definition load vector (p : ptr A) : res A :=
  match p with Local k => Ok k | Cell i => rd (data vector) i end.
Definition store vector (p : ptr A) (x : A) : res (Vector A) :=
  match p with
  | Local _ => Ok vector
  | Cell i => elems ← wr (data vector) i x;
      Ok (mk_vector elems (elem_size vector) (vec_capacity vector))
  end.

(** The memory as the maps see it. *)
Definition deref `{Inhabited A} vector (p : ptr A) : A :=
  match p with Local k => k | Cell i => getz (data vector) i end.
End ops.

Section lemmas.
Context {A : Type} `{Inhabited A}.
Implicit Types (vector : Vector A).

(** The sizes for which every element is inside the array that [malloc] was asked for. *)
Definition vector_fits (elem_size capacity : Z) : Prop :=
  0 < elem_size < 2 ^ 31 ∧ elem_size * (capacity - 1) < 2 ^ 31.

Lemma vector_fits_pow2 elem_size n m :
  0 < elem_size < 2 ^ 31 → 0 <= n <= m → elem_size * 2 ^ m <= 2 ^ 31 →
  vector_fits elem_size (2 ^ n).
Proof.
  intros Hs Hn Hm. split; [done|]. pose proof (Z.pow_le_mono_r 2 n m). nia.
Qed.

Lemma vector_init_loop_spec n elem_size bytes (init_elem : A → A) elems i :
  0 < elem_size → elem_size * (zlen elems - 1) < 2 ^ 31 → elem_size * zlen elems <= bytes →
  Z.of_nat n = zlen elems - i → 0 <= i →
  ∃ elems', vector_init_loop n elem_size bytes init_elem elems i = Ok elems' ∧ zlen elems' = zlen elems ∧
    ∀ j, 0 <= j < zlen elems →
      getz elems' j = if i <=? j then init_elem (getz elems j) else getz elems j.
Proof.
  intros Hs. revert elems i. induction n as [|n IH]; intros elems i Hm Hb Hn Hi; cbn [vector_init_loop].
  { exists elems. split; [done|]. split; [done|]. intros j Hj.
    by rewrite (proj2 (Z.leb_gt _ _)) by lia. }
  rewrite int_mul_ok by nia. rewrite bind_Ok, (proj2 (Z.ltb_ge _ _)) by nia.
  crun. destruct (IH (setz elems i (init_elem (getz elems i))) (i + 1)) as (e & -> & Hl & He);
    [rewrite zlen_setz; lia..|bounds|lia|]. rewrite zlen_setz in *.
  exists e. split; [done|]. split; [done|]. intros j Hj. rewrite He by done.
  destruct (decide (i = j)) as [->|Hne].
  - rewrite (proj2 (Z.leb_gt _ _)), Z.leb_refl by lia. by rewrite getz_setz_eq.
  - rewrite !getz_setz_ne by lia. destruct (Z.leb_spec (i + 1) j), (Z.leb_spec i j); lia || done.
Qed.

Lemma vector_borrow_ok vector i :
  0 <= i < zlen (data vector) → vector_borrow vector i = Ok (Cell i).
Proof.
  intros Hi. unfold vector_borrow.
  by rewrite (proj2 (Z.leb_le _ _)), (proj2 (Z.ltb_lt _ _)) by lia.
Qed.

Lemma vector_borrow_err vector i :
  ¬ (0 <= i < zlen (data vector)) → vector_borrow vector i = Err OutOfBounds.
Proof.
  intros Hi. unfold vector_borrow.
  destruct (Z.leb_spec 0 i), (Z.ltb_spec i (zlen (data vector))); simpl; done || lia.
Qed.

Lemma load_cell vector i :
  0 <= i < zlen (data vector) → load vector (Cell i) = Ok (getz (data vector) i).
Proof. apply rd_ok. Qed.

Lemma store_cell vector i x :
  0 <= i < zlen (data vector) → store vector (Cell i) x =
    Ok (mk_vector (setz (data vector) i x) (elem_size vector) (vec_capacity vector)).
Proof. intros Hi. simpl. by rewrite wr_ok. Qed.

(** [vector_allocate] either returns 1 with a vector whose every element has
    been passed to [init_elem], or, only if a request fails,
    returns 0, releases what it had obtained and
    restores [*vector_out]; provided that the offsets of all elements are [int]s. *)
Theorem vector_allocate_no_leak ok elem_size capacity (init_elem : A → A) old junk h :
  vector_fits elem_size capacity → heap_wf h → 0 <= capacity → zlen junk = capacity →
  (∃ b v h', vector_allocate ok elem_size capacity init_elem old junk h =
       Ok ((1, b, Some v), h') ∧
     zlen (data v) = capacity ∧ vec_capacity v = capacity ∧
     (∀ i, 0 <= i < capacity → getz (data v) i = init_elem (getz junk i)) ∧ heap_wf h' ∧
     ∃ bs, length bs = 2%nat ∧ live h' = bs ++ live h) ∨
  (∃ n, vector_allocate ok elem_size capacity init_elem old junk h =
     Ok ((0, old, None), mk_heap n (live h)) ∧
     ∃ r, ok r = false).
Proof.
  intros [Hs Hfit] Hwf Hc Hl. assert (0 <= elem_size * capacity < 2 ^ 32) by nia.
  set (k := λ (bs : list nat) (h : heap),
    elems ← vector_init_loop (Z.to_nat capacity) elem_size (u32 (elem_size * capacity)) init_elem junk 0;
    Ok ((1, nth 1 bs 0%nat, Some (mk_vector elems elem_size capacity)), h)).
  assert (vector_allocate ok elem_size capacity init_elem old junk h =
    malloc_all ok 2 [] (0, old, None) k h) as -> by reflexivity.
  destruct (malloc_all_top ok 2 (0, old, None) k h Hwf) as [(bs & h' & -> & Hb & Hlive & Hwf')|?];
    [left|by right].
  destruct (vector_init_loop_spec (Z.to_nat capacity) elem_size (u32 (elem_size * capacity))
    init_elem junk 0) as (e & Ee & He & Hg); [rewrite ?u32_id, ?Hl by done; lia..|].
  exists (nth 1 bs 0%nat), (mk_vector e elem_size capacity), h'. unfold k. rewrite Ee.
  split; [done|]. split; [simpl; lia|]. split; [done|]. split; [|split; [done|by exists bs]].
  intros i Hi. simpl. rewrite Hg by lia. by rewrite (proj2 (Z.leb_le _ _)) by lia.
Qed.

(** The loop reaches no element that does not fit. *)
Lemma vector_init_loop_fits n elem_size bytes (init_elem : A → A) elems i e :
  vector_init_loop n elem_size bytes init_elem elems i = Ok e →
  ∀ j, i <= j < i + Z.of_nat n → - 2 ^ 31 <= elem_size * j < 2 ^ 31 ∧ elem_size * j + elem_size <= bytes.
Proof.
  revert elems i. induction n as [|n IH]; intros elems i E j Hj; [lia|].
  cbn [vector_init_loop] in E. apply res_bind_Ok in E as (o & [-> Ho]%int_mul_inv & E).
  destruct (Z.ltb_spec bytes (elem_size * i + elem_size)); [done|].
  apply res_bind_Ok in E as (x & _ & E). apply res_bind_Ok in E as (elems' & _ & E).
  destruct (decide (j = i)) as [->|]; [lia|]. apply (IH _ _ E). lia.
Qed.

(** [vector_allocate] never returns a vector that is too large: if it returns one, the
    size of the array is the product without wrap-around and the offset of every
    element is an [int]. When the product is larger it does not return 0 either: it
    runs out of the array. *)
Theorem vector_allocate_size ok elem_size capacity (init_elem : A → A) old junk h b v h' :
  0 < elem_size < 2 ^ 31 → 0 < capacity →
  vector_allocate ok elem_size capacity init_elem old junk h = Ok ((1, b, Some v), h') →
  vector_fits elem_size capacity.
Proof.
  intros Hs Hc. unfold vector_allocate, malloc_or, malloc. cbn [next_block live].
  destruct (ok _); [|by intros (x & _ & [= ])%res_bind_Ok]. cbn [next_block live].
  destruct (ok _); [|by intros (x & _ & [= ])%res_bind_Ok].
  intros (e & E & _)%res_bind_Ok. split; [done|].
  pose proof (vector_init_loop_fits _ _ _ _ _ _ _ E (capacity - 1)) as [??]; lia.
Qed.

Theorem vector_allocate_too_large elem_size capacity (init_elem : A → A) old junk h :
  0 < elem_size < 2 ^ 31 → 0 < capacity → ¬ vector_fits elem_size capacity →
  ∃ e, vector_allocate (λ _, true) elem_size capacity init_elem old junk h = Err e.
Proof.
  intros Hs Hc Hn. unfold vector_allocate, malloc_or, malloc. cbn [next_block live].
  destruct (vector_init_loop _ _ _ _ _ _) as [e|e] eqn:E; [|by exists e].
  destruct Hn. split; [done|].
  pose proof (vector_init_loop_fits _ _ _ _ _ _ _ E (capacity - 1)) as [??]; lia.
Qed.

End lemmas.

Lemma vector_allocate_no_leak_witness :
  (∃ b v h', vector_allocate (λ _, true) 8 3 Z.succ 7 [1; 2; 3] (mk_heap 0 []) =
       Ok ((1, b, Some v), h') ∧
     zlen (data v) = 3 ∧ vec_capacity v = 3 ∧
     (∀ i, 0 <= i < 3 → getz (data v) i = Z.succ (getz [1; 2; 3] i)) ∧ heap_wf h' ∧
     ∃ bs, length bs = 2%nat ∧ live h' = bs ++ []) ∨
  (∃ n, vector_allocate (λ _, true) 8 3 Z.succ 7 [1; 2; 3] (mk_heap 0 []) =
     Ok ((0, 7%nat, None), mk_heap n []) ∧
     ∃ r, (λ _ : nat, true) r = false).
Proof.
  apply (vector_allocate_no_leak (λ _, true) 8 3 Z.succ 7 [1; 2; 3] (mk_heap 0 [])); try done.
  split; simpl; [constructor|]. by intros b ?%elem_of_nil.
Defined.
