(* ===== verification/Coherence.v ===== *)
(** * A map, a vector and an index chain kept together

    The network functions keep their flow tables in three containers: a map from
    keys to indexes, a vector that holds the key of each index and a
    [DoubleChain] that hands out the indexes and orders them by age. This file
    states what it means that the three agree (the predicates of
    [lib/coherence.h]) and shows that the sequences of calls the network
    functions make keep them in agreement. It is proved against the interface of
    the maps only. *)

From S2P Require Import Prelude.
From S2P Require Import DChainImpl.
From S2P Require Import DChain.
From S2P Require Import MapSpec.
From S2P Require Import Vector.

Section coherence.
Context {K : Type} `{Inhabited K, Countable K} {M : Type}.
Context `{!MapOps (ptr K) K M, !MapLaws (ptr K) K M}.
Implicit Types (map : M) (v : Vector K) (chain : DoubleChain) (ch : dchain) (k : K)
  (i t : Z) (keys : list K) (idxs : list Z).

(** The contents of the map: every index in use is stored under the key that
    its element of the vector holds, through a pointer to that element. *)
Definition coh_map (key : Z → K) idxs : gmap K (ptr K * Z) :=
  list_to_map ((λ i, (key i, (Cell i, i))) <$> idxs).

Lemma coh_map_fst (key : Z → K) idxs :
  ((λ i, (key i, (@Cell K i, i))) <$> idxs).*1 = key <$> idxs.
Proof. rewrite <- list_fmap_compose. done. Qed.

Lemma coh_map_lookup key idxs k p i :
  NoDup (key <$> idxs) →
  coh_map key idxs !! k = Some (p, i) ↔ p = Cell i ∧ i ∈ idxs ∧ key i = k.
Proof.
  intros Hnd. unfold coh_map. rewrite <- elem_of_list_to_map by by rewrite coh_map_fst.
  rewrite list_elem_of_fmap. split.
  - intros (j & [= -> -> ->] & Hj). done.
  - intros (-> & Hi & <-). by exists i.
Qed.

Lemma coh_map_lookup_None key idxs k :
  coh_map key idxs !! k = None ↔ k ∉ (key <$> idxs).
Proof. unfold coh_map. by rewrite <- not_elem_of_list_to_map, coh_map_fst. Qed.

Lemma coh_map_size key idxs :
  NoDup (key <$> idxs) → size (coh_map key idxs) = length idxs.
Proof.
  intros Hnd. unfold coh_map.
  rewrite map_size_list_to_map by by rewrite coh_map_fst. by rewrite length_fmap.
Qed.

Lemma coh_map_perm key idxs idxs' :
  NoDup (key <$> idxs) → idxs ≡ₚ idxs' → coh_map key idxs = coh_map key idxs'.
Proof.
  intros Hnd Hp. apply list_to_map_proper; [by rewrite coh_map_fst|]. by rewrite Hp.
Qed.

Lemma coh_map_snoc key idxs i :
  NoDup (key <$> (i :: idxs)) →
  coh_map key (idxs ++ [i]) = <[key i := (Cell i, i)]> (coh_map key idxs).
Proof.
  intros Hnd. rewrite (coh_map_perm _ _ (i :: idxs)); [done| |].
  - rewrite <- Permutation_cons_append. done.
  - by rewrite <- Permutation_cons_append.
Qed.

Lemma coh_map_write keys idxs i k :
  0 <= i < zlen keys → (∀ j, j ∈ idxs → 0 <= j) → i ∉ idxs →
  coh_map (getz (setz keys i k)) idxs = coh_map (getz keys) idxs.
Proof.
  intros Hi Hj Hn. unfold coh_map. f_equal. apply list_fmap_ext.
  intros x j Hx%list_elem_of_lookup_2. rewrite getz_setz_ne; [done| |done|by apply Hj].
  by intros ->.
Qed.

Lemma keys_write keys idxs i k :
  0 <= i < zlen keys → (∀ j, j ∈ idxs → 0 <= j) → i ∉ idxs →
  getz (setz keys i k) <$> idxs = getz keys <$> idxs.
Proof.
  intros Hi Hj Hn. apply list_fmap_ext. intros x j Hx%list_elem_of_lookup_2.
  rewrite getz_setz_ne; [done| |done|by apply Hj]. by intros ->.
Qed.

Lemma coh_map_remove key idxs i :
  NoDup (key <$> idxs) → i ∈ idxs →
  coh_map key (remove_fst i idxs) = delete (key i) (coh_map key idxs).
Proof.
  intros Hnd Hi. destruct (list_elem_of_split_l _ _ Hi) as (l1 & l2 & -> & Hn).
  rewrite remove_fst_split by done.
  rewrite (coh_map_perm key (l1 ++ i :: l2) (i :: l1 ++ l2)); [| |by rewrite Permutation_middle];
    [|done].
  unfold coh_map at 2. rewrite fmap_cons. simpl.
  rewrite delete_insert_id; [done|]. apply coh_map_lookup_None.
  rewrite fmap_app, fmap_cons, <- Permutation_middle in Hnd.
  rewrite fmap_app. by apply NoDup_cons in Hnd as [? _].
Qed.

Record coherent map v chain ch : Prop := {
  co_chain : double_chainp ch chain;
  co_vec : zlen (data v) = dchain_index_range_fp ch;
  co_keys : NoDup (getz (data v) <$> dchain_indexes_fp ch);
  co_map : mapp (deref v) map (dchain_index_range_fp ch)
             (coh_map (getz (data v)) (dchain_indexes_fp ch))
}.

(** Touching an index keeps the set of indexes. *)
Lemma rejuvenate_perm ch i time :
  i ∈ dchain_indexes_fp ch →
  dchain_indexes_fp (dchain_rejuvenate_fp ch i time) ≡ₚ dchain_indexes_fp ch.
Proof.
  intros Hi. unfold dchain_rejuvenate_fp, dchain_indexes_fp at 1. simpl.
  rewrite fmap_app, remove_by_index_fst. simpl. fold (dchain_indexes_fp ch).
  destruct (list_elem_of_split_l _ _ Hi) as (l1 & l2 & E & Hn). rewrite E.
  rewrite remove_fst_split by done. rewrite <- Permutation_cons_append.
  by rewrite Permutation_middle.
Qed.

Lemma rejuvenate_indexes ch i time j :
  i ∈ dchain_indexes_fp ch →
  j ∈ dchain_indexes_fp (dchain_rejuvenate_fp ch i time) → j ∈ dchain_indexes_fp ch.
Proof. intros Hi. by rewrite rejuvenate_perm. Qed.

(** *** The abstract table: (key, index, time of last use), the oldest first *)
Definition table_of v ch : list (K * Z * Z) :=
  (λ '(i, t), (getz (data v) i, i, t)) <$> dchain_alist_fp ch.

(** The index a key is stored under. *)
Definition index_of v ch k : option Z :=
  snd <$> (coh_map (getz (data v)) (dchain_indexes_fp ch) !! k).

Section facts.
Context {map : M} {v : Vector K} {chain : DoubleChain} {ch : dchain}.
Hypothesis Hco : coherent map v chain ch.

Lemma co_range i : i ∈ dchain_indexes_fp ch → 0 <= i < dchain_index_range_fp ch.
Proof. apply (double_chainp_range (co_chain _ _ _ _ Hco)). Qed.

Lemma index_of_Some k i :
  index_of v ch k = Some i ↔ i ∈ dchain_indexes_fp ch ∧ getz (data v) i = k.
Proof.
  unfold index_of. pose proof (co_keys _ _ _ _ Hco) as Hnd. split.
  - intros ([p j] & E & [= ->])%fmap_Some_1.
    apply coh_map_lookup in E as (? & ? & ?); done.
  - intros Hi. rewrite (proj2 (coh_map_lookup _ _ k (Cell i) i Hnd)); [done|]. done.
Qed.

Lemma index_of_None k :
  index_of v ch k = None ↔ ∀ i, i ∈ dchain_indexes_fp ch → getz (data v) i ≠ k.
Proof.
  unfold index_of. rewrite fmap_None, coh_map_lookup_None, list_elem_of_fmap. naive_solver.
Qed.

Lemma coherent_get k : map_get (deref v) map (Local k) = Ok (index_of v ch k).
Proof. rewrite (map_get_law _ _ _ _ _ (co_map _ _ _ _ Hco)). done. Qed.

(** Touching an index. *)
Lemma coherent_rejuvenate i time :
  i ∈ dchain_indexes_fp ch → dchain_high_fp ch <= time →
  ∃ chain', dchain_rejuvenate_index chain i time = Ok (1, chain') ∧
    coherent map v chain' (dchain_rejuvenate_fp ch i time).
Proof.
  intros Hi Ht.
  pose proof (dchain_rejuvenate_index_spec (co_chain _ _ _ _ Hco) i time (co_range i Hi) Ht) as H'.
  rewrite (proj2 (dchain_allocated_spec _ _) Hi) in H'. destruct H' as (chain' & -> & Hc).
  exists chain'. split; [done|].
  pose proof (rejuvenate_perm ch i time Hi) as Hp.
  pose proof (co_keys _ _ _ _ Hco) as Hnd.
  split; [done|apply (co_vec _ _ _ _ Hco)|by rewrite Hp|].
  rewrite (coh_map_perm _ _ (dchain_indexes_fp ch)) by by rewrite ?Hp.
  apply (co_map _ _ _ _ Hco).
Qed.

(** Storing a new key: index from the chain, key into the vector, then the map. *)
Lemma coherent_insert k i time chain' :
  index_of v ch k = None → 0 <= i < dchain_index_range_fp ch →
  dchain_allocated_fp ch i = false →
  double_chainp (dchain_allocate_fp ch i time) chain' →
  let v' := mk_vector (setz (data v) i k) (elem_size v) (vec_capacity v) in
  ∃ map', map_put (deref v') map (Cell i) i = Ok map' ∧
    coherent map' v' chain' (dchain_allocate_fp ch i time).
Proof.
  intros Hk Hi Hn Hc v'. pose proof (co_vec _ _ _ _ Hco) as Hv.
  assert (Hni : i ∉ dchain_indexes_fp ch).
  { rewrite <- dchain_allocated_spec. congruence. }
  assert (Hpos : ∀ j, j ∈ dchain_indexes_fp ch → 0 <= j).
  { intros j Hj%co_range. lia. }
  assert (Hidx : dchain_indexes_fp (dchain_allocate_fp ch i time) = dchain_indexes_fp ch ++ [i]).
  { unfold dchain_indexes_fp, dchain_allocate_fp. simpl. by rewrite fmap_app. }
  assert (Hmap : mapp (deref v') map (dchain_index_range_fp ch)
                   (coh_map (getz (data v)) (dchain_indexes_fp ch))).
  { eapply mapp_frame; [|apply (co_map _ _ _ _ Hco)]. intros k' p j Hj.
    apply coh_map_lookup in Hj as (-> & Hj & _); [|apply Hco]. simpl.
    rewrite getz_setz_ne; [done| |lia|by apply Hpos]. by intros ->. }
  assert (Hki : deref v' (Cell i) = k) by (apply getz_setz_eq; lia).
  assert (Hnone : coh_map (getz (data v)) (dchain_indexes_fp ch) !! k = None).
  { unfold index_of in Hk. by apply fmap_None in Hk. }
  destruct (map_put_law (deref v') map _ _ (Cell i) i Hmap) as (map' & -> & Hm').
  - by rewrite Hki.
  - rewrite coh_map_size by apply Hco.
    pose proof (double_chainp_len Hc) as Hl. simpl in Hl.
    rewrite zlen_app in Hl. unfold zlen, dchain_indexes_fp in *. rewrite length_fmap.
    simpl in Hl. lia.
  - exists map'. split; [done|]. rewrite Hki in Hm'.
    assert (Hnd : NoDup (getz (data v') <$> (i :: dchain_indexes_fp ch))).
    { rewrite fmap_cons. apply NoDup_cons. simpl. rewrite keys_write by (done || lia).
      rewrite getz_setz_eq by lia. split; [|apply Hco]. by apply coh_map_lookup_None. }
    split; [done|by simpl; rewrite zlen_setz| |].
    + rewrite Hidx, <- Permutation_cons_append. done.
    + rewrite Hidx, coh_map_snoc by done. simpl.
      rewrite getz_setz_eq, coh_map_write by (done || lia). done.
Qed.

(** Dropping an index: chain first, then the map. *)
Lemma coherent_remove i chain' :
  i ∈ dchain_indexes_fp ch → double_chainp (dchain_remove_index_fp ch i) chain' →
  ∃ map', map_erase (deref v) map (Cell i) = Ok (map', Some (Cell i)) ∧
    coherent map' v chain' (dchain_remove_index_fp ch i).
Proof.
  intros Hi Hc. pose proof (co_keys _ _ _ _ Hco) as Hnd.
  destruct (map_erase_law (deref v) map _ _ (Cell i) (Cell i) i (co_map _ _ _ _ Hco))
    as (map' & -> & Hm').
  { by apply coh_map_lookup. }
  exists map'. split; [done|].
  assert (Hidx : dchain_indexes_fp (dchain_remove_index_fp ch i) =
                 remove_fst i (dchain_indexes_fp ch)) by apply remove_by_index_fst.
  split; [done|apply (co_vec _ _ _ _ Hco)| |].
  - rewrite Hidx. destruct (list_elem_of_split_l _ _ Hi) as (l1 & l2 & E & Hn).
    rewrite E in *. rewrite remove_fst_split by done.
    rewrite fmap_app, fmap_cons, <- Permutation_middle in Hnd. rewrite fmap_app.
    by apply NoDup_cons in Hnd as [_ ?].
  - rewrite Hidx, coh_map_remove by done. done.
Qed.

(** *** What the operations do to the abstract table *)
Lemma table_lookup i :
  i ∈ dchain_indexes_fp ch →
  ∃ l1 t l2, table_of v ch = l1 ++ (getz (data v) i, i, t) :: l2 ∧
    ∀ time, table_of v (dchain_rejuvenate_fp ch i time) =
      (l1 ++ l2) ++ [(getz (data v) i, i, time)].
Proof.
  intros Hi. destruct (elem_of_indexes_split _ _ Hi) as (l1 & t & l2 & E & Hn).
  unfold table_of at 1. rewrite E, fmap_app, fmap_cons.
  eexists _, t, _. split; [done|]. intros time. unfold table_of, dchain_rejuvenate_fp. simpl.
  rewrite E, remove_by_index_split by done. by rewrite !fmap_app.
Qed.

Lemma table_insert k i time :
  0 <= i < dchain_index_range_fp ch → dchain_allocated_fp ch i = false →
  table_of (mk_vector (setz (data v) i k) (elem_size v) (vec_capacity v))
    (dchain_allocate_fp ch i time) = table_of v ch ++ [(k, i, time)].
Proof.
  intros Hi Ha. unfold table_of, dchain_allocate_fp. simpl. rewrite fmap_app. simpl.
  pose proof (co_vec _ _ _ _ Hco) as Hv. rewrite getz_setz_eq by lia. f_equal.
  apply list_fmap_ext. intros n [j t] Hj%list_elem_of_lookup_2.
  assert (Hjx : j ∈ dchain_indexes_fp ch) by (apply list_elem_of_fmap; by exists (j, t)).
  pose proof (co_range j Hjx). rewrite getz_setz_ne; [done| |lia|lia].
  intros ->. apply dchain_allocated_spec in Hjx. congruence.
Qed.

Lemma table_index i : i ∈ (λ e, e.1.2) <$> table_of v ch ↔ i ∈ dchain_indexes_fp ch.
Proof.
  unfold table_of, dchain_indexes_fp. rewrite <- list_fmap_compose.
  rewrite !list_elem_of_fmap. split; intros ([j t] & -> & Hj); by exists (j, t).
Qed.

Lemma table_key k : k ∈ (λ e, e.1.1) <$> table_of v ch ↔ is_Some (index_of v ch k).
Proof.
  unfold table_of. rewrite <- list_fmap_compose, list_elem_of_fmap. split.
  - intros ([j t] & -> & Hj). exists j. apply index_of_Some. split; [|done].
    apply list_elem_of_fmap. by exists (j, t).
  - intros [i Hi]. apply index_of_Some in Hi as [Hi Hk].
    apply list_elem_of_fmap in Hi as ([j t] & -> & Hj). by exists (j, t).
Qed.

(** No two entries share a key or an index. *)
Lemma table_nodup_keys : NoDup ((λ e, e.1.1) <$> table_of v ch).
Proof.
  pose proof (co_keys _ _ _ _ Hco) as Hnd. unfold table_of, dchain_indexes_fp in *.
  rewrite <- list_fmap_compose. rewrite <- list_fmap_compose in Hnd.
  erewrite list_fmap_ext; [exact Hnd|]. by intros ? [].
Qed.

Lemma table_nodup_indexes : NoDup ((λ e, e.1.2) <$> table_of v ch).
Proof.
  pose proof (double_chainp_nodup (co_chain _ _ _ _ Hco)) as Hnd.
  unfold table_of, dchain_indexes_fp in *. rewrite <- list_fmap_compose.
  erewrite list_fmap_ext; [exact Hnd|]. by intros ? [].
Qed.

Lemma table_len : zlen (table_of v ch) = zlen (dchain_alist_fp ch).
Proof. unfold table_of, zlen. by rewrite length_fmap. Qed.
End facts.

(** After an insertion only the new key has a new index. *)
Lemma index_of_insert map v chain ch map' chain' k i time :
  coherent map v chain ch → 0 <= i < dchain_index_range_fp ch →
  dchain_allocated_fp ch i = false →
  let v' := mk_vector (setz (data v) i k) (elem_size v) (vec_capacity v) in
  coherent map' v' chain' (dchain_allocate_fp ch i time) →
  index_of v' (dchain_allocate_fp ch i time) k = Some i ∧
  ∀ k', k' ≠ k → index_of v' (dchain_allocate_fp ch i time) k' = index_of v ch k'.
Proof.
  intros Hco Hi Hn v' Hco'. pose proof (co_vec _ _ _ _ Hco) as Hv.
  assert (Hidx : ∀ j, j ∈ dchain_indexes_fp (dchain_allocate_fp ch i time) ↔
    j ∈ dchain_indexes_fp ch ∨ j = i).
  { intros j. unfold dchain_indexes_fp, dchain_allocate_fp. simpl.
    rewrite fmap_app, elem_of_app. cbn [fmap list_fmap fst]. by rewrite list_elem_of_singleton. }
  assert (Hother : ∀ j, j ∈ dchain_indexes_fp ch → getz (setz (data v) i k) j = getz (data v) j).
  { intros j Hj. pose proof (co_range Hco j Hj). apply getz_setz_ne; [|lia|lia].
    intros ->. apply dchain_allocated_spec in Hj. congruence. }
  assert (Hnew : getz (setz (data v) i k) i = k) by (apply getz_setz_eq; lia).
  split.
  - apply (index_of_Some Hco'). split; [apply Hidx; by right|exact Hnew].
  - intros k' Hne. apply option_eq. intros j.
    rewrite (index_of_Some Hco'), (index_of_Some Hco), Hidx. simpl. split.
    + intros [[Hj | ->] E]; [by rewrite Hother in E|congruence].
    + intros [Hj E]. split; [by left|by rewrite Hother].
Qed.
End coherence.
