(* ===== verification/DoubleMap.v ===== *)
(** * Double maps

    Models [lib/containers/double-map.c]: values stored by index, found through
    two hash tables on two keys that each value contains. [lib/flow.c] and
    [lib/flowtable.c] (in [FlowTable.v]) are its client. *)

From S2P Require Import Prelude.
From S2P Require Import Malloc.
From S2P Require Import DChainImpl.
From S2P Require Import PredMapImpl.
From S2P Require Import MapImpl.
From S2P Require Import MapSpec.
From S2P Require Import Map.
From S2P Require Import Vector.
From S2P Require Import Coherence.

(** The function pointers that a client passes: how to copy and to destroy a
    value, the keys inside of it ([dmap_extract_keys]), and how to put them back
    ([dmap_pack_keys]; [None] is a null pointer). *)
Record ValueOps (K1 K2 V : Type) := mk_valops {
  cpy : V → V; dstr : V → V; exk : V → K1 * K2; pk : V → option K1 → option K2 → V }.
Arguments mk_valops {K1 K2 V} _ _ _ _.
Arguments cpy {K1 K2 V} _ _.
Arguments dstr {K1 K2 V} _ _.
Arguments exk {K1 K2 V} _ _.
Arguments pk {K1 K2 V} _ _ _ _.

(** [struct DoubleMap]; a pointer to a key is [Cell i] if the key is inside of
    value [i]. *)
Record DoubleMap (K1 K2 V : Type) := mk_dmap {
  value_size : Z; vops : ValueOps K1 K2 V; values : list V;
  bbs_a : list Z; kps_a : list (ptr K1); khs_a : list Z; chns_a : list Z; inds_a : list Z;
  eq_a : K1 → K1 → bool; hsh_a : K1 → Z;
  bbs_b : list Z; kps_b : list (ptr K2); khs_b : list Z; chns_b : list Z; inds_b : list Z;
  eq_b : K2 → K2 → bool; hsh_b : K2 → Z;
  n_vals : Z; capacity : Z }.
Arguments mk_dmap {K1 K2 V} _ _ _ _ _ _ _ _ _ _ _ _ _ _ _ _ _ _ _.
Arguments value_size {K1 K2 V} _.
Arguments vops {K1 K2 V} _.
Arguments values {K1 K2 V} _.
Arguments bbs_a {K1 K2 V} _.
Arguments kps_a {K1 K2 V} _.
Arguments khs_a {K1 K2 V} _.
Arguments chns_a {K1 K2 V} _.
Arguments inds_a {K1 K2 V} _.
Arguments eq_a {K1 K2 V} _.
Arguments hsh_a {K1 K2 V} _.
Arguments bbs_b {K1 K2 V} _.
Arguments kps_b {K1 K2 V} _.
Arguments khs_b {K1 K2 V} _.
Arguments chns_b {K1 K2 V} _.
Arguments inds_b {K1 K2 V} _.
Arguments eq_b {K1 K2 V} _.
Arguments hsh_b {K1 K2 V} _.
Arguments n_vals {K1 K2 V} _.
Arguments capacity {K1 K2 V} _.

Section ops.
Context {K1 K2 V : Type} `{Inhabited V}.
Implicit Types (dm : DoubleMap K1 K2 V) (index : Z) (value : V).

(** The memory behind a pointer to a key. *)
Definition deref_key {K} (key : V → K) (vals : list V) (p : ptr K) : K :=
  match p with Local k => k | Cell i => key (getz vals i) end.
Definition key_a dm (v : V) : K1 := (exk (vops dm) v).1.
Definition key_b dm (v : V) : K2 := (exk (vops dm) v).2.
Definition d_a dm : ptr K1 → K1 := deref_key (key_a dm) (values dm).
Definition d_b dm : ptr K2 → K2 := deref_key (key_b dm) (values dm).

Definition with_values dm (vs : list V) (n : Z) : DoubleMap K1 K2 V :=
  mk_dmap (value_size dm) (vops dm) vs
    (bbs_a dm) (kps_a dm) (khs_a dm) (chns_a dm) (inds_a dm) (eq_a dm) (hsh_a dm)
    (bbs_b dm) (kps_b dm) (khs_b dm) (chns_b dm) (inds_b dm) (eq_b dm) (hsh_b dm) n (capacity dm).
Definition with_a dm bbs kps khs chns inds : DoubleMap K1 K2 V :=
  mk_dmap (value_size dm) (vops dm) (values dm) bbs kps khs chns inds (eq_a dm) (hsh_a dm)
    (bbs_b dm) (kps_b dm) (khs_b dm) (chns_b dm) (inds_b dm) (eq_b dm) (hsh_b dm)
    (n_vals dm) (capacity dm).
Definition with_b dm bbs kps khs chns inds : DoubleMap K1 K2 V :=
  mk_dmap (value_size dm) (vops dm) (values dm)
    (bbs_a dm) (kps_a dm) (khs_a dm) (chns_a dm) (inds_a dm) (eq_a dm) (hsh_a dm)
    bbs kps khs chns inds (eq_b dm) (hsh_b dm) (n_vals dm) (capacity dm).

Definition dmap_get_a dm (key : ptr K1) : res (option Z) :=
  let hash := hsh_a dm (d_a dm key) in
  map_impl_get loop (bbs_a dm) (kps_a dm) (khs_a dm) (chns_a dm) (inds_a dm) key
    (λ p q, eq_a dm (d_a dm p) (d_a dm q)) hash (capacity dm).

Definition dmap_get_b dm (key : ptr K2) : res (option Z) :=
  let hash := hsh_b dm (d_b dm key) in
  map_impl_get loop (bbs_b dm) (kps_b dm) (khs_b dm) (chns_b dm) (inds_b dm) key
    (λ p q, eq_b dm (d_b dm p) (d_b dm q)) hash (capacity dm).

Definition dmap_put dm value index : res (Z * DoubleMap K1 K2 V) :=
  vs ← wr (values dm) index (cpy (vops dm) value);
  let dm := with_values dm vs (n_vals dm) in
  let hash1 := hsh_a dm (d_a dm (Cell index)) in
  '(bbs, kps, khs, chns, inds) ←
    map_impl_put loop (bbs_a dm) (kps_a dm) (khs_a dm) (chns_a dm) (inds_a dm)
      (Cell index) hash1 index (capacity dm);
  let dm := with_a dm bbs kps khs chns inds in
  let hash2 := hsh_b dm (d_b dm (Cell index)) in
  '(bbs, kps, khs, chns, inds) ←
    map_impl_put loop (bbs_b dm) (kps_b dm) (khs_b dm) (chns_b dm) (inds_b dm)
      (Cell index) hash2 index (capacity dm);
  let dm := with_b dm bbs kps khs chns inds in
  my_value ← rd (values dm) index;
  let packed := pk (vops dm) my_value (Some (key_a dm my_value)) (Some (key_b dm my_value)) in
  vs ← wr (values dm) index packed;
  Ok (1, with_values dm vs (n_vals dm + 1)).

(** The value that is copied to [*value_out]. *)
Definition dmap_get_value dm index : res V :=
  my_value ← rd (values dm) index;
  Ok (cpy (vops dm) my_value).

Definition dmap_erase dm index : res (Z * DoubleMap K1 K2 V) :=
  my_value ← rd (values dm) index;
  let hash1 := hsh_a dm (d_a dm (Cell index)) in
  '(bbs, chns, out_key_a) ←
    map_impl_erase loop (bbs_a dm) (kps_a dm) (khs_a dm) (chns_a dm) (Cell index)
      (λ p q, eq_a dm (d_a dm p) (d_a dm q)) hash1 (capacity dm);
  let dm := with_a dm bbs (kps_a dm) (khs_a dm) chns (inds_a dm) in
  let hash2 := hsh_b dm (d_b dm (Cell index)) in
  '(bbs, chns, out_key_b) ←
    map_impl_erase loop (bbs_b dm) (kps_b dm) (khs_b dm) (chns_b dm) (Cell index)
      (λ p q, eq_b dm (d_b dm p) (d_b dm q)) hash2 (capacity dm);
  let dm := with_b dm bbs (kps_b dm) (khs_b dm) chns (inds_b dm) in
  let packed := pk (vops dm) my_value (Some (key_a dm my_value)) (Some (key_b dm my_value)) in
  let packed := pk (vops dm) packed (d_a dm <$> out_key_a) (d_b dm <$> out_key_b) in
  vs ← wr (values dm) index (dstr (vops dm) packed);
  Ok (1, with_values dm vs (n_vals dm - 1)).

Definition dmap_size dm : Z := n_vals dm.
End ops.

(** [dmap_allocate]: twelve blocks, in the order of the code. [junk] gives the
    contents of fresh arrays. The size of the array of values is a product of [int]s:
    the code runs into undefined behaviour if [value_size * capacity] is not one. *)
Record dmap_memory (K1 K2 V : Type) := mk_dmap_memory {
  m_ints : Z → list Z; m_vals : Z → list V; m_kps_a : Z → list (ptr K1); m_kps_b : Z → list (ptr K2) }.
Arguments m_ints {K1 K2 V} _.
Arguments m_vals {K1 K2 V} _.
Arguments m_kps_a {K1 K2 V} _.
Arguments m_kps_b {K1 K2 V} _.

Definition dmap_allocate {K1 K2 V} (ok : nat → bool) (junk : dmap_memory K1 K2 V)
    (eq_a : K1 → K1 → bool) (hsh_a : K1 → Z) (eq_b : K2 → K2 → bool) (hsh_b : K2 → Z)
    (value_size : Z) (ops : ValueOps K1 K2 V) (capacity : Z) (old : option (DoubleMap K1 K2 V))
    (h : heap) : res ((Z * option (DoubleMap K1 K2 V)) * heap) :=
  let fail := (0, old) in
  let z := m_ints junk capacity in
  malloc_or ok [] fail (λ map_alloc h,
  vals_size ← int_mul value_size capacity;
  malloc_or ok [map_alloc] fail (λ vals_alloc,
  malloc_or ok [vals_alloc; map_alloc] fail (λ bbs_a_alloc,
  malloc_or ok [bbs_a_alloc; vals_alloc; map_alloc] fail (λ kps_a_alloc,
  malloc_or ok [kps_a_alloc; bbs_a_alloc; vals_alloc; map_alloc] fail (λ khs_a_alloc,
  malloc_or ok [khs_a_alloc; kps_a_alloc; bbs_a_alloc; vals_alloc; map_alloc] fail (λ chns_a_alloc,
  malloc_or ok [chns_a_alloc; khs_a_alloc; kps_a_alloc; bbs_a_alloc; vals_alloc; map_alloc] fail
    (λ inds_a_alloc,
  malloc_or ok [inds_a_alloc; chns_a_alloc; khs_a_alloc; kps_a_alloc; bbs_a_alloc; vals_alloc;
      map_alloc] fail (λ bbs_b_alloc,
  malloc_or ok [bbs_b_alloc; inds_a_alloc; chns_a_alloc; khs_a_alloc; kps_a_alloc; bbs_a_alloc;
      vals_alloc; map_alloc] fail (λ kps_b_alloc,
  malloc_or ok [kps_b_alloc; bbs_b_alloc; inds_a_alloc; chns_a_alloc; khs_a_alloc; kps_a_alloc;
      bbs_a_alloc; vals_alloc; map_alloc] fail (λ khs_b_alloc,
  malloc_or ok [khs_b_alloc; kps_b_alloc; bbs_b_alloc; inds_a_alloc; chns_a_alloc; khs_a_alloc;
      kps_a_alloc; bbs_a_alloc; vals_alloc; map_alloc] fail (λ inds_b_alloc,
  malloc_or ok [inds_b_alloc; khs_b_alloc; kps_b_alloc; bbs_b_alloc; inds_a_alloc; chns_a_alloc;
      khs_a_alloc; kps_a_alloc; bbs_a_alloc; vals_alloc; map_alloc] fail (λ chns_b_alloc h,
    '(bbs_a, chns_a) ← map_impl_init z z capacity;
    '(bbs_b, chns_b) ← map_impl_init z z capacity;
    Ok ((1, Some (mk_dmap value_size ops (m_vals junk capacity)
                    bbs_a (m_kps_a junk capacity) z chns_a z eq_a hsh_a
                    bbs_b (m_kps_b junk capacity) z chns_b z eq_b hsh_b 0 capacity)), h)
  ))))))))))) h) h.

(** ** Abstract double maps, as in [double-map.h]

    The keys with their indexes, twice, and a value or nothing for every index. *)
Record dmap (K1 K2 V : Type) := mk_adt {
  ma : list (K1 * Z); mb : list (K2 * Z); val_arr : list (option V) }.
Arguments mk_adt {K1 K2 V} _ _ _.
Arguments ma {K1 K2 V} _.
Arguments mb {K1 K2 V} _.
Arguments val_arr {K1 K2 V} _.

Section alists.
Context {K : Type} `{EqDecision K}.
Implicit Types (m : list (K * Z)) (k : K).

Fixpoint map_get_fp m k : Z :=
  match m with
  | [] => 0
  | h :: t => if decide (h.1 = k) then h.2 else map_get_fp t k
  end.

Fixpoint map_has_fp m k : bool :=
  match m with
  | [] => false
  | h :: t => bool_decide (h.1 = k) || map_has_fp t k
  end.

Fixpoint map_erase_fp m k : list (K * Z) :=
  match m with
  | [] => []
  | h :: t => if decide (h.1 = k) then t else h :: map_erase_fp t k
  end.

(** What a lookup answers. *)
Definition alist_get m k : option Z := if map_has_fp m k then Some (map_get_fp m k) else None.

Lemma alist_get_Some m k i : NoDup m.*1 → alist_get m k = Some i ↔ (k, i) ∈ m.
Proof.
  unfold alist_get. induction m as [|[k' j] m IH]; simpl; intros Hnd; [split; [done|by intros ?%elem_of_nil]|].
  apply NoDup_cons in Hnd as [Hn Hnd]. specialize (IH Hnd).
  destruct (decide (k' = k)) as [->|Hne].
  - rewrite bool_decide_eq_true_2 by done. simpl. split; [intros [= ->]; by left|].
    intros [[= ->]|Hin]%elem_of_cons; [done|]. exfalso. apply Hn, list_elem_of_fmap. by exists (k, i).
  - rewrite bool_decide_eq_false_2 by done. simpl. rewrite IH, elem_of_cons.
    split; [by right|]. intros [[= -> ->]|?]; done.
Qed.

Lemma alist_has_false m k : map_has_fp m k = false ↔ k ∉ m.*1.
Proof.
  induction m as [|[k' j] m IH]; simpl; [split; [intros _ ?%elem_of_nil|]; done|].
  rewrite orb_false_iff, bool_decide_eq_false, IH, not_elem_of_cons. naive_solver.
Qed.

Lemma alist_erase_split m1 k i m2 :
  k ∉ m1.*1 → map_erase_fp (m1 ++ (k, i) :: m2) k = m1 ++ m2.
Proof.
  induction m1 as [|[k' j] m1 IH]; simpl; intros Hn; [by rewrite decide_True|].
  apply not_elem_of_cons in Hn as [? ?]. by rewrite decide_False, IH by done.
Qed.

Lemma alist_erase_perm m k i l :
  NoDup m.*1 → m ≡ₚ (k, i) :: l → map_erase_fp m k ≡ₚ l.
Proof.
  intros Hnd Hp.
  assert (Hin : (k, i) ∈ m) by (rewrite Hp; by left).
  apply list_elem_of_split in Hin as (m1 & m2 & ->).
  rewrite alist_erase_split.
  - apply (Permutation_cons_inv (a := (k, i))). by rewrite <- Hp, Permutation_middle.
  - rewrite fmap_app, fmap_cons in Hnd. apply NoDup_app in Hnd as (_ & Hd & _).
    intros Hk. apply (Hd k Hk). by left.
Qed.
End alists.

Section spec.
Context {K1 K2 V : Type} `{EqDecision K1, EqDecision K2}.
Variable ops : ValueOps K1 K2 V.
Implicit Types (m : dmap K1 K2 V).

Definition empty_dmap_fp (capacity : Z) : dmap K1 K2 V :=
  mk_adt [] [] (replicate (Z.to_nat capacity) None).
Definition dmap_put_fp m (index : Z) (v : V) : dmap K1 K2 V :=
  mk_adt (((exk ops v).1, index) :: ma m) (((exk ops v).2, index) :: mb m)
    (setz (val_arr m) index (Some v)).
Definition dmap_get_val_fp m (index : Z) : option V := getz (val_arr m) index.
Definition dmap_erase_fp m (index : Z) : dmap K1 K2 V :=
  match dmap_get_val_fp m index with
  | Some v => mk_adt (map_erase_fp (ma m) (exk ops v).1) (map_erase_fp (mb m) (exk ops v).2)
                (setz (val_arr m) index None)
  | None => m
  end.
Definition dmap_get_k1_fp m (k1 : K1) : Z := map_get_fp (ma m) k1.
Definition dmap_has_k1_fp m (k1 : K1) : bool := map_has_fp (ma m) k1.
Definition dmap_get_k2_fp m (k2 : K2) : Z := map_get_fp (mb m) k2.
Definition dmap_has_k2_fp m (k2 : K2) : bool := map_has_fp (mb m) k2.
Definition dmap_cap_fp m : Z := zlen (val_arr m).
Definition dmap_index_used_fp m (index : Z) : bool :=
  (0 <=? index) && (index <? zlen (val_arr m)) &&
  match getz (val_arr m) index with Some _ => true | None => false end.
Fixpoint nonempty_indexes_fp (lst : list (option V)) (start : Z) : list Z :=
  match lst with
  | [] => []
  | None :: t => nonempty_indexes_fp t (start + 1)
  | Some _ :: t => start :: nonempty_indexes_fp t (start + 1)
  end.
Definition dmap_indexes_used_fp m : list Z := nonempty_indexes_fp (val_arr m) 0.
Definition dmap_size_fp m : Z := zlen (dmap_indexes_used_fp m).
End spec.

(** ** One of the two tables *)
Section half.
Context {V : Type} `{Inhabited V} {K : Type} `{Countable K, Inhabited K}.
Variables (cap : Z) (key : V → K) (hsh : K → Z) (eq : K → K → bool).
Hypothesis Hcap : 0 < cap.
Hypothesis Hloop : ∀ k, loop k cap = k mod cap.
Hypothesis Heq : ∀ k1 k2, eq k1 k2 = true ↔ k1 = k2.
Implicit Types (vals : list V) (idxs : list Z) (m : list (K * Z)) (i : Z).

(** The key of the value at an index. *)
Definition key_at vals i : K := key (getz vals i).

(** The table sends the key of every index in [idxs] to that index. *)
Record half vals bbs kps khs chns inds idxs m : Prop := {
  half_tab : mapping cap hsh (deref_key key vals) bbs kps khs chns inds (coh_map (key_at vals) idxs);
  half_nodup : NoDup (key_at vals <$> idxs);
  half_alist : m ≡ₚ (λ i, (key_at vals i, i)) <$> idxs
}.

Lemma half_keys vals bbs kps khs chns inds idxs m :
  half vals bbs kps khs chns inds idxs m → m.*1 ≡ₚ key_at vals <$> idxs ∧ NoDup m.*1.
Proof.
  intros [_ Hnd Hm]. assert (E : m.*1 ≡ₚ key_at vals <$> idxs).
  { rewrite Hm, <- list_fmap_compose. done. }
  split; [done|]. by rewrite E.
Qed.

Lemma half_get vals bbs kps khs chns inds idxs m keyp :
  half vals bbs kps khs chns inds idxs m →
  map_impl_get loop bbs kps khs chns inds keyp
    (λ p q, eq (deref_key key vals p) (deref_key key vals q)) (hsh (deref_key key vals keyp)) cap =
  Ok (alist_get m (deref_key key vals keyp)).
Proof.
  intros Hh. pose proof (half_keys _ _ _ _ _ _ _ _ Hh) as [_ Hnd]. destruct Hh as [Ht Hk Hm].
  rewrite (map_impl_get_mapping loop cap Hcap Hloop hsh _ _ _ _ _ _ _ _ _ Ht) by (intros; apply Heq).
  f_equal. set (k := deref_key key vals keyp). apply option_eq. intros i.
  rewrite alist_get_Some by done. rewrite Hm, list_elem_of_fmap, fmap_Some. split.
  - intros ([p j] & E & ->). apply coh_map_lookup in E as (-> & Hj & <-); [|done]. by exists j.
  - intros (j & [= -> ->] & Hj). exists (Cell j, j). split; [by apply coh_map_lookup|done].
Qed.

(** Storing a value at an index that is not in the table. *)
Lemma half_write vals bbs kps khs chns inds idxs m i v :
  half vals bbs kps khs chns inds idxs m → i ∉ idxs → (∀ j, j ∈ idxs → 0 <= j) →
  0 <= i < zlen vals → half (setz vals i v) bbs kps khs chns inds idxs m.
Proof.
  intros [Ht Hk Hm] Hi Hpos Hr.
  assert (Hsame : ∀ j, j ∈ idxs → key_at (setz vals i v) j = key_at vals j).
  { intros j Hj. unfold key_at. rewrite getz_setz_ne; [done| |lia|by apply Hpos]. by intros ->. }
  assert (Hmap : coh_map (key_at (setz vals i v)) idxs = coh_map (key_at vals) idxs).
  { unfold coh_map. f_equal. apply list_fmap_ext. intros n j Hj%list_elem_of_lookup_2.
    cbv beta. by rewrite Hsame. }
  split.
  - rewrite Hmap. eapply mapping_frame; [|exact Ht]. intros k p j Hj.
    apply coh_map_lookup in Hj as (-> & Hj & _); [|done]. simpl. by apply Hsame.
  - erewrite list_fmap_ext; [exact Hk|]. intros n j Hj%list_elem_of_lookup_2. by apply Hsame.
  - rewrite Hm. erewrite list_fmap_ext; [done|]. intros n j Hj%list_elem_of_lookup_2.
    cbv beta. by rewrite Hsame.
Qed.

Lemma half_put vals bbs kps khs chns inds idxs m i :
  half vals bbs kps khs chns inds idxs m → key_at vals i ∉ m.*1 → zlen idxs < cap →
  ∃ bbs' kps' khs' chns' inds',
    map_impl_put loop bbs kps khs chns inds (Cell i) (hsh (deref_key key vals (Cell i))) i cap =
      Ok (bbs', kps', khs', chns', inds') ∧
    half vals bbs' kps' khs' chns' inds' (i :: idxs) ((key_at vals i, i) :: m).
Proof.
  intros Hh Hn Hsz. pose proof (half_keys _ _ _ _ _ _ _ _ Hh) as [Hkeys _].
  destruct Hh as [Ht Hk Hm]. rewrite Hkeys in Hn.
  destruct (map_impl_put_mapping loop cap Hcap Hloop hsh _ _ _ _ _ _ _ (Cell i) i Ht)
    as (bbs' & kps' & khs' & chns' & inds' & -> & Ht').
  - by apply coh_map_lookup_None.
  - rewrite coh_map_size by done. unfold zlen in Hsz. lia.
  - exists bbs', kps', khs', chns', inds'. split; [done|]. split.
    + apply Ht'.
    + rewrite fmap_cons. by apply NoDup_cons.
    + rewrite fmap_cons. by constructor.
Qed.

Lemma half_erase vals bbs kps khs chns inds idxs m i :
  half vals bbs kps khs chns inds idxs m → i ∈ idxs →
  ∃ bbs' chns',
    map_impl_erase loop bbs kps khs chns (Cell i)
      (λ p q, eq (deref_key key vals p) (deref_key key vals q))
      (hsh (deref_key key vals (Cell i))) cap = Ok (bbs', chns', Some (Cell i)) ∧
    half vals bbs' kps khs chns' inds (remove_fst i idxs) (map_erase_fp m (key_at vals i)).
Proof.
  intros Hh Hi. pose proof (half_keys _ _ _ _ _ _ _ _ Hh) as [_ Hnd]. destruct Hh as [Ht Hk Hm].
  destruct (map_impl_erase_mapping loop cap Hcap Hloop hsh _ _ _ _ _ _ _
    (λ p q, eq (deref_key key vals p) (deref_key key vals q)) (Cell i) (Cell i) i Ht)
    as (bbs' & chns' & -> & Ht'); [intros; apply Heq|by apply coh_map_lookup|].
  exists bbs', chns'. split; [done|].
  destruct (list_elem_of_split_l _ _ Hi) as (l1 & l2 & E & Hn).
  assert (Er : remove_fst i idxs = l1 ++ l2) by (rewrite E; by apply remove_fst_split).
  split.
  - rewrite coh_map_remove by done. apply Ht'.
  - rewrite Er. rewrite E, fmap_app, fmap_cons, <- Permutation_middle in Hk.
    rewrite fmap_app. by apply NoDup_cons in Hk as [_ ?].
  - apply (alist_erase_perm m (key_at vals i) i); [done|].
    rewrite Er, Hm, E, !fmap_app, fmap_cons. by rewrite Permutation_middle.
Qed.
End half.

Lemma half_empty {V} `{Inhabited V} {K} `{Countable K, Inhabited K} (key : V → K) cap hsh vals z
    (kps : list (ptr K)) :
  0 < cap → zlen z = cap → zlen kps = cap →
  ∃ bbs chns, map_impl_init z z cap = Ok (bbs, chns) ∧
    half cap key hsh vals bbs kps z chns z [] [].
Proof.
  intros Hc Hz Hk.
  destruct (map_impl_init_mapping cap Hc hsh (deref_key key vals) z kps z z z) as (bbs & chns & E & Hm);
    [done|].
  exists bbs, chns. split; [done|]. split; [done|constructor|done].
Qed.

(** ** The contracts of [double-map.h] *)
Record valops_ok {K1 K2 V} (ops : ValueOps K1 K2 V) : Prop := {
  cpy_ok : ∀ v, cpy ops v = v;
  pk_ok : ∀ v, pk ops v (Some (exk ops v).1) (Some (exk ops v).2) = v
}.

Section contracts.
Context {V : Type} `{Inhabited V} {K1 : Type} `{Countable K1, Inhabited K1}
  {K2 : Type} `{Countable K2, Inhabited K2}.
Variable ops : ValueOps K1 K2 V.
Implicit Types (dm : DoubleMap K1 K2 V) (m : dmap K1 K2 V) (idxs : list Z).

Record dmapp dm (cap : Z) m idxs : Prop := {
  dp_pow2 : ∃ n, 0 <= n ∧ cap = 2 ^ n;
  dp_cap : capacity dm = cap;
  dp_ops : vops dm = ops;
  dp_ok : valops_ok ops;
  dp_eq_a : ∀ k1 k2, eq_a dm k1 k2 = true ↔ k1 = k2;
  dp_eq_b : ∀ k1 k2, eq_b dm k1 k2 = true ↔ k1 = k2;
  dp_vals : zlen (values dm) = cap;
  dp_arr : zlen (val_arr m) = cap;
  dp_idxs : NoDup idxs;
  dp_used : ∀ i, i ∈ idxs ↔ dmap_index_used_fp m i = true;
  dp_val : ∀ i v, 0 <= i < cap → getz (val_arr m) i = Some v → getz (values dm) i = v;
  dp_a : half cap (key_a dm) (hsh_a dm) (values dm)
           (bbs_a dm) (kps_a dm) (khs_a dm) (chns_a dm) (inds_a dm) idxs (ma m);
  dp_b : half cap (key_b dm) (hsh_b dm) (values dm)
           (bbs_b dm) (kps_b dm) (khs_b dm) (chns_b dm) (inds_b dm) idxs (mb m);
  dp_n : n_vals dm = zlen idxs
}.

(** The double map stands for [m]. *)
Definition dmappingp dm (cap : Z) m : Prop := ∃ idxs, dmapp dm cap m idxs.

Lemma dmapp_cap dm cap m idxs :
  dmapp dm cap m idxs → 0 < cap ∧ ∀ k, loop k cap = k mod cap.
Proof. intros [(n & Hn & ->)]. split; [lia|]. intros k. by apply loop_pow2. Qed.

Lemma dmapp_range dm cap m idxs i : dmapp dm cap m idxs → i ∈ idxs → 0 <= i < cap.
Proof.
  intros Hd Hi. apply (dp_used _ _ _ _ Hd) in Hi. unfold dmap_index_used_fp in Hi.
  pose proof (dp_arr _ _ _ _ Hd). apply andb_true_iff in Hi as [[? ?]%andb_true_iff _]. lia.
Qed.

Lemma dmap_get_a_spec dm cap m key :
  dmappingp dm cap m → dmap_get_a dm key = Ok (alist_get (ma m) (d_a dm key)).
Proof.
  intros [idxs Hd]. pose proof (dmapp_cap _ _ _ _ Hd) as [Hc Hl]. unfold dmap_get_a.
  rewrite (dp_cap _ _ _ _ Hd).
  by apply (half_get cap _ _ _ Hc Hl (dp_eq_a _ _ _ _ Hd) _ _ _ _ _ _ idxs), (dp_a _ _ _ _ Hd).
Qed.

Lemma dmap_get_b_spec dm cap m key :
  dmappingp dm cap m → dmap_get_b dm key = Ok (alist_get (mb m) (d_b dm key)).
Proof.
  intros [idxs Hd]. pose proof (dmapp_cap _ _ _ _ Hd) as [Hc Hl]. unfold dmap_get_b.
  rewrite (dp_cap _ _ _ _ Hd).
  by apply (half_get cap _ _ _ Hc Hl (dp_eq_b _ _ _ _ Hd) _ _ _ _ _ _ idxs), (dp_b _ _ _ _ Hd).
Qed.

Lemma dmap_get_value_spec dm cap m index v :
  dmappingp dm cap m → 0 <= index < cap → dmap_get_val_fp m index = Some v →
  dmap_get_value dm index = Ok v.
Proof.
  intros [idxs Hd] Hi Hv. unfold dmap_get_value.
  rewrite rd_ok by (rewrite (dp_vals _ _ _ _ Hd); lia). cbn [mbind res_bind].
  rewrite (dp_ops _ _ _ _ Hd), (cpy_ok _ (dp_ok _ _ _ _ Hd)).
  by rewrite (dp_val _ _ _ _ Hd _ _ Hi Hv).
Qed.

Lemma index_used_update m i o j :
  0 <= i < zlen (val_arr m) →
  dmap_index_used_fp (mk_adt (ma m) (mb m) (setz (val_arr m) i o)) j =
  (if j =? i then match o with Some _ => true | None => false end else dmap_index_used_fp m j).
Proof.
  intros Hi. unfold dmap_index_used_fp. cbn [val_arr]. rewrite zlen_setz.
  destruct (Z.eqb_spec j i) as [->|Hne].
  - rewrite (proj2 (Z.leb_le _ _)), (proj2 (Z.ltb_lt _ _)) by lia. by rewrite getz_setz_eq by lia.
  - destruct (0 <=? j) eqn:E; [|done]. cbn [andb]. destruct (j <? _); [|done]. cbn [andb].
    rewrite getz_setz_ne; [done|lia|lia|lia].
Qed.

Lemma dmap_put_spec dm cap m index v :
  dmappingp dm cap m → 0 <= index < cap → dmap_index_used_fp m index = false →
  dmap_has_k1_fp m (exk ops v).1 = false → dmap_has_k2_fp m (exk ops v).2 = false →
  ∃ dm', dmap_put dm v index = Ok (1, dm') ∧ dmappingp dm' cap (dmap_put_fp ops m index v).
Proof.
  intros [idxs Hd] Hi Hu Hk1 Hk2. pose proof (dmapp_cap _ _ _ _ Hd) as [Hc Hl].
  pose proof (λ j, dmapp_range _ _ _ _ j Hd) as Hrange.
  assert (Hni : index ∉ idxs) by (rewrite (dp_used _ _ _ _ Hd); congruence).
  assert (Hlen : zlen idxs < cap).
  { pose proof (zlen_range_bound (index :: idxs) cap) as Hb. rewrite zlen_cons in Hb.
    enough (1 + zlen idxs <= Z.max 0 cap) by lia. apply Hb; [|intros j [->|?]%elem_of_cons; auto].
    apply NoDup_cons. split; [done|apply Hd]. }
  destruct Hd as [Hp Ecap Eops Hok Heqa Heqb Hvals Harr Hnd Hused Hval Ha Hb Hn].
  assert (Hpos : ∀ j, j ∈ idxs → 0 <= j) by (intros j Hj; apply Hrange in Hj; lia).
  unfold dmap_put, with_values, with_a, with_b, d_a, d_b, key_a, key_b in *. rewrite Eops in *.
  rewrite (cpy_ok _ Hok), wr_ok by lia.
  cbn [mbind res_bind values vops hsh_a hsh_b bbs_a kps_a khs_a chns_a inds_a bbs_b kps_b khs_b
    chns_b inds_b capacity n_vals value_size eq_a eq_b]. rewrite Ecap.
  apply (half_write _ _ _ _ _ _ _ _ _ _ _ index v) in Ha; [|done|done|lia].
  apply (half_write _ _ _ _ _ _ _ _ _ _ _ index v) in Hb; [|done|done|lia].
  set (vals := setz (values dm) index v) in *.
  assert (Hat : getz vals index = v) by (apply getz_setz_eq; lia).
  assert (Hlv : zlen vals = cap) by (unfold vals; by rewrite zlen_setz).
  destruct (half_put cap _ _ Hc Hl _ _ _ _ _ _ _ _ index Ha)
    as (bbs' & kps' & khs' & chns' & inds' & -> & Ha');
    [unfold key_at; rewrite Hat; by apply alist_has_false|done|]. cbn [mbind res_bind].
  destruct (half_put cap _ _ Hc Hl _ _ _ _ _ _ _ _ index Hb)
    as (bbs'' & kps'' & khs'' & chns'' & inds'' & -> & Hb');
    [unfold key_at; rewrite Hat; by apply alist_has_false|done|]. cbn [mbind res_bind].
  cbn [values vops]. rewrite rd_ok by lia. cbn [mbind res_bind]. rewrite Hat.
  rewrite (pk_ok _ Hok), wr_ok by lia. cbn [mbind res_bind].
  assert (Esame : setz vals index v = vals).
  { pose proof (setz_getz vals index ltac:(lia)) as E. by rewrite Hat in E. }
  rewrite Esame. eexists. split; [done|]. exists (index :: idxs).
  unfold key_at in Ha', Hb'. rewrite Hat in Ha', Hb'.
  split; cbn [values vops hsh_a hsh_b bbs_a kps_a khs_a chns_a inds_a bbs_b kps_b khs_b
    chns_b inds_b capacity n_vals value_size eq_a eq_b ma mb val_arr dmap_put_fp]; try done.
  - by rewrite zlen_setz.
  - by apply NoDup_cons.
  - intros j. rewrite elem_of_cons, Hused. unfold dmap_put_fp.
    pose proof (index_used_update m index (Some v) j ltac:(lia)) as E.
    unfold dmap_index_used_fp in *. cbn [val_arr] in *. rewrite E.
    destruct (Z.eqb_spec j index); naive_solver.
  - intros j w Hj. destruct (decide (j = index)) as [->|Hne].
    + rewrite getz_setz_eq by lia. intros [= <-]. done.
    + unfold vals. rewrite !getz_setz_ne by lia. by apply Hval.
  - rewrite zlen_cons. lia.
Qed.
Lemma dmap_erase_spec dm cap m index :
  dmappingp dm cap m → dmap_index_used_fp m index = true →
  ∃ dm', dmap_erase dm index = Ok (1, dm') ∧ dmappingp dm' cap (dmap_erase_fp ops m index).
Proof.
  intros [idxs Hd] Hu. pose proof (dmapp_cap _ _ _ _ Hd) as [Hc Hl].
  pose proof (λ j, dmapp_range _ _ _ _ j Hd) as Hrange.
  assert (Hin : index ∈ idxs) by by apply (dp_used _ _ _ _ Hd).
  destruct Hd as [Hp Ecap Eops Hok Heqa Heqb Hvals Harr Hnd Hused Hval Ha Hb Hn].
  pose proof (Hrange _ Hin) as Hi.
  destruct (list_elem_of_split_l _ _ Hin) as (l1 & l2 & E & Hn1).
  assert (Er : remove_fst index idxs = l1 ++ l2) by (rewrite E; by apply remove_fst_split).
  assert (Hperm : idxs ≡ₚ index :: remove_fst index idxs).
  { rewrite Er, E. by rewrite Permutation_middle. }
  assert (Hgone : index ∉ remove_fst index idxs).
  { rewrite Hperm in Hnd. by apply NoDup_cons in Hnd as [? _]. }
  assert (Hpos : ∀ j, j ∈ remove_fst index idxs → 0 <= j).
  { intros j Hj. assert (j ∈ idxs) as Hj' by (rewrite Hperm; by right). apply Hrange in Hj'. lia. }
  unfold dmap_erase, with_values, with_a, with_b, d_a, d_b, key_a, key_b in *. rewrite Eops in *.
  rewrite rd_ok by lia.
  cbn [mbind res_bind values vops hsh_a hsh_b bbs_a kps_a khs_a chns_a inds_a bbs_b kps_b khs_b
    chns_b inds_b capacity n_vals value_size eq_a eq_b]. rewrite Ecap.
  destruct (half_erase cap _ _ _ Hc Hl Heqa _ _ _ _ _ _ _ _ index Ha Hin)
    as (bbs' & chns' & -> & Ha').
  cbn [mbind res_bind values vops hsh_b bbs_b kps_b khs_b chns_b capacity eq_b].
  destruct (half_erase cap _ _ _ Hc Hl Heqb _ _ _ _ _ _ _ _ index Hb Hin)
    as (bbs'' & chns'' & -> & Hb').
  cbn [mbind res_bind values vops]. rewrite wr_ok by lia. cbn [mbind res_bind].
  set (dead := dstr ops _). clearbody dead.
  apply (half_write _ _ _ _ _ _ _ _ _ _ _ index dead) in Ha'; [|done|done|lia].
  apply (half_write _ _ _ _ _ _ _ _ _ _ _ index dead) in Hb'; [|done|done|lia].
  pose proof Hu as Hu'. unfold dmap_index_used_fp in Hu'.
  destruct (getz (val_arr m) index) as [v|] eqn:Ev; [|by rewrite andb_false_r in Hu'].
  pose proof (Hval _ _ Hi Ev) as Hv. unfold key_at in Ha', Hb'. rewrite Hv in Ha', Hb'.
  eexists. split; [done|]. exists (remove_fst index idxs).
  unfold dmap_erase_fp, dmap_get_val_fp. rewrite Ev.
  split; cbn [values vops hsh_a hsh_b bbs_a kps_a khs_a chns_a inds_a bbs_b kps_b khs_b
    chns_b inds_b capacity n_vals value_size eq_a eq_b ma mb val_arr]; try done.
  - by rewrite zlen_setz.
  - by rewrite zlen_setz.
  - rewrite Hperm in Hnd. by apply NoDup_cons in Hnd as [_ ?].
  - intros j. pose proof (index_used_update m index None j ltac:(lia)) as E'.
    unfold dmap_index_used_fp in *. cbn [val_arr] in *. rewrite E'.
    clear E'. destruct (Z.eqb_spec j index) as [->|Hne]; [by split|].
    rewrite <- Hused. rewrite Hperm at 2. rewrite elem_of_cons. naive_solver.
  - intros j w Hj. destruct (decide (j = index)) as [->|Hne]; [by rewrite getz_setz_eq by lia|].
    rewrite !getz_setz_ne by lia. by apply Hval.
  - assert (zlen idxs = 1 + zlen (remove_fst index idxs)) as El; [|lia].
    unfold zlen. rewrite (Permutation_length Hperm). simpl. lia.
Qed.

Lemma nonempty_indexes_elem (lst : list (option V)) s i :
  i ∈ nonempty_indexes_fp lst s ↔ s <= i < s + zlen lst ∧ ∃ v, getz lst (i - s) = Some v.
Proof.
  revert s. induction lst as [|o lst IH]; intros s.
  { simpl. split; [by intros ?%elem_of_nil|]. unfold zlen. simpl. lia. }
  assert (Hstep : i ∈ nonempty_indexes_fp lst (s + 1) ↔
    s < i < s + zlen (o :: lst) ∧ ∃ v, getz (o :: lst) (i - s) = Some v).
  { rewrite IH, zlen_cons. unfold getz.
    split; intros [Hr [v Hv]]; (split; [lia|]); exists v.
    - replace (Z.to_nat (i - s)) with (S (Z.to_nat (i - (s + 1)))) by lia. done.
    - replace (Z.to_nat (i - s)) with (S (Z.to_nat (i - (s + 1)))) in Hv by lia. done. }
  pose proof (zlen_nonneg lst) as Hpos.
  assert (Hz : getz (o :: lst) (s - s) = o) by (unfold getz; by rewrite Z.sub_diag).
  destruct o as [v|]; simpl; rewrite ?elem_of_cons, Hstep; rewrite zlen_cons in *.
  - split; [intros [->|[? ?]]; (split; [lia|]); [by exists v|done]|].
    intros [Hr Hv]. destruct (decide (i = s)) as [->|]; [by left|right]. split; [lia|done].
  - split; [intros [? ?]; split; [lia|done]|]. intros [Hr [v Hv]]. split; [|by exists v].
    destruct (decide (i = s)) as [->|]; [congruence|lia].
Qed.

Lemma nonempty_indexes_nodup (lst : list (option V)) s : NoDup (nonempty_indexes_fp lst s).
Proof.
  revert s. induction lst as [|[v|] lst IH]; intros s; simpl; [constructor| |done].
  apply NoDup_cons. split; [|done]. rewrite nonempty_indexes_elem. lia.
Qed.

Lemma dmap_size_spec dm cap m : dmappingp dm cap m → dmap_size dm = dmap_size_fp m.
Proof.
  intros [idxs Hd]. unfold dmap_size, dmap_size_fp, dmap_indexes_used_fp.
  rewrite (dp_n _ _ _ _ Hd). unfold zlen. f_equal. apply Permutation_length, NoDup_Permutation.
  - apply Hd.
  - apply nonempty_indexes_nodup.
  - intros i. rewrite (dp_used _ _ _ _ Hd), nonempty_indexes_elem, Z.sub_0_r, Z.add_0_l.
    unfold dmap_index_used_fp. rewrite !andb_true_iff, Z.leb_le, Z.ltb_lt.
    destruct (getz (val_arr m) i); naive_solver.
Qed.
End contracts.

(** ** Runs *)
Inductive dmap_call (K1 K2 V : Type) :=
| DPut (value : V) (index : Z)
| DErase (index : Z)
| DGetA (key : K1)
| DGetB (key : K2)
| DGetValue (index : Z)
| DSize.
Arguments DPut {K1 K2 V} value index.
Arguments DErase {K1 K2 V} index.
Arguments DGetA {K1 K2 V} key.
Arguments DGetB {K1 K2 V} key.
Arguments DGetValue {K1 K2 V} index.
Arguments DSize {K1 K2 V}.

Inductive answer (V : Type) :=
| AInt (n : Z)
| AIndex (i : option Z)
| AValue (v : V).
Arguments AInt {V} n.
Arguments AIndex {V} i.
Arguments AValue {V} v.

Section runs.
Context {V : Type} `{Inhabited V} {K1 : Type} `{Countable K1, Inhabited K1}
  {K2 : Type} `{Countable K2, Inhabited K2}.
Implicit Types (dm : DoubleMap K1 K2 V) (m : dmap K1 K2 V) (c : dmap_call K1 K2 V).

Definition exec_dmap_call dm c : res (answer V * DoubleMap K1 K2 V) :=
  match c with
  | DPut v i => '(r, dm) ← dmap_put dm v i; Ok (AInt r, dm)
  | DErase i => '(r, dm) ← dmap_erase dm i; Ok (AInt r, dm)
  | DGetA k => r ← dmap_get_a dm (Local k); Ok (AIndex r, dm)
  | DGetB k => r ← dmap_get_b dm (Local k); Ok (AIndex r, dm)
  | DGetValue i => v ← dmap_get_value dm i; Ok (AValue v, dm)
  | DSize => Ok (AInt (dmap_size dm), dm)
  end.

Fixpoint exec_dmap dm (cs : list (dmap_call K1 K2 V)) : res (list (answer V) * DoubleMap K1 K2 V) :=
  match cs with
  | [] => Ok ([], dm)
  | c :: cs' =>
      '(r, dm) ← exec_dmap_call dm c;
      '(rs, dm) ← exec_dmap dm cs'; Ok (r :: rs, dm)
  end.

(** The answer and the new abstract map; [None] if the caller breaks the contract:
    puts a value at an index in use or with a key that is present, or erases or
    reads the value of an index that is not in use. *)
Definition spec_dmap_call (ops : ValueOps K1 K2 V) (cap : Z) m c
    : option (answer V * dmap K1 K2 V) :=
  match c with
  | DPut v i =>
      if (0 <=? i) && (i <? cap) && negb (dmap_index_used_fp m i) &&
         negb (dmap_has_k1_fp m (exk ops v).1) && negb (dmap_has_k2_fp m (exk ops v).2)
      then Some (AInt 1, dmap_put_fp ops m i v) else None
  | DErase i =>
      if dmap_index_used_fp m i then Some (AInt 1, dmap_erase_fp ops m i) else None
  | DGetA k =>
      Some (AIndex (if dmap_has_k1_fp m k then Some (dmap_get_k1_fp m k) else None), m)
  | DGetB k =>
      Some (AIndex (if dmap_has_k2_fp m k then Some (dmap_get_k2_fp m k) else None), m)
  | DGetValue i =>
      if (0 <=? i) && (i <? cap) then v ← dmap_get_val_fp m i; Some (AValue v, m) else None
  | DSize => Some (AInt (dmap_size_fp m), m)
  end.

Fixpoint spec_dmap (ops : ValueOps K1 K2 V) (cap : Z) m (cs : list (dmap_call K1 K2 V))
    : option (list (answer V) * dmap K1 K2 V) :=
  match cs with
  | [] => Some ([], m)
  | c :: cs' =>
      '(r, m) ← spec_dmap_call ops cap m c;
      '(rs, m) ← spec_dmap ops cap m cs'; Some (r :: rs, m)
  end.

Lemma exec_dmap_call_spec ops cap dm m c r m' :
  dmappingp ops dm cap m → spec_dmap_call ops cap m c = Some (r, m') →
  ∃ dm', exec_dmap_call dm c = Ok (r, dm') ∧ dmappingp ops dm' cap m'.
Proof.
  intros Hd E. destruct c as [v i|i|k|k|i|]; cbn [exec_dmap_call spec_dmap_call] in *.
  - destruct (_ && _) eqn:Ec; [|done]. injection E as <- <-.
    rewrite !andb_true_iff, !negb_true_iff, Z.leb_le, Z.ltb_lt in Ec.
    destruct Ec as [[[Hi Hu] Ha] Hb].
    destruct (dmap_put_spec ops dm cap m i v Hd Hi Hu Ha Hb) as (dm' & -> & Hd').
    by exists dm'.
  - destruct (dmap_index_used_fp m i) eqn:Hu; [|done]. injection E as <- <-.
    destruct (dmap_erase_spec ops dm cap m i Hd Hu) as (dm' & -> & Hd'). by exists dm'.
  - injection E as <- <-. rewrite (dmap_get_a_spec ops dm cap m (Local k) Hd). by exists dm.
  - injection E as <- <-. rewrite (dmap_get_b_spec ops dm cap m (Local k) Hd). by exists dm.
  - destruct (_ && _) eqn:Hi; [|done]. rewrite andb_true_iff, Z.leb_le, Z.ltb_lt in Hi.
    destruct (dmap_get_val_fp m i) as [v|] eqn:Hv; simplify_eq/=.
    rewrite (dmap_get_value_spec ops dm cap m' i v Hd Hi Hv). by exists dm.
  - injection E as <- <-. exists dm. by rewrite (dmap_size_spec ops dm cap m Hd).
Qed.

(** C28: Every sequence of calls on a double map that respects its contract returns
    what the abstract double map of [double-map.h] returns: values are found
    under both of their keys and by index, also after others were erased. *)
Theorem dmap_run_correct ops cap cs dm m rs m' :
  dmappingp ops dm cap m → spec_dmap ops cap m cs = Some (rs, m') →
  ∃ dm', exec_dmap dm cs = Ok (rs, dm') ∧ dmappingp ops dm' cap m'.
Proof.
  revert dm m rs. induction cs as [|c cs IH]; intros dm m rs Hd E; cbn [spec_dmap exec_dmap] in *.
  { injection E as <- <-. by exists dm. }
  destruct (spec_dmap_call ops cap m c) as [[r m1]|] eqn:Ec; simplify_eq/=.
  destruct (spec_dmap ops cap m1 cs) as [[rs1 m2]|] eqn:Es; simplify_eq/=.
  destruct (exec_dmap_call_spec ops cap dm m c r m1 Hd Ec) as (dm1 & -> & Hd1). simpl.
  destruct (IH dm1 m1 rs1 Hd1 Es) as (dm2 & -> & Hd2). by exists dm2.
Qed.

(** *** Allocation *)

Record dmap_memory_ok (junk : dmap_memory K1 K2 V) (cap : Z) : Prop := {
  dm_ints : zlen (m_ints junk cap) = cap;
  dm_vals : zlen (m_vals junk cap) = cap;
  dm_kps_a : zlen (m_kps_a junk cap) = cap;
  dm_kps_b : zlen (m_kps_b junk cap) = cap
}.

Lemma dmap_allocate_spec ok junk eq_a hsh_a eq_b hsh_b value_size ops cap old h :
  - 2 ^ 31 <= value_size * cap < 2 ^ 31 → heap_wf h → (∃ n, 0 <= n ∧ cap = 2 ^ n) → dmap_memory_ok junk cap → valops_ok ops →
  (∀ k1 k2, eq_a k1 k2 = true ↔ k1 = k2) → (∀ k1 k2, eq_b k1 k2 = true ↔ k1 = k2) →
  let run := dmap_allocate ok junk eq_a hsh_a eq_b hsh_b value_size ops cap old h in
  (∃ dm h' bs, run = Ok ((1, Some dm), h') ∧ dmappingp ops dm cap (empty_dmap_fp cap) ∧
     heap_wf h' ∧ length bs = 12%nat ∧ live h' = bs ++ live h) ∨
  (∃ n, run = Ok ((0, old), mk_heap n (live h)) ∧ ∃ r, ok r = false).
Proof.
  intros Hsize Hwf Hp [Hz Hv Hka Hkb] Hops Heqa Heqb run.
  set (z := m_ints junk cap).
  set (k := λ (bs : list nat) (h : heap),
    '(bbs_a, chns_a) ← map_impl_init z z cap; '(bbs_b, chns_b) ← map_impl_init z z cap;
    Ok ((1, Some (mk_dmap value_size ops (m_vals junk cap)
                    bbs_a (m_kps_a junk cap) z chns_a z eq_a hsh_a
                    bbs_b (m_kps_b junk cap) z chns_b z eq_b hsh_b 0 cap)), h)).
  assert (run = malloc_all ok 12 [] (0, old) k h) as ->
    by (unfold run, dmap_allocate; rewrite (int_mul_ok _ _ Hsize); reflexivity).
  destruct (malloc_all_top ok 12 (0, old) k h Hwf) as [(bs & h' & -> & Hb & Hlive & Hwf')|?];
    [left|by right].
  assert (Hc : 0 < cap) by (destruct Hp as (n & Hn & ->); lia).
  destruct (half_empty (λ v, (exk ops v).1) cap hsh_a (m_vals junk cap) z (m_kps_a junk cap))
    as (bbs_a & chns_a & Ea & Ha); [done..|].
  destruct (half_empty (λ v, (exk ops v).2) cap hsh_b (m_vals junk cap) z (m_kps_b junk cap))
    as (bbs_b & chns_b & Eb & Hb'); [done..|].
  rewrite Ea in Eb. injection Eb as <- <-. unfold k. rewrite Ea. cbn [mbind res_bind].
  eexists _, h', bs. split; [done|]. split; [|done]. exists [].
  split; try done.
  - simpl. apply zlen_replicate. lia.
  - constructor.
  - intros i. split; [by intros ?%elem_of_nil|]. unfold dmap_index_used_fp, empty_dmap_fp. simpl.
    rewrite zlen_replicate by lia. rewrite !andb_true_iff, Z.leb_le, Z.ltb_lt.
    intros [Hi Hu]. by rewrite getz_replicate in Hu by lia.
  - intros i v Hi. unfold empty_dmap_fp. simpl. by rewrite getz_replicate by lia.
Qed.

(** [dmap_allocate] either returns 1 with an empty double map made of twelve
    new blocks or, only if a request fails, returns 0, releases exactly the
    blocks it had obtained and leaves [*map_out] as it was, if the size of the array of
    values is an [int]. *)
Theorem dmap_allocate_no_leak ok junk eq_a hsh_a eq_b hsh_b value_size ops cap old h :
  - 2 ^ 31 <= value_size * cap < 2 ^ 31 → heap_wf h → (∃ n, 0 <= n ∧ cap = 2 ^ n) → dmap_memory_ok junk cap → valops_ok ops →
  (∀ k1 k2, eq_a k1 k2 = true ↔ k1 = k2) → (∀ k1 k2, eq_b k1 k2 = true ↔ k1 = k2) →
  let run := dmap_allocate ok junk eq_a hsh_a eq_b hsh_b value_size ops cap old h in
  (∃ dm h' bs, run = Ok ((1, Some dm), h') ∧ dmappingp ops dm cap (empty_dmap_fp cap) ∧
     heap_wf h' ∧ length bs = 12%nat ∧ live h' = bs ++ live h) ∨
  (∃ n, run = Ok ((0, old), mk_heap n (live h)) ∧ ∃ r, ok r = false).
Proof. apply dmap_allocate_spec. Qed.

(** It returns a double map only if that size is an [int]: otherwise the product
    overflows. *)
Lemma dmap_allocate_size ok (junk : dmap_memory K1 K2 V) eq_a hsh_a eq_b hsh_b value_size ops cap old h r o h' :
  dmap_allocate ok junk eq_a hsh_a eq_b hsh_b value_size ops cap old h = Ok ((r, o), h') →
  r ≠ 0 →
  - 2 ^ 31 <= value_size * cap < 2 ^ 31.
Proof.
  unfold dmap_allocate, malloc_or at 1, malloc. destruct (ok (next_block h)).
  - intros (p & E & _)%res_bind_Ok _. by apply int_mul_inv in E as [_ ?].
  - cbn. by intros [= <- _ _].
Qed.

Theorem dmap_allocate_overflow (junk : dmap_memory K1 K2 V) eq_a hsh_a eq_b hsh_b value_size ops cap old h :
  2 ^ 31 <= value_size * cap →
  dmap_allocate (λ _, true) junk eq_a hsh_a eq_b hsh_b value_size ops cap old h = Err IntOverflow.
Proof. intros Hs. unfold dmap_allocate. by rewrite (int_mul_overflow _ _ Hs). Qed.
End runs.

(** ** A small double map: pairs of numbers, found by either *)
Definition pair_ops : ValueOps Z Z (Z * Z) :=
  mk_valops (λ v, v) (λ v, v) (λ v, v) (λ v _ _, v).
Definition pair_memory : dmap_memory Z Z (Z * Z) :=
  mk_dmap_memory _ _ _ (λ n, replicate (Z.to_nat n) 5) (λ n, replicate (Z.to_nat n) (1, 1))
    (λ n, replicate (Z.to_nat n) (Cell 3)) (λ n, replicate (Z.to_nat n) (Local 2)).
Definition pair_allocate (ok : nat → bool) :=
  dmap_allocate ok pair_memory Z.eqb (λ k, k) Z.eqb (λ k, 3 * k) 16 pair_ops 4 None (mk_heap 0 []).

Lemma pair_ops_ok : valops_ok pair_ops.
Proof. done. Qed.

Lemma pair_memory_ok : dmap_memory_ok pair_memory 4.
Proof. done. Qed.

Lemma dmap_allocate_no_leak_witness :
  (∃ dm h' bs, pair_allocate (λ _, true) = Ok ((1, Some dm), h') ∧
     dmappingp pair_ops dm 4 (empty_dmap_fp 4) ∧
     heap_wf h' ∧ length bs = 12%nat ∧ live h' = bs ++ []) ∨
  (∃ n, pair_allocate (λ _, true) = Ok ((0, None), mk_heap n []) ∧ ∃ r : nat, true = false).
Proof.
  apply (dmap_allocate_no_leak (λ _, true) pair_memory Z.eqb (λ k, k) Z.eqb (λ k, 3 * k) 16 pair_ops 4
    None (mk_heap 0 [])); [lia| |by exists 2|exact pair_memory_ok|exact pair_ops_ok|apply Z.eqb_eq..].
  split; simpl; [constructor|]. by intros b ?%elem_of_nil.
Defined.

(** The empty one that is allocated if no request fails. *)
Definition pair_dmap : DoubleMap Z Z (Z * Z) :=
  let z := replicate 4 5 in let e := replicate 4 0 in let kps := replicate 4 (Cell 3) in
  mk_dmap 16 pair_ops (replicate 4 (1, 1)) e kps z e z Z.eqb (λ k, k)
    e (replicate 4 (Local 2)) z e z Z.eqb (λ k, 3 * k) 0 4.

Lemma pair_dmap_ok : dmappingp pair_ops pair_dmap 4 (empty_dmap_fp 4).
Proof.
  destruct (dmap_allocate_spec (λ _, true) pair_memory Z.eqb (λ k, k) Z.eqb (λ k, 3 * k) 16 pair_ops 4
    None (mk_heap 0 [])) as [(dm & h' & bs & E & Hd & _)|(n & E & _)];
    [lia| |by exists 2|exact pair_memory_ok|exact pair_ops_ok|apply Z.eqb_eq|apply Z.eqb_eq| |].
  - split; simpl; [constructor|]. by intros b ?%elem_of_nil.
  - assert (Ok ((1, Some pair_dmap), mk_heap 12 [11; 10; 9; 8; 7; 6; 5; 4; 3; 2; 1; 0]%nat) =
      Ok ((1, Some dm), h')) as [= <- _]; [|done].
    rewrite <- E. reflexivity.
  - discriminate E.
Qed.

Lemma dmap_run_correct_witness :
  ∃ dm' m', exec_dmap pair_dmap [DPut (1, 2) 0; DPut (3, 4) 2; DGetB 4; DErase 0; DGetA 1; DGetA 3;
      DGetValue 2; DSize] =
      Ok ([AInt 1; AInt 1; AIndex (Some 2); AInt 1; AIndex None; AIndex (Some 2); AValue (3, 4); AInt 1],
          dm') ∧
    dmappingp pair_ops dm' 4 m'.
Proof.
  eassert (E : spec_dmap pair_ops 4 (empty_dmap_fp 4) [DPut (1, 2) 0; DPut (3, 4) 2; DGetB 4; DErase 0;
    DGetA 1; DGetA 3; DGetValue 2; DSize] = Some (_, _)) by reflexivity.
  destruct (dmap_run_correct pair_ops 4 _ pair_dmap (empty_dmap_fp 4) _ _ pair_dmap_ok E)
    as (dm' & E' & Hd'). exists dm'. eexists. split; [exact E'|exact Hd'].
Defined.
