(* ===== verification/FlowTable.v ===== *)
(** * Flow tables: [lib/flow.h], [lib/flow.c] and [lib/flowtable.c]

    A client of the double map: flows of a NAT, found by the key of a packet from
    inside and by the key of a packet from outside. The keys are part of the flow,
    and [add_flow] fills them in; the flow that is put into the map is a copy. *)

From S2P Require Import Prelude.
From S2P Require Import Malloc.
From S2P Require Import DChainImpl.
From S2P Require Import MapImpl.
From S2P Require Import MapSpec.
From S2P Require Import Map.
From S2P Require Import Vector.
From S2P Require Import Coherence.
From S2P Require Import DoubleMap.

Module FlowTable.

Record int_key := mk_ik {
  ik_int_src_port : Z; ik_dst_port : Z; ik_int_src_ip : Z; ik_dst_ip : Z; ik_int_device_id : Z;
  ik_protocol : Z }.
Record ext_key := mk_ek {
  ek_ext_src_port : Z; ek_dst_port : Z; ek_ext_src_ip : Z; ek_dst_ip : Z; ek_ext_device_id : Z;
  ek_protocol : Z }.
Record flow := mk_flow {
  ik : int_key; ek : ext_key;
  int_src_port : Z; ext_src_port : Z; dst_port : Z; int_src_ip : Z; ext_src_ip : Z; dst_ip : Z;
  int_device_id : Z; ext_device_id : Z; protocol : Z }.

#[global] Instance int_key_eq_dec : EqDecision int_key.
Proof. solve_decision. Defined.
#[global] Instance ext_key_eq_dec : EqDecision ext_key.
Proof. solve_decision. Defined.
#[global] Instance flow_eq_dec : EqDecision flow.
Proof. solve_decision. Defined.
#[global] Instance int_key_countable : Countable int_key.
Proof.
  apply (inj_countable' (λ k, (ik_int_src_port k, ik_dst_port k, ik_int_src_ip k, ik_dst_ip k,
    ik_int_device_id k, ik_protocol k)) (λ '(a, b, c, d, e, f), mk_ik a b c d e f)). by intros [].
Defined.
#[global] Instance ext_key_countable : Countable ext_key.
Proof.
  apply (inj_countable' (λ k, (ek_ext_src_port k, ek_dst_port k, ek_ext_src_ip k, ek_dst_ip k,
    ek_ext_device_id k, ek_protocol k)) (λ '(a, b, c, d, e, f), mk_ek a b c d e f)). by intros [].
Defined.
#[global] Instance int_key_inhabited : Inhabited int_key := populate (mk_ik 0 0 0 0 0 0).
#[global] Instance ext_key_inhabited : Inhabited ext_key := populate (mk_ek 0 0 0 0 0 0).
#[global] Instance flow_inhabited : Inhabited flow :=
  populate (mk_flow inhabitant inhabitant 0 0 0 0 0 0 0 0 0).

(** ** [flow.c] *)
Definition int_key_eq (k1 k2 : int_key) : bool :=
  (ik_int_src_port k1 =? ik_int_src_port k2) && (ik_dst_port k1 =? ik_dst_port k2) &&
  (ik_int_src_ip k1 =? ik_int_src_ip k2) && (ik_dst_ip k1 =? ik_dst_ip k2) &&
  (ik_int_device_id k1 =? ik_int_device_id k2) && (ik_protocol k1 =? ik_protocol k2).

Definition ext_key_eq (k1 k2 : ext_key) : bool :=
  (ek_ext_src_port k1 =? ek_ext_src_port k2) && (ek_dst_port k1 =? ek_dst_port k2) &&
  (ek_ext_src_ip k1 =? ek_ext_src_ip k2) && (ek_dst_ip k1 =? ek_dst_ip k2) &&
  (ek_ext_device_id k1 =? ek_ext_device_id k2) && (ek_protocol k1 =? ek_protocol k2).

(** The remainder of C has the sign of [x]. *)
Definition INT_MAX : Z := 2 ^ 31 - 1.
Definition wrap (x : Z) : Z := Z.rem x INT_MAX.

(** Arithmetic on [long long]. *)
Definition int_key_hash (k : int_key) : Z :=
  let hash := ik_int_src_port k in let hash := i64 (hash * 31) in
  let hash := i64 (hash + ik_dst_port k) in let hash := i64 (hash * 31) in
  let hash := i64 (hash + ik_int_src_ip k) in let hash := i64 (hash * 31) in
  let hash := i64 (hash + ik_dst_ip k) in let hash := i64 (hash * 31) in
  let hash := i64 (hash + ik_int_device_id k) in let hash := i64 (hash * 31) in
  let hash := i64 (hash + ik_protocol k) in
  let hash := wrap hash in
  i32 hash.

Definition ext_key_hash (k : ext_key) : Z :=
  let hash := ek_ext_src_port k in let hash := i64 (hash * 31) in
  let hash := i64 (hash + ek_dst_port k) in let hash := i64 (hash * 31) in
  let hash := i64 (hash + ek_ext_src_ip k) in let hash := i64 (hash * 31) in
  let hash := i64 (hash + ek_dst_ip k) in let hash := i64 (hash * 31) in
  let hash := i64 (hash + ek_ext_device_id k) in let hash := i64 (hash * 31) in
  let hash := i64 (hash + ek_protocol k) in
  let hash := wrap hash in
  i32 hash.

(** The pointers to the keys of a flow, as the keys they point to. *)
Definition flow_extract_keys (f : flow) : int_key * ext_key := (ik f, ek f).
Definition flow_pack_keys (f : flow) (ikp : option int_key) (ekp : option ext_key) : flow := f.
Definition flow_destroy (f : flow) : flow := f.

Definition flow_cpy (source : flow) : flow :=
  mk_flow
    (mk_ik (ik_int_src_port (ik source)) (ik_dst_port (ik source)) (ik_int_src_ip (ik source))
       (ik_dst_ip (ik source)) (ik_int_device_id (ik source)) (ik_protocol (ik source)))
    (mk_ek (ek_ext_src_port (ek source)) (ek_dst_port (ek source)) (ek_ext_src_ip (ek source))
       (ek_dst_ip (ek source)) (ek_ext_device_id (ek source)) (ek_protocol (ek source)))
    (int_src_port source) (ext_src_port source) (dst_port source) (int_src_ip source)
    (ext_src_ip source) (dst_ip source) (int_device_id source) (ext_device_id source) (protocol source).

Definition flow_ops : ValueOps int_key ext_key flow :=
  mk_valops flow_cpy flow_destroy flow_extract_keys flow_pack_keys.

(** ** [flowtable.c] *)
Definition flow_map : Type := DoubleMap int_key ext_key flow.
Implicit Types (map : flow_map) (f : flow).

Definition get_flow map (index : Z) : res flow := dmap_get_value map index.
Definition get_flow_int map (key : int_key) : res (option Z) := dmap_get_a map (Local key).
Definition get_flow_ext map (key : ext_key) : res (option Z) := dmap_get_b map (Local key).

Definition fill_int_key f : int_key :=
  mk_ik (int_src_port f) (dst_port f) (int_src_ip f) (dst_ip f) (int_device_id f) (protocol f).
Definition fill_ext_key f : ext_key :=
  mk_ek (ext_src_port f) (dst_port f) (ext_src_ip f) (dst_ip f) (ext_device_id f) (protocol f).

(** The result, the flow with its keys, and the map. *)
Definition add_flow map f (index : Z) : res (Z * flow * flow_map) :=
  let new_int_key := fill_int_key f in
  let new_ext_key := fill_ext_key f in
  let f := mk_flow new_int_key new_ext_key (int_src_port f) (ext_src_port f) (dst_port f)
             (int_src_ip f) (ext_src_ip f) (dst_ip f) (int_device_id f) (ext_device_id f) (protocol f) in
  '(r, map) ← dmap_put map f index;
  Ok (r, f, map).

(** [sizeof(struct flow)]: two keys of 16 bytes, three ports, three addresses, two
    devices and the protocol, with their padding. *)
Definition SIZEOF_FLOW : Z := 60.

Definition allocate_flowtables (ok : nat → bool) (junk : dmap_memory int_key ext_key flow)
    (max_flows : Z) (old : option flow_map) (h : heap) : res ((Z * option flow_map) * heap) :=
  '((alloc_result, map), h) ← dmap_allocate ok junk int_key_eq int_key_hash ext_key_eq ext_key_hash
     SIZEOF_FLOW flow_ops max_flows old h;
  if alloc_result =? 0 then Ok ((0, map), h) else Ok ((1, map), h).

(** ** Lemmas *)
Lemma int_key_eq_spec k1 k2 : int_key_eq k1 k2 = true ↔ k1 = k2.
Proof.
  unfold int_key_eq. destruct k1, k2. cbn. rewrite !andb_true_iff, !Z.eqb_eq. naive_solver.
Qed.

Lemma ext_key_eq_spec k1 k2 : ext_key_eq k1 k2 = true ↔ k1 = k2.
Proof.
  unfold ext_key_eq. destruct k1, k2. cbn. rewrite !andb_true_iff, !Z.eqb_eq. naive_solver.
Qed.

Lemma flow_cpy_id f : flow_cpy f = f.
Proof. by destruct f as [[] []]. Qed.

Lemma flow_ops_ok : valops_ok flow_ops.
Proof. split; [apply flow_cpy_id|done]. Qed.

(** The numbers fit their types. *)
Definition ports_ok (a b c d e p : Z) : Prop :=
  0 <= a < 2 ^ 16 ∧ 0 <= b < 2 ^ 16 ∧ 0 <= c < 2 ^ 32 ∧ 0 <= d < 2 ^ 32 ∧ 0 <= e < 2 ^ 16 ∧ 0 <= p < 2 ^ 8.
Definition int_key_ok (k : int_key) : Prop :=
  ports_ok (ik_int_src_port k) (ik_dst_port k) (ik_int_src_ip k) (ik_dst_ip k) (ik_int_device_id k)
    (ik_protocol k).
Definition ext_key_ok (k : ext_key) : Prop :=
  ports_ok (ek_ext_src_port k) (ek_dst_port k) (ek_ext_src_ip k) (ek_dst_ip k) (ek_ext_device_id k)
    (ek_protocol k).

(** The hash of the contract in [flow.h]: on integers without a bound. *)
Definition poly_hash (x1 x2 x3 x4 x5 x6 : Z) : Z :=
  (((((x1 * 31) + x2) * 31 + x3) * 31 + x4) * 31 + x5) * 31 + x6.

Lemma hash_chain a b c d e p :
  ports_ok a b c d e p →
  i32 (wrap (i64 (i64 (i64 (i64 (i64 (i64 (i64 (i64 (i64 (i64 (a * 31) + b) * 31) + c) * 31) + d) * 31) + e) * 31)
       + p))) = poly_hash a b c d e p mod INT_MAX.
Proof.
  intros (Ha & Hb & Hc & Hd & He & Hp). unfold poly_hash, wrap, INT_MAX.
  rewrite (i64_id (a * 31)) by lia. rewrite (i64_id (a * 31 + b)) by lia. set (x := a * 31 + b).
  assert (0 <= x < 2 ^ 21) as Hx by lia. clearbody x.
  rewrite (i64_id (x * 31)) by lia. rewrite (i64_id (x * 31 + c)) by lia. set (y := x * 31 + c).
  assert (0 <= y < 2 ^ 33) as Hy by lia. clearbody y.
  rewrite (i64_id (y * 31)) by lia. rewrite (i64_id (y * 31 + d)) by lia. set (z := y * 31 + d).
  assert (0 <= z < 2 ^ 39) as Hz by lia. clearbody z.
  rewrite (i64_id (z * 31)) by lia. rewrite (i64_id (z * 31 + e)) by lia.
  rewrite (i64_id ((z * 31 + e) * 31)) by lia. rewrite (i64_id ((z * 31 + e) * 31 + p)) by lia.
  rewrite Z.rem_mod_nonneg by lia. rewrite i32_id; [f_equal; lia|].
  match goal with |- context [?x mod ?y] => pose proof (Z.mod_pos_bound x y ltac:(lia)) end. lia.
Qed.

(** The hash functions of [flow.c] never wrap around: they are the polynomials of the
    contract in [flow.h], and never negative. *)
Theorem flow_hashes_exact k k' :
  int_key_ok k → ext_key_ok k' →
  int_key_hash k = poly_hash (ik_int_src_port k) (ik_dst_port k) (ik_int_src_ip k) (ik_dst_ip k)
                     (ik_int_device_id k) (ik_protocol k) mod INT_MAX ∧
  ext_key_hash k' = poly_hash (ek_ext_src_port k') (ek_dst_port k') (ek_ext_src_ip k') (ek_dst_ip k')
                      (ek_ext_device_id k') (ek_protocol k') mod INT_MAX.
Proof. split; by apply hash_chain. Qed.

(** A flow with its keys filled in. *)
Definition keyed f : flow :=
  mk_flow (fill_int_key f) (fill_ext_key f) (int_src_port f) (ext_src_port f) (dst_port f)
    (int_src_ip f) (ext_src_ip f) (dst_ip f) (int_device_id f) (ext_device_id f) (protocol f).

(** Adding flows one after the other, each at its index. *)
Fixpoint add_flows map (l : list (flow * Z)) : res flow_map :=
  match l with
  | [] => Ok map
  | (f, index) :: l => '(_, _, map) ← add_flow map f index; add_flows map l
  end.

(** The abstract double map holds the flows of [l], the last one first. *)
Record stored (cap : Z) (m : dmap int_key ext_key flow) (l : list (flow * Z)) : Prop := {
  stored_a : ma m = (λ p, (fill_int_key p.1, p.2)) <$> l;
  stored_b : mb m = (λ p, (fill_ext_key p.1, p.2)) <$> l;
  stored_v : ∀ i v, 0 <= i < cap →
    getz (val_arr m) i = Some v ↔ ∃ f, (f, i) ∈ l ∧ v = keyed f
}.

(** Distinct keys of both kinds, and distinct indexes of the table. *)
Definition flows_ok (cap : Z) (l : list (flow * Z)) : Prop :=
  NoDup ((λ p, fill_int_key p.1) <$> l) ∧ NoDup ((λ p, fill_ext_key p.1) <$> l) ∧ NoDup l.*2 ∧
  Forall (λ p, 0 <= p.2 < cap) l.

Lemma flows_ok_perm cap l l' : l ≡ₚ l' → flows_ok cap l → flows_ok cap l'.
Proof. intros Hp. unfold flows_ok. by rewrite Hp. Qed.

Lemma alist_get_flows {K} `{EqDecision K} (key : flow → K) (l : list (flow * Z)) k i :
  NoDup ((λ p, key p.1) <$> l) →
  alist_get ((λ p, (key p.1, p.2)) <$> l) k = Some i ↔ ∃ f, (f, i) ∈ l ∧ key f = k.
Proof.
  intros Hnd. rewrite alist_get_Some by (by rewrite <- list_fmap_compose).
  rewrite list_elem_of_fmap. split.
  - intros ([f j] & [= -> ->] & Hin). by exists f.
  - intros (f & Hin & <-). by exists (f, i).
Qed.

Lemma alist_has_flows {K} `{EqDecision K} (key : flow → K) (l : list (flow * Z)) p :
  NoDup ((λ p, key p.1) <$> p :: l) →
  map_has_fp ((λ p, (key p.1, p.2)) <$> l) (key p.1) = false.
Proof.
  rewrite fmap_cons, NoDup_cons. intros [Hn _]. apply alist_has_false.
  by rewrite <- list_fmap_compose.
Qed.

Lemma add_flow_step cap map m l f i :
  dmappingp flow_ops map cap m → stored cap m l → flows_ok cap ((f, i) :: l) →
  ∃ map' m', add_flow map f i = Ok (1, keyed f, map') ∧ dmappingp flow_ops map' cap m' ∧
    stored cap m' ((f, i) :: l).
Proof.
  intros Hd [Sa Sb Sv] (Ha & Hb & Hi & Hr). pose proof Hd as [idxs Hd'].
  pose proof (dp_arr _ _ _ _ _ Hd') as Harr.
  apply Forall_cons in Hr as [Hr _]. rewrite fmap_cons, NoDup_cons in Hi. destruct Hi as [Hi _].
  cbn [snd] in Hr, Hi.
  assert (Hnew : getz (val_arr m) i = None).
  { destruct (getz (val_arr m) i) as [v|] eqn:E; [|done]. exfalso.
    apply Sv in E as (f' & Hin & _); [|done]. apply Hi, list_elem_of_fmap. by exists (f', i). }
  destruct (dmap_put_spec flow_ops map cap m i (keyed f) Hd Hr) as (map' & E & Hd1).
  - unfold dmap_index_used_fp. by rewrite Hnew, andb_false_r.
  - unfold dmap_has_k1_fp. rewrite Sa. by apply (alist_has_flows fill_int_key l (f, i)).
  - unfold dmap_has_k2_fp. rewrite Sb. by apply (alist_has_flows fill_ext_key l (f, i)).
  - exists map'. eexists. split; [|split; [exact Hd1|]].
    { unfold add_flow. fold (keyed f). cbn [int_src_port]. by rewrite E. }
    split; cbn [dmap_put_fp ma mb val_arr].
    + by rewrite Sa.
    + by rewrite Sb.
    + intros j v Hj. destruct (decide (j = i)) as [->|Hne].
      * rewrite getz_setz_eq by lia. split.
        -- intros [= <-]. exists f. by split; [left|].
        -- intros (f' & [[= <-]|Hin]%elem_of_cons & ->); [done|].
           exfalso. apply Hi, list_elem_of_fmap. by exists (f', i).
      * rewrite getz_setz_ne by lia. rewrite Sv by done. split; intros (f' & Hin & ->); exists f'.
        -- by split; [right|].
        -- apply elem_of_cons in Hin as [[= -> ->]|Hin]; done.
Qed.

Lemma add_flows_spec cap l map m l0 :
  dmappingp flow_ops map cap m → stored cap m l0 → flows_ok cap (l ++ l0) →
  ∃ map' m', add_flows map l = Ok map' ∧ dmappingp flow_ops map' cap m' ∧
    stored cap m' (reverse l ++ l0).
Proof.
  revert map m l0. induction l as [|[f i] l IH]; intros map m l0 Hd Hs Hok; cbn [add_flows].
  { exists map, m. done. }
  assert (Hp : ((f, i) :: l) ++ l0 ≡ₚ l ++ (f, i) :: l0) by (by rewrite <- Permutation_middle).
  apply (flows_ok_perm _ _ _ Hp) in Hok.
  destruct (add_flow_step cap map m l0 f i Hd Hs) as (map1 & m1 & E & Hd1 & Hs1).
  { destruct Hok as (Ha & Hb & Hi & Hr). rewrite fmap_app in Ha. rewrite fmap_app in Hb. rewrite fmap_app in Hi.
    apply NoDup_app in Ha as (_ & _ & Ha). apply NoDup_app in Hb as (_ & _ & Hb).
    apply NoDup_app in Hi as (_ & _ & Hi). apply Forall_app in Hr as [_ Hr]. done. }
  rewrite E. cbn [mbind res_bind].
  destruct (IH map1 m1 ((f, i) :: l0) Hd1 Hs1 Hok) as (map' & m' & E' & Hd' & Hs').
  exists map', m'. split; [done|]. split; [done|]. by rewrite reverse_cons, <- (assoc_L (++)).
Qed.

(** C39: In a flow table that [allocate_flowtables] makes, flows that are added with
    distinct keys and at distinct indexes are found by exactly their own keys: a
    lookup with the internal key of a packet from inside, or with the external key of
    a packet from outside, gives the index of the one flow with those fields, and a
    key of no flow is not found; the flow at that index is the flow that was added,
    with its keys filled in. *)
Theorem flow_table_correct ok junk max_flows old h map h' l :
  heap_wf h → (∃ n, 0 <= n ∧ max_flows = 2 ^ n) → dmap_memory_ok junk max_flows →
  allocate_flowtables ok junk max_flows old h = Ok ((1, Some map), h') → flows_ok max_flows l →
  ∃ map', add_flows map l = Ok map' ∧
    (∀ key, ∃ r, get_flow_int map' key = Ok r ∧
       ∀ index, r = Some index ↔ ∃ f, (f, index) ∈ l ∧ fill_int_key f = key) ∧
    (∀ key, ∃ r, get_flow_ext map' key = Ok r ∧
       ∀ index, r = Some index ↔ ∃ f, (f, index) ∈ l ∧ fill_ext_key f = key) ∧
    (∀ f index, (f, index) ∈ l → get_flow map' index = Ok (keyed f)).
Proof.
  intros Hwf Hp Hj E Hok. unfold allocate_flowtables in E.
  destruct (dmap_allocate _ _ _ _ _ _ _ _ _ _ _) as [[[r1 o1] h1']|] eqn:E0; [|done].
  assert (Hr1 : r1 ≠ 0) by (intros ->; by simplify_eq/=).
  pose proof (dmap_allocate_size _ _ _ _ _ _ _ _ _ _ _ _ _ _ E0 Hr1) as Hsize. rewrite <- E0 in E.
  destruct (dmap_allocate_spec ok junk int_key_eq int_key_hash ext_key_eq ext_key_hash SIZEOF_FLOW
    flow_ops max_flows old h Hsize Hwf Hp Hj flow_ops_ok int_key_eq_spec ext_key_eq_spec)
    as [(dm & h1 & bs & E1 & Hd & _)|(n & E1 & _)]; rewrite E1 in E; cbn in E; [|discriminate].
  injection E as <- <-.
  destruct (add_flows_spec max_flows l dm _ [] Hd) as (map' & m' & E' & Hd' & [Sa Sb Sv]).
  { split; [done|done|]. intros i v Hi. cbn [empty_dmap_fp val_arr].
    rewrite getz_replicate by lia. split; [done|]. by intros (f & ?%elem_of_nil & _). }
  { by rewrite app_nil_r. }
  rewrite app_nil_r in *. pose proof (flows_ok_perm _ _ _ (symmetry (reverse_Permutation l)) Hok) as Hok'.
  destruct Hok' as (Ha & Hb & _). exists map'. split; [done|].
  split; [|split]; [intros key..|intros f index Hin].
  - eexists. split; [apply (dmap_get_a_spec flow_ops map' max_flows m' (Local key) Hd')|].
    intros index. rewrite Sa. cbn [d_a deref_key]. rewrite (alist_get_flows fill_int_key _ key index Ha).
    by setoid_rewrite elem_of_reverse.
  - eexists. split; [apply (dmap_get_b_spec flow_ops map' max_flows m' (Local key) Hd')|].
    intros index. rewrite Sb. cbn [d_b deref_key]. rewrite (alist_get_flows fill_ext_key _ key index Hb).
    by setoid_rewrite elem_of_reverse.
  - assert (Hr : 0 <= index < max_flows).
    { destruct Hok as (_ & _ & _ & Hr). rewrite Forall_forall in Hr. by apply (Hr (f, index)). }
    apply (dmap_get_value_spec flow_ops map' max_flows m' index (keyed f) Hd' Hr).
    apply Sv; [done|]. exists f. split; [|done]. by apply elem_of_reverse.
Qed.

(** *** A table of four flows *)
Definition flow_memory : dmap_memory int_key ext_key flow :=
  mk_dmap_memory _ _ _ (λ n, replicate (Z.to_nat n) 5) (λ n, replicate (Z.to_nat n) inhabitant)
    (λ n, replicate (Z.to_nat n) (Cell 3)) (λ n, replicate (Z.to_nat n) (Local inhabitant)).
Definition flow_of (client port : Z) : flow :=
  mk_flow inhabitant inhabitant client port 80 167772161 3232235777 134744072 0 1 6.
Definition four_flows : list (flow * Z) := [(flow_of 5000 1025, 2); (flow_of 5001 1024, 0)].

Definition four_table : flow_map :=
  let z := replicate 4 5 in let e := replicate 4 0 in
  mk_dmap SIZEOF_FLOW flow_ops (replicate 4 inhabitant) e (replicate 4 (Cell 3)) z e z
    int_key_eq int_key_hash e (replicate 4 (Local inhabitant)) z e z ext_key_eq ext_key_hash 0 4.
Definition four_heap : heap := mk_heap 12 [11; 10; 9; 8; 7; 6; 5; 4; 3; 2; 1; 0]%nat.

Lemma flow_table_correct_witness :
  ∃ map h' map',
    allocate_flowtables (λ _, true) flow_memory 4 None (mk_heap 0 []) = Ok ((1, Some map), h') ∧
    add_flows map four_flows = Ok map' ∧
    (∃ r, get_flow_int map' (fill_int_key (flow_of 5001 1024)) = Ok r ∧ r = Some 0) ∧
    (∃ r, get_flow_ext map' (fill_ext_key (flow_of 5000 1024)) = Ok r ∧ r = Some 0) ∧
    get_flow map' 2 = Ok (keyed (flow_of 5000 1025)).
Proof.
  assert (E : allocate_flowtables (λ _, true) flow_memory 4 None (mk_heap 0 []) =
    Ok ((1, Some four_table), four_heap)) by reflexivity.
  destruct (flow_table_correct (λ _, true) flow_memory 4 None (mk_heap 0 []) four_table four_heap four_flows)
    as (map' & E' & Hi & He & Hv); [|by exists 2|done|exact E| |].
  - split; simpl; [constructor|]. by intros b ?%elem_of_nil.
  - repeat split; [apply (bool_decide_unpack _); vm_compute; exact I..|].
    repeat constructor; simpl; lia.
  - exists four_table, four_heap, map'. split; [exact E|]. split; [exact E'|]. split; [|split].
    + destruct (Hi (fill_int_key (flow_of 5001 1024))) as (r & Er & Hr). exists r.
      split; [exact Er|]. apply Hr. exists (flow_of 5001 1024). split; [right; left|reflexivity].
    + destruct (He (fill_ext_key (flow_of 5000 1024))) as (r & Er & Hr). exists r.
      split; [exact Er|]. apply Hr. exists (flow_of 5001 1024). split; [right; left|reflexivity].
    + apply Hv. left.
Defined.

Lemma flow_hashes_exact_witness :
  int_key_hash (mk_ik 5000 80 167772161 134744072 0 6) = 884268491 ∧
  ext_key_hash (mk_ek 65535 65535 4294967295 4294967295 65535 255) = 1853656165.
Proof.
  destruct (flow_hashes_exact (mk_ik 5000 80 167772161 134744072 0 6)
    (mk_ek 65535 65535 4294967295 4294967295 65535 255)) as [E1 E2]; [by repeat split..|].
  rewrite E1, E2. split; reflexivity.
Defined.
End FlowTable.
