(* ===== verification/Fresh.v ===== *)
(** * Newly allocated containers

    The chain, map and vector that [dchain_allocate], [map_allocate] and
    [vector_allocate] leave behind, with any contents of the fresh memory, and the
    proof that together they are a flow table with no entries: the start of the runs
    of the network functions. *)

From S2P Require Import Prelude.
From S2P Require Import Malloc.
From S2P Require Import PredMapImpl.
From S2P Require Import MapImpl.
From S2P Require Import MapSpec.
From S2P Require Import DChainImpl.
From S2P Require Import DChain.
From S2P Require Import Map.
From S2P Require Import Vector.
From S2P Require Import Coherence.

Definition fresh_chain (range : Z) : DoubleChain :=
  match dchain_impl_init (replicate (Z.to_nat (range + DCHAIN_RESERVED)) (mk_cell 0 0)) range with
  | Ok cs => mk_chain cs (replicate (Z.to_nat range) 0)
  | Err _ => mk_chain [] []
  end.

Lemma fresh_chain_ok range :
  0 < range → double_chainp (empty_dchain_fp range 0) (fresh_chain range).
Proof.
  intros Hr. unfold fresh_chain.
  destruct (dchain_impl_init_spec (replicate (Z.to_nat (range + DCHAIN_RESERVED)) (mk_cell 0 0)) range)
    as (cs & -> & Hcs); [done|apply zlen_replicate; unfold DCHAIN_RESERVED; lia|].
  split; simpl; [done|apply zlen_replicate; lia| |done|done]. by intros i t ?%elem_of_nil.
Qed.

Section fresh.
Context {K : Type} `{Inhabited K, Countable K}.

Definition fresh_map (cap : Z) (keq : K → K → bool) (kh : K → Z) : Map (ptr K) K :=
  let z := replicate (Z.to_nat cap) 0 in
  mk_map z (replicate (Z.to_nat cap) (Cell 0)) z z z cap 0 keq kh.

Definition fresh_vector (cap : Z) : Vector K :=
  mk_vector (replicate (Z.to_nat cap) inhabitant) 0 cap.

Lemma fresh_map_ok d cap keq kh n :
  0 <= n → cap = 2 ^ n → (∀ k1 k2, keq k1 k2 = true ↔ k1 = k2) →
  map_inv d (fresh_map cap keq kh) cap ∅.
Proof.
  intros Hn -> Heq. assert (0 < 2 ^ n) by lia.
  split; simpl; [done|by exists n|done|done|]. split.
  - unfold same_len. rewrite !zlen_replicate by lia. done.
  - apply table_empty; [by rewrite zlen_aos, zlen_replicate by lia|].
    intros x Hx. unfold busy. rewrite getz_aos by (rewrite zlen_replicate; lia). simpl.
    by rewrite getz_replicate by lia.
Qed.

(** The containers of a network function right after its initialisation. *)
Lemma fresh_coherent cap keq kh n :
  0 <= n → cap = 2 ^ n → (∀ k1 k2, keq k1 k2 = true ↔ k1 = k2) →
  coherent (fresh_map cap keq kh) (fresh_vector cap) (fresh_chain cap) (empty_dchain_fp cap 0).
Proof.
  intros Hn Hcap Heq. assert (0 < cap) by (subst; lia). split.
  - by apply fresh_chain_ok.
  - simpl. apply zlen_replicate. lia.
  - simpl. constructor.
  - simpl. apply (fresh_map_ok _ cap keq kh n); done.
Qed.
End fresh.

(** ** What [malloc] returns

    The contents of fresh arrays of a length, whatever they are. *)
Record memory (K : Type) := mk_memory {
  ints : Z → list Z; ptrs : Z → list (ptr K); elems : Z → list K;
  dcells : Z → list dchain_cell }.
Arguments ints {K} _.
Arguments ptrs {K} _.
Arguments elems {K} _.
Arguments dcells {K} _.

Record memory_ok {K} (mem : memory K) : Prop := {
  mo_ints : ∀ n, 0 <= n → zlen (ints mem n) = n;
  mo_ptrs : ∀ n, 0 <= n → zlen (ptrs mem n) = n;
  mo_elems : ∀ n, 0 <= n → zlen (elems mem n) = n;
  mo_dcells : ∀ n, 0 <= n → zlen (dcells mem n) = n
}.

Definition zero_memory {K} `{Inhabited K} : memory K :=
  mk_memory K (λ n, replicate (Z.to_nat n) 0) (λ n, replicate (Z.to_nat n) inhabitant)
    (λ n, replicate (Z.to_nat n) inhabitant) (λ n, replicate (Z.to_nat n) inhabitant).

Lemma zero_memory_ok {K} `{Inhabited K} : memory_ok (zero_memory (K := K)).
Proof. split; simpl; intros n Hn; by apply zlen_replicate. Qed.

(** A map, a vector and a chain that were just allocated make an empty table. *)
Lemma allocated_coherent {K} `{Inhabited K, Countable K} d (map : Map (ptr K) K) v chain cap :
  map_inv d map cap ∅ → zlen (data v) = cap →
  double_chainp (empty_dchain_fp cap 0) chain →
  coherent map v chain (empty_dchain_fp cap 0).
Proof.
  intros Hm Hv Hc. split; [done|done|constructor|].
  apply (mapp_frame d (deref v) map cap ∅); [|done]. intros k p i Hk. by rewrite lookup_empty in Hk.
Qed.

(** *** The allocation functions, for [or_null] *)
Section alloc.
Context {K : Type} `{Inhabited K, Countable K}.
Variables (ok : nat → bool) (mem : memory K).

Definition alloc_map (keq : K → K → bool) (kh : K → Z) (cap : Z) :=
  map_allocate ok (ints mem) (ptrs mem) keq kh cap None.

(** [init_elem] does nothing in the network functions. *)
Definition alloc_vector {A} (sizeof : Z) (cap : Z) (init_elem : A → A) (fresh : list A)
    (h : Malloc.heap) : res ((Z * option (Vector A)) * Malloc.heap) :=
  '((r, _, v), h) ← vector_allocate ok sizeof cap init_elem 0%nat fresh h;
  Ok ((r, v), h).

Definition alloc_chain (range : Z) (h : Malloc.heap)
    : res ((Z * option DoubleChain) * Malloc.heap) :=
  '((r, _, chain), h) ←
    dchain_allocate ok range 0%nat (dcells mem (range + DCHAIN_RESERVED)) (ints mem range) h;
  Ok ((r, chain), h).

Hypothesis Hmem : memory_ok mem.

Lemma alloc_map_spec keq kh cap d h :
  heap_wf h → (∃ n, 0 <= n ∧ cap = 2 ^ n) → (∀ k1 k2, keq k1 k2 = true ↔ k1 = k2) →
  (∃ map h', alloc_map keq kh cap h = Ok ((1, Some map), h') ∧ map_inv d map cap ∅ ∧ heap_wf h') ∨
  (∃ n o, alloc_map keq kh cap h = Ok ((0, o), mk_heap n (live h)) ∧ ∃ r, ok r = false).
Proof.
  intros Hwf Hp Heq. assert (0 <= cap) by (destruct Hp as (n & Hn & ->); lia).
  destruct (map_allocate_no_leak ok (ints mem) (ptrs mem) keq kh cap None h d Hwf Hp Heq)
    as [(map & h' & E & Hi & Hwf' & _)|(n & E & Hr)]; [by apply Hmem|by apply Hmem|left|right].
  - by exists map, h'.
  - by exists n, None.
Qed.

Lemma alloc_vector_contents {A} `{Inhabited A} sizeof cap (init_elem : A → A) fresh h :
  vector_fits sizeof cap → heap_wf h → 0 <= cap → zlen fresh = cap →
  (∃ v h', alloc_vector sizeof cap init_elem fresh h = Ok ((1, Some v), h') ∧
     zlen (data v) = cap ∧ (∀ i, 0 <= i < cap → getz (data v) i = init_elem (getz fresh i)) ∧
     heap_wf h') ∨
  (∃ n o, alloc_vector sizeof cap init_elem fresh h = Ok ((0, o), mk_heap n (live h)) ∧
     ∃ r, ok r = false).
Proof.
  intros Hf Hwf Hc Hl. unfold alloc_vector.
  destruct (vector_allocate_no_leak ok sizeof cap init_elem 0%nat fresh h Hf Hwf Hc Hl)
    as [(b & v & h' & E & Hv & _ & Hc' & Hwf' & _)|(n & E & Hr)]; rewrite E; cbn [mbind res_bind];
    [left|right].
  - by exists v, h'.
  - by exists n, None.
Qed.

Lemma alloc_vector_spec {A} `{Inhabited A} sizeof cap (init_elem : A → A) fresh h :
  vector_fits sizeof cap → heap_wf h → 0 <= cap → zlen fresh = cap →
  (∃ v h', alloc_vector sizeof cap init_elem fresh h = Ok ((1, Some v), h') ∧
     zlen (data v) = cap ∧ heap_wf h') ∨
  (∃ n o, alloc_vector sizeof cap init_elem fresh h = Ok ((0, o), mk_heap n (live h)) ∧
     ∃ r, ok r = false).
Proof.
  intros Hf Hwf Hc Hl.
  destruct (alloc_vector_contents sizeof cap init_elem fresh h Hf Hwf Hc Hl)
    as [(v & h' & ? & ? & _ & ?)|?]; [left; by exists v, h'|by right].
Qed.

Lemma alloc_chain_spec range h :
  heap_wf h → 0 < range →
  (∃ chain h', alloc_chain range h = Ok ((1, Some chain), h') ∧
     double_chainp (empty_dchain_fp range 0) chain ∧ heap_wf h') ∨
  (∃ n o, alloc_chain range h = Ok ((0, o), mk_heap n (live h)) ∧ ∃ r, ok r = false).
Proof.
  intros Hwf Hr. unfold alloc_chain.
  destruct (dchain_allocate_no_leak ok range 0%nat (dcells mem (range + DCHAIN_RESERVED))
    (ints mem range) h Hwf Hr)
    as [(b & chain & h' & E & Hc & Hwf' & _)|(n & E & Hf)];
    [apply Hmem; unfold DCHAIN_RESERVED; lia|apply Hmem; lia|left|right]; rewrite E;
    cbn [mbind res_bind].
  - by exists chain, h'.
  - by exists n, None.
Qed.
End alloc.

(** *** The allocation functions, for [or_err] *)
Section alloc_err.
Context {K : Type} `{Inhabited K, Countable K}.
Variables (ok : nat → bool) (mem : memory K).
Hypothesis Hmem : memory_ok mem.

(** Executes the successful branches of nested [malloc_or]s. *)
Ltac malloc_succeeds E := repeat (apply malloc_or_inv in E; [|done]).

Lemma alloc_map_allocates keq kh cap d :
  (∃ n, 0 <= n ∧ cap = 2 ^ n) → (∀ k1 k2, keq k1 k2 = true ↔ k1 = k2) →
  allocates ok (λ map, map_inv d map cap ∅) (alloc_map ok mem keq kh cap).
Proof.
  intros Hp Heq h Hwf.
  destruct (alloc_map_spec ok mem Hmem keq kh cap d h Hwf Hp Heq) as [(map & h' & E & Hi & Hwf')|?];
    [left|by right].
  exists map, h'. split; [done|]. split; [done|]. split; [done|].
  unfold alloc_map, map_allocate in E. malloc_succeeds E.
  apply res_bind_Ok in E as ([bbs chs] & _ & [= _ <-]). simpl. split.
  - set_solver.
  - set_solver.
Qed.

Lemma alloc_vector_allocates {A} `{Inhabited A} sizeof cap (init_elem : A → A) fresh :
  vector_fits sizeof cap → 0 <= cap → zlen fresh = cap →
  allocates ok (λ v, zlen (data v) = cap ∧
      ∀ i, 0 <= i < cap → getz (data v) i = init_elem (getz fresh i))
    (alloc_vector ok sizeof cap init_elem fresh).
Proof using ok.
  clear dependent mem. intros Hf Hc Hl h Hwf.
  destruct (alloc_vector_contents ok sizeof cap init_elem fresh h Hf Hwf Hc Hl)
    as [(v & h' & E & Hi & Hg & Hwf')|?]; [left|by right].
  exists v, h'. split; [done|]. split; [done|]. split; [done|].
  unfold alloc_vector, vector_allocate in E. apply res_bind_Ok in E as ([[[r b] o] h1] & E & [= -> -> ->]).
  malloc_succeeds E. apply res_bind_Ok in E as (es & _ & [= _ _ <-]). simpl. split; set_solver.
Qed.

Lemma alloc_chain_allocates range :
  0 < range →
  allocates ok (double_chainp (empty_dchain_fp range 0)) (alloc_chain ok mem range).
Proof.
  intros Hr h Hwf.
  destruct (alloc_chain_spec ok mem Hmem range h Hwf Hr) as [(c & h' & E & Hi & Hwf')|?];
    [left|by right].
  exists c, h'. split; [done|]. split; [done|]. split; [done|].
  unfold alloc_chain, dchain_allocate in E. apply res_bind_Ok in E as ([[[r b] o] h1] & E & [= -> -> ->]).
  malloc_succeeds E. apply res_bind_Ok in E as (es & _ & [= _ _ <-]). simpl. split; set_solver.
Qed.
End alloc_err.
