(* ===== verification/PredDoubleMap.v ===== *)
(** * The double map of [pred-double-map.c]

    The double map of [DoubleMap.v] with each of its two tables as one array of
    [struct Bucket] ([PredMapImpl.v]) instead of five arrays. Each operation does on the
    array of structures that five arrays describe what the operation of
    [double-map.c] does on these arrays. *)

From S2P Require Import Prelude.
From S2P Require Import Malloc.
From S2P Require Import PredMapImpl.
From S2P Require Import MapImpl.
From S2P Require Import Map.
From S2P Require Import Vector.
From S2P Require Import DoubleMap.

Module PredDMap.

Record DoubleMap (K1 K2 V : Type) := mk_pdmap {
  value_size : Z; vops : ValueOps K1 K2 V; values : list V;
  buckets_a : list (Bucket (ptr K1)); eq_a : K1 → K1 → bool; hsh_a : K1 → Z;
  buckets_b : list (Bucket (ptr K2)); eq_b : K2 → K2 → bool; hsh_b : K2 → Z;
  size_field : Z; capacity : Z }.
Arguments mk_pdmap {K1 K2 V} _ _ _ _ _ _ _ _ _ _ _.
Arguments value_size {K1 K2 V} _.
Arguments vops {K1 K2 V} _.
Arguments values {K1 K2 V} _.
Arguments buckets_a {K1 K2 V} _.
Arguments eq_a {K1 K2 V} _.
Arguments hsh_a {K1 K2 V} _.
Arguments buckets_b {K1 K2 V} _.
Arguments eq_b {K1 K2 V} _.
Arguments hsh_b {K1 K2 V} _.
Arguments size_field {K1 K2 V} _.
Arguments capacity {K1 K2 V} _.

Section ops.
Context {K1 K2 V : Type} `{Inhabited V}.
Implicit Types (map : DoubleMap K1 K2 V) (index : Z) (value : V).

Definition key_a map (v : V) : K1 := (exk (vops map) v).1.
Definition key_b map (v : V) : K2 := (exk (vops map) v).2.

(** The memory behind a pointer to a key. *)
Definition d_a map : ptr K1 → K1 := deref_key (key_a map) (values map).
Definition d_b map : ptr K2 → K2 := deref_key (key_b map) (values map).

Definition with_values map (vs : list V) (n : Z) : DoubleMap K1 K2 V :=
  mk_pdmap (value_size map) (vops map) vs (buckets_a map) (eq_a map) (hsh_a map)
    (buckets_b map) (eq_b map) (hsh_b map) n (capacity map).
Definition with_a map (bs : list (Bucket (ptr K1))) : DoubleMap K1 K2 V :=
  mk_pdmap (value_size map) (vops map) (values map) bs (eq_a map) (hsh_a map)
    (buckets_b map) (eq_b map) (hsh_b map) (size_field map) (capacity map).
Definition with_b map (bs : list (Bucket (ptr K2))) : DoubleMap K1 K2 V :=
  mk_pdmap (value_size map) (vops map) (values map) (buckets_a map) (eq_a map) (hsh_a map)
    bs (eq_b map) (hsh_b map) (size_field map) (capacity map).

Definition dmap_get_a map (key : ptr K1) : res (option Z) :=
  let hash := hsh_a map (d_a map key) in
  PredMapImpl.map_impl_get loop (buckets_a map) key
    (λ p q, eq_a map (d_a map p) (d_a map q)) hash (capacity map).

Definition dmap_get_b map (key : ptr K2) : res (option Z) :=
  let hash := hsh_b map (d_b map key) in
  PredMapImpl.map_impl_get loop (buckets_b map) key
    (λ p q, eq_b map (d_b map p) (d_b map q)) hash (capacity map).

Definition dmap_put map value index : res (Z * DoubleMap K1 K2 V) :=
  vs ← wr (values map) index (cpy (vops map) value);
  let map := with_values map vs (size_field map) in
  let hash1 := hsh_a map (d_a map (Cell index)) in
  bs ← PredMapImpl.map_impl_put loop (buckets_a map) (Cell index) hash1 index (capacity map);
  let map := with_a map bs in
  let hash2 := hsh_b map (d_b map (Cell index)) in
  bs ← PredMapImpl.map_impl_put loop (buckets_b map) (Cell index) hash2 index (capacity map);
  let map := with_b map bs in
  let map := with_values map (values map) (size_field map + 1) in
  my_value ← rd (values map) index;
  let packed := pk (vops map) my_value (Some (key_a map my_value)) (Some (key_b map my_value)) in
  vs ← wr (values map) index packed;
  Ok (1, with_values map vs (size_field map)).

(** The value that is copied to [*value_out]. *)
Definition dmap_get_value map index : res V :=
  my_value ← rd (values map) index;
  Ok (cpy (vops map) my_value).

Definition dmap_erase map index : res (Z * DoubleMap K1 K2 V) :=
  my_value ← rd (values map) index;
  let hash1 := hsh_a map (d_a map (Cell index)) in
  '(bs, out_key_a) ← PredMapImpl.map_impl_erase loop (buckets_a map) (Cell index)
    (λ p q, eq_a map (d_a map p) (d_a map q)) hash1 (capacity map);
  let map := with_a map bs in
  let hash2 := hsh_b map (d_b map (Cell index)) in
  '(bs, out_key_b) ← PredMapImpl.map_impl_erase loop (buckets_b map) (Cell index)
    (λ p q, eq_b map (d_b map p) (d_b map q)) hash2 (capacity map);
  let map := with_b map bs in
  let packed := pk (vops map) my_value (Some (key_a map my_value)) (Some (key_b map my_value)) in
  let packed := pk (vops map) packed (d_a map <$> out_key_a) (d_b map <$> out_key_b) in
  vs ← wr (values map) index (dstr (vops map) packed);
  Ok (1, with_values map vs (size_field map - 1)).

Definition dmap_size map : Z := size_field map.
End ops.

(** [dmap_allocate]; [junk] is what fresh memory holds. As in [double-map.c], the size of
    the array of values is a product of [int]s. *)
Definition dmap_allocate {K1 K2 V} (ok : nat → bool) (junk_vals : Z → list V)
    (junk_a : Z → list (Bucket (ptr K1))) (junk_b : Z → list (Bucket (ptr K2)))
    (eq_a : K1 → K1 → bool) (hsh_a : K1 → Z) (eq_b : K2 → K2 → bool) (hsh_b : K2 → Z)
    (value_size : Z) (ops : ValueOps K1 K2 V) (capacity : Z) (old : option (DoubleMap K1 K2 V))
    (h : heap) : res ((Z * option (DoubleMap K1 K2 V)) * heap) :=
  let fail := (0, old) in
  malloc_or ok [] fail (λ map_alloc h,
  vals_size ← int_mul value_size capacity;
  malloc_or ok [map_alloc] fail (λ vals_alloc,
  malloc_or ok [map_alloc; vals_alloc] fail (λ buckets_a_alloc,
  malloc_or ok [map_alloc; vals_alloc; buckets_a_alloc] fail (λ buckets_b_alloc h,
    bs_a ← PredMapImpl.map_impl_init (junk_a capacity) capacity;
    bs_b ← PredMapImpl.map_impl_init (junk_b capacity) capacity;
    Ok ((1, Some (mk_pdmap value_size ops (junk_vals capacity) bs_a eq_a hsh_a bs_b eq_b hsh_b 0 capacity)),
        h)))) h) h.

(** ** The double map of [double-map.c] that it stands for *)
Section simulation.
Context {K1 K2 V : Type} `{Inhabited V, Inhabited K1, Inhabited K2}.
Implicit Types (dm : DoubleMap.DoubleMap K1 K2 V) (index : Z) (value : V).

Definition pack dm : DoubleMap K1 K2 V :=
  mk_pdmap (DoubleMap.value_size dm) (DoubleMap.vops dm) (DoubleMap.values dm)
    (aos (bbs_a dm) (kps_a dm) (khs_a dm) (chns_a dm) (inds_a dm)) (DoubleMap.eq_a dm) (DoubleMap.hsh_a dm)
    (aos (bbs_b dm) (kps_b dm) (khs_b dm) (chns_b dm) (inds_b dm)) (DoubleMap.eq_b dm) (DoubleMap.hsh_b dm)
    (n_vals dm) (DoubleMap.capacity dm).

(** All arrays of the two tables have the capacity. *)
Definition full_arrays dm : Prop :=
  same_len (DoubleMap.capacity dm) (bbs_a dm) (kps_a dm) (khs_a dm) (chns_a dm) (inds_a dm) ∧
  same_len (DoubleMap.capacity dm) (bbs_b dm) (kps_b dm) (khs_b dm) (chns_b dm) (inds_b dm).

Lemma get_a_pack dm keyp : full_arrays dm → dmap_get_a (pack dm) keyp = DoubleMap.dmap_get_a dm keyp.
Proof. intros [Ha _]. symmetry. by apply map_impl_get_aos. Qed.

Lemma get_b_pack dm keyp : full_arrays dm → dmap_get_b (pack dm) keyp = DoubleMap.dmap_get_b dm keyp.
Proof. intros [_ Hb]. symmetry. by apply map_impl_get_aos. Qed.

Lemma get_value_pack dm index : dmap_get_value (pack dm) index = DoubleMap.dmap_get_value dm index.
Proof. done. Qed.

(** The tables after an update of the values. *)
Lemma full_values dm vs n : full_arrays dm → full_arrays (DoubleMap.with_values dm vs n).
Proof. done. Qed.

(** The two tables, one after the other. *)
Lemma put_a_pack dm keyp index :
  full_arrays dm → let hash := DoubleMap.hsh_a dm (DoubleMap.d_a dm keyp) in
  PredMapImpl.map_impl_put loop (buckets_a (pack dm)) keyp (hsh_a (pack dm) (d_a (pack dm) keyp)) index
    (capacity (pack dm)) =
  (λ '(bb, kp, kh, ch, vs), aos bb kp kh ch vs) <$>
    map_impl_put loop (bbs_a dm) (kps_a dm) (khs_a dm) (chns_a dm) (inds_a dm) keyp hash index
      (DoubleMap.capacity dm) ∧
  (∀ bb kp kh ch vs, map_impl_put loop (bbs_a dm) (kps_a dm) (khs_a dm) (chns_a dm) (inds_a dm) keyp hash
      index (DoubleMap.capacity dm) = Ok (bb, kp, kh, ch, vs) →
    full_arrays (DoubleMap.with_a dm bb kp kh ch vs)).
Proof.
  intros [Ha Hb] hash. destruct (map_impl_put_aos loop _ _ _ _ _ _ keyp hash index Ha) as [E L].
  split; [exact E|]. intros bb kp kh ch vs Ep. split; [by apply L|done].
Qed.

Lemma put_b_pack dm keyp index :
  full_arrays dm → let hash := DoubleMap.hsh_b dm (DoubleMap.d_b dm keyp) in
  PredMapImpl.map_impl_put loop (buckets_b (pack dm)) keyp (hsh_b (pack dm) (d_b (pack dm) keyp)) index
    (capacity (pack dm)) =
  (λ '(bb, kp, kh, ch, vs), aos bb kp kh ch vs) <$>
    map_impl_put loop (bbs_b dm) (kps_b dm) (khs_b dm) (chns_b dm) (inds_b dm) keyp hash index
      (DoubleMap.capacity dm) ∧
  (∀ bb kp kh ch vs, map_impl_put loop (bbs_b dm) (kps_b dm) (khs_b dm) (chns_b dm) (inds_b dm) keyp hash
      index (DoubleMap.capacity dm) = Ok (bb, kp, kh, ch, vs) →
    full_arrays (DoubleMap.with_b dm bb kp kh ch vs)).
Proof.
  intros [Ha Hb] hash. destruct (map_impl_put_aos loop _ _ _ _ _ _ keyp hash index Hb) as [E L].
  split; [exact E|]. intros bb kp kh ch vs Ep. split; [done|by apply L].
Qed.

Lemma erase_a_pack dm keyp :
  full_arrays dm → let hash := DoubleMap.hsh_a dm (DoubleMap.d_a dm keyp) in
  let eq := λ p q, DoubleMap.eq_a dm (DoubleMap.d_a dm p) (DoubleMap.d_a dm q) in
  PredMapImpl.map_impl_erase loop (buckets_a (pack dm)) keyp
    (λ p q, eq_a (pack dm) (d_a (pack dm) p) (d_a (pack dm) q))
    (hsh_a (pack dm) (d_a (pack dm) keyp)) (capacity (pack dm)) =
  (λ '(bb, ch, out), (aos bb (kps_a dm) (khs_a dm) ch (inds_a dm), out)) <$>
    map_impl_erase loop (bbs_a dm) (kps_a dm) (khs_a dm) (chns_a dm) keyp eq hash (DoubleMap.capacity dm) ∧
  (∀ bb ch out, map_impl_erase loop (bbs_a dm) (kps_a dm) (khs_a dm) (chns_a dm) keyp eq hash
      (DoubleMap.capacity dm) = Ok (bb, ch, out) →
    full_arrays (DoubleMap.with_a dm bb (kps_a dm) (khs_a dm) ch (inds_a dm))).
Proof.
  intros [Ha Hb] hash eq. destruct (map_impl_erase_aos loop _ eq _ _ _ _ _ keyp hash Ha) as [E L].
  split; [exact E|]. intros bb ch out Ep. split; [by eapply L|done].
Qed.

Lemma erase_b_pack dm keyp :
  full_arrays dm → let hash := DoubleMap.hsh_b dm (DoubleMap.d_b dm keyp) in
  let eq := λ p q, DoubleMap.eq_b dm (DoubleMap.d_b dm p) (DoubleMap.d_b dm q) in
  PredMapImpl.map_impl_erase loop (buckets_b (pack dm)) keyp
    (λ p q, eq_b (pack dm) (d_b (pack dm) p) (d_b (pack dm) q))
    (hsh_b (pack dm) (d_b (pack dm) keyp)) (capacity (pack dm)) =
  (λ '(bb, ch, out), (aos bb (kps_b dm) (khs_b dm) ch (inds_b dm), out)) <$>
    map_impl_erase loop (bbs_b dm) (kps_b dm) (khs_b dm) (chns_b dm) keyp eq hash (DoubleMap.capacity dm) ∧
  (∀ bb ch out, map_impl_erase loop (bbs_b dm) (kps_b dm) (khs_b dm) (chns_b dm) keyp eq hash
      (DoubleMap.capacity dm) = Ok (bb, ch, out) →
    full_arrays (DoubleMap.with_b dm bb (kps_b dm) (khs_b dm) ch (inds_b dm))).
Proof.
  intros [Ha Hb] hash eq. destruct (map_impl_erase_aos loop _ eq _ _ _ _ _ keyp hash Hb) as [E L].
  split; [exact E|]. intros bb ch out Ep. split; [done|by eapply L].
Qed.

Lemma put_pack dm value index :
  full_arrays dm →
  dmap_put (pack dm) value index = (λ '(r, dm), (r, pack dm)) <$> DoubleMap.dmap_put dm value index ∧
  (∀ r dm', DoubleMap.dmap_put dm value index = Ok (r, dm') → full_arrays dm').
Proof.
  intros Hf. unfold dmap_put, DoubleMap.dmap_put. cbn [values vops pack].
  destruct (wr (DoubleMap.values dm) index _) as [vs|]; [|done]. rewrite !bind_Ok. cbv zeta.
  set (dm1 := DoubleMap.with_values dm vs (n_vals dm)).
  change (with_values (pack dm) vs (size_field (pack dm))) with (pack dm1).
  destruct (put_a_pack dm1 (Cell index) index Hf) as [-> La].
  destruct (map_impl_put loop (bbs_a dm1) _ _ _ _ _ _ _ _) as [[[[[bb kp] kh] ch] vs']|]; [|done].
  specialize (La _ _ _ _ _ eq_refl). cbn [fmap res_fmap]. rewrite !bind_Ok. cbv beta iota.
  set (dm2 := DoubleMap.with_a dm1 bb kp kh ch vs') in *.
  change (with_a (pack dm1) (aos bb kp kh ch vs')) with (pack dm2).
  destruct (put_b_pack dm2 (Cell index) index La) as [-> Lb].
  destruct (map_impl_put loop (bbs_b dm2) _ _ _ _ _ _ _ _) as [[[[[bb2 kp2] kh2] ch2] vs2]|]; [|done].
  specialize (Lb _ _ _ _ _ eq_refl). cbn [fmap res_fmap]. rewrite !bind_Ok. cbv beta iota.
  set (dm3 := DoubleMap.with_b dm2 bb2 kp2 kh2 ch2 vs2) in *.
  change (with_b (pack dm2) (aos bb2 kp2 kh2 ch2 vs2)) with (pack dm3).
  change (values (with_values (pack dm3) _ _)) with (DoubleMap.values dm3).
  destruct (rd (DoubleMap.values dm3) index) as [v|]; [|done]. rewrite !bind_Ok.
  match goal with |- (wr ?l index ?x ≫= _) = (_ <$> (wr ?l' index ?y ≫= _)) ∧ _ =>
    change (wr l index x) with (wr l' index y); destruct (wr l' index y) as [vs3|] end; [|done].
  rewrite !bind_Ok. split; [reflexivity|]. by intros ?? [= <- <-].
Qed.

Lemma erase_pack dm index :
  full_arrays dm →
  dmap_erase (pack dm) index = (λ '(r, dm), (r, pack dm)) <$> DoubleMap.dmap_erase dm index ∧
  (∀ r dm', DoubleMap.dmap_erase dm index = Ok (r, dm') → full_arrays dm').
Proof.
  intros Hf. unfold dmap_erase, DoubleMap.dmap_erase. cbn [values pack].
  destruct (rd (DoubleMap.values dm) index) as [v|]; [|done]. rewrite !bind_Ok. cbv zeta.
  change (mk_pdmap _ _ _ _ _ _ _ _ _ _ _) with (pack dm).
  destruct (erase_a_pack dm (Cell index) Hf) as [-> La].
  destruct (map_impl_erase loop (bbs_a dm) _ _ _ _ _ _ _) as [[[bb ch] out]|]; [|done].
  specialize (La _ _ _ eq_refl). cbn [fmap res_fmap]. rewrite !bind_Ok. cbv beta iota.
  set (dm2 := DoubleMap.with_a dm bb (kps_a dm) (khs_a dm) ch (inds_a dm)) in *.
  change (with_a (pack dm) (aos bb (kps_a dm) (khs_a dm) ch (inds_a dm))) with (pack dm2).
  destruct (erase_b_pack dm2 (Cell index) La) as [-> Lb].
  destruct (map_impl_erase loop (bbs_b dm2) _ _ _ _ _ _ _) as [[[bb2 ch2] out2]|]; [|done].
  specialize (Lb _ _ _ eq_refl). cbn [fmap res_fmap]. rewrite !bind_Ok. cbv beta iota.
  set (dm3 := DoubleMap.with_b dm2 bb2 (kps_b dm2) (khs_b dm2) ch2 (inds_b dm2)) in *.
  change (with_b (pack dm2) _) with (pack dm3).
  change (values (pack dm3)) with (DoubleMap.values dm3).
  match goal with |- (wr ?l index ?x ≫= _) = (_ <$> (wr ?l' index ?y ≫= _)) ∧ _ =>
    change (wr l index x) with (wr l' index y); destruct (wr l' index y) as [vs3|] end; [|done].
  rewrite !bind_Ok. split; [reflexivity|]. by intros ?? [= <- <-].
Qed.
End simulation.

(** ** Allocation *)
(** Releasing blocks in the order in which they were requested. *)
Lemma filter_keeps (P : nat → Prop) `{∀ x, Decision (P x)} (l : list nat) :
  (∀ x, x ∈ l → P x) → filter P l = l.
Proof.
  induction l as [|x l IH]; intros HP; [done|]. rewrite filter_cons_True by (apply HP; by left).
  f_equal. apply IH. intros y Hy. apply HP. by right.
Qed.

Lemma filter_drops (P : nat → Prop) `{∀ x, Decision (P x)} (l : list nat) :
  (∀ x, x ∈ l → ¬ P x) → filter P l = [].
Proof.
  induction l as [|x l IH]; intros HP; [done|]. rewrite filter_cons_False by (apply HP; by left).
  apply IH. intros y Hy. apply HP. by right.
Qed.

Lemma frees_filter (bs : list nat) n l :
  NoDup bs → bs ⊆ l → frees bs (mk_heap n l) = Ok (mk_heap n (filter (λ x, x ∉ bs) l)).
Proof.
  revert l. induction bs as [|b bs IH]; intros l Hnd Hsub; cbn [frees].
  { rewrite filter_keeps; [done|]. intros x _. apply not_elem_of_nil. }
  apply NoDup_cons in Hnd as [Hb Hnd]. unfold free. cbn [live next_block].
  rewrite decide_True by (apply Hsub; by left). rewrite bind_Ok, IH; [|done|].
  - f_equal. f_equal. rewrite list_filter_filter. apply list_filter_iff. intros x.
    rewrite not_elem_of_cons. naive_solver.
  - intros x Hx. apply list_elem_of_filter. split; [by intros ->|]. apply Hsub. by right.
Qed.

Lemma frees_reverse (bs : list nat) n l :
  NoDup (bs ++ l) → frees bs (mk_heap n (reverse bs ++ l)) = Ok (mk_heap n l).
Proof.
  intros (Hnd & Hd & _)%NoDup_app. rewrite frees_filter; [|done|].
  - rewrite filter_app, filter_drops, filter_keeps; [done| |].
    + intros x Hx Hb. by apply (Hd x).
    + intros x Hx Hn. apply Hn. by apply elem_of_reverse.
  - intros x Hx. apply elem_of_app. left. by apply elem_of_reverse.
Qed.

Lemma NoDup_app_sub {A} (l1 l2 l3 : list A) : NoDup ((l1 ++ l2) ++ l3) → NoDup (l1 ++ l3).
Proof.
  rewrite !NoDup_app. intros ((H1' & Hd & H2') & Hd' & H3'). split; [done|]. split; [|done].
  intros x Hx. apply Hd'. apply elem_of_app. by left.
Qed.

Lemma NoDup_app_rev {A} (l1 l2 : list A) : NoDup (l1 ++ l2) → NoDup (reverse l1 ++ l2).
Proof. intros Hn. by rewrite reverse_Permutation. Qed.

(** ** Runs *)
Section runs.
Context {V : Type} `{Inhabited V} {K1 : Type} `{Countable K1, Inhabited K1}
  {K2 : Type} `{Countable K2, Inhabited K2}.
Implicit Types (map : DoubleMap K1 K2 V) (dm : DoubleMap.DoubleMap K1 K2 V) (m : dmap K1 K2 V)
  (c : dmap_call K1 K2 V).

Definition exec_pdmap_call map c : res (answer V * DoubleMap K1 K2 V) :=
  match c with
  | DPut v i => '(r, map) ← dmap_put map v i; Ok (AInt r, map)
  | DErase i => '(r, map) ← dmap_erase map i; Ok (AInt r, map)
  | DGetA k => r ← dmap_get_a map (Local k); Ok (AIndex r, map)
  | DGetB k => r ← dmap_get_b map (Local k); Ok (AIndex r, map)
  | DGetValue i => v ← dmap_get_value map i; Ok (AValue v, map)
  | DSize => Ok (AInt (dmap_size map), map)
  end.

Fixpoint exec_pdmap map (cs : list (dmap_call K1 K2 V)) : res (list (answer V) * DoubleMap K1 K2 V) :=
  match cs with
  | [] => Ok ([], map)
  | c :: cs =>
      '(r, map) ← exec_pdmap_call map c;
      '(rs, map) ← exec_pdmap map cs; Ok (r :: rs, map)
  end.

Lemma exec_call_pack dm c :
  full_arrays dm →
  exec_pdmap_call (pack dm) c = (λ '(r, dm), (r, pack dm)) <$> exec_dmap_call dm c ∧
  (∀ r dm', exec_dmap_call dm c = Ok (r, dm') → full_arrays dm').
Proof.
  intros Hf. destruct c as [v i|i|k|k|i|]; cbn [exec_pdmap_call exec_dmap_call].
  - destruct (put_pack dm v i Hf) as [-> L]. destruct (DoubleMap.dmap_put dm v i) as [[r dm']|]; [|done].
    cbn [fmap res_fmap]. rewrite !bind_Ok. split; [done|]. intros ?? [= <- <-]. by eapply L.
  - destruct (erase_pack dm i Hf) as [-> L]. destruct (DoubleMap.dmap_erase dm i) as [[r dm']|]; [|done].
    cbn [fmap res_fmap]. rewrite !bind_Ok. split; [done|]. intros ?? [= <- <-]. by eapply L.
  - rewrite (get_a_pack dm (Local k) Hf). destruct (DoubleMap.dmap_get_a dm _); [|done].
    rewrite !bind_Ok. split; [done|]. by intros ?? [= <- <-].
  - rewrite (get_b_pack dm (Local k) Hf). destruct (DoubleMap.dmap_get_b dm _); [|done].
    rewrite !bind_Ok. split; [done|]. by intros ?? [= <- <-].
  - rewrite get_value_pack. destruct (DoubleMap.dmap_get_value dm i); [|done].
    rewrite !bind_Ok. split; [done|]. by intros ?? [= <- <-].
  - split; [done|]. by intros ?? [= <- <-].
Qed.

(** Every sequence of calls gives what [double-map.c] gives, failures included. *)
Lemma exec_pack cs dm :
  full_arrays dm → exec_pdmap (pack dm) cs = (λ '(rs, dm), (rs, pack dm)) <$> exec_dmap dm cs.
Proof.
  revert dm. induction cs as [|c cs IH]; intros dm Hf; cbn [exec_pdmap exec_dmap]; [done|].
  destruct (exec_call_pack dm c Hf) as [-> L].
  destruct (exec_dmap_call dm c) as [[r dm1]|]; [|done]. cbn [fmap res_fmap]. rewrite !bind_Ok.
  rewrite IH by (by eapply L). destruct (exec_dmap dm1 cs) as [[rs dm2]|]; done.
Qed.

Lemma dmappingp_full ops dm cap m : dmappingp ops dm cap m → full_arrays dm.
Proof.
  intros [idxs Hd]. pose proof (dp_cap _ _ _ _ _ Hd) as E. unfold full_arrays. rewrite E.
  split; [apply (half_tab _ _ _ _ _ _ _ _ _ _ _ (dp_a _ _ _ _ _ Hd))|].
  apply (half_tab _ _ _ _ _ _ _ _ _ _ _ (dp_b _ _ _ _ _ Hd)).
Qed.

Lemma aos_fields {P} `{Inhabited P} (b : list (Bucket P)) :
  b = aos (busybit <$> b) (key <$> b) (hash <$> b) (chain <$> b) (value <$> b).
Proof.
  assert (G : ∀ {A} `{Inhabited A} (f : Bucket P → A) i, 0 <= i < zlen b → getz (f <$> b) i = f (getz b i)).
  { intros A ? f i Hi. unfold getz, zlen in *.
    destruct (lookup_lt_is_Some_2 b (Z.to_nat i)) as [x Hx]; [lia|].
    rewrite (list_lookup_total_correct b _ _ Hx). apply list_lookup_total_correct.
    by rewrite list_lookup_fmap, Hx. }
  apply aos_ext; [unfold zlen; by rewrite length_fmap|].
  intros i Hi. assert (0 <= i < zlen b) by (unfold zlen in *; by rewrite length_fmap in Hi).
  rewrite !G by done. by destruct (getz b i).
Qed.

(** A table of fresh memory is one of [double-map.c]. *)
Lemma init_pack {P} `{Inhabited P} {K} `{Countable K} (hsh : K → Z) (d : P → K) (b : list (Bucket P)) cap :
  0 < cap → zlen b = cap →
  ∃ bb kp kh ch vs, PredMapImpl.map_impl_init b cap = Ok (aos bb kp kh ch vs) ∧
    same_len cap bb kp kh ch vs ∧ mapping cap hsh d bb kp kh ch vs ∅.
Proof.
  intros Hc Hl. rewrite (aos_fields b).
  assert (Hs : same_len cap (busybit <$> b) (key <$> b) (hash <$> b) (chain <$> b) (value <$> b)).
  { unfold same_len, zlen in *. by rewrite !length_fmap. }
  destruct (map_impl_init_loop_aos cap (Z.to_nat cap) _ _ _ _ _ 0 Hs) as [E _].
  destruct (map_impl_init_mapping cap Hc hsh d _ _ _ _ _ Hs) as (bb & ch & E' & Hm).
  unfold map_impl_init in E'. rewrite E' in E. exists bb, (key <$> b), (hash <$> b), ch, (value <$> b).
  split; [exact E|]. split; [apply Hm|done].
Qed.

(** [dmap_allocate] either returns 1 with an empty double map made of four new blocks,
    which stands for an empty one of [double-map.c], or, only if a request fails,
    returns 0, releases what it obtained and leaves [*map_out] as it was, if the size of
    the array of values is an [int]. *)
Theorem pdmap_allocate_no_leak ok junk_vals junk_a junk_b eq_a hsh_a eq_b hsh_b value_size ops cap old h :
  - 2 ^ 31 <= value_size * cap < 2 ^ 31 → heap_wf h → (∃ n, 0 <= n ∧ cap = 2 ^ n) → valops_ok ops →
  zlen (junk_vals cap) = cap → zlen (junk_a cap) = cap → zlen (junk_b cap) = cap →
  (∀ k1 k2, eq_a k1 k2 = true ↔ k1 = k2) → (∀ k1 k2, eq_b k1 k2 = true ↔ k1 = k2) →
  let run := dmap_allocate ok junk_vals junk_a junk_b eq_a hsh_a eq_b hsh_b value_size ops cap old h in
  (∃ dm h' bs, run = Ok ((1, Some (pack dm)), h') ∧ full_arrays dm ∧
     dmappingp ops dm cap (empty_dmap_fp cap) ∧ heap_wf h' ∧ length bs = 4%nat ∧ live h' = bs ++ live h) ∨
  (∃ n, run = Ok ((0, old), mk_heap n (live h)) ∧ ∃ r, ok r = false).
Proof.
  intros Hsize Hwf Hp Hops Hv Ha Hb Heqa Heqb run.
  assert (Hc : 0 < cap) by (destruct Hp as (n & Hn & ->); lia).
  destruct (init_pack hsh_a (deref_key (λ v, (exk ops v).1) (junk_vals cap)) (junk_a cap) cap Hc Ha)
    as (bba & kpa & kha & cha & vsa & Ea & La & Ma).
  destruct (init_pack hsh_b (deref_key (λ v, (exk ops v).2) (junk_vals cap)) (junk_b cap) cap Hc Hb)
    as (bbb & kpb & khb & chb & vsb & Eb & Lb & Mb).
  set (dm := DoubleMap.mk_dmap value_size ops (junk_vals cap) bba kpa kha cha vsa eq_a hsh_a
               bbb kpb khb chb vsb eq_b hsh_b 0 cap).
  assert (Er : run = malloc_or ok [] (0, old) (λ p, malloc_or ok [p] (0, old) (λ v,
    malloc_or ok [p; v] (0, old) (λ a, malloc_or ok [p; v; a] (0, old) (λ b h,
      Ok ((1, Some (pack dm)), h))))) h).
  { unfold run, dmap_allocate. rewrite (int_mul_ok _ _ Hsize), Ea, Eb. reflexivity. }
  rewrite Er. clear Er run Ea Eb. destruct h as [n0 l], Hwf as [Hnd Hb']. cbn [next_block live] in *.
  assert (Hfresh : ∀ x : nat, (n0 <= x)%nat → x ∉ l) by (intros x Hx Hin; specialize (Hb' x Hin); lia).
  assert (Hfail : ∀ bs r0 n1, ok r0 = false → NoDup (bs ++ l) →
    (∃ n2, (h ← frees bs (mk_heap n1 (reverse bs ++ l)); Ok ((0, old), h)) =
       Ok ((0, old) : Z * option (DoubleMap K1 K2 V), mk_heap n2 l) ∧ ∃ r, ok r = false)).
  { intros bs r0 n1 Hc' Hd. rewrite frees_reverse, bind_Ok by done. exists n1. split; [done|by exists r0]. }
  assert (Hnds : NoDup ([n0; S n0; S (S n0); S (S (S n0))] ++ l)).
  { cbn [app]. repeat (apply NoDup_cons; split); [| | | |done]; rewrite ?not_elem_of_cons;
      repeat split; try lia; by apply Hfresh; lia. }
  unfold malloc_or, malloc. cbn [next_block live].
  destruct (ok n0) eqn:E0; cbn [next_block live]; [|right; by apply (Hfail [] n0)].
  destruct (ok (S n0)) eqn:E1; cbn [next_block live]; [|right; apply (Hfail [n0] (S n0)); [done|]].
  2:{ apply (NoDup_app_sub [n0] [S n0; S (S n0); S (S (S n0))] l Hnds). }
  destruct (ok (S (S n0))) eqn:E2; cbn [next_block live]; [|right; apply (Hfail [n0; S n0] (S (S n0))); [done|]].
  2:{ apply (NoDup_app_sub [n0; S n0] [S (S n0); S (S (S n0))] l Hnds). }
  destruct (ok (S (S (S n0)))) eqn:E3; cbn [next_block live];
    [|right; apply (Hfail [n0; S n0; S (S n0)] (S (S (S n0)))); [done|]].
  2:{ apply (NoDup_app_sub [n0; S n0; S (S n0)] [S (S (S n0))] l Hnds). }
  left. exists dm. eexists _, [S (S (S n0)); S (S n0); S n0; n0]. split; [reflexivity|].
  split; [by split|]. split; [|split; [|done]].
  - exists []. split; try done.
    + apply zlen_replicate. lia.
    + constructor.
    + intros i. split; [by intros ?%elem_of_nil|]. unfold dmap_index_used_fp, empty_dmap_fp. cbn [val_arr].
      rewrite zlen_replicate by lia. rewrite !andb_true_iff, Z.leb_le, Z.ltb_lt.
      intros [Hi Hu]. by rewrite getz_replicate in Hu by lia.
    + intros i v Hi. unfold empty_dmap_fp. cbn [val_arr]. by rewrite getz_replicate by lia.
    + split; [done|constructor|done].
    + split; [done|constructor|done].
  - split; cbn [live next_block].
    + apply (NoDup_app_rev [n0; S n0; S (S n0); S (S (S n0))] l Hnds).
    + intros b. rewrite !elem_of_cons. intros [->|[->|[->|[->|Hb1%Hb']]]]; lia.
Qed.
End runs.
End PredDMap.
