(* ===== verification/DMapUsingMap.v ===== *)
(** * The double map of [double-map-using-map.c]

    A second implementation of [double-map.h], made of two maps: any implementation of
    [map.h], which the file is linked with and which is used here only through the
    classes of [MapSpec.v]. The map of the values has a copy of each value in a block of
    its own; the maps of the keys point into these copies. *)

From S2P Require Import Prelude.
From S2P Require Import Malloc.
From S2P Require Import MapSpec.
From S2P Require Import Map.
From S2P Require Import Vector.
From S2P Require Import DoubleMap.
From S2P Require Import PredDoubleMap.
From S2P Require Import Fresh.

Module UsingMap.

(** A pointer to a copy is the number of its block; [None] in [values] is null. *)
Record DoubleMap (M1 M2 K1 K2 V : Type) := mk_dmap {
  first : M1; second : M2; size_field : Z; capacity : Z; value_size : Z;
  values : list (option Z); vops : ValueOps K1 K2 V }.
Arguments mk_dmap {M1 M2 K1 K2 V} _ _ _ _ _ _ _.
Arguments first {M1 M2 K1 K2 V} _.
Arguments second {M1 M2 K1 K2 V} _.
Arguments size_field {M1 M2 K1 K2 V} _.
Arguments capacity {M1 M2 K1 K2 V} _.
Arguments value_size {M1 M2 K1 K2 V} _.
Arguments values {M1 M2 K1 K2 V} _.
Arguments vops {M1 M2 K1 K2 V} _.

(** The copies, in the memory that [malloc] gives out: a block that was released is
    not in [mem]. *)
Abbreviation memory_of := (gmap Z).

(** The key that a pointer points to. *)
Definition deref_key {K V} `{Inhabited V} (key : V → K) (mem : memory_of V) (p : ptr K) : K :=
  match p with Local k => k | Cell b => key (mem !!! b) end.

Section ops.
Context {K1 K2 V M1 M2 : Type} `{Inhabited V} `{!MapOps (ptr K1) K1 M1, !MapOps (ptr K2) K2 M2}.
Variable ok : nat → bool.
Implicit Types (dm : DoubleMap M1 M2 K1 K2 V) (mem : memory_of V) (h : heap) (index : Z).

Definition key_a dm (v : V) : K1 := (exk (vops dm) v).1.
Definition key_b dm (v : V) : K2 := (exk (vops dm) v).2.

(** [sizeof(void* )] *)
Definition SIZEOF_PTR : Z := 8.

(** [allocate1] and [allocate2] are calls of [map_allocate]. The label [fail] releases
    pointers that are not initialised unless all but the last request succeeded. *)
Definition dmap_allocate
    (allocate1 : heap → res ((Z * option (nat * M1)) * heap))
    (allocate2 : heap → res ((Z * option (nat * M2)) * heap))
    (value_size : Z) (ops : ValueOps K1 K2 V) (capacity underlying_capacity : Z)
    (old : option (DoubleMap M1 M2 K1 K2 V)) h
    : res ((Z * option (DoubleMap M1 M2 K1 K2 V)) * heap) :=
  '((r, m1), h) ← allocate1 h;
  match m1 with
  | None => Err OutOfBounds
  | Some (block1, first) =>
      '((r, m2), h) ← allocate2 h;
      match m2 with
      | None => Err OutOfBounds
      | Some (block2, second) =>
          match malloc ok h with
          | (None, _) => Err OutOfBounds
          | (Some values, h) =>
              match malloc ok h with
              | (None, h) => h ← frees [block1; block2; values] h; Ok ((0, old), h)
              | (Some _, h) =>
                  let values := replicate (Z.to_nat (underlying_capacity * value_size / SIZEOF_PTR)) None in
                  Ok ((1, Some (mk_dmap first second 0 capacity value_size values ops)), h)
              end
          end
      end
  end.

Definition dmap_get_a dm mem (key : ptr K1) : res (option Z) :=
  map_get (deref_key (key_a dm) mem) (first dm) key.

Definition dmap_get_b dm mem (key : ptr K2) : res (option Z) :=
  map_get (deref_key (key_b dm) mem) (second dm) key.

(** A use of a copy: fails for null and for a block that was released. *)
Definition ld_value mem (p : option Z) : res (Z * V) :=
  match p with
  | None => Err OutOfBounds
  | Some b => match mem !! b with Some v => Ok (b, v) | None => Err OutOfBounds end
  end.

Definition dmap_get_value dm mem index : res V :=
  p ← rd (values dm) index;
  '(_, v) ← ld_value mem p;
  Ok (cpy (vops dm) v).

Definition dmap_put dm mem h (value : V) index
    : res (Z * DoubleMap M1 M2 K1 K2 V * memory_of V * heap) :=
  match malloc ok h with
  | (None, h) => Ok (0, dm, mem, h)
  | (Some b, h) =>
      let b := Z.of_nat b in
      let mem := <[b := cpy (vops dm) value]> mem in
      vs ← wr (values dm) index (Some b);
      first ← map_put (deref_key (key_a dm) mem) (first dm) (Cell b) index;
      second ← map_put (deref_key (key_b dm) mem) (second dm) (Cell b) index;
      Ok (1, mk_dmap first second (size_field dm + 1) (capacity dm) (value_size dm) vs (vops dm),
          mem, h)
  end.

(** [values[index]] keeps the pointer to the block that is released. *)
Definition dmap_erase dm mem h index : res (Z * DoubleMap M1 M2 K1 K2 V * memory_of V * heap) :=
  p ← rd (values dm) index;
  '(b, value) ← ld_value mem p;
  '(first, trash_a) ← map_erase (deref_key (key_a dm) mem) (first dm) (Cell b);
  '(second, trash_b) ← map_erase (deref_key (key_b dm) mem) (second dm) (Cell b);
  let packed := pk (vops dm) value (deref_key (key_a dm) mem <$> trash_a)
                  (deref_key (key_b dm) mem <$> trash_b) in
  let mem := <[b := packed]> mem in
  h ← free (Z.to_nat b) h;
  Ok (1, mk_dmap first second (size_field dm - 1) (capacity dm) (value_size dm) (values dm) (vops dm),
      delete b mem, h).

Definition dmap_size dm : Z := size_field dm.
End ops.

(** ** Proofs *)

(** *** Counting the values *)
Section count.
Context {V : Type}.
Implicit Types (l : list (option V)) (o : option V).

Definition count l : Z := zlen (nonempty_indexes_fp l 0).
Definition one o : Z := match o with Some _ => 1 | None => 0 end.

Lemma count_shift l s : zlen (nonempty_indexes_fp l s) = count l.
Proof.
  unfold count. generalize 0. revert s. induction l as [|[v|] l IH]; intros s t; cbn; [done| |apply IH].
  rewrite !zlen_cons. by rewrite (IH (s + 1) (t + 1)).
Qed.

Lemma count_cons o l : count (o :: l) = one o + count l.
Proof.
  unfold count at 1. destruct o as [v|]; cbn [nonempty_indexes_fp one].
  - by rewrite zlen_cons, count_shift.
  - by rewrite count_shift.
Qed.

Lemma count_app l1 l2 : count (l1 ++ l2) = count l1 + count l2.
Proof. induction l1 as [|o l1 IH]; [done|]. cbn [app]. rewrite !count_cons, IH. lia. Qed.

Lemma count_le l : 0 <= count l <= zlen l.
Proof.
  induction l as [|o l IH]; [done|]. rewrite count_cons, zlen_cons.
  destruct o; cbn [one]; lia.
Qed.

Lemma count_setz l i o :
  0 <= i < zlen l → count (setz l i o) = count l - one (getz l i) + one o.
Proof.
  intros Hi. unfold setz, getz, zlen in *.
  destruct (lookup_lt_is_Some_2 l (Z.to_nat i)) as [x Hx]; [lia|].
  rewrite (list_lookup_total_correct _ _ _ Hx).
  rewrite <- (take_drop_middle l (Z.to_nat i) x Hx) at 2.
  rewrite insert_take_drop by lia. rewrite !count_app, !count_cons. lia.
Qed.

Lemma count_lt l i : 0 <= i < zlen l → getz l i = None → count l < zlen l.
Proof.
  unfold getz. intros Hi Hn. destruct (lookup_lt_is_Some_2 l (Z.to_nat i)) as [x Hx]; [unfold zlen in Hi; lia|].
  rewrite (list_lookup_total_correct _ _ _ Hx) in Hn. subst x.
  rewrite <- (take_drop_middle l (Z.to_nat i) None Hx), count_app, count_cons, zlen_app, zlen_cons.
  pose proof (count_le (take (Z.to_nat i) l)). pose proof (count_le (drop (S (Z.to_nat i)) l)).
  cbn [one]. lia.
Qed.
End count.

(** *** One of the two maps of keys *)
Lemma alist_get_erase {K} `{EqDecision K} (m : list (K * Z)) k k' :
  NoDup m.*1 → alist_get (map_erase_fp m k) k' = if decide (k = k') then None else alist_get m k'.
Proof.
  induction m as [|[k1 i] m IH]; cbn [map_erase_fp fst]; intros Hnd.
  { by destruct (decide (k = k')). }
  apply NoDup_cons in Hnd as [Hn Hnd]. cbn [fst] in Hn. destruct (decide (k1 = k)) as [->|Hne].
  - destruct (decide (k = k')) as [<-|Hne].
    + unfold alist_get. by rewrite (proj2 (alist_has_false m k)).
    + unfold alist_get. cbn. by rewrite bool_decide_eq_false_2, decide_False by done.
  - specialize (IH Hnd). unfold alist_get in *. cbn. destruct (decide (k1 = k')) as [->|Hne'].
    + rewrite bool_decide_eq_true_2 by done. cbn. by rewrite decide_False by done.
    + by rewrite bool_decide_eq_false_2 by done.
Qed.

Lemma alist_erase_sub {K} `{EqDecision K} (m : list (K * Z)) k e :
  e ∈ (map_erase_fp m k).*1 → e ∈ m.*1.
Proof.
  induction m as [|[k1 i] m IH]; cbn; [done|]. destruct (decide (k1 = k)); [by right|].
  cbn. intros [->|He]%elem_of_cons; [by left|right; by apply IH].
Qed.

Lemma alist_erase_nodup {K} `{EqDecision K} (m : list (K * Z)) k :
  NoDup m.*1 → NoDup (map_erase_fp m k).*1.
Proof.
  induction m as [|[k1 i] m IH]; cbn; [done|]. intros [Hn Hnd]%NoDup_cons.
  destruct (decide (k1 = k)); [done|]. cbn. apply NoDup_cons. split; [|by apply IH].
  intros He. by apply Hn, alist_erase_sub with k.
Qed.

(** The value at an index, and the block with its copy. *)
Definition used {V} (arr : list (option V)) (i : Z) (v : V) : Prop :=
  0 <= i < zlen arr ∧ getz arr i = Some v.

Record stored {V} (arr : list (option V)) (vals : list (option Z)) (mem : memory_of V) : Prop := {
  s_len : zlen arr <= zlen vals;
  s_val : ∀ i v, used arr i v → ∃ b, getz vals i = Some b ∧ mem !! b = Some v;
  s_inj : ∀ i j v w b, used arr i v → used arr j w →
    getz vals i = Some b → getz vals j = Some b → i = j;
  s_live : ∀ b, is_Some (mem !! b) → ∃ i v, used arr i v ∧ getz vals i = Some b
}.

Lemma used_setz {V} (arr : list (option V)) i o j v :
  0 <= i < zlen arr → used (setz arr i o) j v ↔ if decide (i = j) then o = Some v else used arr j v.
Proof.
  intros Hi. unfold used. rewrite zlen_setz. destruct (decide (i = j)) as [->|Hne].
  - rewrite getz_setz_eq by lia. naive_solver.
  - split; intros [Hj E]; (split; [done|]).
    + by rewrite getz_setz_ne in E by lia.
    + by rewrite getz_setz_ne by lia.
Qed.

Section half.
Context {K V M : Type} `{Countable K} `{Inhabited V} `{!MapOps (ptr K) K M, !MapLaws (ptr K) K M}.
Variable key : V → K.
Implicit Types (map : M) (arr : list (option V)) (vals : list (option Z)) (mem : memory_of V)
  (g : gmap K (ptr K * Z)) (al : list (K * Z)).

Record half map ucap arr vals mem al g : Prop := {
  h_map : mapp (deref_key key mem) map ucap g;
  h_key : ∀ k p i, g !! k = Some (p, i) ↔
    ∃ b v, p = Cell b ∧ used arr i v ∧ getz vals i = Some b ∧ mem !! b = Some v ∧ key v = k;
  h_al : ∀ k, alist_get al k = snd <$> g !! k;
  h_nodup : NoDup al.*1;
  h_size : Z.of_nat (size g) = count arr
}.

Lemma um_half_get map ucap arr vals mem al g k :
  half map ucap arr vals mem al g →
  map_get (deref_key key mem) map (Local k) = Ok (alist_get al k).
Proof. intros [Hm _ Ha _ _]. rewrite (map_get_law _ _ _ _ _ Hm), Ha. done. Qed.

Lemma um_half_empty map ucap arr vals :
  (∀ i v, ¬ used arr i v) → count arr = 0 → mapp (deref_key key ∅) map ucap ∅ →
  half map ucap arr vals ∅ [] ∅.
Proof.
  intros Hno Hc Hm. split; [done| |done|constructor|by rewrite Hc].
  intros k p i. rewrite lookup_empty. split; [done|].
  intros (b & v & _ & Hu & _). by destruct (Hno i v).
Qed.

Lemma um_half_put map ucap arr vals mem al g i b v :
  half map ucap arr vals mem al g → stored arr vals mem →
  0 <= i < zlen arr → getz arr i = None → mem !! b = None →
  alist_get al (key v) = None → zlen arr <= ucap →
  ∃ map' g', map_put (deref_key key (<[b := v]> mem)) map (Cell b) i = Ok map' ∧
    half map' ucap (setz arr i (Some v)) (setz vals i (Some b)) (<[b := v]> mem)
      ((key v, i) :: al) g'.
Proof.
  intros [Hm Hk Ha Hnd Hs] [Hl Hv Hinj Hlive] Hi Hnone Hb Hal Hcap.
  assert (Hg : g !! key v = None).
  { specialize (Ha (key v)). rewrite Hal in Ha. by destruct (g !! key v). }
  assert (Hm' : mapp (deref_key key (<[b := v]> mem)) map ucap g).
  { apply (mapp_frame (deref_key key mem)); [|done]. intros k p j Hp.
    apply Hk in Hp as (c & w & -> & _ & _ & Hc & _). cbn. f_equal.
    rewrite lookup_total_insert_ne by congruence. done. }
  destruct (map_put_law _ map ucap g (Cell b) i Hm') as (map' & E & Hm2).
  { cbn. by rewrite lookup_total_insert_eq. }
  { rewrite Hs. pose proof (count_lt arr i Hi Hnone). lia. }
  cbn [deref_key] in Hm2. rewrite lookup_total_insert_eq in Hm2.
  exists map', (<[key v := (Cell b, i)]> g). split; [done|]. split.
  - done.
  - intros k p j. rewrite lookup_insert_Some, Hk. setoid_rewrite (used_setz arr i (Some v) j); [|done].
    split.
    + intros [[<- [= <- <-]]|[Hne (c & w & -> & Hu & Hc & Hcm & Hw)]].
      * exists b, v. rewrite decide_True by done. rewrite getz_setz_eq by lia.
        by rewrite lookup_insert_eq.
      * assert (i ≠ j) as Hij by (intros <-; destruct Hu as [_ Hu]; congruence).
        exists c, w. rewrite decide_False by done. destruct Hu as [Hj Hu].
        rewrite getz_setz_ne by lia. rewrite lookup_insert_ne by congruence. done.
    + intros (c & w & -> & Hu & Hc & Hcm & Hw). destruct (decide (i = j)) as [<-|Hij].
      * rewrite getz_setz_eq in Hc by lia. left. injection Hu as <-. injection Hc as <-. done.
      * right. destruct Hu as [Hj Hu]. rewrite getz_setz_ne in Hc by lia.
        assert (b ≠ c) as Hbc.
        { intros <-. destruct (Hv j w (conj Hj Hu)) as (c' & Hc' & Hm'').
          rewrite Hc in Hc'. injection Hc' as <-. congruence. }
        rewrite lookup_insert_ne in Hcm by done. split.
        { intros Hkw. assert (g !! key v = Some (Cell c, j)) as Hg2; [|congruence].
          apply Hk. exists c, w. rewrite Hw. done. }
        by exists c, w.
  - intros k. unfold alist_get. cbn [map_has_fp map_get_fp fst snd].
    destruct (decide (key v = k)) as [<-|Hne].
    + rewrite bool_decide_eq_true_2 by done. cbn. by rewrite lookup_insert_eq.
    + rewrite bool_decide_eq_false_2 by done. cbn. rewrite lookup_insert_ne by done. apply Ha.
  - cbn. apply NoDup_cons. split; [|done]. apply alist_has_false.
    unfold alist_get in Hal. by destruct (map_has_fp al (key v)).
  - rewrite map_size_insert_None by done. rewrite count_setz by done. rewrite Hnone. cbn [one]. lia.
Qed.

Lemma um_half_erase map ucap arr vals mem al g i b v :
  half map ucap arr vals mem al g → stored arr vals mem → used arr i v → getz vals i = Some b →
  ∃ map' g', map_erase (deref_key key mem) map (Cell b) = Ok (map', Some (Cell b)) ∧
    half map' ucap (setz arr i None) vals (delete b mem) (map_erase_fp al (key v)) g'.
Proof.
  intros [Hm Hk Ha Hnd Hs] [Hl Hv Hinj Hlive] Hu Hb. pose proof Hu as [Hi Hui].
  destruct (Hv i v Hu) as (b' & Hb' & Hbm). rewrite Hb in Hb'. injection Hb' as <-.
  assert (Hg : g !! key v = Some (Cell b, i)) by (apply Hk; by exists b, v).
  destruct (map_erase_law _ map ucap g (Cell b) (Cell b) i Hm) as (map' & E & Hm2).
  { cbn. by rewrite (lookup_total_correct _ _ _ Hbm). }
  cbn [deref_key] in Hm2. rewrite (lookup_total_correct _ _ _ Hbm) in Hm2.
  assert (Hother : ∀ k p j, delete (key v) g !! k = Some (p, j) →
    j ≠ i ∧ ∃ c w, p = Cell c ∧ used arr j w ∧ getz vals j = Some c ∧ mem !! c = Some w ∧
      key w = k ∧ c ≠ b).
  { intros k p j [Hne Hp]%lookup_delete_Some. apply Hk in Hp as (c & w & -> & Huj & Hc & Hcm & <-).
    assert (j ≠ i) as Hji.
    { intros ->. apply Hne. f_equal. destruct Huj as [_ Huj]. congruence. }
    split; [done|]. exists c, w. repeat (split; [done|]). intros ->. apply Hji. by eapply Hinj. }
  exists map', (delete (key v) g). split; [done|]. split.
  - apply (mapp_frame (deref_key key mem)); [|done]. intros k p j Hp.
    apply Hother in Hp as (_ & c & w & -> & _ & _ & Hcm & _ & Hcb). cbn. f_equal.
    by rewrite lookup_total_delete_ne by done.
  - intros k p j. setoid_rewrite (used_setz arr i None j); [|done]. split.
    + intros (Hji & c & w & -> & Huj & Hc & Hcm & Hw & Hcb)%Hother.
      exists c, w. rewrite decide_False by done. by rewrite lookup_delete_ne by done.
    + intros (c & w & -> & Huj & Hc & Hcm & <-). destruct (decide (i = j)) as [|Hij]; [done|].
      apply lookup_delete_Some in Hcm as [Hbc Hcm]. apply lookup_delete_Some.
      assert (Hgw : g !! key w = Some (Cell c, j)) by (apply Hk; by exists c, w).
      split; [|done]. intros Hkk. rewrite <- Hkk, Hg in Hgw. congruence.
  - intros k. rewrite alist_get_erase by done. destruct (decide (key v = k)) as [<-|Hne].
    + by rewrite lookup_delete_eq.
    + rewrite lookup_delete_ne by done. apply Ha.
  - by apply alist_erase_nodup.
  - pose proof (map_size_delete_pos g (key v) _ Hg) as Hsz.
    rewrite count_setz by done. rewrite Hui. cbn [one]. lia.
Qed.
End half.

Section stored.
Context {V : Type} `{Inhabited V}.
Implicit Types (arr : list (option V)) (vals : list (option Z)) (mem : memory_of V).

Lemma stored_put arr vals mem i b v :
  stored arr vals mem → 0 <= i < zlen arr → mem !! b = None →
  getz arr i = None → stored (setz arr i (Some v)) (setz vals i (Some b)) (<[b := v]> mem).
Proof.
  intros [Hl Hv Hinj Hlive] Hi Hb Hn.
  assert (Hother : ∀ j w, used (setz arr i (Some v)) j w →
    (j = i ∧ w = v) ∨ (j ≠ i ∧ used arr j w ∧ getz (setz vals i (Some b)) j = getz vals j ∧
      getz vals j ≠ Some b)).
  { intros j w Hu. apply used_setz in Hu; [|done]. destruct (decide (i = j)) as [<-|Hne].
    - left. by injection Hu as <-.
    - right. pose proof Hu as [Hj _]. split; [done|]. split; [done|].
      rewrite getz_setz_ne by lia. split; [done|]. destruct (Hv j w Hu) as (c & -> & Hc).
      intros [= ->]. congruence. }
  split.
  - by rewrite !zlen_setz.
  - intros j w [[-> ->]|(Hne & Hu & -> & Hb')]%Hother.
    + exists b. rewrite getz_setz_eq by lia. by rewrite lookup_insert_eq.
    + destruct (Hv j w Hu) as (c & Hc & Hcm). exists c. split; [done|].
      rewrite lookup_insert_ne; [done|]. intros <-. done.
  - intros j k w x c Hj Hk Hc1 Hc2.
    destruct (Hother j w Hj) as [[-> ->]|(Hne & Hu & E & Hb')], (Hother k x Hk) as [[-> ->]|(Hne' & Hu' & E' & Hb'')].
    + done.
    + rewrite E' in Hc2. rewrite getz_setz_eq in Hc1 by lia. congruence.
    + rewrite E in Hc1. rewrite getz_setz_eq in Hc2 by lia. congruence.
    + rewrite E in Hc1. rewrite E' in Hc2. by eapply Hinj.
  - intros c Hc. destruct (decide (b = c)) as [<-|Hne].
    + exists i, v. split; [|by rewrite getz_setz_eq by lia]. apply used_setz; [done|].
      by rewrite decide_True.
    + rewrite lookup_insert_ne in Hc by done. destruct (Hlive c Hc) as (j & w & Hu & Hj).
      assert (i ≠ j) by (intros <-; destruct Hu; congruence).
      exists j, w. split; [apply used_setz; [done|]; by rewrite decide_False|].
      destruct Hu as [? _]. by rewrite getz_setz_ne by lia.
Qed.

Lemma stored_erase arr vals mem i b v :
  stored arr vals mem → used arr i v → getz vals i = Some b →
  stored (setz arr i None) vals (delete b mem).
Proof.
  intros [Hl Hv Hinj Hlive] Hu Hb. pose proof Hu as [Hi _].
  assert (Hother : ∀ j w, used (setz arr i None) j w → j ≠ i ∧ used arr j w).
  { intros j w Hj. apply used_setz in Hj; [|done]. by destruct (decide (i = j)). }
  split.
  - by rewrite zlen_setz.
  - intros j w [Hne Hj]%Hother. destruct (Hv j w Hj) as (c & Hc & Hcm). exists c. split; [done|].
    rewrite lookup_delete_ne; [done|]. intros <-. by apply Hne, (Hinj j i w v b).
  - intros j k w x c [_ Hj]%Hother [_ Hk]%Hother. by apply (Hinj j k w x c).
  - intros c [w [Hne Hc]%lookup_delete_Some]. destruct (Hlive c) as (j & x & Hj & Hjc); [by eexists|].
    exists j, x. split; [|done]. apply used_setz; [done|]. rewrite decide_False; [done|].
    intros <-. congruence.
Qed.
End stored.

(** ** Runs, and the abstract double map of [double-map.h] *)
Section runs.
Context {V : Type} `{Inhabited V} {K1 : Type} `{Countable K1} {K2 : Type} `{Countable K2}
  {M1 : Type} `{!MapOps (ptr K1) K1 M1, !MapLaws (ptr K1) K1 M1}
  {M2 : Type} `{!MapOps (ptr K2) K2 M2, !MapLaws (ptr K2) K2 M2}.
Variable ok : nat → bool.
Variable ops : ValueOps K1 K2 V.
Implicit Types (dm : DoubleMap M1 M2 K1 K2 V) (mem : memory_of V) (h : heap) (m : dmap K1 K2 V)
  (c : dmap_call K1 K2 V).

(** The calls of [DoubleMap.v], here. *)
Definition exec_call dm mem h c : res (answer V * DoubleMap M1 M2 K1 K2 V * memory_of V * heap) :=
  match c with
  | DPut v i => '(r, dm, mem, h) ← dmap_put ok dm mem h v i; Ok (AInt r, dm, mem, h)
  | DErase i => '(r, dm, mem, h) ← dmap_erase dm mem h i; Ok (AInt r, dm, mem, h)
  | DGetA k => r ← dmap_get_a dm mem (Local k); Ok (AIndex r, dm, mem, h)
  | DGetB k => r ← dmap_get_b dm mem (Local k); Ok (AIndex r, dm, mem, h)
  | DGetValue i => v ← dmap_get_value dm mem i; Ok (AValue v, dm, mem, h)
  | DSize => Ok (AInt (dmap_size dm), dm, mem, h)
  end.

Fixpoint exec dm mem h (cs : list (dmap_call K1 K2 V))
    : res (list (answer V) * DoubleMap M1 M2 K1 K2 V * memory_of V * heap) :=
  match cs with
  | [] => Ok ([], dm, mem, h)
  | c :: cs =>
      '(r, dm, mem, h) ← exec_call dm mem h c;
      '(rs, dm, mem, h) ← exec dm mem h cs; Ok (r :: rs, dm, mem, h)
  end.

(** The double map stands for [m]; [ucap] is the capacity of the two maps. The blocks
    in use are those of the values of [m]. *)
Record inv dm mem h (cap ucap : Z) m : Prop := {
  iv_ops : vops dm = ops;
  iv_ok : valops_ok ops;
  iv_cap : zlen (val_arr m) = cap;
  iv_ucap : cap <= ucap;
  iv_n : size_field dm = count (val_arr m);
  iv_wf : heap_wf h;
  iv_live : ∀ b, is_Some (mem !! b) → 0 <= b ∧ Z.to_nat b ∈ live h;
  iv_mem : Z.of_nat (size mem) = count (val_arr m);
  iv_stored : stored (val_arr m) (values dm) mem;
  iv_a : ∃ g, half (λ v, (exk ops v).1) (first dm) ucap (val_arr m) (values dm) mem (ma m) g;
  iv_b : ∃ g, half (λ v, (exk ops v).2) (second dm) ucap (val_arr m) (values dm) mem (mb m) g
}.

Lemma um_put_spec dm mem h cap ucap m i v :
  inv dm mem h cap ucap m → ok (next_block h) = true → 0 <= i < cap →
  dmap_index_used_fp m i = false → dmap_has_k1_fp m (exk ops v).1 = false →
  dmap_has_k2_fp m (exk ops v).2 = false →
  ∃ dm' mem' h', dmap_put ok dm mem h v i = Ok (1, dm', mem', h') ∧
    inv dm' mem' h' cap ucap (dmap_put_fp ops m i v).
Proof.
  intros [Hops [Hcpy Hpk] Hcap Hucap Hn Hwf Hlive Hmem Hst [ga Ha] [gb Hb]] Hok Hi Hu Hk1 Hk2.
  unfold dmap_put, malloc. rewrite Hok. rewrite Hops, Hcpy.
  set (b := Z.of_nat (next_block h)). pose proof (s_len _ _ _ Hst) as Hlen.
  assert (Hfresh : mem !! b = None).
  { destruct (mem !! b) eqn:E; [|done]. destruct (Hlive b) as [_ Hin]; [by eexists|].
    destruct Hwf as [_ Hwf]. apply Hwf in Hin. unfold b in Hin. lia. }
  assert (Hnone : getz (val_arr m) i = None).
  { unfold dmap_index_used_fp in Hu. rewrite Hcap in Hu.
    rewrite (proj2 (Z.leb_le 0 i)), (proj2 (Z.ltb_lt i cap)) in Hu by lia.
    by destruct (getz (val_arr m) i). }
  rewrite (wr_ok (values dm)) by lia. rewrite bind_Ok.
  destruct (um_half_put (λ v, (exk ops v).1) (first dm) ucap (val_arr m) (values dm) mem (ma m) ga i b v)
    as (first' & ga' & Ea & Ha'); [done|done|lia|done|done| |lia|].
  { unfold alist_get. unfold dmap_has_k1_fp in Hk1. by rewrite Hk1. }
  destruct (um_half_put (λ v, (exk ops v).2) (second dm) ucap (val_arr m) (values dm) mem (mb m) gb i b v)
    as (second' & gb' & Eb & Hb'); [done|done|lia|done|done| |lia|].
  { unfold alist_get. unfold dmap_has_k2_fp in Hk2. by rewrite Hk2. }
  unfold key_a, key_b. rewrite Hops, Ea, bind_Ok, Eb, bind_Ok.
  eexists _, _, _. split; [done|].
  split; cbn [vops first second size_field capacity value_size values val_arr ma mb dmap_put_fp];
    try done.
  - by rewrite zlen_setz.
  - rewrite count_setz by lia. rewrite Hnone. cbn [one]. lia.
  - by apply heap_wf_malloc.
  - intros c [w [[<- _]|[_ Hc]]%lookup_insert_Some].
    + split; [unfold b; lia|]. cbn. unfold b. rewrite Nat2Z.id. by left.
    + destruct (Hlive c) as [? ?]; [by eexists|]. split; [done|]. cbn. by right.
  - rewrite map_size_insert_None by done. rewrite count_setz by lia. rewrite Hnone. cbn [one]. lia.
  - apply stored_put; [done|lia|done|done].
  - by exists ga'.
  - by exists gb'.
Qed.

Lemma free_block b h :
  heap_wf h → b ∈ live h →
  ∃ h', free b h = Ok h' ∧ heap_wf h' ∧ ∀ x, x ∈ live h → x ≠ b → x ∈ live h'.
Proof.
  intros [Hnd Hb] Hin. unfold free. rewrite decide_True by done. eexists. split; [done|]. split.
  - split; cbn; [by apply NoDup_filter|]. intros c [_ Hc]%list_elem_of_filter. by apply Hb.
  - intros c Hc Hne. cbn. by apply list_elem_of_filter.
Qed.

Lemma um_erase_spec dm mem h cap ucap m i :
  inv dm mem h cap ucap m → dmap_index_used_fp m i = true →
  ∃ dm' mem' h', dmap_erase dm mem h i = Ok (1, dm', mem', h') ∧
    inv dm' mem' h' cap ucap (dmap_erase_fp ops m i).
Proof.
  intros [Hops [Hcpy Hpk] Hcap Hucap Hn Hwf Hlive Hmem Hst [ga Ha] [gb Hb]] Hu.
  assert (∃ v, used (val_arr m) i v) as [v Hv].
  { unfold dmap_index_used_fp in Hu. destruct (getz (val_arr m) i) as [v|] eqn:E;
      [|by rewrite andb_false_r in Hu].
    exists v. split; [|done]. rewrite !andb_true_iff in Hu. lia. }
  pose proof Hv as [Hi Hiv]. destruct (s_val _ _ _ Hst i v Hv) as (b & Hib & Hbm).
  pose proof (s_len _ _ _ Hst). unfold dmap_erase.
  rewrite (rd_ok (values dm)) by lia. rewrite bind_Ok, Hib. cbn [ld_value]. rewrite Hbm, bind_Ok.
  destruct (um_half_erase (λ v, (exk ops v).1) (first dm) ucap (val_arr m) (values dm) mem (ma m) ga i b v)
    as (first' & ga' & Ea & Ha'); [done..|].
  destruct (um_half_erase (λ v, (exk ops v).2) (second dm) ucap (val_arr m) (values dm) mem (mb m) gb i b v)
    as (second' & gb' & Eb & Hb'); [done..|].
  unfold key_a, key_b. rewrite Hops, Ea, bind_Ok, Eb, bind_Ok.
  destruct (Hlive b) as [Hb0 Hbl]; [by eexists|].
  destruct (free_block (Z.to_nat b) h Hwf Hbl) as (h' & Ef & Hwf' & Hlive'). rewrite Ef, bind_Ok.
  rewrite delete_insert_eq.
  eexists _, _, _. split; [done|]. unfold dmap_erase_fp, dmap_get_val_fp. rewrite Hiv.
  assert (Hcount : count (setz (val_arr m) i None) = count (val_arr m) - 1).
  { rewrite count_setz by done. rewrite Hiv. cbn [one]. lia. }
  split; cbn [vops first second size_field capacity value_size values val_arr ma mb]; try done.
  - by rewrite zlen_setz.
  - lia.
  - intros c [w [Hne Hc]%lookup_delete_Some]. destruct (Hlive c) as [? ?]; [by eexists|].
    split; [done|]. apply Hlive'; [done|]. lia.
  - pose proof (map_size_delete_pos mem b _ Hbm). lia.
  - by eapply stored_erase.
  - by exists ga'.
  - by exists gb'.
Qed.

Lemma um_exec_call_spec dm mem h cap ucap m c r m' :
  (∀ n, ok n = true) → inv dm mem h cap ucap m → spec_dmap_call ops cap m c = Some (r, m') →
  ∃ dm' mem' h', exec_call dm mem h c = Ok (r, dm', mem', h') ∧ inv dm' mem' h' cap ucap m'.
Proof.
  intros Hok Hd E. destruct c as [v i|i|k|k|i|]; cbn [exec_call spec_dmap_call] in *.
  - destruct (_ && _) eqn:Ec; [|done]. injection E as <- <-.
    rewrite !andb_true_iff, !negb_true_iff, Z.leb_le, Z.ltb_lt in Ec.
    destruct Ec as [[[Hi Hu] Ha] Hb].
    destruct (um_put_spec dm mem h cap ucap m i v Hd (Hok _) Hi Hu Ha Hb) as (dm' & mem' & h' & -> & Hd').
    by exists dm', mem', h'.
  - destruct (dmap_index_used_fp m i) eqn:Hu; [|done]. injection E as <- <-.
    destruct (um_erase_spec dm mem h cap ucap m i Hd Hu) as (dm' & mem' & h' & -> & Hd').
    by exists dm', mem', h'.
  - injection E as <- <-. destruct (iv_a _ _ _ _ _ _ Hd) as [g Hg]. unfold dmap_get_a, key_a.
    rewrite (iv_ops _ _ _ _ _ _ Hd), (um_half_get _ _ _ _ _ _ _ _ _ Hg), bind_Ok. by exists dm, mem, h.
  - injection E as <- <-. destruct (iv_b _ _ _ _ _ _ Hd) as [g Hg]. unfold dmap_get_b, key_b.
    rewrite (iv_ops _ _ _ _ _ _ Hd), (um_half_get _ _ _ _ _ _ _ _ _ Hg), bind_Ok. by exists dm, mem, h.
  - destruct (_ && _) eqn:Hi; [|done]. rewrite andb_true_iff, Z.leb_le, Z.ltb_lt in Hi.
    destruct (dmap_get_val_fp m i) as [v|] eqn:Hv; [|done]. cbn in E. injection E as <- <-.
    pose proof (iv_stored _ _ _ _ _ _ Hd) as Hst. pose proof (iv_cap _ _ _ _ _ _ Hd) as Hcap.
    destruct (s_val _ _ _ Hst i v) as (b & Hb & Hbm); [by split; [lia|]|].
    pose proof (s_len _ _ _ Hst). unfold dmap_get_value.
    rewrite (rd_ok (values dm)) by lia. rewrite bind_Ok, Hb. cbn [ld_value]. rewrite Hbm, !bind_Ok.
    rewrite (iv_ops _ _ _ _ _ _ Hd), (cpy_ok _ (iv_ok _ _ _ _ _ _ Hd)). by exists dm, mem, h.
  - injection E as <- <-. exists dm, mem, h. split; [|done]. unfold dmap_size.
    by rewrite (iv_n _ _ _ _ _ _ Hd).
Qed.

Lemma exec_spec cs dm mem h cap ucap m rs m' :
  (∀ n, ok n = true) → inv dm mem h cap ucap m → spec_dmap ops cap m cs = Some (rs, m') →
  ∃ dm' mem' h', exec dm mem h cs = Ok (rs, dm', mem', h') ∧ inv dm' mem' h' cap ucap m'.
Proof.
  intros Hok. revert dm mem h m rs. induction cs as [|c cs IH]; intros dm mem h m rs Hd E;
    cbn [spec_dmap exec] in *.
  { injection E as <- <-. by exists dm, mem, h. }
  destruct (spec_dmap_call ops cap m c) as [[r m1]|] eqn:Ec; [|done]. cbn in E.
  destruct (spec_dmap ops cap m1 cs) as [[rs1 m2]|] eqn:Es; [|done]. cbn in E. injection E as <- <-.
  destruct (um_exec_call_spec dm mem h cap ucap m c r m1 Hok Hd Ec) as (dm1 & mem1 & h1 & -> & Hd1).
  rewrite bind_Ok. destruct (IH dm1 mem1 h1 m1 rs1 Hd1 Es) as (dm2 & mem2 & h2 & -> & Hd2).
  rewrite bind_Ok. by exists dm2, mem2, h2.
Qed.

Lemma empty_inv f1 f2 cap ucap vs h :
  valops_ok ops → 0 <= cap <= ucap → heap_wf h →
  (∀ d, mapp d f1 ucap ∅) → (∀ d, mapp d f2 ucap ∅) →
  cap <= ucap * vs / SIZEOF_PTR →
  inv (mk_dmap f1 f2 0 cap vs
         (replicate (Z.to_nat (ucap * vs / SIZEOF_PTR)) None) ops) ∅ h cap ucap (empty_dmap_fp cap).
Proof.
  intros Hops Hcap Hwf Hf Hs Hv.
  assert (Hlen : zlen (replicate (Z.to_nat cap) (@None V)) = cap) by (apply zlen_replicate; lia).
  assert (Hcount : count (replicate (Z.to_nat cap) (@None V)) = 0).
  { clear. induction (Z.to_nat cap) as [|n IH]; [done|]. cbn [replicate]. rewrite count_cons. exact IH. }
  assert (Hno : ∀ i v, ¬ used (replicate (Z.to_nat cap) (@None V)) i v).
  { intros i v [Hi E]. rewrite getz_replicate in E; [done|lia]. }
  split; cbn [vops first second size_field capacity value_size values val_arr ma mb empty_dmap_fp]; try done.
  - lia.
  - intros b [v Hb]. by rewrite lookup_empty in Hb.
  - split.
    + rewrite Hlen. rewrite zlen_replicate; lia.
    + intros i v Hu. by destruct (Hno i v).
    + intros i j v w b Hu. by destruct (Hno i v).
    + intros b [v Hb]. by rewrite lookup_empty in Hb.
  - exists ∅. by apply um_half_empty.
  - exists ∅. by apply um_half_empty.
Qed.

(** The allocation, when every request succeeds. *)
Lemma um_allocate_spec allocate1 allocate2 h b1 f1 h1 b2 f2 h2 vs cap ucap old :
  (∀ n, ok n = true) → valops_ok ops → 0 <= cap <= ucap → cap <= ucap * vs / SIZEOF_PTR →
  allocate1 h = Ok ((1, Some (b1, f1)), h1) → (∀ d, mapp d f1 ucap ∅) →
  allocate2 h1 = Ok ((1, Some (b2, f2)), h2) → (∀ d, mapp d f2 ucap ∅) → heap_wf h2 →
  ∃ dm h', dmap_allocate (M1 := M1) (M2 := M2) ok allocate1 allocate2 vs ops cap ucap old h =
    Ok ((1, Some dm), h') ∧ inv dm ∅ h' cap ucap (empty_dmap_fp cap).
Proof.
  intros Hok Hops Hcap Hv E1 H1' E2 H2' Hwf. unfold dmap_allocate. rewrite E1, bind_Ok, E2, bind_Ok.
  unfold malloc. rewrite !Hok. eexists _, _. split; [done|].
  apply empty_inv; try done. by do 2 apply heap_wf_malloc.
Qed.
End runs.

Section claims.
Context {V : Type} `{Inhabited V} {K1 : Type} `{Countable K1, Inhabited K1}
  {K2 : Type} `{Countable K2, Inhabited K2}
  {M1 : Type} `{!MapOps (ptr K1) K1 M1, !MapLaws (ptr K1) K1 M1}
  {M2 : Type} `{!MapOps (ptr K2) K2 M2, !MapLaws (ptr K2) K2 M2}.
Variable ok : nat → bool.
Variable ops : ValueOps K1 K2 V.

(** C29: The three implementations of the double map agree. From the same state, and in
    particular after allocation, every sequence of calls that respects the contract gets
    the same answers from [double-map.c], from [pred-double-map.c] and from
    [double-map-using-map.c], the last over any two implementations of [map.h], as long as
    the requests for memory succeed; and the copies of values it holds then are those of
    the values in the map, none is lost or used after its release. *)
Theorem double_maps_agree (dm1 : DoubleMap.DoubleMap K1 K2 V) (dm2 : DoubleMap M1 M2 K1 K2 V)
    mem h cap ucap m cs rs m' :
  (∀ n, ok n = true) → dmappingp ops dm1 cap m → inv ops dm2 mem h cap ucap m →
  spec_dmap ops cap m cs = Some (rs, m') →
  ∃ dm1' dm2' mem' h', exec_dmap dm1 cs = Ok (rs, dm1') ∧
    PredDMap.exec_pdmap (PredDMap.pack dm1) cs = Ok (rs, PredDMap.pack dm1') ∧
    exec ok dm2 mem h cs = Ok (rs, dm2', mem', h') ∧
    Z.of_nat (size mem') = dmap_size_fp m' ∧ dmap_size dm2' = dmap_size_fp m'.
Proof.
  intros Hok H1' H2' E.
  assert (∃ dm1', exec_dmap dm1 cs = Ok (rs, dm1')) as [dm1' E1].
  { clear H2'. revert dm1 m rs H1' E. induction cs as [|c cs IH]; intros dm1 m rs H1' E; cbn [spec_dmap exec_dmap] in *.
    { injection E as <- <-. by exists dm1. }
    destruct (spec_dmap_call ops cap m c) as [[r m1]|] eqn:Ec; [|done]. cbn in E.
    destruct (spec_dmap ops cap m1 cs) as [[rs1 m2]|] eqn:Es; [|done]. cbn in E. injection E as <- <-.
    destruct (exec_dmap_call_spec ops cap dm1 m c r m1 H1' Ec) as (dm' & -> & Hd'). rewrite bind_Ok.
    destruct (IH dm' m1 rs1 Hd' Es) as (dm'' & ->). by exists dm''. }
  destruct (exec_spec ok ops cs dm2 mem h cap ucap m rs m' Hok H2' E) as (dm2' & mem' & h' & E2 & Hd).
  exists dm1', dm2', mem', h'. split; [done|]. split.
  { rewrite (PredDMap.exec_pack cs dm1) by by eapply PredDMap.dmappingp_full. by rewrite E1. }
  split; [done|].
  split; [apply (iv_mem _ _ _ _ _ _ _ Hd)|]. apply (iv_n _ _ _ _ _ _ _ Hd).
Qed.

(** [dmap_allocate] releases pointers it never set when a request before the last one
    fails. *)
Theorem using_map_bad_cleanup allocate1 allocate2 (old : option (DoubleMap M1 M2 K1 K2 V)) vs cap ucap h h1 :
  allocate1 h = Ok ((0, None), h1) →
  dmap_allocate (M1 := M1) (M2 := M2) ok allocate1 allocate2 vs ops cap ucap old h = Err OutOfBounds.
Proof. intros E. unfold dmap_allocate. by rewrite E. Qed.
End claims.

(** *** A small instance *)
Definition key_map (cap : Z) : Map (ptr Z) Z := fresh_map cap Z.eqb (λ k, k).

Lemma key_map_ok d : mapp d (key_map 4) 4 ∅.
Proof. apply (fresh_map_ok d 4 Z.eqb (λ k, k) 2); [lia|done|apply Z.eqb_eq]. Qed.

Lemma double_maps_agree_witness :
  let cs := [DPut (10, 20) 1; DGetA 10; DGetB 20; DErase 1; DGetA 10; DPut (10, 30) 1; DGetValue 1; DSize] in
  ∃ dm1 (dm2 : DoubleMap (Map (ptr Z) Z) (Map (ptr Z) Z) Z Z (Z * Z)) h dm1' dm2' mem' h',
    dmap_allocate (λ _, true) (λ h, Ok ((1, Some (0%nat, key_map 4)), h))
      (λ h, Ok ((1, Some (1%nat, key_map 4)), h)) 8 pair_ops 4 4 None (mk_heap 0 []) = Ok ((1, Some dm2), h) ∧
    exec_dmap dm1 cs = Ok ([AInt 1; AIndex (Some 1); AIndex (Some 1); AInt 1; AIndex None; AInt 1;
      AValue (10, 30); AInt 1], dm1') ∧
    PredDMap.exec_pdmap (PredDMap.pack dm1) cs = Ok ([AInt 1; AIndex (Some 1); AIndex (Some 1); AInt 1;
      AIndex None; AInt 1; AValue (10, 30); AInt 1], PredDMap.pack dm1') ∧
    exec (λ _, true) dm2 ∅ h cs = Ok ([AInt 1; AIndex (Some 1); AIndex (Some 1); AInt 1; AIndex None; AInt 1;
      AValue (10, 30); AInt 1], dm2', mem', h') ∧ size mem' = 1%nat.
Proof.
  intros cs.
  destruct (um_allocate_spec (λ _, true) pair_ops (λ h, Ok ((1, Some (0%nat, key_map 4)), h))
    (λ h, Ok ((1, Some (1%nat, key_map 4)), h)) (mk_heap 0 []) 0%nat (key_map 4) (mk_heap 0 []) 1%nat
    (key_map 4) (mk_heap 0 []) 8 4 4 None) as (dm2 & h & Ea & Hd2).
  { done. } { exact pair_ops_ok. } { lia. } { vm_compute. discriminate. } { reflexivity. }
  { exact key_map_ok. } { reflexivity. } { exact key_map_ok. } { exact heap_wf_empty. }
  destruct (double_maps_agree (λ _, true) pair_ops pair_dmap dm2 ∅ h 4 4 (empty_dmap_fp 4) cs
    [AInt 1; AIndex (Some 1); AIndex (Some 1); AInt 1; AIndex None; AInt 1; AValue (10, 30); AInt 1]
    (mk_adt [(10, 1)] [(30, 1)] [None; Some (10, 30); None; None]))
    as (dm1' & dm2' & mem' & h' & E1 & Ep & E2 & Hs & _).
  { done. } { exact pair_dmap_ok. } { exact Hd2. } { reflexivity. }
  exists pair_dmap, dm2, h, dm1', dm2', mem', h'. split; [exact Ea|]. split; [exact E1|].
  split; [exact Ep|]. split; [exact E2|]. apply Nat2Z.inj. exact Hs.
Defined.
End UsingMap.
