(* ===== verification/Expirator.v ===== *)
(** * Expiration

    Models [expire_items_single_map] and [expire_items] of [lib/expirator.c]: as long
    as the oldest index of the chain is too old, free it and erase its key from the
    map, or its value from the double map. The theorems show that the loops end and
    that they remove exactly the entries whose time stamp is before the given
    time. *)

From Stdlib Require Import Sorting.Sorted.
From S2P Require Import Prelude.
From S2P Require Import DChainImpl.
From S2P Require Import DChain.
From S2P Require Import MapSpec.
From S2P Require Import Map.
From S2P Require Import Vector.
From S2P Require Import Coherence.
From S2P Require Import DoubleMap.
From S2P Require Import Fresh.

Section ops.
Context {K : Type} `{Inhabited K} {M : Type} `{!MapOps (ptr K) K M}.
Implicit Types (chain : DoubleChain) (vector : Vector K) (map : M).

(** The [while] loop; [index] and [count] are its variables. [borrow] is
    [vector_borrow] on the vector that was passed and [d] the memory, as the
    map sees it; the call of [vector_return], which does nothing, is left out. *)
Fixpoint expire_loop (fuel : nat) (borrow : Z → res (ptr K)) (d : ptr K → K) chain map
    (index count time : Z) : res (Z * DoubleChain * M) :=
  match fuel with
  | O => Err NoFuel
  | S fuel' =>
      '(ret, chain, index) ← dchain_expire_one_index chain index time;
      if negb (ret =? 0) then
        key ← borrow index;
        '(map, _) ← map_erase d map key;
        expire_loop fuel' borrow d chain map index (count + 1) time
      else Ok (count, chain, map)
  end.

(** Every iteration frees an index, so the number of indexes bounds the loop. *)
Definition expire_items_single_map chain vector map (time : Z) : res (Z * DoubleChain * M) :=
  expire_loop (S (length (timestamps chain))) (vector_borrow vector) (deref vector)
    chain map (-1) 0 time.
End ops.

(** ** The abstract effect on the chain *)
Section alist.
Implicit Types (l : list (Z * Z)) (ch : dchain) (time : Z).

Lemma fold_remove_skip h l (ix : list Z) :
  h.1 ∉ ix → fold_left remove_by_index_fp ix (h :: l) = h :: fold_left remove_by_index_fp ix l.
Proof.
  revert l. induction ix as [|i ix IH]; intros l Hn; [done|]. simpl.
  rewrite (proj2 (Z.eqb_neq h.1 i)) by set_solver. apply IH. set_solver.
Qed.

(** Removing the expired indexes one by one leaves the entries that are not expired. *)
Lemma expire_filter time l :
  NoDup l.*1 → fold_left remove_by_index_fp (get_expired_indexes_fp time l) l =
    List.filter (λ c, negb (is_cell_expired time c)) l.
Proof.
  induction l as [|h l IH]; [done|]. intros [Hn Hnd]%NoDup_cons.
  unfold get_expired_indexes_fp in *. simpl. destruct (is_cell_expired time h); simpl.
  - rewrite Z.eqb_refl. by apply IH.
  - rewrite fold_remove_skip; [by rewrite IH|].
    intros ([i t] & E & Hin)%list_elem_of_fmap. apply Hn, list_elem_of_fmap.
    exists (i, t). split; [done|]. apply list_elem_of_In in Hin.
    apply filter_In in Hin as [Hin _]. by apply list_elem_of_In.
Qed.

(** In a sorted chain, nothing is expired if the oldest entry is not. *)
Lemma sorted_no_expired time l low high :
  bnd_sorted_fp l.*2 low high = true →
  match l with [] => True | h :: _ => time <= h.2 end →
  List.filter (is_cell_expired time) l = [].
Proof.
  rewrite bnd_sorted_spec. intros [Hs _] Hh. destruct l as [|h l]; [done|].
  inversion Hs as [|? ? _ Hf]; subst.
  assert (Hall : Forall (λ c, time <= c.2) (h :: l)).
  { apply Forall_cons. split; [done|]. rewrite Forall_fmap in Hf.
    eapply Forall_impl; [exact Hf|]. simpl. lia. }
  clear Hs Hf Hh. induction (h :: l) as [|c l' IH]; [done|]. apply Forall_cons in Hall as [Hc Hl]. simpl.
  unfold is_cell_expired at 1. rewrite (proj2 (Z.ltb_ge _ _)) by done. by apply IH.
Qed.

(** No entry is newer than the time of the last operation. *)
Lemma chain_time_high ch chain i t :
  double_chainp ch chain → (i, t) ∈ dchain_alist_fp ch → t <= dchain_high_fp ch.
Proof.
  intros Hc Hin. pose proof (dcp_sorted _ _ Hc) as Hs. apply bnd_sorted_spec in Hs as [_ Hs].
  rewrite Forall_fmap, Forall_forall in Hs. specialize (Hs _ Hin). simpl in Hs. lia.
Qed.

(** One step of the expiration loop: the oldest index goes if it is too old, and
    otherwise there is nothing to expire. *)
Lemma expire_one_cases ch chain index time :
  double_chainp ch chain →
  (∃ i chain1, dchain_expire_one_index chain index time = Ok (1, chain1, i) ∧
     i ∈ dchain_indexes_fp ch ∧ double_chainp (dchain_remove_index_fp ch i) chain1 ∧
     (length (dchain_alist_fp (dchain_remove_index_fp ch i)) < length (dchain_alist_fp ch))%nat ∧
     dchain_get_expired_indexes_fp ch time =
       i :: dchain_get_expired_indexes_fp (dchain_remove_index_fp ch i) time ∧
     dchain_expire_old_indexes_fp ch time =
       dchain_expire_old_indexes_fp (dchain_remove_index_fp ch i) time) ∨
  (∃ i, dchain_expire_one_index chain index time = Ok (0, chain, i) ∧
     dchain_get_expired_indexes_fp ch time = [] ∧ dchain_expire_old_indexes_fp ch time = ch).
Proof.
  intros Hc. pose proof (dchain_expire_one_index_spec Hc index time) as Hone.
  pose proof (dcp_sorted _ _ Hc) as Hs. unfold dchain_sorted_fp in Hs.
  unfold dchain_get_expired_indexes_fp, dchain_expire_old_indexes_fp.
  unfold dchain_is_empty_fp, dchain_get_oldest_index_fp, dchain_get_oldest_time_fp in Hone.
  destruct ch as [al range low high]; simpl in *.
  destruct al as [|[i t] al]; simpl in Hone.
  { right. exists index. by rewrite Hone. }
  destruct Hone as [Ha Hone]. destruct (Z.ltb_spec t time) as [Ht|Ht].
  - destruct Hone as (chain1 & -> & Hc1). left. exists i, chain1. simpl.
    assert (E : is_cell_expired time (i, t) = true).
    { unfold is_cell_expired. simpl. by apply Z.ltb_lt. }
    unfold get_expired_indexes_fp. cbn [List.filter remove_by_index_fp fst]. rewrite E, Z.eqb_refl.
    split; [done|]. split; [by apply dchain_allocated_spec in Ha|]. split; [done|].
    split; [lia|]. split; [done|]. rewrite fmap_cons. cbn [fold_left fst remove_by_index_fp].
    by rewrite Z.eqb_refl.
  - right. exists i. rewrite Hone. split; [done|].
    pose proof (sorted_no_expired time ((i, t) :: al) low high Hs Ht) as E.
    unfold get_expired_indexes_fp. by rewrite E.
Qed.
End alist.

Section spec.
Context {K : Type} `{Inhabited K, Countable K} {M : Type}.
Context `{!MapOps (ptr K) K M, !MapLaws (ptr K) K M}.
Implicit Types (chain : DoubleChain) (v : Vector K) (map : M) (ch : dchain).

Lemma expire_loop_spec fuel map v chain ch index count time :
  coherent map v chain ch → (length (dchain_alist_fp ch) < fuel)%nat →
  ∃ chain' map', expire_loop fuel (vector_borrow v) (deref v) chain map index count time =
      Ok (count + zlen (dchain_get_expired_indexes_fp ch time), chain', map') ∧
    coherent map' v chain' (dchain_expire_old_indexes_fp ch time).
Proof.
  revert map chain ch index count. induction fuel as [|fuel IH]; [lia|].
  intros map chain ch index count Hco Hf. cbn [expire_loop].
  destruct (expire_one_cases ch chain index time (co_chain _ _ _ _ Hco))
    as [(i & chain1 & -> & Hi & Hc1 & Hlen & -> & ->)|(i & -> & -> & ->)];
    cbn [mbind res_bind negb Z.eqb].
  - pose proof (co_range Hco i Hi) as Hri. pose proof (co_vec _ _ _ _ Hco) as Hv.
    rewrite vector_borrow_ok by lia. cbn [mbind res_bind].
    destruct (coherent_remove Hco i chain1 Hi Hc1) as (map1 & -> & Hco1). cbn [mbind res_bind].
    destruct (IH map1 chain1 _ i (count + 1) Hco1) as (chain' & map' & -> & Hco'); [lia|].
    exists chain', map'. split; [|done]. do 3 f_equal. rewrite zlen_cons. lia.
  - exists chain, map. by rewrite Z.add_0_r.
Qed.

Lemma expire_items_single_map_spec map v chain ch time :
  coherent map v chain ch →
  ∃ chain' map', expire_items_single_map chain v map time =
      Ok (zlen (dchain_get_expired_indexes_fp ch time), chain', map') ∧
    coherent map' v chain' (dchain_expire_old_indexes_fp ch time).
Proof.
  intros Hco. apply (expire_loop_spec _ _ _ _ _ (-1) 0); [done|].
  pose proof (co_chain _ _ _ _ Hco) as Hc. pose proof (double_chainp_len Hc) as Hl.
  pose proof (dcp_tslen _ _ Hc) as Ht. unfold zlen in *. lia.
Qed.

(** The entries that stay are those used at [time] or later. *)
Lemma table_expire map v chain ch time :
  coherent map v chain ch →
  table_of v (dchain_expire_old_indexes_fp ch time) =
    List.filter (λ e, time <=? e.2) (table_of v ch).
Proof.
  intros Hco. unfold table_of, dchain_expire_old_indexes_fp. simpl.
  rewrite expire_filter by apply (double_chainp_nodup (co_chain _ _ _ _ Hco)).
  induction (dchain_alist_fp ch) as [|[i t] l IH]; [done|].
  rewrite fmap_cons. cbn [List.filter snd]. rewrite <- IH.
  unfold is_cell_expired at 1. cbn [snd]. rewrite <- Z.leb_antisym.
  by destruct (time <=? t).
Qed.

Lemma expire_indexes map v chain ch time i :
  coherent map v chain ch →
  i ∈ dchain_indexes_fp (dchain_expire_old_indexes_fp ch time) → i ∈ dchain_indexes_fp ch.
Proof.
  intros Hco. unfold dchain_indexes_fp, dchain_expire_old_indexes_fp. simpl.
  rewrite expire_filter by apply (double_chainp_nodup (co_chain _ _ _ _ Hco)).
  rewrite !list_elem_of_fmap. intros (e & -> & He). exists e. split; [done|].
  rewrite list_elem_of_In in *. by apply filter_In in He as [? _].
Qed.
End spec.

(** C11: Expiration terminates and is exact: on a flow table whose map, vector and
    chain agree, [expire_items_single_map] returns, removes precisely the entries
    that were last used before [time], returns how many these are, and leaves the
    three containers in agreement. *)
Theorem expire_items_exact {K} `{Inhabited K, Countable K} {M} `{!MapOps (ptr K) K M,
    !MapLaws (ptr K) K M} (map : M) (v : Vector K) chain ch time :
  coherent map v chain ch →
  ∃ chain' map' ch',
    expire_items_single_map chain v map time =
      Ok (zlen (List.filter (λ e, e.2 <? time) (table_of v ch)), chain', map') ∧
    coherent map' v chain' ch' ∧
    table_of v ch' = List.filter (λ e, time <=? e.2) (table_of v ch).
Proof.
  intros Hco. destruct (expire_items_single_map_spec map v chain ch time Hco)
    as (chain' & map' & E & Hco').
  exists chain', map', (dchain_expire_old_indexes_fp ch time). split; [|split; [done|]].
  - rewrite E. do 3 f_equal. unfold dchain_get_expired_indexes_fp, get_expired_indexes_fp, table_of.
    unfold zlen. rewrite length_fmap. f_equal. clear.
    induction (dchain_alist_fp ch) as [|[i t] l IH]; [done|]. rewrite fmap_cons.
    cbn [List.filter]. unfold is_cell_expired at 1. cbn [snd].
    destruct (t <? time); [|exact IH]. cbn [length]. by rewrite IH.
  - by apply (table_expire map v chain).
Qed.

Lemma expire_items_exact_witness :
  ∃ chain' map' ch',
    expire_items_single_map (fresh_chain 4) (fresh_vector 4) (fresh_map 4 Z.eqb (λ k, k)) 10 =
      Ok (zlen (List.filter (λ e, e.2 <? 10)
                  (table_of (fresh_vector (K := Z) 4) (empty_dchain_fp 4 0))), chain', map') ∧
    coherent map' (fresh_vector (K := Z) 4) chain' ch' ∧
    table_of (fresh_vector (K := Z) 4) ch' =
      List.filter (λ e, 10 <=? e.2) (table_of (fresh_vector (K := Z) 4) (empty_dchain_fp 4 0)).
Proof.
  apply (expire_items_exact (fresh_map 4 Z.eqb (λ k, k)) (fresh_vector 4) (fresh_chain 4)).
  apply (fresh_coherent 4 Z.eqb (λ k, k) 2); [lia|done|apply Z.eqb_eq].
Defined.

(** ** [expire_items]: the same over a double map *)
Section dmap.
Context {V : Type} `{Inhabited V} {K1 : Type} `{Countable K1, Inhabited K1}
  {K2 : Type} `{Countable K2, Inhabited K2}.
Implicit Types (chain : DoubleChain) (dm : DoubleMap K1 K2 V) (ch : dchain) (m : dmap K1 K2 V).

Fixpoint expire_items_loop (fuel : nat) chain dm (index count time : Z)
    : res (Z * DoubleChain * DoubleMap K1 K2 V) :=
  match fuel with
  | O => Err NoFuel
  | S fuel' =>
      '(ret, chain, index) ← dchain_expire_one_index chain index time;
      if negb (ret =? 0) then
        '(_, dm) ← dmap_erase dm index;
        expire_items_loop fuel' chain dm index (count + 1) time
      else Ok (count, chain, dm)
  end.

Definition expire_items chain dm (time : Z) : res (Z * DoubleChain * DoubleMap K1 K2 V) :=
  expire_items_loop (S (length (timestamps chain))) chain dm (-1) 0 time.

(** Chain and double map use the same indexes. *)
Record dmap_dchain_coherent ops dm chain cap m ch : Prop := {
  dc_chain : double_chainp ch chain;
  dc_dmap : dmappingp ops dm cap m;
  dc_same : ∀ i, i ∈ dchain_indexes_fp ch ↔ dmap_index_used_fp m i = true
}.

Lemma remove_index_elem ch i j :
  NoDup (dchain_indexes_fp ch) → i ∈ dchain_indexes_fp ch →
  j ∈ dchain_indexes_fp (dchain_remove_index_fp ch i) ↔ j ∈ dchain_indexes_fp ch ∧ j ≠ i.
Proof.
  intros Hnd Hi. unfold dchain_indexes_fp at 1. simpl. rewrite remove_by_index_fst.
  fold (dchain_indexes_fp ch). destruct (list_elem_of_split_l _ _ Hi) as (l1 & l2 & E & Hn).
  rewrite E in *. rewrite remove_fst_split by done.
  rewrite <- Permutation_middle in *. apply NoDup_cons in Hnd as [Hni _].
  rewrite elem_of_cons. naive_solver.
Qed.

Lemma dmap_erase_used ops cap dm m i j :
  dmappingp ops dm cap m → dmap_index_used_fp m i = true →
  dmap_index_used_fp (dmap_erase_fp ops m i) j = (if j =? i then false else dmap_index_used_fp m j).
Proof.
  intros [idxs Hd] Hu. pose proof (dmapp_range _ _ _ _ _ i Hd (proj2 (dp_used _ _ _ _ _ Hd i) Hu)) as Hr.
  unfold dmap_erase_fp, dmap_get_val_fp.
  destruct (getz (val_arr m) i) as [v|] eqn:Ev.
  - pose proof (index_used_update m i None j) as E. rewrite (dp_arr _ _ _ _ _ Hd) in E.
    specialize (E Hr). unfold dmap_index_used_fp in *. exact E.
  - unfold dmap_index_used_fp in Hu. rewrite Ev, andb_false_r in Hu. done.
Qed.

Lemma expire_items_loop_spec ops cap fuel dm m chain ch index count time :
  dmap_dchain_coherent ops dm chain cap m ch → (length (dchain_alist_fp ch) < fuel)%nat →
  ∃ chain' dm', expire_items_loop fuel chain dm index count time =
      Ok (count + zlen (dchain_get_expired_indexes_fp ch time), chain', dm') ∧
    dmap_dchain_coherent ops dm' chain' cap
      (fold_left (dmap_erase_fp ops) (dchain_get_expired_indexes_fp ch time) m)
      (dchain_expire_old_indexes_fp ch time).
Proof.
  revert dm m chain ch index count. induction fuel as [|fuel IH]; [lia|].
  intros dm m chain ch index count [Hc Hd Hsame] Hf. cbn [expire_items_loop].
  destruct (expire_one_cases ch chain index time Hc)
    as [(i & chain1 & -> & Hi & Hc1 & Hlen & -> & ->)|(i & -> & -> & ->)];
    cbn [mbind res_bind negb Z.eqb fold_left].
  - pose proof (proj1 (Hsame i) Hi) as Hu.
    destruct (dmap_erase_spec ops dm cap m i Hd Hu) as (dm1 & -> & Hd1). cbn [mbind res_bind].
    destruct (IH dm1 (dmap_erase_fp ops m i) chain1 (dchain_remove_index_fp ch i) i (count + 1)) as (chain' & dm' & -> & Hco').
    + split; [done|done|]. intros j. rewrite remove_index_elem by (done || apply (double_chainp_nodup Hc)).
      rewrite (dmap_erase_used ops cap dm m i j Hd Hu), Hsame.
      destruct (Z.eqb_spec j i); naive_solver.
    + lia.
    + exists chain', dm'. split; [|done]. do 3 f_equal. rewrite zlen_cons. lia.
  - exists chain, dm. by rewrite Z.add_0_r.
Qed.

(** What the erasures leave: the other values, in their places. *)
Lemma dmap_erase_get ops m i j :
  0 <= i < zlen (val_arr m) → 0 <= j →
  dmap_get_val_fp (dmap_erase_fp ops m i) j = if decide (j = i) then None else dmap_get_val_fp m j.
Proof.
  intros Hi Hj. unfold dmap_erase_fp. destruct (dmap_get_val_fp m i) as [v|] eqn:E.
  - unfold dmap_get_val_fp. cbn [val_arr]. rewrite getz_setz by done.
    by destruct (decide (i = j)) as [->|]; destruct (decide _).
  - by destruct (decide (j = i)) as [->|].
Qed.

Lemma dmap_erase_all_get ops (ix : list Z) m j :
  (∀ i, i ∈ ix → 0 <= i < zlen (val_arr m)) → 0 <= j →
  dmap_get_val_fp (fold_left (dmap_erase_fp ops) ix m) j =
    if decide (j ∈ ix) then None else dmap_get_val_fp m j.
Proof.
  intros Hr0 Hj. revert m Hr0. induction ix as [|i ix IH]; intros m Hr; cbn [fold_left].
  { by rewrite decide_False by apply not_elem_of_nil. }
  assert (Hi : 0 <= i < zlen (val_arr m)) by (apply Hr; left).
  assert (El : zlen (val_arr (dmap_erase_fp ops m i)) = zlen (val_arr m)).
  { unfold dmap_erase_fp. destruct (dmap_get_val_fp m i); [|done]. apply zlen_setz. }
  rewrite IH by (intros k Hk; rewrite El; apply Hr; by right).
  rewrite dmap_erase_get by done.
  pose proof (elem_of_cons ix j i) as Hiff.
  destruct (decide (j ∈ ix)), (decide (j = i)), (decide (j ∈ i :: ix)); naive_solver.
Qed.

Lemma expired_indexes_used ch time i :
  i ∈ dchain_get_expired_indexes_fp ch time → i ∈ dchain_indexes_fp ch.
Proof.
  unfold dchain_get_expired_indexes_fp, get_expired_indexes_fp, dchain_indexes_fp.
  rewrite !list_elem_of_fmap. intros (e & -> & He). exists e. split; [done|].
  rewrite list_elem_of_In in *. by apply filter_In in He as [? _].
Qed.

Lemma expire_items_spec ops dm chain cap m ch time :
  dmap_dchain_coherent ops dm chain cap m ch →
  ∃ chain' dm' m', expire_items chain dm time =
      Ok (zlen (dchain_get_expired_indexes_fp ch time), chain', dm') ∧
    dmap_dchain_coherent ops dm' chain' cap m' (dchain_expire_old_indexes_fp ch time) ∧
    ∀ i, 0 <= i → dmap_get_val_fp m' i =
      if decide (i ∈ dchain_get_expired_indexes_fp ch time) then None else dmap_get_val_fp m i.
Proof.
  intros Hco. pose proof (dc_chain _ _ _ _ _ _ Hco) as Hc.
  destruct (expire_items_loop_spec ops cap (S (length (timestamps chain))) dm m chain ch (-1) 0 time Hco)
    as (chain' & dm' & E & Hco').
  { pose proof (double_chainp_len Hc) as Hl. pose proof (dcp_tslen _ _ Hc) as Ht.
    unfold zlen in *. lia. }
  exists chain', dm'. eexists. split; [exact E|]. split; [exact Hco'|].
  intros i Hi. apply dmap_erase_all_get; [|done]. intros j Hj%expired_indexes_used%(dc_same _ _ _ _ _ _ Hco).
  unfold dmap_index_used_fp in Hj. apply andb_true_iff in Hj as [[? ?]%andb_true_iff _]. lia.
Qed.
End dmap.

(** Expiration of a double map is exact: when chain and double map use the
    same indexes, [expire_items] returns, frees precisely the indexes that were
    last used before [time], returns how many these are, and removes their values
    from the double map; the other values keep their indexes, both data
    structures keep their invariants and use the same indexes again. *)
Theorem expire_items_dmap_exact {V K1 K2} `{Inhabited V, Countable K1, Inhabited K1,
    Countable K2, Inhabited K2} ops (dm : DoubleMap K1 K2 V) chain cap m ch time :
  dmap_dchain_coherent ops dm chain cap m ch →
  ∃ chain' dm' m', expire_items chain dm time =
      Ok (zlen (dchain_get_expired_indexes_fp ch time), chain', dm') ∧
    dmap_dchain_coherent ops dm' chain' cap m' (dchain_expire_old_indexes_fp ch time) ∧
    ∀ i, 0 <= i → dmap_get_val_fp m' i =
      if decide (i ∈ dchain_get_expired_indexes_fp ch time) then None else dmap_get_val_fp m i.
Proof. apply expire_items_spec. Qed.

(** Two pairs, the first used last at time 5 and the second at time 20. *)
Definition pair_chain : res DoubleChain :=
  '(_, chain, _) ← dchain_allocate_new_index (fresh_chain 4) 0 5;
  '(_, chain, _) ← dchain_allocate_new_index chain 0 20; Ok chain.
Definition two_pairs : dmap Z Z (Z * Z) :=
  dmap_put_fp pair_ops (dmap_put_fp pair_ops (empty_dmap_fp 4) 0 (1, 2)) 1 (3, 4).
Definition two_times : dchain := mk_dchain [(0, 5); (1, 20)] 4 0 20.

Lemma pairs_coherent :
  ∃ chain dm, pair_chain = Ok chain ∧ dmap_dchain_coherent pair_ops dm chain 4 two_pairs two_times.
Proof.
  pose proof (fresh_chain_ok 4 ltac:(done)) as H0.
  destruct (dchain_allocate_new_index_spec H0 0 5 ltac:(done)) as (i & c1 & E1 & _ & _ & H1).
  assert (i = 0) as -> by (vm_compute in E1; congruence).
  destruct (dchain_allocate_new_index_spec H1 0 20 ltac:(done)) as (j & c2 & E2 & _ & _ & H2).
  assert (j = 1) as ->.
  { assert (E : dchain_allocate_new_index c1 0 20 = '(_, c, _) ← dchain_allocate_new_index (fresh_chain 4) 0 5;
      dchain_allocate_new_index c 0 20) by by rewrite E1.
    rewrite E2 in E. vm_compute in E. congruence. }
  destruct (dmap_put_spec pair_ops pair_dmap 4 _ 0 (1, 2) pair_dmap_ok) as (d1 & _ & Hd1); [done..|].
  destruct (dmap_put_spec pair_ops d1 4 _ 1 (3, 4) Hd1) as (d2 & _ & Hd2); [done..|].
  exists c2, d2. split; [unfold pair_chain; rewrite E1; cbn [mbind res_bind]; by rewrite E2|].
  split; [exact H2|exact Hd2|]. intros k. split.
  - intros Hk. assert (k ∈ [0; 1]) as Hk' by exact Hk. set_unfold. by destruct Hk' as [->|[->|[]]].
  - unfold dmap_index_used_fp. simpl. rewrite !andb_true_iff, Z.leb_le, Z.ltb_lt.
    change (zlen _) with 4. intros [Hk Hu].
    assert (k = 0 ∨ k = 1 ∨ k = 2 ∨ k = 3) as [->|[->|[->| ->]]] by lia; [left|right; left|done..].
Qed.

Lemma expire_items_dmap_exact_witness :
  ∃ chain dm, pair_chain = Ok chain ∧
  ∃ chain' dm' m', expire_items chain dm 10 = Ok (1, chain', dm') ∧
    dmap_dchain_coherent pair_ops dm' chain' 4 m' (mk_dchain [(1, 20)] 4 0 20) ∧
    dmap_get_val_fp m' 0 = None ∧ dmap_get_val_fp m' 1 = Some (3, 4).
Proof.
  destruct pairs_coherent as (chain & dm & E & Hco). exists chain, dm. split; [exact E|].
  destruct (expire_items_dmap_exact pair_ops dm chain 4 two_pairs two_times 10 Hco)
    as (chain' & dm' & m' & E' & Hco' & Hv).
  exists chain', dm', m'. split; [exact E'|]. split; [exact Hco'|].
  split; [apply (Hv 0)|apply (Hv 1)]; done.
Defined.
