(* ===== verification/Table.v ===== *)
(** * Flow tables with values

    Several network functions keep, next to the map, vector and chain of
    [Coherence.v], a second vector with a value for each index. This file gives
    the list of entries such a table stands for, and what insertion, a use and
    expiration do to it. *)

From S2P Require Import Prelude.
From S2P Require Import DChainImpl.
From S2P Require Import DChain.
From S2P Require Import MapSpec.
From S2P Require Import Vector.
From S2P Require Import Coherence.
From S2P Require Import Expirator.

(** A key, its index, its value and the time of its last use. *)
Definition entry (K V : Type) : Type := K * Z * V * Z.

Section entries.
Context {K V : Type}.
Implicit Types (es : list (entry K V)).

Definition e_key (e : entry K V) : K := e.1.1.1.
Definition e_index (e : entry K V) : Z := e.1.1.2.
Definition e_value (e : entry K V) : V := e.1.2.
Definition e_time (e : entry K V) : Z := e.2.
Definition set_time (now : Z) (e : entry K V) : entry K V := (e.1, now).

Definition unexpired (exp now : Z) es : list (entry K V) :=
  List.filter (λ e, now - exp <=? e_time e) es.

(** Index [i] was used: its entry becomes the youngest. *)
Definition touch (i now : Z) es : list (entry K V) :=
  List.filter (λ e, negb (e_index e =? i)) es ++
  (set_time now <$> List.filter (λ e, e_index e =? i) es).

Lemma elem_of_unexpired exp now es e :
  e ∈ unexpired exp now es ↔ e ∈ es ∧ now - exp <= e_time e.
Proof. unfold unexpired. rewrite !list_elem_of_In, filter_In, Z.leb_le. done. Qed.

Lemma unexpired_nodup {A} (f : entry K V → A) exp now es :
  NoDup (f <$> es) → NoDup (f <$> unexpired exp now es).
Proof.
  induction es as [|e es IH]; [done|]. rewrite fmap_cons. intros [Hn Hnd]%NoDup_cons.
  unfold unexpired in *. cbn [List.filter]. destruct (now - exp <=? e_time e); [|by apply IH].
  rewrite fmap_cons. apply NoDup_cons. split; [|by apply IH].
  intros (e' & E & He')%list_elem_of_fmap. apply Hn, list_elem_of_fmap. exists e'. split; [done|].
  rewrite list_elem_of_In in *. by apply filter_In in He' as [? _].
Qed.

Lemma filter_other i es : i ∉ e_index <$> es → List.filter (λ e, e_index e =? i) es = [].
Proof.
  induction es as [|e es IH]; [done|]. rewrite fmap_cons. intros [Hne Hn]%not_elem_of_cons. simpl.
  rewrite (proj2 (Z.eqb_neq _ _)) by congruence. by apply IH.
Qed.

Lemma filter_keep i es : i ∉ e_index <$> es → List.filter (λ e, negb (e_index e =? i)) es = es.
Proof.
  induction es as [|e es IH]; [done|]. rewrite fmap_cons. intros [Hne Hn]%not_elem_of_cons. simpl.
  rewrite (proj2 (Z.eqb_neq _ _)) by congruence. simpl. by rewrite IH.
Qed.

Lemma touch_split now l1 (e : entry K V) l2 :
  NoDup (e_index <$> l1 ++ e :: l2) →
  touch (e_index e) now (l1 ++ e :: l2) = (l1 ++ l2) ++ [set_time now e].
Proof.
  rewrite fmap_app, fmap_cons. intros Hnd.
  rewrite <- Permutation_middle, <- fmap_app in Hnd. apply NoDup_cons in Hnd as [Hn _].
  rewrite fmap_app in Hn. apply not_elem_of_app in Hn as [H1 H2].
  unfold touch. rewrite !List.filter_app. cbn [List.filter]. rewrite Z.eqb_refl. cbn [negb].
  rewrite (filter_keep _ l1), (filter_keep _ l2), (filter_other _ l1), (filter_other _ l2) by done.
  done.
Qed.

Lemma touch_absent i now es : i ∉ e_index <$> es → touch i now es = es.
Proof. intros Hn. unfold touch. rewrite filter_keep, filter_other by done. apply app_nil_r. Qed.

(** Touching keeps the entries, with their times or [now]. *)
Lemma elem_of_touch i now es e :
  e ∈ touch i now es ↔ (e ∈ es ∧ e_index e ≠ i) ∨ (∃ e0, e0 ∈ es ∧ e_index e0 = i ∧ e = set_time now e0).
Proof.
  unfold touch. rewrite elem_of_app, list_elem_of_fmap.
  rewrite list_elem_of_In, filter_In, negb_true_iff, Z.eqb_neq, <- list_elem_of_In.
  split; (intros [H|(e0 & H1 & H2)]; [by left|right; exists e0]).
  - rewrite list_elem_of_In, filter_In, Z.eqb_eq, <- list_elem_of_In in H2. tauto.
  - rewrite list_elem_of_In, filter_In, Z.eqb_eq, <- list_elem_of_In. tauto.
Qed.
End entries.

Section table.
Context {K : Type} `{Inhabited K, Countable K} {M : Type}.
Context `{!MapOps (ptr K) K M, !MapLaws (ptr K) K M} {V : Type} `{Inhabited V}.
Implicit Types (map : M) (v : Vector K) (vv : Vector V) (chain : DoubleChain) (ch : dchain).

Definition with_value vv (e : K * Z * Z) : entry K V := (e.1.1, e.1.2, getz (data vv) e.1.2, e.2).
Definition entries v vv ch : list (entry K V) := with_value vv <$> table_of v ch.

Lemma entries_keys v vv ch : e_key <$> entries v vv ch = (λ e, e.1.1) <$> table_of v ch.
Proof. unfold entries. by rewrite <- list_fmap_compose. Qed.

Lemma entries_indexes v vv ch : e_index <$> entries v vv ch = dchain_indexes_fp ch.
Proof.
  unfold entries, table_of, dchain_indexes_fp. rewrite <- !list_fmap_compose.
  apply list_fmap_ext. by intros ? [].
Qed.

Lemma entries_len v vv ch : zlen (entries v vv ch) = zlen (dchain_alist_fp ch).
Proof. unfold entries, table_of, zlen. by rewrite !length_fmap. Qed.

Lemma elem_of_entries v vv ch k i x t :
  (k, i, x, t) ∈ entries v vv ch ↔
  (i, t) ∈ dchain_alist_fp ch ∧ k = getz (data v) i ∧ x = getz (data vv) i.
Proof.
  unfold entries, table_of. rewrite list_elem_of_fmap. split.
  - intros (e & E & He). apply list_elem_of_fmap in He as ([j u] & -> & Hj).
    unfold with_value in E. by simplify_eq/=.
  - intros (Hin & -> & ->). exists (getz (data v) i, i, t). split; [done|].
    apply list_elem_of_fmap. by exists (i, t).
Qed.

Lemma entry_index v vv ch k i x t : (k, i, x, t) ∈ entries v vv ch → i ∈ dchain_indexes_fp ch.
Proof. intros (Hin & _)%elem_of_entries. apply list_elem_of_fmap. by exists (i, t). Qed.

Section facts.
Context {map : M} {v : Vector K} {chain : DoubleChain} {ch : dchain}.
Hypothesis Hco : coherent map v chain ch.

Lemma entries_nodup_keys vv : NoDup (e_key <$> entries v vv ch).
Proof. rewrite entries_keys. apply (table_nodup_keys Hco). Qed.

Lemma entries_nodup_indexes vv : NoDup (e_index <$> entries v vv ch).
Proof. rewrite entries_indexes. apply (double_chainp_nodup (co_chain _ _ _ _ Hco)). Qed.

Lemma entry_time vv e : e ∈ entries v vv ch → e_time e <= dchain_high_fp ch.
Proof.
  destruct e as [[[k i] x] t]. intros (Hin & _)%elem_of_entries.
  pose proof (dcp_sorted _ _ (co_chain _ _ _ _ Hco)) as Hs.
  apply bnd_sorted_spec in Hs as [_ Hs]. rewrite Forall_fmap, Forall_forall in Hs.
  specialize (Hs _ Hin). simpl in *. lia.
Qed.

Lemma entries_expire vv time exp now :
  time = now - exp →
  entries v vv (dchain_expire_old_indexes_fp ch time) = unexpired exp now (entries v vv ch).
Proof.
  intros ->. unfold entries, unexpired. rewrite (table_expire _ _ _ _ _ Hco).
  induction (table_of v ch) as [|e l IH]; [done|].
  rewrite fmap_cons. cbn [List.filter]. rewrite <- IH. unfold with_value at 2, e_time.
  cbn [snd]. by destruct (_ <=? e.2).
Qed.

(** What the map answers. *)
Lemma entries_get vv k :
  match index_of v ch k with
  | Some i => ∃ t, (k, i, getz (data vv) i, t) ∈ entries v vv ch
  | None => k ∉ e_key <$> entries v vv ch
  end.
Proof.
  destruct (index_of v ch k) as [i|] eqn:E.
  - apply (index_of_Some Hco) in E as [Hi <-].
    apply list_elem_of_fmap in Hi as ([j t] & -> & Hj). exists t. by apply elem_of_entries.
  - rewrite entries_keys, (table_key Hco), E. by intros [].
Qed.

Lemma entries_touch vv i now :
  i ∈ dchain_indexes_fp ch →
  entries v vv (dchain_rejuvenate_fp ch i now) = touch i now (entries v vv ch).
Proof.
  intros Hi. destruct (table_lookup (v := v) i Hi) as (l1 & t & l2 & E1 & E2).
  pose proof (entries_nodup_indexes vv) as Hnd. unfold entries in *. rewrite E2, E1.
  rewrite E1 in Hnd. rewrite !fmap_app, fmap_cons in *. cbn [fmap list_fmap] in *.
  set (e := with_value vv (getz (data v) i, i, t)) in *.
  change i with (e_index e) at 3. rewrite touch_split; [done|].
  by rewrite fmap_app, fmap_cons.
Qed.

Lemma entries_insert vv k x i now :
  zlen (data vv) = dchain_index_range_fp ch →
  0 <= i < dchain_index_range_fp ch → dchain_allocated_fp ch i = false →
  entries (mk_vector (setz (data v) i k) (elem_size v) (vec_capacity v))
    (mk_vector (setz (data vv) i x) (elem_size vv) (vec_capacity vv))
    (dchain_allocate_fp ch i now) = entries v vv ch ++ [(k, i, x, now)].
Proof.
  intros Hl Hi Ha. unfold entries. rewrite (table_insert Hco) by done. rewrite fmap_app. f_equal.
  - apply list_fmap_ext. intros n [[k' j] t] Hj%list_elem_of_lookup_2. unfold with_value. simpl.
    assert (Hjx : j ∈ dchain_indexes_fp ch).
    { apply (table_index (v := v)). apply list_elem_of_fmap. by exists (k', j, t). }
    pose proof (co_range Hco j Hjx). rewrite getz_setz_ne; [done| |lia|lia].
    intros ->. apply dchain_allocated_spec in Hjx. congruence.
  - unfold with_value. simpl. by rewrite getz_setz_eq by lia.
Qed.
End facts.
End table.
