(* ===== verification/NfUtil.v ===== *)
(** * Packets and the helpers of [lib/nf_util.c]

    A packet buffer is an array of bytes; the headers are structures laid over
    it, so that a header pointer is an offset into the buffer and a field access
    a little-endian load or store. In particular the TCP/UDP header the network
    functions use may overlap the IPv4 header. *)

From S2P Require Import Prelude.

(** [struct rte_mbuf]: the receiving device, the packet length and the data. *)
Record mbuf := mk_mbuf { port : Z; pkt_len : Z; buf : list Z }.

#[global] Instance mbuf_eq_dec : EqDecision mbuf.
Proof. solve_decision. Defined.

(** The device number that asks the main loop to flood the frame ([nf_forward.h]). *)
Definition FLOOD_FRAME : Z := u16 (-1).

(** ** Loads and stores *)
Definition ld8 (b : list Z) (off : Z) : res Z := rd b off.
Definition ld16 (b : list Z) (off : Z) : res Z :=
  x0 ← rd b off; x1 ← rd b (off + 1); Ok (x0 + 256 * x1).
Definition ld32 (b : list Z) (off : Z) : res Z :=
  x0 ← ld16 b off; x1 ← ld16 b (off + 2); Ok (x0 + 65536 * x1).
Definition st16 (b : list Z) (off v : Z) : res (list Z) :=
  b ← wr b off (u8 v); wr b (off + 1) (u8 (v / 256)).
Definition st32 (b : list Z) (off v : Z) : res (list Z) :=
  b ← st16 b off (u16 v); st16 b (off + 2) (u16 (v / 65536)).

(** Ethernet addresses: [struct rte_ether_addr], six bytes. *)
Definition ether_addr : Type := list Z.

Definition ld_addr (b : list Z) (off : Z) : res ether_addr :=
  x0 ← rd b off; x1 ← rd b (off + 1); x2 ← rd b (off + 2);
  x3 ← rd b (off + 3); x4 ← rd b (off + 4); x5 ← rd b (off + 5);
  Ok [x0; x1; x2; x3; x4; x5].

(** Stores the bytes of an ethernet address. *)
Fixpoint st_bytes (b : list Z) (off : Z) (bytes : list Z) : res (list Z) :=
  match bytes with
  | [] => Ok b
  | x :: bytes' => b ← wr b off x; st_bytes b (off + 1) bytes'
  end.

(** ** Layout of the headers *)
Definition ETHER_D_ADDR : Z := 0.
Definition ETHER_S_ADDR : Z := 6.
Definition ETHER_TYPE : Z := 12.
Definition SIZEOF_ETHER_HDR : Z := 14.
Definition IPV4_VERSION_IHL : Z := 0.
Definition IPV4_TOTAL_LENGTH : Z := 2.
Definition IPV4_NEXT_PROTO_ID : Z := 9.
Definition IPV4_HDR_CHECKSUM : Z := 10.
Definition IPV4_SRC_ADDR : Z := 12.
Definition IPV4_DST_ADDR : Z := 16.
Definition SIZEOF_IPV4_HDR : Z := 20.
Definition TCPUDP_SRC_PORT : Z := 0.
Definition TCPUDP_DST_PORT : Z := 2.
Definition TCP_CKSUM : Z := 16.
Definition UDP_DGRAM_CKSUM : Z := 6.
Definition ICMP_CKSUM : Z := 2.

Definition IPPROTO_ICMP : Z := 1.
Definition IPPROTO_TCP : Z := 6.
Definition IPPROTO_UDP : Z := 17.
(** [rte_cpu_to_be_16(RTE_ETHER_TYPE_IPV4)], 0x0800 in network byte order. *)
Definition ETHER_TYPE_IPV4_BE : Z := 8.
Definition ETHER_TYPE_ARP_BE : Z := 1544.

(** ** Header accessors: [None] is the null pointer *)
Definition nf_get_mbuf_ether_header (m : mbuf) : Z := 0.

Definition nf_get_mbuf_ipv4_header (m : mbuf) : res (option Z) :=
  let ether_header := nf_get_mbuf_ether_header m in
  ether_type ← ld16 (buf m) (ether_header + ETHER_TYPE);
  if negb (ether_type =? ETHER_TYPE_IPV4_BE) then Ok None else Ok (Some SIZEOF_ETHER_HDR).

Definition nf_get_mbuf_arp_header (m : mbuf) : res (option Z) :=
  let ether_header := nf_get_mbuf_ether_header m in
  ether_type ← ld16 (buf m) (ether_header + ETHER_TYPE);
  if negb (ether_type =? ETHER_TYPE_ARP_BE) then Ok None else Ok (Some SIZEOF_ETHER_HDR).

(** The bit field [ihl], the low four bits of the first byte. *)
Definition ihl (b : list Z) (header : Z) : res Z :=
  x ← ld8 b (header + IPV4_VERSION_IHL); Ok (Z.land x 15).

Definition nf_get_ipv4_tcpudp_header (b : list Z) (header : Z) : res (option Z) :=
  proto ← ld8 b (header + IPV4_NEXT_PROTO_ID);
  if negb (proto =? IPPROTO_TCP) && negb (proto =? IPPROTO_UDP) then Ok None
  else offset ← ihl b header; Ok (Some (header + offset)).

Definition nf_get_ipv4_icmp_header (b : list Z) (header : Z) : res (option Z) :=
  proto ← ld8 b (header + IPV4_NEXT_PROTO_ID);
  if negb (proto =? IPPROTO_ICMP) then Ok None
  else offset ← ihl b header; Ok (Some (header + offset)).

Section checksum.
(** The checksum functions of DPDK: [rte_ipv4_udptcp_cksum(header, l4)],
    [rte_ipv4_cksum(header)] and [rte_raw_cksum(p, len)] read the buffer. *)
Variable rte_ipv4_udptcp_cksum : list Z → Z → Z → Z.
Variable rte_ipv4_cksum : list Z → Z → Z.
Variable rte_raw_cksum : list Z → Z → Z → Z.

(** [rte_be_to_cpu_16]. *)
Definition be_to_cpu_16 (x : Z) : Z := u8 x * 256 + u8 (x / 256).

Definition nf_set_ipv4_checksum (b : list Z) (header : Z) : res (list Z) :=
  b ← st16 b (header + IPV4_HDR_CHECKSUM) 0;
  proto ← ld8 b (header + IPV4_NEXT_PROTO_ID);
  let l4 := header + SIZEOF_IPV4_HDR in
  b ← (if proto =? IPPROTO_TCP then
         b ← st16 b (l4 + TCP_CKSUM) 0;
         st16 b (l4 + TCP_CKSUM) (rte_ipv4_udptcp_cksum b header l4)
       else if proto =? IPPROTO_UDP then
         b ← st16 b (l4 + UDP_DGRAM_CKSUM) 0;
         st16 b (l4 + UDP_DGRAM_CKSUM) (rte_ipv4_udptcp_cksum b header l4)
       else if proto =? IPPROTO_ICMP then
         b ← st16 b (l4 + ICMP_CKSUM) 0;
         len ← ld16 b (header + IPV4_TOTAL_LENGTH);
         st16 b (l4 + ICMP_CKSUM)
           (u16 (Z.lnot (rte_raw_cksum b l4 (be_to_cpu_16 len - SIZEOF_IPV4_HDR))))
       else Ok b);
  st16 b (header + IPV4_HDR_CHECKSUM) (rte_ipv4_cksum b header).
End checksum.

(** ** Lemmas on loads and stores

    [w16] and [w32] are the values the loads read from a buffer that is long
    enough; the stores replace [n] bytes and leave the others alone. *)
Definition w16 (b : list Z) (off : Z) : Z := getz b off + 256 * getz b (off + 1).
Definition w32 (b : list Z) (off : Z) : Z := w16 b off + 65536 * w16 b (off + 2).

(** The six bytes of an address. *)
Definition addr_at (b : list Z) (off : Z) : ether_addr :=
  [getz b off; getz b (off + 1); getz b (off + 2); getz b (off + 3); getz b (off + 4);
   getz b (off + 5)].

(** [b'] is [b] except for the [n] bytes at [off]. *)
Definition frame (off n : Z) (b b' : list Z) : Prop :=
  zlen b' = zlen b ∧ ∀ i, 0 <= i → ¬ (off <= i < off + n) → getz b' i = getz b i.

Section memory.
Implicit Types (b : list Z) (off n i v : Z).

Lemma ld8_ok b off : 0 <= off < zlen b → ld8 b off = Ok (getz b off).
Proof. apply rd_ok. Qed.

Lemma ld16_ok b off : 0 <= off → off + 2 <= zlen b → ld16 b off = Ok (w16 b off).
Proof. intros. unfold ld16. crun. done. Qed.

Lemma ld32_ok b off : 0 <= off → off + 4 <= zlen b → ld32 b off = Ok (w32 b off).
Proof.
  intros. unfold ld32. rewrite !ld16_ok by lia. done.
Qed.

Lemma ld_addr_ok b off : 0 <= off → off + 6 <= zlen b → ld_addr b off = Ok (addr_at b off).
Proof. intros. unfold ld_addr. crun. done. Qed.

Lemma frame_refl off n b : frame off n b b.
Proof. done. Qed.

Lemma frame_trans off n b1 b2 b3 : frame off n b1 b2 → frame off n b2 b3 → frame off n b1 b3.
Proof.
  intros [L1 F1] [L2 F2]. split; [congruence|]. intros i Hi Hn. rewrite F2, F1; done.
Qed.

Lemma frame_weaken off n off' n' b b' :
  off' <= off → off + n <= off' + n' → frame off n b b' → frame off' n' b b'.
Proof. intros ?? [L F]. split; [done|]. intros i Hi Hn. apply F; lia. Qed.

Lemma frame_w16 off n b b' i :
  frame off n b b' → 0 <= i → i + 2 <= off ∨ off + n <= i → w16 b' i = w16 b i.
Proof. intros [_ F] Hi Hd. unfold w16. rewrite !F by lia. done. Qed.

Lemma frame_w32 off n b b' i :
  frame off n b b' → 0 <= i → i + 4 <= off ∨ off + n <= i → w32 b' i = w32 b i.
Proof. intros Hf Hi Hd. unfold w32. rewrite !(frame_w16 _ _ _ _ _ Hf) by lia. done. Qed.

Lemma st16_ok b off v :
  0 <= off → off + 2 <= zlen b →
  ∃ b', st16 b off v = Ok b' ∧ frame off 2 b b' ∧ w16 b' off = u16 v.
Proof.
  intros Ho Hl. unfold st16. crun. eexists. split; [done|]. split; [split|].
  - bounds.
  - intros i Hi Hn. rewrite !getz_setz_ne by bounds. done.
  - unfold w16. rewrite getz_setz_eq by bounds. rewrite getz_setz_ne, getz_setz_eq by bounds.
    unfold u8, u16. change (2 ^ 16) with (256 * 256).
    rewrite Z.rem_mul_r by lia. done.
Qed.

Lemma u16_bound v : 0 <= u16 v < 65536.
Proof. apply Z.mod_pos_bound. lia. Qed.

Lemma st32_ok b off v :
  0 <= off → off + 4 <= zlen b →
  ∃ b', st32 b off v = Ok b' ∧ frame off 4 b b' ∧ w32 b' off = u32 v.
Proof.
  intros Ho Hl. unfold st32.
  destruct (st16_ok b off (u16 v)) as (b1 & -> & F1 & W1); [lia..|]. cbn [mbind res_bind].
  destruct (st16_ok b1 (off + 2) (u16 (v / 65536))) as (b2 & -> & F2 & W2);
    [lia|rewrite (proj1 F1); lia|].
  exists b2. split; [done|]. split.
  - eapply frame_trans; eapply frame_weaken; [| |exact F1| | |exact F2]; lia.
  - unfold w32. rewrite (frame_w16 _ _ _ _ _ F2), W1, W2 by lia.
    unfold u16, u32. rewrite !Z.mod_mod by lia. change (2 ^ 32) with (2 ^ 16 * 2 ^ 16).
    rewrite Z.rem_mul_r by lia. done.
Qed.

Lemma st_bytes_ok b off bytes :
  0 <= off → off + zlen bytes <= zlen b →
  ∃ b', st_bytes b off bytes = Ok b' ∧ frame off (zlen bytes) b b' ∧
    ∀ i, 0 <= i < zlen bytes → getz b' (off + i) = getz bytes i.
Proof.
  revert b off. induction bytes as [|x bytes IH]; intros b off Ho Hl.
  { exists b. split; [done|]. split; [done|]. intros i Hi. unfold zlen in Hi. simpl in Hi. lia. }
  cbn [st_bytes]. rewrite zlen_cons in *. pose proof (zlen_nonneg bytes). crun.
  destruct (IH (setz b off x) (off + 1)) as (b' & -> & [L F] & G); [lia|bounds|].
  rewrite zlen_setz in L. exists b'. split; [done|]. split; [split; [done|]|].
  - intros i Hi Hn. rewrite F by lia. apply getz_setz_ne; lia.
  - intros i Hi. destruct (decide (i = 0)) as [->|Hne].
    + rewrite F by lia. rewrite Z.add_0_r. by apply getz_setz_eq; lia.
    + replace (off + i) with (off + 1 + (i - 1)) by lia. rewrite G by lia.
      unfold getz. replace (Z.to_nat i) with (S (Z.to_nat (i - 1))) by lia. done.
Qed.
End memory.

(** [agree b b' P]: the buffers have one length and agree on the offsets in [P]. *)
Definition agree (P : Z → Prop) (b b' : list Z) : Prop :=
  zlen b' = zlen b ∧ ∀ i, 0 <= i → P i → getz b' i = getz b i.

Lemma agree_trans P b1 b2 b3 : agree P b1 b2 → agree P b2 b3 → agree P b1 b3.
Proof. intros [L1 A1] [L2 A2]. split; [congruence|]. intros. rewrite A2, A1; done. Qed.

Lemma frame_agree (P : Z → Prop) off n b b' :
  (∀ i, P i → ¬ (off <= i < off + n)) → frame off n b b' → agree P b b'.
Proof. intros HP [L F]. split; [done|]. intros i Hi Hp. by apply F; [|apply HP]. Qed.

Lemma agree_w16 (P : Z → Prop) b b' i :
  agree P b b' → 0 <= i → P i → P (i + 1) → w16 b' i = w16 b i.
Proof. intros [_ A] Hi H0 H1. unfold w16. rewrite !A by (done || lia). done. Qed.

Lemma agree_w32 (P : Z → Prop) b b' i :
  agree P b b' → 0 <= i → P i → P (i + 1) → P (i + 2) → P (i + 3) → w32 b' i = w32 b i.
Proof.
  intros A Hi H0 H1 H2 H3. unfold w32. rewrite !(agree_w16 P b b') by (done || lia ||
    (by replace (i + 2 + 1) with (i + 3) by lia)). done.
Qed.

(** A store somewhere outside [P], as one step of a sequence of stores. *)
Lemma st16_step (P : Z → Prop) b0 b off v :
  0 <= off → off + 2 <= zlen b0 → (∀ i, P i → ¬ (off <= i < off + 2)) → agree P b0 b →
  ∃ b', st16 b off v = Ok b' ∧ agree P b0 b' ∧ w16 b' off = u16 v.
Proof.
  intros Ho Hl HP HA. destruct (st16_ok b off v) as (b' & E & F & W);
    [done|rewrite (proj1 HA); done|].
  exists b'. split; [done|]. split; [|done]. eapply agree_trans; [done|]. by eapply frame_agree.
Qed.

Lemma st_bytes_step (P : Z → Prop) b0 b off bytes :
  0 <= off → off + zlen bytes <= zlen b0 →
  (∀ i, P i → ¬ (off <= i < off + zlen bytes)) → agree P b0 b →
  ∃ b', st_bytes b off bytes = Ok b' ∧ agree P b0 b' ∧ frame off (zlen bytes) b b' ∧
    ∀ i, 0 <= i < zlen bytes → getz b' (off + i) = getz bytes i.
Proof.
  intros Ho Hl HP HA. destruct (st_bytes_ok b off bytes) as (b' & E & F & W);
    [done|rewrite (proj1 HA); done|].
  exists b'. split; [done|]. split; [|done]. eapply agree_trans; [done|]. by eapply frame_agree.
Qed.

(** Setting the checksums keeps everything up to the end of a plain IPv4 header,
    the checksum field apart. *)
Definition not_checksum (header i : Z) : Prop :=
  i < header + IPV4_HDR_CHECKSUM ∨ header + IPV4_SRC_ADDR <= i < header + SIZEOF_IPV4_HDR.

Lemma nf_set_ipv4_checksum_ok c1 c2 c3 b header :
  0 <= header → header + 38 <= zlen b →
  ∃ b', nf_set_ipv4_checksum c1 c2 c3 b header = Ok b' ∧ agree (not_checksum header) b b'.
Proof.
  intros Hh Hl. unfold nf_set_ipv4_checksum.
  unfold IPV4_HDR_CHECKSUM, IPV4_NEXT_PROTO_ID, SIZEOF_IPV4_HDR, TCP_CKSUM, UDP_DGRAM_CKSUM,
    ICMP_CKSUM, IPV4_TOTAL_LENGTH.
  assert (HP : ∀ off, off = header + 10 ∨ header + 20 <= off →
    ∀ i, not_checksum header i → ¬ (off <= i < off + 2)).
  { unfold not_checksum, IPV4_HDR_CHECKSUM, IPV4_SRC_ADDR, SIZEOF_IPV4_HDR. lia. }
  assert (HA : agree (not_checksum header) b b) by done.
  destruct (st16_step (not_checksum header) b b (header + 10) 0) as (b1 & -> & A1 & _); [lia|lia|apply HP; lia|done|].
  cbn [mbind res_bind]. rewrite ld8_ok by (rewrite (proj1 A1); lia). cbn [mbind res_bind].
  assert (Hend : ∀ b2, agree (not_checksum header) b b2 →
    ∃ b', st16 b2 (header + 10) (c2 b2 header) = Ok b' ∧ agree (not_checksum header) b b').
  { intros b2 A2. destruct (st16_step (not_checksum header) b b2 (header + 10) (c2 b2 header)) as (b3 & -> & A3 & _);
      [lia|lia|apply HP; lia|done|]. by exists b3. }
  assert (Hcs : ∀ off (v : list Z → Z), header + 20 <= off → off + 2 <= header + 38 →
    ∃ b2 b3, st16 b1 off 0 = Ok b2 ∧ agree (not_checksum header) b b2 ∧
      st16 b2 off (v b2) = Ok b3 ∧ agree (not_checksum header) b b3).
  { intros off v H1 H2.
    destruct (st16_step (not_checksum header) b b1 off 0) as (b2 & E2 & A2 & _); [lia|lia|apply HP; lia|done|].
    destruct (st16_step (not_checksum header) b b2 off (v b2)) as (b3 & E3 & A3 & _); [lia|lia|apply HP; lia|done|].
    by exists b2, b3. }
  destruct (_ =? IPPROTO_TCP); [|destruct (_ =? IPPROTO_UDP); [|destruct (_ =? IPPROTO_ICMP)]].
  - destruct (Hcs (header + 20 + 16) (λ b, c1 b header (header + 20))) as
      (b2 & b3 & -> & A2 & E3 & A3); [lia|lia|]. cbn [mbind res_bind]. rewrite E3.
    cbn [mbind res_bind]. by apply Hend.
  - destruct (Hcs (header + 20 + 6) (λ b, c1 b header (header + 20))) as
      (b2 & b3 & -> & A2 & E3 & A3); [lia|lia|]. cbn [mbind res_bind]. rewrite E3.
    cbn [mbind res_bind]. by apply Hend.
  - destruct (Hcs (header + 20 + 2) (λ b, u16 (Z.lnot (c3 b (header + 20)
        (be_to_cpu_16 (w16 b (header + 2)) - 20))))) as (b2 & b3 & -> & A2 & E3 & A3); [lia|lia|].
    cbn [mbind res_bind]. rewrite ld16_ok by (rewrite ?(proj1 A2); lia). cbn [mbind res_bind].
    rewrite E3. cbn [mbind res_bind]. by apply Hend.
  - cbn [mbind res_bind]. by apply Hend.
Qed.

(** ** Classification of packets, as all handlers do it *)
(** Where the handler looks for the ports: [ihl] bytes into the IPv4 header. *)
Definition ports_at (b : list Z) : Z := 14 + Z.land (getz b 14) 15.

Definition is_tcpudp (b : list Z) : bool :=
  (w16 b 12 =? ETHER_TYPE_IPV4_BE) && ((getz b 23 =? IPPROTO_TCP) || (getz b 23 =? IPPROTO_UDP)).

Lemma land15_bound x : 0 <= Z.land x 15 < 16.
Proof. change 15 with (Z.ones 4). rewrite Z.land_ones by lia. by apply Z.mod_pos_bound. Qed.

(** The parsing of the headers, as the handler does it. *)
Lemma parse_headers m (A : Type) (no : res A) (yes : Z → Z → res A) :
  52 <= zlen (buf m) →
  (ip ← nf_get_mbuf_ipv4_header m;
   match ip with
   | None => no
   | Some ipv4_header =>
       tcpudp ← nf_get_ipv4_tcpudp_header (buf m) ipv4_header;
       match tcpudp with None => no | Some tcpudp_header => yes ipv4_header tcpudp_header end
   end) = if is_tcpudp (buf m) then yes SIZEOF_ETHER_HDR (ports_at (buf m)) else no.
Proof.
  intros Hl. unfold nf_get_mbuf_ipv4_header, nf_get_mbuf_ether_header, ETHER_TYPE.
  rewrite ld16_ok by lia. cbn [mbind res_bind]. change (0 + 12) with 12. unfold is_tcpudp.
  destruct (w16 (buf m) 12 =? ETHER_TYPE_IPV4_BE); cbn [negb andb mbind res_bind]; [|done].
  unfold nf_get_ipv4_tcpudp_header, IPV4_NEXT_PROTO_ID, SIZEOF_ETHER_HDR, ihl, IPV4_VERSION_IHL.
  rewrite !ld8_ok by lia. cbn [mbind res_bind]. change (14 + 9) with 23. change (14 + 0) with 14.
  unfold ports_at.
  destruct (getz (buf m) 23 =? IPPROTO_TCP), (getz (buf m) 23 =? IPPROTO_UDP); done.
Qed.

(** Buffers of bytes. *)
Definition bytes_ok (b : list Z) : Prop := Forall (λ x, 0 <= x < 256) b.

Lemma bytes_ok_get b i : bytes_ok b → 0 <= i < zlen b → 0 <= getz b i < 256.
Proof.
  intros Hb Hi. unfold bytes_ok in Hb. rewrite Forall_forall in Hb. apply Hb.
  apply getz_elem_of. by exists i.
Qed.

Lemma w16_bound b i : bytes_ok b → 0 <= i → i + 2 <= zlen b → 0 <= w16 b i < 2 ^ 16.
Proof.
  intros Hb Hi Hl. pose proof (bytes_ok_get b i Hb). pose proof (bytes_ok_get b (i + 1) Hb).
  unfold w16. lia.
Qed.

Lemma w32_bound b i : bytes_ok b → 0 <= i → i + 4 <= zlen b → 0 <= w32 b i < 2 ^ 32.
Proof.
  intros Hb Hi Hl. pose proof (w16_bound b i Hb). pose proof (w16_bound b (i + 2) Hb).
  unfold w32. lia.
Qed.

(** ** Where the ports are read

    [nf_get_ipv4_tcpudp_header] adds the header length field to the address of
    the IPv4 header without multiplying it by four ([IPV4_IHL_MULTIPLIER]): for a
    TCP or UDP packet with a plain header (length field 5) it returns the address
    of byte 5 of the IPv4 header, inside the identification field, and not of byte
    20, where the TCP or UDP header starts. *)
Theorem tcpudp_header_inside_ipv4_header b header :
  0 <= header → header + SIZEOF_IPV4_HDR <= zlen b →
  Z.land (getz b header) 15 = 5 →
  getz b (header + IPV4_NEXT_PROTO_ID) = IPPROTO_TCP ∨
    getz b (header + IPV4_NEXT_PROTO_ID) = IPPROTO_UDP →
  nf_get_ipv4_tcpudp_header b header = Ok (Some (header + 5)) ∧
  header + 5 < header + SIZEOF_IPV4_HDR.
Proof.
  unfold SIZEOF_IPV4_HDR, IPV4_NEXT_PROTO_ID. intros Hh Hl H5 Hp.
  unfold nf_get_ipv4_tcpudp_header, ihl, IPV4_VERSION_IHL, IPV4_NEXT_PROTO_ID.
  rewrite !ld8_ok by lia. cbn [mbind res_bind]. rewrite Z.add_0_r, H5.
  split; [|lia]. by destruct Hp as [-> | ->].
Qed.

Lemma tcpudp_header_inside_ipv4_header_witness :
  let b := [69; 0; 0; 40; 0; 1; 0; 0; 64; 6; 0; 0; 10; 0; 0; 1; 10; 0; 0; 2; 0; 80; 1; 187] in
  nf_get_ipv4_tcpudp_header b 0 = Ok (Some (0 + 5)) ∧ 0 + 5 < 0 + SIZEOF_IPV4_HDR.
Proof.
  intros b. apply (tcpudp_header_inside_ipv4_header b 0); [lia|by vm_compute|done|by left].
Defined.
