(* ===== verification/Nat.v ===== *)
(** * VigNAT

    Models [vignat/]: the flow identifiers of [nat-flow.c], the flow manager of
    [nat-flowmanager.c] over the state of [nat-state.c], and the packet handler
    of [nat_forward_vignat.c]. *)

From S2P Require Import Prelude.
From S2P Require Import Malloc.
From S2P Require Import DChainImpl.
From S2P Require Import DChain.
From S2P Require Import MapSpec.
From S2P Require Import Map.
From S2P Require Import Vector.
From S2P Require Import Coherence.
From S2P Require Import Fresh.
From S2P Require Import Expirator.
From S2P Require Import NfUtil.

(** ** Flow identifiers: [nat-flow.h], [nat-flow.c] *)
Record FlowId := mk_flowid {
  src_port : Z; dst_port : Z; src_ip : Z; dst_ip : Z; internal_device : Z; protocol : Z }.

#[global] Instance FlowId_eq_dec : EqDecision FlowId.
Proof. solve_decision. Defined.
#[global] Instance FlowId_inhabited : Inhabited FlowId := populate (mk_flowid 0 0 0 0 0 0).
#[global] Program Instance FlowId_countable : Countable FlowId :=
  inj_countable' (λ f, (src_port f, dst_port f, src_ip f, dst_ip f, internal_device f, protocol f))
    (λ '(a, b, c, d, e, f), mk_flowid a b c d e f) _.
Next Obligation. by intros []. Qed.

Definition FlowId_eq (id1 id2 : FlowId) : bool :=
  (src_port id1 =? src_port id2) && (dst_port id1 =? dst_port id2) &&
  (src_ip id1 =? src_ip id2) && (dst_ip id1 =? dst_ip id2) &&
  (internal_device id1 =? internal_device id2) && (protocol id1 =? protocol id2).

Definition INT_MAX : Z := 2 ^ 31 - 1.

(** [long long] arithmetic, then [%] and a cast to [int]. *)
Definition FlowId_hash (id : FlowId) : Z :=
  let hash := 0 in
  let hash := i64 (hash + src_port id) in
  let hash := i64 (hash * 31) in
  let hash := i64 (hash + dst_port id) in
  let hash := i64 (hash * 31) in
  let hash := i64 (hash + src_ip id) in
  let hash := i64 (hash * 31) in
  let hash := i64 (hash + dst_ip id) in
  let hash := i64 (hash * 31) in
  let hash := i64 (hash + internal_device id) in
  let hash := i64 (hash * 31) in
  let hash := i64 (hash + protocol id) in
  let hash := Z.rem hash INT_MAX in
  i32 hash.

(** ** The flow manager: [nat-state.h], [nat-flowmanager.c] *)
Record State (M : Type) := mk_state {
  fm : M; fv : Vector FlowId; heap : DoubleChain;
  max_flows : Z; start_port : Z; ext_ip : Z; nat_device : Z }.
Arguments mk_state {M} _ _ _ _ _ _ _.
Arguments fm {M} _.
Arguments fv {M} _.
Arguments heap {M} _.
Arguments max_flows {M} _.
Arguments start_port {M} _.
Arguments ext_ip {M} _.
Arguments nat_device {M} _.

Record FlowManager (M : Type) := mk_manager { state : State M; expiration_time : Z }.
Arguments mk_manager {M} _ _.
Arguments state {M} _.
Arguments expiration_time {M} _.

(** ** Configuration: [lib/nat_config.h] *)
Record nat_config := mk_nat_config {
  lan_main_device : Z; wan_device : Z; external_addr : Z;
  device_macs : list (list Z); endpoint_macs : list (list Z); driver_type : Z;
  cfg_start_port : Z; cfg_expiration_time : Z; cfg_max_flows : Z }.

Section ops.
Context {M : Type} `{!MapOps (ptr FlowId) FlowId M}.
Implicit Types (manager : FlowManager M) (id : FlowId).

(** The manager with new containers. *)
Definition upd manager (m : M) (v : Vector FlowId) (h : DoubleChain) : FlowManager M :=
  mk_manager (mk_state m v h (max_flows (state manager)) (start_port (state manager))
                (ext_ip (state manager)) (nat_device (state manager)))
    (expiration_time manager).

(** Returns [true] and [*external_port], or [false] ([None]). *)
Definition flow_manager_allocate_flow manager id (device time : Z)
    : res (option Z * FlowManager M) :=
  let st := state manager in
  '(ret, h, index) ← dchain_allocate_new_index (heap st) 0 time;
  if ret =? 0 then Ok (None, upd manager (fm st) (fv st) h)
  else
    let external_port := u16 (start_port st + index) in
    key ← vector_borrow (fv st) index;
    v ← store (fv st) key id;
    m ← map_put (deref v) (fm st) key index;
    _ ← vector_return v index key;
    Ok (Some external_port, upd manager m v h).

Definition flow_manager_expire manager (time : Z) : res (FlowManager M) :=
  let st := state manager in
  _ ← c_assert (0 <=? time);
  let time_u := u64 time in
  let last_time := i64 (u64 (time_u - expiration_time manager)) in
  '(_, h, m) ← expire_items_single_map (heap st) (fv st) (fm st) last_time;
  Ok (upd manager m (fv st) h).

Definition flow_manager_get_internal manager id (time : Z) : res (option Z * FlowManager M) :=
  let st := state manager in
  r ← map_get (deref (fv st)) (fm st) (Local id);
  match r with
  | None => Ok (None, manager)
  | Some index =>
      let external_port := u16 (index + start_port st) in
      '(_, h) ← dchain_rejuvenate_index (heap st) index time;
      Ok (Some external_port, upd manager (fm st) (fv st) h)
  end.

Definition flow_manager_get_external manager (external_port time : Z)
    : res (option FlowId * FlowManager M) :=
  let st := state manager in
  let index := external_port - start_port st in
  allocated ← dchain_is_index_allocated (heap st) index;
  if allocated =? 0 then Ok (None, manager)
  else
    key ← vector_borrow (fv st) index;
    out_flow ← load (fv st) key;
    _ ← vector_return (fv st) index key;
    '(_, h) ← dchain_rejuvenate_index (heap st) index time;
    Ok (Some out_flow, upd manager (fm st) (fv st) h).

(** ** The packet handler: [nat_forward_vignat.c] *)
Section process.
Variable config : nat_config.
Variable rte_ipv4_udptcp_cksum : list Z → Z → Z → Z.
Variable rte_ipv4_cksum : list Z → Z → Z.
Variable rte_raw_cksum : list Z → Z → Z → Z.

(** The common end of the handler: addresses, checksums, device. *)
Definition nat_emit (m : mbuf) (b : list Z) (ether_header ipv4_header dst_device : Z)
    : res (Z * mbuf) :=
  s_addr ← rd (device_macs config) dst_device;
  b ← st_bytes b (ether_header + ETHER_S_ADDR) s_addr;
  d_addr ← rd (endpoint_macs config) dst_device;
  b ← st_bytes b (ether_header + ETHER_D_ADDR) d_addr;
  b ← nf_set_ipv4_checksum rte_ipv4_udptcp_cksum rte_ipv4_cksum rte_raw_cksum b ipv4_header;
  Ok (dst_device, mk_mbuf (port m) (pkt_len m) b).

(** Returns the device to send to, the packet and the manager. *)
Definition nf_core_process manager (m : mbuf) (now : Z)
    : res (Z * mbuf * FlowManager M) :=
  let in_port := port m in
  manager ← flow_manager_expire manager now;
  let ether_header := nf_get_mbuf_ether_header m in
  ip ← nf_get_mbuf_ipv4_header m;
  match ip with
  | None => Ok (port m, m, manager)
  | Some ipv4_header =>
    tcpudp ← nf_get_ipv4_tcpudp_header (buf m) ipv4_header;
    match tcpudp with
    | None => Ok (port m, m, manager)
    | Some tcpudp_header =>
      if in_port =? wan_device config then
        dst ← ld16 (buf m) (tcpudp_header + TCPUDP_DST_PORT);
        '(r, manager) ← flow_manager_get_external manager dst now;
        match r with
        | Some internal_flow =>
            b ← st32 (buf m) (ipv4_header + IPV4_DST_ADDR) (src_ip internal_flow);
            b ← st16 b (tcpudp_header + TCPUDP_DST_PORT) (src_port internal_flow);
            let dst_device := internal_device internal_flow in
            '(dev, m) ← nat_emit m b ether_header ipv4_header dst_device;
            Ok (dev, m, manager)
        | None => Ok (in_port, m, manager)
        end
      else
        sp ← ld16 (buf m) (tcpudp_header + TCPUDP_SRC_PORT);
        dp ← ld16 (buf m) (tcpudp_header + TCPUDP_DST_PORT);
        sa ← ld32 (buf m) (ipv4_header + IPV4_SRC_ADDR);
        da ← ld32 (buf m) (ipv4_header + IPV4_DST_ADDR);
        proto ← ld8 (buf m) (ipv4_header + IPV4_NEXT_PROTO_ID);
        let id := mk_flowid sp dp sa da in_port proto in
        '(r, manager) ← flow_manager_get_internal manager id now;
        '(r, manager) ← (match r with
                         | Some external_port => Ok (Some external_port, manager)
                         | None => flow_manager_allocate_flow manager id in_port now
                         end);
        match r with
        | Some external_port =>
            b ← st32 (buf m) (ipv4_header + IPV4_SRC_ADDR) (external_addr config);
            b ← st16 b (tcpudp_header + TCPUDP_SRC_PORT) external_port;
            let dst_device := wan_device config in
            '(dev, m) ← nat_emit m b ether_header ipv4_header dst_device;
            Ok (dev, m, manager)
        | None => Ok (in_port, m, manager)
        end
    end
  end.
End process.
End ops.

(** ** Initialisation: [nat-state.c], [flow_manager_allocate] and [nf_core_init] *)
Definition SIZEOF_FLOWID : Z := 16.
Definition FlowId_allocate (obj : FlowId) : FlowId := obj.

Section init.
Variables (ok : nat → bool) (mem : memory FlowId).

(** [allocated_nf_state] is the global of that name; a new state becomes its value. *)
Definition alloc_state (allocated_nf_state : option (State (Map (ptr FlowId) FlowId)))
    (max_flows start_port ext_ip nat_device : Z) (h : Malloc.heap)
    : res (option (State (Map (ptr FlowId) FlowId)) * Malloc.heap) :=
  match allocated_nf_state with
  | Some st => Ok (Some st, h)
  | None =>
      malloc_or ok [] None (λ _,
        or_null (alloc_map ok mem FlowId_eq FlowId_hash max_flows) (λ fm,
        or_null (alloc_vector ok SIZEOF_FLOWID max_flows FlowId_allocate (elems mem max_flows)) (λ fv,
        or_null (alloc_chain ok mem max_flows) (λ heap h,
          Ok (Some (mk_state fm fv heap max_flows start_port ext_ip nat_device), h))))) h
  end.

Definition flow_manager_allocate allocated_nf_state
    (starting_port nat_ip nat_device expiration_time max_flows : Z) (h : Malloc.heap)
    : res (option (FlowManager (Map (ptr FlowId) FlowId)) * Malloc.heap) :=
  malloc_or ok [] None (λ _,
    and_then (alloc_state allocated_nf_state (i32 max_flows) starting_port nat_ip nat_device)
      (λ st h, Ok (Some (mk_manager st expiration_time), h))) h.

Definition nf_core_init allocated_nf_state (config : nat_config) (h : Malloc.heap)
    : res (FlowManager (Map (ptr FlowId) FlowId) * Malloc.heap) :=
  or_exit (flow_manager_allocate allocated_nf_state (cfg_start_port config)
    (external_addr config) (wan_device config) (cfg_expiration_time config)
    (cfg_max_flows config)) h.
End init.

(** ** Abstract specification

    The NAT keeps a list of flows (identifier, index, time of last use), the
    oldest first. A packet is first classified, then handled by one of the rules
    of [nat_step]. *)
Inductive pkt :=
| Other
| External (dport : Z)
| Internal (id : FlowId).

Inductive outcome :=
| Drop
| ToWan (external_port : Z)
| ToLan (flow : FlowId).

Definition classify (config : nat_config) (m : mbuf) : pkt :=
  let b := buf m in
  if is_tcpudp b then
    if port m =? wan_device config then External (w16 b (ports_at b + TCPUDP_DST_PORT))
    else Internal (mk_flowid (w16 b (ports_at b + TCPUDP_SRC_PORT))
                     (w16 b (ports_at b + TCPUDP_DST_PORT)) (w32 b 26) (w32 b 30)
                     (port m) (getz b 23))
  else Other.

Definition entry : Type := FlowId * Z * Z.
Definition keys_of (es : list entry) : list FlowId := (λ e, e.1.1) <$> es.
Definition indexes_of (es : list entry) : list Z := (λ e, e.1.2) <$> es.

Inductive nat_step (cap start now : Z) (es : list entry) : pkt → list entry → outcome → Prop :=
| step_other : nat_step cap start now es Other es Drop
| step_known id i t l1 l2 :
    es = l1 ++ (id, i, t) :: l2 →
    nat_step cap start now es (Internal id) ((l1 ++ l2) ++ [(id, i, now)]) (ToWan (u16 (start + i)))
| step_new id i :
    id ∉ keys_of es → 0 <= i < cap → i ∉ indexes_of es →
    nat_step cap start now es (Internal id) (es ++ [(id, i, now)]) (ToWan (u16 (start + i)))
| step_full id :
    id ∉ keys_of es → zlen es = cap →
    nat_step cap start now es (Internal id) es Drop
| step_reply dport id t l1 l2 :
    es = l1 ++ (id, dport - start, t) :: l2 →
    nat_step cap start now es (External dport) ((l1 ++ l2) ++ [(id, dport - start, now)]) (ToLan id)
| step_unknown dport :
    dport - start ∉ indexes_of es →
    nat_step cap start now es (External dport) es Drop.

(** The flows that are still alive at [now]. *)
Definition unexpired (exp now : Z) (es : list entry) : list entry :=
  List.filter (λ e, now - exp <=? e.2) es.

(** What leaves the machine. The fields are stated for IPv4 headers without
    options, where no two header fields the handler writes overlap. *)
Definition emitted (config : nat_config) (out : outcome) (m : mbuf) (dev : Z) (m' : mbuf) : Prop :=
  match out with
  | Drop => dev = port m ∧ m' = m
  | ToWan p =>
      dev = wan_device config ∧
      (Z.land (getz (buf m) 14) 15 = 5 →
       w32 (buf m') 26 = u32 (external_addr config) ∧ w16 (buf m') 19 = p ∧
       w32 (buf m') 30 = w32 (buf m) 30 ∧ w16 (buf m') 21 = w16 (buf m) 21)
  | ToLan f =>
      dev = internal_device f ∧
      (Z.land (getz (buf m) 14) 15 = 5 →
       w32 (buf m') 30 = u32 (src_ip f) ∧ w16 (buf m') 21 = u16 (src_port f) ∧
       w32 (buf m') 26 = w32 (buf m) 26 ∧ w16 (buf m') 19 = w16 (buf m) 19)
  end.

(** ** Proofs *)
Lemma FlowId_eq_spec id1 id2 : FlowId_eq id1 id2 = true ↔ id1 = id2.
Proof.
  unfold FlowId_eq. rewrite !andb_true_iff, !Z.eqb_eq.
  destruct id1, id2. simpl. naive_solver.
Qed.

Section manager.
Context {M : Type} `{!MapOps (ptr FlowId) FlowId M, !MapLaws (ptr FlowId) FlowId M}.
Implicit Types (manager : FlowManager M) (id : FlowId) (ch : dchain).

(** [n_devices]: the number of devices, whose addresses the configuration holds. *)
Variable n_devices : Z.

Record nat_inv manager ch : Prop := {
  ni_co : coherent (fm (state manager)) (fv (state manager)) (heap (state manager)) ch;
  ni_dev : ∀ i, i ∈ dchain_indexes_fp ch →
    0 <= internal_device (getz (data (fv (state manager))) i) < n_devices;
  ni_exp : 0 <= expiration_time manager < 2 ^ 32
}.

(** The parts of the manager that no packet changes. *)
Definition same_conf manager manager' : Prop :=
  start_port (state manager') = start_port (state manager) ∧
  max_flows (state manager') = max_flows (state manager) ∧
  expiration_time manager' = expiration_time manager.

Definition flows manager ch : list entry := table_of (fv (state manager)) ch.

Lemma nat_expire_spec manager ch time :
  nat_inv manager ch → 0 <= time < 2 ^ 63 →
  ∃ manager', flow_manager_expire manager time = Ok manager' ∧
    nat_inv manager' (dchain_expire_old_indexes_fp ch (time - expiration_time manager)) ∧
    same_conf manager manager' ∧ fv (state manager') = fv (state manager).
Proof.
  intros [Hco Hdev Hexp] Ht. unfold flow_manager_expire.
  rewrite (proj2 (Z.leb_le 0 time)) by lia. cbn [c_assert mbind res_bind].
  rewrite (u64_id time), i64_u64 by lia.
  destruct (expire_items_single_map_spec _ _ _ _ (time - expiration_time manager) Hco)
    as (h & m & -> & Hco'). cbn [mbind res_bind].
  eexists. split; [done|]. split; [|done]. split; [done| |done].
  intros i Hi. apply Hdev. by eapply expire_indexes.
Qed.

Lemma flow_manager_get_internal_spec manager ch id time :
  nat_inv manager ch → dchain_high_fp ch <= time →
  match index_of (fv (state manager)) ch id with
  | None => flow_manager_get_internal manager id time = Ok (None, manager)
  | Some i => ∃ manager',
      flow_manager_get_internal manager id time =
        Ok (Some (u16 (start_port (state manager) + i)), manager') ∧
      nat_inv manager' (dchain_rejuvenate_fp ch i time) ∧
      same_conf manager manager' ∧ fv (state manager') = fv (state manager)
  end.
Proof.
  intros [Hco Hdev Hexp] Ht. unfold flow_manager_get_internal. rewrite (coherent_get Hco).
  cbn [mbind res_bind].
  destruct (index_of (fv (state manager)) ch id) as [i|] eqn:E; [|done].
  apply (index_of_Some Hco) in E as [Hi Hk].
  destruct (coherent_rejuvenate Hco i time Hi Ht) as (h & -> & Hco'). cbn [mbind res_bind].
  eexists. rewrite Z.add_comm. split; [done|]. split; [|done]. split; [done| |done].
  intros j Hj. apply Hdev. by eapply rejuvenate_indexes.
Qed.

Lemma nat_allocate_flow_spec manager ch id device time :
  nat_inv manager ch → dchain_high_fp ch <= time →
  index_of (fv (state manager)) ch id = None → 0 <= internal_device id < n_devices →
  if dchain_out_of_space_fp ch
  then flow_manager_allocate_flow manager id device time = Ok (None, manager)
  else ∃ i manager', flow_manager_allocate_flow manager id device time =
        Ok (Some (u16 (start_port (state manager) + i)), manager') ∧
      0 <= i < dchain_index_range_fp ch ∧ dchain_allocated_fp ch i = false ∧
      nat_inv manager' (dchain_allocate_fp ch i time) ∧ same_conf manager manager' ∧
      flows manager' (dchain_allocate_fp ch i time) = flows manager ch ++ [(id, i, time)].
Proof.
  intros [Hco Hdev Hexp] Ht Hk Hid. unfold flow_manager_allocate_flow.
  pose proof (dchain_allocate_new_index_spec (co_chain _ _ _ _ Hco) 0 time Ht) as Ha.
  destruct (dchain_out_of_space_fp ch).
  - rewrite Ha. simpl. by destruct manager as [[] ?].
  - destruct Ha as (i & h & -> & Hi & Hn & Hc). cbn [mbind res_bind Z.eqb].
    pose proof (co_vec _ _ _ _ Hco) as Hv.
    rewrite vector_borrow_ok by lia. cbn [mbind res_bind]. rewrite store_cell by lia.
    cbn [mbind res_bind].
    destruct (coherent_insert Hco id i time h Hk Hi Hn Hc) as (m & -> & Hco').
    cbn [mbind res_bind]. unfold vector_return. cbn [mbind res_bind].
    exists i. eexists. split; [done|]. split; [done|]. split; [done|].
    split; [|split; [done|by apply (table_insert Hco)]]. split; [done| |done]. simpl.
    intros j. unfold dchain_indexes_fp. simpl. rewrite fmap_app, elem_of_app. intros [Hj|Hj].
    + pose proof (co_range Hco j Hj). destruct (decide (i = j)) as [->|Hne].
      * rewrite getz_setz_eq by lia. done.
      * rewrite getz_setz_ne by lia. by apply Hdev.
    + apply list_elem_of_singleton in Hj as ->. simpl. rewrite getz_setz_eq by lia. done.
Qed.

Lemma flow_manager_get_external_spec manager ch external_port time :
  nat_inv manager ch → dchain_high_fp ch <= time →
  let i := external_port - start_port (state manager) in
  0 <= i < dchain_index_range_fp ch →
  if dchain_allocated_fp ch i
  then ∃ manager', flow_manager_get_external manager external_port time =
        Ok (Some (getz (data (fv (state manager))) i), manager') ∧
      nat_inv manager' (dchain_rejuvenate_fp ch i time) ∧
      same_conf manager manager' ∧ fv (state manager') = fv (state manager)
  else flow_manager_get_external manager external_port time = Ok (None, manager).
Proof.
  intros [Hco Hdev Hexp] Ht i Hi. unfold flow_manager_get_external. fold i.
  rewrite (dchain_is_index_allocated_spec (co_chain _ _ _ _ Hco)) by done.
  cbn [mbind res_bind]. destruct (dchain_allocated_fp ch i) eqn:Ha; [|done].
  apply dchain_allocated_spec in Ha. cbn [Z.b2z Z.eqb].
  pose proof (co_vec _ _ _ _ Hco) as Hv.
  rewrite vector_borrow_ok by lia. cbn [mbind res_bind]. rewrite load_cell by lia.
  cbn [mbind res_bind]. unfold vector_return. cbn [mbind res_bind].
  destruct (coherent_rejuvenate Hco i time Ha Ht) as (h & -> & Hco'). cbn [mbind res_bind].
  eexists. split; [done|]. split; [|done]. split; [done| |done].
  intros j Hj. apply Hdev. by eapply rejuvenate_indexes.
Qed.
End manager.

(** A flow that is used stays in the table. *)
Lemma nat_step_keeps cap start now es p es' out id i t :
  nat_step cap start now es p es' out → (id, i, t) ∈ es → t <= now →
  ∃ t', t <= t' ∧ (id, i, t') ∈ es'.
Proof.
  assert (Htouch : ∀ k j u l1 l2, (id, i, t) ∈ l1 ++ (k, j, u) :: l2 → t <= now →
    ∃ t', t <= t' ∧ (id, i, t') ∈ (l1 ++ l2) ++ [(k, j, now)]).
  { intros k j u l1 l2 Hin Ht. rewrite elem_of_app, elem_of_cons in Hin.
    destruct Hin as [Hin|[[= -> -> ->]|Hin]].
    - exists t. split; [lia|]. set_solver.
    - exists now. split; [lia|]. set_solver.
    - exists t. split; [lia|]. set_solver. }
  destruct 1; intros Hin Ht; subst; try (by eapply Htouch); exists t; (split; [lia|]); try done.
  apply elem_of_app. by left.
Qed.

Lemma in_unexpired exp now es e :
  e ∈ es → now - exp <= e.2 → e ∈ unexpired exp now es.
Proof.
  intros He Ht. unfold unexpired. rewrite list_elem_of_In in *. apply filter_In.
  split; [done|]. by apply Z.leb_le.
Qed.

Section handler.
Context {M : Type} `{!MapOps (ptr FlowId) FlowId M, !MapLaws (ptr FlowId) FlowId M}.
Implicit Types (manager : FlowManager M) (ch : dchain) (m : mbuf).
Variables (config : nat_config) (n_devices : Z).
Variable c1 : list Z → Z → Z → Z.
Variable c2 : list Z → Z → Z.
Variable c3 : list Z → Z → Z → Z.

(** The configuration has the addresses of all devices, each of six bytes. *)
Record config_ok : Prop := {
  co_wan : 0 <= wan_device config < n_devices;
  co_dev : n_devices <= zlen (device_macs config);
  co_end : n_devices <= zlen (endpoint_macs config);
  co_dev6 : ∀ i, 0 <= i < n_devices → zlen (getz (device_macs config) i) = 6;
  co_end6 : ∀ i, 0 <= i < n_devices → zlen (getz (endpoint_macs config) i) = 6
}.
Hypothesis Hcfg : config_ok.

(** A received packet: a device that exists, and a buffer that has room for the
    headers. *)
Definition mbuf_ok m : Prop := 0 <= port m < n_devices ∧ 52 <= zlen (buf m).

(** Emitting a packet changes the ethernet addresses and the checksums only. *)
Definition kept (i : Z) : Prop := 12 <= i ∧ not_checksum 14 i.

Lemma nat_emit_ok m b dst :
  0 <= dst < n_devices → 52 <= zlen b →
  ∃ m', nat_emit config c1 c2 c3 m b 0 14 dst = Ok (dst, m') ∧ agree kept b (buf m').
Proof.
  intros Hd Hb. destruct Hcfg as [Hw L1 L2 L3 L4]. unfold nat_emit, ETHER_S_ADDR, ETHER_D_ADDR.
  rewrite (rd_ok (device_macs config)), (rd_ok (endpoint_macs config)) by lia.
  cbn [mbind res_bind].
  destruct (st_bytes_step kept b b (0 + 6) (getz (device_macs config) dst))
    as (b1 & -> & A1 & _); [lia|rewrite L3 by done; lia|rewrite L3 by done; unfold kept; lia|done|].
  cbn [mbind res_bind].
  destruct (st_bytes_step kept b b1 (0 + 0) (getz (endpoint_macs config) dst))
    as (b2 & -> & A2 & _); [lia|rewrite L4 by done; lia|rewrite L4 by done; unfold kept; lia|done|].
  cbn [mbind res_bind].
  destruct (nf_set_ipv4_checksum_ok c1 c2 c3 b2 14) as (b3 & -> & A3);
    [lia|rewrite (proj1 A2); lia|]. cbn [mbind res_bind].
  eexists. split; [done|]. eapply agree_trans; [exact A2|]. destruct A3 as [L3' A3].
  split; [done|]. intros i Hi [_ Hk]. by apply A3.
Qed.

Lemma kept_lt24 i : 12 <= i < 24 → kept i.
Proof. unfold kept, not_checksum, IPV4_HDR_CHECKSUM, IPV4_SRC_ADDR, SIZEOF_IPV4_HDR. lia. Qed.
Lemma kept_ge26 i : 26 <= i < 34 → kept i.
Proof. unfold kept, not_checksum, IPV4_HDR_CHECKSUM, IPV4_SRC_ADDR, SIZEOF_IPV4_HDR. lia. Qed.

(** The rewriting of the header for the two directions. *)
Lemma emit_to_wan m p :
  52 <= zlen (buf m) → 0 <= p < 65536 →
  ∃ dev m', (b ← st32 (buf m) (14 + IPV4_SRC_ADDR) (external_addr config);
             b ← st16 b (ports_at (buf m) + TCPUDP_SRC_PORT) p;
             nat_emit config c1 c2 c3 m b 0 14 (wan_device config)) = Ok (dev, m') ∧
    emitted config (ToWan p) m dev m'.
Proof.
  intros Hl Hp. pose proof (land15_bound (getz (buf m) 14)) as Hi.
  unfold ports_at, IPV4_SRC_ADDR, TCPUDP_SRC_PORT in *.
  destruct (st32_ok (buf m) (14 + 12) (external_addr config)) as (b1 & -> & F1 & W1); [lia..|].
  cbn [mbind res_bind]. set (off := 14 + Z.land (getz (buf m) 14) 15 + 0).
  destruct (st16_ok b1 off p) as (b2 & -> & F2 & W2); [lia|rewrite (proj1 F1); lia|].
  cbn [mbind res_bind]. destruct F1 as [L1 F1], F2 as [L2 F2].
  destruct (nat_emit_ok m b2 (wan_device config)) as (m' & -> & A); [apply Hcfg|lia|].
  exists (wan_device config), m'. split; [done|]. simpl. split; [done|]. intros H5.
  assert (off = 19) as Eoff by (unfold off; lia). rewrite Eoff in *.
  rewrite !(agree_w32 kept b2 (buf m')), !(agree_w16 kept b2 (buf m'))
    by first [done | lia | apply kept_lt24; lia | apply kept_ge26; lia].
  rewrite W2, u16_id by (change (2 ^ 16) with 65536; lia).
  rewrite (frame_w32 19 2 b1 b2 26), (frame_w32 19 2 b1 b2 30), (frame_w16 19 2 b1 b2 21)
    by first [done | lia].
  rewrite (frame_w32 (14 + 12) 4 (buf m) b1 30), (frame_w16 (14 + 12) 4 (buf m) b1 21)
    by first [done | lia].
  by rewrite <- W1.
Qed.

Lemma emit_to_lan m f :
  52 <= zlen (buf m) → 0 <= internal_device f < n_devices →
  ∃ dev m', (b ← st32 (buf m) (14 + IPV4_DST_ADDR) (src_ip f);
             b ← st16 b (ports_at (buf m) + TCPUDP_DST_PORT) (src_port f);
             nat_emit config c1 c2 c3 m b 0 14 (internal_device f)) = Ok (dev, m') ∧
    emitted config (ToLan f) m dev m'.
Proof.
  intros Hl Hp. pose proof (land15_bound (getz (buf m) 14)) as Hi.
  unfold ports_at, IPV4_DST_ADDR, TCPUDP_DST_PORT in *.
  destruct (st32_ok (buf m) (14 + 16) (src_ip f)) as (b1 & -> & F1 & W1); [lia..|].
  cbn [mbind res_bind]. set (off := 14 + Z.land (getz (buf m) 14) 15 + 2).
  destruct (st16_ok b1 off (src_port f)) as (b2 & -> & F2 & W2); [lia|rewrite (proj1 F1); lia|].
  cbn [mbind res_bind]. destruct F1 as [L1 F1], F2 as [L2 F2].
  destruct (nat_emit_ok m b2 (internal_device f)) as (m' & -> & A); [done|lia|].
  exists (internal_device f), m'. split; [done|]. simpl. split; [done|]. intros H5.
  assert (off = 21) as Eoff by (unfold off; lia). rewrite Eoff in *.
  rewrite !(agree_w32 kept b2 (buf m')), !(agree_w16 kept b2 (buf m'))
    by first [done | lia | apply kept_lt24; lia | apply kept_ge26; lia].
  rewrite W2.
  rewrite (frame_w32 21 2 b1 b2 26), (frame_w32 21 2 b1 b2 30), (frame_w16 21 2 b1 b2 19)
    by first [done | lia].
  rewrite (frame_w32 (14 + 16) 4 (buf m) b1 26), (frame_w16 (14 + 16) 4 (buf m) b1 19)
    by first [done | lia].
  by rewrite <- W1.
Qed.

Section step.
Variables (manager : FlowManager M) (ch : dchain) (m : mbuf) (now : Z).
Hypothesis Hinv : nat_inv n_devices manager ch.
Hypothesis Hm : mbuf_ok m.
Hypothesis Hnow : 0 <= now < 2 ^ 63.
Hypothesis Hhigh : dchain_high_fp ch <= now.

(** What the rest of the handler has to establish. *)
Definition handled (es : list entry) (p : pkt) (r : res (Z * mbuf * FlowManager M)) : Prop :=
  ∃ dev m' manager' ch' out, r = Ok (dev, m', manager') ∧
    nat_inv n_devices manager' ch' ∧ same_conf manager manager' ∧
    dchain_high_fp ch' <= now ∧ dchain_index_range_fp ch' = dchain_index_range_fp ch ∧
    nat_step (dchain_index_range_fp ch) (start_port (state manager)) now es p
      (flows manager' ch') out ∧
    emitted config out m dev m'.

Lemma handle_external dport :
  dport = w16 (buf m) (ports_at (buf m) + TCPUDP_DST_PORT) →
  0 <= dport - start_port (state manager) < dchain_index_range_fp ch →
  handled (flows manager ch) (External dport)
    ('(r, manager) ← flow_manager_get_external manager dport now;
     match r with
     | Some internal_flow =>
         b ← st32 (buf m) (14 + IPV4_DST_ADDR) (src_ip internal_flow);
         b ← st16 b (ports_at (buf m) + TCPUDP_DST_PORT) (src_port internal_flow);
         '(dev, m) ← nat_emit config c1 c2 c3 m b 0 14 (internal_device internal_flow);
         Ok (dev, m, manager)
     | None => Ok (port m, m, manager)
     end).
Proof.
  intros Hd Hr. pose proof (ni_co _ _ _ Hinv) as Hco.
  pose proof (flow_manager_get_external_spec n_devices manager ch dport now Hinv Hhigh Hr) as Hget.
  destruct (dchain_allocated_fp ch (dport - start_port (state manager))) eqn:Ha.
  - destruct Hget as (manager' & -> & Hinv' & Hsame & Hv). cbn [mbind res_bind].
    apply dchain_allocated_spec in Ha. set (i := dport - _) in *.
    set (f := getz (data (fv (state manager))) i).
    destruct (emit_to_lan m f) as (dev & m' & E & Hem);
      [apply Hm|apply (ni_dev _ _ _ Hinv i Ha)|].
    destruct (st32 _ _ _) as [b1|]; [|done]. cbn [mbind res_bind] in *.
    destruct (st16 _ _ _) as [b2|]; [|done]. cbn [mbind res_bind] in *.
    rewrite E. cbn [mbind res_bind].
    destruct (table_lookup (v := fv (state manager)) i Ha) as (l1 & t & l2 & E1 & E2).
    do 5 eexists. split; [done|]. split; [done|]. split; [done|]. split; [done|].
    split; [done|]. split; [|done]. unfold flows. rewrite Hv, E1, E2.
    by apply step_reply with t.
  - rewrite Hget. cbn [mbind res_bind]. exists (port m), m, manager, ch, Drop.
    split; [done|]. split; [done|]. split; [done|]. split; [done|]. split; [done|].
    split; [|by split]. apply step_unknown. unfold indexes_of, flows.
    rewrite table_index,
      <- dchain_allocated_spec. congruence.
Qed.

Lemma handle_internal id :
  0 <= internal_device id < n_devices →
  handled (flows manager ch) (Internal id)
    ('(r, manager) ← flow_manager_get_internal manager id now;
     '(r, manager) ← (match r with
                      | Some external_port => Ok (Some external_port, manager)
                      | None => flow_manager_allocate_flow manager id (port m) now
                      end);
     match r with
     | Some external_port =>
         b ← st32 (buf m) (14 + IPV4_SRC_ADDR) (external_addr config);
         b ← st16 b (ports_at (buf m) + TCPUDP_SRC_PORT) external_port;
         '(dev, m) ← nat_emit config c1 c2 c3 m b 0 14 (wan_device config);
         Ok (dev, m, manager)
     | None => Ok (port m, m, manager)
     end).
Proof.
  intros Hid. pose proof (ni_co _ _ _ Hinv) as Hco.
  assert (Hemit : ∀ x (mgr : FlowManager M), ∃ dev m',
    (b ← st32 (buf m) (14 + IPV4_SRC_ADDR) (external_addr config);
     b ← st16 b (ports_at (buf m) + TCPUDP_SRC_PORT) (u16 x);
     '(dev, m) ← nat_emit config c1 c2 c3 m b 0 14 (wan_device config);
     Ok (dev, m, mgr)) = Ok (dev, m', mgr) ∧ emitted config (ToWan (u16 x)) m dev m').
  { intros x mgr. destruct (emit_to_wan m (u16 x)) as (dev & m' & E & Hem);
      [apply Hm|apply u16_bound|].
    exists dev, m'. destruct (st32 _ _ _) as [b1|]; [|done]. cbn [mbind res_bind] in *.
    destruct (st16 _ _ _) as [b2|]; [|done]. cbn [mbind res_bind] in *. by rewrite E. }
  pose proof (flow_manager_get_internal_spec n_devices manager ch id now Hinv Hhigh) as Hget.
  destruct (index_of (fv (state manager)) ch id) as [i|] eqn:Hidx.
  - destruct Hget as (manager' & -> & Hinv' & Hsame & Hv). cbn [mbind res_bind].
    apply (index_of_Some Hco) in Hidx as [Hi Hk].
    destruct (Hemit (start_port (state manager) + i) manager') as (dev & m' & -> & Hem).
    destruct (table_lookup (v := fv (state manager)) i Hi) as (l1 & t & l2 & E1 & E2).
    do 5 eexists. split; [done|]. split; [done|]. split; [done|]. split; [done|].
    split; [done|]. split; [|done]. unfold flows. rewrite Hv, E1, E2, Hk.
    by apply step_known with t.
  - rewrite Hget. cbn [mbind res_bind].
    assert (Hnk : id ∉ keys_of (flows manager ch)).
    { unfold keys_of, flows. rewrite (table_key Hco), Hidx. by intros []. }
    pose proof (nat_allocate_flow_spec n_devices manager ch id (port m) now
      Hinv Hhigh Hidx Hid) as Hal.
    destruct (dchain_out_of_space_fp ch) eqn:Hfull.
    + rewrite Hal. cbn [mbind res_bind]. exists (port m), m, manager, ch, Drop.
      split; [done|]. split; [done|]. split; [done|]. split; [done|]. split; [done|].
      split; [|by split]. apply step_full; [done|]. unfold flows. etransitivity; [apply table_len|].
      pose proof (double_chainp_len (co_chain _ _ _ _ Hco)).
      unfold dchain_out_of_space_fp in Hfull. apply Z.leb_le in Hfull. lia.
    + destruct Hal as (i & manager' & -> & Hi & Hn & Hinv' & Hsame & Htab).
      cbn [mbind res_bind].
      destruct (Hemit (start_port (state manager) + i) manager') as (dev & m' & -> & Hem).
      do 5 eexists. split; [done|]. split; [done|]. split; [done|]. split; [done|].
      split; [done|]. split; [|done]. rewrite Htab. apply step_new; [done|done|].
      unfold indexes_of, flows.
      rewrite table_index,
        <- dchain_allocated_spec. congruence.
Qed.
End step.

Lemma same_conf_trans (m1 m2 m3 : FlowManager M) :
  same_conf m1 m2 → same_conf m2 m3 → same_conf m1 m3.
Proof. unfold same_conf. intuition congruence. Qed.

(** The port a packet from outside is addressed to is one the NAT may hand out. *)
Definition port_in_range (manager : FlowManager M) ch m : Prop :=
  match classify config m with
  | External dport => 0 <= dport - start_port (state manager) < dchain_index_range_fp ch
  | _ => True
  end.

Lemma nat_process_spec manager ch m now :
  nat_inv n_devices manager ch → mbuf_ok m → 0 <= now < 2 ^ 63 → dchain_high_fp ch <= now →
  port_in_range manager ch m →
  handled manager ch m now (unexpired (expiration_time manager) now (flows manager ch))
    (classify config m) (nf_core_process config c1 c2 c3 manager m now).
Proof.
  intros Hinv Hm Hnow Hhigh Hport. unfold nf_core_process.
  destruct (nat_expire_spec n_devices manager ch now Hinv Hnow)
    as (manager1 & -> & Hinv1 & Hsame & Hv). cbn [mbind res_bind].
  set (ch1 := dchain_expire_old_indexes_fp ch _) in *.
  assert (Hflows : unexpired (expiration_time manager) now (flows manager ch) =
                   flows manager1 ch1).
  { unfold flows. rewrite Hv. symmetry. by apply (table_expire _ _ _ _ _ (ni_co _ _ _ Hinv)). }
  rewrite Hflows.
  assert (Hlift : ∀ p r, handled manager1 ch1 m now (flows manager1 ch1) p r →
    handled manager ch m now (flows manager1 ch1) p r).
  { intros p r (dev & m' & manager' & ch' & out & -> & H1 & H2 & H3 & H4 & H5 & H6).
    exists dev, m', manager', ch', out. split; [done|]. split; [done|].
    split; [by eapply same_conf_trans|]. split; [done|]. split; [done|].
    destruct Hsame as (Es & _). rewrite Es in H5. done. }
  rewrite (parse_headers m _ (Ok (port m, m, manager1))) by apply Hm.
  unfold port_in_range, classify in *.
  destruct (is_tcpudp (buf m)).
  - destruct Hm as [Hp Hl]. pose proof (land15_bound (getz (buf m) 14)) as Hi.
    unfold SIZEOF_ETHER_HDR.
    destruct (port m =? wan_device config).
    + rewrite ld16_ok by (unfold ports_at, TCPUDP_DST_PORT; lia). cbn [mbind res_bind].
      apply Hlift, handle_external; [done..|by destruct Hsame as (-> & _)].
    + rewrite !ld16_ok, !ld32_ok, ld8_ok
        by (unfold ports_at, IPV4_SRC_ADDR, IPV4_DST_ADDR, IPV4_NEXT_PROTO_ID,
            TCPUDP_DST_PORT, TCPUDP_SRC_PORT; lia).
      cbn [mbind res_bind]. by apply Hlift, handle_internal.
  - apply Hlift. exists (port m), m, manager1, ch1, Drop.
    split; [done|]. split; [done|]. split; [done|]. split; [done|]. split; [done|].
    split; [apply step_other|by split].
Qed.

(** *** Runs: packets that arrive one after the other *)
Fixpoint nat_run manager (trace : list (mbuf * Z)) : res (FlowManager M) :=
  match trace with
  | [] => Ok manager
  | (m, now) :: trace' =>
      '(_, _, manager) ← nf_core_process config c1 c2 c3 manager m now;
      nat_run manager trace'
  end.

(** The packets are sound and time does not go backwards, from [t] to [t_end]. *)
Fixpoint trace_ok (range start t : Z) (trace : list (mbuf * Z)) (t_end : Z) : Prop :=
  match trace with
  | [] => t <= t_end
  | (m, now) :: trace' =>
      mbuf_ok m ∧ t <= now < 2 ^ 63 ∧
      match classify config m with
      | External dport => 0 <= dport - start < range
      | _ => True
      end ∧
      trace_ok range start now trace' t_end
  end.

Lemma flow_time manager ch i t :
  nat_inv n_devices manager ch → (i, t) ∈ dchain_alist_fp ch → t <= dchain_high_fp ch.
Proof.
  intros Hinv. exact (chain_time_high _ _ _ _ (co_chain _ _ _ _ (ni_co _ _ _ Hinv))).
Qed.

Lemma nat_run_spec trace manager ch t t_end :
  nat_inv n_devices manager ch → 0 <= t → dchain_high_fp ch <= t →
  trace_ok (dchain_index_range_fp ch) (start_port (state manager)) t trace t_end →
  ∃ manager' ch', nat_run manager trace = Ok manager' ∧ nat_inv n_devices manager' ch' ∧
    same_conf manager manager' ∧ dchain_high_fp ch' <= t_end ∧
    dchain_index_range_fp ch' = dchain_index_range_fp ch ∧ t <= t_end ∧
    ∀ id i t0, (id, i, t0) ∈ flows manager ch → t0 <= t →
      t_end <= t0 + expiration_time manager →
      ∃ t1, t0 <= t1 ∧ (id, i, t1) ∈ flows manager' ch'.
Proof.
  revert manager ch t. induction trace as [|[m now] trace IH]; intros manager ch t Hinv Ht Hh Hok.
  { simpl in *. exists manager, ch. split; [done|]. split; [done|]. split; [done|].
    split; [lia|]. split; [done|]. split; [done|]. intros id i t0 Hin _ _. by exists t0. }
  destruct Hok as (Hm & Hnow & Hport & Hok).
  destruct (nat_process_spec manager ch m now Hinv Hm ltac:(lia) ltac:(lia) Hport)
    as (dev & m' & mgr1 & ch1 & out & E & Hinv1 & Hsame & Hh1 & Hr1 & Hstep & _).
  cbn [nat_run]. rewrite E. cbn [mbind res_bind].
  pose proof Hsame as (Es & _ & Ee). rewrite <- Es, <- Hr1 in Hok.
  destruct (IH mgr1 ch1 now Hinv1 ltac:(lia) Hh1 Hok)
    as (mgr2 & ch2 & -> & Hinv2 & Hsame2 & Hh2 & Hr2 & Hle & Hkeep).
  exists mgr2, ch2. split; [done|]. split; [done|]. split; [by eapply same_conf_trans|].
  split; [done|]. split; [congruence|]. split; [lia|].
  intros id i t0 Hin Ht0 Hexp.
  destruct (nat_step_keeps _ _ _ _ _ _ _ id i t0 Hstep) as (t1 & Ht1 & Hin1).
  - apply in_unexpired; [done|]. simpl. lia.
  - lia.
  - assert (t1 <= now ∨ now < t1) as [Hle1|Hgt] by lia.
    + destruct (Hkeep id i t1 Hin1 Hle1) as (t2 & ? & ?); [lia|]. exists t2. split; [lia|done].
    + exfalso. apply list_elem_of_fmap in Hin1 as ([j u] & Ej & Hju). simplify_eq/=.
      pose proof (flow_time _ _ _ _ Hinv1 Hju). lia.
Qed.
End handler.

(** ** The claims *)
Section claims.
Context {M : Type} `{!MapOps (ptr FlowId) FlowId M, !MapLaws (ptr FlowId) FlowId M}.
Variables (config : nat_config) (n_devices : Z).
Variable c1 : list Z → Z → Z → Z.
Variable c2 : list Z → Z → Z.
Variable c3 : list Z → Z → Z → Z.
Implicit Types (manager : FlowManager M) (ch : dchain) (m : mbuf).

(** C1: The packet handler of the NAT implements the abstract NAT. On every
    packet (the port of a packet from outside being one the NAT may hand out)
    the handler returns; the flow table it leaves and the packet it emits are
    those of a step of [nat_step] from the flows that have not expired: a known
    flow is touched, a new one gets an unused index or is dropped when there is
    none, a packet from outside goes to the flow that owns its destination port
    and is dropped when there is none, and anything else is dropped. *)
Theorem nat_refines manager ch m now :
  config_ok config n_devices → nat_inv n_devices manager ch → mbuf_ok n_devices m →
  0 <= now < 2 ^ 63 → dchain_high_fp ch <= now → port_in_range config manager ch m →
  ∃ dev m' manager' ch' out,
    nf_core_process config c1 c2 c3 manager m now = Ok (dev, m', manager') ∧
    nat_inv n_devices manager' ch' ∧ same_conf manager manager' ∧
    dchain_high_fp ch' <= now ∧ dchain_index_range_fp ch' = dchain_index_range_fp ch ∧
    nat_step (dchain_index_range_fp ch) (start_port (state manager)) now
      (unexpired (expiration_time manager) now (flows manager ch)) (classify config m)
      (flows manager' ch') out ∧
    emitted config out m dev m'.
Proof. intros Hcfg. by apply nat_process_spec. Qed.

(** A TCP or UDP packet with an IPv4 header without options, and its flow when it
    comes from inside. *)
Record plain m : Prop := {
  pl_ok : mbuf_ok n_devices m;
  pl_bytes : bytes_ok (buf m);
  pl_tcpudp : is_tcpudp (buf m) = true;
  pl_ihl : Z.land (getz (buf m) 14) 15 = 5
}.
Definition flow_of m : FlowId :=
  mk_flowid (w16 (buf m) 19) (w16 (buf m) 21) (w32 (buf m) 26) (w32 (buf m) 30)
    (port m) (getz (buf m) 23).

Lemma classify_inside m :
  plain m → port m ≠ wan_device config → classify config m = Internal (flow_of m).
Proof.
  intros [_ _ Ht H5] Hp. unfold classify, ports_at, TCPUDP_SRC_PORT, TCPUDP_DST_PORT.
  rewrite Ht, H5. by rewrite (proj2 (Z.eqb_neq _ _)) by done.
Qed.

Lemma classify_outside m :
  plain m → port m = wan_device config → classify config m = External (w16 (buf m) 21).
Proof.
  intros [_ _ Ht H5] Hp. unfold classify, ports_at, TCPUDP_DST_PORT.
  by rewrite Ht, H5, Hp, Z.eqb_refl.
Qed.

(** A forwarded packet from inside owns the port it leaves with. *)
Lemma forwarded_owns_port manager ch m now dev m' manager' :
  config_ok config n_devices → nat_inv n_devices manager ch → 0 <= now < 2 ^ 63 →
  dchain_high_fp ch <= now → plain m → port m ≠ wan_device config →
  nf_core_process config c1 c2 c3 manager m now = Ok (dev, m', manager') → dev ≠ port m →
  ∃ ch' i, nat_inv n_devices manager' ch' ∧ same_conf manager manager' ∧
    dchain_high_fp ch' <= now ∧ dchain_index_range_fp ch' = dchain_index_range_fp ch ∧
    (flow_of m, i, now) ∈ flows manager' ch' ∧ 0 <= i < dchain_index_range_fp ch ∧
    w16 (buf m') 19 = u16 (start_port (state manager) + i) ∧
    ∀ id k t0, (id, k, t0) ∈ flows manager ch → t0 <= now →
      now <= t0 + expiration_time manager → ∃ t', (id, k, t') ∈ flows manager' ch'.
Proof.
  intros Hcfg Hinv Hnow Hh Hpl Hp E Hd. pose proof (classify_inside m Hpl Hp) as Hcl.
  destruct (nat_process_spec config n_devices c1 c2 c3 Hcfg manager ch m now Hinv
    (pl_ok _ Hpl) Hnow Hh) as (dev1 & m1 & mgr & ch' & out & E1 & Hinv1 & Hsame & Hh1 & Hr1 & Hstep & Hem).
  { unfold port_in_range. by rewrite Hcl. }
  rewrite E in E1. injection E1 as <- <- <-. rewrite Hcl in Hstep.
  assert (∃ i, (flow_of m, i, now) ∈ flows manager' ch' ∧
    w16 (buf m') 19 = u16 (start_port (state manager) + i)) as (i & Hin & Hpo).
  { inversion Hstep; subst; [| |by destruct Hem as [-> _]];
      destruct Hem as [_ Hem]; destruct (Hem (pl_ihl _ Hpl)) as (_ & -> & _); eexists;
      (split; [|done]); set_solver. }
  exists ch', i. split; [done|]. split; [done|]. split; [done|]. split; [done|].
  split; [done|]. split; [|split; [done|]].
  - rewrite <- Hr1. apply (co_range (ni_co _ _ _ Hinv1)).
    apply (table_index (v := fv (state manager'))). apply list_elem_of_fmap.
    by exists (flow_of m, i, now).
  - intros id k t0 Hin0 Ht0 Hexp.
    destruct (nat_step_keeps _ _ _ _ _ _ _ id k t0 Hstep) as (t' & _ & ?); [|done|by exists t'].
    apply in_unexpired; [done|]. simpl. lia.
Qed.

(** The flow under an index is the one that gets the packets of its port. *)
Lemma reply_finds_owner cap start now exp es i p es' out id t :
  NoDup (indexes_of es) → (id, i, t) ∈ es → now - exp <= t → p = start + i →
  nat_step cap start now (unexpired exp now es) (External p) es' out → out = ToLan id.
Proof.
  intros Hnd Hin Ht -> Hstep.
  pose proof (in_unexpired exp now es (id, i, t) Hin Ht) as Hlive.
  inversion Hstep as [| | | |dport id' t' l1 l2 Hes|dport Hno]; subst.
  - assert (Hx : (id', start + i - start, t') ∈ unexpired exp now es)
      by (rewrite Hes; set_solver).
    rewrite list_elem_of_In in Hx. apply filter_In in Hx as [Hx _]. apply list_elem_of_In in Hx.
    assert ((id, i, t) = (id', start + i - start, t')) as [= -> _ _]; [|done].
    apply (NoDup_fmap_elem (λ e, e.1.2) es); [done..|]. simpl. lia.
  - exfalso. apply Hno. apply list_elem_of_fmap. exists (id, i, t). split; [simpl; lia|done].
Qed.

(** C2: Round trip, for a NAT whose ports (the first port plus the size of the flow table)
    do not exceed 65536. A packet from inside that the NAT forwards at [t1] makes the NAT
    deliver replies: a packet from outside that arrives at [t2], not later than the
    expiration time, and is addressed to the source port that the NAT had put into the
    first packet, leaves on the device the first packet came from, with the source
    address and port of the first packet as its destination. In between, any packets may
    come from inside, and from outside those that are not TCP or UDP or whose destination
    port is one of the ports of the NAT; for any other port the code reads outside of
    its cells, or the cells that head its lists ([nat_external_port_unchecked]), and
    nothing is claimed. (Ports are those the code
    reads, for headers without options.) *)
Theorem nat_reply_roundtrip manager ch m1 t1 dev1 m1' manager1 trace manager2 m2 t2 :
  config_ok config n_devices → nat_inv n_devices manager ch →
  0 <= t1 < 2 ^ 63 → dchain_high_fp ch <= t1 →
  0 <= start_port (state manager) →
  start_port (state manager) + dchain_index_range_fp ch <= 65536 →
  plain m1 → port m1 ≠ wan_device config →
  nf_core_process config c1 c2 c3 manager m1 t1 = Ok (dev1, m1', manager1) → dev1 ≠ port m1 →
  trace_ok config n_devices (dchain_index_range_fp ch) (start_port (state manager)) t1 trace t2 →
  nat_run config c1 c2 c3 manager1 trace = Ok manager2 →
  t2 < 2 ^ 63 → t2 <= t1 + expiration_time manager →
  plain m2 → port m2 = wan_device config → w16 (buf m2) 21 = w16 (buf m1') 19 →
  ∃ m2' manager3,
    nf_core_process config c1 c2 c3 manager2 m2 t2 = Ok (port m1, m2', manager3) ∧
    w32 (buf m2') 30 = w32 (buf m1) 26 ∧ w16 (buf m2') 21 = w16 (buf m1) 19.
Proof.
  intros Hcfg Hinv Ht1 Hh Hs0 Hs16 Hpl1 Hp1 E1 Hd1 Htr E2 Ht2 Hexp Hpl2 Hp2 Hport.
  destruct (forwarded_owns_port _ _ _ _ _ _ _ Hcfg Hinv Ht1 Hh Hpl1 Hp1 E1 Hd1)
    as (cha & i & Hinv1 & Hsame & Hh1 & Hr1 & Hin & Hi & Hpo & _).
  pose proof Hsame as (Es & _ & Ee).
  destruct (nat_run_spec config n_devices c1 c2 c3 Hcfg trace manager1 cha t1 t2 Hinv1)
    as (mgr2 & ch2 & E & Hinv2 & (Es2 & _ & Ee2) & Hh2 & Hr2 & Hle & Hkeep);
    [lia|done|by rewrite Hr1, Es|].
  rewrite E2 in E. injection E as <-.
  destruct (Hkeep _ _ _ Hin) as (t1' & Ht1' & Hin2); [lia|lia|].
  rewrite u16_id in Hpo by (change (2 ^ 16) with 65536; lia).
  pose proof (classify_outside m2 Hpl2 Hp2) as Hcl. rewrite Hport, Hpo in Hcl.
  destruct (nat_process_spec config n_devices c1 c2 c3 Hcfg manager2 ch2 m2 t2 Hinv2
    (pl_ok _ Hpl2)) as (dev & m2' & mgr3 & ch3 & out & E & _ & _ & _ & _ & Hstep & Hem);
    [lia|lia|unfold port_in_range; rewrite Hcl; lia|].
  rewrite Hcl, Es2, Es in Hstep.
  assert (Halive : t2 - expiration_time manager2 <= t1') by lia.
  pose proof (reply_finds_owner _ _ _ _ _ i _ _ _ _ t1'
    (table_nodup_indexes (ni_co _ _ _ Hinv2)) Hin2 Halive eq_refl Hstep) as ->.
  destruct Hem as [-> Hem]. destruct (Hem (pl_ihl _ Hpl2)) as (Ew & Ep & _).
  exists m2', mgr3. split; [done|]. rewrite Ew, Ep. destruct Hpl1 as [[_ Hl1] Hb1 _ _]. simpl.
  rewrite u32_id by (apply w32_bound; [done|lia|lia]).
  by rewrite u16_id by (apply w16_bound; [done|lia|lia]).
Qed.

(** C21: No port is shared, in a NAT whose ports (the first port plus the size of the flow
    table) do not exceed 65536; the configuration accepts larger ranges, in which the
    16-bit ports wrap around and are shared. Two packets from inside that belong to
    different flows and are both forwarded, the second while the first flow is alive,
    leave with different source ports. In between, any packets may come from inside, and
    from outside those that are not TCP or UDP or whose destination port is one of the
    ports of the NAT. *)
Theorem nat_ports_distinct manager ch m1 t1 dev1 m1' manager1 trace manager2 m2 t2 dev2 m2' manager3 :
  config_ok config n_devices → nat_inv n_devices manager ch →
  0 <= t1 < 2 ^ 63 → dchain_high_fp ch <= t1 →
  0 <= start_port (state manager) →
  start_port (state manager) + dchain_index_range_fp ch <= 65536 →
  plain m1 → port m1 ≠ wan_device config →
  nf_core_process config c1 c2 c3 manager m1 t1 = Ok (dev1, m1', manager1) → dev1 ≠ port m1 →
  trace_ok config n_devices (dchain_index_range_fp ch) (start_port (state manager)) t1 trace t2 →
  nat_run config c1 c2 c3 manager1 trace = Ok manager2 →
  t2 < 2 ^ 63 → t2 <= t1 + expiration_time manager →
  plain m2 → port m2 ≠ wan_device config →
  nf_core_process config c1 c2 c3 manager2 m2 t2 = Ok (dev2, m2', manager3) → dev2 ≠ port m2 →
  flow_of m1 ≠ flow_of m2 → w16 (buf m1') 19 ≠ w16 (buf m2') 19.
Proof.
  intros Hcfg Hinv Ht1 Hh Hs0 Hs16 Hpl1 Hp1 E1 Hd1 Htr E2 Ht2 Hexp Hpl2 Hp2 E3 Hd2 Hne.
  destruct (forwarded_owns_port _ _ _ _ _ _ _ Hcfg Hinv Ht1 Hh Hpl1 Hp1 E1 Hd1)
    as (cha & i & Hinv1 & (Es & _ & Ee) & Hh1 & Hr1 & Hin & Hi & Hpo & _).
  destruct (nat_run_spec config n_devices c1 c2 c3 Hcfg trace manager1 cha t1 t2 Hinv1)
    as (mgr2 & ch2 & E & Hinv2 & (Es2 & _ & Ee2) & Hh2 & Hr2 & Hle & Hkeep);
    [lia|done|by rewrite Hr1, Es|].
  rewrite E2 in E. injection E as <-.
  destruct (Hkeep _ _ _ Hin) as (t1' & Ht1' & Hin2); [lia|lia|].
  assert (Hnow2 : 0 <= t2 < 2 ^ 63) by lia.
  destruct (forwarded_owns_port _ _ _ _ _ _ _ Hcfg Hinv2 Hnow2 Hh2 Hpl2 Hp2 E3 Hd2)
    as (ch3 & j & Hinv3 & _ & _ & _ & Hin3 & Hj & Hpo2 & Hkeep3).
  assert (Hlate : t1' <= t2).
  { apply list_elem_of_fmap in Hin2 as ([k u] & Ek & Hku). simplify_eq/=.
    pose proof (flow_time _ _ _ _ _ Hinv2 Hku). lia. }
  destruct (Hkeep3 _ _ _ Hin2 Hlate) as (t' & Hin4); [lia|].
  rewrite Es2, Es in *. rewrite Hpo, Hpo2, !u16_id by (change (2 ^ 16) with 65536; lia).
  intros Heq. apply Hne.
  pose proof (NoDup_fmap_elem (λ e, e.1.2) _ _ _ (table_nodup_indexes (ni_co _ _ _ Hinv3)) Hin4 Hin3)
    as Hsame. simpl in Hsame. assert (i = j) as E by lia. specialize (Hsame E). congruence.
Qed.
End claims.

(** ** The start *)
Lemma nat_alloc_state_spec ok mem max_flows start_port0 ext_ip0 nat_device0 h :
  memory_ok mem → heap_wf h → (∃ n, 0 <= n ∧ max_flows = 2 ^ n) → vector_fits SIZEOF_FLOWID max_flows →
  initialises ok (λ st, coherent (fm st) (fv st) (heap st) (empty_dchain_fp max_flows 0) ∧
      start_port st = start_port0 ∧ ext_ip st = ext_ip0 ∧ nat_device st = nat_device0)
    (alloc_state ok mem None max_flows start_port0 ext_ip0 nat_device0 h).
Proof.
  intros Hmem Hwf Hp Hfit. assert (0 < max_flows) by (destruct Hp as (n & Hn & ->); lia).
  apply malloc_or_null_spec; [done|]. intros _ h1 Hwf1.
  eapply or_null_spec; [by apply (alloc_map_spec ok mem Hmem _ _ _ (λ _, inhabitant)), FlowId_eq_spec|].
  intros map h2 Hmap Hwf2.
  eapply or_null_spec; [apply alloc_vector_spec; try done; [lia|apply Hmem; lia]|].
  intros v h3 Hv Hwf3.
  eapply or_null_spec; [by apply alloc_chain_spec|]. intros chain h4 Hc Hwf4.
  apply initialises_done. split; [|done].
  eapply allocated_coherent; [exact Hmap|exact Hv|exact Hc].
Qed.

(** The NAT starts without flows: if [max_flows] is a power of two,
    [nf_core_init] either sets up a consistent empty flow table with the
    configured ports, whatever the contents of the memory it gets, or some
    request for memory fails and it exits. *)
Theorem nat_starts_empty ok mem config n_devices h :
  memory_ok mem → heap_wf h → (∃ n, 0 <= n <= 27 ∧ cfg_max_flows config = 2 ^ n) →
  0 <= cfg_expiration_time config < 2 ^ 32 →
  (∃ manager h', nf_core_init ok mem None config h = Ok (manager, h') ∧
     nat_inv n_devices manager (empty_dchain_fp (cfg_max_flows config) 0) ∧
     flows manager (empty_dchain_fp (cfg_max_flows config) 0) = [] ∧
     start_port (state manager) = cfg_start_port config ∧
     expiration_time manager = cfg_expiration_time config) ∨
  (nf_core_init ok mem None config h = Err Exit ∧ ¬ ∀ n, ok n = true).
Proof.
  intros Hmem Hwf (n & Hn & Hp) He.
  assert (Hc : i32 (cfg_max_flows config) = cfg_max_flows config) by (rewrite Hp; apply i32_pow2; lia).
  assert (Hfit : vector_fits SIZEOF_FLOWID (cfg_max_flows config)) by (rewrite Hp; by apply (vector_fits_pow2 _ n 27)).
  unfold nf_core_init. apply or_exit_spec with (Q := λ manager,
    nat_inv n_devices manager (empty_dchain_fp (cfg_max_flows config) 0) ∧
    flows manager (empty_dchain_fp (cfg_max_flows config) 0) = [] ∧
    start_port (state manager) = cfg_start_port config ∧
    expiration_time manager = cfg_expiration_time config).
  apply malloc_or_null_spec; [done|]. intros _ h1 Hwf1. rewrite Hc.
  eapply and_then_spec; [apply nat_alloc_state_spec; [done|done|exists n; split; [lia|done]|done]|].
  intros st h2 (Hst & Hport & _ & _). apply initialises_done. split; [|done].
  split; [exact Hst|by intros i ?%elem_of_nil|done].
Qed.

(** ** A small NAT

    Two devices, 0 inside and 1 outside, four ports from 1000 on; UDP packets of
    60 bytes. It shows that the hypotheses of the claims can hold. *)
Definition small_config : nat_config :=
  let macs := [replicate 6 1; replicate 6 2] in
  mk_nat_config 0 1 16777226 macs macs 0 1000 100 4.
Definition small_nat : FlowManager (Map (ptr FlowId) FlowId) :=
  mk_manager (mk_state (fresh_map 4 FlowId_eq FlowId_hash) (fresh_vector 4) (fresh_chain 4)
                4 1000 16777226 1) 100.
Definition small_packet (dev : Z) (ports src dst : list Z) : mbuf :=
  mk_mbuf dev 60 (replicate 12 0 ++ [8; 0; 69; 0; 0; 46; 0] ++ ports ++ [17; 0; 0] ++ src ++ dst ++
                  replicate 26 0).
Definition no_cksum3 (b : list Z) (x y : Z) : Z := 0.
Definition no_cksum2 (b : list Z) (x : Z) : Z := 0.

Definition request : mbuf := small_packet 0 [1; 2; 3; 4] [10; 0; 0; 1] [8; 8; 8; 8].
Definition request2 : mbuf := small_packet 0 [1; 2; 3; 4] [10; 0; 0; 2] [8; 8; 8; 8].
Definition reply : mbuf := small_packet 1 [3; 4; 232; 3] [8; 8; 8; 8] [10; 0; 0; 1].

Definition small_process := nf_core_process small_config no_cksum3 no_cksum2 no_cksum3
  (M := Map (ptr FlowId) FlowId).

Lemma small_nat_config_ok : config_ok small_config 2.
Proof.
  split; try done; intros i Hi; assert (i = 0 ∨ i = 1) as [-> | ->] by lia; done.
Qed.

Lemma small_nat_ok : nat_inv 2 small_nat (empty_dchain_fp 4 0).
Proof.
  split; [|by intros i ?%elem_of_nil|done].
  apply (fresh_coherent 4 FlowId_eq FlowId_hash 2); [lia|done|apply FlowId_eq_spec].
Qed.

Lemma small_plain m :
  mbuf_ok 2 m → bytes_ok (buf m) → is_tcpudp (buf m) = true → Z.land (getz (buf m) 14) 15 = 5 →
  plain 2 m.
Proof. done. Qed.

Lemma request_plain : plain 2 request.
Proof. apply small_plain; [done| |done|done]. by repeat constructor. Qed.
Lemma request2_plain : plain 2 request2.
Proof. apply small_plain; [done| |done|done]. by repeat constructor. Qed.
Lemma reply_plain : plain 2 reply.
Proof. apply small_plain; [done| |done|done]. by repeat constructor. Qed.

Lemma nat_refines_witness :
  ∃ dev m' manager' ch' out,
    small_process small_nat request 10 = Ok (dev, m', manager') ∧
    nat_inv 2 manager' ch' ∧ same_conf small_nat manager' ∧
    dchain_high_fp ch' <= 10 ∧ dchain_index_range_fp ch' = 4 ∧
    nat_step 4 1000 10 (unexpired 100 10 (flows small_nat (empty_dchain_fp 4 0)))
      (classify small_config request) (flows manager' ch') out ∧
    emitted small_config out request dev m'.
Proof.
  apply (nat_refines small_config 2 no_cksum3 no_cksum2 no_cksum3 small_nat (empty_dchain_fp 4 0));
    [exact small_nat_config_ok|exact small_nat_ok|done|lia|done|done].
Defined.

(** What the small NAT does with the first request. *)
Lemma small_request :
  ∃ m' manager', small_process small_nat request 10 = Ok (1, m', manager') ∧
    w16 (buf m') 19 = 1000.
Proof.
  assert (E : (λ '(d, m, _), (d, w16 (buf m) 19)) <$> small_process small_nat request 10 =
    Ok (1, 1000)) by by vm_compute.
  destruct (small_process small_nat request 10) as [[[d m'] mgr]|]; [|done].
  injection E as -> Hw. by exists m', mgr.
Qed.

Lemma nat_reply_roundtrip_witness :
  ∃ m1' manager1 m2' manager3,
    small_process small_nat request 10 = Ok (1, m1', manager1) ∧
    small_process manager1 reply 60 = Ok (port request, m2', manager3) ∧
    w32 (buf m2') 30 = w32 (buf request) 26 ∧ w16 (buf m2') 21 = w16 (buf request) 19.
Proof.
  destruct small_request as (m1' & manager1 & E & Hp).
  destruct (nat_reply_roundtrip small_config 2 no_cksum3 no_cksum2 no_cksum3 small_nat
    (empty_dchain_fp 4 0) request 10 1 m1' manager1 [] manager1 reply 60)
    as (m2' & manager3 & E2 & Ha & Hb);
    [exact small_nat_config_ok|exact small_nat_ok|lia|simpl; lia|simpl; lia|simpl; lia
    |exact request_plain|simpl; lia|exact E|simpl; lia|simpl; lia|reflexivity|lia|simpl; lia
    |exact reply_plain|reflexivity|rewrite Hp; reflexivity|].
  exists m1', manager1, m2', manager3. split; [exact E|]. split; [exact E2|]. split; [exact Ha|exact Hb].
Defined.

Lemma small_two_requests :
  ∃ m1' manager1 m2' manager3,
    small_process small_nat request 10 = Ok (1, m1', manager1) ∧
    small_process manager1 request2 60 = Ok (1, m2', manager3).
Proof.
  assert (E : ('(d, _, mgr) ← small_process small_nat request 10;
    '(d2, _, _) ← small_process mgr request2 60; Ok (d, d2)) = Ok (1, 1)) by by vm_compute.
  apply res_bind_Ok in E as ([[d m1'] mgr1] & E1 & E).
  apply res_bind_Ok in E as ([[d2 m2'] mgr3] & E2 & E). injection E as -> ->.
  exists m1', mgr1, m2', mgr3. split; [exact E1|exact E2].
Qed.

Lemma nat_ports_distinct_witness :
  ∃ m1' manager1 m2' manager3,
    small_process small_nat request 10 = Ok (1, m1', manager1) ∧
    small_process manager1 request2 60 = Ok (1, m2', manager3) ∧
    w16 (buf m1') 19 ≠ w16 (buf m2') 19.
Proof.
  destruct small_two_requests as (m1' & manager1 & m2' & manager3 & E & E2).
  exists m1', manager1, m2', manager3. split; [exact E|]. split; [exact E2|].
  apply (nat_ports_distinct small_config 2 no_cksum3 no_cksum2 no_cksum3 small_nat
    (empty_dchain_fp 4 0) request 10 1 m1' manager1 [] manager1 request2 60 1 m2' manager3);
    [exact small_nat_config_ok|exact small_nat_ok|lia|simpl; lia|simpl; lia|simpl; lia
    |exact request_plain|simpl; lia|exact E|simpl; lia|simpl; lia|reflexivity|lia|simpl; lia
    |exact request2_plain|simpl; lia|exact E2|simpl; lia|].
  vm_compute. congruence.
Defined.

(** The NAT never fails: any sequence of packets that satisfies the assumptions
    on packets and clock runs to the end without an access outside of an array, a
    failed assertion or a loop that does not stop, and the flow table stays
    consistent. *)
Theorem nat_never_fails {M} `{!MapOps (ptr FlowId) FlowId M, !MapLaws (ptr FlowId) FlowId M}
    config n_devices c1 c2 c3 trace (manager : FlowManager M) ch t t_end :
  config_ok config n_devices → nat_inv n_devices manager ch → 0 <= t → dchain_high_fp ch <= t →
  trace_ok config n_devices (dchain_index_range_fp ch) (start_port (state manager)) t trace t_end →
  ∃ manager' ch', nat_run config c1 c2 c3 manager trace = Ok manager' ∧
    nat_inv n_devices manager' ch'.
Proof.
  intros Hcfg Hinv Ht Hh Hok.
  destruct (nat_run_spec config n_devices c1 c2 c3 Hcfg trace manager ch t t_end Hinv Ht Hh Hok)
    as (manager' & ch' & E & Hinv' & _). by exists manager', ch'.
Qed.

Lemma nat_never_fails_witness :
  ∃ manager' ch', nat_run small_config no_cksum3 no_cksum2 no_cksum3 small_nat
      [(request, 10); (request2, 20); (reply, 60); (request, 500); (reply, 501)] = Ok manager' ∧
    nat_inv 2 manager' ch'.
Proof.
  apply (nat_never_fails small_config 2 no_cksum3 no_cksum2 no_cksum3 _ small_nat
    (empty_dchain_fp 4 0) 0 600); [exact small_nat_config_ok|exact small_nat_ok|lia|simpl; lia|].
  unfold trace_ok, mbuf_ok. vm_compute. intuition congruence.
Defined.

(** [flow_manager_get_external] does not check that the destination port is one
    the NAT hands out: for a port at or above [start_port + max_flows] (or more
    than two below [start_port]) it reads outside of the array of cells. *)
Theorem nat_external_port_unchecked {M} `{!MapOps (ptr FlowId) FlowId M,
    !MapLaws (ptr FlowId) FlowId M} n_devices (manager : FlowManager M) ch external_port time :
  nat_inv n_devices manager ch →
  start_port (state manager) + dchain_index_range_fp ch <= external_port ∨
    external_port < start_port (state manager) - 2 →
  flow_manager_get_external manager external_port time = Err OutOfBounds.
Proof.
  intros [Hco _ _] Hp. unfold flow_manager_get_external, dchain_is_index_allocated,
    dchain_impl_is_index_allocated, INDEX_SHIFT, DCHAIN_RESERVED.
  pose proof (double_chainp_cells (co_chain _ _ _ _ Hco)) as Hl. unfold DCHAIN_RESERVED in Hl.
  rewrite rd_err by lia. done.
Qed.

Lemma nat_external_port_unchecked_witness :
  flow_manager_get_external small_nat 1004 10 = Err OutOfBounds.
Proof.
  apply (nat_external_port_unchecked 2 small_nat (empty_dchain_fp 4 0) 1004 10);
    [exact small_nat_ok|left; simpl; lia].
Defined.

(** [FlowId_hash] never overflows its [long long] accumulator on fields of
    their widths and returns the remainder of the polynomial in 31, a value that
    fits into a non-negative [int]. *)
Theorem FlowId_hash_exact id :
  0 <= src_port id < 2 ^ 16 → 0 <= dst_port id < 2 ^ 16 → 0 <= src_ip id < 2 ^ 32 →
  0 <= dst_ip id < 2 ^ 32 → 0 <= internal_device id < 2 ^ 16 → 0 <= protocol id < 2 ^ 8 →
  FlowId_hash id =
    (((((src_port id * 31 + dst_port id) * 31 + src_ip id) * 31 + dst_ip id) * 31 +
      internal_device id) * 31 + protocol id) mod INT_MAX ∧
  0 <= FlowId_hash id < INT_MAX.
Proof.
  intros H1 H2 H3 H4 H5 H6. unfold FlowId_hash. cbv zeta. rewrite Z.add_0_l.
  drop_i64.
  set (x := ((((_ + _) * 31 + _) * 31 + _) * 31 + _) * 31 + _).
  assert (0 <= x) by (unfold x; lia).
  rewrite Z.rem_mod_nonneg by (unfold INT_MAX; lia).
  pose proof (Z.mod_pos_bound x INT_MAX ltac:(unfold INT_MAX; lia)) as Hb.
  rewrite i32_id by (unfold INT_MAX in *; lia). done.
Qed.

Lemma FlowId_hash_exact_witness :
  FlowId_hash (mk_flowid 1 2 3 4 5 6) =
    (((((1 * 31 + 2) * 31 + 3) * 31 + 4) * 31 + 5) * 31 + 6) mod INT_MAX ∧
  0 <= FlowId_hash (mk_flowid 1 2 3 4 5 6) < INT_MAX.
Proof. apply (FlowId_hash_exact (mk_flowid 1 2 3 4 5 6)); simpl; lia. Defined.

Lemma nat_starts_empty_witness :
  (∃ manager h', nf_core_init (λ n, negb (n =? 5)%nat) zero_memory None small_config (mk_heap 0 []) =
       Ok (manager, h') ∧
     nat_inv 2 manager (empty_dchain_fp 4 0) ∧ flows manager (empty_dchain_fp 4 0) = [] ∧
     start_port (state manager) = 1000 ∧ expiration_time manager = 100) ∨
  (nf_core_init (λ n, negb (n =? 5)%nat) zero_memory None small_config (mk_heap 0 []) = Err Exit ∧
     ¬ ∀ n, negb (n =? 5)%nat = true).
Proof.
  apply (nat_starts_empty (λ n, negb (n =? 5)%nat) zero_memory small_config 2 (mk_heap 0 []));
    [apply zero_memory_ok|split; simpl; [constructor|by intros b ?%elem_of_nil]
    |exists 2; split; [lia|done]|simpl; lia].
Defined.
