(* ===== verification/Firewall.v ===== *)
(** * VigFW

    Models [vigfw/]: the flows of [fw-flow.c], the flow manager of
    [fw-flowmanager.c] and the packet handler of [fw.c]. Packets from inside
    create flows; packets from outside pass only if they belong to a flow. *)

From S2P Require Import Prelude.
From S2P Require Import Malloc.
From S2P Require Import DChainImpl.
From S2P Require Import DChain.
From S2P Require Import MapSpec.
From S2P Require Import Map.
From S2P Require Import Vector.
From S2P Require Import Coherence.
From S2P Require Import Fresh.
From S2P Require Import Expirator.
From S2P Require Import NfUtil.

(** ** Flows: [fw-flow.h], [fw-flow.c] *)
Record Flow := mk_flow {
  src_port : Z; dst_port : Z; src_ip : Z; dst_ip : Z; protocol : Z }.

#[global] Instance Flow_eq_dec : EqDecision Flow.
Proof. solve_decision. Defined.
#[global] Instance Flow_inhabited : Inhabited Flow := populate (mk_flow 0 0 0 0 0).
#[global] Program Instance Flow_countable : Countable Flow :=
  inj_countable' (λ f, (src_port f, dst_port f, src_ip f, dst_ip f, protocol f))
    (λ '(a, b, c, d, e), mk_flow a b c d e) _.
Next Obligation. by intros []. Qed.

Definition fw_flow_eq (id1 id2 : Flow) : bool :=
  (src_port id1 =? src_port id2) && (dst_port id1 =? dst_port id2) &&
  (src_ip id1 =? src_ip id2) && (dst_ip id1 =? dst_ip id2) && (protocol id1 =? protocol id2).

Definition INT_MAX : Z := 2 ^ 31 - 1.

Definition fw_flow_hash (id : Flow) : Z :=
  let hash := 0 in
  let hash := i64 (hash + src_port id) in
  let hash := i64 (hash * 31) in
  let hash := i64 (hash + dst_port id) in
  let hash := i64 (hash * 31) in
  let hash := i64 (hash + src_ip id) in
  let hash := i64 (hash * 31) in
  let hash := i64 (hash + dst_ip id) in
  let hash := i64 (hash * 31) in
  let hash := i64 (hash + protocol id) in
  let hash := Z.rem hash INT_MAX in
  i32 hash.

(** ** The flow manager: [fw-state.h], [fw-flowmanager.c] *)
Record State (M : Type) := mk_state {
  fm : M; fv : Vector Flow; heap : DoubleChain; max_flows : Z }.
Arguments mk_state {M} _ _ _ _.
Arguments fm {M} _.
Arguments fv {M} _.
Arguments heap {M} _.
Arguments max_flows {M} _.

Record FlowManager (M : Type) := mk_manager { state : State M; expiration_time : Z }.
Arguments mk_manager {M} _ _.
Arguments state {M} _.
Arguments expiration_time {M} _.

Record fw_config := mk_fw_config {
  lan_device : Z; wan_device : Z; capacity : Z; cfg_expiration_time : Z;
  device_macs : list (list Z); endpoint_macs : list (list Z) }.

Section ops.
Context {M : Type} `{!MapOps (ptr Flow) Flow M}.
Implicit Types (manager : FlowManager M) (id : Flow).

Definition upd manager (m : M) (v : Vector Flow) (h : DoubleChain) : FlowManager M :=
  mk_manager (mk_state m v h (max_flows (state manager))) (expiration_time manager).

Definition flow_manager_allocate_flow manager id (time : Z) : res (bool * FlowManager M) :=
  let st := state manager in
  '(ret, h, index) ← dchain_allocate_new_index (heap st) 0 time;
  if ret =? 0 then Ok (false, upd manager (fm st) (fv st) h)
  else
    key ← vector_borrow (fv st) index;
    v ← store (fv st) key id;
    m ← map_put (deref v) (fm st) key index;
    _ ← vector_return v index key;
    Ok (true, upd manager m v h).

Definition flow_manager_expire manager (time : Z) : res (FlowManager M) :=
  let st := state manager in
  _ ← c_assert (0 <=? time);
  let time_u := u64 time in
  let last_time := i64 (u64 (time_u - expiration_time manager)) in
  '(_, h, m) ← expire_items_single_map (heap st) (fv st) (fm st) last_time;
  Ok (upd manager m (fv st) h).

Definition flow_manager_get manager id (time : Z) : res (bool * FlowManager M) :=
  let st := state manager in
  r ← map_get (deref (fv st)) (fm st) (Local id);
  match r with
  | None => Ok (false, manager)
  | Some index =>
      '(_, h) ← dchain_rejuvenate_index (heap st) index time;
      Ok (true, upd manager (fm st) (fv st) h)
  end.

Section process.
Variable config : fw_config.

Definition fw_emit (m : mbuf) (ether_header dst_device : Z) : res (Z * mbuf) :=
  s_addr ← rd (device_macs config) dst_device;
  b ← st_bytes (buf m) (ether_header + ETHER_S_ADDR) s_addr;
  d_addr ← rd (endpoint_macs config) dst_device;
  b ← st_bytes b (ether_header + ETHER_D_ADDR) d_addr;
  Ok (dst_device, mk_mbuf (port m) (pkt_len m) b).

Definition nf_core_process manager (m : mbuf) (now : Z)
    : res (Z * mbuf * FlowManager M) :=
  let in_port := port m in
  manager ← flow_manager_expire manager now;
  let ether_header := nf_get_mbuf_ether_header m in
  ip ← nf_get_mbuf_ipv4_header m;
  match ip with
  | None => Ok (port m, m, manager)
  | Some ipv4_header =>
    tcpudp ← nf_get_ipv4_tcpudp_header (buf m) ipv4_header;
    match tcpudp with
    | None => Ok (port m, m, manager)
    | Some tcpudp_header =>
      sp ← ld16 (buf m) (tcpudp_header + TCPUDP_SRC_PORT);
      dp ← ld16 (buf m) (tcpudp_header + TCPUDP_DST_PORT);
      sa ← ld32 (buf m) (ipv4_header + IPV4_SRC_ADDR);
      da ← ld32 (buf m) (ipv4_header + IPV4_DST_ADDR);
      proto ← ld8 (buf m) (ipv4_header + IPV4_NEXT_PROTO_ID);
      if in_port =? wan_device config then
        (* Flip src and destination *)
        let id := mk_flow dp sp da sa proto in
        '(found, manager) ← flow_manager_get manager id now;
        if (found : bool) then
          let dst_device := lan_device config in
          '(dev, m) ← fw_emit m ether_header dst_device;
          Ok (dev, m, manager)
        else Ok (in_port, m, manager)
      else
        let id := mk_flow sp dp sa da proto in
        '(found, manager) ← flow_manager_get manager id now;
        '(ok, manager) ← (if (found : bool) then Ok (true, manager)
                          else flow_manager_allocate_flow manager id now);
        if (ok : bool) then
          let dst_device := wan_device config in
          '(dev, m) ← fw_emit m ether_header dst_device;
          Ok (dev, m, manager)
        else Ok (in_port, m, manager)
    end
  end.
End process.
End ops.

(** ** Initialisation: [fw-state.c], [flow_manager_allocate] and [nf_core_init] *)
Definition SIZEOF_FLOW : Z := 16.
Definition fw_flow_allocate (obj : Flow) : Flow := obj.

Section init.
Variables (ok : nat → bool) (mem : memory Flow).

(** [allocated_nf_state] is the global of that name; a new state becomes its value. *)
Definition alloc_state (allocated_nf_state : option (State (Map (ptr Flow) Flow)))
    (max_flows : Z) (h : Malloc.heap)
    : res (option (State (Map (ptr Flow) Flow)) * Malloc.heap) :=
  match allocated_nf_state with
  | Some st => Ok (Some st, h)
  | None =>
      malloc_or ok [] None (λ _,
        or_null (alloc_map ok mem fw_flow_eq fw_flow_hash max_flows) (λ fm,
        or_null (alloc_vector ok SIZEOF_FLOW max_flows fw_flow_allocate (elems mem max_flows)) (λ fv,
        or_null (alloc_chain ok mem max_flows) (λ heap h,
          Ok (Some (mk_state fm fv heap max_flows), h))))) h
  end.

Definition flow_manager_allocate allocated_nf_state (expiration_time max_flows : Z)
    (h : Malloc.heap) : res (option (FlowManager (Map (ptr Flow) Flow)) * Malloc.heap) :=
  malloc_or ok [] None (λ _,
    and_then (alloc_state allocated_nf_state (i32 max_flows)) (λ st h,
      Ok (Some (mk_manager st expiration_time), h))) h.

Definition nf_core_init allocated_nf_state (config : fw_config) (h : Malloc.heap)
    : res (FlowManager (Map (ptr Flow) Flow) * Malloc.heap) :=
  or_exit (flow_manager_allocate allocated_nf_state (cfg_expiration_time config)
    (capacity config)) h.
End init.

(** ** Abstract specification

    A list of flows with the time of their last packet, the oldest first. *)
Inductive pkt :=
| Other
| External (id : Flow)
| Internal (id : Flow).

(** A packet from outside is identified by the flow it answers. *)
Definition classify (config : fw_config) (m : mbuf) : pkt :=
  let b := buf m in
  if is_tcpudp b then
    let sp := w16 b (ports_at b + TCPUDP_SRC_PORT) in
    let dp := w16 b (ports_at b + TCPUDP_DST_PORT) in
    if port m =? wan_device config
    then External (mk_flow dp sp (w32 b 30) (w32 b 26) (getz b 23))
    else Internal (mk_flow sp dp (w32 b 26) (w32 b 30) (getz b 23))
  else Other.

Definition fw_state : Type := list (Flow * Z).

Fixpoint forget (id : Flow) (s : fw_state) : fw_state :=
  match s with
  | [] => []
  | e :: s' => if bool_decide (e.1 = id) then s' else e :: forget id s'
  end.

Definition known (id : Flow) (s : fw_state) : bool := bool_decide (id ∈ s.*1).

(** The new state, and whether the packet passes. *)
Definition fw_step (cap exp now : Z) (s : fw_state) (p : pkt) : fw_state * bool :=
  let s := List.filter (λ e, now - exp <=? e.2) s in
  match p with
  | Other => (s, false)
  | External id => if known id s then (forget id s ++ [(id, now)], true) else (s, false)
  | Internal id =>
      if known id s then (forget id s ++ [(id, now)], true)
      else if cap <=? zlen s then (s, false)
      else (s ++ [(id, now)], true)
  end.

(** ** Proofs *)
Lemma fw_flow_eq_spec id1 id2 : fw_flow_eq id1 id2 = true ↔ id1 = id2.
Proof.
  unfold fw_flow_eq. rewrite !andb_true_iff, !Z.eqb_eq.
  destruct id1, id2. simpl. naive_solver.
Qed.

Lemma forget_split id l1 t l2 : id ∉ l1.*1 → forget id (l1 ++ (id, t) :: l2) = l1 ++ l2.
Proof.
  induction l1 as [|e l1 IH]; simpl; intros Hn.
  - by rewrite bool_decide_eq_true_2.
  - rewrite bool_decide_eq_false_2 by set_solver. rewrite IH by set_solver. done.
Qed.

Section manager.
Context {M : Type} `{!MapOps (ptr Flow) Flow M, !MapLaws (ptr Flow) Flow M}.
Implicit Types (manager : FlowManager M) (id : Flow) (ch : dchain).

Definition fw_inv manager ch : Prop :=
  coherent (fm (state manager)) (fv (state manager)) (heap (state manager)) ch ∧
  0 <= expiration_time manager < 2 ^ 32.

(** The abstract state a manager stands for. *)
Definition abs manager ch : fw_state :=
  (λ e, (e.1.1, e.2)) <$> table_of (fv (state manager)) ch.

Lemma abs_known manager ch id :
  fw_inv manager ch →
  known id (abs manager ch) = bool_decide (is_Some (index_of (fv (state manager)) ch id)).
Proof.
  intros [Hco _]. unfold known, abs. rewrite <- list_fmap_compose.
  apply bool_decide_ext. apply (table_key Hco id).
Qed.

Lemma abs_touch manager ch id i time :
  fw_inv manager ch → index_of (fv (state manager)) ch id = Some i →
  (λ e, (e.1.1, e.2)) <$> table_of (fv (state manager)) (dchain_rejuvenate_fp ch i time) =
    forget id (abs manager ch) ++ [(id, time)].
Proof.
  intros [Hco _] Hi. apply (index_of_Some Hco) in Hi as [Hi Hk].
  destruct (table_lookup (v := fv (state manager)) i Hi) as (l1 & t & l2 & E1 & E2).
  unfold abs. rewrite E1, E2, Hk, !fmap_app, fmap_cons. simpl. f_equal.
  rewrite forget_split; [done|].
  pose proof (table_nodup_keys Hco) as Hnd. rewrite E1, fmap_app, fmap_cons in Hnd.
  apply NoDup_app in Hnd as (_ & Hd & _). rewrite Hk in Hd. simpl in Hd.
  rewrite <- list_fmap_compose. intros Hin. destruct (Hd id); [done|]. set_solver.
Qed.

Lemma fw_expire_spec manager ch time :
  fw_inv manager ch → 0 <= time < 2 ^ 63 →
  let ch' := dchain_expire_old_indexes_fp ch (time - expiration_time manager) in
  ∃ manager', flow_manager_expire manager time = Ok manager' ∧ fw_inv manager' ch' ∧
    expiration_time manager' = expiration_time manager ∧
    abs manager' ch' =
      List.filter (λ e, time - expiration_time manager <=? e.2) (abs manager ch).
Proof.
  intros [Hco Hexp] Ht ch'. unfold flow_manager_expire.
  rewrite (proj2 (Z.leb_le 0 time)) by lia. cbn [c_assert mbind res_bind].
  rewrite (u64_id time), i64_u64 by lia.
  destruct (expire_items_single_map_spec _ _ _ _ (time - expiration_time manager) Hco)
    as (h & m & -> & Hco'). cbn [mbind res_bind].
  eexists. split; [done|]. split; [done|]. split; [done|].
  unfold abs, ch'. simpl. rewrite (table_expire _ _ _ _ _ Hco).
  induction (table_of (fv (state manager)) ch) as [|e l IH]; [done|].
  rewrite fmap_cons. cbn [List.filter snd]. rewrite <- IH. by destruct (_ <=? e.2).
Qed.

Lemma flow_manager_get_spec manager ch id time :
  fw_inv manager ch → dchain_high_fp ch <= time →
  if known id (abs manager ch)
  then ∃ manager' ch', flow_manager_get manager id time = Ok (true, manager') ∧
    fw_inv manager' ch' ∧ expiration_time manager' = expiration_time manager ∧
    dchain_high_fp ch' = time ∧ dchain_index_range_fp ch' = dchain_index_range_fp ch ∧
    abs manager' ch' = forget id (abs manager ch) ++ [(id, time)]
  else flow_manager_get manager id time = Ok (false, manager) ∧
    index_of (fv (state manager)) ch id = None.
Proof.
  intros Hinv Ht. pose proof Hinv as [Hco Hexp].
  rewrite (abs_known _ _ _ Hinv). unfold flow_manager_get. rewrite (coherent_get Hco).
  cbn [mbind res_bind].
  destruct (index_of (fv (state manager)) ch id) as [i|] eqn:E.
  - rewrite bool_decide_eq_true_2 by done.
    pose proof E as E'. apply (index_of_Some Hco) in E as [Hi Hk].
    destruct (coherent_rejuvenate Hco i time Hi Ht) as (h & -> & Hco'). cbn [mbind res_bind].
    exists (upd manager (fm (state manager)) (fv (state manager)) h), (dchain_rejuvenate_fp ch i time).
    split; [done|]. split; [done|]. split; [done|]. split; [done|]. split; [done|].
    unfold abs at 1. simpl. by apply abs_touch.
  - rewrite bool_decide_eq_false_2 by by intros []. done.
Qed.

Lemma fw_allocate_flow_spec manager ch id time :
  fw_inv manager ch → dchain_high_fp ch <= time →
  index_of (fv (state manager)) ch id = None →
  if dchain_index_range_fp ch <=? zlen (abs manager ch)
  then flow_manager_allocate_flow manager id time = Ok (false, manager)
  else ∃ manager' ch', flow_manager_allocate_flow manager id time = Ok (true, manager') ∧
    fw_inv manager' ch' ∧ expiration_time manager' = expiration_time manager ∧
    dchain_high_fp ch' = time ∧ dchain_index_range_fp ch' = dchain_index_range_fp ch ∧
    abs manager' ch' = abs manager ch ++ [(id, time)].
Proof.
  intros [Hco Hexp] Ht Hk. unfold flow_manager_allocate_flow.
  pose proof (dchain_allocate_new_index_spec (co_chain _ _ _ _ Hco) 0 time Ht) as Ha.
  unfold dchain_out_of_space_fp in Ha.
  assert (Hlen : zlen (abs manager ch) = zlen (dchain_alist_fp ch)).
  { unfold abs, zlen, table_of. by rewrite !length_fmap. }
  rewrite Hlen. destruct (dchain_index_range_fp ch <=? zlen (dchain_alist_fp ch)).
  - rewrite Ha. simpl. by destruct manager as [[] ?].
  - destruct Ha as (i & h & -> & Hi & Hn & Hc). cbn [mbind res_bind Z.eqb].
    pose proof (co_vec _ _ _ _ Hco) as Hv.
    rewrite vector_borrow_ok by lia. cbn [mbind res_bind]. rewrite store_cell by lia.
    cbn [mbind res_bind].
    destruct (coherent_insert Hco id i time h Hk Hi Hn Hc) as (m & -> & Hco').
    cbn [mbind res_bind]. unfold vector_return. cbn [mbind res_bind].
    eexists _, (dchain_allocate_fp ch i time). split; [done|]. split; [done|]. split; [done|].
    split; [done|]. split; [done|].
    unfold abs at 1. simpl. rewrite (table_insert Hco) by done. by rewrite fmap_app.
Qed.
End manager.

Section handler.
Context {M : Type} `{!MapOps (ptr Flow) Flow M, !MapLaws (ptr Flow) Flow M}.
Implicit Types (manager : FlowManager M) (ch : dchain) (m : mbuf).
Variables (config : fw_config) (n_devices : Z).

Record config_ok : Prop := {
  co_wan : 0 <= wan_device config < n_devices;
  co_lan : 0 <= lan_device config < n_devices;
  co_dev : n_devices <= zlen (device_macs config);
  co_end : n_devices <= zlen (endpoint_macs config);
  co_dev6 : ∀ i, 0 <= i < n_devices → zlen (getz (device_macs config) i) = 6;
  co_end6 : ∀ i, 0 <= i < n_devices → zlen (getz (endpoint_macs config) i) = 6
}.
Hypothesis Hcfg : config_ok.

(** A passed packet keeps everything behind its ethernet addresses. *)
Lemma fw_emit_ok m dst :
  0 <= dst < n_devices → 52 <= zlen (buf m) →
  ∃ m', fw_emit config m 0 dst = Ok (dst, m') ∧ agree (λ i, 12 <= i) (buf m) (buf m').
Proof.
  intros Hd Hb. destruct Hcfg as [Hw Hl L1 L2 L3 L4]. unfold fw_emit, ETHER_S_ADDR, ETHER_D_ADDR.
  rewrite (rd_ok (device_macs config)), (rd_ok (endpoint_macs config)) by lia.
  cbn [mbind res_bind].
  destruct (st_bytes_step (λ i, 12 <= i) (buf m) (buf m) (0 + 6) (getz (device_macs config) dst))
    as (b1 & -> & A1 & _); [lia|rewrite L3 by done; lia|rewrite L3 by done; lia|done|].
  cbn [mbind res_bind].
  destruct (st_bytes_step (λ i, 12 <= i) (buf m) b1 (0 + 0) (getz (endpoint_macs config) dst))
    as (b2 & -> & A2 & _); [lia|rewrite L4 by done; lia|rewrite L4 by done; lia|done|].
  cbn [mbind res_bind]. eexists. split; [done|]. done.
Qed.

(** Where a packet goes: across if it passes, back to its device (that is,
    dropped) and unchanged if not. *)
Definition forwarded (pass : bool) m (dev : Z) (m' : mbuf) : Prop :=
  if pass then
    dev = (if port m =? wan_device config then lan_device config else wan_device config) ∧
    agree (λ i, 12 <= i) (buf m) (buf m')
  else dev = port m ∧ m' = m.

Lemma fw_process_spec manager ch m now :
  fw_inv manager ch → 52 <= zlen (buf m) → 0 <= now < 2 ^ 63 → dchain_high_fp ch <= now →
  ∃ dev m' manager' ch' pass,
    nf_core_process config manager m now = Ok (dev, m', manager') ∧
    fw_inv manager' ch' ∧ expiration_time manager' = expiration_time manager ∧
    dchain_high_fp ch' <= now ∧ dchain_index_range_fp ch' = dchain_index_range_fp ch ∧
    fw_step (dchain_index_range_fp ch) (expiration_time manager) now (abs manager ch)
      (classify config m) = (abs manager' ch', pass) ∧
    forwarded pass m dev m'.
Proof.
  intros Hinv Hm Hnow Hhigh. unfold nf_core_process, fw_step.
  destruct (fw_expire_spec manager ch now Hinv Hnow)
    as (mgr1 & -> & Hinv1 & Hexp & <-). cbn [mbind res_bind].
  set (ch1 := dchain_expire_old_indexes_fp ch _) in *. rewrite <- Hexp.
  assert (Hh1 : dchain_high_fp ch1 <= now) by done.
  change (dchain_index_range_fp ch) with (dchain_index_range_fp ch1).
  clearbody ch1. clear Hinv Hhigh Hexp manager ch.
  rewrite (parse_headers m _ (Ok (port m, m, mgr1))) by done. unfold classify, forwarded.
  destruct (is_tcpudp (buf m)); [|by exists (port m), m, mgr1, ch1, false].
  pose proof (land15_bound (getz (buf m) 14)) as Hi.
  rewrite !ld16_ok, !ld32_ok, ld8_ok by (unfold ports_at, TCPUDP_DST_PORT, TCPUDP_SRC_PORT,
    IPV4_SRC_ADDR, IPV4_DST_ADDR, IPV4_NEXT_PROTO_ID, SIZEOF_ETHER_HDR; lia).
  cbn [mbind res_bind]. unfold nf_get_mbuf_ether_header.
  destruct (port m =? wan_device config) eqn:Hport.
  - set (id := mk_flow _ _ _ _ _).
    pose proof (flow_manager_get_spec mgr1 ch1 id now Hinv1 Hh1) as Hget.
    change (mk_flow _ _ (w32 (buf m) 30) (w32 (buf m) 26) (getz (buf m) 23)) with id.
    destruct (known id (abs mgr1 ch1)).
    + destruct Hget as (mgr2 & ch2 & -> & Hinv2 & He & Hh2 & Hr & Ha). cbn [mbind res_bind].
      destruct (fw_emit_ok m (lan_device config)) as (m' & -> & HA); [apply Hcfg|done|].
      exists (lan_device config), m', mgr2, ch2, true. rewrite Ha.
      split; [done|]. split; [done|]. split; [done|]. split; [lia|]. done.
    + destruct Hget as [-> _]. by exists (port m), m, mgr1, ch1, false.
  - set (id := mk_flow _ _ _ _ _).
    pose proof (flow_manager_get_spec mgr1 ch1 id now Hinv1 Hh1) as Hget.
    change (mk_flow _ _ (w32 (buf m) 26) (w32 (buf m) 30) (getz (buf m) 23)) with id.
    destruct (fw_emit_ok m (wan_device config)) as (m' & Eemit & HA); [apply Hcfg|done|].
    destruct (known id (abs mgr1 ch1)).
    + destruct Hget as (mgr2 & ch2 & -> & Hinv2 & He & Hh2 & Hr & Ha). cbn [mbind res_bind].
      rewrite Eemit. exists (wan_device config), m', mgr2, ch2, true. rewrite Ha.
      split; [done|]. split; [done|]. split; [done|]. split; [lia|]. done.
    + destruct Hget as [-> Hnone]. cbn [mbind res_bind].
      pose proof (fw_allocate_flow_spec mgr1 ch1 id now Hinv1 Hh1 Hnone) as Hal.
      destruct (dchain_index_range_fp ch1 <=? zlen (abs mgr1 ch1)).
      * rewrite Hal. by exists (port m), m, mgr1, ch1, false.
      * destruct Hal as (mgr2 & ch2 & -> & Hinv2 & He & Hh2 & Hr & Ha). cbn [mbind res_bind].
        rewrite Eemit. exists (wan_device config), m', mgr2, ch2, true. rewrite Ha.
        split; [done|]. split; [done|]. split; [done|]. split; [lia|]. done.
Qed.

(** *** Runs *)
Fixpoint fw_run manager (trace : list (mbuf * Z)) : res (FlowManager M) :=
  match trace with
  | [] => Ok manager
  | (m, now) :: trace' =>
      '(_, _, manager) ← nf_core_process config manager m now;
      fw_run manager trace'
  end.

Fixpoint trace_ok (t : Z) (trace : list (mbuf * Z)) (t_end : Z) : Prop :=
  match trace with
  | [] => t <= t_end
  | (m, now) :: trace' => 52 <= zlen (buf m) ∧ t <= now < 2 ^ 63 ∧ trace_ok now trace' t_end
  end.
End handler.

(** *** What a step does to the set of known flows *)
Lemma forget_sub id s e : e ∈ forget id s → e ∈ s.
Proof.
  induction s as [|a s IH]; simpl; [done|]. destruct (bool_decide _); set_solver.
Qed.

Lemma forget_keeps id s e : e ∈ s → e.1 ≠ id → e ∈ forget id s.
Proof.
  induction s as [|a s IH]; simpl; intros He Hne; [done|].
  destruct (bool_decide (a.1 = id)) eqn:E; [apply bool_decide_eq_true in E|]; set_solver.
Qed.

(** Every entry was there before, or is the flow of this packet, which is new only
    if the packet comes from inside. *)
Lemma fw_step_origin cap exp now s p s' pass id t :
  fw_step cap exp now s p = (s', pass) → (id, t) ∈ s' →
  ((id, t) ∈ s ∧ now - exp <= t) ∨
  (t = now ∧ (p = Internal id ∨ p = External id ∧ ∃ t0, (id, t0) ∈ s)).
Proof.
  unfold fw_step. set (live := List.filter _ s).
  assert (Hlive : ∀ e, e ∈ live → e ∈ s ∧ now - exp <= e.2).
  { intros e He. unfold live in He. rewrite list_elem_of_In in *. apply filter_In in He as [? ?].
    split; [done|by apply Z.leb_le]. }
  assert (Hkn : ∀ x, known x live = true → ∃ t0, (x, t0) ∈ s).
  { intros x Hx. unfold known in Hx. apply bool_decide_eq_true in Hx.
    apply list_elem_of_fmap in Hx as ([k u] & -> & Hx). exists u. by apply Hlive in Hx as [? _]. }
  destruct p as [|id'|id'].
  - intros [= <- <-] Hin. left. by apply (Hlive (id, t)).
  - destruct (known id' live) eqn:Ek; intros [= <- <-] Hin.
    + apply elem_of_app in Hin as [Hin|Hin].
      * left. apply (Hlive (id, t)). by eapply forget_sub.
      * apply list_elem_of_singleton in Hin as [= -> ->]. right. split; [done|]. right. auto.
    + left. by apply (Hlive (id, t)).
  - destruct (known id' live) eqn:Ek; [|destruct (cap <=? zlen live)]; intros [= <- <-] Hin.
    + apply elem_of_app in Hin as [Hin|Hin].
      * left. apply (Hlive (id, t)). by eapply forget_sub.
      * apply list_elem_of_singleton in Hin as [= -> ->]. right. auto.
    + left. by apply (Hlive (id, t)).
    + apply elem_of_app in Hin as [Hin|Hin].
      * left. by apply (Hlive (id, t)).
      * apply list_elem_of_singleton in Hin as [= -> ->]. right. auto.
Qed.

(** A flow that has not expired is kept, with its time or a newer one. *)
Lemma fw_step_keeps cap exp now s p s' pass id t :
  fw_step cap exp now s p = (s', pass) → (id, t) ∈ s → t <= now <= t + exp →
  ∃ t', t <= t' ∧ (id, t') ∈ s'.
Proof.
  intros Hs Hin Ht. unfold fw_step in Hs. set (live := List.filter _ s) in Hs.
  assert (Hlive : (id, t) ∈ live).
  { unfold live. rewrite list_elem_of_In in *. apply filter_In. split; [done|]. simpl.
    apply Z.leb_le. lia. }
  assert (Htouch : ∀ x, ∃ t', t <= t' ∧ (id, t') ∈ forget x live ++ [(x, now)]).
  { intros x. destruct (decide (id = x)) as [->|Hne].
    - exists now. split; [lia|]. set_solver.
    - exists t. split; [lia|]. apply elem_of_app. left. by apply forget_keeps. }
  destruct p as [|x|x]; [|destruct (known x live)|destruct (known x live);
    [|destruct (cap <=? zlen live)]]; injection Hs as <- <-; try apply Htouch;
    exists t; (split; [lia|]); try done. apply elem_of_app. by left.
Qed.

Lemma known_live id s t exp now :
  (id, t) ∈ s → now - exp <= t → known id (List.filter (λ e, now - exp <=? e.2) s) = true.
Proof.
  intros Hin Ht. apply bool_decide_eq_true. apply list_elem_of_fmap. exists (id, t).
  split; [done|]. rewrite list_elem_of_In in *. apply filter_In. split; [done|]. by apply Z.leb_le.
Qed.

Section runs.
Context {M : Type} `{!MapOps (ptr Flow) Flow M, !MapLaws (ptr Flow) Flow M}.
Variables (config : fw_config) (n_devices : Z).
Hypothesis Hcfg : config_ok config n_devices.
Implicit Types (manager : FlowManager M) (ch : dchain).

(** [m] belongs to flow [id], in either direction. *)
Definition of_flow (id : Flow) (m : mbuf) : Prop :=
  classify config m = Internal id ∨ classify config m = External id.

(** Where the flows of the table come from: a packet from inside opened them, and
    their time is that of a packet of the flow. *)
Definition explained (trace : list (mbuf * Z)) (s : fw_state) : Prop :=
  ∀ id t, (id, t) ∈ s →
    (∃ m1 t1, (m1, t1) ∈ trace ∧ classify config m1 = Internal id) ∧
    (∃ m2, (m2, t) ∈ trace ∧ of_flow id m2).

Lemma explained_step past s s' cap exp m now pass :
  explained past s → fw_step cap exp now s (classify config m) = (s', pass) →
  explained (past ++ [(m, now)]) s'.
Proof.
  intros Hex Hstep id u Hin.
  destruct (fw_step_origin _ _ _ _ _ _ _ _ _ Hstep Hin) as [[Hold _]|[-> [Hi|[He (u0 & Hold)]]]].
  - destruct (Hex id u Hold) as [(m1 & t1 & ? & ?) (m2 & ? & ?)].
    split; [exists m1, t1|exists m2]; set_solver.
  - split; [exists m, now|exists m]; (split; [set_solver|]); [done|by left].
  - destruct (Hex id u0 Hold) as [(m1 & t1 & ? & ?) _].
    split; [exists m1, t1|exists m]; (split; [set_solver|]); [done|by right].
Qed.

(** A packet of a flow that is known was solicited. *)
Definition solicited (exp now : Z) (trace : list (mbuf * Z)) (id : Flow) : Prop :=
  (∃ m1 t1, (m1, t1) ∈ trace ∧ classify config m1 = Internal id) ∧
  (∃ m2 t2, (m2, t2) ∈ trace ∧ of_flow id m2 ∧ now - exp <= t2).

Lemma passed_solicited trace s s' cap exp now id :
  explained trace s → fw_step cap exp now s (External id) = (s', true) →
  solicited exp now trace id.
Proof.
  intros Hex Hstep. unfold fw_step in Hstep. set (live := List.filter _ _) in Hstep.
  destruct (known id live) eqn:Ek; [|done].
  apply bool_decide_eq_true, list_elem_of_fmap in Ek as ([k u] & -> & Hin).
  unfold live in Hin. rewrite list_elem_of_In in Hin. apply filter_In in Hin as [Hin Hu].
  apply list_elem_of_In in Hin. destruct (Hex _ _ Hin) as [Hopen (m2 & Hin2 & Hof)].
  split; [exact Hopen|]. exists m2, u. split; [done|]. split; [done|]. by apply Z.leb_le in Hu.
Qed.

Lemma fw_run_spec trace past manager ch t t_end :
  fw_inv manager ch → 0 <= t → dchain_high_fp ch <= t → trace_ok t trace t_end →
  ∃ manager' ch', fw_run config manager trace = Ok manager' ∧ fw_inv manager' ch' ∧
    expiration_time manager' = expiration_time manager ∧ dchain_high_fp ch' <= t_end ∧
    dchain_index_range_fp ch' = dchain_index_range_fp ch ∧ t <= t_end ∧
    (explained past (abs manager ch) → explained (past ++ trace) (abs manager' ch')) ∧
    ∀ id t0, (id, t0) ∈ abs manager ch → t0 <= t → t_end <= t0 + expiration_time manager →
      ∃ t1, t0 <= t1 ∧ (id, t1) ∈ abs manager' ch'.
Proof.
  revert past manager ch t. induction trace as [|[m now] trace IH];
    intros past manager ch t Hinv Ht Hh Hok.
  { simpl in *. exists manager, ch. split; [done|]. split; [done|]. split; [done|].
    split; [lia|]. split; [done|]. split; [done|]. rewrite app_nil_r. split; [done|].
    intros id t0 Hin _ _. by exists t0. }
  destruct Hok as (Hm & Hnow & Hok).
  destruct (fw_process_spec config n_devices Hcfg manager ch m now Hinv Hm ltac:(lia) ltac:(lia))
    as (dev & m' & mgr1 & ch1 & pass & E & Hinv1 & He1 & Hh1 & Hr1 & Hstep & _).
  cbn [fw_run]. rewrite E. cbn [mbind res_bind].
  destruct (IH (past ++ [(m, now)]) mgr1 ch1 now Hinv1 ltac:(lia) Hh1 Hok)
    as (mgr2 & ch2 & -> & Hinv2 & He2 & Hh2 & Hr2 & Hle & Hex2 & Hkeep).
  exists mgr2, ch2. split; [done|]. split; [done|]. split; [congruence|]. split; [done|].
  split; [congruence|]. split; [lia|]. split.
  { intros Hex. rewrite <- app_assoc in Hex2. apply Hex2. by eapply explained_step. }
  intros id t0 Hin Ht0 Hexp.
  destruct (fw_step_keeps _ _ _ _ _ _ _ id t0 Hstep Hin) as (t1 & Ht1 & Hin1); [lia|].
  destruct (decide (t1 <= now)) as [Hle1|Hgt].
  - destruct (Hkeep id t1 Hin1 Hle1) as (t2 & ? & ?); [lia|]. exists t2. split; [lia|done].
  - destruct (fw_step_origin _ _ _ _ _ _ _ _ _ Hstep Hin1) as [[Hold _]|[-> _]]; [|lia].
    exfalso. apply list_elem_of_fmap in Hold as ([[k j] u] & [= -> ->] & Hold).
    apply list_elem_of_fmap in Hold as ([j' u'] & [= -> -> ->] & Hold).
    pose proof (dcp_sorted _ _ (co_chain _ _ _ _ (proj1 Hinv))) as Hs.
    apply bnd_sorted_spec in Hs as [_ Hs]. rewrite Forall_fmap, Forall_forall in Hs.
    specialize (Hs _ Hold). simpl in Hs. lia.
Qed.
End runs.

(** ** The claims *)
Section claims.
Context {M : Type} `{!MapOps (ptr Flow) Flow M, !MapLaws (ptr Flow) Flow M}.
Variables (config : fw_config) (n_devices : Z).
Implicit Types (manager : FlowManager M) (ch : dchain).

(** C12: The packet handler of the firewall implements [fw_step]: on every packet
    it returns, its flow table afterwards is the one the specification computes,
    and the packet is forwarded to the other side exactly if the specification
    lets it pass, with nothing but its ethernet addresses changed; otherwise it
    goes back unchanged. *)
Theorem fw_refines manager ch m now :
  config_ok config n_devices → fw_inv manager ch → 52 <= zlen (buf m) →
  0 <= now < 2 ^ 63 → dchain_high_fp ch <= now →
  ∃ dev m' manager' ch' pass,
    nf_core_process config manager m now = Ok (dev, m', manager') ∧
    fw_inv manager' ch' ∧ expiration_time manager' = expiration_time manager ∧
    dchain_high_fp ch' <= now ∧ dchain_index_range_fp ch' = dchain_index_range_fp ch ∧
    fw_step (dchain_index_range_fp ch) (expiration_time manager) now (abs manager ch)
      (classify config m) = (abs manager' ch', pass) ∧
    forwarded config pass m dev m'.
Proof. intros Hcfg. by apply (fw_process_spec config n_devices Hcfg). Qed.

(** C3: Nothing unsolicited gets in. If a firewall that started without flows
    forwards a packet from outside, then an earlier packet from inside opened
    the flow this packet answers, and a packet of the flow (in one direction or
    the other) was seen within the expiration time. *)
Theorem fw_blocks_unsolicited manager ch trace manager1 m now dev m' manager2 t id :
  config_ok config n_devices → fw_inv manager ch → abs manager ch = [] →
  0 <= t → dchain_high_fp ch <= t → trace_ok t trace now →
  fw_run config manager trace = Ok manager1 →
  52 <= zlen (buf m) → now < 2 ^ 63 → classify config m = External id →
  nf_core_process config manager1 m now = Ok (dev, m', manager2) → dev ≠ port m →
  (∃ m1 t1, (m1, t1) ∈ trace ∧ classify config m1 = Internal id) ∧
  (∃ m2 t2, (m2, t2) ∈ trace ∧ of_flow config id m2 ∧ now - expiration_time manager <= t2).
Proof.
  intros Hcfg Hinv H0 Ht Hh Hok Erun Hm Hnow Hcl E Hdev.
  destruct (fw_run_spec config n_devices Hcfg trace [] manager ch t now Hinv Ht Hh Hok)
    as (mgr & ch1 & E1 & Hinv1 & He1 & Hh1 & Hr1 & Hle & Hex & _).
  specialize (Hex ltac:(intros id' u Hin; rewrite H0 in Hin; by apply elem_of_nil in Hin)).
  rewrite Erun in E1. injection E1 as <-.
  destruct (fw_process_spec config n_devices Hcfg manager1 ch1 m now Hinv1 Hm)
    as (dev1 & m1 & mgr2 & ch2 & pass & E2 & _ & _ & _ & _ & Hstep & Hfw); [lia|lia|].
  rewrite E in E2. injection E2 as <- <- <-. rewrite Hcl, He1 in Hstep.
  destruct pass; [|by destruct Hfw as [? _]]. exact (passed_solicited _ _ _ _ _ _ _ _ Hex Hstep).
Qed.

(** C22: Replies get in. After the firewall has forwarded a packet from inside at
    [t1], a packet from outside that answers its flow and arrives within the
    expiration time is forwarded to the inside with its contents unchanged,
    whatever packets came in between. *)
Theorem fw_admits_replies manager ch m1 t1 dev1 m1' manager1 trace manager2 m2 t2 id :
  config_ok config n_devices → fw_inv manager ch → 0 <= t1 < 2 ^ 63 → dchain_high_fp ch <= t1 →
  52 <= zlen (buf m1) → classify config m1 = Internal id →
  nf_core_process config manager m1 t1 = Ok (dev1, m1', manager1) → dev1 ≠ port m1 →
  trace_ok t1 trace t2 → fw_run config manager1 trace = Ok manager2 →
  52 <= zlen (buf m2) → t2 < 2 ^ 63 → t2 <= t1 + expiration_time manager →
  classify config m2 = External id →
  ∃ m2' manager3, nf_core_process config manager2 m2 t2 = Ok (lan_device config, m2', manager3) ∧
    agree (λ i, 12 <= i) (buf m2) (buf m2').
Proof.
  intros Hcfg Hinv Ht1 Hh Hm1 Hcl1 E1 Hd1 Hok Erun Hm2 Ht2 Hexp Hcl2.
  destruct (fw_process_spec config n_devices Hcfg manager ch m1 t1 Hinv Hm1 Ht1 Hh)
    as (dev & m' & mgr & cha & pass & E & Hinv1 & He1 & Hh1 & Hr1 & Hstep & Hfw).
  rewrite E1 in E. injection E as <- <- <-. rewrite Hcl1 in Hstep.
  assert (Hin : (id, t1) ∈ abs manager1 cha).
  { unfold fw_step in Hstep. set (live := List.filter _ _) in Hstep.
    destruct (known id live); [|destruct (_ <=? zlen live)]; injection Hstep as <- <-.
    - set_solver.
    - by destruct Hfw as [? _].
    - set_solver. }
  destruct (fw_run_spec config n_devices Hcfg trace [] manager1 cha t1 t2 Hinv1)
    as (mgr & ch2 & E & Hinv2 & He2 & Hh2 & Hr2 & Hle & _ & Hkeep); [lia|done|done|].
  rewrite Erun in E. injection E as <-.
  destruct (Hkeep id t1 Hin) as (t' & Ht' & Hin'); [lia|lia|].
  destruct (fw_process_spec config n_devices Hcfg manager2 ch2 m2 t2 Hinv2 Hm2)
    as (dev2 & m2' & mgr3 & ch3 & pass2 & E3 & _ & _ & _ & _ & Hstep2 & Hfw2); [lia|lia|].
  rewrite Hcl2 in Hstep2. unfold fw_step in Hstep2.
  rewrite (known_live _ _ _ _ _ Hin') in Hstep2 by lia. injection Hstep2 as _ <-.
  unfold classify in Hcl2. destruct (is_tcpudp (buf m2)); [|done].
  destruct Hfw2 as [Hdev Hagree].
  destruct (port m2 =? wan_device config); [|done]. subst dev2. eauto.
Qed.
End claims.

(** ** The start *)
Lemma fw_alloc_state_spec ok mem max_flows h :
  memory_ok mem → heap_wf h → (∃ n, 0 <= n ∧ max_flows = 2 ^ n) → vector_fits SIZEOF_FLOW max_flows →
  initialises ok (λ st, coherent (fm st) (fv st) (heap st) (empty_dchain_fp max_flows 0))
    (alloc_state ok mem None max_flows h).
Proof.
  intros Hmem Hwf Hp Hfit. assert (0 < max_flows) by (destruct Hp as (n & Hn & ->); lia).
  apply malloc_or_null_spec; [done|]. intros _ h1 Hwf1.
  eapply or_null_spec; [by apply (alloc_map_spec ok mem Hmem _ _ _ (λ _, inhabitant)), fw_flow_eq_spec|].
  intros map h2 Hmap Hwf2.
  eapply or_null_spec; [apply alloc_vector_spec; try done; [lia|apply Hmem; lia]|].
  intros v h3 Hv Hwf3.
  eapply or_null_spec; [by apply alloc_chain_spec|]. intros chain h4 Hc Hwf4.
  apply initialises_done. eapply allocated_coherent; [exact Hmap|exact Hv|exact Hc].
Qed.

(** The firewall starts without flows: if the capacity is a power of two,
    [nf_core_init] either sets up a consistent empty flow table, whatever the
    contents of the memory it gets, or some request for memory fails and it
    exits. *)
Theorem fw_starts_empty ok mem config h :
  memory_ok mem → heap_wf h → (∃ n, 0 <= n <= 27 ∧ capacity config = 2 ^ n) →
  0 <= cfg_expiration_time config < 2 ^ 32 →
  (∃ manager h', nf_core_init ok mem None config h = Ok (manager, h') ∧
     fw_inv manager (empty_dchain_fp (capacity config) 0) ∧
     abs manager (empty_dchain_fp (capacity config) 0) = [] ∧
     expiration_time manager = cfg_expiration_time config) ∨
  (nf_core_init ok mem None config h = Err Exit ∧ ¬ ∀ n, ok n = true).
Proof.
  intros Hmem Hwf (n & Hn & Hp) He.
  assert (Hc : i32 (capacity config) = capacity config) by (rewrite Hp; apply i32_pow2; lia).
  assert (Hfit : vector_fits SIZEOF_FLOW (capacity config)) by (rewrite Hp; by apply (vector_fits_pow2 _ n 27)).
  unfold nf_core_init. apply or_exit_spec with (Q := λ manager,
    fw_inv manager (empty_dchain_fp (capacity config) 0) ∧
    abs manager (empty_dchain_fp (capacity config) 0) = [] ∧
    expiration_time manager = cfg_expiration_time config).
  apply malloc_or_null_spec; [done|]. intros _ h1 Hwf1. rewrite Hc.
  eapply and_then_spec; [apply fw_alloc_state_spec; [done|done|exists n; split; [lia|done]|done]|].
  intros st h2 Hst. apply initialises_done. split; [split; [exact Hst|done]|done].
Qed.

(** ** A small firewall

    Two devices, 0 inside and 1 outside, four flows; UDP packets of 60 bytes. It
    shows that the hypotheses of the claims can hold. *)
Definition small_config : fw_config :=
  let macs := [replicate 6 1; replicate 6 2] in mk_fw_config 0 1 4 100 macs macs.
Definition small_fw : FlowManager (Map (ptr Flow) Flow) :=
  mk_manager (mk_state (fresh_map 4 fw_flow_eq fw_flow_hash) (fresh_vector 4) (fresh_chain 4) 4) 100.
Definition small_packet (dev : Z) (ports src dst : list Z) : mbuf :=
  mk_mbuf dev 60 (replicate 12 0 ++ [8; 0; 69; 0; 0; 46; 0] ++ ports ++ [17; 0; 0] ++ src ++ dst ++
                  replicate 26 0).
Definition request : mbuf := small_packet 0 [1; 2; 3; 4] [10; 0; 0; 1] [8; 8; 8; 8].
Definition reply : mbuf := small_packet 1 [3; 4; 1; 2] [8; 8; 8; 8] [10; 0; 0; 1].
Definition small_process := nf_core_process small_config (M := Map (ptr Flow) Flow).
Definition small_flow : Flow :=
  match classify small_config request with Internal id => id | _ => inhabitant end.

Lemma small_fw_config_ok : config_ok small_config 2.
Proof.
  split; try done; intros i Hi; assert (i = 0 ∨ i = 1) as [-> | ->] by lia; done.
Qed.

Lemma small_fw_ok : fw_inv small_fw (empty_dchain_fp 4 0).
Proof.
  split; [|done].
  apply (fresh_coherent 4 fw_flow_eq fw_flow_hash 2); [lia|done|apply fw_flow_eq_spec].
Qed.

(** The small firewall lets the request out and its reply in. *)
Lemma small_exchange :
  ∃ m1' manager1 m2' manager2,
    small_process small_fw request 10 = Ok (1, m1', manager1) ∧
    small_process manager1 reply 60 = Ok (0, m2', manager2).
Proof.
  assert (E : ('(d, _, mgr) ← small_process small_fw request 10;
    '(d2, _, _) ← small_process mgr reply 60; Ok (d, d2)) = Ok (1, 0)) by by vm_compute.
  apply res_bind_Ok in E as ([[d m1'] mgr1] & E1 & E).
  apply res_bind_Ok in E as ([[d2 m2'] mgr3] & E2 & E). injection E as -> ->.
  exists m1', mgr1, m2', mgr3. split; [exact E1|exact E2].
Qed.

Lemma fw_refines_witness :
  ∃ dev m' manager' ch' pass,
    small_process small_fw request 10 = Ok (dev, m', manager') ∧
    fw_inv manager' ch' ∧ expiration_time manager' = 100 ∧
    dchain_high_fp ch' <= 10 ∧ dchain_index_range_fp ch' = 4 ∧
    fw_step 4 100 10 (abs small_fw (empty_dchain_fp 4 0)) (classify small_config request) =
      (abs manager' ch', pass) ∧
    forwarded small_config pass request dev m'.
Proof.
  apply (fw_refines small_config 2 small_fw (empty_dchain_fp 4 0));
    [exact small_fw_config_ok|exact small_fw_ok|done|lia|done].
Defined.

Lemma fw_blocks_unsolicited_witness :
  (∃ m1 t1, (m1, t1) ∈ [(request, 10)] ∧ classify small_config m1 = Internal small_flow) ∧
  (∃ m2 t2, (m2, t2) ∈ [(request, 10)] ∧ of_flow small_config small_flow m2 ∧ 60 - 100 <= t2).
Proof.
  destruct small_exchange as (m1' & manager1 & m2' & manager2 & E1 & E2).
  apply (fw_blocks_unsolicited small_config 2 small_fw (empty_dchain_fp 4 0) [(request, 10)]
    manager1 reply 60 0 m2' manager2 0 small_flow);
    [exact small_fw_config_ok|exact small_fw_ok|done|lia|simpl; lia
    |split; [done|split; [lia|simpl; lia]]| |done|lia|done|exact E2|simpl; lia].
  unfold small_process in E1. cbn [fw_run]. rewrite E1. reflexivity.
Defined.

Lemma fw_admits_replies_witness :
  ∃ m1' manager1 m2' manager3,
    small_process small_fw request 10 = Ok (1, m1', manager1) ∧
    small_process manager1 reply 60 = Ok (0, m2', manager3) ∧
    agree (λ i, 12 <= i) (buf reply) (buf m2').
Proof.
  destruct small_exchange as (m1' & manager1 & _ & _ & E & _).
  destruct (fw_admits_replies small_config 2 small_fw (empty_dchain_fp 4 0) request 10 1 m1'
    manager1 [] manager1 reply 60 small_flow) as (m2' & manager3 & E2 & Ha);
    [exact small_fw_config_ok|exact small_fw_ok|lia|simpl; lia|done|done|exact E|simpl; lia
    |simpl; lia|reflexivity|done|lia|simpl; lia|done|].
  exists m1', manager1, m2', manager3. split; [exact E|]. split; [exact E2|exact Ha].
Defined.

Lemma fw_starts_empty_witness :
  (∃ manager h', nf_core_init (λ n, negb (n =? 5)%nat) zero_memory None small_config (mk_heap 0 []) =
       Ok (manager, h') ∧
     fw_inv manager (empty_dchain_fp 4 0) ∧ abs manager (empty_dchain_fp 4 0) = [] ∧
     expiration_time manager = 100) ∨
  (nf_core_init (λ n, negb (n =? 5)%nat) zero_memory None small_config (mk_heap 0 []) = Err Exit ∧
     ¬ ∀ n, negb (n =? 5)%nat = true).
Proof.
  apply (fw_starts_empty (λ n, negb (n =? 5)%nat) zero_memory small_config (mk_heap 0 []));
    [apply zero_memory_ok|split; simpl; [constructor|by intros b ?%elem_of_nil]
    |exists 2; split; [lia|done]|simpl; lia].
Defined.
