(* ===== verification/Bridge.v ===== *)
(** * The learning bridge

    Models [bridge/bridge_data.c] and the dynamic part of
    [bridge/bridge_forward.c] (the source compiles the static filtering table out
    with [NO_STATIC_MAPPING]). The bridge learns which device a source address
    was seen on, and sends a frame to the device of its destination address, or
    to all devices. *)

From S2P Require Import Prelude.
From S2P Require Import Malloc.
From S2P Require Import DChainImpl.
From S2P Require Import DChain.
From S2P Require Import MapSpec.
From S2P Require Import Map.
From S2P Require Import Vector.
From S2P Require Import Coherence.
From S2P Require Import Fresh.
From S2P Require Import Expirator.
From S2P Require Import NfUtil.

(** ** Addresses *)
Definition ether_addr_eq (a b : ether_addr) : bool := bool_decide (a = b).

(** [( *(uint32_t* )addr) ^ ( *(uint32_t* )((char* )addr + 2))], as an [int]. *)
Definition ether_addr_hash (addr : ether_addr) : Z :=
  i32 (Z.lxor (w32 addr 0) (w32 addr 2)).

(** [static_key_hash]: shifted left by two, xor the device. *)
Record StaticKey := mk_static_key { sk_addr : ether_addr; sk_device : Z }.
Definition static_key_eq (a b : StaticKey) : bool :=
  (sk_device a =? sk_device b) && ether_addr_eq (sk_addr a) (sk_addr b).
Definition static_key_hash (k : StaticKey) : Z :=
  Z.lxor (i32 (Z.shiftl (ether_addr_hash (sk_addr k)) 2)) (sk_device k).

Record DynamicValue := mk_dynval { device : Z }.
#[global] Instance DynamicValue_inhabited : Inhabited DynamicValue := populate (mk_dynval 0).

Record DynamicFilterTable (M : Type) := mk_dft {
  map : M; heap : DoubleChain; keys : Vector ether_addr; values : Vector DynamicValue }.
Arguments mk_dft {M} _ _ _ _.
Arguments map {M} _.
Arguments heap {M} _.
Arguments keys {M} _.
Arguments values {M} _.

Section ops.
Context {M : Type} `{!MapOps (ptr ether_addr) ether_addr M}.
Variable expiration_time : Z.
Implicit Types (ft : DynamicFilterTable M).

Definition bridge_expire_entries ft (time : Z) : res (Z * DynamicFilterTable M) :=
  _ ← c_assert (0 <=? time);
  let time_u := u64 time in
  let min_time_u := u64 (time_u - expiration_time) in
  let min_time := i64 min_time_u in
  '(count, h, m) ← expire_items_single_map (heap ft) (keys ft) (map ft) min_time;
  Ok (count, mk_dft m h (keys ft) (values ft)).

Definition bridge_get_device ft (dst : ether_addr) (src_device : Z) : res Z :=
  r ← map_get (deref (keys ft)) (map ft) (Local dst);
  match r with
  | Some index =>
      value ← vector_borrow (values ft) index;
      v ← load (values ft) value;
      _ ← vector_return (values ft) index value;
      Ok (device v)
  | None => Ok (-1)
  end.

Definition bridge_put_update_entry ft (src : ether_addr) (src_device time : Z)
    : res (DynamicFilterTable M) :=
  r ← map_get (deref (keys ft)) (map ft) (Local src);
  match r with
  | Some index =>
      '(_, h) ← dchain_rejuvenate_index (heap ft) index time;
      Ok (mk_dft (map ft) h (keys ft) (values ft))
  | None =>
      '(allocated, h, index) ← dchain_allocate_new_index (heap ft) (-1) time;
      if allocated =? 0 then Ok (mk_dft (map ft) h (keys ft) (values ft))
      else
        key ← vector_borrow (keys ft) index;
        value ← vector_borrow (values ft) index;
        ks ← store (keys ft) key src;
        vs ← store (values ft) value (mk_dynval src_device);
        m ← map_put (deref ks) (map ft) key index;
        _ ← vector_return ks index key;
        _ ← vector_return vs index value;
        Ok (mk_dft m h ks vs)
  end.

(** Returns the device to send to and the table; the frame is not changed. *)
Definition nf_core_process ft (m : mbuf) (now : Z) : res (Z * DynamicFilterTable M) :=
  let ether_header := nf_get_mbuf_ether_header m in
  '(_, ft) ← bridge_expire_entries ft now;
  s_addr ← ld_addr (buf m) (ether_header + ETHER_S_ADDR);
  ft ← bridge_put_update_entry ft s_addr (port m) now;
  d_addr ← ld_addr (buf m) (ether_header + ETHER_D_ADDR);
  dst_device ← bridge_get_device ft d_addr (port m);
  if dst_device =? -1 then Ok (FLOOD_FRAME, ft)
  else if dst_device =? -2 then Ok (port m, ft)
  else Ok (dst_device, ft).
End ops.

(** ** Initialisation: [nf_core_init]

    [values0] is the fresh contents of the vector of values. *)
Section init.
Variables (ok : nat → bool) (mem : memory ether_addr) (values0 : Z → list DynamicValue).

Definition init_nothing_ea (entry : ether_addr) : ether_addr := entry.
Definition init_nothing_dv (entry : DynamicValue) : DynamicValue := entry.

Definition nf_core_init (dyn_capacity : Z) (h : Malloc.heap)
    : res (DynamicFilterTable (Map (ptr ether_addr) ether_addr) * Malloc.heap) :=
  let capacity := i32 dyn_capacity in
  or_exit (
    or_null (alloc_map ok mem ether_addr_eq ether_addr_hash capacity) (λ map,
    or_null (alloc_vector ok 6 capacity init_nothing_ea (elems mem capacity)) (λ keys,
    or_null (alloc_vector ok 2 capacity init_nothing_dv (values0 capacity)) (λ values,
    or_null (alloc_chain ok mem capacity) (λ heap h,
      Ok (Some (mk_dft map heap keys values), h)))))) h.
End init.

(** ** Abstract specification: (address, device, time of last frame), the oldest first *)
Definition bridge_state : Type := list (ether_addr * Z * Z).

Fixpoint bridge_lookup (a : ether_addr) (s : bridge_state) : option Z :=
  match s with
  | [] => None
  | (a', dev, _) :: s' => if bool_decide (a' = a) then Some dev else bridge_lookup a s'
  end.

Fixpoint bridge_remove (a : ether_addr) (s : bridge_state) : bridge_state :=
  match s with
  | [] => []
  | e :: s' => if bool_decide (e.1.1 = a) then s' else e :: bridge_remove a s'
  end.

(** The device an address was first seen on is kept for as long as the address
    is known. *)
Definition bridge_learn (cap now : Z) (src : ether_addr) (dev : Z) (s : bridge_state) : bridge_state :=
  match bridge_lookup src s with
  | Some dev' => bridge_remove src s ++ [(src, dev', now)]
  | None => if cap <=? zlen s then s else s ++ [(src, dev, now)]
  end.

Definition bridge_step (cap exp now : Z) (src dst : ether_addr) (dev : Z) (s : bridge_state)
    : bridge_state * Z :=
  let s := List.filter (λ e, now - exp <=? e.2) s in
  let s := bridge_learn cap now src dev s in
  (s, default FLOOD_FRAME (bridge_lookup dst s)).

(** ** Proofs *)
Section proofs.
Context {M : Type} `{!MapOps (ptr ether_addr) ether_addr M, !MapLaws (ptr ether_addr) ether_addr M}.
Variable exp : Z.
Hypothesis Hexp : 0 <= exp < 2 ^ 32.
Implicit Types (ft : DynamicFilterTable M) (ch : dchain).

Record bridge_inv ft ch : Prop := {
  bi_co : coherent (map ft) (keys ft) (heap ft) ch;
  bi_vals : zlen (data (values ft)) = dchain_index_range_fp ch;
  bi_dev : ∀ i, i ∈ dchain_indexes_fp ch → 0 <= device (getz (data (values ft)) i)
}.

Definition with_dev (vs : Vector DynamicValue) (e : ether_addr * Z * Z) : ether_addr * Z * Z :=
  (e.1.1, device (getz (data vs) e.1.2), e.2).

Definition abs ft ch : bridge_state := with_dev (values ft) <$> table_of (keys ft) ch.

Lemma lookup_split a l1 dev t l2 :
  a ∉ (λ e, e.1.1) <$> l1 →
  bridge_lookup a (l1 ++ (a, dev, t) :: l2) = Some dev ∧
  bridge_remove a (l1 ++ (a, dev, t) :: l2) = l1 ++ l2.
Proof.
  induction l1 as [|[[b x] y] l1 IH]; simpl; intros Hn.
  - by rewrite bool_decide_eq_true_2.
  - rewrite bool_decide_eq_false_2 by set_solver.
    destruct IH as [-> ->]; [set_solver|]. done.
Qed.

Lemma lookup_None a (s : bridge_state) : a ∉ (λ e, e.1.1) <$> s → bridge_lookup a s = None.
Proof.
  induction s as [|[[b x] y] s IH]; simpl; intros Hn; [done|].
  rewrite bool_decide_eq_false_2 by set_solver. apply IH. set_solver.
Qed.

Lemma abs_keys ft ch : (λ e, e.1.1) <$> abs ft ch = (λ e, e.1.1) <$> table_of (keys ft) ch.
Proof. unfold abs. by rewrite <- list_fmap_compose. Qed.

(** What the map answers is what the abstract table says. *)
Lemma abs_lookup ft ch a :
  bridge_inv ft ch →
  match index_of (keys ft) ch a with
  | Some i => bridge_lookup a (abs ft ch) = Some (device (getz (data (values ft)) i)) ∧
      ∀ now, with_dev (values ft) <$> table_of (keys ft) (dchain_rejuvenate_fp ch i now) =
        bridge_remove a (abs ft ch) ++ [(a, device (getz (data (values ft)) i), now)]
  | None => bridge_lookup a (abs ft ch) = None
  end.
Proof.
  intros [Hco Hv Hd]. destruct (index_of (keys ft) ch a) as [i|] eqn:E.
  - apply (index_of_Some Hco) in E as [Hi Hk].
    destruct (table_lookup (v := keys ft) i Hi) as (l1 & t & l2 & E1 & E2).
    pose proof (table_nodup_keys Hco) as Hnd.
    rewrite E1, fmap_app, fmap_cons in Hnd. apply NoDup_app in Hnd as (_ & Hdis & _).
    unfold abs. rewrite E1, Hk in *. rewrite fmap_app, fmap_cons.
    destruct (lookup_split a (with_dev (values ft) <$> l1) (device (getz (data (values ft)) i)) t
      (with_dev (values ft) <$> l2)) as [L1 L2].
    { rewrite <- list_fmap_compose. intros Hin. apply (Hdis a); [done|]. simpl. set_solver. }
    split; [exact L1|]. intros now. rewrite E2, !fmap_app.
    change (with_dev (values ft) (a, i, t)) with (a, device (getz (data (values ft)) i), t).
    by rewrite L2.
  - apply lookup_None. rewrite abs_keys, (table_key Hco), E. by intros [].
Qed.

Lemma bridge_expire_entries_spec ft ch now :
  bridge_inv ft ch → 0 <= now < 2 ^ 63 →
  let ch' := dchain_expire_old_indexes_fp ch (now - exp) in
  ∃ n ft', bridge_expire_entries exp ft now = Ok (n, ft') ∧ bridge_inv ft' ch' ∧
    abs ft' ch' = List.filter (λ e, now - exp <=? e.2) (abs ft ch).
Proof.
  intros [Hco Hv Hd] Ht ch'. unfold bridge_expire_entries.
  rewrite (proj2 (Z.leb_le 0 now)) by lia. cbn [c_assert mbind res_bind].
  rewrite (u64_id now), i64_u64 by lia.
  destruct (expire_items_single_map_spec _ _ _ _ (now - exp) Hco) as (h & m & -> & Hco').
  cbn [mbind res_bind]. do 2 eexists. split; [done|]. split.
  - split; [done|done|]. intros i Hi. apply Hd. by eapply expire_indexes.
  - unfold abs, ch'. simpl. rewrite (table_expire _ _ _ _ _ Hco).
    induction (table_of (keys ft) ch) as [|e l IH]; [done|].
    rewrite fmap_cons. cbn [List.filter snd with_dev]. rewrite <- IH. by destruct (_ <=? e.2).
Qed.

Lemma bridge_put_update_entry_spec ft ch src dev now :
  bridge_inv ft ch → dchain_high_fp ch <= now → 0 <= dev →
  ∃ ft' ch', bridge_put_update_entry ft src dev now = Ok ft' ∧ bridge_inv ft' ch' ∧
    dchain_high_fp ch' <= now ∧ dchain_index_range_fp ch' = dchain_index_range_fp ch ∧
    abs ft' ch' = bridge_learn (dchain_index_range_fp ch) now src dev (abs ft ch).
Proof.
  intros Hinv Ht Hdev. pose proof Hinv as [Hco Hv Hd]. unfold bridge_put_update_entry, bridge_learn.
  rewrite (coherent_get Hco). cbn [mbind res_bind].
  pose proof (abs_lookup ft ch src Hinv) as Hl.
  destruct (index_of (keys ft) ch src) as [i|] eqn:E.
  - destruct Hl as [-> Hl]. apply (index_of_Some Hco) in E as [Hi Hk].
    destruct (coherent_rejuvenate Hco i now Hi Ht) as (h & -> & Hco'). cbn [mbind res_bind].
    eexists _, (dchain_rejuvenate_fp ch i now). split; [done|]. split.
    { split; [done|done|]. intros j Hj. apply Hd. by eapply rejuvenate_indexes. }
    split; [done|]. split; [done|]. unfold abs at 1. simpl. by rewrite Hl.
  - rewrite Hl.
    pose proof (dchain_allocate_new_index_spec (co_chain _ _ _ _ Hco) (-1) now Ht) as Ha.
    unfold dchain_out_of_space_fp in Ha.
    assert (Hlen : zlen (abs ft ch) = zlen (dchain_alist_fp ch)).
    { unfold abs, zlen, table_of. by rewrite !length_fmap. }
    rewrite Hlen. destruct (dchain_index_range_fp ch <=? zlen (dchain_alist_fp ch)).
    + rewrite Ha. cbn [mbind res_bind Z.eqb]. exists ft, ch. destruct ft. done.
    + destruct Ha as (i & h & -> & Hi & Hn & Hc). cbn [mbind res_bind Z.eqb].
      pose proof (co_vec _ _ _ _ Hco) as Hkv.
      rewrite !vector_borrow_ok by lia. cbn [mbind res_bind]. rewrite !store_cell by lia.
      cbn [mbind res_bind].
      destruct (coherent_insert Hco src i now h E Hi Hn Hc) as (m & -> & Hco').
      cbn [mbind res_bind]. unfold vector_return. cbn [mbind res_bind].
      eexists _, (dchain_allocate_fp ch i now). split; [done|].
      assert (Hother : ∀ j, j ∈ dchain_indexes_fp ch → i ≠ j).
      { intros j Hj ->. apply dchain_allocated_spec in Hj. congruence. }
      split.
      { split; [done|by simpl; rewrite zlen_setz|]. simpl. intros j.
        unfold dchain_indexes_fp. simpl. rewrite fmap_app, elem_of_app. intros [Hj|Hj].
        - pose proof (co_range Hco j Hj). rewrite getz_setz_ne; [by apply Hd| |lia|lia].
          by apply Hother.
        - apply list_elem_of_singleton in Hj as ->. simpl. by rewrite getz_setz_eq by lia. }
      split; [done|]. split; [done|]. unfold abs at 1. simpl.
      rewrite (table_insert Hco) by done. rewrite fmap_app. unfold abs. f_equal.
      * apply list_fmap_ext. intros n [[k j] t] Hj%list_elem_of_lookup_2. unfold with_dev. simpl.
        assert (Hjx : j ∈ dchain_indexes_fp ch).
        { apply (table_index (v := keys ft)). apply list_elem_of_fmap. by exists (k, j, t). }
        pose proof (co_range Hco j Hjx). rewrite getz_setz_ne; [done| |lia|lia].
        by apply Hother.
      * unfold with_dev. simpl. by rewrite getz_setz_eq by lia.
Qed.

Lemma bridge_get_device_spec ft ch dst dev :
  bridge_inv ft ch → bridge_get_device ft dst dev = Ok (default (-1) (bridge_lookup dst (abs ft ch))) ∧
  ∀ d, bridge_lookup dst (abs ft ch) = Some d → 0 <= d.
Proof.
  intros Hinv. pose proof Hinv as [Hco Hv Hd]. unfold bridge_get_device.
  rewrite (coherent_get Hco). cbn [mbind res_bind].
  pose proof (abs_lookup ft ch dst Hinv) as Hl.
  destruct (index_of (keys ft) ch dst) as [i|] eqn:E.
  - destruct Hl as [-> _]. apply (index_of_Some Hco) in E as [Hi Hk].
    pose proof (co_range Hco i Hi). rewrite vector_borrow_ok by lia. cbn [mbind res_bind].
    rewrite load_cell by lia. cbn [mbind res_bind]. unfold vector_return.
    split; [done|]. intros d [= <-]. by apply Hd.
  - rewrite Hl. done.
Qed.

Lemma bridge_process_spec ft ch m now :
  bridge_inv ft ch → 12 <= zlen (buf m) → 0 <= port m → 0 <= now < 2 ^ 63 →
  dchain_high_fp ch <= now →
  ∃ dev ft' ch', nf_core_process exp ft m now = Ok (dev, ft') ∧ bridge_inv ft' ch' ∧
    dchain_high_fp ch' <= now ∧ dchain_index_range_fp ch' = dchain_index_range_fp ch ∧
    bridge_step (dchain_index_range_fp ch) exp now (addr_at (buf m) 6) (addr_at (buf m) 0)
      (port m) (abs ft ch) = (abs ft' ch', dev).
Proof.
  intros Hinv Hb Hp Hnow Hh. unfold nf_core_process, bridge_step.
  destruct (bridge_expire_entries_spec ft ch now Hinv Hnow) as (n & ft1 & -> & Hinv1 & <-).
  set (ch1 := dchain_expire_old_indexes_fp ch _) in *. cbn [mbind res_bind].
  unfold nf_get_mbuf_ether_header, ETHER_S_ADDR, ETHER_D_ADDR. rewrite !ld_addr_ok by lia.
  cbn [mbind res_bind].
  destruct (bridge_put_update_entry_spec ft1 ch1 (addr_at (buf m) 6) (port m) now Hinv1 Hh Hp)
    as (ft2 & ch2 & E & Hinv2 & Hh2 & Hr2 & Ha).
  change (0 + 6) with 6. change (0 + 0) with 0. rewrite E. cbn [mbind res_bind].
  destruct (bridge_get_device_spec ft2 ch2 (addr_at (buf m) 0) (port m) Hinv2) as [-> Hpos].
  cbn [mbind res_bind]. change (dchain_index_range_fp ch) with (dchain_index_range_fp ch1).
  rewrite <- Ha. destruct (bridge_lookup (addr_at (buf m) 0) (abs ft2 ch2)) as [d|]; simpl.
  - specialize (Hpos d eq_refl). rewrite !(proj2 (Z.eqb_neq _ _)) by lia.
    exists d, ft2, ch2. done.
  - exists FLOOD_FRAME, ft2, ch2. done.
Qed.
End proofs.

(** *** What a step does to the table *)
Lemma bridge_remove_sub a s e : e ∈ bridge_remove a s → e ∈ s.
Proof.
  induction s as [|x s IH]; simpl; [done|]. destruct (bool_decide _); set_solver.
Qed.

Lemma bridge_lookup_in a s d : bridge_lookup a s = Some d → ∃ t, (a, d, t) ∈ s.
Proof.
  induction s as [|[[b x] y] s IH]; simpl; [done|].
  destruct (bool_decide (b = a)) eqn:E; [apply bool_decide_eq_true in E|].
  - intros [= ->]. exists y. subst. set_solver.
  - intros [t Hin]%IH. exists t. set_solver.
Qed.

(** An entry of the new table was there before and has not expired, or is that of
    the sender: with the device of the frame, or the device already known. *)
Lemma bridge_step_origin cap exp now src dst dev s s' out a d t :
  bridge_step cap exp now src dst dev s = (s', out) → (a, d, t) ∈ s' →
  ((a, d, t) ∈ s ∧ now - exp <= t) ∨
  (a = src ∧ t = now ∧ (d = dev ∨ ∃ t0, (a, d, t0) ∈ s ∧ now - exp <= t0)).
Proof.
  unfold bridge_step. set (live := List.filter _ s).
  assert (Hlive : ∀ e, e ∈ live → e ∈ s ∧ now - exp <= e.2).
  { intros e He. unfold live in He. rewrite list_elem_of_In in *. apply filter_In in He as [? ?].
    split; [done|by apply Z.leb_le]. }
  clearbody live. intros [= <- _]. unfold bridge_learn.
  destruct (bridge_lookup src live) as [d'|] eqn:El; [|destruct (cap <=? zlen live)].
  - intros [Hin|Hin]%elem_of_app.
    + left. by apply (Hlive (a, d, t)), (bridge_remove_sub src).
    + apply list_elem_of_singleton in Hin as [= -> -> ->]. right. split; [done|]. split; [done|].
      right. apply bridge_lookup_in in El as [t0 Hin]. exists t0. by apply (Hlive (src, d', t0)).
  - intros Hin. left. by apply (Hlive (a, d, t)).
  - intros [Hin|Hin]%elem_of_app.
    + left. by apply (Hlive (a, d, t)).
    + apply list_elem_of_singleton in Hin as [= -> -> ->]. right. auto.
Qed.

Section runs.
Context {M : Type} `{!MapOps (ptr ether_addr) ether_addr M, !MapLaws (ptr ether_addr) ether_addr M}.
Variable exp : Z.
Hypothesis Hexp : 0 <= exp < 2 ^ 32.
Implicit Types (ft : DynamicFilterTable M) (ch : dchain) (trace : list (mbuf * Z)).

Fixpoint bridge_run ft trace : res (DynamicFilterTable M) :=
  match trace with
  | [] => Ok ft
  | (m, now) :: trace' =>
      '(_, ft) ← nf_core_process exp ft m now;
      bridge_run ft trace'
  end.

Fixpoint trace_ok (t : Z) trace (t_end : Z) : Prop :=
  match trace with
  | [] => t <= t_end
  | (m, now) :: trace' =>
      12 <= zlen (buf m) ∧ 0 <= port m ∧ t <= now < 2 ^ 63 ∧ trace_ok now trace' t_end
  end.

(** Every entry comes from frames with its address as the source: one that came
    in on its device, and one at the time of the entry. *)
Definition learned trace (s : bridge_state) : Prop :=
  ∀ a d t, (a, d, t) ∈ s →
    (∃ m t0, (m, t0) ∈ trace ∧ addr_at (buf m) 6 = a ∧ port m = d) ∧
    (∃ m, (m, t) ∈ trace ∧ addr_at (buf m) 6 = a).

Lemma learned_step past s s' m now cap out :
  learned past s →
  bridge_step cap exp now (addr_at (buf m) 6) (addr_at (buf m) 0) (port m) s = (s', out) →
  learned (past ++ [(m, now)]) s'.
Proof.
  intros Hl Hs a d t Hin.
  destruct (bridge_step_origin _ _ _ _ _ _ _ _ _ _ _ _ Hs Hin)
    as [[Hold _]|(-> & -> & [->|(t0 & Hold & _)])].
  - destruct (Hl _ _ _ Hold) as [(m1 & t1 & ? & ?) (m2 & ? & ?)].
    split; [exists m1, t1|exists m2]; (split; [apply elem_of_app; by left|done]).
  - split; [exists m, now|exists m]; (split; [apply elem_of_app; right; by left|done]).
  - destruct (Hl _ _ _ Hold) as [(m1 & t1 & ? & ?) _].
    split; [exists m1, t1|exists m].
    + split; [apply elem_of_app; by left|done].
    + split; [apply elem_of_app; right; by left|done].
Qed.

Lemma bridge_run_spec trace past ft ch t t_end :
  bridge_inv ft ch → 0 <= t → dchain_high_fp ch <= t → trace_ok t trace t_end →
  learned past (abs ft ch) →
  ∃ ft' ch', bridge_run ft trace = Ok ft' ∧ bridge_inv ft' ch' ∧
    dchain_high_fp ch' <= t_end ∧ t <= t_end ∧ learned (past ++ trace) (abs ft' ch').
Proof.
  revert past ft ch t. induction trace as [|[m now] trace IH]; intros past ft ch t Hinv Ht Hh Hok Hl.
  { simpl in *. exists ft, ch. rewrite app_nil_r. split; [done|]. split; [done|]. split; [lia|done]. }
  destruct Hok as (Hm & Hp & Hnow & Hok).
  destruct (bridge_process_spec exp Hexp ft ch m now Hinv Hm Hp ltac:(lia) ltac:(lia))
    as (dev & ft1 & ch1 & E & Hinv1 & Hh1 & _ & Hstep).
  cbn [bridge_run]. rewrite E. cbn [mbind res_bind].
  destruct (IH (past ++ [(m, now)]) ft1 ch1 now Hinv1 ltac:(lia) Hh1 Hok)
    as (ft2 & ch2 & -> & Hinv2 & Hh2 & Hle & Hl2); [by eapply learned_step|].
  exists ft2, ch2. rewrite <- app_assoc in Hl2. split; [done|]. split; [done|].
  split; [done|]. split; [lia|done].
Qed.
End runs.

(** ** The claims *)
Section claims.
Context {M : Type} `{!MapOps (ptr ether_addr) ether_addr M, !MapLaws (ptr ether_addr) ether_addr M}.
Implicit Types (ft : DynamicFilterTable M) (ch : dchain).

(** C18: The bridge implements [bridge_step]: on every frame it returns, its table
    afterwards is the one the specification computes, and it sends the frame to
    the device the specification names, or floods it. *)
Theorem bridge_refines exp ft ch m now :
  0 <= exp < 2 ^ 32 → bridge_inv ft ch → 12 <= zlen (buf m) → 0 <= port m →
  0 <= now < 2 ^ 63 → dchain_high_fp ch <= now →
  ∃ dev ft' ch', nf_core_process exp ft m now = Ok (dev, ft') ∧ bridge_inv ft' ch' ∧
    dchain_high_fp ch' <= now ∧ dchain_index_range_fp ch' = dchain_index_range_fp ch ∧
    bridge_step (dchain_index_range_fp ch) exp now (addr_at (buf m) 6) (addr_at (buf m) 0)
      (port m) (abs ft ch) = (abs ft' ch', dev).
Proof. intros. by apply bridge_process_spec. Qed.

(** The bridge sends a frame to a single device only if it has learned that
    the destination is there: if a bridge that started without entries does not
    flood a frame, then a frame whose source is this frame's destination came in
    on that device (earlier, or it is this frame), and some frame from that
    source came in within the expiration time. *)
Theorem bridge_sends_where_learned exp ft ch trace ft1 m now dev ft2 t :
  0 <= exp < 2 ^ 32 → bridge_inv ft ch → abs ft ch = [] → 0 <= t → dchain_high_fp ch <= t →
  trace_ok t trace now → bridge_run exp ft trace = Ok ft1 →
  12 <= zlen (buf m) → 0 <= port m → now < 2 ^ 63 →
  nf_core_process exp ft1 m now = Ok (dev, ft2) → dev ≠ FLOOD_FRAME →
  (∃ m1 t1, (m1, t1) ∈ trace ++ [(m, now)] ∧ addr_at (buf m1) 6 = addr_at (buf m) 0 ∧
    port m1 = dev) ∧
  (∃ m2 t2, (m2, t2) ∈ trace ++ [(m, now)] ∧ addr_at (buf m2) 6 = addr_at (buf m) 0 ∧
    now - exp <= t2).
Proof.
  intros Hexp Hinv H0 Ht Hh Hok Erun Hm Hp Hnow E Hdev.
  destruct (bridge_run_spec exp Hexp trace [] ft ch t now Hinv Ht Hh Hok)
    as (ft' & ch1 & E1 & Hinv1 & Hh1 & Hle & Hl).
  { intros a d u Hin. rewrite H0 in Hin. by apply elem_of_nil in Hin. }
  rewrite Erun in E1. injection E1 as <-.
  destruct (bridge_process_spec exp Hexp ft1 ch1 m now Hinv1 Hm Hp ltac:(lia) Hh1)
    as (dev' & ft' & ch2 & E2 & _ & _ & _ & Hstep).
  rewrite E in E2. injection E2 as <- <-.
  pose proof (learned_step _ _ _ _ _ _ _ _ Hl Hstep) as Hl2. simpl in Hl2.
  unfold bridge_step in Hstep. injection Hstep as Hs Hout. rewrite Hs in Hout.
  destruct (bridge_lookup (addr_at (buf m) 0) (abs ft2 ch2)) as [d|] eqn:El; [|done].
  simpl in Hout. subst d. apply bridge_lookup_in in El as [u Hin].
  destruct (Hl2 _ _ _ Hin) as [Hfrom (m2 & Hin2 & Ha2)]. split; [exact Hfrom|].
  exists m2, u. split; [done|]. split; [done|].
  destruct (bridge_step_origin (dchain_index_range_fp ch1) exp now (addr_at (buf m) 6)
    (addr_at (buf m) 0) (port m) (abs ft1 ch1) (abs ft2 ch2)
    (default FLOOD_FRAME (bridge_lookup (addr_at (buf m) 0) (abs ft2 ch2)))
    (addr_at (buf m) 0) dev u) as [[_ ?]|(_ & -> & _)]; [|done|done|lia].
  unfold bridge_step. by rewrite Hs.
Qed.
End claims.

(** ** The start *)
Lemma bridge_starts_empty ok mem values0 cap h :
  memory_ok mem → (∀ n, 0 <= n → zlen (values0 n) = n) → heap_wf h →
  (∃ n, 0 <= n <= 28 ∧ cap = 2 ^ n) →
  (∃ ft h', nf_core_init ok mem values0 cap h = Ok (ft, h') ∧
     bridge_inv ft (empty_dchain_fp cap 0) ∧ abs ft (empty_dchain_fp cap 0) = []) ∨
  (nf_core_init ok mem values0 cap h = Err Exit ∧ ¬ ∀ n, ok n = true).
Proof.
  intros Hmem Hvals Hwf (n & Hn & Hp).
  assert (Hc : i32 cap = cap) by (rewrite Hp; apply i32_pow2; lia).
  assert (Hpos : 0 < cap) by (rewrite Hp; apply Z.pow_pos_nonneg; lia).
  unfold nf_core_init. rewrite Hc. apply or_exit_spec with (Q := λ ft,
    bridge_inv ft (empty_dchain_fp cap 0) ∧ abs ft (empty_dchain_fp cap 0) = []).
  eapply or_null_spec; [apply (alloc_map_spec ok mem Hmem _ _ _ (λ _, inhabitant)); [done| |]|].
  { exists n. split; [lia|done]. }
  { intros k1 k2. apply bool_decide_eq_true. }
  intros map0 h2 Hmap Hwf2.
  eapply or_null_spec; [apply alloc_vector_spec; try done;
    [apply _|rewrite Hp; by apply (vector_fits_pow2 _ n 28)|lia|apply Hmem; lia]|].
  intros ks h3 Hks Hwf3.
  eapply or_null_spec; [apply alloc_vector_spec; try done;
    [rewrite Hp; by apply (vector_fits_pow2 _ n 28)|lia|apply Hvals; lia]|].
  intros vs h4 Hvs Hwf4.
  eapply or_null_spec; [by apply alloc_chain_spec|]. intros chain h5 Hch Hwf5.
  apply initialises_done. split; [|done]. split; [|exact Hvs|by intros i ?%elem_of_nil].
  eapply allocated_coherent; [exact Hmap|exact Hks|exact Hch].
Qed.

(** ** A small bridge: four addresses, frames of 60 bytes *)
Definition small_bridge : DynamicFilterTable (Map (ptr ether_addr) ether_addr) :=
  mk_dft (fresh_map 4 ether_addr_eq ether_addr_hash) (fresh_chain 4) (fresh_vector 4)
    (fresh_vector 4).
Definition frame (dev src dst : Z) : mbuf :=
  mk_mbuf dev 60 (replicate 6 dst ++ replicate 6 src ++ replicate 48 0).
Definition small_process := nf_core_process 100 (M := Map (ptr ether_addr) ether_addr).

Lemma small_bridge_ok : bridge_inv small_bridge (empty_dchain_fp 4 0).
Proof.
  split; [|done|by intros i ?%elem_of_nil].
  apply (fresh_coherent 4 ether_addr_eq ether_addr_hash 2); [lia|done|].
  intros k1 k2. apply bool_decide_eq_true.
Qed.

(** The frame to 1 goes to device 3, where a frame from 1 came in. *)
Lemma small_learning :
  ∃ dev ft1 ft2, small_process small_bridge (frame 3 1 2) 10 = Ok (dev, ft1) ∧
    small_process ft1 (frame 5 2 1) 60 = Ok (3, ft2).
Proof.
  assert (E : ('(d, ft) ← small_process small_bridge (frame 3 1 2) 10;
    '(d2, _) ← small_process ft (frame 5 2 1) 60; Ok d2) = Ok 3) by by vm_compute.
  apply res_bind_Ok in E as ([d ft1] & E1 & E).
  apply res_bind_Ok in E as ([d2 ft2] & E2 & E). injection E as ->.
  exists d, ft1, ft2. split; [exact E1|exact E2].
Qed.

Lemma bridge_refines_witness :
  ∃ dev ft' ch', small_process small_bridge (frame 3 1 2) 10 = Ok (dev, ft') ∧ bridge_inv ft' ch' ∧
    dchain_high_fp ch' <= 10 ∧ dchain_index_range_fp ch' = 4 ∧
    bridge_step 4 100 10 (replicate 6 1) (replicate 6 2) 3
      (abs small_bridge (empty_dchain_fp 4 0)) = (abs ft' ch', dev).
Proof.
  apply (bridge_refines 100 small_bridge (empty_dchain_fp 4 0) (frame 3 1 2) 10);
    [lia|exact small_bridge_ok|done|done|lia|done].
Defined.

Lemma bridge_sends_where_learned_witness :
  (∃ m1 t1, (m1, t1) ∈ [(frame 3 1 2, 10); (frame 5 2 1, 60)] ∧
    addr_at (buf m1) 6 = addr_at (buf (frame 5 2 1)) 0 ∧ port m1 = 3) ∧
  (∃ m2 t2, (m2, t2) ∈ [(frame 3 1 2, 10); (frame 5 2 1, 60)] ∧
    addr_at (buf m2) 6 = addr_at (buf (frame 5 2 1)) 0 ∧ 60 - 100 <= t2).
Proof.
  destruct small_learning as (dev & ft1 & ft2 & E1 & E2).
  apply (bridge_sends_where_learned 100 small_bridge (empty_dchain_fp 4 0) [(frame 3 1 2, 10)] ft1
    (frame 5 2 1) 60 3 ft2 0);
    [lia|exact small_bridge_ok|done|lia|simpl; lia
    |split; [done|split; [done|split; [lia|simpl; lia]]]| |done|done|lia|exact E2|done].
  unfold small_process in E1. cbn [bridge_run]. rewrite E1. reflexivity.
Defined.
