(* ===== verification/Policer.v ===== *)
(** * The traffic policer

    Models [vigpol/]: a token bucket per destination address. [policer_flow.c]
    has the keys and buckets, [policer_state.h] the containers and
    [policer_main.c] the handler. *)

From S2P Require Import Prelude.
From S2P Require Import Malloc.
From S2P Require Import DChainImpl.
From S2P Require Import DChain.
From S2P Require Import MapSpec.
From S2P Require Import Map.
From S2P Require Import Vector.
From S2P Require Import Coherence.
From S2P Require Import Fresh.
From S2P Require Import Expirator.
From S2P Require Import NfUtil.

(** ** Keys and buckets: [policer_flow.h], [policer_flow.c] *)
Record Bucket := mk_bucket { bucket_size : Z; bucket_time : Z }.
#[global] Instance Bucket_inhabited : Inhabited Bucket := populate (mk_bucket 0 0).

Definition INT_MAX : Z := 2 ^ 31 - 1.

Definition policer_flow_eq (ip1 ip2 : Z) : bool := ip1 =? ip2.

Definition policer_flow_hash (ip : Z) : Z :=
  let hash := 0 in
  let hash := i64 (hash + ip) in
  let hash := i64 (hash * 31) in
  let hash := Z.rem hash INT_MAX in
  i32 hash.

(** ** State and configuration *)
Record State (M : Type) := mk_state {
  fm : M; fk : Vector Z; fv : Vector Bucket; heap : DoubleChain; max_flows : Z }.
Arguments mk_state {M} _ _ _ _ _.
Arguments fm {M} _.
Arguments fk {M} _.
Arguments fv {M} _.
Arguments heap {M} _.
Arguments max_flows {M} _.

Record policer_config := mk_policer_config {
  lan_device : Z; wan_device : Z; rate : Z; burst : Z; dyn_capacity : Z;
  device_macs : list (list Z); endpoint_macs : list (list Z) }.

Definition VIGOR_TIME_SECONDS_MULTIPLIER : Z := 1000000000.

(** Refilling a bucket: the [if] on [time_diff], then the new time. *)
Definition refill (config : policer_config) (value : Bucket) (time_u : Z) : Bucket :=
  let time_diff := u64 (time_u - bucket_time value) in
  let size :=
    if time_diff <? u64 (burst config * VIGOR_TIME_SECONDS_MULTIPLIER) / rate config then
      let added_tokens := u64 (time_diff * rate config) / VIGOR_TIME_SECONDS_MULTIPLIER in
      let size := u64 (bucket_size value + added_tokens) in
      if burst config <? size then burst config else size
    else burst config in
  mk_bucket size (i64 time_u).

(** Taking the tokens of a packet, if the bucket has more than that. *)
Definition take (value : Bucket) (size : Z) : bool * Bucket :=
  if size <? bucket_size value
  then (true, mk_bucket (u64 (bucket_size value - size)) (bucket_time value))
  else (false, value).

Section ops.
Context {M : Type} `{!MapOps (ptr Z) Z M}.
Variable config : policer_config.
Implicit Types (flowtable : State M).

(** The key pointer that the expiration loop takes from the vector it is given,
    [fv]: it points to a bucket, and what the map reads through it as a
    [uint32_t] are the low bytes of [bucket_size]. *)
Definition borrow_bucket_as_key (v : Vector Bucket) (index : Z) : res (ptr Z) :=
  p ← vector_borrow v index;
  b ← load v p;
  Ok (Local (u32 (bucket_size b))).

Definition policer_expire_entries flowtable (time : Z) : res (Z * State M) :=
  _ ← c_assert (0 <=? time);
  let time_u := u64 time in
  let last_time := i64 (u64 (time_u - burst config / rate config)) in
  '(count, h, m) ← expire_loop (S (length (timestamps (heap flowtable))))
    (borrow_bucket_as_key (fv flowtable)) (deref (fk flowtable))
    (heap flowtable) (fm flowtable) (-1) 0 last_time;
  Ok (count, mk_state m (fk flowtable) (fv flowtable) h (max_flows flowtable)).

Definition policer_check_tb flowtable (dst size time : Z) : res (bool * State M) :=
  present ← map_get (deref (fk flowtable)) (fm flowtable) (Local dst);
  match present with
  | Some index =>
      '(_, h) ← dchain_rejuvenate_index (heap flowtable) index time;
      p ← vector_borrow (fv flowtable) index;
      _ ← c_assert (0 <=? time);
      value ← load (fv flowtable) p;
      let time_u := u64 time in
      _ ← c_assert (0 <=? bucket_time value);
      let '(fwd, value) := take (refill config value time_u) size in
      vs ← store (fv flowtable) p value;
      _ ← vector_return vs index p;
      Ok (fwd, mk_state (fm flowtable) (fk flowtable) vs h (max_flows flowtable))
  | None =>
      if burst config <? size then Ok (false, flowtable)
      else
        '(allocated, h, index) ← dchain_allocate_new_index (heap flowtable) (-1) time;
        if allocated =? 0 then
          Ok (false, mk_state (fm flowtable) (fk flowtable) (fv flowtable) h (max_flows flowtable))
        else
          key ← vector_borrow (fk flowtable) index;
          value ← vector_borrow (fv flowtable) index;
          ks ← store (fk flowtable) key dst;
          vs ← store (fv flowtable) value (mk_bucket (u64 (burst config - size)) time);
          m ← map_put (deref ks) (fm flowtable) key index;
          _ ← vector_return ks index key;
          _ ← vector_return vs index value;
          Ok (true, mk_state m ks vs h (max_flows flowtable))
  end.

(** Returns the device to send to and the state; packets are not changed. *)
Definition nf_core_process flowtable (m : mbuf) (now : Z) : res (Z * State M) :=
  let in_port := port m in
  ip ← nf_get_mbuf_ipv4_header m;
  match ip with
  | None => Ok (port m, flowtable)
  | Some ipv4_header =>
      '(_, flowtable) ← policer_expire_entries flowtable now;
      if in_port =? lan_device config then Ok (wan_device config, flowtable)
      else if in_port =? wan_device config then
        dst_addr ← ld32 (buf m) (ipv4_header + IPV4_DST_ADDR);
        '(fwd, flowtable) ← policer_check_tb flowtable dst_addr (u16 (pkt_len m)) now;
        if (fwd : bool) then Ok (lan_device config, flowtable)
        else Ok (wan_device config, flowtable)
      else Ok (in_port, flowtable)
  end.
End ops.

(** ** Initialisation: [policer_state.c] and [nf_core_init] *)
Definition SIZEOF_BUCKET : Z := 16.
Definition policer_flow_allocate {A} (obj : A) : A := obj.

Section init.
(** [buckets0] is the fresh contents of the second vector. *)
Variables (ok : nat → bool) (mem : memory Z) (buckets0 : Z → list Bucket).

(** [allocated_nf_state] is the global of that name; a new state becomes its
    value. Both vectors are allocated with elements of the size of a bucket. *)
Definition alloc_state (allocated_nf_state : option (State (Map (ptr Z) Z)))
    (max_flows : Z) (h : Malloc.heap) : res (option (State (Map (ptr Z) Z)) * Malloc.heap) :=
  match allocated_nf_state with
  | Some st => Ok (Some st, h)
  | None =>
      malloc_or ok [] None (λ _,
        or_null (alloc_map ok mem policer_flow_eq policer_flow_hash max_flows) (λ fm,
        or_null (alloc_vector ok SIZEOF_BUCKET max_flows policer_flow_allocate (elems mem max_flows)) (λ fk,
        or_null (alloc_vector ok SIZEOF_BUCKET max_flows policer_flow_allocate (buckets0 max_flows)) (λ fv,
        or_null (alloc_chain ok mem max_flows) (λ heap h,
          Ok (Some (mk_state fm fk fv heap max_flows), h)))))) h
  end.

Definition nf_core_init allocated_nf_state (config : policer_config) (h : Malloc.heap)
    : res (State (Map (ptr Z) Z) * Malloc.heap) :=
  or_exit (alloc_state allocated_nf_state (i32 (dyn_capacity config))) h.
End init.

(** ** The token bucket

    One flow: packets of a size arrive at a time; the bucket decides. *)
Fixpoint tb_run (config : policer_config) (b : Bucket) (pkts : list (Z * Z)) : Z * Bucket :=
  match pkts with
  | [] => (0, b)
  | (size, time) :: pkts' =>
      let '(fwd, b) := take (refill config b time) size in
      let '(total, b) := tb_run config b pkts' in
      ((if (fwd : bool) then size else 0) + total, b)
  end.

Fixpoint times_ok (last : Z) (pkts : list (Z * Z)) : Prop :=
  match pkts with
  | [] => True
  | (size, time) :: pkts' => 0 <= size < 2 ^ 16 ∧ last <= time < 2 ^ 63 ∧ times_ok time pkts'
  end.

Fixpoint last_time (last : Z) (pkts : list (Z * Z)) : Z :=
  match pkts with [] => last | (_, time) :: pkts' => last_time time pkts' end.

(** A configuration whose products fit into 64 bits. *)
Definition config_ok (config : policer_config) : Prop :=
  0 < rate config ∧ 0 <= burst config ∧
  burst config * VIGOR_TIME_SECONDS_MULTIPLIER < 2 ^ 64.

Section bucket.
Variable config : policer_config.
Hypothesis Hcfg : config_ok config.

Definition bucket_ok (b : Bucket) : Prop :=
  0 <= bucket_size b <= burst config ∧ 0 <= bucket_time b < 2 ^ 63.

(** A refill adds at most the tokens of the elapsed time, up to the rounding of
    one division. *)
Lemma refill_bound b time :
  bucket_ok b → bucket_time b <= time < 2 ^ 63 →
  bucket_ok (refill config b time) ∧ bucket_time (refill config b time) = time ∧
  VIGOR_TIME_SECONDS_MULTIPLIER * bucket_size (refill config b time) <=
    VIGOR_TIME_SECONDS_MULTIPLIER * bucket_size b + rate config * (time - bucket_time b) +
    (rate config - 1).
Proof.
  destruct Hcfg as (Hr & Hb0 & Hb). intros [Hs Ht] Htime. unfold refill, bucket_ok.
  unfold VIGOR_TIME_SECONDS_MULTIPLIER in *. cbn [bucket_size bucket_time].
  rewrite (u64_id (time - bucket_time b)) by lia. rewrite (u64_id (burst config * _)) by lia.
  rewrite i64_id by lia. set (dt := time - bucket_time b) in *.
  pose proof (Z.div_mod (burst config * 1000000000) (rate config) ltac:(lia)) as Hdm.
  pose proof (Z.mod_pos_bound (burst config * 1000000000) (rate config) Hr) as Hmod.
  set (q := burst config * 1000000000 / rate config) in *.
  destruct (Z.ltb_spec dt q) as [Hq|Hq].
  - assert (Hprod : dt * rate config < burst config * 1000000000) by nia.
    assert (0 <= dt * rate config) by (unfold dt; nia).
    rewrite (u64_id (dt * rate config)) by lia.
    pose proof (Z.mul_div_le (dt * rate config) 1000000000 ltac:(lia)) as Hle.
    pose proof (Z.div_pos (dt * rate config) 1000000000 ltac:(lia) ltac:(lia)) as Hpos.
    set (added := dt * rate config / 1000000000) in *.
    rewrite (u64_id (bucket_size b + added)) by lia.
    destruct (Z.ltb_spec (burst config) (bucket_size b + added)); lia.
  - split; [lia|]. split; [lia|]. assert (rate config * q <= rate config * dt) by nia. lia.
Qed.

Lemma take_bound b size :
  bucket_ok b → 0 <= size →
  bucket_ok (take b size).2 ∧ bucket_time (take b size).2 = bucket_time b ∧
  (if (take b size).1 then size else 0) + bucket_size (take b size).2 = bucket_size b.
Proof.
  destruct Hcfg as (Hr & Hb0 & Hb). unfold VIGOR_TIME_SECONDS_MULTIPLIER in Hb.
  intros [Hs Ht] Hsz. unfold take.
  destruct (Z.ltb_spec size (bucket_size b)); simpl; [|split; [by split|lia]].
  unfold bucket_ok. simpl. rewrite u64_id by lia. lia.
Qed.

Lemma tb_run_bound b pkts :
  bucket_ok b → times_ok (bucket_time b) pkts →
  bucket_ok (tb_run config b pkts).2 ∧
  VIGOR_TIME_SECONDS_MULTIPLIER * ((tb_run config b pkts).1 + bucket_size (tb_run config b pkts).2)
    <= VIGOR_TIME_SECONDS_MULTIPLIER * bucket_size b +
       rate config * (last_time (bucket_time b) pkts - bucket_time b) +
       zlen pkts * (rate config - 1).
Proof.
  revert b. induction pkts as [|[size time] pkts IH]; intros b Hok Hts.
  { simpl. unfold zlen. simpl. split; [done|]. lia. }
  cbn [times_ok last_time tb_run] in *. destruct Hts as (Hsz & Ht & Hts).
  destruct (refill_bound b time Hok Ht) as (Hok1 & Ht1 & Hb1).
  destruct (take_bound (refill config b time) size Hok1 ltac:(lia)) as (Hok2 & Ht2 & Hb2).
  destruct (take (refill config b time) size) as [fwd b2]. cbn [fst snd] in *.
  rewrite Ht1 in Ht2. specialize (IH b2 Hok2). rewrite Ht2 in IH. specialize (IH Hts).
  destruct (tb_run config b2 pkts) as [total b']. cbn [fst snd] in *.
  destruct IH as [Hok3 IH]. split; [done|]. rewrite zlen_cons.
  unfold VIGOR_TIME_SECONDS_MULTIPLIER in *. lia.
Qed.
End bucket.

(** ** The handler's lookup *)
Section check.
Context {M : Type} `{!MapOps (ptr Z) Z M, !MapLaws (ptr Z) Z M}.
Variable config : policer_config.
Hypothesis Hcfg : config_ok config.
Implicit Types (st : State M) (ch : dchain).

Record policer_inv st ch : Prop := {
  pi_co : coherent (fm st) (fk st) (heap st) ch;
  pi_len : zlen (data (fv st)) = dchain_index_range_fp ch;
  pi_bucket : ∀ i, i ∈ dchain_indexes_fp ch → bucket_ok config (getz (data (fv st)) i) ∧
    bucket_time (getz (data (fv st)) i) <= dchain_high_fp ch
}.

(** Every bucket has been used at [lo] or later. *)
Definition used_since (lo : Z) ch : Prop := Forall (λ e, lo <= e.2) (dchain_alist_fp ch).

Lemma used_since_snoc lo i time l ch :
  used_since lo ch → l ⊆ dchain_alist_fp ch → lo <= time →
  Forall (λ e : Z * Z, lo <= e.2) (l ++ [(i, time)]).
Proof.
  unfold used_since. rewrite !Forall_forall. intros Hch Hl Ht e [He|He]%elem_of_app.
  - by apply Hch, Hl.
  - by apply list_elem_of_singleton in He as ->.
Qed.

(** The bucket of a destination. *)
Definition bucket_of st ch (dst : Z) : option Bucket :=
  getz (data (fv st)) <$> index_of (fk st) ch dst.

Lemma policer_check_known st ch dst size time b :
  policer_inv st ch → dchain_high_fp ch <= time < 2 ^ 63 → 0 <= time → 0 <= size < 2 ^ 16 →
  bucket_of st ch dst = Some b →
  ∃ st' ch', policer_check_tb config st dst size time =
      Ok ((take (refill config b time) size).1, st') ∧
    policer_inv st' ch' ∧ dchain_high_fp ch' = time ∧
    dchain_index_range_fp ch' = dchain_index_range_fp ch ∧
    bucket_of st' ch' dst = Some (take (refill config b time) size).2 ∧
    (∀ dst', dst' ≠ dst → bucket_of st' ch' dst' = bucket_of st ch dst') ∧
    ∀ lo, lo <= time → used_since lo ch → used_since lo ch'.
Proof.
  intros [Hco Hlen Hbk] Ht Ht0 Hsz Hb. unfold policer_check_tb. rewrite (coherent_get Hco).
  cbn [mbind res_bind]. unfold bucket_of in Hb.
  destruct (index_of (fk st) ch dst) as [i|] eqn:E; [|done]. simpl in Hb. injection Hb as Hb.
  pose proof E as Eidx. apply (index_of_Some Hco) in E as [Hi Hk].
  destruct (coherent_rejuvenate Hco i time Hi ltac:(lia)) as (h & -> & Hco'). cbn [mbind res_bind].
  pose proof (co_range Hco i Hi) as Hri.
  rewrite vector_borrow_ok by lia. cbn [mbind res_bind].
  rewrite (proj2 (Z.leb_le 0 time)) by lia. cbn [c_assert mbind res_bind].
  rewrite load_cell by lia. cbn [mbind res_bind]. rewrite Hb.
  destruct (Hbk i Hi) as [Hok Hbt]. rewrite Hb in Hok, Hbt.
  rewrite (proj2 (Z.leb_le 0 (bucket_time b))) by apply Hok. cbn [c_assert mbind res_bind].
  rewrite u64_id by lia.
  destruct (refill_bound config Hcfg b time Hok ltac:(lia)) as (Hok1 & Ht1 & _).
  destruct (take_bound config Hcfg (refill config b time) size Hok1 ltac:(lia)) as (Hok2 & Ht2 & _).
  destruct (take (refill config b time) size) as [fwd b2]. cbn [fst snd] in *.
  rewrite store_cell by lia. cbn [mbind res_bind]. unfold vector_return. cbn [mbind res_bind].
  assert (Hmap : ∀ x, index_of (fk st) (dchain_rejuvenate_fp ch i time) x = index_of (fk st) ch x).
  { intros x. unfold index_of. do 2 f_equal. apply coh_map_perm; [apply Hco'|].
    by apply rejuvenate_perm. }
  eexists _, (dchain_rejuvenate_fp ch i time). split; [done|]. split; [split|].
  - done.
  - simpl. by rewrite zlen_setz.
  - simpl. intros j Hj. apply rejuvenate_indexes in Hj; [|done].
    pose proof (co_range Hco j Hj). destruct (decide (i = j)) as [<-|Hne].
    + rewrite getz_setz_eq by lia. split; [done|]. lia.
    + rewrite getz_setz_ne by lia. destruct (Hbk j Hj). split; [done|]. lia.
  - split; [done|]. split; [done|]. unfold bucket_of. simpl. split; [|split].
    + rewrite Hmap, Eidx. simpl. by rewrite getz_setz_eq by lia.
    + intros dst' Hne. rewrite Hmap. destruct (index_of (fk st) ch dst') as [j|] eqn:Ej; [|done].
      simpl. apply (index_of_Some Hco) in Ej as [Hj Hkj]. pose proof (co_range Hco j Hj).
      rewrite getz_setz_ne; [done| |lia|lia]. congruence.
    + intros lo Hlo Hch. apply (used_since_snoc lo i time _ ch Hch); [|done].
      intros e He. by eapply elem_of_sublist, remove_by_index_sublist.
Qed.

Lemma policer_check_new st ch dst size time :
  policer_inv st ch → dchain_high_fp ch <= time < 2 ^ 63 → 0 <= time → 0 <= size < 2 ^ 16 →
  bucket_of st ch dst = None →
  if (burst config <? size) || dchain_out_of_space_fp ch
  then policer_check_tb config st dst size time = Ok (false, st)
  else ∃ st' ch', policer_check_tb config st dst size time = Ok (true, st') ∧
    policer_inv st' ch' ∧ dchain_high_fp ch' = time ∧
    dchain_index_range_fp ch' = dchain_index_range_fp ch ∧
    bucket_of st' ch' dst = Some (mk_bucket (burst config - size) time) ∧
    (∀ dst', dst' ≠ dst → bucket_of st' ch' dst' = bucket_of st ch dst') ∧
    ∀ lo, lo <= time → used_since lo ch → used_since lo ch'.
Proof.
  intros [Hco Hlen Hbk] Ht Ht0 Hsz Hb. unfold policer_check_tb. rewrite (coherent_get Hco).
  cbn [mbind res_bind]. unfold bucket_of in Hb. apply fmap_None in Hb. rewrite Hb.
  destruct (Z.ltb_spec (burst config) size) as [Hbig|Hbig]; [done|]. cbn [orb].
  pose proof (dchain_allocate_new_index_spec (co_chain _ _ _ _ Hco) (-1) time ltac:(lia)) as Ha.
  destruct (dchain_out_of_space_fp ch).
  { rewrite Ha. cbn [mbind res_bind Z.eqb]. by destruct st. }
  destruct Ha as (i & h & -> & Hi & Hn & Hc). cbn [mbind res_bind Z.eqb].
  pose proof (co_vec _ _ _ _ Hco) as Hkv.
  rewrite !vector_borrow_ok by lia. cbn [mbind res_bind]. rewrite !store_cell by lia.
  cbn [mbind res_bind].
  destruct (coherent_insert Hco dst i time h Hb Hi Hn Hc) as (m & -> & Hco').
  cbn [mbind res_bind]. unfold vector_return. cbn [mbind res_bind].
  destruct Hcfg as (Hr & Hb0 & Hb64). unfold VIGOR_TIME_SECONDS_MULTIPLIER in Hb64.
  rewrite u64_id by lia.
  eexists _, (dchain_allocate_fp ch i time). split; [done|]. split; [split|].
  - done.
  - simpl. by rewrite zlen_setz.
  - simpl. intros j. unfold dchain_indexes_fp. simpl. rewrite fmap_app, elem_of_app.
    intros [Hj|Hj].
    + pose proof (co_range Hco j Hj). destruct (decide (i = j)) as [<-|Hne].
      { apply dchain_allocated_spec in Hj. congruence. }
      rewrite getz_setz_ne by lia. destruct (Hbk j Hj). split; [done|]. lia.
    + apply list_elem_of_singleton in Hj as ->. simpl. rewrite getz_setz_eq by lia.
      unfold bucket_ok. simpl. lia.
  - destruct (index_of_insert _ _ _ _ _ _ dst i time Hco Hi Hn Hco') as [Hnew Hother].
    split; [done|]. split; [done|]. unfold bucket_of. simpl. split; [|split].
    { rewrite Hnew. simpl. by rewrite getz_setz_eq by lia. }
    2: { intros lo Hlo Hch'. by apply (used_since_snoc lo i time _ ch Hch'). }
    intros dst' Hne. rewrite Hother by done.
    destruct (index_of (fk st) ch dst') as [j|] eqn:Ej; [|done].
    simpl. apply (index_of_Some Hco) in Ej as [Hj _]. pose proof (co_range Hco j Hj).
    rewrite getz_setz_ne; [done| |lia|lia].
    intros ->. apply dchain_allocated_spec in Hj. congruence.
Qed.
End check.

(** ** Runs of the handler

    A frame from outside is held against the bucket of its destination. *)
Definition policed (config : policer_config) (m : mbuf) : bool :=
  (port m =? wan_device config) && negb (port m =? lan_device config) &&
  (w16 (buf m) 12 =? ETHER_TYPE_IPV4_BE).
Definition addressed_to (config : policer_config) (dst : Z) (m : mbuf) : bool :=
  policed config m && (w32 (buf m) 30 =? dst).

(** The sizes and times of the frames to [dst]. *)
Fixpoint of_dst (config : policer_config) (dst : Z) (trace : list (mbuf * Z)) : list (Z * Z) :=
  match trace with
  | [] => []
  | (m, now) :: trace' =>
      if addressed_to config dst m then (u16 (pkt_len m), now) :: of_dst config dst trace'
      else of_dst config dst trace'
  end.

(** Frames with room for an ethernet and an IPv4 header, in the order of their times,
    up to [last]. *)
Fixpoint frames_ok (first last : Z) (trace : list (mbuf * Z)) : Prop :=
  match trace with
  | [] => True
  | (m, now) :: trace' => 34 <= zlen (buf m) ∧ first <= now <= last ∧ frames_ok now last trace'
  end.

(** How long a bucket stays in use: [burst / rate] seconds, which the code takes for
    nanoseconds. *)
Definition bucket_lifetime (config : policer_config) : Z := burst config / rate config.

Section run.
Context {M : Type} `{!MapOps (ptr Z) Z M, !MapLaws (ptr Z) Z M}.
Variable config : policer_config.
Implicit Types (st : State M) (ch : dchain).

(** The frames one after the other through [nf_core_process], with the number of bytes
    that leave for [dst] through the LAN device. *)
Fixpoint handler_run (dst : Z) st (trace : list (mbuf * Z)) : res (Z * State M) :=
  match trace with
  | [] => Ok (0, st)
  | (m, now) :: trace' =>
      '(dev, st) ← nf_core_process config st m now;
      '(total, st) ← handler_run dst st trace';
      Ok ((if addressed_to config dst m && (dev =? lan_device config) then u16 (pkt_len m) else 0)
          + total, st)
  end.

Lemma times_ok_of_dst dst trace first first' last :
  first' <= first → last < 2 ^ 63 → frames_ok first last trace →
  times_ok first' (of_dst config dst trace).
Proof.
  intros Hf Hl. revert first first' Hf.
  induction trace as [|[m now] trace IH]; intros first first' Hle; [done|].
  intros (_ & Ht & Hok). simpl. destruct (addressed_to config dst m).
  - pose proof (u16_bound (pkt_len m)). split; [lia|]. split; [lia|]. by apply (IH now).
  - apply (IH now); [lia|done].
Qed.

Hypothesis Hcfg : config_ok config.

(** When every bucket is young enough, there is nothing to expire. *)
Lemma policer_expire_nothing st ch now :
  policer_inv config st ch → 0 <= now < 2 ^ 63 → used_since (now - bucket_lifetime config) ch →
  policer_expire_entries config st now = Ok (0, st).
Proof.
  intros [Hco _ _] Hnow Hch. destruct Hcfg as (Hr & Hb & Hb64).
  unfold policer_expire_entries, VIGOR_TIME_SECONDS_MULTIPLIER in *.
  rewrite (proj2 (Z.leb_le 0 now)) by lia. cbn [c_assert mbind res_bind].
  assert (Hdiv : 0 <= burst config / rate config <= burst config).
  { split; [by apply Z.div_pos|]. apply Z.div_le_upper_bound; nia. }
  assert (i64 (u64 (u64 now - burst config / rate config)) = now - bucket_lifetime config) as ->.
  { rewrite (u64_id now) by lia. unfold i64, u64, bucket_lifetime.
    rewrite Z.add_mod_idemp_l by lia. change ((_ + 2 ^ 63) mod 2 ^ 64 - 2 ^ 63) with
      (i64 (now - burst config / rate config)). apply i64_id. lia. }
  cbn [expire_loop].
  destruct (expire_one_cases ch (heap st) (-1) (now - bucket_lifetime config) (co_chain _ _ _ _ Hco))
    as [(i & chain1 & _ & _ & _ & _ & E & _)|(i & -> & _)].
  - exfalso. unfold dchain_get_expired_indexes_fp, get_expired_indexes_fp in E.
    destruct (List.filter _ _) as [|e l] eqn:Ef; [done|].
    assert (He : In e (e :: l)) by by left. rewrite <- Ef in He.
    apply filter_In in He as [He%list_elem_of_In He2%Z.ltb_lt].
    unfold used_since in Hch. rewrite Forall_forall in Hch. specialize (Hch e He). simpl in Hch. lia.
  - cbn [mbind res_bind Z.eqb negb]. by destruct st.
Qed.

(** Any packet held against its bucket: the bucket of [dst] is only touched if the
    packet is for [dst]. *)
Lemma policer_check_step st ch dst dst' size time b :
  policer_inv config st ch → dchain_high_fp ch <= time < 2 ^ 63 → 0 <= time → 0 <= size < 2 ^ 16 →
  bucket_of st ch dst = Some b →
  ∃ fwd st' ch', policer_check_tb config st dst' size time = Ok (fwd, st') ∧
    policer_inv config st' ch' ∧ dchain_high_fp ch <= dchain_high_fp ch' <= time ∧
    (∀ lo, lo <= time → used_since lo ch → used_since lo ch') ∧
    if dst' =? dst
    then (fwd, bucket_of st' ch' dst) =
      ((take (refill config b time) size).1, Some (take (refill config b time) size).2)
    else bucket_of st' ch' dst = Some b.
Proof.
  intros Hinv Ht Ht0 Hs Hb. destruct (Z.eqb_spec dst' dst) as [->|Hne].
  { destruct (policer_check_known config Hcfg st ch dst size time b Hinv Ht Ht0 Hs Hb)
      as (st' & ch' & -> & Hinv' & Hh & _ & Hb' & _ & Hu).
    eexists _, st', ch'. split; [done|]. split; [done|]. split; [lia|]. split; [done|by rewrite Hb']. }
  destruct (bucket_of st ch dst') as [b'|] eqn:Eb.
  - destruct (policer_check_known config Hcfg st ch dst' size time b' Hinv Ht Ht0 Hs Eb)
      as (st' & ch' & -> & Hinv' & Hh & _ & _ & Hother & Hu).
    eexists _, st', ch'. split; [done|]. split; [done|]. split; [lia|]. split; [done|].
    by rewrite Hother.
  - pose proof (policer_check_new config Hcfg st ch dst' size time Hinv Ht Ht0 Hs Eb) as H.
    destruct (_ || _).
    + exists false, st, ch. split; [done|]. split; [done|]. split; [lia|done].
    + destruct H as (st' & ch' & -> & Hinv' & Hh & _ & _ & Hother & Hu).
      exists true, st', ch'. split; [done|]. split; [done|]. split; [lia|]. split; [done|].
      by rewrite Hother.
Qed.

(** One frame. *)
Lemma policer_process_step st ch dst m now b :
  policer_inv config st ch → dchain_high_fp ch <= now < 2 ^ 63 → 0 <= now →
  34 <= zlen (buf m) → used_since (now - bucket_lifetime config) ch →
  bucket_of st ch dst = Some b →
  ∃ dev st' ch', nf_core_process config st m now = Ok (dev, st') ∧
    policer_inv config st' ch' ∧ dchain_high_fp ch <= dchain_high_fp ch' <= now ∧
    (∀ lo, lo <= now → used_since lo ch → used_since lo ch') ∧
    if addressed_to config dst m
    then (dev =? lan_device config, bucket_of st' ch' dst) =
      ((take (refill config b now) (u16 (pkt_len m))).1,
       Some (take (refill config b now) (u16 (pkt_len m))).2)
    else bucket_of st' ch' dst = Some b.
Proof.
  intros Hinv Ht Ht0 Hl Hu Hb. unfold nf_core_process, nf_get_mbuf_ipv4_header, nf_get_mbuf_ether_header.
  unfold ETHER_TYPE, addressed_to, policed. rewrite ld16_ok by lia. cbn [mbind res_bind].
  change (0 + 12) with 12.
  assert (Hsame : ∀ dev : Z, ∃ dev' st' ch', Ok (dev, st) = @Ok (Z * State M) (dev', st') ∧ policer_inv config st' ch' ∧
    dchain_high_fp ch <= dchain_high_fp ch' <= now ∧
    (∀ lo, lo <= now → used_since lo ch → used_since lo ch') ∧ bucket_of st' ch' dst = Some b).
  { intros dev. exists dev, st, ch. split; [done|]. split; [done|]. split; [lia|done]. }
  destruct (w16 (buf m) 12 =? ETHER_TYPE_IPV4_BE); cbn [negb mbind res_bind];
    [|rewrite andb_false_r; apply Hsame].
  rewrite (policer_expire_nothing st ch now Hinv ltac:(lia) Hu). cbn [mbind res_bind].
  destruct (port m =? lan_device config) eqn:Elan; cbn [negb].
  { rewrite andb_false_r. apply Hsame. }
  destruct (port m =? wan_device config) eqn:Ewan; [|apply Hsame]. cbn [andb].
  unfold SIZEOF_ETHER_HDR, IPV4_DST_ADDR. rewrite ld32_ok by lia. cbn [mbind res_bind].
  change (14 + 16) with 30.
  destruct (policer_check_step st ch dst (w32 (buf m) 30) (u16 (pkt_len m)) now b Hinv Ht Ht0
    (u16_bound _) Hb) as (fwd & st' & ch' & -> & Hinv' & Hh & Hu' & Hcase). cbn [mbind res_bind].
  exists (if fwd then lan_device config else wan_device config), st', ch'.
  split; [by destruct fwd|]. split; [done|]. split; [done|]. split; [done|].
  destruct (w32 (buf m) 30 =? dst); [|done]. injection Hcase as <- ->. f_equal.
  destruct fwd; [apply Z.eqb_refl|]. apply Z.eqb_eq in Ewan. by rewrite Ewan in Elan.
Qed.

(** The bytes for [dst] are those its bucket alone lets through. *)
Lemma handler_run_spec dst trace st ch b last :
  policer_inv config st ch → 0 <= dchain_high_fp ch → frames_ok (dchain_high_fp ch) last trace →
  last < 2 ^ 63 → used_since (last - bucket_lifetime config) ch → bucket_of st ch dst = Some b →
  ∃ st' ch', handler_run dst st trace = Ok ((tb_run config b (of_dst config dst trace)).1, st') ∧
    policer_inv config st' ch' ∧
    bucket_of st' ch' dst = Some (tb_run config b (of_dst config dst trace)).2.
Proof.
  assert (Hw : ∀ lo hi l, lo <= hi → frames_ok hi last l → frames_ok lo last l).
  { intros lo hi [|[m t] l] Hle; [done|]. simpl. intros (? & ? & ?). split; [done|].
    split; [lia|done]. }
  intros Hinv H0 Hok Hlast Hu Hb. revert st ch b Hinv H0 Hok Hu Hb.
  induction trace as [|[m now] trace IH]; intros st ch b Hinv H0 Hok Hu Hb.
  { by exists st, ch. }
  cbn [frames_ok handler_run of_dst] in *. destruct Hok as (Hl & Ht & Hok).
  assert (Hlo : last - bucket_lifetime config <= now).
  { pose proof Hb as Hi. unfold bucket_of in Hi. apply fmap_Some in Hi as (i & Hi & _).
    apply (index_of_Some (pi_co _ _ _ Hinv)) in Hi as [Hi _].
    apply list_elem_of_fmap in Hi as ([j t] & -> & Hj).
    pose proof Hu as Hjt. unfold used_since in Hjt. rewrite Forall_forall in Hjt.
    specialize (Hjt _ Hj). simpl in Hjt.
    pose proof (chain_time_high _ _ _ _ (co_chain _ _ _ _ (pi_co _ _ _ Hinv)) Hj). lia. }
  destruct (policer_process_step st ch dst m now b Hinv ltac:(lia) ltac:(lia) Hl)
    as (dev & st1 & ch1 & -> & Hinv1 & Hh1 & Hu1 & Hcase); [|done|].
  { eapply Forall_impl; [exact Hu|]. simpl. lia. }
  cbn [mbind res_bind]. specialize (Hu1 _ Hlo Hu).
  destruct (addressed_to config dst m); cbn [andb tb_run].
  - injection Hcase as -> Hb1. destruct (take _ _) as [fwd b1]. cbn [fst snd] in *.
    destruct (IH st1 ch1 b1) as (st2 & ch2 & -> & Hinv2 & Hb2); [done|lia|apply (Hw _ now); [lia|done]|done|done|].
    destruct (tb_run config b1 _) as [total b2]. cbn [mbind res_bind fst snd] in *.
    by exists st2, ch2.
  - destruct (IH st1 ch1 b) as (st2 & ch2 & -> & Hinv2 & Hb2); [done|lia|apply (Hw _ now); [lia|done]|done|done|].
    by exists st2, ch2.
Qed.
End run.

(** ** The claims *)
Section claims.
Context {M : Type} `{!MapOps (ptr Z) Z M, !MapLaws (ptr Z) Z M}.
Implicit Types (st : State M) (ch : dchain).

(** C13: The policer keeps to the rate as long as no bucket expires. If no bucket in
    use is older at the last frame than the lifetime the code gives it (the value of
    [burst / rate], taken for nanoseconds), then [nf_core_process] handles any sequence
    of frames from any devices, and the bytes that leave for a destination that has a
    bucket are exactly those that its bucket alone lets through: at most what the
    bucket held plus [rate] bytes per second for the time from its last refill to its
    last frame, up to less than [rate] nanobytes of rounding per frame. (When a bucket
    does expire the keys stay in the map and buckets are shared:
    [policer_expired_keys_stay].) *)
Theorem policer_rate_limit config st ch dst b trace last :
  config_ok config → policer_inv config st ch → 0 <= dchain_high_fp ch →
  bucket_of st ch dst = Some b → frames_ok (dchain_high_fp ch) last trace → last < 2 ^ 63 →
  used_since (last - bucket_lifetime config) ch →
  let frames := of_dst config dst trace in
  ∃ total st' ch', handler_run config dst st trace = Ok (total, st') ∧ policer_inv config st' ch' ∧
    total = (tb_run config b frames).1 ∧
    VIGOR_TIME_SECONDS_MULTIPLIER * total <=
      VIGOR_TIME_SECONDS_MULTIPLIER * bucket_size b +
      rate config * (last_time (bucket_time b) frames - bucket_time b) +
      zlen frames * (rate config - 1).
Proof.
  intros Hcfg Hinv H0 Hb Hok Hlast Hu frames.
  destruct (handler_run_spec config Hcfg dst trace st ch b last Hinv H0 Hok Hlast Hu Hb)
    as (st' & ch' & -> & Hinv' & _).
  pose proof Hb as Hi. unfold bucket_of in Hi. apply fmap_Some in Hi as (i & Hi & ->).
  apply (index_of_Some (pi_co _ _ _ Hinv)) in Hi as [Hi _].
  destruct (pi_bucket _ _ _ Hinv i Hi) as [Hbk Hbt].
  destruct (tb_run_bound config Hcfg _ frames Hbk) as [[Hs _] Hbound].
  { by eapply times_ok_of_dst. }
  eexists _, st', ch'. split; [done|]. split; [done|]. split; [done|].
  unfold VIGOR_TIME_SECONDS_MULTIPLIER in *. fold frames. lia.
Qed.

(** The first packet to a destination is let through exactly if it is not
    larger than [burst] and there is room for another bucket; then the
    destination gets a bucket of [burst] less the packet, and the buckets of the
    other destinations stay as they are. *)
Theorem policer_first_packet config st ch dst size time :
  config_ok config → policer_inv config st ch → dchain_high_fp ch <= time < 2 ^ 63 →
  0 <= time → 0 <= size < 2 ^ 16 → bucket_of st ch dst = None →
  if (burst config <? size) || dchain_out_of_space_fp ch
  then policer_check_tb config st dst size time = Ok (false, st)
  else ∃ st' ch', policer_check_tb config st dst size time = Ok (true, st') ∧
    policer_inv config st' ch' ∧ dchain_high_fp ch' = time ∧
    dchain_index_range_fp ch' = dchain_index_range_fp ch ∧
    bucket_of st' ch' dst = Some (mk_bucket (burst config - size) time) ∧
    ∀ dst', dst' ≠ dst → bucket_of st' ch' dst' = bucket_of st ch dst'.
Proof.
  intros Hcfg Hinv Ht Ht0 Hs Hb.
  pose proof (policer_check_new config Hcfg st ch dst size time Hinv Ht Ht0 Hs Hb) as H.
  destruct (_ || _); [done|]. destruct H as (st' & ch' & E & ? & ? & ? & ? & ? & _). by exists st', ch'.
Qed.
End claims.

(** ** The start *)
Lemma policer_starts_empty ok mem buckets0 config h :
  memory_ok mem → (∀ n, 0 <= n → zlen (buckets0 n) = n) → heap_wf h →
  (∃ n, 0 <= n <= 27 ∧ dyn_capacity config = 2 ^ n) →
  (∃ st h', nf_core_init ok mem buckets0 None config h = Ok (st, h') ∧
     policer_inv config st (empty_dchain_fp (dyn_capacity config) 0) ∧
     ∀ dst, bucket_of st (empty_dchain_fp (dyn_capacity config) 0) dst = None) ∨
  (nf_core_init ok mem buckets0 None config h = Err Exit ∧ ¬ ∀ n, ok n = true).
Proof.
  intros Hmem Hbk Hwf (n & Hn & Hp).
  assert (Hc : i32 (dyn_capacity config) = dyn_capacity config) by (rewrite Hp; apply i32_pow2; lia).
  assert (Hfit : vector_fits SIZEOF_BUCKET (dyn_capacity config))
    by (rewrite Hp; by apply (vector_fits_pow2 _ n 27)).
  assert (Hpos : 0 < dyn_capacity config) by (rewrite Hp; apply Z.pow_pos_nonneg; lia).
  unfold nf_core_init. rewrite Hc. apply or_exit_spec with (Q := λ st,
    policer_inv config st (empty_dchain_fp (dyn_capacity config) 0) ∧
    ∀ dst, bucket_of st (empty_dchain_fp (dyn_capacity config) 0) dst = None).
  apply malloc_or_null_spec; [done|]. intros _ h1 Hwf1.
  eapply or_null_spec; [apply (alloc_map_spec ok mem Hmem _ _ _ (λ _, inhabitant)); [done| |]|].
  { exists n. split; [lia|done]. }
  { intros k1 k2. apply Z.eqb_eq. }
  intros map h2 Hmap Hwf2.
  eapply or_null_spec; [apply alloc_vector_spec; try done; [lia|apply Hmem; lia]|].
  intros ks h3 Hks Hwf3.
  eapply or_null_spec; [apply alloc_vector_spec; try done; [lia|apply Hbk; lia]|].
  intros vs h4 Hvs Hwf4.
  eapply or_null_spec; [by apply alloc_chain_spec|]. intros chain h5 Hch Hwf5.
  apply initialises_done. split; [|done]. split; [|done|by intros i ?%elem_of_nil].
  eapply allocated_coherent; [exact Hmap|exact Hks|exact Hch].
Qed.

(** ** A small policer: 1000 bytes per second, bursts of 1000 bytes, four buckets *)
Definition small_config : policer_config := mk_policer_config 0 1 1000 1000 4 [] [].
Definition small_policer : State (Map (ptr Z) Z) :=
  mk_state (fresh_map 4 policer_flow_eq policer_flow_hash) (fresh_vector 4) (fresh_vector 4)
    (fresh_chain 4) 4.
Lemma small_policer_config_ok : config_ok small_config.
Proof. done. Qed.

Lemma small_policer_ok : policer_inv small_config small_policer (empty_dchain_fp 4 0).
Proof.
  split; [|done|by intros i ?%elem_of_nil].
  apply (fresh_coherent 4 policer_flow_eq policer_flow_hash 2); [lia|done|].
  intros k1 k2. apply Z.eqb_eq.
Qed.

(** A policer whose buckets live for 1000 nanoseconds, in which 10.0.0.7 has one. *)
Definition slow_config : policer_config := mk_policer_config 0 1 1 1000 4 [] [].
Definition address (d : Z) : Z := 10 + 16777216 * d.
Definition slow_policer7 : State (Map (ptr Z) Z) :=
  match policer_check_tb slow_config small_policer (address 7) 60 10 with
  | Ok (_, st) => st
  | Err _ => small_policer
  end.

(** A packet of [len] bytes to 10.0.0.[d] that comes in through a device. *)
Definition sized_packet (device len d : Z) : mbuf :=
  mk_mbuf device len
    (replicate 12 0 ++ [8; 0; 69] ++ replicate 15 0 ++ [10; 0; 0; d] ++ replicate 26 0).
Definition packet : Z → mbuf := sized_packet 1 60.

Lemma slow_policer7_ok :
  ∃ ch, policer_inv slow_config slow_policer7 ch ∧ dchain_high_fp ch = 10 ∧
    bucket_of slow_policer7 ch (address 7) = Some (mk_bucket 940 10) ∧ used_since 10 ch.
Proof.
  assert (H : dchain_high_fp (empty_dchain_fp 4 0) <= 10 < 2 ^ 63) by (simpl; lia).
  assert (Hcfg : config_ok slow_config) by done.
  assert (Hinv : policer_inv slow_config small_policer (empty_dchain_fp 4 0)).
  { destruct small_policer_ok as [Hco Hl _]. split; [exact Hco|exact Hl|by intros i ?%elem_of_nil]. }
  destruct (policer_check_new slow_config Hcfg small_policer (empty_dchain_fp 4 0) (address 7) 60 10
    Hinv H) as (st' & ch' & E & Hinv' & Hh & _ & Hb & _ & Hu); [lia|lia|done|].
  exists ch'. unfold slow_policer7. rewrite E. split; [done|]. split; [done|]. split; [done|].
  apply Hu; [lia|]. by apply Forall_nil.
Qed.

Lemma policer_rate_limit_witness :
  ∃ total st', handler_run slow_config (address 7) slow_policer7
      [(sized_packet 1 500 7, 20); (sized_packet 1 100 8, 30); (sized_packet 1 600 7, 40);
       (sized_packet 0 100 7, 45); (sized_packet 1 400 7, 50)] = Ok (total, st') ∧
    total = 900 ∧
    VIGOR_TIME_SECONDS_MULTIPLIER * total <=
      VIGOR_TIME_SECONDS_MULTIPLIER * 940 + 1 * (50 - 10) + 3 * (1 - 1).
Proof.
  destruct slow_policer7_ok as (ch & Hinv & Hh & Hb & Hu).
  destruct (policer_rate_limit slow_config slow_policer7 ch (address 7) (mk_bucket 940 10)
    [(sized_packet 1 500 7, 20); (sized_packet 1 100 8, 30); (sized_packet 1 600 7, 40);
     (sized_packet 0 100 7, 45); (sized_packet 1 400 7, 50)] 50)
    as (total & st' & ch' & E & _ & Et & Hle);
    [done|exact Hinv|lia|exact Hb| |lia| |].
  - rewrite Hh. cbn [frames_ok]. repeat split; lia || (vm_compute; done).
  - eapply Forall_impl; [exact Hu|]. intros e He. change (50 - bucket_lifetime slow_config) with (-950).
    simpl in *. lia.
  - exists total, st'. split; [exact E|]. split; [|exact Hle]. rewrite Et. reflexivity.
Defined.

Lemma policer_first_packet_witness :
  ∃ st' ch', policer_check_tb small_config small_policer 7 60 10 = Ok (true, st') ∧
    bucket_of st' ch' 7 = Some (mk_bucket 940 10).
Proof.
  assert (H : dchain_high_fp (empty_dchain_fp 4 0) <= 10 < 2 ^ 63) by (simpl; lia).
  destruct (policer_first_packet small_config small_policer (empty_dchain_fp 4 0) 7 60 10
    small_policer_config_ok small_policer_ok H) as (st' & ch' & E & _ & _ & _ & Hb & _); [lia|lia|done|].
  exists st', ch'. split; [exact E|exact Hb].
Defined.

Fixpoint policer_run {M} `{!MapOps (ptr Z) Z M} (config : policer_config) (st : State M)
    (trace : list (mbuf * Z)) : res (State M) :=
  match trace with
  | [] => Ok st
  | (m, now) :: trace' =>
      '(_, st) ← nf_core_process config st m now;
      policer_run config st trace'
  end.

(** Expired destinations stay in the map, because the expiration reads the keys
    to erase from the vector of buckets. In a policer for four destinations, five
    packets to five destinations, each after the earlier ones have expired,
    overrun the map: four are processed, and the fifth writes outside of the
    map's arrays, although at most one bucket is in use at any time. *)
Theorem policer_expired_keys_stay :
  let trace := [(packet 1, 10); (packet 2, 20); (packet 3, 30); (packet 4, 40)] in
  (λ st, (busybits (fm st), dchain_is_index_allocated (heap st) <$> [0; 1; 2; 3])) <$>
    policer_run small_config small_policer trace = Ok ([1; 1; 1; 1], [Ok 1; Ok 0; Ok 0; Ok 0]) ∧
  (λ _, tt) <$> policer_run small_config small_policer (trace ++ [(packet 5, 50)]) = Err OutOfBounds.
Proof. split; by vm_compute. Qed.
