(* ===== verification/Cht.v ===== *)
(** * VigBalancer: flows, backends and the consistent hashing table

    Models [vigbalancer/lb_data.c] (equality and hash of flows and addresses) and
    the two functions of [lb_balancer.c] that work on the consistent hashing
    table: [lb_fill_cht] writes, for each of [cht_height] hash values, all
    backends in order of preference; [lb_find_preferred_available_backend] walks
    the table to find a backend that is alive. *)

From Stdlib Require Import Znumtheory.
From S2P Require Import Prelude.
From S2P Require Import Malloc.
From S2P Require Import DChainImpl.
From S2P Require Import DChain.
From S2P Require Import Vector.
From S2P Require Import Fresh.

(** ** Data: [lb_balancer.h], [lb_data.c]

    [lb_flowi] are the fields of a flow that its equality and its hash look at
    (the inductive of that name in [lb_balancer.h]). *)
Record lb_flowi := lb_flowc { src_ip : Z; src_port : Z; dst_port : Z; protocol : Z }.
Record LoadBalancedFlow := mk_lb_flow { lb_flowp :> lb_flowi; dst_ip : Z }.
Record LoadBalancedBackend := mk_lb_backend { nic : Z; mac : list Z; ip : Z }.

#[global] Instance lb_flowi_eq_dec : EqDecision lb_flowi.
Proof. solve_decision. Defined.
#[global] Instance lb_flowi_inhabited : Inhabited lb_flowi := populate (lb_flowc 0 0 0 0).
#[global] Program Instance lb_flowi_countable : Countable lb_flowi :=
  inj_countable' (λ f, (src_ip f, src_port f, dst_port f, protocol f))
    (λ '(a, b, c, d), lb_flowc a b c d) _.
Next Obligation. by intros []. Qed.
#[global] Instance LoadBalancedFlow_eq_dec : EqDecision LoadBalancedFlow.
Proof. solve_decision. Defined.
#[global] Instance LoadBalancedFlow_inhabited : Inhabited LoadBalancedFlow :=
  populate (mk_lb_flow inhabitant 0).
#[global] Instance LoadBalancedBackend_eq_dec : EqDecision LoadBalancedBackend.
Proof. solve_decision. Defined.
#[global] Instance LoadBalancedBackend_inhabited : Inhabited LoadBalancedBackend :=
  populate (mk_lb_backend 0 [] 0).

Definition lb_flow_equality (flowA flowB : lb_flowi) : bool :=
  (src_ip flowA =? src_ip flowB) && (src_port flowA =? src_port flowB) &&
  (dst_port flowA =? dst_port flowB) && (protocol flowA =? protocol flowB).

Definition INT_MAX : Z := 2 ^ 31 - 1.

Definition lb_flow_hash (flow : lb_flowi) : Z :=
  let hash := 17 in
  let hash := u64 (hash + src_port flow) in
  let hash := u64 (hash * 31) in
  let hash := u64 (hash + dst_port flow) in
  let hash := u64 (hash * 31) in
  let hash := u64 (hash + src_port flow) in
  let hash := u64 (hash * 31) in
  let hash := u64 (hash + protocol flow) in
  let hash := u64 (hash * 31) in
  let hash := hash mod INT_MAX in
  i32 hash.

(** [memset(obj, 0, ..)]. *)
Definition lb_flow_init (obj : LoadBalancedFlow) : LoadBalancedFlow :=
  mk_lb_flow (lb_flowc 0 0 0 0) 0.
Definition lb_backend_init (obj : LoadBalancedBackend) : LoadBalancedBackend :=
  mk_lb_backend 0 [0; 0; 0; 0; 0; 0] 0.

Definition lb_ip_equality (ipA ipB : Z) : bool := ipA =? ipB.
Definition lb_ip_hash (addr : Z) : Z := i32 addr.

(** ** Filling the table *)

(** [for (int i = 2; i * i <= cht_height; ++i) assert(..)] *)
Fixpoint prime_loop (fuel : nat) (i cht_height : Z) : res unit :=
  match fuel with
  | O => Err NoFuel
  | S fuel' =>
      if i32 (i * i) <=? cht_height then
        _ ← c_assert (negb (i32 (i * Z.quot cht_height i) =? cht_height));
        prime_loop fuel' (i + 1) cht_height
      else Ok tt
  end.

(** The loop over [j] that writes the permutation of backend [i]; [n] is
    [cht_height - j]. *)
Fixpoint perm_row (n : nat) (permutations : list Z) (i offset shift j cht_height : Z)
    : res (list Z) :=
  match n with
  | O => Ok permutations
  | S n' =>
      permutations ← wr permutations (i32 (i32 (i * cht_height) + j))
                       (Z.rem (i32 (offset + i32 (shift * j))) cht_height);
      perm_row n' permutations i offset shift (j + 1) cht_height
  end.

(** The loop over the backends; [n] is [backend_capacity - i]. *)
Fixpoint perm_rows (n : nat) (permutations : list Z) (i cht_height : Z) : res (list Z) :=
  match n with
  | O => Ok permutations
  | S n' =>
      let offset := Z.rem (i32 (i * 31)) cht_height in
      let shift := Z.rem i cht_height + 1 in
      permutations ← perm_row (Z.to_nat cht_height) permutations i offset shift 0 cht_height;
      perm_rows n' permutations (i + 1) cht_height
  end.

(** The [while] loop: the next backend, in order of positions, whose permutation
    has [i] at the current position. *)
Fixpoint search (fuel : nat) (permutations : list Z) (i cht_height backend_capacity : Z)
    (bknd perm_pos : Z) : res (Z * Z) :=
  match fuel with
  | O => Err NoFuel
  | S fuel' =>
      x ← rd permutations (i32 (i32 (bknd * cht_height) + perm_pos));
      if x =? i then Ok (bknd, perm_pos)
      else
        let bknd := bknd + 1 in
        if backend_capacity <=? bknd then
          let bknd := 0 in
          let perm_pos := perm_pos + 1 in
          _ ← c_assert (perm_pos <? cht_height);
          search fuel' permutations i cht_height backend_capacity bknd perm_pos
        else search fuel' permutations i cht_height backend_capacity bknd perm_pos
  end.

(** The loop over [j] that fills the row of hash [i]; [n] is [backend_capacity - j]. *)
Fixpoint fill_row (n : nat) (permutations : list Z) (cht : Vector Z)
    (i cht_height backend_capacity j bknd perm_pos : Z) : res (Vector Z) :=
  match n with
  | O => Ok cht
  | S n' =>
      _ ← c_assert (perm_pos <? cht_height);
      '(bknd, perm_pos) ← search (Z.to_nat (cht_height * backend_capacity)) permutations i
                            cht_height backend_capacity bknd perm_pos;
      value ← vector_borrow cht (i32 (i32 (i * backend_capacity) + j));
      cht ← store cht value (u32 bknd);
      _ ← vector_return cht (i32 (i32 (i * backend_capacity) + j)) value;
      let bknd := bknd + 1 in
      if backend_capacity <=? bknd
      then fill_row n' permutations cht i cht_height backend_capacity (j + 1) 0 (perm_pos + 1)
      else fill_row n' permutations cht i cht_height backend_capacity (j + 1) bknd perm_pos
  end.

(** The loop over the hashes; [n] is [cht_height - i]. *)
Fixpoint fill_rows (n : nat) (permutations : list Z) (cht : Vector Z)
    (i cht_height backend_capacity : Z) : res (Vector Z) :=
  match n with
  | O => Ok cht
  | S n' =>
      cht ← fill_row (Z.to_nat backend_capacity) permutations cht i cht_height backend_capacity 0 0 0;
      fill_rows n' permutations cht (i + 1) cht_height backend_capacity
  end.

(** [junk] is the contents of the fresh array [permutations]. The result of
    [malloc] is not checked: every access through a null pointer is out of
    bounds. *)
Definition lb_fill_cht (ok : nat → bool) (junk : list Z) (cht : Vector Z)
    (cht_height backend_capacity : Z) (h : heap) : res (Vector Z * heap) :=
  _ ← prime_loop (S (Z.to_nat cht_height)) 2 cht_height;
  _ ← c_assert (backend_capacity <? cht_height);
  let '(p, h) := malloc ok h in
  let permutations := match p with Some _ => junk | None => [] end in
  permutations ← perm_rows (Z.to_nat backend_capacity) permutations 0 cht_height;
  cht ← fill_rows (Z.to_nat cht_height) permutations cht 0 cht_height backend_capacity;
  h ← match p with Some b => free b h | None => Ok h end;
  Ok (cht, h).

(** ** Looking up *)

(** The loop of [lb_find_preferred_available_backend]; [n] is
    [backend_capacity - i]. [Some b]: returns 1 and [*chosen_backend = b]. *)
Fixpoint find_loop (n : nat) (cht : Vector Z) (active_backends : DoubleChain)
    (hash i cht_height : Z) : res (option Z) :=
  match n with
  | O => Ok None
  | S n' =>
      let candidate_idx := i32 (u64 (hash + i) mod cht_height) in
      candidate ← vector_borrow cht candidate_idx;
      c ← load cht candidate;
      allocated ← dchain_is_index_allocated active_backends (i32 c);
      if negb (allocated =? 0) then
        _ ← vector_return cht candidate_idx candidate;
        Ok (Some (i32 c))
      else
        _ ← vector_return cht candidate_idx candidate;
        find_loop n' cht active_backends hash (i + 1) cht_height
  end.

Definition lb_find_preferred_available_backend (flow : lb_flowi) (cht : Vector Z)
    (active_backends : DoubleChain) (cht_height backend_capacity : Z) : res (option Z) :=
  let hash := u64 (lb_flow_hash flow) in
  find_loop (Z.to_nat backend_capacity) cht active_backends hash 0 cht_height.

(** ** The primality test *)

Lemma prime_loop_ok h fuel i :
  prime h → h < 2 ^ 30 → 2 <= i → h < i + Z.of_nat fuel → (i - 1) * (i - 1) <= h →
  prime_loop fuel i h = Ok tt.
Proof.
  intros Hp Hh. pose proof (prime_ge_2 _ Hp) as H2.
  revert i. induction fuel as [|fuel IH]; intros i Hi Hf Hsq; [nia|]. cbn [prime_loop].
  assert (Hb : i < 2 ^ 15 + 2) by (destruct (Z.lt_ge_cases i (2 ^ 15 + 2)); [done|nia]).
  rewrite (i32_id (i * i)) by nia. destruct (Z.leb_spec (i * i) h) as [Hle|]; [|done].
  rewrite Z.quot_div_nonneg by lia.
  pose proof (Z.mul_div_le h i ltac:(lia)) as Hm. pose proof (Z.div_pos h i ltac:(lia) ltac:(lia)).
  rewrite i32_id by nia. destruct (Z.eqb_spec (i * (h / i)) h) as [E|].
  - exfalso. assert (Hd : (i | h)) by (exists (h / i); lia).
    apply (prime_divisors h Hp i) in Hd. nia.
  - cbn [c_assert negb mbind res_bind]. apply IH; [lia|lia|].
    replace (i + 1 - 1) with i by lia. done.
Qed.

(** A number that is not prime has a divisor up to its square root. *)
Lemma small_divisor h : 2 <= h → ¬ prime h → ∃ d, 2 <= d ∧ d * d <= h ∧ (d | h).
Proof.
  intros Hh Hp. destruct (not_prime_divide h ltac:(lia) Hp) as (n & Hn & q & Hq).
  destruct (Z.le_gt_cases (n * n) h).
  - exists n. split; [lia|]. split; [done|]. by exists q.
  - exists q. assert (2 <= q) by nia. split; [done|]. split; [nia|]. exists n. lia.
Qed.

Lemma prime_loop_fails h d fuel i :
  (d | h) → 2 <= i <= d → d * d <= h → h < 2 ^ 30 → h < i + Z.of_nat fuel →
  prime_loop fuel i h = Err AssertFail.
Proof.
  intros Hd Hi Hsq Hh. revert i Hi. induction fuel as [|fuel IH]; intros i Hi Hf; [nia|].
  cbn [prime_loop]. rewrite (i32_id (i * i)) by nia. rewrite (proj2 (Z.leb_le _ _)) by nia.
  rewrite Z.quot_div_nonneg by nia. pose proof (Z.mul_div_le h i ltac:(lia)) as Hm.
  pose proof (Z.div_pos h i ltac:(nia) ltac:(lia)). rewrite i32_id by nia.
  destruct (Z.eqb_spec (i * (h / i)) h) as [E|Hne]; [done|].
  cbn [c_assert negb mbind res_bind]. apply IH; [|lia]. split; [lia|].
  destruct (decide (i = d)) as [->|]; [|lia].
  exfalso. apply Hne. destruct Hd as [q ->]. rewrite Z.div_mul by lia. lia.
Qed.

(** ** The permutations *)

(** Position [pos] of the permutation of backend [b]. *)
Definition perm_val (h b pos : Z) : Z := ((b * 31) mod h + (b mod h + 1) * pos) mod h.

(** The sizes for which the [int] computations do not overflow. *)
Definition sizes_ok (h bc : Z) : Prop := 0 <= bc < h ∧ h * (bc + 1) < 2 ^ 31 ∧ h < 2 ^ 30.

Section permutations.
Variables (h bc : Z).
Hypothesis Hs : sizes_ok h bc.

Lemma index_bound b pos : 0 <= b < bc → 0 <= pos < h → 0 <= b * h + pos < h * bc.
Proof. intros. nia. Qed.

Lemma rd_index b pos : 0 <= b < bc → 0 <= pos < h →
  i32 (i32 (b * h) + pos) = b * h + pos.
Proof.
  intros Hb Hp. destruct Hs as (? & ? & ?). pose proof (index_bound b pos Hb Hp).
  rewrite (i32_id (b * h)) by nia. apply i32_id. nia.
Qed.

Lemma perm_row_spec n perms b j :
  0 <= b < bc → h * bc <= zlen perms → 0 <= j → Z.of_nat n = h - j →
  ∃ perms', perm_row n perms b ((b * 31) mod h) (b mod h + 1) j h = Ok perms' ∧
    zlen perms' = zlen perms ∧
    (∀ pos, j <= pos < h → getz perms' (b * h + pos) = perm_val h b pos) ∧
    (∀ x, 0 <= x → ¬ (b * h + j <= x < b * h + h) → getz perms' x = getz perms x).
Proof.
  intros Hb. destruct Hs as (Hbc & Hov & Hh).
  revert perms j. induction n as [|n IH]; intros perms j Hl Hj Hn; cbn [perm_row].
  { exists perms. split; [done|]. split; [done|]. split; [lia|done]. }
  pose proof (index_bound b j Hb ltac:(lia)). rewrite rd_index by lia.
  rewrite wr_ok by lia. cbn [mbind res_bind].
  pose proof (Z.mod_pos_bound (b * 31) h ltac:(lia)). rewrite (Z.mod_small b h) in * by lia.
  assert (0 <= (b + 1) * j < 2 ^ 31 - h) by nia.
  rewrite (i32_id ((b + 1) * j)), i32_id by lia. rewrite Z.rem_mod_nonneg by nia.
  destruct (IH (setz perms (b * h + j) (((b * 31) mod h + (b + 1) * j) mod h)) (j + 1))
    as (perms' & -> & Hl' & Hv & Hf); [by rewrite zlen_setz|lia|lia|].
  exists perms'. rewrite zlen_setz in Hl'. split; [done|]. split; [done|]. split.
  - intros pos Hpos. destruct (decide (pos = j)) as [->|]; [|apply Hv; lia].
    rewrite Hf by lia. rewrite getz_setz_eq by lia. unfold perm_val. by rewrite (Z.mod_small b h) by lia.
  - intros x Hx Hne. rewrite Hf by lia. apply getz_setz_ne; lia.
Qed.

Lemma perm_rows_spec n perms b :
  0 <= b → h * bc <= zlen perms → Z.of_nat n = bc - b →
  ∃ perms', perm_rows n perms b h = Ok perms' ∧ zlen perms' = zlen perms ∧
    (∀ b' pos, b <= b' < bc → 0 <= pos < h → getz perms' (b' * h + pos) = perm_val h b' pos) ∧
    (∀ x, 0 <= x < b * h → getz perms' x = getz perms x).
Proof.
  destruct Hs as (Hbc & Hov & Hh).
  revert perms b. induction n as [|n IH]; intros perms b Hb Hl Hn; cbn [perm_rows].
  { exists perms. split; [done|]. split; [done|]. split; [lia|done]. }
  rewrite (i32_id (b * 31)) by nia. rewrite !Z.rem_mod_nonneg by lia.
  destruct (perm_row_spec (Z.to_nat h) perms b 0) as (p1 & -> & Hl1 & Hv1 & Hf1); [lia..|].
  cbn [mbind res_bind].
  destruct (IH p1 (b + 1)) as (p2 & -> & Hl2 & Hv2 & Hf2); [lia..|].
  exists p2. split; [done|]. split; [lia|]. split.
  - intros b' pos Hb' Hpos. destruct (decide (b' = b)) as [->|]; [|apply Hv2; lia].
    rewrite Hf2 by nia. by apply Hv1.
  - intros x Hx. rewrite Hf2, Hf1 by nia. done.
Qed.
End permutations.

(** ** The rows

    Backend [b] at position [pos] is visited at step [pos * bc + b]. Step [p] is
    a hit for hash [i] if the permutation of its backend has [i] there. *)
Definition hit (h bc i p : Z) : Prop := perm_val h (p mod bc) (p / bc) = i.
#[global] Instance hit_dec h bc i p : Decision (hit h bc i p).
Proof. unfold hit. apply _. Defined.

(** The hits from step [p] on, and the row they make. *)
Definition hits (h bc i p : Z) : list Z := filter (hit h bc i) (seqZ p (h * bc - p)).
Definition preference_list (h bc i : Z) : list Z := (λ p, p mod bc) <$> hits h bc i 0.

(** Row [i] of the table. *)
Definition cht_row (cht : Vector Z) (bc i : Z) : list Z :=
  (λ j, getz (data cht) (i * bc + j)) <$> seqZ 0 bc.

Lemma step_split p bc : 0 < bc → p = p / bc * bc + p mod bc ∧ 0 <= p mod bc < bc.
Proof. intros. pose proof (Z.div_mod p bc ltac:(lia)). pose proof (Z.mod_pos_bound p bc). lia. Qed.

Lemma step_unique bc p pos b :
  0 <= b < bc → p = pos * bc + b → p mod bc = b ∧ p / bc = pos.
Proof.
  intros Hb ->. split.
  - symmetry. apply (Z.mod_unique _ _ pos); lia.
  - symmetry. apply (Z.div_unique _ _ _ b); lia.
Qed.

Lemma step_succ p bc :
  0 < bc → (p + 1) mod bc = (if bc <=? p mod bc + 1 then 0 else p mod bc + 1) ∧
    (p + 1) / bc = (if bc <=? p mod bc + 1 then p / bc + 1 else p / bc).
Proof.
  intros Hb. pose proof (step_split p bc Hb) as [E Hr].
  destruct (Z.leb_spec bc (p mod bc + 1)); apply step_unique; lia.
Qed.

Lemma hits_unfold h bc i p : p < h * bc →
  hits h bc i p = if decide (hit h bc i p) then p :: hits h bc i (p + 1) else hits h bc i (p + 1).
Proof.
  intros Hp. unfold hits. rewrite seqZ_cons by lia. cbn [filter list_filter].
  replace (Z.succ p) with (p + 1) by lia.
  replace (Z.pred (h * bc - p)) with (h * bc - (p + 1)) by lia. done.
Qed.

Lemma filter_seqZ_increasing (P : Z → Prop) `{!∀ x, Decision (P x)} a n (k l : nat) p q :
  filter P (seqZ a n) !! k = Some p → filter P (seqZ a n) !! l = Some q → (k < l)%nat → p < q.
Proof.
  destruct (Z.lt_ge_cases n 0) as [|Hn]; [by rewrite seqZ_nil by lia|].
  rewrite <- (Z2Nat.id n Hn). generalize (Z.to_nat n) as m. intros m. clear n Hn.
  revert a k l. induction m as [|m IH]; intros a k l; [by rewrite seqZ_nil by lia|].
  rewrite seqZ_cons by lia. replace (Z.pred (Z.of_nat (S m))) with (Z.of_nat m) by lia.
  destruct (decide (P a)) as [Ha|Ha]; [rewrite filter_cons_True by done|
    rewrite filter_cons_False by done; apply IH].
  destruct l as [|l]; [lia|]. destruct k as [|k]; simpl; [|intros; eapply IH; [done..|lia]].
  intros [= <-] Hq%list_elem_of_lookup_2 _.
  apply list_elem_of_filter in Hq as [_ Hq%elem_of_seqZ]. lia.
Qed.

Section rows.
Variables (h bc : Z) (perms : list Z).
Hypothesis Hs : sizes_ok h bc.
Hypothesis Hlen : h * bc <= zlen perms.
Hypothesis Hperms : ∀ b pos, 0 <= b < bc → 0 <= pos < h →
  getz perms (b * h + pos) = perm_val h b pos.

Lemma search_spec i fuel p q qs :
  0 < bc → 0 <= p → hits h bc i p = q :: qs → h * bc - p <= Z.of_nat fuel →
  search fuel perms i h bc (p mod bc) (p / bc) = Ok (q mod bc, q / bc) ∧
  hits h bc i (q + 1) = qs ∧ p <= q < h * bc ∧ hit h bc i q.
Proof.
  intros Hbc. revert p. induction fuel as [|fuel IH]; intros p Hp Eh Hf.
  { unfold hits in Eh. rewrite seqZ_nil in Eh by lia. done. }
  assert (Hlt : p < h * bc).
  { destruct (Z.lt_ge_cases p (h * bc)); [done|]. unfold hits in Eh.
    by rewrite seqZ_nil in Eh by lia. }
  pose proof (step_split p bc Hbc) as [E Hr].
  assert (Hpos : 0 <= p / bc < h) by (split; [apply Z.div_pos; lia|nia]).
  cbn [search]. rewrite (rd_index h bc Hs) by done.
  pose proof (index_bound h bc _ _ Hr Hpos). rewrite rd_ok by lia. rewrite Hperms by done.
  cbn [mbind res_bind]. rewrite (hits_unfold _ _ _ _ Hlt) in Eh.
  change (perm_val h (p mod bc) (p / bc) = i) with (hit h bc i p) in *.
  destruct (Z.eqb_spec (perm_val h (p mod bc) (p / bc)) i) as [Hhit|Hno].
  - rewrite decide_True in Eh by exact Hhit. injection Eh as <- <-. split_and!; [done..|lia|lia|exact Hhit].
  - rewrite decide_False in Eh by exact Hno.
    assert (Hlt' : p + 1 < h * bc).
    { destruct (Z.lt_ge_cases (p + 1) (h * bc)); [done|]. unfold hits in Eh.
      by rewrite seqZ_nil in Eh by lia. }
    destruct (IH (p + 1) ltac:(lia) Eh ltac:(lia)) as (E' & ? & ? & ?).
    destruct (step_succ p bc Hbc) as [Em Ed]. rewrite Em, Ed in E'.
    split_and!; [|done|lia|lia|done].
    destruct (Z.leb_spec bc (p mod bc + 1)); [|done].
    rewrite (proj2 (Z.ltb_lt _ _)) by nia. done.
Qed.

Lemma fill_row_spec i n cht j p :
  0 < bc → 0 <= i < h → h * bc <= zlen (data cht) → 0 <= j → Z.of_nat n = bc - j → 0 <= p →
  length (hits h bc i p) = n →
  ∃ cht', fill_row n perms cht i h bc j (p mod bc) (p / bc) = Ok cht' ∧
    zlen (data cht') = zlen (data cht) ∧
    (∀ k, j <= k < bc → getz (data cht') (i * bc + k) = getz (hits h bc i p) (k - j) mod bc) ∧
    (∀ x, 0 <= x → ¬ (i * bc + j <= x < i * bc + bc) → getz (data cht') x = getz (data cht) x).
Proof.
  intros Hbc Hi. revert cht j p. induction n as [|n IH]; intros cht j p Hl Hj Hn Hp Hh;
    cbn [fill_row].
  { exists cht. split; [done|]. split; [done|]. split; [lia|done]. }
  destruct (hits h bc i p) as [|q qs] eqn:Eh; [done|].
  destruct (search_spec i (Z.to_nat (h * bc)) p q qs Hbc Hp Eh ltac:(lia)) as (-> & Eq & Hq & Hhit).
  assert (Hx : i * bc + j < h * bc) by nia. destruct Hs as (Hb & Hov & Hh30).
  rewrite (proj2 (Z.ltb_lt _ _)) by (apply Z.div_lt_upper_bound; lia).
  cbn [c_assert mbind res_bind].
  rewrite (i32_id (i * bc)) by nia. rewrite (i32_id (i * bc + j)) by nia.
  rewrite vector_borrow_ok by nia. cbn [mbind res_bind]. rewrite store_cell by nia.
  cbn [mbind res_bind vector_return].
  pose proof (step_split q bc Hbc) as [E Hr].
  rewrite (u32_id (q mod bc)) by nia.
  set (c1 := mk_vector _ _ _).
  destruct (IH c1 (j + 1) (q + 1)) as (cht' & E' & Hl' & Hv & Hf);
    [by simpl; rewrite zlen_setz|lia|lia|lia|by rewrite Eq; simpl in Hh; lia|].
  destruct (step_succ q bc Hbc) as [Em Ed]. rewrite Em, Ed in E'.
  exists cht'. split; [by destruct (bc <=? q mod bc + 1)|].
  rewrite Hl'. simpl in Hf. split; [by simpl; rewrite zlen_setz|]. split.
  - intros k Hk. destruct (decide (k = j)) as [->|Hne].
    + rewrite Hf by nia. rewrite getz_setz_eq by nia. by replace (j - j) with 0 by lia.
    + rewrite Hv by lia. rewrite Eq. unfold getz.
      replace (Z.to_nat (k - j)) with (S (Z.to_nat (k - (j + 1)))) by lia. done.
  - intros x Hx0 Hne. rewrite Hf by lia. apply getz_setz_ne; [lia|nia|lia].
Qed.
End rows.

(** ** A prime number of hashes makes every row a permutation of the backends *)
Section prime.
Variables (h bc : Z).
Hypothesis Hprime : prime h.
Hypothesis Hbc : 0 < bc < h.

Lemma not_divisible x : - h < x < h → (h | x) → x = 0.
Proof. intros Hx [q ->]. destruct (decide (q = 0)) as [->|]; [lia|nia]. Qed.

Lemma perm_val_inj b pos1 pos2 :
  0 <= b < bc → 0 <= pos1 < h → 0 <= pos2 < h →
  perm_val h b pos1 = perm_val h b pos2 → pos1 = pos2.
Proof.
  intros Hb Hp1 Hp2 E. unfold perm_val in E. rewrite (Z.mod_small b h) in E by lia.
  assert (Hd : (h | (b + 1) * (pos1 - pos2))).
  { apply Z.mod_divide; [lia|].
    replace ((b + 1) * (pos1 - pos2)) with
      (((b * 31) mod h + (b + 1) * pos1) - ((b * 31) mod h + (b + 1) * pos2)) by lia.
    rewrite Zminus_mod, E, Z.sub_diag. apply Z.mod_0_l. lia. }
  destruct (prime_mult h Hprime _ _ Hd) as [Hd'|Hd']; apply not_divisible in Hd'; lia.
Qed.

Lemma perm_val_surj b i : 0 <= b < bc → 0 <= i < h → ∃ pos, 0 <= pos < h ∧ perm_val h b pos = i.
Proof.
  intros Hb Hi. assert (Hperm : perm_val h b <$> seqZ 0 h ≡ₚ seqZ 0 h).
  { apply submseteq_length_Permutation; [|by rewrite length_fmap].
    apply NoDup_submseteq.
    - apply NoDup_fmap_2_strong; [|apply NoDup_seqZ].
      intros x y Hx%elem_of_seqZ Hy%elem_of_seqZ. apply perm_val_inj; lia.
    - intros x (pos & -> & _)%list_elem_of_fmap. apply elem_of_seqZ.
      pose proof (Z.mod_pos_bound ((b * 31) mod h + (b mod h + 1) * pos) h ltac:(lia)).
      unfold perm_val. lia. }
  assert (Hin : i ∈ perm_val h b <$> seqZ 0 h) by (rewrite Hperm; apply elem_of_seqZ; lia).
  apply list_elem_of_fmap in Hin as (pos & -> & Hpos%elem_of_seqZ). exists pos. split; [lia|done].
Qed.

Lemma hits_elem i p : p ∈ hits h bc i 0 ↔ 0 <= p < h * bc ∧ hit h bc i p.
Proof. unfold hits. rewrite list_elem_of_filter, elem_of_seqZ. split; intros; split_and?; tauto || lia. Qed.

Lemma step_bounds p : 0 <= p < h * bc → 0 <= p / bc < h ∧ 0 <= p mod bc < bc.
Proof.
  intros Hp. pose proof (step_split p bc ltac:(lia)) as [E Hr].
  split; [|done]. split; [apply Z.div_pos; lia|nia].
Qed.

Lemma preference_list_permutation i : 0 <= i < h → preference_list h bc i ≡ₚ seqZ 0 bc.
Proof.
  intros Hi. apply NoDup_Permutation; [|apply NoDup_seqZ|].
  - apply NoDup_fmap_2_strong; [|apply NoDup_filter, NoDup_seqZ].
    intros p q [Hp Hpi]%hits_elem [Hq Hqi]%hits_elem E.
    pose proof (step_bounds p Hp) as [Hp1 Hp2]. pose proof (step_bounds q Hq) as [Hq1 Hq2].
    unfold hit in *. rewrite <- Hqi, <- E in Hpi.
    apply perm_val_inj in Hpi; [|done..].
    pose proof (step_split p bc ltac:(lia)) as [Ep _]. pose proof (step_split q bc ltac:(lia)) as [Eq _].
    congruence.
  - intros b. unfold preference_list. rewrite list_elem_of_fmap, elem_of_seqZ. split.
    + intros (p & -> & [Hp _]%hits_elem). pose proof (step_bounds p Hp). lia.
    + intros Hb. destruct (perm_val_surj b i ltac:(lia) Hi) as (pos & Hpos & E).
      destruct (step_unique bc (pos * bc + b) pos b ltac:(lia) eq_refl) as [E1 E2].
      exists (pos * bc + b). split; [done|]. apply hits_elem. split; [nia|].
      unfold hit. by rewrite E1, E2.
Qed.

Lemma hits_length i : 0 <= i < h → length (hits h bc i 0) = Z.to_nat bc.
Proof.
  intros Hi. pose proof (preference_list_permutation i Hi) as Hp%Permutation_length.
  unfold preference_list in Hp. by rewrite length_fmap, length_seqZ in Hp.
Qed.

(** The rows list the backends by the position they give to the hash. *)
Lemma preference_list_sorted i k l pos pos' :
  0 <= i < h → 0 <= k < l → l < bc → 0 <= pos < h → 0 <= pos' < h →
  perm_val h (getz (preference_list h bc i) k) pos = i →
  perm_val h (getz (preference_list h bc i) l) pos' = i → pos <= pos'.
Proof.
  intros Hi Hk Hl Hpos Hpos' E E'. pose proof (hits_length i Hi) as Hlen.
  assert (Hg : ∀ x, 0 <= x < bc → ∃ p, hits h bc i 0 !! Z.to_nat x = Some p ∧
    getz (preference_list h bc i) x = p mod bc ∧ 0 <= p < h * bc ∧ hit h bc i p).
  { intros x Hx. destruct (lookup_lt_is_Some_2 (hits h bc i 0) (Z.to_nat x)) as [p Ep]; [lia|].
    exists p. split; [done|]. split.
    - unfold getz, preference_list. apply list_lookup_total_correct. by rewrite list_lookup_fmap, Ep.
    - by apply hits_elem, (list_elem_of_lookup_2 _ (Z.to_nat x)). }
  destruct (Hg k ltac:(lia)) as (p & Ep & Eb & Hp & Hit).
  destruct (Hg l ltac:(lia)) as (q & Eq & Eb' & Hq & Hit').
  assert (p < q) as Hlt by (eapply filter_seqZ_increasing; [exact Ep|exact Eq|lia]).
  rewrite Eb in E. rewrite Eb' in E'. unfold hit in *.
  pose proof (step_bounds p Hp) as [Hp1 Hp2]. pose proof (step_bounds q Hq) as [Hq1 Hq2].
  rewrite <- Hit in E. rewrite <- Hit' in E'.
  apply (perm_val_inj _ _ _ Hp2 Hpos Hp1) in E. apply (perm_val_inj _ _ _ Hq2 Hpos' Hq1) in E'.
  subst pos pos'.
  apply Z.div_le_mono; lia.
Qed.
End prime.

(** ** The whole table *)
Section table.
Variables (h bc : Z).
Hypothesis Hs : sizes_ok h bc.
Hypothesis Hprime : prime h.
Hypothesis Hpos : 0 < bc.

Lemma fill_rows_spec perms n cht i :
  h * bc <= zlen perms →
  (∀ b pos, 0 <= b < bc → 0 <= pos < h → getz perms (b * h + pos) = perm_val h b pos) →
  h * bc <= zlen (data cht) → 0 <= i → Z.of_nat n = h - i →
  ∃ cht', fill_rows n perms cht i h bc = Ok cht' ∧ zlen (data cht') = zlen (data cht) ∧
    (∀ i' k, i <= i' < h → 0 <= k < bc →
       getz (data cht') (i' * bc + k) = getz (preference_list h bc i') k) ∧
    (∀ x, 0 <= x < i * bc → getz (data cht') x = getz (data cht) x).
Proof.
  intros Hl Hperms. destruct Hs as (Hbc & _ & _).
  revert cht i. induction n as [|n IH]; intros cht i Hc Hi Hn; cbn [fill_rows].
  { exists cht. split; [done|]. split; [done|]. split; [lia|done]. }
  pose proof (hits_length h bc Hprime ltac:(lia) i ltac:(lia)) as Hh.
  destruct (fill_row_spec h bc perms Hs Hl Hperms i (Z.to_nat bc) cht 0 0)
    as (c1 & E1 & Hl1 & Hv1 & Hf1); [lia..|done|].
  rewrite Z.mod_0_l, Z.div_0_l in E1 by lia. rewrite E1. cbn [mbind res_bind].
  destruct (IH c1 (i + 1)) as (c2 & -> & Hl2 & Hv2 & Hf2); [lia..|].
  exists c2. split; [done|]. split; [lia|]. split.
  - intros i' k Hi' Hk. destruct (decide (i' = i)) as [->|]; [|apply Hv2; lia].
    rewrite Hf2, Hv1 by nia. rewrite Z.sub_0_r. unfold getz, preference_list.
    destruct (lookup_lt_is_Some_2 (hits h bc i 0) (Z.to_nat k)) as [p Ep]; [lia|].
    rewrite (list_lookup_total_correct _ _ _ Ep). symmetry. apply list_lookup_total_correct.
    by rewrite list_lookup_fmap, Ep.
  - intros x Hx. rewrite Hf2, Hf1 by nia. done.
Qed.

Lemma lb_fill_cht_spec ok junk cht hp :
  heap_wf hp → ok (next_block hp) = true → h * (bc + 1) <= zlen junk → h * bc <= zlen (data cht) →
  ∃ cht' hp', lb_fill_cht ok junk cht h bc hp = Ok (cht', hp') ∧ live hp' = live hp ∧ heap_wf hp' ∧
    zlen (data cht') = zlen (data cht) ∧
    ∀ i, 0 <= i < h → cht_row cht' bc i = preference_list h bc i.
Proof.
  intros Hwf Hok Hj Hc. destruct Hs as (Hbc & Hov & Hh). unfold lb_fill_cht.
  rewrite prime_loop_ok by (done || lia). cbn [mbind res_bind].
  rewrite (proj2 (Z.ltb_lt _ _)) by lia. cbn [c_assert mbind res_bind].
  unfold malloc. rewrite Hok.
  destruct (perm_rows_spec h bc Hs (Z.to_nat bc) junk 0) as (perms & -> & Hlp & Hvp & _); [nia..|].
  cbn [mbind res_bind].
  destruct (fill_rows_spec perms (Z.to_nat h) cht 0) as (cht' & -> & Hl' & Hv & _);
    [nia|intros; apply Hvp; lia|nia|lia|lia|].
  cbn [mbind res_bind].
  pose proof (heap_wf_malloc hp Hwf) as Hwf'.
  pose proof (free_below (next_block hp) [] (S (next_block hp)) (live hp)) as Hfree.
  simpl in Hfree. rewrite Hfree by apply Hwf'. cbn [mbind res_bind].
  eexists cht', _. split; [done|]. split; [done|]. split; [|split; [lia|]].
  - split; simpl; [apply Hwf|]. intros b Hb. destruct Hwf as [_ Hlt]. specialize (Hlt b Hb). lia.
  - intros i Hi. pose proof (preference_list_permutation h bc Hprime ltac:(lia) i Hi) as Hp.
    apply Permutation_length in Hp. rewrite length_seqZ in Hp.
    apply getz_ext; unfold cht_row, zlen; rewrite length_fmap, length_seqZ; [lia|].
    intros k Hk. rewrite <- Hv by lia. unfold getz at 1. apply list_lookup_total_correct.
    rewrite list_lookup_fmap, lookup_seqZ_lt by lia. simpl. do 2 f_equal. lia.
Qed.
End table.

(** C16: For a prime number of hashes larger than the number of backends (and sizes
    whose products fit an [int]), [lb_fill_cht] returns, its assertions hold and it
    stays inside its arrays; it releases its scratch memory; and the row of every
    hash lists every backend exactly once, a backend whose permutation has the
    hash at an earlier position before one that has it later. *)
Theorem lb_fill_cht_correct h bc ok junk cht hp :
  sizes_ok h bc → 0 < bc → prime h →
  heap_wf hp → ok (next_block hp) = true → h * (bc + 1) <= zlen junk → h * bc <= zlen (data cht) →
  ∃ cht' hp', lb_fill_cht ok junk cht h bc hp = Ok (cht', hp') ∧ live hp' = live hp ∧
    ∀ i, 0 <= i < h →
      cht_row cht' bc i ≡ₚ seqZ 0 bc ∧
      ∀ k l pos pos', 0 <= k < l → l < bc → 0 <= pos < h → 0 <= pos' < h →
        perm_val h (getz (cht_row cht' bc i) k) pos = i →
        perm_val h (getz (cht_row cht' bc i) l) pos' = i → pos <= pos'.
Proof.
  intros Hs Hb Hp Hwf Hok Hj Hc.
  destruct (lb_fill_cht_spec h bc Hs Hp Hb ok junk cht hp Hwf Hok Hj Hc)
    as (cht' & hp' & E & Hl & _ & _ & Hrow).
  exists cht', hp'. split; [done|]. split; [done|]. intros i Hi. rewrite Hrow by done.
  destruct Hs as (Hbc & _ & _). split; [apply preference_list_permutation; [done|lia|done]|].
  intros k l pos pos'. apply preference_list_sorted; [done|lia|done].
Qed.

Lemma lb_fill_cht_correct_witness :
  ∃ cht' hp', lb_fill_cht (λ _, true) (replicate 9 7) (mk_vector (replicate 6 0) 4 6) 3 2 (mk_heap 0 []) =
      Ok (cht', hp') ∧ live hp' = [] ∧
    ∀ i, 0 <= i < 3 →
      cht_row cht' 2 i ≡ₚ seqZ 0 2 ∧
      ∀ k l pos pos', 0 <= k < l → l < 2 → 0 <= pos < 3 → 0 <= pos' < 3 →
        perm_val 3 (getz (cht_row cht' 2 i) k) pos = i →
        perm_val 3 (getz (cht_row cht' 2 i) l) pos' = i → pos <= pos'.
Proof.
  apply (lb_fill_cht_correct 3 2 (λ _, true) (replicate 9 7) (mk_vector (replicate 6 0) 4 6)
    (mk_heap 0 [])); [by split_and!|done|apply prime_3| |done..].
  split; simpl; [constructor|]. by intros b ?%elem_of_nil.
Defined.

(** Any other sizes are refused. *)
Lemma lb_fill_cht_refuses ok junk cht h bc hp :
  h < 2 ^ 30 → 0 < bc → ¬ (prime h ∧ bc < h) →
  lb_fill_cht ok junk cht h bc hp = Err AssertFail.
Proof.
  intros Hh Hb Hn. unfold lb_fill_cht. destruct (decide (bc < h)) as [Hlt|Hge].
  - destruct (small_divisor h) as (d & Hd & Hsq & Hdiv); [lia|tauto|].
    rewrite (prime_loop_fails h d) by (done || lia). done.
  - destruct (decide (2 <= h)) as [H2|H2].
    + destruct (prime_dec h) as [Hp|Hp].
      * rewrite prime_loop_ok by (done || lia). cbn [mbind res_bind].
        by rewrite (proj2 (Z.ltb_ge _ _)) by lia.
      * destruct (small_divisor h) as (d & Hd & Hsq & Hdiv); [done..|].
        by rewrite (prime_loop_fails h d) by (done || lia).
    + cbn [prime_loop]. rewrite (i32_id (2 * 2)) by done. rewrite (proj2 (Z.leb_gt _ _)) by lia.
      cbn [mbind res_bind]. by rewrite (proj2 (Z.ltb_ge _ _)) by lia.
Qed.

(** Any other configuration is refused: if the number of hashes is not prime
    or not larger than the number of backends, an assertion of [lb_fill_cht]
    fails before the table is touched. *)
Theorem lb_fill_cht_refuses_other ok junk cht h bc hp :
  h < 2 ^ 30 → 0 < bc → ¬ (prime h ∧ bc < h) →
  lb_fill_cht ok junk cht h bc hp = Err AssertFail.
Proof. apply lb_fill_cht_refuses. Qed.

Lemma lb_fill_cht_refuses_other_witness :
  lb_fill_cht (λ _, true) (replicate 15 7) (mk_vector (replicate 10 0) 4 10) 4 2 (mk_heap 0 []) =
    Err AssertFail.
Proof.
  apply (lb_fill_cht_refuses_other _ _ _ 4 2); [done|done|]. intros [Hp _].
  apply prime_alt in Hp as [_ Hp]. apply (Hp 2); [done|]. by exists 2.
Defined.

(** ** Looking up *)

(** The entries the lookup visits: a window of [bc] entries from the hash on. *)
Definition window (cht : Vector Z) (h bc hash : Z) : list Z :=
  (λ k, getz (data cht) ((hash + k) mod h)) <$> seqZ 0 bc.

Definition alive (ch : dchain) (b : Z) : bool := dchain_allocated_fp ch b.

(** The first entry that is alive. *)
Definition first_alive (ch : dchain) (l : list Z) : option Z := List.find (alive ch) l.

Lemma first_alive_Some ch l b : first_alive ch l = Some b → b ∈ l ∧ b ∈ dchain_indexes_fp ch.
Proof.
  intros [Hin Ha]%find_some. rewrite <- dchain_allocated_spec, list_elem_of_In. done.
Qed.

Lemma find_loop_spec ch chain cht h hash n i :
  double_chainp ch chain → 0 < h < 2 ^ 31 → h <= zlen (data cht) → 0 <= hash < 2 ^ 31 →
  (∀ x, 0 <= x < h → 0 <= getz (data cht) x < dchain_index_range_fp ch) →
  dchain_index_range_fp ch < 2 ^ 31 → 0 <= i → i + Z.of_nat n < 2 ^ 31 →
  find_loop n cht chain hash i h =
    Ok (first_alive ch ((λ k, getz (data cht) ((hash + k) mod h)) <$> seqZ i (Z.of_nat n))).
Proof.
  intros Hch Hh Hl Hhash Hr Hrange. revert i. induction n as [|n IH]; intros i Hi Hn; [done|].
  cbn [find_loop]. rewrite u64_id by lia.
  pose proof (Z.mod_pos_bound (hash + i) h ltac:(lia)) as Hm. rewrite i32_id by lia.
  rewrite vector_borrow_ok by lia. cbn [mbind res_bind]. rewrite load_cell by lia.
  cbn [mbind res_bind]. pose proof (Hr _ Hm) as Hc. rewrite i32_id by lia.
  rewrite (dchain_is_index_allocated_spec Hch) by done. cbn [mbind res_bind].
  rewrite seqZ_cons by lia. rewrite fmap_cons. unfold first_alive at 1. cbn [List.find].
  unfold alive at 1. destruct (dchain_allocated_fp ch _); cbn [Z.b2z Z.eqb negb mbind res_bind vector_return];
    [done|]. rewrite IH by lia.
  replace (Z.pred (Z.of_nat (S n))) with (Z.of_nat n) by lia.
  by replace (Z.succ i) with (i + 1) by lia.
Qed.

Lemma lb_flow_hash_bound flow : 0 <= lb_flow_hash flow < 2 ^ 31.
Proof.
  unfold lb_flow_hash. set (x := u64 _). clearbody x.
  pose proof (Z.mod_pos_bound x INT_MAX ltac:(done)) as Hb. unfold INT_MAX in *.
  rewrite i32_id by lia. lia.
Qed.

(** The table right after [lb_fill_cht] holds backends only. *)
Definition cht_ok (cht : Vector Z) (h bc : Z) : Prop :=
  0 < h < 2 ^ 31 ∧ 0 < bc < 2 ^ 31 ∧ h <= zlen (data cht) ∧
  ∀ x, 0 <= x < h → 0 <= getz (data cht) x < bc.

Lemma filled_cht_ok cht h bc :
  sizes_ok h bc → 0 < bc → prime h → h * bc <= zlen (data cht) →
  (∀ i, 0 <= i < h → cht_row cht bc i = preference_list h bc i) → cht_ok cht h bc.
Proof.
  intros (Hb & Hov & Hh) Hpos Hp Hl Hrow. split_and!; [lia..|nia|].
  intros x Hx. pose proof (step_split x bc Hpos) as [E Hr].
  assert (Hi : 0 <= x / bc < h) by (split; [apply Z.div_pos; lia|nia]).
  assert (Hin : getz (data cht) x ∈ cht_row cht bc (x / bc)).
  { unfold cht_row. apply list_elem_of_fmap. exists (x mod bc). split; [by rewrite <- E|].
    apply elem_of_seqZ. lia. }
  rewrite Hrow, (preference_list_permutation h bc Hp ltac:(lia) _ Hi) in Hin by done.
  apply elem_of_seqZ in Hin. lia.
Qed.

Lemma lb_find_spec flow cht ch chain h bc :
  cht_ok cht h bc → double_chainp ch chain → dchain_index_range_fp ch = bc →
  lb_find_preferred_available_backend flow cht chain h bc =
    Ok (first_alive ch (window cht h bc (lb_flow_hash flow))).
Proof.
  intros (Hh & Hb & Hl & Hr) Hch <-. unfold lb_find_preferred_available_backend, window.
  pose proof (lb_flow_hash_bound flow). rewrite u64_id by lia.
  rewrite (find_loop_spec ch) by (done || lia). by rewrite Z2Nat.id by lia.
Qed.

(** The lookup is memory safe, and the backend it chooses is the first one
    alive among [backend_capacity] consecutive entries of the table, starting at
    entry [hash mod cht_height]; it gives up only if none of these is alive. *)
Theorem lb_find_preferred_first_alive flow cht ch chain h bc :
  cht_ok cht h bc → double_chainp ch chain → dchain_index_range_fp ch = bc →
  ∃ r, lb_find_preferred_available_backend flow cht chain h bc = Ok r ∧
    match r with
    | Some b => ∃ l1 l2, window cht h bc (lb_flow_hash flow) = l1 ++ b :: l2 ∧
                  dchain_allocated_fp ch b = true ∧ Forall (λ c, dchain_allocated_fp ch c = false) l1
    | None => Forall (λ c, dchain_allocated_fp ch c = false) (window cht h bc (lb_flow_hash flow))
    end.
Proof.
  intros Hc Hch E. rewrite (lb_find_spec flow cht ch chain h bc Hc Hch E).
  eexists. split; [done|]. generalize (window cht h bc (lb_flow_hash flow)) as l.
  induction l as [|c l IH]; [constructor|]. unfold first_alive in *. cbn [List.find].
  unfold alive at 1. destruct (dchain_allocated_fp ch c) eqn:Ea.
  - exists [], l. split; [done|]. split; [done|constructor].
  - destruct (List.find (alive ch) l).
    + destruct IH as (l1 & l2 & -> & Hb & Hl). exists (c :: l1), l2. split; [done|].
      split; [done|by constructor].
    + by constructor.
Qed.

(** Three hashes and two backends, of which only the first is alive. *)
Definition small_cht : Vector Z := mk_vector [0; 1; 1; 0; 0; 1] 4 6.
Definition one_alive : DoubleChain :=
  match dchain_allocate_new_index (fresh_chain 2) 0 5 with
  | Ok (_, chain, _) => chain
  | Err _ => fresh_chain 2
  end.

Lemma one_alive_ok : double_chainp (mk_dchain [(0, 5)] 2 0 5) one_alive.
Proof.
  destruct (dchain_allocate_new_index_spec (fresh_chain_ok 2 ltac:(done)) 0 5 ltac:(done))
    as (i & c1 & E1 & _ & _ & H1). unfold one_alive. rewrite E1.
  assert (i = 0) as -> by (vm_compute in E1; congruence). exact H1.
Qed.

Lemma small_cht_ok : cht_ok small_cht 3 2.
Proof.
  split_and!; [done..|]. intros x Hx.
  assert (x = 0 ∨ x = 1 ∨ x = 2) as [->|[->| ->]] by lia; done.
Qed.

Lemma lb_find_preferred_first_alive_witness :
  ∃ r, lb_find_preferred_available_backend (lb_flowc 10 20 30 6) small_cht one_alive 3 2 = Ok r ∧
    match r with
    | Some b => ∃ l1 l2, window small_cht 3 2 (lb_flow_hash (lb_flowc 10 20 30 6)) = l1 ++ b :: l2 ∧
                  dchain_allocated_fp (mk_dchain [(0, 5)] 2 0 5) b = true ∧
                  Forall (λ c, dchain_allocated_fp (mk_dchain [(0, 5)] 2 0 5) c = false) l1
    | None => Forall (λ c, dchain_allocated_fp (mk_dchain [(0, 5)] 2 0 5) c = false)
                (window small_cht 3 2 (lb_flow_hash (lb_flowc 10 20 30 6)))
    end.
Proof.
  apply (lb_find_preferred_first_alive _ _ _ _ 3 2 small_cht_ok one_alive_ok). done.
Defined.

(** The lookup does not use the rows of the table: with the table that
    [lb_fill_cht] makes for three hashes and two backends, of which the first is
    alive, the lookup for some flow finds no backend. *)
Theorem lb_lookup_misses_backend :
  (∃ h, lb_fill_cht (λ _, true) (replicate 9 7) (mk_vector (replicate 6 0) 4 6) 3 2 (mk_heap 0 []) =
     Ok (small_cht, h)) ∧
  dchain_is_index_allocated one_alive 0 = Ok 1 ∧
  lb_find_preferred_available_backend (lb_flowc 10 22 30 6) small_cht one_alive 3 2 = Ok None.
Proof. split; [eexists; reflexivity|]. split; vm_compute; reflexivity. Qed.
