(* ===== verification/Balancer.v ===== *)
(** * VigBalancer

    Models [lb_balancer.c] and [lb_main.c] of [vigbalancer/]: backends announce
    themselves with heartbeats that come in on a device other than 0; packets of
    clients come in on device 0 and are sent to the backend of their flow, or to
    one chosen through the consistent hashing table of [Cht.v] when the flow is
    new or its backend is gone. *)

From Stdlib Require Import Znumtheory.
From S2P Require Import Prelude.
From S2P Require Import Malloc.
From S2P Require Import DChainImpl.
From S2P Require Import DChain.
From S2P Require Import MapSpec.
From S2P Require Import Map.
From S2P Require Import Vector.
From S2P Require Import Coherence.
From S2P Require Import Fresh.
From S2P Require Import Expirator.
From S2P Require Import Table.
From S2P Require Import NfUtil.
From S2P Require Import Cht.

(** ** State: [lb_config.h], [struct LoadBalancer]

    [MF] and [MB] are the implementations of the maps of flows and of backend
    addresses. *)
Record lb_config := mk_lb_config {
  device_macs : list (list Z); cfg_flow_capacity : Z; cfg_flow_expiration_time : Z;
  cfg_backend_capacity : Z; cfg_cht_height : Z; cfg_backend_expiration_time : Z }.

Record LoadBalancer (MF MB : Type) := mk_lb {
  flow_capacity : Z; flow_expiration_time : Z;
  flow_to_flow_id : MF; flow_heap : Vector LoadBalancedFlow; flow_chain : DoubleChain;
  flow_id_to_backend_id : Vector Z;
  cht_height : Z; backend_expiration_time : Z; backend_capacity : Z;
  backend_ips : Vector Z; backends : Vector LoadBalancedBackend;
  ip_to_backend_id : MB; active_backends : DoubleChain; cht : Vector Z }.
Arguments mk_lb {MF MB}.
Arguments flow_capacity {MF MB}.
Arguments flow_expiration_time {MF MB}.
Arguments flow_to_flow_id {MF MB}.
Arguments flow_heap {MF MB}.
Arguments flow_chain {MF MB}.
Arguments flow_id_to_backend_id {MF MB}.
Arguments cht_height {MF MB}.
Arguments backend_expiration_time {MF MB}.
Arguments backend_capacity {MF MB}.
Arguments backend_ips {MF MB}.
Arguments backends {MF MB}.
Arguments ip_to_backend_id {MF MB}.
Arguments active_backends {MF MB}.
Arguments cht {MF MB}.

(** The flows as the map sees them: only through [lb_flow_equality] and
    [lb_flow_hash]. *)
Definition flow_keys (v : Vector LoadBalancedFlow) : Vector lb_flowi :=
  mk_vector (lb_flowp <$> data v) (elem_size v) (vec_capacity v).

Section ops.
Context {MF : Type} `{!MapOps (ptr lb_flowi) lb_flowi MF} {MB : Type} `{!MapOps (ptr Z) Z MB}.
Implicit Types (balancer : LoadBalancer MF MB) (flow : LoadBalancedFlow).

Definition upd_flows balancer (m : MF) (v : Vector LoadBalancedFlow) (c : DoubleChain)
    (ids : Vector Z) : LoadBalancer MF MB :=
  mk_lb (flow_capacity balancer) (flow_expiration_time balancer) m v c ids
    (cht_height balancer) (backend_expiration_time balancer) (backend_capacity balancer)
    (backend_ips balancer) (backends balancer) (ip_to_backend_id balancer)
    (active_backends balancer) (cht balancer).
Definition upd_backends balancer (ips : Vector Z) (v : Vector LoadBalancedBackend) (m : MB)
    (c : DoubleChain) : LoadBalancer MF MB :=
  mk_lb (flow_capacity balancer) (flow_expiration_time balancer) (flow_to_flow_id balancer)
    (flow_heap balancer) (flow_chain balancer) (flow_id_to_backend_id balancer)
    (cht_height balancer) (backend_expiration_time balancer) (backend_capacity balancer)
    ips v m c (cht balancer).

(** [memcpy(&backend, vec_backend, ..)] for backend [index]. *)
Definition copy_backend balancer (index : Z) : res LoadBalancedBackend :=
  vec_backend ← vector_borrow (backends balancer) index;
  backend ← load (backends balancer) vec_backend;
  _ ← vector_return (backends balancer) index vec_backend;
  Ok backend.

(** A flow that the map does not know. [backend] is the local variable of that
    name, which is not initialised. *)
Definition new_flow balancer flow (backend : LoadBalancedBackend) (now : Z)
    : res (LoadBalancedBackend * LoadBalancer MF MB) :=
  found ← lb_find_preferred_available_backend flow (cht balancer) (active_backends balancer)
            (cht_height balancer) (backend_capacity balancer);
  match found with
  | Some backend_index =>
      '(ret, c, flow_index) ← dchain_allocate_new_index (flow_chain balancer) 0 now;
      balancer ←
        (if negb (ret =? 0) then
           vec_flow ← vector_borrow (flow_heap balancer) flow_index;
           v ← store (flow_heap balancer) vec_flow flow;
           vec_id ← vector_borrow (flow_id_to_backend_id balancer) flow_index;
           ids ← store (flow_id_to_backend_id balancer) vec_id (u32 backend_index);
           _ ← vector_return ids flow_index vec_id;
           m ← map_put (deref (flow_keys v)) (flow_to_flow_id balancer) (Cell flow_index) flow_index;
           _ ← vector_return v flow_index vec_flow;
           Ok (upd_flows balancer m v c ids)
         else Ok (upd_flows balancer (flow_to_flow_id balancer) (flow_heap balancer) c
                    (flow_id_to_backend_id balancer)));
      backend ← copy_backend balancer backend_index;
      Ok (backend, balancer)
  | None => Ok (mk_lb_backend 0 (mac backend) (ip backend), balancer)
  end.

(** [fuel] bounds the depth of the recursion. Every call erases a key, so that
    the number of flows the map has room for is enough. *)
Fixpoint lb_get_backend (fuel : nat) balancer flow (backend : LoadBalancedBackend) (now : Z)
    : res (LoadBalancedBackend * LoadBalancer MF MB) :=
  match fuel with
  | O => Err NoFuel
  | S fuel' =>
      let d := deref (flow_keys (flow_heap balancer)) in
      r ← map_get d (flow_to_flow_id balancer) (Local (lb_flowp flow));
      match r with
      | None => new_flow balancer flow backend now
      | Some flow_index =>
          vec_id ← vector_borrow (flow_id_to_backend_id balancer) flow_index;
          backend_index ← load (flow_id_to_backend_id balancer) vec_id;
          _ ← vector_return (flow_id_to_backend_id balancer) flow_index vec_id;
          allocated ← dchain_is_index_allocated (active_backends balancer) (i32 backend_index);
          if allocated =? 0 then
            flow_key ← vector_borrow (flow_heap balancer) flow_index;
            '(m, _) ← map_erase d (flow_to_flow_id balancer) (Local (lb_flowp flow));
            _ ← vector_return (flow_heap balancer) flow_index flow_key;
            lb_get_backend fuel'
              (upd_flows balancer m (flow_heap balancer) (flow_chain balancer)
                 (flow_id_to_backend_id balancer)) flow backend now
          else
            '(_, c) ← dchain_rejuvenate_index (flow_chain balancer) (i32 backend_index) now;
            let balancer := upd_flows balancer (flow_to_flow_id balancer) (flow_heap balancer) c
                              (flow_id_to_backend_id balancer) in
            backend ← copy_backend balancer (i32 backend_index);
            Ok (backend, balancer)
      end
  end.

Definition lb_process_heartbit balancer flow (mac_addr : list Z) (nic : Z) (now : Z)
    : res (LoadBalancer MF MB) :=
  r ← map_get (deref (backend_ips balancer)) (ip_to_backend_id balancer) (Local (src_ip flow));
  match r with
  | None =>
      '(ret, c, backend_index) ← dchain_allocate_new_index (active_backends balancer) 0 now;
      if negb (ret =? 0) then
        new_backend ← vector_borrow (backends balancer) backend_index;
        v ← store (backends balancer) new_backend (mk_lb_backend (u16 nic) mac_addr (src_ip flow));
        _ ← vector_return v backend_index new_backend;
        p ← vector_borrow (backend_ips balancer) backend_index;
        ips ← store (backend_ips balancer) p (src_ip flow);
        m ← map_put (deref ips) (ip_to_backend_id balancer) p backend_index;
        _ ← vector_return ips backend_index p;
        Ok (upd_backends balancer ips v m c)
      else Ok (upd_backends balancer (backend_ips balancer) (backends balancer)
                 (ip_to_backend_id balancer) c)
  | Some backend_index =>
      '(_, c) ← dchain_rejuvenate_index (active_backends balancer) backend_index now;
      Ok (upd_backends balancer (backend_ips balancer) (backends balancer)
            (ip_to_backend_id balancer) c)
  end.

Definition lb_expire_flows balancer (now : Z) : res (LoadBalancer MF MB) :=
  _ ← c_assert (0 <=? now);
  let now_u := u64 now in
  let last_time_u := u64 (now_u - flow_expiration_time balancer) in
  let last_time := i64 last_time_u in
  '(_, c, m) ← expire_items_single_map (flow_chain balancer) (flow_keys (flow_heap balancer))
                 (flow_to_flow_id balancer) last_time;
  Ok (upd_flows balancer m (flow_heap balancer) c (flow_id_to_backend_id balancer)).

Definition lb_expire_backends balancer (now : Z) : res (LoadBalancer MF MB) :=
  _ ← c_assert (0 <=? now);
  let now_u := u64 now in
  let last_time_u := u64 (now_u - backend_expiration_time balancer) in
  let last_time := i64 last_time_u in
  '(_, c, m) ← expire_items_single_map (active_backends balancer) (backend_ips balancer)
                 (ip_to_backend_id balancer) last_time;
  Ok (upd_backends balancer (backend_ips balancer) (backends balancer) m c).

Section process.
Variable config : lb_config.
(** What the stack holds where [lb_get_backend] puts its result. *)
Variable junk : LoadBalancedBackend.

Definition nf_core_process balancer (m : mbuf) (now : Z)
    : res (Z * mbuf * LoadBalancer MF MB) :=
  balancer ← lb_expire_flows balancer now;
  balancer ← lb_expire_backends balancer now;
  let ether_header := nf_get_mbuf_ether_header m in
  ip_hdr ← nf_get_mbuf_ipv4_header m;
  match ip_hdr with
  | None => Ok (port m, m, balancer)
  | Some ipv4_header =>
    tcpudp ← nf_get_ipv4_tcpudp_header (buf m) ipv4_header;
    match tcpudp with
    | None => Ok (port m, m, balancer)
    | Some tcpudp_header =>
      sa ← ld32 (buf m) (ipv4_header + IPV4_SRC_ADDR);
      da ← ld32 (buf m) (ipv4_header + IPV4_DST_ADDR);
      sp ← ld16 (buf m) (tcpudp_header + TCPUDP_SRC_PORT);
      dp ← ld16 (buf m) (tcpudp_header + TCPUDP_DST_PORT);
      proto ← ld8 (buf m) (ipv4_header + IPV4_NEXT_PROTO_ID);
      let flow := mk_lb_flow (lb_flowc sa sp dp proto) da in
      if negb (port m =? 0) then
        s_addr ← ld_addr (buf m) (ether_header + ETHER_S_ADDR);
        balancer ← lb_process_heartbit balancer flow s_addr (port m) now;
        Ok (port m, m, balancer)
      else
        '(backend, balancer) ← lb_get_backend (S (Z.to_nat (flow_capacity balancer))) balancer flow junk now;
        b ← st32 (buf m) (ipv4_header + IPV4_DST_ADDR) (ip backend);
        mac_s ← rd (device_macs config) (nic backend);
        b ← st_bytes b (ether_header + ETHER_S_ADDR) mac_s;
        b ← st_bytes b (ether_header + ETHER_D_ADDR) (mac backend);
        Ok (nic backend, mk_mbuf (port m) (pkt_len m) b, balancer)
    end
  end.
End process.
End ops.

(** ** Initialisation: [lb_allocate_balancer], [nf_core_init] of [lb_main.c] *)
Definition SIZEOF_FLOW : Z := 16.
Definition SIZEOF_BACKEND : Z := 12.
Definition SIZEOF_UINT32 : Z := 4.
Definition null_init (obj : Z) : Z := 0.

(** What [malloc] returns: the memory of the two maps and chains, of the elements
    of the vectors, and of the array [permutations]. *)
Record lb_memory := mk_lb_memory {
  mem_flows : memory lb_flowi; mem_ips : memory Z;
  mem_flow_heap : Z → list LoadBalancedFlow; mem_backends : Z → list LoadBalancedBackend;
  mem_permutations : Z → list Z }.

Section init.
Variables (ok : nat → bool) (mem : lb_memory).
Local Notation balancer_t := (LoadBalancer (Map (ptr lb_flowi) lb_flowi) (Map (ptr Z) Z)).

Definition lb_allocate_balancer (flow_capacity backend_capacity cht_height
    backend_expiration_time flow_expiration_time : Z) (h : Malloc.heap)
    : res (option balancer_t * Malloc.heap) :=
  let fc := i32 flow_capacity in
  let bc := i32 backend_capacity in
  let tc := i32 (u32 (cht_height * backend_capacity)) in
  malloc_or ok [] None (λ b h,
    or_err [b] (alloc_map ok (mem_flows mem) lb_flow_equality lb_flow_hash fc) (λ flow_to_flow_id held,
    or_err held (alloc_vector ok SIZEOF_FLOW fc lb_flow_init (mem_flow_heap mem fc)) (λ flow_heap held,
    or_err held (alloc_vector ok SIZEOF_UINT32 fc null_init (elems (mem_ips mem) fc)) (λ flow_id_to_backend_id held,
    or_err held (alloc_chain ok (mem_flows mem) fc) (λ flow_chain held,
    or_err held (alloc_vector ok SIZEOF_UINT32 bc null_init (elems (mem_ips mem) bc)) (λ backend_ips held,
    or_err held (alloc_vector ok SIZEOF_BACKEND bc lb_backend_init (mem_backends mem bc)) (λ backends held,
    or_err held (alloc_map ok (mem_ips mem) lb_ip_equality lb_ip_hash bc) (λ ip_to_backend_id held,
    or_err held (alloc_chain ok (mem_ips mem) bc) (λ active_backends held,
    or_err held (alloc_vector ok SIZEOF_UINT32 tc null_init (elems (mem_ips mem) tc)) (λ cht held h,
      '(cht, h) ← lb_fill_cht ok (mem_permutations mem (i32 cht_height * (bc + 1))) cht
                    (i32 cht_height) bc h;
      Ok (Some (mk_lb flow_capacity flow_expiration_time flow_to_flow_id flow_heap flow_chain
                  flow_id_to_backend_id cht_height backend_expiration_time backend_capacity
                  backend_ips backends ip_to_backend_id active_backends cht), h)
    ))))))))) h) h.

Definition nf_core_init (config : lb_config) (h : Malloc.heap) : res (balancer_t * Malloc.heap) :=
  or_exit (lb_allocate_balancer (cfg_flow_capacity config) (cfg_backend_capacity config)
    (cfg_cht_height config) (cfg_backend_expiration_time config)
    (cfg_flow_expiration_time config)) h.
End init.

(** ** Abstract specification

    Two lists of entries, the oldest first: the flows with the index of their
    backend, and the backends that are alive, by address. *)
Inductive pkt :=
| Other
| Heartbeat (addr : Z) (mac_addr : list Z) (nic : Z)
| Request (flow : lb_flowi).

Inductive outcome :=
| Drop
| Reject
| To (backend : LoadBalancedBackend).

Definition classify (m : mbuf) : pkt :=
  let b := buf m in
  if is_tcpudp b then
    if port m =? 0 then
      Request (lb_flowc (w32 b 26) (w16 b (ports_at b + TCPUDP_SRC_PORT))
                 (w16 b (ports_at b + TCPUDP_DST_PORT)) (getz b 23))
    else Heartbeat (w32 b 26) (addr_at b 6) (port m)
  else Other.

Definition flow_entry : Type := entry lb_flowi Z.
Definition backend_entry : Type := entry Z LoadBalancedBackend.

(** The backend a new flow gets: the first of its window that is alive. *)
Definition choose (ids : list Z) (live : list Z) : option Z :=
  List.find (λ b, bool_decide (b ∈ live)) ids.

Section step.
(** [win f] is the part of the table the lookup visits for [f]. *)
Variables (capf capb now : Z) (win : lb_flowi → list Z).

Inductive lb_step (fs : list flow_entry) (bs : list backend_entry)
    : pkt → list flow_entry → list backend_entry → outcome → Prop :=
| step_other : lb_step fs bs Other fs bs Drop
| step_beat a m n i :
    i ∈ e_index <$> bs → (∃ v t, (a, i, v, t) ∈ bs) →
    lb_step fs bs (Heartbeat a m n) fs (touch i now bs) Drop
| step_join a m n i :
    a ∉ e_key <$> bs → 0 <= i < capb → i ∉ e_index <$> bs →
    lb_step fs bs (Heartbeat a m n) fs (bs ++ [(a, i, mk_lb_backend (u16 n) m a, now)]) Drop
| step_beat_full a m n :
    a ∉ e_key <$> bs → zlen bs = capb →
    lb_step fs bs (Heartbeat a m n) fs bs Drop
| step_known f i b t a v u :
    (f, i, b, t) ∈ fs → (a, b, v, u) ∈ bs →
    lb_step fs bs (Request f) (touch b now fs) bs (To v)
| step_new f i b a v u :
    f ∉ e_key <$> fs → choose (win f) (e_index <$> bs) = Some b → (a, b, v, u) ∈ bs →
    0 <= i < capf → i ∉ e_index <$> fs →
    lb_step fs bs (Request f) (fs ++ [(f, i, b, now)]) bs (To v)
| step_new_full f b a v u :
    f ∉ e_key <$> fs → choose (win f) (e_index <$> bs) = Some b → (a, b, v, u) ∈ bs →
    zlen fs = capf →
    lb_step fs bs (Request f) fs bs (To v)
| step_nobody f :
    f ∉ e_key <$> fs → choose (win f) (e_index <$> bs) = None →
    lb_step fs bs (Request f) fs bs Reject.
End step.

(** A request of a flow whose backend is no longer alive. *)
Definition stale (fs : list flow_entry) (bs : list backend_entry) (p : pkt) : Prop :=
  match p with
  | Request f => ∃ i b t, (f, i, b, t) ∈ fs ∧ b ∉ e_index <$> bs
  | _ => False
  end.

(** Everything after the ethernet header but the destination address. *)
Definition payload (i : Z) : Prop := 12 <= i ∧ ¬ (30 <= i < 34).

(** What leaves the machine; [nf_main.c] drops a packet that is given the device
    it came from. *)
Definition emitted (config : lb_config) (out : outcome) (m : mbuf) (dev : Z) (m' : mbuf) : Prop :=
  match out with
  | Drop => dev = port m ∧ m' = m
  | Reject => dev = port m
  | To v =>
      dev = nic v ∧ w32 (buf m') 30 = u32 (ip v) ∧ addr_at (buf m') 0 = mac v ∧
      addr_at (buf m') 6 = getz (device_macs config) (nic v) ∧
      agree payload (buf m) (buf m')
  end.

(** ** Proofs *)
Lemma lb_flow_equality_spec f g : lb_flow_equality f g = true ↔ f = g.
Proof.
  unfold lb_flow_equality. rewrite !andb_true_iff, !Z.eqb_eq. destruct f, g. simpl. naive_solver.
Qed.

Lemma flow_keys_len v : zlen (data (flow_keys v)) = zlen (data v).
Proof. unfold zlen. simpl. by rewrite length_fmap. Qed.

Lemma flow_keys_store v i (f : LoadBalancedFlow) :
  flow_keys (mk_vector (setz (data v) i f) (elem_size v) (vec_capacity v)) =
  mk_vector (setz (data (flow_keys v)) i (lb_flowp f)) (elem_size (flow_keys v))
    (vec_capacity (flow_keys v)).
Proof. unfold flow_keys, setz. simpl. by rewrite list_fmap_insert. Qed.

Lemma choose_first_alive ch ids : first_alive ch ids = choose ids (dchain_indexes_fp ch).
Proof.
  unfold first_alive, choose. induction ids as [|b ids IH]; [done|]. cbn [List.find].
  rewrite IH. unfold alive. destruct (dchain_allocated_fp ch b) eqn:E.
  - apply dchain_allocated_spec in E. by rewrite bool_decide_eq_true_2.
  - rewrite bool_decide_eq_false_2; [done|]. intros ?%dchain_allocated_spec. congruence.
Qed.

Section balancer.
Context {MF : Type} `{!MapOps (ptr lb_flowi) lb_flowi MF, !MapLaws (ptr lb_flowi) lb_flowi MF}.
Context {MB : Type} `{!MapOps (ptr Z) Z MB, !MapLaws (ptr Z) Z MB}.
Implicit Types (balancer : LoadBalancer MF MB) (flow : LoadBalancedFlow) (chf chb : dchain).

(** [n_devices]: the number of devices, whose addresses the configuration holds. *)
Variable n_devices : Z.

Definition record_ok (a : Z) (v : LoadBalancedBackend) : Prop :=
  ip v = a ∧ 0 <= nic v < n_devices ∧ zlen (mac v) = 6.

Record lb_inv balancer chf chb : Prop := {
  li_flows : coherent (flow_to_flow_id balancer) (flow_keys (flow_heap balancer))
               (flow_chain balancer) chf;
  li_backs : coherent (ip_to_backend_id balancer) (backend_ips balancer)
               (active_backends balancer) chb;
  li_ids : zlen (data (flow_id_to_backend_id balancer)) = dchain_index_range_fp chf;
  li_recs : zlen (data (backends balancer)) = dchain_index_range_fp chb;
  li_id : ∀ i, i ∈ dchain_indexes_fp chf →
    0 <= getz (data (flow_id_to_backend_id balancer)) i < dchain_index_range_fp chb;
  li_rec : ∀ b, b ∈ dchain_indexes_fp chb →
    record_ok (getz (data (backend_ips balancer)) b) (getz (data (backends balancer)) b);
  li_cht : cht_ok (cht balancer) (cht_height balancer) (backend_capacity balancer);
  li_capb : backend_capacity balancer = dchain_index_range_fp chb;
  (** A flow is touched at the index of its backend. *)
  li_capf : dchain_index_range_fp chb <= dchain_index_range_fp chf;
  li_fexp : 0 <= flow_expiration_time balancer < 2 ^ 62;
  li_bexp : 0 <= backend_expiration_time balancer < 2 ^ 62
}.

Definition flows balancer chf : list flow_entry :=
  entries (flow_keys (flow_heap balancer)) (flow_id_to_backend_id balancer) chf.
Definition alive_backends balancer chb : list backend_entry :=
  entries (backend_ips balancer) (backends balancer) chb.

(** What no packet changes. *)
Definition same_conf balancer balancer' : Prop :=
  flow_expiration_time balancer' = flow_expiration_time balancer ∧
  backend_expiration_time balancer' = backend_expiration_time balancer ∧
  cht balancer' = cht balancer ∧ cht_height balancer' = cht_height balancer ∧
  backend_capacity balancer' = backend_capacity balancer ∧
  flow_capacity balancer' = flow_capacity balancer.

Definition win balancer (f : lb_flowi) : list Z :=
  window (cht balancer) (cht_height balancer) (backend_capacity balancer) (lb_flow_hash f).

Lemma lb_expire_flows_spec balancer chf chb now :
  lb_inv balancer chf chb → 0 <= now < 2 ^ 62 →
  let chf' := dchain_expire_old_indexes_fp chf (now - flow_expiration_time balancer) in
  ∃ balancer', lb_expire_flows balancer now = Ok balancer' ∧ lb_inv balancer' chf' chb ∧
    same_conf balancer balancer' ∧
    flows balancer' chf' = unexpired (flow_expiration_time balancer) now (flows balancer chf) ∧
    alive_backends balancer' chb = alive_backends balancer chb.
Proof.
  intros [Hf Hb Hids Hrecs Hid Hrec Hcht Hcb Hcf Hfe Hbe] Hnow chf'. unfold lb_expire_flows.
  rewrite (proj2 (Z.leb_le 0 now)) by lia. cbn [c_assert mbind res_bind].
  rewrite (u64_id now), i64_u64 by lia.
  destruct (expire_items_single_map_spec _ _ _ _ (now - flow_expiration_time balancer) Hf)
    as (c & m & -> & Hf'). cbn [mbind res_bind].
  eexists. split; [done|]. split; [|split; [done|split; [|done]]].
  - split; try done. intros i Hi. apply Hid. exact (expire_indexes _ _ _ _ _ _ Hf Hi).
  - unfold flows. simpl. unfold chf'. by rewrite (entries_expire Hf _ _ _ _ eq_refl).
Qed.

Lemma lb_expire_backends_spec balancer chf chb now :
  lb_inv balancer chf chb → 0 <= now < 2 ^ 62 →
  let chb' := dchain_expire_old_indexes_fp chb (now - backend_expiration_time balancer) in
  ∃ balancer', lb_expire_backends balancer now = Ok balancer' ∧ lb_inv balancer' chf chb' ∧
    same_conf balancer balancer' ∧ flows balancer' chf = flows balancer chf ∧
    alive_backends balancer' chb' =
      unexpired (backend_expiration_time balancer) now (alive_backends balancer chb).
Proof.
  intros [Hf Hb Hids Hrecs Hid Hrec Hcht Hcb Hcf Hfe Hbe] Hnow chb'. unfold lb_expire_backends.
  rewrite (proj2 (Z.leb_le 0 now)) by lia. cbn [c_assert mbind res_bind].
  rewrite (u64_id now), i64_u64 by lia.
  destruct (expire_items_single_map_spec _ _ _ _ (now - backend_expiration_time balancer) Hb)
    as (c & m & -> & Hb'). cbn [mbind res_bind].
  eexists. split; [done|]. split; [|split; [done|split; [done|]]].
  - split; try done. intros b Hi. apply Hrec. exact (expire_indexes _ _ _ _ _ _ Hb Hi).
  - unfold alive_backends. simpl. unfold chb'. by rewrite (entries_expire Hb _ _ _ _ eq_refl).
Qed.

(** What one of the handlers of a packet has to establish. *)
Definition stepped balancer chf chb now p balancer' chf' chb' out : Prop :=
  lb_inv balancer' chf' chb' ∧ same_conf balancer balancer' ∧
  dchain_high_fp chf' <= now ∧ dchain_high_fp chb' <= now ∧
  dchain_index_range_fp chf' = dchain_index_range_fp chf ∧
  dchain_index_range_fp chb' = dchain_index_range_fp chb ∧
  lb_step (dchain_index_range_fp chf) (dchain_index_range_fp chb) now (win balancer)
    (flows balancer chf) (alive_backends balancer chb) p
    (flows balancer' chf') (alive_backends balancer' chb') out.

Lemma lb_process_heartbit_spec balancer chf chb flow m n now :
  lb_inv balancer chf chb → dchain_high_fp chf <= now → dchain_high_fp chb <= now →
  0 <= n < n_devices → n_devices <= 2 ^ 16 → zlen m = 6 →
  ∃ balancer' chb', lb_process_heartbit balancer flow m n now = Ok balancer' ∧
    stepped balancer chf chb now (Heartbeat (src_ip flow) m n) balancer' chf chb' Drop.
Proof.
  intros [Hf Hb Hids Hrecs Hid Hrec Hcht Hcb Hcf Hfe Hbe] Htf Htb Hn Hdev Hm.
  unfold lb_process_heartbit. rewrite (coherent_get Hb). cbn [mbind res_bind].
  pose proof (entries_get Hb (backends balancer) (src_ip flow)) as Hget.
  destruct (index_of (backend_ips balancer) chb (src_ip flow)) as [i|] eqn:E.
  - apply (index_of_Some Hb) in E as [Hi Hk].
    destruct (coherent_rejuvenate Hb i now Hi Htb) as (c & -> & Hb'). cbn [mbind res_bind].
    eexists _, (dchain_rejuvenate_fp chb i now). split; [done|].
    split; [|split; [done|split; [done|split; [done|split; [done|split; [done|]]]]]].
    + split; try done. intros b Hbi. apply Hrec. exact (rejuvenate_indexes _ _ _ _ Hi Hbi).
    + unfold alive_backends. simpl. rewrite (entries_touch Hb) by done.
      apply step_beat; [by rewrite entries_indexes|]. destruct Hget as (t & Ht). by eexists _, t.
  - pose proof (dchain_allocate_new_index_spec (co_chain _ _ _ _ Hb) 0 now Htb) as Ha.
    unfold dchain_out_of_space_fp in Ha.
    destruct (Z.leb_spec (dchain_index_range_fp chb) (zlen (dchain_alist_fp chb))) as [Hfull|_].
    + rewrite Ha. cbn [mbind res_bind Z.eqb negb]. exists balancer, chb.
      split; [by destruct balancer|]. split; [|split; [done|split; [done|split; [done|split; [done|split; [done|]]]]]].
      * by split.
      * apply step_beat_full; [done|]. unfold alive_backends. etransitivity; [apply entries_len|].
        pose proof (double_chainp_len (co_chain _ _ _ _ Hb)). lia.
    + destruct Ha as (i & c & -> & Hi & Hni & Hc). cbn [mbind res_bind Z.eqb negb].
      pose proof (co_vec _ _ _ _ Hb) as Hv.
      rewrite !vector_borrow_ok by lia. cbn [mbind res_bind]. rewrite !store_cell by lia.
      cbn [mbind res_bind]. unfold vector_return. cbn [mbind res_bind].
      destruct (coherent_insert Hb (src_ip flow) i now c E Hi Hni Hc) as (m' & -> & Hb').
      cbn [mbind res_bind]. eexists _, (dchain_allocate_fp chb i now). split; [done|].
      assert (Hother : ∀ j, j ∈ dchain_indexes_fp chb → i ≠ j ∧ 0 <= j).
      { intros j Hj. pose proof (co_range Hb j Hj). split; [|lia]. intros ->.
        apply dchain_allocated_spec in Hj. congruence. }
      split; [|split; [done|split; [done|split; [done|split; [done|split; [done|]]]]]].
      * split; try done; [by simpl; rewrite zlen_setz|]. simpl. intros j.
        unfold dchain_indexes_fp. simpl. rewrite fmap_app, elem_of_app. intros [Hj|Hj].
        -- destruct (Hother j Hj). rewrite !getz_setz_ne by (done || lia). by apply Hrec.
        -- apply list_elem_of_singleton in Hj as ->. simpl. rewrite !getz_setz_eq by lia.
           split; [done|]. rewrite u16_id by lia. done.
      * unfold alive_backends. simpl. rewrite (entries_insert Hb) by done.
        apply step_join; [done|done|]. rewrite entries_indexes, <- dchain_allocated_spec. congruence.
Qed.

Lemma copy_backend_ok balancer i :
  0 <= i < zlen (data (backends balancer)) →
  copy_backend balancer i = Ok (getz (data (backends balancer)) i).
Proof.
  intros Hi. unfold copy_backend. rewrite vector_borrow_ok by done. cbn [mbind res_bind].
  rewrite load_cell by done. done.
Qed.

Lemma new_flow_spec balancer chf chb flow junk now :
  lb_inv balancer chf chb → dchain_high_fp chf <= now → dchain_high_fp chb <= now →
  index_of (flow_keys (flow_heap balancer)) chf flow = None →
  ∃ v balancer' chf', new_flow balancer flow junk now = Ok (v, balancer') ∧
    stepped balancer chf chb now (Request flow) balancer' chf' chb
      (if choose (win balancer flow) (dchain_indexes_fp chb) then To v else Reject) ∧
    (choose (win balancer flow) (dchain_indexes_fp chb) = None →
     v = mk_lb_backend 0 (mac junk) (ip junk)) ∧
    (is_Some (choose (win balancer flow) (dchain_indexes_fp chb)) →
     ∃ b, b ∈ dchain_indexes_fp chb ∧ v = getz (data (backends balancer)) b).
Proof.
  intros [Hf Hb Hids Hrecs Hid Hrec Hcht Hcb Hcf Hfe Hbe] Htf Htb E.
  unfold new_flow.
  rewrite (lb_find_spec flow _ chb _ _ _ Hcht (co_chain _ _ _ _ Hb)) by done.
  cbn [mbind res_bind].
  rewrite choose_first_alive. fold (win balancer flow).
  pose proof (entries_get Hf (flow_id_to_backend_id balancer) flow) as Hget. rewrite E in Hget.
  destruct (choose (win balancer flow) (dchain_indexes_fp chb)) as [b|] eqn:Ec.
  - assert (Hlive : b ∈ dchain_indexes_fp chb).
    { rewrite <- choose_first_alive in Ec. by apply first_alive_Some in Ec as [_ ?]. }
    pose proof (co_range Hb b Hlive) as Hbr.
    pose proof (proj1 (list_elem_of_fmap _ _ _) Hlive) as ([b' u] & -> & Hbu). simpl in *.
    assert (Hbe' : (getz (data (backend_ips balancer)) b', b', getz (data (backends balancer)) b', u)
      ∈ alive_backends balancer chb) by by apply elem_of_entries.
    destruct Hcht as (Hch & Hbc & Hcl & Hcr).
    pose proof (dchain_allocate_new_index_spec (co_chain _ _ _ _ Hf) 0 now Htf) as Ha.
    unfold dchain_out_of_space_fp in Ha.
    destruct (Z.leb_spec (dchain_index_range_fp chf) (zlen (dchain_alist_fp chf))) as [Hfull|_].
    + rewrite Ha. cbn [mbind res_bind Z.eqb negb]. rewrite copy_backend_ok by (simpl; lia).
      cbn [mbind res_bind]. eexists _, balancer, chf. split; [by destruct balancer|].
      split; [|split; [done|intros _; by exists b']].
      split; [|split; [done|split; [done|split; [done|split; [done|split; [done|]]]]]]; [by split|].
      eapply step_new_full; [done|by unfold alive_backends; rewrite entries_indexes|done|].
      unfold flows. etransitivity; [apply entries_len|].
      pose proof (double_chainp_len (co_chain _ _ _ _ Hf)). lia.
    + destruct Ha as (i & c & -> & Hi & Hni & Hc). cbn [mbind res_bind Z.eqb negb].
      pose proof (co_vec _ _ _ _ Hf) as Hv. rewrite flow_keys_len in Hv.
      rewrite !vector_borrow_ok by lia. cbn [mbind res_bind]. rewrite !store_cell by lia.
      cbn [mbind res_bind]. unfold vector_return. cbn [mbind res_bind].
      rewrite flow_keys_store.
      destruct (coherent_insert Hf flow i now c E Hi Hni Hc) as (m' & -> & Hf').
      cbn [mbind res_bind]. rewrite copy_backend_ok by (simpl; lia). cbn [mbind res_bind].
      eexists _, _, (dchain_allocate_fp chf i now). split; [done|].
      split; [|split; [done|intros _; by exists b']].
      assert (Hother : ∀ j, j ∈ dchain_indexes_fp chf → i ≠ j ∧ 0 <= j).
      { intros j Hj. pose proof (co_range Hf j Hj). split; [|lia]. intros ->.
        apply dchain_allocated_spec in Hj. congruence. }
      split; [|split; [done|split; [done|split; [done|split; [done|split; [done|]]]]]].
      * split; try done; simpl; [by rewrite flow_keys_store|by rewrite zlen_setz|]. intros j.
        unfold dchain_indexes_fp. simpl. rewrite fmap_app, elem_of_app. intros [Hj|Hj].
        -- destruct (Hother j Hj). rewrite getz_setz_ne by (done || lia). by apply Hid.
        -- apply list_elem_of_singleton in Hj as ->. simpl. rewrite getz_setz_eq by lia.
           rewrite u32_id by lia. lia.
      * unfold flows at 2. simpl. rewrite flow_keys_store, (entries_insert Hf) by done.
        rewrite u32_id by lia.
        eapply step_new; [done|by unfold alive_backends; rewrite entries_indexes|done|done|].
        unfold flows. rewrite entries_indexes, <- dchain_allocated_spec. congruence.
  - eexists _, balancer, chf. split; [done|]. split; [|split; [done|by intros []]].
    split; [|split; [done|split; [done|split; [done|split; [done|split; [done|]]]]]]; [by split|].
    apply step_nobody; [done|]. unfold alive_backends. by rewrite entries_indexes.
Qed.

(** A request whose flow is not stale: the backend returned is alive, unless the
    request is rejected. *)
Lemma lb_get_backend_spec fuel balancer chf chb flow junk now :
  lb_inv balancer chf chb → dchain_high_fp chf <= now → dchain_high_fp chb <= now →
  ¬ stale (flows balancer chf) (alive_backends balancer chb) (Request flow) →
  ∃ v balancer' chf' out, lb_get_backend (S fuel) balancer flow junk now = Ok (v, balancer') ∧
    stepped balancer chf chb now (Request flow) balancer' chf' chb out ∧
    match out with
    | To v' => v' = v ∧ ∃ a, record_ok a v
    | _ => out = Reject ∧ v = mk_lb_backend 0 (mac junk) (ip junk)
    end.
Proof.
  intros Hinv Htf Htb Hst. pose proof Hinv as [Hf Hb Hids Hrecs Hid Hrec Hcht Hcb Hcf Hfe Hbe].
  cbn [lb_get_backend]. rewrite (coherent_get Hf). cbn [mbind res_bind].
  destruct (index_of (flow_keys (flow_heap balancer)) chf flow) as [i|] eqn:E.
  - pose proof (entries_get Hf (flow_id_to_backend_id balancer) flow) as Hget. rewrite E in Hget.
    destruct Hget as [t Hin]. set (b := getz (data (flow_id_to_backend_id balancer)) i) in *.
    apply (index_of_Some Hf) in E as [Hi Hk]. pose proof (co_range Hf i Hi) as Hir.
    pose proof (Hid i Hi) as Hbr. fold b in Hbr. destruct Hcht as (Hch & Hbc & Hcl & Hcr).
    rewrite (vector_borrow_ok (flow_id_to_backend_id balancer)) by lia. cbn [mbind res_bind].
    rewrite load_cell by lia. fold b. cbn [mbind res_bind vector_return]. rewrite i32_id by lia.
    rewrite (dchain_is_index_allocated_spec (co_chain _ _ _ _ Hb)) by lia. cbn [mbind res_bind].
    assert (Hlive : b ∈ dchain_indexes_fp chb).
    { destruct (decide (b ∈ dchain_indexes_fp chb)) as [|Hn]; [done|]. exfalso. apply Hst.
      exists i, b, t. split; [exact Hin|]. unfold alive_backends. by rewrite entries_indexes. }
    rewrite (proj2 (dchain_allocated_spec chb b) Hlive). cbn [Z.b2z Z.eqb].
    pose proof (dchain_rejuvenate_index_spec (co_chain _ _ _ _ Hf) b now ltac:(lia) Htf) as Hrj.
    pose proof (proj1 (list_elem_of_fmap _ _ _) Hlive) as ([b' u] & Eb & Hbu). simpl in Eb.
    assert (Hbe' : (getz (data (backend_ips balancer)) b, b, getz (data (backends balancer)) b, u)
      ∈ alive_backends balancer chb) by (apply elem_of_entries; by subst b').
    assert (Hstep : lb_step (dchain_index_range_fp chf) (dchain_index_range_fp chb) now (win balancer)
      (flows balancer chf) (alive_backends balancer chb) (Request flow)
      (touch b now (flows balancer chf)) (alive_backends balancer chb)
      (To (getz (data (backends balancer)) b))) by (eapply step_known; [exact Hin|exact Hbe']).
    destruct (dchain_allocated_fp chf b) eqn:Ea.
    + apply dchain_allocated_spec in Ea.
      destruct (coherent_rejuvenate Hf b now Ea Htf) as (c & -> & Hf'). cbn [mbind res_bind].
      rewrite copy_backend_ok by (simpl; lia). cbn [mbind res_bind].
      eexists _, _, (dchain_rejuvenate_fp chf b now), (To _). split; [done|].
      split; [|split; [done|eexists; by apply Hrec]].
      split; [|split; [done|split; [done|split; [done|split; [done|split; [done|]]]]]].
      * split; try done. intros j Hj. apply Hid. exact (rejuvenate_indexes _ _ _ _ Ea Hj).
      * unfold flows at 2. simpl. rewrite (entries_touch Hf) by done. exact Hstep.
    + rewrite Hrj. cbn [mbind res_bind]. rewrite copy_backend_ok by (simpl; lia). cbn [mbind res_bind].
      eexists _, balancer, chf, (To _). split; [by destruct balancer|].
      split; [|split; [done|eexists; by apply Hrec]].
      split; [done|]. split; [done|split; [done|split; [done|split; [done|split; [done|]]]]].
      rewrite touch_absent in Hstep; [exact Hstep|].
      unfold flows. rewrite entries_indexes, <- dchain_allocated_spec. congruence.
  - destruct (new_flow_spec balancer chf chb flow junk now Hinv Htf Htb E)
      as (v & balancer' & chf' & -> & Hs & Hnone & Hsome).
    eexists v, balancer', chf', _. split; [done|]. split; [exact Hs|].
    destruct (choose _ _) as [b|].
    + split; [done|]. destruct (Hsome ltac:(done)) as (b' & Hb' & ->). eexists. by apply Hrec.
    + split; [done|]. by apply Hnone.
Qed.

(** *** The packet handler *)
Section handler.
Variable config : lb_config.
Variable junk : LoadBalancedBackend.

Record config_ok : Prop := {
  co_few : 0 < n_devices <= 2 ^ 16;
  co_dev : zlen (device_macs config) = n_devices;
  co_dev6 : ∀ i, 0 <= i < n_devices → zlen (getz (device_macs config) i) = 6
}.
Hypothesis Hcfg : config_ok.
(** The uninitialised backend has room for an address. *)
Hypothesis Hjunk : zlen (mac junk) = 6.

Definition mbuf_ok (m : mbuf) : Prop := 0 <= port m < n_devices ∧ 52 <= zlen (buf m).

Lemma addr_at_eq b off bytes :
  zlen bytes = 6 → (∀ i, 0 <= i < 6 → getz b (off + i) = getz bytes i) → addr_at b off = bytes.
Proof.
  intros Hl Hg. apply getz_ext; [by rewrite Hl|]. intros i Hi. change (zlen (addr_at b off)) with 6 in Hi.
  rewrite <- Hg by done. unfold addr_at.
  assert (i = 0 ∨ i = 1 ∨ i = 2 ∨ i = 3 ∨ i = 4 ∨ i = 5) as [->|[->|[->|[->|[->| ->]]]]] by lia;
    unfold getz at 1; simpl; rewrite ?Z.add_0_r; done.
Qed.

(** The writes after [lb_get_backend]. *)
Lemma emit_ok m v :
  0 <= nic v < n_devices → zlen (mac v) = 6 → 52 <= zlen (buf m) →
  ∃ b1 b2 b3, st32 (buf m) (14 + IPV4_DST_ADDR) (ip v) = Ok b1 ∧
    rd (device_macs config) (nic v) = Ok (getz (device_macs config) (nic v)) ∧
    st_bytes b1 (0 + ETHER_S_ADDR) (getz (device_macs config) (nic v)) = Ok b2 ∧
    st_bytes b2 (0 + ETHER_D_ADDR) (mac v) = Ok b3 ∧
    w32 b3 30 = u32 (ip v) ∧ addr_at b3 0 = mac v ∧
    addr_at b3 6 = getz (device_macs config) (nic v) ∧ agree payload (buf m) b3.
Proof.
  intros Hn Hm Hl. destruct Hcfg as [Hfew Hd Hd6]. specialize (Hd6 _ Hn).
  destruct (st32_ok (buf m) 30 (ip v)) as (b1 & E1 & [L1 F1] & W1); [lia..|].
  destruct (st_bytes_ok b1 6 (getz (device_macs config) (nic v))) as (b2 & E2 & [L2 F2] & G2); [lia..|].
  destruct (st_bytes_ok b2 0 (mac v)) as (b3 & E3 & [L3 F3] & G3); [lia..|].
  rewrite Hd6 in *. rewrite Hm in *.
  exists b1, b2, b3. split; [exact E1|]. split; [apply rd_ok; lia|]. split; [exact E2|]. split; [exact E3|].
  split; [|split; [|split; [|split]]].
  - rewrite <- W1. unfold w32, w16. rewrite !F3, !F2 by lia. done.
  - apply addr_at_eq; [done|]. intros i Hi. by apply G3.
  - apply addr_at_eq; [done|]. intros i Hi. rewrite F3 by lia. by apply G2.
  - lia.
  - unfold payload. intros i Hi Hp. rewrite F3, F2, F1 by lia. done.
Qed.

(** What a whole packet does to the balancer, from the entries alive at [now]. *)
Definition processed balancer chf chb (m : mbuf) now
    (r : res (Z * mbuf * LoadBalancer MF MB)) : Prop :=
  ∃ dev m' balancer' chf' chb' out, r = Ok (dev, m', balancer') ∧
    lb_inv balancer' chf' chb' ∧ same_conf balancer balancer' ∧
    dchain_high_fp chf' <= now ∧ dchain_high_fp chb' <= now ∧
    dchain_index_range_fp chf' = dchain_index_range_fp chf ∧
    dchain_index_range_fp chb' = dchain_index_range_fp chb ∧
    lb_step (dchain_index_range_fp chf) (dchain_index_range_fp chb) now (win balancer)
      (unexpired (flow_expiration_time balancer) now (flows balancer chf))
      (unexpired (backend_expiration_time balancer) now (alive_backends balancer chb))
      (classify m) (flows balancer' chf') (alive_backends balancer' chb') out ∧
    emitted config out m dev m'.

Definition goes_stale balancer chf chb (m : mbuf) now : Prop :=
  stale (unexpired (flow_expiration_time balancer) now (flows balancer chf))
    (unexpired (backend_expiration_time balancer) now (alive_backends balancer chb)) (classify m).

Lemma lb_same_conf_trans b1 b2 b3 : same_conf b1 b2 → same_conf b2 b3 → same_conf b1 b3.
Proof. unfold same_conf. intuition congruence. Qed.

Lemma same_conf_win b1 b2 : same_conf b1 b2 → win b2 = win b1.
Proof. intros (_ & _ & E1 & E2 & E3 & _). unfold win. by rewrite E1, E2, E3. Qed.

Lemma lb_process_spec balancer chf chb m now :
  lb_inv balancer chf chb → mbuf_ok m → 0 <= now < 2 ^ 62 →
  dchain_high_fp chf <= now → dchain_high_fp chb <= now →
  ¬ goes_stale balancer chf chb m now →
  processed balancer chf chb m now (nf_core_process config junk balancer m now).
Proof.
  intros Hinv [Hp Hl] Hnow Htf Htb Hst. unfold nf_core_process.
  destruct (lb_expire_flows_spec balancer chf chb now Hinv Hnow)
    as (b1 & -> & Hinv1 & Hs1 & Ef1 & Eb1). cbn [mbind res_bind].
  set (chf1 := dchain_expire_old_indexes_fp chf _) in *.
  destruct (lb_expire_backends_spec b1 chf1 chb now Hinv1 Hnow)
    as (b2 & -> & Hinv2 & Hs2 & Ef2 & Eb2). cbn [mbind res_bind].
  set (chb1 := dchain_expire_old_indexes_fp chb _) in *.
  pose proof (lb_same_conf_trans _ _ _ Hs1 Hs2) as Hs. pose proof (same_conf_win _ _ Hs) as Hw.
  assert (Ee : backend_expiration_time b1 = backend_expiration_time balancer) by apply Hs1.
  rewrite Ee, Eb1 in Eb2. rewrite Ef1 in Ef2.
  assert (Hlift : ∀ p balancer' chf' chb' out dev m',
    stepped b2 chf1 chb1 now p balancer' chf' chb' out → p = classify m →
    emitted config out m dev m' → processed balancer chf chb m now (Ok (dev, m', balancer'))).
  { intros p b' chf' chb' out dev m' (H1 & H2 & H3 & H4 & H5 & H6 & H7) -> Hem.
    exists dev, m', b', chf', chb', out. split; [done|]. split; [done|].
    split; [by eapply lb_same_conf_trans|]. split; [done|]. split; [done|]. split; [done|]. split; [done|].
    rewrite <- Ef2, <- Eb2, <- Hw. by split. }
  assert (Hother : ¬ is_tcpudp (buf m) = true →
    processed balancer chf chb m now (Ok (port m, m, b2))).
  { intros Ht. apply (Hlift Other b2 chf1 chb1 Drop); [|unfold classify; by destruct is_tcpudp|done].
    split; [done|]. split; [done|]. split; [done|]. split; [done|]. split; [done|]. split; [done|].
    apply step_other. }
  rewrite (parse_headers m _ (Ok (port m, m, b2))) by done.
  destruct (is_tcpudp (buf m)) eqn:Et; [|by apply Hother].
  pose proof (land15_bound (getz (buf m) 14)) as Hi. unfold SIZEOF_ETHER_HDR.
  rewrite !ld16_ok, !ld32_ok, ld8_ok
    by (unfold ports_at, IPV4_SRC_ADDR, IPV4_DST_ADDR, IPV4_NEXT_PROTO_ID,
        TCPUDP_DST_PORT, TCPUDP_SRC_PORT; lia).
  cbn [mbind res_bind]. set (flow := mk_lb_flow _ _).
  destruct (Z.eqb_spec (port m) 0) as [E0|E0]; cbn [negb].
  - assert (Hc : classify m = Request flow).
    { unfold classify. rewrite Et. rewrite (proj2 (Z.eqb_eq _ _) E0). done. }
    unfold goes_stale in Hst. rewrite <- Ef2, <- Eb2, Hc in Hst.
    destruct (lb_get_backend_spec (Z.to_nat (flow_capacity b2)) b2 chf1 chb1 flow junk now Hinv2 Htf Htb Hst)
      as (v & b3 & chf3 & out & -> & Hstep & Hout). cbn [mbind res_bind].
    destruct Hcfg as [Hfew Hd Hd6].
    assert (Hv : 0 <= nic v < n_devices ∧ zlen (mac v) = 6).
    { destruct out; [destruct Hout as [_ ->]; simpl; lia..|]. by destruct Hout as (_ & a & _ & ?). }
    destruct Hv as [Hv1 Hv2].
    unfold nf_get_mbuf_ether_header.
    destruct (emit_ok m v Hv1 Hv2 Hl) as (x1 & x2 & x3 & -> & -> & E2 & E3 & Hem).
    cbn [mbind res_bind]. rewrite E2. cbn [mbind res_bind]. rewrite E3. cbn [mbind res_bind].
    apply (Hlift _ _ _ _ _ _ _ Hstep); [done|].
    destruct out as [| |v']; [destruct Hout as [[=] _]|destruct Hout as [_ ->]; simpl; lia|].
    destruct Hout as [-> _]. by split.
  - unfold nf_get_mbuf_ether_header, ETHER_S_ADDR. rewrite ld_addr_ok by lia. cbn [mbind res_bind].
    destruct Hcfg as [Hfew Hd Hd6].
    destruct (lb_process_heartbit_spec b2 chf1 chb1 flow (addr_at (buf m) (0 + 6)) (port m) now Hinv2)
      as (b3 & chb3 & -> & Hstep); [done..|lia|done|].
    cbn [mbind res_bind]. apply (Hlift _ _ _ _ _ _ _ Hstep); [|done].
    unfold classify. rewrite Et. rewrite (proj2 (Z.eqb_neq _ _) E0). done.
Qed.

(** *** Runs *)
Fixpoint lb_run balancer (trace : list (mbuf * Z)) : res (LoadBalancer MF MB) :=
  match trace with
  | [] => Ok balancer
  | (m, now) :: trace' =>
      '(_, _, balancer) ← nf_core_process config junk balancer m now;
      lb_run balancer trace'
  end.

(** The test of [lb_get_backend] for a flow whose backend is gone, at the time it
    is made. *)
Definition meets_dead_backend balancer (m : mbuf) (now : Z) : res bool :=
  balancer ← lb_expire_flows balancer now;
  balancer ← lb_expire_backends balancer now;
  match classify m with
  | Request f =>
      r ← map_get (deref (flow_keys (flow_heap balancer))) (flow_to_flow_id balancer) (Local f);
      match r with
      | Some i =>
          b ← rd (data (flow_id_to_backend_id balancer)) i;
          allocated ← dchain_is_index_allocated (active_backends balancer) b;
          Ok (allocated =? 0)
      | None => Ok false
      end
  | _ => Ok false
  end.

Fixpoint no_dead_backend balancer (trace : list (mbuf * Z)) : bool :=
  match trace with
  | [] => true
  | (m, now) :: trace' =>
      match meets_dead_backend balancer m now with
      | Ok false =>
          match nf_core_process config junk balancer m now with
          | Ok (_, _, balancer') => no_dead_backend balancer' trace'
          | Err _ => true
          end
      | _ => false
      end
  end.

(** The packets are sound and time does not go backwards, from [t] to [t_end]. *)
Fixpoint trace_ok (t : Z) (trace : list (mbuf * Z)) (t_end : Z) : Prop :=
  match trace with
  | [] => t <= t_end
  | (m, now) :: trace' => mbuf_ok m ∧ t <= now < 2 ^ 62 ∧ trace_ok now trace' t_end
  end.

Lemma meets_dead_backend_spec balancer chf chb m now :
  lb_inv balancer chf chb → 0 <= now < 2 ^ 62 →
  meets_dead_backend balancer m now = Ok false → ¬ goes_stale balancer chf chb m now.
Proof.
  intros Hinv Hnow. unfold meets_dead_backend, goes_stale.
  destruct (lb_expire_flows_spec balancer chf chb now Hinv Hnow)
    as (b1 & -> & Hinv1 & Hs1 & Ef1 & Eb1). cbn [mbind res_bind].
  set (chf1 := dchain_expire_old_indexes_fp chf _) in *.
  destruct (lb_expire_backends_spec b1 chf1 chb now Hinv1 Hnow)
    as (b2 & -> & Hinv2 & Hs2 & Ef2 & Eb2). cbn [mbind res_bind].
  set (chb1 := dchain_expire_old_indexes_fp chb _) in *.
  assert (Ee : backend_expiration_time b1 = backend_expiration_time balancer) by apply Hs1.
  rewrite Ee, Eb1 in Eb2. rewrite <- Ef1, <- Ef2, <- Eb2.
  destruct (classify m) as [| |f]; [by intros _ []..|].
  pose proof (li_flows _ _ _ Hinv2) as Hf. rewrite (coherent_get Hf). cbn [mbind res_bind].
  pose proof (entries_get Hf (flow_id_to_backend_id b2) f) as Hget.
  intros E (i & b & t & Hin & Hb).
  destruct (index_of (flow_keys (flow_heap b2)) chf1 f) as [j|] eqn:Ej.
  - destruct Hget as [u Hin'].
    assert (Ekey : (f, i, b, t) = (f, j, getz (data (flow_id_to_backend_id b2)) j, u)).
    { eapply (NoDup_fmap_elem e_key); [apply (entries_nodup_keys Hf)|exact Hin|exact Hin'|done]. }
    injection Ekey as -> -> ->. pose proof (entry_index _ _ _ _ _ _ _ Hin') as Hj.
    pose proof (co_range Hf j Hj). pose proof (li_ids _ _ _ Hinv2). pose proof (li_id _ _ _ Hinv2 j Hj).
    rewrite rd_ok in E by lia. cbn [mbind res_bind] in E.
    rewrite (dchain_is_index_allocated_spec (co_chain _ _ _ _ (li_backs _ _ _ Hinv2))) in E by done.
    cbn [mbind res_bind] in E. injection E as E. apply Hb. unfold alive_backends.
    rewrite entries_indexes, <- dchain_allocated_spec.
    destruct (dchain_allocated_fp chb1 _); done.
  - apply Hget, list_elem_of_fmap. by exists (f, i, b, t).
Qed.
End handler.
End balancer.

(** *** What a step does to the entries *)
Section steps.
Variables (capf capb now : Z) (win : lb_flowi → list Z).
Implicit Types (fs : list flow_entry) (bs : list backend_entry).

(** Nothing is forgotten. *)
Lemma lb_step_keeps_flow fs bs p fs' bs' out f i b t :
  lb_step capf capb now win fs bs p fs' bs' out → (f, i, b, t) ∈ fs → t <= now →
  ∃ t', t <= t' ∧ (f, i, b, t') ∈ fs'.
Proof.
  intros Hs Hin Ht. destruct Hs; try (exists t; split; [lia|first [done|set_solver]]).
  destruct (decide (i = b0)) as [->|Hne].
  - exists now. split; [done|]. apply elem_of_touch. right. by eexists.
  - exists t. split; [lia|]. apply elem_of_touch. by left.
Qed.

Lemma lb_step_keeps_backend fs bs p fs' bs' out a b v t :
  lb_step capf capb now win fs bs p fs' bs' out → (a, b, v, t) ∈ bs → t <= now →
  ∃ t', t <= t' ∧ (a, b, v, t') ∈ bs'.
Proof.
  intros Hs Hin Ht. destruct Hs; try (exists t; split; [lia|first [done|set_solver]]).
  destruct (decide (b = i)) as [->|Hne].
  - exists now. split; [done|]. apply elem_of_touch. right. by eexists.
  - exists t. split; [lia|]. apply elem_of_touch. by left.
Qed.

(** A backend in the table was there before, or sent the heartbeat. *)
Lemma lb_step_origin fs bs p fs' bs' out a b v t :
  lb_step capf capb now win fs bs p fs' bs' out → (a, b, v, t) ∈ bs' →
  NoDup (e_index <$> bs) →
  (a, b, v, t) ∈ bs ∨
  (t = now ∧ ∃ m n, p = Heartbeat a m n ∧ (v = mk_lb_backend (u16 n) m a ∨ ∃ t0, (a, b, v, t0) ∈ bs)).
Proof.
  intros Hs Hin Hnd. destruct Hs as [|a' m n i Hi Ha|a' m n i Hk Hr Hi|?|?|?|?|?]; try by left.
  - apply elem_of_touch in Hin as [[Hin _]|([[[a0 i0] v0] t0] & Hin & Ei & E)]; [by left|].
    unfold set_time, e_index in *. simplify_eq/=. right. split; [done|].
    destruct Ha as (v1 & t1 & Ha).
    assert ((a', i, v1, t1) = (a0, i, v0, t0)) as [= -> -> ->]
      by (eapply (NoDup_fmap_elem e_index); [exact Hnd|done..]).
    exists m, n. split; [done|]. right. by eexists.
  - apply elem_of_app in Hin as [Hin|Hin]; [by left|].
    apply list_elem_of_singleton in Hin. simplify_eq/=. right. split; [done|]. exists m, n. auto.
Qed.
End steps.

(** ** Runs of the handler *)
Section runs.
Context {MF : Type} `{!MapOps (ptr lb_flowi) lb_flowi MF, !MapLaws (ptr lb_flowi) lb_flowi MF}.
Context {MB : Type} `{!MapOps (ptr Z) Z MB, !MapLaws (ptr Z) Z MB}.
Variables (n_devices : Z) (config : lb_config) (junk : LoadBalancedBackend).
Hypothesis Hcfg : config_ok n_devices config.
Hypothesis Hjunk : zlen (mac junk) = 6.
Implicit Types (balancer : LoadBalancer MF MB) (trace : list (mbuf * Z)).

(** Every backend in the table announced itself: a heartbeat with its address
    registered its device and its MAC address, and one came at the time of the
    entry. *)
Definition heard trace (bs : list backend_entry) : Prop :=
  ∀ a b v t, (a, b, v, t) ∈ bs → ip v = a ∧
    (∃ m0 t0, (m0, t0) ∈ trace ∧ classify m0 = Heartbeat a (mac v) (nic v)) ∧
    (∃ m1 x y, (m1, t) ∈ trace ∧ classify m1 = Heartbeat a x y).

Lemma heard_later past bs x : heard past bs → heard (past ++ [x]) bs.
Proof.
  intros Hh a b v t (Ei & (m0 & u & H0 & E0) & (m1 & y & z & H1 & E1))%Hh. split; [done|].
  split; [exists m0, u|exists m1, y, z]; (split; [apply elem_of_app; by left|done]).
Qed.

Lemma heard_step past fs bs m now capf capb w fs' bs' out :
  heard past bs → NoDup (e_index <$> bs) → mbuf_ok n_devices m →
  lb_step capf capb now w fs bs (classify m) fs' bs' out → heard (past ++ [(m, now)]) bs'.
Proof.
  intros Hh Hnd [Hp _] Hs a b v t Hin.
  assert (Hold : ∀ t0, (a, b, v, t0) ∈ bs → ip v = a ∧
    (∃ m0 u, (m0, u) ∈ past ++ [(m, now)] ∧ classify m0 = Heartbeat a (mac v) (nic v)) ∧
    (∃ m1 x y, (m1, t0) ∈ past ++ [(m, now)] ∧ classify m1 = Heartbeat a x y)).
  { intros t0 (Ei & (m0 & u & H0 & E0) & (m1 & x & y & H1 & E1))%Hh. split; [done|].
    split; [exists m0, u|exists m1, x, y]; (split; [apply elem_of_app; by left|done]). }
  assert (Hnow : (m, now) ∈ past ++ [(m, now)]) by (apply elem_of_app; right; by left).
  destruct (lb_step_origin _ _ _ _ _ _ _ _ _ _ _ _ _ _ Hs Hin Hnd)
    as [Hin'|(-> & x & n & Ep & [->|(t0 & Hin')])]; [by apply Hold|..].
  - destruct Hcfg as [Hfew _ _]. split; [done|].
    assert (En : u16 n = n).
    { apply u16_id. unfold classify in Ep. destruct (is_tcpudp _); [|done].
      destruct (port m =? 0); [done|]. injection Ep as _ _ <-. lia. }
    split; [exists m, now|exists m, x, n]; (split; [done|]); simpl; by rewrite ?En.
  - destruct (Hold t0 Hin') as (Ei & H0 & _). split; [done|]. split; [done|]. by exists m, x, n.
Qed.

Lemma lb_run_spec trace balancer chf chb t t_end :
  lb_inv n_devices balancer chf chb → 0 <= t → dchain_high_fp chf <= t → dchain_high_fp chb <= t →
  trace_ok n_devices t trace t_end → no_dead_backend config junk balancer trace = true →
  ∃ balancer' chf' chb', lb_run config junk balancer trace = Ok balancer' ∧
    lb_inv n_devices balancer' chf' chb' ∧ same_conf balancer balancer' ∧
    dchain_high_fp chf' <= t_end ∧ dchain_high_fp chb' <= t_end ∧ t <= t_end ∧
    (∀ past, heard past (alive_backends balancer chb) →
       heard (past ++ trace) (alive_backends balancer' chb')) ∧
    (∀ f i b t0, (f, i, b, t0) ∈ flows balancer chf → t_end <= t0 + flow_expiration_time balancer →
       ∃ t1, t0 <= t1 ∧ (f, i, b, t1) ∈ flows balancer' chf') ∧
    (∀ a b v t0, (a, b, v, t0) ∈ alive_backends balancer chb →
       t_end <= t0 + backend_expiration_time balancer →
       ∃ t1, t0 <= t1 ∧ (a, b, v, t1) ∈ alive_backends balancer' chb').
Proof.
  revert balancer chf chb t.
  induction trace as [|[m now] trace IH]; intros balancer chf chb t Hinv Ht Hf Hb Hok Hdead.
  { simpl in *. exists balancer, chf, chb. split_and!; try done; try lia.
    - intros past. by rewrite app_nil_r.
    - intros f i b t0 Hin _. by exists t0.
    - intros a b v t0 Hin _. by exists t0. }
  destruct Hok as (Hm & Hnow & Hok). cbn [no_dead_backend] in Hdead.
  destruct (meets_dead_backend balancer m now) as [[]|] eqn:Hd; [done| |done].
  pose proof (meets_dead_backend_spec n_devices balancer chf chb m now Hinv ltac:(lia) Hd) as Hns.
  destruct (lb_process_spec n_devices config junk Hcfg Hjunk balancer chf chb m now Hinv Hm ltac:(lia) ltac:(lia) ltac:(lia) Hns)
    as (dev & m' & b1 & chf1 & chb1 & out & E & Hinv1 & Hsame & Hf1 & Hb1 & Hrf & Hrb & Hstep & _).
  rewrite E in Hdead. cbn [lb_run]. rewrite E. cbn [mbind res_bind].
  assert (Hnd : NoDup (e_index <$> unexpired (backend_expiration_time balancer) now
    (alive_backends balancer chb))).
  { apply unexpired_nodup, (entries_nodup_indexes (li_backs _ _ _ _ Hinv)). }
  destruct (IH b1 chf1 chb1 now Hinv1 ltac:(lia) Hf1 Hb1 Hok Hdead)
    as (b2 & chf2 & chb2 & -> & Hinv2 & Hsame2 & Hf2 & Hb2 & Hle & Hheard2 & Hkf & Hkb).
  exists b2, chf2, chb2. split; [done|]. split; [done|]. split; [by eapply lb_same_conf_trans|].
  split; [done|]. split; [done|]. split; [lia|]. split.
  { intros past Hheard. specialize (Hheard2 (past ++ [(m, now)])). rewrite <- app_assoc in Hheard2.
    apply Hheard2. eapply heard_step; [|exact Hnd|exact Hm|exact Hstep].
    intros a b v u [Hin _]%elem_of_unexpired. exact (Hheard a b v u Hin). }
  destruct Hsame as (Ef & Eb & _). rewrite Ef in Hkf. rewrite Eb in Hkb. split.
  - intros f i b t0 Hin Hexp.
    pose proof (entry_time (li_flows _ _ _ _ Hinv) _ _ Hin). unfold e_time in *. simpl in *.
    destruct (lb_step_keeps_flow _ _ _ _ _ _ _ _ _ _ f i b t0 Hstep) as (t1 & Ht1 & Hin1);
      [apply elem_of_unexpired; simpl; split; [done|lia]|lia|].
    destruct (Hkf f i b t1 Hin1) as (t2 & ? & ?); [lia|]. exists t2. split; [lia|done].
  - intros a b v t0 Hin Hexp.
    pose proof (entry_time (li_backs _ _ _ _ Hinv) _ _ Hin). unfold e_time in *. simpl in *.
    destruct (lb_step_keeps_backend _ _ _ _ _ _ _ _ _ _ a b v t0 Hstep) as (t1 & Ht1 & Hin1);
      [apply elem_of_unexpired; simpl; split; [done|lia]|lia|].
    destruct (Hkb a b v t1 Hin1) as (t2 & ? & ?); [lia|]. exists t2. split; [lia|done].
Qed.

(** *** The claims *)
Lemma lb_step_to capf capb now w fs bs p fs' bs' v :
  lb_step capf capb now w fs bs p fs' bs' (To v) → ∃ a b u, (a, b, v, u) ∈ bs.
Proof. intros Hs. inversion Hs; subst; eauto. Qed.

(** C14: The packet handler of the load balancer implements the abstract balancer,
    as long as no packet belongs to a flow whose backend is gone: heartbeats
    register backends or keep them alive, a request of a known flow goes to the
    backend of the flow, one of a new flow to the first backend of its window of
    the table that is alive, and is recorded if there is room; a request is
    rejected if none is, and anything else is dropped. (The entry that is marked
    as used is the one with the index of the backend.) *)
Theorem lb_refines balancer chf chb m now :
  lb_inv n_devices balancer chf chb → mbuf_ok n_devices m → 0 <= now < 2 ^ 62 →
  dchain_high_fp chf <= now → dchain_high_fp chb <= now →
  meets_dead_backend balancer m now = Ok false →
  ∃ dev m' balancer' chf' chb' out,
    nf_core_process config junk balancer m now = Ok (dev, m', balancer') ∧
    lb_inv n_devices balancer' chf' chb' ∧ same_conf balancer balancer' ∧
    dchain_high_fp chf' <= now ∧ dchain_high_fp chb' <= now ∧
    dchain_index_range_fp chf' = dchain_index_range_fp chf ∧
    dchain_index_range_fp chb' = dchain_index_range_fp chb ∧
    lb_step (dchain_index_range_fp chf) (dchain_index_range_fp chb) now (win balancer)
      (unexpired (flow_expiration_time balancer) now (flows balancer chf))
      (unexpired (backend_expiration_time balancer) now (alive_backends balancer chb))
      (classify m) (flows balancer' chf') (alive_backends balancer' chb') out ∧
    emitted config out m dev m'.
Proof.
  intros Hinv Hm Hnow Hf Hb Hd.
  apply (lb_process_spec n_devices config junk Hcfg Hjunk balancer chf chb m now Hinv Hm Hnow Hf Hb).
  by apply (meets_dead_backend_spec n_devices).
Qed.

(** A request of a new flow that is sent to a backend is recorded if there is room. *)
Lemma lb_step_records capf capb now w fs bs f fs' bs' v :
  lb_step capf capb now w fs bs (Request f) fs' bs' (To v) → f ∉ e_key <$> fs → zlen fs < capf →
  ∃ i b a u, (f, i, b, now) ∈ fs' ∧ (a, b, v, u) ∈ bs' ∧ bs' = bs.
Proof.
  intros Hs Hf Hr. inversion Hs; subst; try lia.
  - exfalso. apply Hf. apply list_elem_of_fmap. by exists (f, i, b, t).
  - exists i, b, a, u. split; [apply elem_of_app; right; by left|done].
Qed.

(** ... and later requests go to that backend. *)
Lemma lb_step_known capf capb now w fs bs f fs' bs' out i b a v t u :
  lb_step capf capb now w fs bs (Request f) fs' bs' out →
  NoDup (e_key <$> fs) → NoDup (e_index <$> bs) → (f, i, b, t) ∈ fs → (a, b, v, u) ∈ bs → out = To v.
Proof.
  intros Hs Hk Hb Hf Hin.
  assert (Hknown : f ∈ e_key <$> fs) by (apply list_elem_of_fmap; by exists (f, i, b, t)).
  inversion Hs; subst; try done.
  assert ((f, i, b, t) = (f, i0, b0, t0)) as [= <- <- <-]
    by (eapply (NoDup_fmap_elem e_key); [exact Hk|done..]).
  assert ((a, b, v, u) = (a0, b, v0, u0)) as [= <- <- <-]
    by (eapply (NoDup_fmap_elem e_index); [exact Hb|done..]).
  done.
Qed.

(** C15: Connections stick to their backend, as long as no flow meets a dead backend. When
    a request of a new flow is sent to a backend (and there is room to record the flow),
    every later request of the flow that comes before the flow expires, and within the
    expiration time of the last heartbeat [u] of that backend, leaves on the same device
    for the same MAC and IP address. In between, any packets may be handled that do not
    belong to a flow whose backend is gone ([no_dead_backend]): such a packet makes the
    handler erase a key twice, which may lose this flow, too
    ([lb_dead_backend_breaks_flow_table]). *)
Theorem lb_flow_affinity balancer chf chb m1 t1 dev1 m1' b1 f :
  lb_inv n_devices balancer chf chb → mbuf_ok n_devices m1 → 0 <= t1 < 2 ^ 62 →
  dchain_high_fp chf <= t1 → dchain_high_fp chb <= t1 →
  meets_dead_backend balancer m1 t1 = Ok false → classify m1 = Request f →
  let old := unexpired (flow_expiration_time balancer) t1 (flows balancer chf) in
  f ∉ e_key <$> old → zlen old < dchain_index_range_fp chf →
  nf_core_process config junk balancer m1 t1 = Ok (dev1, m1', b1) → dev1 ≠ port m1 →
  ∃ a i v u,
    (a, i, v, u) ∈ unexpired (backend_expiration_time balancer) t1 (alive_backends balancer chb) ∧
    dev1 = nic v ∧ w32 (buf m1') 30 = u32 (ip v) ∧
    ∀ trace b2 m2 t2,
      trace_ok n_devices t1 trace t2 → t2 < 2 ^ 62 → no_dead_backend config junk b1 trace = true →
      lb_run config junk b1 trace = Ok b2 → mbuf_ok n_devices m2 → classify m2 = Request f →
      t2 <= t1 + flow_expiration_time balancer → t2 <= u + backend_expiration_time balancer →
      ∃ m2' b3, nf_core_process config junk b2 m2 t2 = Ok (dev1, m2', b3) ∧
        w32 (buf m2') 30 = w32 (buf m1') 30 ∧ addr_at (buf m2') 0 = addr_at (buf m1') 0.
Proof.
  intros Hinv Hm1 Ht1 Hf Hb Hd1 Hc1 old Hnew Hroom E1 Hdev.
  destruct (lb_process_spec n_devices config junk Hcfg Hjunk balancer chf chb m1 t1 Hinv Hm1 Ht1 Hf Hb
    (meets_dead_backend_spec n_devices _ _ _ _ _ Hinv Ht1 Hd1))
    as (dev & m' & b' & chf1 & chb1 & out & E & Hinv1 & Hs1 & Hf1 & Hb1 & _ & _ & Hstep & Hem).
  rewrite E1 in E. injection E as <- <- <-.
  destruct out as [| |v]; [destruct Hem; congruence|simpl in Hem; congruence|].
  destruct Hem as (-> & Hip & Hmac & _). rewrite Hc1 in Hstep.
  destruct (lb_step_records _ _ _ _ _ _ _ _ _ _ Hstep Hnew Hroom) as (i & b & a & u & Hfl & Hbk & Ebs).
  exists a, b, v, u. rewrite <- Ebs. split; [done|]. split; [done|]. split; [done|].
  intros trace b2 m2 t2 Hok Ht2 Hdead Erun Hm2 Hc2 Hfe Hbe.
  destruct (lb_run_spec trace b1 chf1 chb1 t1 t2 Hinv1 ltac:(lia) Hf1 Hb1 Hok Hdead)
    as (b2' & chf2 & chb2 & Erun' & Hinv2 & Hs2 & Hf2 & Hb2 & Hle & _ & Hkf & Hkb).
  rewrite Erun in Erun'. injection Erun' as <-.
  destruct Hs1 as (Ef1 & Eb1 & _). destruct Hs2 as (Ef2 & Eb2 & _). rewrite Ef1 in *. rewrite Eb1 in *.
  destruct (Hkf f i b t1 Hfl Hfe) as (tf & Htf & Hfl2).
  destruct (Hkb a b v u Hbk Hbe) as (tb & Htb & Hbk2).
  assert (Hfl3 : (f, i, b, tf) ∈ unexpired (flow_expiration_time b2) t2 (flows b2 chf2)).
  { apply elem_of_unexpired. rewrite Ef2. unfold e_time. simpl. split; [done|lia]. }
  assert (Hbk3 : (a, b, v, tb) ∈
    unexpired (backend_expiration_time b2) t2 (alive_backends b2 chb2)).
  { apply elem_of_unexpired. rewrite Eb2. unfold e_time. simpl. split; [done|lia]. }
  pose proof (unexpired_nodup e_key (flow_expiration_time b2) t2 _
    (entries_nodup_keys (li_flows _ _ _ _ Hinv2) (flow_id_to_backend_id b2))) as Hnk.
  pose proof (unexpired_nodup e_index (backend_expiration_time b2) t2 _
    (entries_nodup_indexes (li_backs _ _ _ _ Hinv2) (backends b2))) as Hnb.
  destruct (lb_process_spec n_devices config junk Hcfg Hjunk b2 chf2 chb2 m2 t2 Hinv2 Hm2 ltac:(lia) Hf2 Hb2)
    as (dev2 & m2' & b3 & chf3 & chb3 & out & E2 & _ & _ & _ & _ & _ & _ & Hstep2 & Hem2).
  { unfold goes_stale. rewrite Hc2. intros (j & bj & tj & Hj & Hbj). apply Hbj.
    assert ((f, i, b, tf) = (f, j, bj, tj)) as [= <- <- <-]
      by (eapply (NoDup_fmap_elem e_key); [exact Hnk|done..]).
    apply list_elem_of_fmap. by exists (a, b, v, tb). }
  rewrite Hc2 in Hstep2.
  rewrite (lb_step_known _ _ _ _ _ _ _ _ _ _ i b a v tf tb Hstep2 Hnk Hnb Hfl3 Hbk3) in Hem2.
  destruct Hem2 as (-> & Hip2 & Hmac2 & _). exists m2', b3. split; [exact E2|]. split; congruence.
Qed.
End runs.

(** ** Runs in which backends die

    When a flow meets a dead backend the code breaks the table of flows (see
    [lb_dead_backend_breaks_flow_table]). The table of backends survives: nothing below
    depends on what is in the map, the heap and the chain of the flows, only on the
    numbers of backends recorded for them being in range. *)
Section survivors.
Context {MF : Type} `{!MapOps (ptr lb_flowi) lb_flowi MF, !MapLaws (ptr lb_flowi) lb_flowi MF}.
Context {MB : Type} `{!MapOps (ptr Z) Z MB, !MapLaws (ptr Z) Z MB}.
Variables (n_devices : Z) (config : lb_config) (junk : LoadBalancedBackend).
Hypothesis Hcfg : config_ok n_devices config.
Implicit Types (balancer b : LoadBalancer MF MB) (trace : list (mbuf * Z)) (chb : dchain).

(** A sound table of flows, that of the start, to put in the place of a broken one. *)
Variables (b0 : LoadBalancer MF MB) (chf0 : dchain).
Definition restore b : LoadBalancer MF MB :=
  upd_flows b (flow_to_flow_id b0) (flow_heap b0) (flow_chain b0) (flow_id_to_backend_id b0).

Definition ids_ok b (range : Z) : Prop :=
  ∀ i, 0 <= i < zlen (data (flow_id_to_backend_id b)) →
    0 <= getz (data (flow_id_to_backend_id b)) i < range.

Definition survives b chb : Prop :=
  lb_inv n_devices (restore b) chf0 chb ∧ ids_ok b (dchain_index_range_fp chb).

(** Only the flows of [b'] differ from those of [b], and the backends recorded are in
    range. *)
Definition flows_only b b' chb : Prop :=
  restore b' = restore b ∧ ids_ok b' (dchain_index_range_fp chb).

Lemma flows_only_survives b b' chb : survives b chb → flows_only b b' chb → survives b' chb.
Proof. intros [Hinv _] [E Hids]. split; [by rewrite E|done]. Qed.

Lemma restore_backends b b' :
  restore b' = restore b →
  backends b' = backends b ∧ active_backends b' = active_backends b ∧
  backend_expiration_time b' = backend_expiration_time b ∧
  ∀ chb, alive_backends b' chb = alive_backends b chb.
Proof.
  unfold restore, upd_flows, alive_backends. intros E. injection E. intros.
  repeat split; congruence.
Qed.

Lemma expire_flows_only b chb now b' :
  survives b chb → lb_expire_flows b now = Ok b' → flows_only b b' chb.
Proof.
  intros [_ Hids] E. unfold lb_expire_flows in E.
  apply res_bind_Ok in E as (? & _ & E). apply res_bind_Ok in E as ([[? c] m] & _ & [= <-]).
  by split.
Qed.

Lemma expire_backends_restored b now :
  lb_expire_backends (restore b) now = restore <$> lb_expire_backends b now.
Proof.
  unfold lb_expire_backends. cbn [restore upd_flows backend_expiration_time active_backends
    backend_ips ip_to_backend_id]. destruct (c_assert _); [|done]. cbn [mbind res_bind].
  by destruct (expire_items_single_map _ _ _ _) as [[[? c] m]|].
Qed.

Lemma heartbit_restored b flow m n now :
  lb_process_heartbit (restore b) flow m n now = restore <$> lb_process_heartbit b flow m n now.
Proof.
  unfold lb_process_heartbit. cbn [restore upd_flows active_backends backend_ips backends
    ip_to_backend_id]. destruct (map_get _ _ _) as [[i|]|]; [| |done]; cbn [mbind res_bind].
  - by destruct (dchain_rejuvenate_index _ _ _) as [[? c]|].
  - destruct (dchain_allocate_new_index _ _ _) as [[[ret c] i]|]; [|done]. cbn [mbind res_bind].
    destruct (negb (ret =? 0)); [|done].
    destruct (vector_borrow (backends b) i) as [p|]; [|done]. cbn [mbind res_bind].
    destruct (store (backends b) p _) as [v|]; [|done]. unfold vector_return. cbn [mbind res_bind].
    destruct (vector_borrow (backend_ips b) i) as [q|]; [|done]. cbn [mbind res_bind].
    destruct (store (backend_ips b) q _) as [ips|]; [|done]. cbn [mbind res_bind].
    by destruct (map_put _ _ _ _).
Qed.

(** Whatever the table of flows is, the backend returned is one of those alive. *)
Lemma copy_backend_alive b chb i v :
  survives b chb → i ∈ dchain_indexes_fp chb → copy_backend b i = Ok v →
  v = getz (data (backends b)) i.
Proof.
  intros [Hinv _] Hi E. pose proof (co_range (li_backs _ _ _ _ Hinv) i Hi).
  pose proof (li_recs _ _ _ _ Hinv) as Hl. simpl in Hl.
  rewrite copy_backend_ok in E by lia. by injection E as <-.
Qed.

Lemma new_flow_alive b chb flow now v b' :
  survives b chb → new_flow b flow junk now = Ok (v, b') →
  flows_only b b' chb ∧ (nic v = 0 ∨ ∃ i, i ∈ dchain_indexes_fp chb ∧ v = getz (data (backends b)) i).
Proof.
  intros Hsv. pose proof Hsv as [Hinv Hids]. unfold new_flow.
  rewrite (lb_find_spec flow (cht b) chb (active_backends b) (cht_height b) (backend_capacity b)
    (li_cht _ _ _ _ Hinv) (co_chain _ _ _ _ (li_backs _ _ _ _ Hinv)))
    by (symmetry; exact (li_capb _ _ _ _ Hinv)).
  cbn [mbind res_bind].
  destruct (first_alive chb _) as [i|] eqn:Ef; [|intros [= <- <-]; split; [done|by left]].
  apply first_alive_Some in Ef as [_ Hi]. pose proof (co_range (li_backs _ _ _ _ Hinv) i Hi) as Hr.
  intros E. apply res_bind_Ok in E as ([[ret c] j] & _ & E).
  apply res_bind_Ok in E as (b1 & E1 & E). apply res_bind_Ok in E as (v1 & Ev & [= -> ->]).
  assert (Hb1 : flows_only b b' chb).
  { destruct (negb (ret =? 0)); [|by injection E1 as <-].
    apply res_bind_Ok in E1 as (p & _ & E1). apply res_bind_Ok in E1 as (fs & _ & E1).
    apply res_bind_Ok in E1 as (q & Eq & E1). apply res_bind_Ok in E1 as (ids & Eids & E1).
    apply res_bind_Ok in E1 as (? & _ & E1). apply res_bind_Ok in E1 as (m & _ & E1).
    apply res_bind_Ok in E1 as (? & _ & [= <-]). split; [done|]. unfold ids_ok. simpl.
    destruct (decide (0 <= j < zlen (data (flow_id_to_backend_id b)))) as [Hj|Hj];
      [|by rewrite vector_borrow_err in Eq].
    rewrite vector_borrow_ok in Eq by done. injection Eq as <-.
    rewrite store_cell in Eids by done. injection Eids as <-. simpl. rewrite zlen_setz. intros k Hk.
    pose proof (li_capb _ _ _ _ Hinv). destruct (li_cht _ _ _ _ Hinv) as (_ & Hbc & _). simpl in *.
    rewrite getz_setz by lia. case_decide; [rewrite u32_id; lia|by apply Hids]. }
  split; [done|]. right. exists i. split; [done|].
  rewrite (copy_backend_alive b' chb i v (flows_only_survives _ _ _ Hsv Hb1) Hi Ev).
  by destruct (restore_backends _ _ (proj1 Hb1)) as (-> & _).
Qed.

Lemma get_backend_alive fuel b chb flow now v b' :
  survives b chb → lb_get_backend fuel b flow junk now = Ok (v, b') →
  flows_only b b' chb ∧ (nic v = 0 ∨ ∃ i, i ∈ dchain_indexes_fp chb ∧ v = getz (data (backends b)) i).
Proof.
  revert b. induction fuel as [|fuel IH]; intros b Hsv E; [done|].
  cbn [lb_get_backend] in E. apply res_bind_Ok in E as (r & _ & E).
  destruct r as [i|]; [|by apply (new_flow_alive b chb flow now)].
  apply res_bind_Ok in E as (p & Ep & E). apply res_bind_Ok in E as (k & Ek & E).
  apply res_bind_Ok in E as (? & _ & E). pose proof Hsv as [Hinv Hids].
  assert (Hk : 0 <= k < dchain_index_range_fp chb).
  { destruct (decide (0 <= i < zlen (data (flow_id_to_backend_id b)))) as [Hi|Hi];
      [|by rewrite vector_borrow_err in Ep].
    rewrite vector_borrow_ok in Ep by done. injection Ep as <-.
    rewrite load_cell in Ek by done. injection Ek as <-. by apply Hids. }
  pose proof (li_capb _ _ _ _ Hinv) as Hcb. destruct (li_cht _ _ _ _ Hinv) as (_ & Hbc & _).
  simpl in Hcb, Hbc. rewrite i32_id in E by lia.
  rewrite (dchain_is_index_allocated_spec (co_chain _ _ _ _ (li_backs _ _ _ _ Hinv))) in E by done.
  cbn [mbind res_bind] in E. destruct (dchain_allocated_fp chb k) eqn:Ea; cbn [Z.b2z Z.eqb] in E.
  - apply dchain_allocated_spec in Ea. apply res_bind_Ok in E as ([? c] & _ & E).
    apply res_bind_Ok in E as (v1 & Ev & [= -> <-]).
    assert (Hb1 : flows_only b (upd_flows b (flow_to_flow_id b) (flow_heap b) c
      (flow_id_to_backend_id b)) chb) by by split.
    split; [done|]. right. exists k. split; [done|].
    exact (copy_backend_alive _ chb k v (flows_only_survives _ _ _ Hsv Hb1) Ea Ev).
  - apply res_bind_Ok in E as (q & _ & E). apply res_bind_Ok in E as ([m ?] & _ & E).
    apply res_bind_Ok in E as (? & _ & E).
    destruct (IH _ (flows_only_survives b (upd_flows b m (flow_heap b) (flow_chain b)
      (flow_id_to_backend_id b)) chb Hsv ltac:(by split)) E) as [[E1 Hids1] Hv].
    split; [by split|exact Hv].
Qed.

Lemma expire_backends_survive b chb now b' :
  survives b chb → 0 <= now < 2 ^ 62 → dchain_high_fp chb <= now →
  lb_expire_backends b now = Ok b' →
  ∃ chb', survives b' chb' ∧ dchain_high_fp chb' <= now ∧
    backend_expiration_time b' = backend_expiration_time b ∧
    alive_backends b' chb' = unexpired (backend_expiration_time b) now (alive_backends b chb).
Proof.
  intros [Hinv Hids] Hnow Hh E.
  destruct (lb_expire_backends_spec n_devices (restore b) chf0 chb now Hinv Hnow)
    as (b1 & E1 & Hinv1 & Hs & _ & Ha).
  rewrite expire_backends_restored, E in E1. injection E1 as <-.
  eexists. split; [split; [exact Hinv1|]|].
  - unfold lb_expire_backends in E. apply res_bind_Ok in E as (? & _ & E).
    apply res_bind_Ok in E as ([[? c] m] & _ & [= <-]). exact Hids.
  - split; [done|]. split; [apply Hs|exact Ha].
Qed.

Lemma heartbit_survives b chb flow m n now b' :
  survives b chb → dchain_high_fp chf0 <= now → dchain_high_fp chb <= now →
  0 <= n < n_devices → n_devices <= 2 ^ 16 → zlen m = 6 →
  lb_process_heartbit b flow m n now = Ok b' →
  ∃ chb', survives b' chb' ∧ dchain_high_fp chb' <= now ∧
    backend_expiration_time b' = backend_expiration_time b ∧
    ∃ capf capb w fs fs' out, lb_step capf capb now w fs (alive_backends b chb)
      (Heartbeat (src_ip flow) m n) fs' (alive_backends b' chb') out.
Proof.
  intros [Hinv Hids] Hf Hb Hn Hdev Hm E.
  destruct (lb_process_heartbit_spec n_devices (restore b) chf0 chb flow m n now Hinv Hf Hb Hn Hdev Hm)
    as (b1 & chb1 & E1 & Hinv1 & Hs & _ & Hh & _ & Hr & Hstep).
  rewrite heartbit_restored, E in E1. injection E1 as <-.
  exists chb1. split; [split; [exact Hinv1|]|].
  - assert (Ei : flow_id_to_backend_id b' = flow_id_to_backend_id b).
    { unfold lb_process_heartbit in E. apply res_bind_Ok in E as ([i|] & _ & E).
      - by apply res_bind_Ok in E as ([? c] & _ & [= <-]).
      - apply res_bind_Ok in E as ([[ret c] i] & _ & E). destruct (negb _); [|by injection E as <-].
        repeat (apply res_bind_Ok in E as (? & _ & E)). by injection E as <-. }
    unfold ids_ok. rewrite Ei, Hr. exact Hids.
  - split; [done|]. split; [apply Hs|]. by do 6 eexists.
Qed.

(** What a packet does to the backends, whatever the flows are. *)
Lemma survivor_step b chb m now dev m' b' :
  survives b chb → mbuf_ok n_devices m → 0 <= now < 2 ^ 62 →
  dchain_high_fp chf0 <= now → dchain_high_fp chb <= now →
  nf_core_process config junk b m now = Ok (dev, m', b') →
  ∃ chb', survives b' chb' ∧ dchain_high_fp chb' <= now ∧
    backend_expiration_time b' = backend_expiration_time b ∧
    (∀ past, heard past (alive_backends b chb) →
       heard (past ++ [(m, now)]) (alive_backends b' chb')) ∧
    (port m = 0 → dev ≠ 0 → ∃ a i v u,
       (a, i, v, u) ∈ unexpired (backend_expiration_time b) now (alive_backends b chb) ∧
       dev = nic v ∧ w32 (buf m') 30 = u32 (ip v) ∧ addr_at (buf m') 0 = mac v).
Proof.
  intros Hsv Hm Hnow Hf Hb E. unfold nf_core_process in E.
  apply res_bind_Ok in E as (b1 & E1 & E). apply res_bind_Ok in E as (b2 & E2 & E).
  pose proof (expire_flows_only _ _ _ _ Hsv E1) as Hfo.
  destruct (restore_backends _ _ (proj1 Hfo)) as (_ & _ & Ex1 & Ea1).
  destruct (expire_backends_survive b1 chb now b2 (flows_only_survives _ _ _ Hsv Hfo) Hnow Hb E2)
    as (chb2 & Hsv2 & Hb2 & Ex2 & Ea2).
  rewrite Ex1 in Ex2, Ea2. rewrite Ea1 in Ea2. set (bs := alive_backends b chb) in *.
  assert (Hheard : ∀ past, heard past bs → heard (past ++ [(m, now)]) (alive_backends b2 chb2)).
  { intros past Hp. rewrite Ea2. apply heard_later. intros a i v u [Hin _]%elem_of_unexpired.
    exact (Hp a i v u Hin). }
  assert (Hsame : ∀ b3, flows_only b2 b3 chb2 → ∃ chb', survives b3 chb' ∧
    dchain_high_fp chb' <= now ∧ backend_expiration_time b3 = backend_expiration_time b ∧
    (∀ past, heard past bs → heard (past ++ [(m, now)]) (alive_backends b3 chb'))).
  { intros b3 Hb3. destruct (restore_backends _ _ (proj1 Hb3)) as (_ & _ & Ex3 & Ea3).
    exists chb2. split; [by eapply flows_only_survives|]. rewrite Ex3, Ea3. done. }
  rewrite (parse_headers m _ (Ok (port m, m, b2))) in E by apply Hm.
  destruct (is_tcpudp (buf m)) eqn:Et.
  2: { injection E as <- <- <-. destruct (Hsame b2 ltac:(split; [done|apply Hsv2])) as (c & ? & ? & ? & ?).
    exists c. repeat (split; [done|]). by intros -> ?. }
  destruct Hm as [Hp Hl]. pose proof (land15_bound (getz (buf m) 14)) as Hi. unfold SIZEOF_ETHER_HDR in E.
  rewrite !ld16_ok, !ld32_ok, ld8_ok in E
    by (unfold ports_at, IPV4_SRC_ADDR, IPV4_DST_ADDR, IPV4_NEXT_PROTO_ID,
        TCPUDP_DST_PORT, TCPUDP_SRC_PORT; lia).
  cbn [mbind res_bind] in E. set (flow := mk_lb_flow _ _) in E.
  destruct (Z.eqb_spec (port m) 0) as [E0|E0]; cbn [negb] in E.
  - apply res_bind_Ok in E as ([v b3] & E3 & E).
    destruct (get_backend_alive _ _ _ _ _ _ _ Hsv2 E3) as [Hb3 Hv].
    apply res_bind_Ok in E as (x1 & X1 & E). apply res_bind_Ok in E as (ms & Xs & E).
    apply res_bind_Ok in E as (x2 & X2 & E). apply res_bind_Ok in E as (x3 & X3 & [= <- <- <-]).
    destruct (Hsame b3 Hb3) as (c & ? & ? & ? & ?). exists c. repeat (split; [done|]).
    intros _ Hdev. destruct Hv as [Hv|(i & Hin & ->)]; [done|].
    destruct (li_rec _ _ _ _ (proj1 Hsv2) i Hin) as (_ & Hn & Hmac). simpl in Hn, Hmac.
    pose proof (proj1 (list_elem_of_fmap _ _ _) Hin) as ([i' u] & Ei & Hiu). simpl in Ei. subst i'.
    exists (getz (data (backend_ips b2)) i), i, (getz (data (backends b2)) i), u.
    split; [rewrite <- Ea2; by apply elem_of_entries|]. split; [done|].
    destruct (emit_ok n_devices config Hcfg m _ Hn Hmac Hl) as (y1 & y2 & y3 & Y1 & Ys & Y2 & Y3 & W & A & _).
    unfold nf_get_mbuf_ether_header in *. rewrite Y1 in X1. injection X1 as <-. rewrite Ys in Xs. injection Xs as <-.
    rewrite Y2 in X2. injection X2 as <-. rewrite Y3 in X3. injection X3 as <-. done.
  - unfold nf_get_mbuf_ether_header, ETHER_S_ADDR in E. rewrite ld_addr_ok in E by lia.
    cbn [mbind res_bind] in E. apply res_bind_Ok in E as (b3 & E3 & [= <- <- <-]).
    destruct Hcfg as [Hfew _ _].
    destruct (heartbit_survives b2 chb2 flow (addr_at (buf m) (0 + 6)) (port m) now b3 Hsv2 Hf Hb2
      Hp (proj2 Hfew) eq_refl E3)
      as (chb3 & Hsv3 & Hb3 & Ex3 & capf & capb & w & fs & fs' & out & Hstep).
    exists chb3. split; [done|]. split; [done|]. split; [congruence|]. split; [|done].
    intros past Hh. apply (heard_step n_devices config Hcfg past fs (alive_backends b2 chb2) m now capf capb w
      fs' (alive_backends b3 chb3) out).
    + intros a i v u Hin. rewrite Ea2 in Hin. apply elem_of_unexpired in Hin as [Hin _].
      exact (Hh a i v u Hin).
    + exact (entries_nodup_indexes (li_backs _ _ _ _ (proj1 Hsv2)) _).
    + by split.
    + assert (Hc : classify m = Heartbeat (src_ip flow) (addr_at (buf m) (0 + 6)) (port m)).
      { unfold classify. rewrite Et. by rewrite (proj2 (Z.eqb_neq _ _) E0). }
      rewrite Hc. exact Hstep.
Qed.

Lemma survivor_run trace b chb t t_end b1 :
  survives b chb → 0 <= t → dchain_high_fp chf0 <= t → dchain_high_fp chb <= t →
  trace_ok n_devices t trace t_end → lb_run config junk b trace = Ok b1 →
  ∃ chb1, survives b1 chb1 ∧ dchain_high_fp chb1 <= t_end ∧ t <= t_end ∧
    backend_expiration_time b1 = backend_expiration_time b ∧
    ∀ past, heard past (alive_backends b chb) → heard (past ++ trace) (alive_backends b1 chb1).
Proof.
  revert b chb t. induction trace as [|[m now] trace IH]; intros b chb t Hsv Ht Hf Hb Hok E.
  { injection E as <-. exists chb. simpl in Hok. split_and!; try done; [lia|].
    intros past. by rewrite app_nil_r. }
  destruct Hok as (Hm & Hnow & Hok). cbn [lb_run] in E.
  apply res_bind_Ok in E as ([[dev m'] b2] & E2 & E).
  destruct (survivor_step b chb m now dev m' b2 Hsv Hm ltac:(lia) ltac:(lia) ltac:(lia) E2)
    as (chb2 & Hsv2 & Hb2 & Ex2 & Hh2 & _).
  destruct (IH b2 chb2 now Hsv2 ltac:(lia) ltac:(lia) Hb2 Hok E) as (chb1 & Hsv1 & Hb1 & Hle & Ex1 & Hh1).
  exists chb1. split; [done|]. split; [done|]. split; [lia|]. split; [congruence|].
  intros past Hh. specialize (Hh1 (past ++ [(m, now)]) (Hh2 past Hh)). by rewrite <- app_assoc in Hh1.
Qed.
End survivors.

(** *** A flow that meets a dead backend, the first time *)
Section failover.
Context {MF : Type} `{!MapOps (ptr lb_flowi) lb_flowi MF, !MapLaws (ptr lb_flowi) lb_flowi MF}.
Context {MB : Type} `{!MapOps (ptr Z) Z MB, !MapLaws (ptr Z) Z MB}.
Variables (n_devices : Z) (config : lb_config) (junk : LoadBalancedBackend).
Hypothesis Hcfg : config_ok n_devices config.
Hypothesis Hjunk : zlen (mac junk) = 6.
Implicit Types (balancer : LoadBalancer MF MB) (chf chb : dchain).

(** [new_flow] needs less of the map than that it agrees with the chain: that it holds
    the keys of indexes in use, fewer than there are indexes. *)
Lemma new_flow_returns balancer chf chb flow now cap fm :
  cht_ok (cht balancer) (cht_height balancer) (backend_capacity balancer) →
  double_chainp chb (active_backends balancer) → dchain_index_range_fp chb = backend_capacity balancer →
  zlen (data (backends balancer)) = dchain_index_range_fp chb →
  double_chainp chf (flow_chain balancer) → dchain_high_fp chf <= now →
  zlen (data (flow_heap balancer)) = dchain_index_range_fp chf →
  zlen (data (flow_id_to_backend_id balancer)) = dchain_index_range_fp chf →
  mapp (deref (flow_keys (flow_heap balancer))) (flow_to_flow_id balancer) cap fm →
  fm !! lb_flowp flow = None → Z.of_nat (size fm) < cap →
  (∀ k p j, fm !! k = Some (p, j) → ∃ i, p = Cell i ∧ i ∈ dchain_indexes_fp chf) →
  ∃ v b', new_flow balancer flow junk now = Ok (v, b') ∧
    ((v = mk_lb_backend 0 (mac junk) (ip junk)) ∨
     ∃ i, i ∈ dchain_indexes_fp chb ∧ v = getz (data (backends balancer)) i).
Proof.
  intros Hcht Hcb Hbc Hlb Hcf Hh Hlf Hli Hmap Hnone Hsize Hcells. unfold new_flow.
  rewrite (lb_find_spec flow _ chb _ _ _ Hcht Hcb Hbc). cbn [mbind res_bind].
  destruct (first_alive chb _) as [b|] eqn:Ef; [|eexists _, _; split; [done|by left]].
  apply first_alive_Some in Ef as [_ Hb].
  pose proof (double_chainp_range Hcb b Hb) as Hbr.
  pose proof (dchain_allocate_new_index_spec Hcf 0 now Hh) as Ha.
  destruct (dchain_out_of_space_fp chf).
  { rewrite Ha. cbn [mbind res_bind Z.eqb negb]. rewrite copy_backend_ok by (simpl; lia).
    cbn [mbind res_bind]. eexists _, _. split; [done|]. right. by exists b. }
  destruct Ha as (i & c & -> & Hi & Hn & _). cbn [mbind res_bind Z.eqb negb].
  rewrite !vector_borrow_ok by lia. cbn [mbind res_bind]. rewrite !store_cell by lia.
  cbn [mbind res_bind]. unfold vector_return. cbn [mbind res_bind]. rewrite flow_keys_store.
  set (d' := deref _).
  assert (Hki : d' (Cell i) = lb_flowp flow).
  { apply getz_setz_eq. rewrite flow_keys_len. lia. }
  destruct (map_put_law d' (flow_to_flow_id balancer) cap fm (Cell i) i) as (m & -> & _).
  - eapply mapp_frame; [|exact Hmap]. intros k p j Hk.
    destruct (Hcells _ _ _ Hk) as (x & -> & Hx). pose proof (double_chainp_range Hcf x Hx).
    apply getz_setz_ne; [|rewrite ?flow_keys_len; lia..].
    intros ->. apply dchain_allocated_spec in Hx. congruence.
  - by rewrite Hki.
  - done.
  - cbn [mbind res_bind]. rewrite copy_backend_ok by (simpl; lia). cbn [mbind res_bind].
    eexists _, _. split; [done|]. right. by exists b.
Qed.

(** The handler's lookup returns whether the backend of the flow is dead or not. *)
Lemma lb_get_backend_returns fuel balancer chf chb flow now :
  lb_inv n_devices balancer chf chb → dchain_high_fp chf <= now → dchain_high_fp chb <= now →
  ∃ v b', lb_get_backend (S (S fuel)) balancer flow junk now = Ok (v, b') ∧
    (v = mk_lb_backend 0 (mac junk) (ip junk) ∨ ∃ a, record_ok n_devices a v).
Proof.
  intros Hinv Htf Htb.
  assert (Hgood : ¬ stale (flows balancer chf) (alive_backends balancer chb) (Request flow) →
    ∃ v b', lb_get_backend (S (S fuel)) balancer flow junk now = Ok (v, b') ∧
      (v = mk_lb_backend 0 (mac junk) (ip junk) ∨ ∃ a, record_ok n_devices a v)).
  { intros Hst. destruct (lb_get_backend_spec n_devices (S fuel) balancer chf chb flow junk now
      Hinv Htf Htb Hst) as (v & b' & ? & out & -> & _ & Hout).
    exists v, b'. split; [done|]. destruct out; [by destruct Hout|left; by destruct Hout|].
    destruct Hout as [_ ?]. by right. }
  pose proof Hinv as [Hf Hb Hids Hrecs Hid Hrec Hcht Hcb Hcf Hfe Hbe].
  destruct (index_of (flow_keys (flow_heap balancer)) chf flow) as [i|] eqn:E.
  2: { apply Hgood. intros (i & b & t & Hin & _).
    pose proof (entries_get Hf (flow_id_to_backend_id balancer) flow) as Hget. rewrite E in Hget.
    apply Hget, list_elem_of_fmap. by exists (lb_flowp flow, i, b, t). }
  pose proof (coherent_get Hf flow) as Eget. rewrite E in Eget.
  apply (index_of_Some Hf) in E as [Hi Hk]. pose proof (co_range Hf i Hi) as Hir.
  pose proof (Hid i Hi) as Hbr. set (b := getz (data (flow_id_to_backend_id balancer)) i) in *.
  destruct (decide (b ∈ dchain_indexes_fp chb)) as [Hlive|Hdead].
  { apply Hgood. intros (j & b' & t & Hin & Hn). apply Hn. unfold alive_backends. rewrite entries_indexes.
    pose proof (entries_get Hf (flow_id_to_backend_id balancer) flow) as Hget.
    rewrite (proj2 (index_of_Some Hf flow i) (conj Hi Hk)) in Hget. destruct Hget as [u Hin'].
    assert ((lb_flowp flow, j, b', t) = (lb_flowp flow, i, getz (data (flow_id_to_backend_id balancer)) i, u))
      as [= _ -> _]
      by (eapply (NoDup_fmap_elem e_key); [apply (entries_nodup_keys Hf)|exact Hin|exact Hin'|done]).
    exact Hlive. }
  cbn [lb_get_backend]. rewrite Eget. cbn [mbind res_bind].
  rewrite (vector_borrow_ok (flow_id_to_backend_id balancer)) by lia. cbn [mbind res_bind].
  rewrite load_cell by lia. fold b. cbn [mbind res_bind vector_return].
  destruct Hcht as (Hch & Hbc & Hcl & Hcr). rewrite i32_id by lia.
  rewrite (dchain_is_index_allocated_spec (co_chain _ _ _ _ Hb)) by lia. cbn [mbind res_bind].
  assert (Ea : dchain_allocated_fp chb b = false).
  { destruct (dchain_allocated_fp chb b) eqn:Ea; [|done]. by apply dchain_allocated_spec in Ea. }
  rewrite Ea. cbn [Z.b2z Z.eqb].
  pose proof (co_vec _ _ _ _ Hf) as Hv. rewrite flow_keys_len in Hv.
  rewrite vector_borrow_ok by lia. cbn [mbind res_bind].
  pose proof (co_keys _ _ _ _ Hf) as Hnd.
  assert (Hfm : coh_map (getz (data (flow_keys (flow_heap balancer)))) (dchain_indexes_fp chf) !! lb_flowp flow
    = Some (Cell i, i)) by by apply coh_map_lookup.
  destruct (map_erase_law _ _ _ _ (Local (lb_flowp flow)) (Cell i) i (co_map _ _ _ _ Hf) Hfm)
    as (m & -> & Hm). cbn [mbind res_bind] in *.
  set (b1 := upd_flows balancer m _ _ _).
  assert (Eget2 : map_get (deref (flow_keys (flow_heap b1))) (flow_to_flow_id b1)
    (Local (lb_flowp flow)) = Ok None).
  { etransitivity; [exact (map_get_law _ m _ _ (Local (lb_flowp flow)) Hm)|].
    cbn [deref]. by rewrite lookup_delete_eq. }
  cbn [lb_get_backend]. rewrite Eget2. cbn [mbind res_bind].
  destruct (new_flow_returns b1 chf chb flow now (dchain_index_range_fp chf)
    (delete (lb_flowp flow) (coh_map (getz (data (flow_keys (flow_heap balancer)))) (dchain_indexes_fp chf))))
    as (v & b' & -> & Hres); try done.
  - apply Hb.
  - apply Hf.
  - by apply lookup_delete_eq.
  - rewrite map_size_delete_Some by (by rewrite Hfm). rewrite coh_map_size by done.
    pose proof (double_chainp_len (co_chain _ _ _ _ Hf)). unfold zlen, dchain_indexes_fp in *.
    rewrite length_fmap. destruct (dchain_alist_fp chf); [by apply not_elem_of_nil in Hi|]. simpl in *. lia.
  - intros k p j Hkp. apply lookup_delete_Some in Hkp as [_ Hkp].
    apply coh_map_lookup in Hkp as (-> & Hj & _); [|done]. by exists j.
  - exists v, b'. split; [done|]. destruct Hres as [->|(x & Hx & ->)]; [by left|right].
    eexists. by apply Hrec.
Qed.

(** The handler returns on every packet, one that meets a dead backend included. *)
Lemma lb_process_returns balancer chf chb m now :
  lb_inv n_devices balancer chf chb → mbuf_ok n_devices m → 0 <= now < 2 ^ 62 →
  dchain_high_fp chf <= now → dchain_high_fp chb <= now → 0 < flow_capacity balancer →
  ∃ r, nf_core_process config junk balancer m now = Ok r.
Proof.
  intros Hinv Hm Hnow Htf Htb Hcap.
  destruct (classify m) as [| |f] eqn:Hc.
  1,2: destruct (lb_process_spec n_devices config junk Hcfg Hjunk balancer chf chb m now Hinv Hm Hnow Htf Htb)
    as (dev & m' & b' & ? & ? & ? & E & _); [unfold goes_stale; rewrite Hc; by intros []|by eexists].
  unfold nf_core_process.
  destruct (lb_expire_flows_spec n_devices balancer chf chb now Hinv Hnow)
    as (b1 & -> & Hinv1 & (_ & _ & _ & _ & _ & Ec1) & _). cbn [mbind res_bind].
  destruct (lb_expire_backends_spec n_devices b1 _ chb now Hinv1 Hnow)
    as (b2 & -> & Hinv2 & (_ & _ & _ & _ & _ & Ec2) & _). cbn [mbind res_bind].
  destruct Hm as [Hp Hl]. rewrite (parse_headers m _ (Ok (port m, m, b2))) by done.
  unfold classify in Hc. destruct (is_tcpudp (buf m)); [|done].
  destruct (port m =? 0); [|done]. cbn [negb].
  pose proof (land15_bound (getz (buf m) 14)) as Hi. unfold SIZEOF_ETHER_HDR.
  rewrite !ld16_ok, !ld32_ok, ld8_ok
    by (unfold ports_at, IPV4_SRC_ADDR, IPV4_DST_ADDR, IPV4_NEXT_PROTO_ID,
        TCPUDP_DST_PORT, TCPUDP_SRC_PORT; lia).
  cbn [mbind res_bind].
  replace (S (Z.to_nat (flow_capacity b2))) with (S (S (Z.to_nat (flow_capacity b2 - 1)))) by lia.
  edestruct (lb_get_backend_returns (Z.to_nat (flow_capacity b2 - 1)) b2) as (v & b3 & -> & Hv);
    [exact Hinv2|exact Htf|exact Htb|]. cbn [mbind res_bind].
  destruct Hcfg as [Hfew _ _].
  assert (Hv' : 0 <= nic v < n_devices ∧ zlen (mac v) = 6).
  { destruct Hv as [->|(a & _ & ?)]; [simpl; lia|done]. }
  unfold nf_get_mbuf_ether_header.
  destruct (emit_ok n_devices config Hcfg m v (proj1 Hv') (proj2 Hv') Hl)
    as (x1 & x2 & x3 & -> & -> & E2 & E3 & _).
  cbn [mbind res_bind]. rewrite E2. cbn [mbind res_bind]. rewrite E3. by eexists.
Qed.

(** C17: Requests only go to backends that announced themselves and are alive, also when
    backends die. In any run from a table without backends, however many flows have met
    dead backends, a request that the handler processes and that leaves the machine
    leaves on the device, and to the MAC and IP address, of an earlier heartbeat, and a
    heartbeat from that IP address came within the expiration time. And as long as no
    flow had met a dead backend before, the handler does process the next packet,
    whether or not it meets one. (The second flow to do so may find the table of flows
    broken, see [lb_dead_backend_breaks_flow_table].) *)
Theorem lb_sends_to_live_backends balancer chf chb trace t m now :
  lb_inv n_devices balancer chf chb → alive_backends balancer chb = [] →
  ids_ok balancer (dchain_index_range_fp chb) → 0 < flow_capacity balancer →
  0 <= t → dchain_high_fp chf <= t → dchain_high_fp chb <= t →
  trace_ok n_devices t trace now → now < 2 ^ 62 → mbuf_ok n_devices m →
  (∀ b1 dev m' b2, lb_run config junk balancer trace = Ok b1 →
     nf_core_process config junk b1 m now = Ok (dev, m', b2) → port m = 0 → dev ≠ 0 →
     ∃ a m0 t0 m1 t1 mac1 nic1,
       (m0, t0) ∈ trace ∧ classify m0 = Heartbeat a (addr_at (buf m') 0) dev ∧
       w32 (buf m') 30 = u32 a ∧
       (m1, t1) ∈ trace ∧ classify m1 = Heartbeat a mac1 nic1 ∧
       now - backend_expiration_time balancer <= t1) ∧
  (no_dead_backend config junk balancer trace = true →
   ∃ b1 r, lb_run config junk balancer trace = Ok b1 ∧ nf_core_process config junk b1 m now = Ok r).
Proof.
  intros Hinv Hnil Hids Hcap Ht Hf Hb Hok Hnow Hm. split.
  - intros b1 dev m' b2 Erun E Hp Hdev.
    assert (Hsv : survives n_devices balancer chf balancer chb).
    { split; [|done]. by destruct balancer. }
    destruct (survivor_run n_devices config junk Hcfg balancer chf trace balancer chb t now b1
      Hsv Ht Hf Hb Hok Erun) as (chb1 & Hsv1 & Hb1 & Hle & Ex & Hheard).
    assert (Hnone : heard [] (alive_backends balancer chb)).
    { rewrite Hnil. by intros a b v u ?%elem_of_nil. }
    specialize (Hheard [] Hnone). simpl in Hheard.
    destruct (survivor_step n_devices config junk Hcfg balancer chf b1 chb1 m now dev m' b2 Hsv1 Hm
      ltac:(lia) ltac:(lia) Hb1 E) as (_ & _ & _ & _ & _ & Hout).
    destruct (Hout Hp Hdev) as (a & i & v & u & [Hin Hu]%elem_of_unexpired & -> & Hip & Hmac).
    destruct (Hheard a i v u Hin) as (<- & (m0 & t0 & H0 & E0) & (m1 & x & y & H1 & E1)).
    exists (ip v), m0, t0, m1, u, x, y. rewrite Hmac, <- Ex. done.
  - intros Hdead.
    destruct (lb_run_spec n_devices config junk Hcfg Hjunk trace balancer chf chb t now Hinv Ht Hf Hb Hok Hdead)
      as (b1 & chf1 & chb1 & Erun & Hinv1 & Hs & Hf1 & Hb1 & Hle & _).
    assert (Hcap1 : 0 < flow_capacity b1) by (destruct Hs as (_ & _ & _ & _ & _ & ->); exact Hcap).
    destruct (lb_process_returns b1 chf1 chb1 m now Hinv1 Hm ltac:(lia) Hf1 Hb1 Hcap1) as (r & E).
    by exists b1, r.
Qed.
End failover.

(** ** Initialisation *)
Record lb_memory_ok (mem : lb_memory) : Prop := {
  lm_flows : memory_ok (mem_flows mem);
  lm_ips : memory_ok (mem_ips mem);
  lm_heap : ∀ n, 0 <= n → zlen (mem_flow_heap mem n) = n;
  lm_backends : ∀ n, 0 <= n → zlen (mem_backends mem n) = n;
  lm_perms : ∀ n, 0 <= n → zlen (mem_permutations mem n) = n
}.

(** The sizes the program was given: powers of two for the maps, a prime number of
    hashes for the table. *)
Record lb_config_ok (config : lb_config) : Prop := {
  lc_fc : ∃ n, 0 <= n <= 27 ∧ cfg_flow_capacity config = 2 ^ n;
  lc_bc : ∃ n, 0 <= n <= 27 ∧ cfg_backend_capacity config = 2 ^ n;
  lc_cht : cfg_cht_height config * cfg_backend_capacity config <= 2 ^ 29;
  lc_le : cfg_backend_capacity config <= cfg_flow_capacity config;
  lc_prime : prime (cfg_cht_height config);
  lc_sizes : sizes_ok (cfg_cht_height config) (cfg_backend_capacity config);
  lc_fexp : 0 <= cfg_flow_expiration_time config < 2 ^ 62;
  lc_bexp : 0 <= cfg_backend_expiration_time config < 2 ^ 62
}.

(** The balancer that an initialisation leaves behind. *)
Definition starts (n_devices : Z) (config : lb_config)
    (balancer : LoadBalancer (Map (ptr lb_flowi) lb_flowi) (Map (ptr Z) Z)) : Prop :=
  let chf := empty_dchain_fp (cfg_flow_capacity config) 0 in
  let chb := empty_dchain_fp (cfg_backend_capacity config) 0 in
  lb_inv n_devices balancer chf chb ∧ flows balancer chf = [] ∧ alive_backends balancer chb = [] ∧
  ids_ok balancer (dchain_index_range_fp chb) ∧ flow_capacity balancer = cfg_flow_capacity config ∧
  ∀ i, 0 <= i < cfg_cht_height config →
    cht_row (cht balancer) (cfg_backend_capacity config) i =
    preference_list (cfg_cht_height config) (cfg_backend_capacity config) i.

Lemma lb_allocate_balancer_spec ok mem n_devices config h :
  heap_wf h → lb_memory_ok mem → lb_config_ok config →
  builds ok (starts n_devices config)
    (lb_allocate_balancer ok mem (cfg_flow_capacity config) (cfg_backend_capacity config)
       (cfg_cht_height config) (cfg_backend_expiration_time config)
       (cfg_flow_expiration_time config) h).
Proof.
  intros Hwf [Hmf Hmi Hmh Hmb Hmp] [(n & Hn & Efc) (k & Hk & Ebc) Hcht Hle Hprime Hsz Hfe Hbe].
  unfold lb_allocate_balancer. set (fc := cfg_flow_capacity config) in *.
  set (bc := cfg_backend_capacity config) in *. set (ht := cfg_cht_height config) in *.
  assert (Hfc : 0 < fc < 2 ^ 31).
  { rewrite Efc. pose proof (Z.pow_pos_nonneg 2 n). pose proof (Z.pow_lt_mono_r 2 n 31). lia. }
  destruct Hsz as (Hb & Hov & Hh).
  assert (Hbc : 0 < bc) by (rewrite Ebc; apply Z.pow_pos_nonneg; lia).
  rewrite (i32_id fc), (i32_id bc), (i32_id ht) by lia. rewrite (u32_id (ht * bc)) by nia.
  rewrite (i32_id (ht * bc)) by nia.
  unfold malloc_or, malloc. destruct (ok (next_block h)) eqn:E0.
  2: { right. cbn [frees mbind res_bind]. split; [left; by eexists|by eexists]. }
  pose proof (heap_wf_malloc h Hwf) as Hwf0.
  eapply or_err_spec; [apply (alloc_map_allocates ok _ Hmf lb_flow_equality lb_flow_hash fc (deref (mk_vector [] 0 0)));
    [exists n; split; [lia|done]|apply lb_flow_equality_spec]|done|apply NoDup_singleton|set_solver|].
  intros mf held1 h1 Hm1 Hwf1 Hnd1 Hs1. cbv beta in Hm1.
  eapply or_err_spec; [apply alloc_vector_allocates;
    [rewrite Efc; by apply (vector_fits_pow2 _ n 27)|lia|apply Hmh; lia]|done..|].
  intros vf held2 h2 [Hv2 Hg2] Hwf2 Hnd2 Hs2.
  eapply or_err_spec; [apply alloc_vector_allocates;
    [rewrite Efc; by apply (vector_fits_pow2 _ n 27)|lia|apply (mo_elems _ Hmi); lia]|done..|].
  intros ids held3 h3 [Hv3 Hg3] Hwf3 Hnd3 Hs3.
  eapply or_err_spec; [apply (alloc_chain_allocates ok _ Hmf); lia|done..|].
  intros cf held4 h4 Hc4 Hwf4 Hnd4 Hs4.
  eapply or_err_spec; [apply alloc_vector_allocates;
    [rewrite Ebc; by apply (vector_fits_pow2 _ k 27)|lia|apply (mo_elems _ Hmi); lia]|done..|].
  intros ips held5 h5 [Hv5 Hg5] Hwf5 Hnd5 Hs5.
  eapply or_err_spec; [apply alloc_vector_allocates;
    [rewrite Ebc; by apply (vector_fits_pow2 _ k 27)|lia|apply Hmb; lia]|done..|].
  intros bs held6 h6 [Hv6 Hg6] Hwf6 Hnd6 Hs6.
  eapply or_err_spec; [apply (alloc_map_allocates ok _ Hmi lb_ip_equality lb_ip_hash bc (deref (mk_vector [] 0 0)));
    [exists k; split; [lia|done]|apply Z.eqb_eq]|done..|].
  intros mb held7 h7 Hm7 Hwf7 Hnd7 Hs7. cbv beta in Hm7.
  eapply or_err_spec; [apply (alloc_chain_allocates ok _ Hmi); lia|done..|].
  intros cb held8 h8 Hc8 Hwf8 Hnd8 Hs8.
  eapply or_err_spec; [apply alloc_vector_allocates;
    [split; unfold SIZEOF_UINT32; lia|nia|apply (mo_elems _ Hmi); nia]|done..|].
  intros tb held9 h9 [Hv9 Hg9] Hwf9 Hnd9 Hs9.
  destruct (ok (next_block h9)) eqn:E9.
  - destruct (lb_fill_cht_spec ht bc (conj Hb (conj Hov Hh)) Hprime Hbc ok
      (mem_permutations mem (ht * (bc + 1))) tb h9 Hwf9 E9) as (tb' & h' & -> & _ & _ & Hl & Hrow);
      [rewrite Hmp by nia; lia|lia|].
    cbn [mbind res_bind]. left. do 2 eexists. split; [done|].
    split; [|split; [done|split; [done|split; [|split; [done|exact Hrow]]]]].
    2: { intros i Hi. simpl in *. rewrite Hg3 by lia. unfold null_init. lia. }
    split; simpl; try done.
    + eapply allocated_coherent; [exact Hm1|by rewrite flow_keys_len|exact Hc4].
    + eapply allocated_coherent; [exact Hm7|done|exact Hc8].
    + by intros i ?%elem_of_nil.
    + by intros i ?%elem_of_nil.
    + eapply filled_cht_ok; [exact (conj Hb (conj Hov Hh))|done|done|lia|done].
  - right. split; [right|by exists (next_block h9)]. unfold lb_fill_cht.
    rewrite prime_loop_ok by (done || lia). cbn [mbind res_bind].
    rewrite (proj2 (Z.ltb_lt _ _)) by lia. cbn [c_assert mbind res_bind].
    unfold malloc. rewrite E9.
    replace (Z.to_nat bc) with (S (Z.to_nat (bc - 1))) by lia. cbn [perm_rows].
    replace (Z.to_nat ht) with (S (Z.to_nat (ht - 1))) by lia. cbn [perm_row].
    rewrite wr_err; [done|]. unfold zlen. simpl. lia.
Qed.

(** Initialisation: with sizes the containers accept (powers of two, a prime
    number of hashes larger than the number of backends) [nf_core_init] leaves a
    balancer that satisfies its invariant, knows no flow and no backend, and whose
    table has the preference list of every hash as its row; or memory ran out, and
    then it exits, or writes through the unchecked result of [malloc] in
    [lb_fill_cht]. *)
Theorem lb_starts_empty ok mem n_devices config h :
  heap_wf h → lb_memory_ok mem → lb_config_ok config →
  (∃ balancer h', nf_core_init ok mem config h = Ok (balancer, h') ∧
     starts n_devices config balancer) ∨
  ((nf_core_init ok mem config h = Err Exit ∨ nf_core_init ok mem config h = Err OutOfBounds) ∧
   ∃ n, ok n = false).
Proof.
  intros Hwf Hm Hc. unfold nf_core_init, or_exit.
  destruct (lb_allocate_balancer_spec ok mem n_devices config h Hwf Hm Hc)
    as [(b & h' & -> & Hs)|([(h' & ->)| ->] & Hf)]; cbn [mbind res_bind].
  - left. by exists b, h'.
  - right. split; [by left|done].
  - right. split; [by right|done].
Qed.

(** ** A small balancer: three devices, room for four flows and two backends *)
Definition small_config : lb_config :=
  mk_lb_config [[1; 1; 1; 1; 1; 1]; [2; 2; 2; 2; 2; 2]; [3; 3; 3; 3; 3; 3]] 4 10 2 3 100.
Definition zero_lb_memory : lb_memory :=
  mk_lb_memory zero_memory zero_memory (λ n, replicate (Z.to_nat n) inhabitant)
    (λ n, replicate (Z.to_nat n) inhabitant) (λ n, replicate (Z.to_nat n) 0).
Definition small_lb : LoadBalancer (Map (ptr lb_flowi) lb_flowi) (Map (ptr Z) Z) :=
  mk_lb 4 10 (fresh_map 4 lb_flow_equality lb_flow_hash)
    (mk_vector (replicate 4 inhabitant) SIZEOF_FLOW 4) (fresh_chain 4)
    (mk_vector (replicate 4 0) SIZEOF_UINT32 4) 3 100 2 (mk_vector (replicate 2 0) SIZEOF_UINT32 2)
    (mk_vector (replicate 2 (mk_lb_backend 0 [0; 0; 0; 0; 0; 0] 0)) SIZEOF_BACKEND 2)
    (fresh_map 2 lb_ip_equality lb_ip_hash) (fresh_chain 2) small_cht.
Definition small_junk : LoadBalancedBackend := mk_lb_backend 77 [7; 7; 7; 7; 7; 7] 77.
Definition small_process := nf_core_process small_config small_junk.
Definition small_run := lb_run small_config small_junk.

Lemma zero_lb_memory_ok : lb_memory_ok zero_lb_memory.
Proof. split; [apply zero_memory_ok|apply zero_memory_ok|intros n Hn; by apply zlen_replicate..]. Qed.

Lemma small_config_ok : lb_config_ok small_config.
Proof.
  split; simpl; [exists 2; lia|exists 1; lia|lia|lia|apply prime_3|split_and!; lia|lia|lia].
Qed.

Lemma small_devices : config_ok 3 small_config.
Proof.
  split; [lia|done|]. intros i Hi. assert (i = 0 ∨ i = 1 ∨ i = 2) as [->|[->| ->]] by lia; done.
Qed.

Lemma small_ids_ok : ids_ok small_lb 2.
Proof.
  intros i Hi. assert (i = 0 ∨ i = 1 ∨ i = 2 ∨ i = 3) as [->|[->|[->| ->]]] by (change (0 <= i < 4) in Hi; lia); done.
Qed.

Lemma small_starts : starts 3 small_config small_lb.
Proof.
  split; [|split; [done|split; [done|split; [|split; [done|]]]]]; [split; simpl; try done|..].
  - apply (allocated_coherent (deref (mk_vector [] 0 0))); [|done|by apply fresh_chain_ok].
    by apply (fresh_map_ok _ 4 _ _ 2); [| |apply lb_flow_equality_spec].
  - apply (allocated_coherent (deref (mk_vector [] 0 0))); [|done|by apply fresh_chain_ok].
    by apply (fresh_map_ok _ 2 _ _ 1); [| |apply Z.eqb_eq].
  - by intros i ?%elem_of_nil.
  - by intros i ?%elem_of_nil.
  - exact small_cht_ok.
  - exact small_ids_ok.
  - intros i Hi. simpl in Hi. assert (i = 0 ∨ i = 1 ∨ i = 2) as [->|[->| ->]] by lia; reflexivity.
Qed.

(** A TCP packet, with its ports where the handler reads them: five bytes into the
    IPv4 header. *)
Definition small_packet (port sm src_addr sport dport : Z) : mbuf :=
  mk_mbuf port 60 ([0; 0; 0; 0; 0; 0] ++ replicate 6 sm ++ [8; 0] ++
    [69; 0; 0; 0; 0; sport; 0; dport; 0; 6; 0; 0] ++ [src_addr; 0; 0; 0] ++ [9; 9; 9; 9] ++
    replicate 26 0).

Definition heartbeat1 : mbuf := small_packet 1 5 100 1 1.
Definition heartbeat2 : mbuf := small_packet 2 6 101 1 1.
Definition request (sport : Z) : mbuf := small_packet 0 8 10 sport 30.
Definition flow_of (sport : Z) : lb_flowi := lb_flowc 10 sport 30 6.

(** A flow in constant use expires, because the handler marks the entry with
    the index of the backend as used and not that of the flow: packets of a flow
    at times 3, 8 and 12 go to the first backend, but the one at time 14, two units
    later with an expiration time of ten, is treated as a new flow and goes to the
    second backend, although the first is still alive. *)
Theorem lb_busy_flow_moves :
  (b ← small_run small_lb [(heartbeat1, 1); (request 20, 2); (request 21, 3); (heartbeat2, 4);
                           (request 21, 8)];
   '(dev12, _, b) ← small_process b (request 21) 12;
   '(dev14, _, b) ← small_process b (request 21) 14;
   alive ← dchain_is_index_allocated (active_backends b) 0;
   Ok (flow_expiration_time b, dev12, dev14, alive)) = Ok (10, 1, 2, 1).
Proof. vm_compute. reflexivity. Qed.

(** The same balancer with the two expiration times exchanged. *)
Definition fragile_lb : LoadBalancer (Map (ptr lb_flowi) lb_flowi) (Map (ptr Z) Z) :=
  mk_lb 4 100 (flow_to_flow_id small_lb) (flow_heap small_lb) (flow_chain small_lb)
    (flow_id_to_backend_id small_lb) 3 10 2 (backend_ips small_lb) (backends small_lb)
    (ip_to_backend_id small_lb) (active_backends small_lb) small_cht.

(** A flow whose backend died breaks the flow table: its key is erased from
    the map, but its index stays allocated, and when the index expires the key is
    erased again. After that the map counts -1 keys and has chain counters of -1;
    two packets of one flow, that shares its slot with another flow, are then given
    two different indexes. *)
Theorem lb_dead_backend_breaks_flow_table :
  (b ← small_run fragile_lb [(heartbeat1, 1); (request 21, 2); (request 21, 20); (heartbeat1, 103)];
   let size := map_size_field (flow_to_flow_id b) in
   let counters := chns (flow_to_flow_id b) in
   b ← small_run b [(request 21, 104); (request 23, 105); (request 23, 106)];
   let keys := data (flow_keys (flow_heap b)) in
   k1 ← rd keys 1; k2 ← rd keys 2;
   a1 ← dchain_is_index_allocated (flow_chain b) 1;
   a2 ← dchain_is_index_allocated (flow_chain b) 2;
   Ok (size, counters, (k1, a1), (k2, a2))) =
  Ok (-1, [-1; -1; -1; -1], (flow_of 23, 1), (flow_of 23, 1)).
Proof. vm_compute. reflexivity. Qed.

(** ** Witnesses *)
Lemma small_junk_mac : zlen (mac small_junk) = 6.
Proof. done. Qed.

Lemma small_mbuf p sm a sport dport : 0 <= p < 3 → mbuf_ok 3 (small_packet p sm a sport dport).
Proof. intros Hp. by split. Qed.

Lemma heartbeat1_ok : mbuf_ok 3 heartbeat1.
Proof. by apply small_mbuf. Qed.
Lemma request21_ok : mbuf_ok 3 (request 21).
Proof. by apply small_mbuf. Qed.
Lemma heartbeat2_ok : mbuf_ok 3 heartbeat2.
Proof. by apply small_mbuf. Qed.
Lemma request23_ok : mbuf_ok 3 (request 23).
Proof. by apply small_mbuf. Qed.

Lemma lb_starts_empty_witness :
  (∃ balancer h', nf_core_init (λ _, true) zero_lb_memory small_config (mk_heap 0 []) = Ok (balancer, h') ∧
     starts 3 small_config balancer) ∨
  ((nf_core_init (λ _, true) zero_lb_memory small_config (mk_heap 0 []) = Err Exit ∨
    nf_core_init (λ _, true) zero_lb_memory small_config (mk_heap 0 []) = Err OutOfBounds) ∧
   ∃ n : nat, true = false).
Proof.
  apply (lb_starts_empty (λ _, true) zero_lb_memory 3 small_config (mk_heap 0 []) heap_wf_empty
    zero_lb_memory_ok small_config_ok).
Defined.

Lemma lb_refines_witness :
  ∃ dev m' balancer' chf' chb' out,
    small_process small_lb heartbeat1 1 = Ok (dev, m', balancer') ∧
    lb_inv 3 balancer' chf' chb' ∧ same_conf small_lb balancer' ∧
    dchain_high_fp chf' <= 1 ∧ dchain_high_fp chb' <= 1 ∧
    dchain_index_range_fp chf' = 4 ∧ dchain_index_range_fp chb' = 2 ∧
    lb_step 4 2 1 (win small_lb)
      (unexpired 10 1 (flows small_lb (empty_dchain_fp 4 0)))
      (unexpired 100 1 (alive_backends small_lb (empty_dchain_fp 2 0)))
      (classify heartbeat1) (flows balancer' chf') (alive_backends balancer' chb') out ∧
    emitted small_config out heartbeat1 dev m'.
Proof.
  apply (lb_refines 3 small_config small_junk small_devices small_junk_mac small_lb
    (empty_dchain_fp 4 0) (empty_dchain_fp 2 0) heartbeat1 1 (proj1 small_starts));
    [exact heartbeat1_ok|lia|simpl; lia|simpl; lia|vm_compute; reflexivity].
Defined.

(** A run and what follows it, from what they compute to. *)
Lemma small_run_then b trace {A} (f : LoadBalancer _ _ → res A) x :
  (b ← small_run b trace; f b) = Ok x → ∃ b1, small_run b trace = Ok b1 ∧ f b1 = Ok x.
Proof. apply res_bind_Ok. Qed.

(** The first backend dies after its heartbeat at 1: the flow of the request at 95 meets
    a dead backend at 102, and goes to the second one. A request of another flow comes
    after that. *)
Definition failover_trace : list (mbuf * Z) :=
  [(heartbeat1, 1); (request 21, 95); (heartbeat2, 96)].

Lemma failover_trace_ok trace t :
  96 <= t < 2 ^ 62 → trace_ok 3 96 trace t → trace_ok 3 0 (failover_trace ++ trace) t.
Proof.
  intros Ht Hok. unfold failover_trace. cbn [app trace_ok].
  split; [exact heartbeat1_ok|]. split; [lia|]. split; [exact request21_ok|]. split; [lia|].
  split; [exact heartbeat2_ok|]. split; [lia|exact Hok].
Qed.

Lemma lb_sends_to_live_backends_witness :
  (∃ b1 m' b2, small_run small_lb (failover_trace ++ [(request 21, 102)]) = Ok b1 ∧
     small_process b1 (request 23) 104 = Ok (2, m', b2) ∧
     ∃ a m0 t0 m1 t1 mac1 nic1,
       (m0, t0) ∈ failover_trace ++ [(request 21, 102)] ∧
       classify m0 = Heartbeat a (addr_at (buf m') 0) 2 ∧ w32 (buf m') 30 = u32 a ∧
       (m1, t1) ∈ failover_trace ++ [(request 21, 102)] ∧ classify m1 = Heartbeat a mac1 nic1 ∧
       104 - 100 <= t1) ∧
  (∃ b1 r, small_run small_lb failover_trace = Ok b1 ∧ small_process b1 (request 21) 102 = Ok r ∧
     meets_dead_backend b1 (request 21) 102 = Ok true).
Proof.
  pose proof (λ trace m now, lb_sends_to_live_backends 3 small_config small_junk small_devices small_junk_mac
    small_lb (empty_dchain_fp 4 0) (empty_dchain_fp 2 0) trace 0 m now (proj1 small_starts) eq_refl
    small_ids_ok ltac:(simpl; lia) ltac:(lia) ltac:(simpl; lia) ltac:(simpl; lia)) as H.
  split.
  - assert (E : (b ← small_run small_lb (failover_trace ++ [(request 21, 102)]);
      '(dev, _, _) ← small_process b (request 23) 104; Ok dev) = Ok 2) by (vm_compute; reflexivity).
    apply small_run_then in E as (b1 & E1 & E2). apply res_bind_Ok in E2 as ([[dev m'] b2] & E2 & [= ->]).
    exists b1, m', b2. split; [exact E1|]. split; [exact E2|].
    unfold small_run, small_process in E1, E2.
    destruct (H (failover_trace ++ [(request 21, 102)]) (request 23) 104) as [H1 _].
    + apply failover_trace_ok; [lia|]. split; [exact request21_ok|]. split; [lia|]. cbn [trace_ok]. lia.
    + lia.
    + exact request23_ok.
    + apply (H1 b1 2 m' b2 E1 E2); [reflexivity|discriminate].
  - assert (E : (b ← small_run small_lb failover_trace; meets_dead_backend b (request 21) 102) = Ok true)
      by (vm_compute; reflexivity).
    destruct (H failover_trace (request 21) 102) as [_ H2].
    + apply (failover_trace_ok []); [lia|]. cbn [trace_ok]. lia.
    + lia.
    + exact request21_ok.
    + destruct H2 as (b1 & r & E1 & E2); [vm_compute; reflexivity|]. unfold small_run in *.
      exists b1, r. split; [exact E1|]. split; [exact E2|]. rewrite E1 in E. exact E.
Defined.

Lemma lb_flow_affinity_witness :
  ∃ b0 chb b1 m1' a i v u,
    small_run small_lb [(heartbeat1, 1)] = Ok b0 ∧
    small_process b0 (request 21) 3 = Ok (1, m1', b1) ∧
    (a, i, v, u) ∈ unexpired (backend_expiration_time b0) 3 (alive_backends b0 chb) ∧
    1 = nic v ∧ w32 (buf m1') 30 = u32 (ip v) ∧
    ∀ trace b2 m2 t2,
      trace_ok 3 3 trace t2 → t2 < 2 ^ 62 → no_dead_backend small_config small_junk b1 trace = true →
      small_run b1 trace = Ok b2 → mbuf_ok 3 m2 → classify m2 = Request (flow_of 21) →
      t2 <= 3 + flow_expiration_time b0 → t2 <= u + backend_expiration_time b0 →
      ∃ m2' b3, small_process b2 m2 t2 = Ok (1, m2', b3) ∧
        w32 (buf m2') 30 = w32 (buf m1') 30 ∧ addr_at (buf m2') 0 = addr_at (buf m1') 0.
Proof.
  destruct (lb_process_spec 3 small_config small_junk small_devices small_junk_mac small_lb
    (empty_dchain_fp 4 0) (empty_dchain_fp 2 0) heartbeat1 1 (proj1 small_starts))
    as (dev & m' & b0 & chf & chb & out & E & Hinv & Hs & Hf & Hb & Hrf & Hrb & Hstep & _);
    [exact heartbeat1_ok|lia|simpl; lia|simpl; lia| |].
  { apply (meets_dead_backend_spec 3); [apply small_starts|lia|vm_compute; reflexivity]. }
  assert (Ec : classify heartbeat1 = Heartbeat 100 [5; 5; 5; 5; 5; 5] 1) by reflexivity.
  assert (Efl : flows b0 chf = []).
  { rewrite Ec in Hstep. inversion Hstep; reflexivity. }
  assert (E0 : small_run small_lb [(heartbeat1, 1)] = Ok b0).
  { unfold small_run. cbn [lb_run]. rewrite E. reflexivity. }
  assert (E1 : (b ← small_run small_lb [(heartbeat1, 1)];
    '(dev, _, _) ← small_process b (request 21) 3; Ok dev) = Ok 1) by (vm_compute; reflexivity).
  assert (E' : (b ← small_run small_lb [(heartbeat1, 1)];
    meets_dead_backend b (request 21) 3) = Ok false) by (vm_compute; reflexivity).
  rewrite E0 in E1, E'. cbn [mbind res_bind] in E1, E'. apply res_bind_Ok in E1 as ([[dev1 m1'] b1] & E1 & [= ->]).
  exists b0, chb, b1, m1'.
  destruct (lb_flow_affinity 3 small_config small_junk small_devices small_junk_mac b0 chf chb
    (request 21) 3 1 m1' b1 (flow_of 21) Hinv) as (a & i & v & u & H1 & H2 & H3 & H4).
  - exact request21_ok.
  - lia.
  - lia.
  - lia.
  - exact E'.
  - reflexivity.
  - rewrite Efl. by apply not_elem_of_nil.
  - rewrite Efl, Hrf. reflexivity.
  - exact E1.
  - discriminate.
  - exists a, i, v, u. split; [exact E0|]. split; [exact E1|]. split; [exact H1|].
    split; [exact H2|]. split; [exact H3|]. intros trace b2 m2 t2 T1 T2 T3 T4 T5 T6 T7 T8.
    destruct (H4 trace b2 m2 t2 T1 T2 T3 T4 T5 T6 T7 T8) as (m2' & b3 & X1 & X2 & X3).
    by exists m2', b3.
Defined.

