(* ===== verification/MainLoop.v ===== *)
(** * The main loop: [nf_main.c]

    The loop asks DPDK for packets, hands each to the network function and
    transmits, floods or frees it. What DPDK does is not in this repository: a
    program here is a tree of calls to DPDK ([io]) whose answers are events of a
    log, and the environment is free to answer as it likes within a [rely]
    condition. The theorems hold for every log: the loop uses and gives away
    every buffer exactly once, and everything that is transmitted is the result of
    the network function on a packet that was received. The network function is
    a class, [NetworkFunction] with its laws [NFLaws]. *)

From S2P Require Import Prelude.
From S2P Require Import NfUtil.

(** ** Calls to DPDK

    Buffers are known by their addresses. [ERx], [ETx], [EClone], [EFree] are
    [rte_eth_rx_burst], [rte_eth_tx_burst] (for one packet), [rte_pktmbuf_clone]
    and [rte_pktmbuf_free] with their results, [EClock] is [current_time]. *)
Inductive event :=
| EClock (t : Z)
| ERx (device : Z) (r : option (Z * mbuf))
| ETx (device b : Z) (m : mbuf) (sent : bool)
| EClone (b : Z) (r : option Z)
| EFree (b : Z).

Inductive io (A : Type) :=
| Done (r : res A)
| Clock (k : Z → io A)
| Rx (device : Z) (k : option (Z * mbuf) → io A)
| Tx (device b : Z) (m : mbuf) (k : bool → io A)
| Clone (b : Z) (k : option Z → io A)
| Free (b : Z) (k : io A).
Arguments Done {A} r.
Arguments Clock {A} k.
Arguments Rx {A} device k.
Arguments Tx {A} device b m k.
Arguments Clone {A} b k.
Arguments Free {A} b k.

#[global] Instance io_ret : MRet io := λ A a, Done (Ok a).

Fixpoint io_then {A B} (p : io A) (f : A → io B) : io B :=
  match p with
  | Done (Ok a) => f a
  | Done (Err e) => Done (Err e)
  | Clock k => Clock (λ t, io_then (k t) f)
  | Rx device k => Rx device (λ r, io_then (k r) f)
  | Tx device b m k => Tx device b m (λ sent, io_then (k sent) f)
  | Clone b k => Clone b (λ r, io_then (k r) f)
  | Free b k => Free b (io_then k f)
  end.

#[global] Instance io_bind : MBind io := λ A B f p, io_then p f.

(** The complete executions of a program: what was called and answered, and the
    result. *)
Inductive runs {A} : io A → list event → res A → Prop :=
| runs_done r : runs (Done r) [] r
| runs_clock k t log r : runs (k t) log r → runs (Clock k) (EClock t :: log) r
| runs_rx device k x log r : runs (k x) log r → runs (Rx device k) (ERx device x :: log) r
| runs_tx device b m k sent log r :
    runs (k sent) log r → runs (Tx device b m k) (ETx device b m sent :: log) r
| runs_clone b k c log r : runs (k c) log r → runs (Clone b k) (EClone b c :: log) r
| runs_free b k log r : runs k log r → runs (Free b k) (EFree b :: log) r.

(** ** Starting up: [nf_init_device] and [main]

    The calls to DPDK are parameters: what they return for a device. *)
Section start.
Variable rte_eth_dev_configure : Z → Z.
Variables (rte_eth_tx_queue_setup rte_eth_rx_queue_setup : Z → Z → Z).
Variables (rte_eth_dev_start rte_eth_promiscuous_get : Z → Z).

Definition RX_QUEUES_COUNT : nat := 1.
Definition TX_QUEUES_COUNT : nat := 1.

(** A loop of calls that returns at the first result other than zero. *)
Fixpoint setup_queues (setup : Z → Z) (n : nat) (queue : Z) : Z :=
  match n with
  | O => 0
  | S n' => let retval := setup queue in
            if negb (retval =? 0) then retval else setup_queues setup n' (queue + 1)
  end.

Definition nf_init_device (device : Z) : Z :=
  let retval := rte_eth_dev_configure device in
  if negb (retval =? 0) then retval
  else let retval := setup_queues (rte_eth_tx_queue_setup device) TX_QUEUES_COUNT 0 in
  if negb (retval =? 0) then retval
  else let retval := setup_queues (rte_eth_rx_queue_setup device) RX_QUEUES_COUNT 0 in
  if negb (retval =? 0) then retval
  else let retval := rte_eth_dev_start device in
  if negb (retval =? 0) then retval
  else if negb (rte_eth_promiscuous_get device =? 1) then retval
  else 0.

Fixpoint init_devices (n : nat) (device : Z) : res unit :=
  match n with
  | O => Ok tt
  | S n' => if nf_init_device device =? 0 then init_devices n' (device + 1) else Err Exit
  end.

(** [main] up to the call of [lcore_main]. The pools are null pointers or not. *)
Definition main_start {C} (rte_eal_init : Z) (nf_config_init : res C) (nb_devices : Z)
    (mbuf_pool clone_pool : bool) : res C :=
  _ ← (if rte_eal_init <? 0 then Err Exit else Ok tt);
  config ← nf_config_init;
  _ ← (if mbuf_pool then Ok tt else Err Exit);
  _ ← (if clone_pool then Ok tt else Err Exit);
  _ ← init_devices (Z.to_nat nb_devices) 0;
  Ok config.
Lemma main_start_config {C} eal (conf : res C) nb_devices mbuf_pool clone_pool c :
  main_start eal conf nb_devices mbuf_pool clone_pool = Ok c → conf = Ok c.
Proof.
  unfold main_start. destruct (eal <? 0); [done|]. cbn [mbind res_bind].
  destruct conf as [c'|]; [|done]. cbn [mbind res_bind].
  destruct mbuf_pool; [|done]. destruct clone_pool; [|done]. cbn [mbind res_bind].
  by destruct (init_devices _ _).
Qed.
End start.

(** ** The network function: [nf_forward.h] *)
(** [nf_process] is [nf_core_process]: the device to send to, the packet as it is
    then and the new state. The other two say what it is meant for: the packets it
    can handle in a state, and the end of time for it. *)
Class NetworkFunction (S : Type) := {
  nf_process : S → mbuf → Z → res (Z * mbuf * S);
  nf_accepts : S → mbuf → Z → Prop;
  nf_horizon : Z
}.

Fixpoint nf_run {S} `{!NetworkFunction S} (st : S) (trace : list (mbuf * Z)) : res S :=
  match trace with
  | [] => Ok st
  | (m, now) :: trace' =>
      '(_, _, st) ← nf_process st m now;
      nf_run st trace'
  end.

(** ** The loop *)
Section loop.
Context {S : Type} `{!NetworkFunction S}.
(** [rte_eth_dev_count_avail()]. *)
Variable n_devices : Z.

(** [flood], from [device] on; [frame] is freed at the end. *)
Fixpoint flood_loop (n : nat) (device frame : Z) (m : mbuf) (skip_device : Z) : io unit :=
  match n with
  | O => Free frame (mret tt)
  | Datatypes.S n' =>
      if device =? skip_device then flood_loop n' (device + 1) frame m skip_device
      else
        Clone frame (λ copy,
          match copy with
          | None => Done (Err Exit)
          | Some copy =>
              Tx device copy m (λ actual_tx_len,
                if actual_tx_len then flood_loop n' (device + 1) frame m skip_device
                else Free copy (flood_loop n' (device + 1) frame m skip_device))
          end)
  end.

Definition flood (frame : Z) (m : mbuf) (skip_device nb_devices : Z) : io unit :=
  flood_loop (Z.to_nat (u16 nb_devices)) 0 frame m skip_device.

(** The body of the loop, for one device. *)
Definition device_step (st : S) (now device : Z) : io S :=
  Rx device (λ rx,
    match rx with
    | None => mret st
    | Some (b, m) =>
        match nf_process st m now with
        | Err e => Done (Err e)
        | Ok (dst, m, st) =>
            let dst_device := u16 dst in
            if dst_device =? device then Free b (mret st)
            else if dst_device =? FLOOD_FRAME then
              flood b m device n_devices ≫= λ _, mret st
            else
              Tx dst_device b m (λ actual_tx_len,
                if actual_tx_len then mret st else Free b (mret st))
        end
    end).

(** The loop over the devices, from [device] on. *)
Fixpoint devices_loop (n : nat) (device : Z) (st : S) (now : Z) : io S :=
  match n with
  | O => mret st
  | Datatypes.S n' => device_step st now device ≫= λ st, devices_loop n' (device + 1) st now
  end.

(** [n] iterations of [while (1)]. *)
Fixpoint main_loop (n : nat) (st : S) : io S :=
  match n with
  | O => mret st
  | Datatypes.S n' =>
      Clock (λ now, devices_loop (Z.to_nat n_devices) 0 st now ≫= λ st, main_loop n' st)
  end.
End loop.

(** ** Logs

    What a log says at its end: the buffers the program holds, the last time it
    read, and the packets it received, with their times. *)
Record view := mk_view { held : gset Z; clock : Z; received : list (mbuf * Z) }.

Definition view_step (v : view) (e : event) : view :=
  match e with
  | EClock t => mk_view (held v) t (received v)
  | ERx _ (Some (b, m)) => mk_view ({[b]} ∪ held v) (clock v) (received v ++ [(m, clock v)])
  | ETx _ b _ true | EFree b => mk_view (held v ∖ {[b]}) (clock v) (received v)
  | EClone _ (Some c) => mk_view ({[c]} ∪ held v) (clock v) (received v)
  | _ => v
  end.

Definition view_of (v : view) (log : list event) : view := fold_left view_step log v.

(** [P] holds for every event, given what happened before it. *)
Fixpoint follows (P : view → event → Prop) (v : view) (log : list event) : Prop :=
  match log with
  | [] => True
  | e :: log' => P v e ∧ follows P (view_step v e) log'
  end.

Lemma view_of_app v l1 l2 : view_of v (l1 ++ l2) = view_of (view_of v l1) l2.
Proof. apply fold_left_app. Qed.

Lemma follows_app P v l1 l2 : follows P v (l1 ++ l2) ↔ follows P v l1 ∧ follows P (view_of v l1) l2.
Proof.
  revert v. induction l1 as [|e l1 IH]; intros v; simpl; [tauto|]. rewrite IH.
  unfold view_of. simpl. tauto.
Qed.

Lemma follows_elem P v log e :
  follows P v log → e ∈ log → ∃ l1 l2, log = l1 ++ e :: l2 ∧ P (view_of v l1) e.
Proof.
  intros Hf (l1 & l2 & ->)%list_elem_of_split. exists l1, l2. split; [done|].
  apply follows_app in Hf as [_ [H _]]. exact H.
Qed.

Lemma follows_mono (P Q : view → event → Prop) v log :
  (∀ v e, P v e → Q v e) → follows P v log → follows Q v log.
Proof.
  intros HPQ. revert v. induction log as [|e log IH]; intros v; [done|].
  intros [He Hf]. split; [by apply HPQ|by apply IH].
Qed.

(** Buffers are used while they are held, and devices exist. *)
Definition uses_held (n_devices : Z) (v : view) (e : event) : Prop :=
  match e with
  | ETx device b _ _ => b ∈ held v ∧ 0 <= device < n_devices
  | EClone b _ | EFree b => b ∈ held v
  | _ => True
  end.

(** ** Programs under an environment

    [wp p v Q]: whatever the environment answers within [rely], every call of [p]
    satisfies [guar], and [Q] holds at the end. *)
Section wp.
Variables (rely guar : view → event → Prop).

Fixpoint wp {A} (p : io A) (v : view) (Q : view → res A → Prop) : Prop :=
  let call e k := rely v e → guar v e ∧ k (view_step v e) in
  match p with
  | Done r => Q v r
  | Clock k => ∀ t, call (EClock t) (λ v, wp (k t) v Q)
  | Rx device k => ∀ x, call (ERx device x) (λ v, wp (k x) v Q)
  | Tx device b m k => ∀ sent, call (ETx device b m sent) (λ v, wp (k sent) v Q)
  | Clone b k => ∀ c, call (EClone b c) (λ v, wp (k c) v Q)
  | Free b k => call (EFree b) (λ v, wp k v Q)
  end.

Lemma wp_sound {A} (p : io A) log r v Q :
  runs p log r → wp p v Q → follows rely v log → follows guar v log ∧ Q (view_of v log) r.
Proof.
  intros Hr. revert v. induction Hr; intros v Hwp Hrely; [by split|..];
    destruct Hrely as [He Hrely]; cbn [wp] in Hwp.
  all: match goal with
       | x : _, H : ∀ _, _ → _ ∧ _ |- _ => destruct (H x He) as [Hg Hwp']
       | H : _ → _ ∧ _ |- _ => destruct (H He) as [Hg Hwp']
       end; destruct (IHHr _ Hwp' Hrely) as [Hf HQ]; by repeat split.
Qed.

Lemma wp_then {A B} (p : io A) (f : A → io B) v Q :
  wp p v (λ v r, match r with Ok a => wp (f a) v Q | Err e => Q v (Err e) end) →
  wp (p ≫= f) v Q.
Proof.
  unfold mbind, io_bind. revert v.
  induction p as [[a|e]|k IH|device k IH|device b m k IH|b k IH|b k IH]; intros v; cbn [wp io_then];
    [done|done|intros Hp x He; destruct (Hp x He)..|intros Hp He; destruct (Hp He)];
    (split; [done|by apply IH]).
Qed.

Lemma wp_mono {A} (p : io A) v (Q R : view → res A → Prop) :
  (∀ v r, Q v r → R v r) → wp p v Q → wp p v R.
Proof.
  intros HQR. revert v.
  induction p as [r|k IH|device k IH|device b m k IH|b k IH|b k IH]; intros v; cbn [wp];
    [by apply HQR|intros Hp x He; destruct (Hp x He)..|intros Hp He; destruct (Hp He)];
    (split; [done|by apply IH]).
Qed.
End wp.

(** The buffer of a call is held. *)
Ltac holds := cbn; set_solver.

(** ** What the loop needs from a network function

    [nf_good st past t]: [st] is a state the function may be in at time [t] after
    the packets [past]. [nf_accepts]: the packets it can handle in a state. *)
Class NFLaws (S : Type) `{!NetworkFunction S} (n_devices : Z) := {
  nf_good : S → list (mbuf * Z) → Z → Prop;
  nf_good_later st past t t' : nf_good st past t → t <= t' → nf_good st past t';
  nf_process_ok st past t m now :
    nf_good st past t → 0 <= t <= now → now < nf_horizon → 0 <= port m < n_devices →
    52 <= zlen (buf m) → nf_accepts st m now →
    ∃ dst m' st', nf_process st m now = Ok (dst, m', st') ∧
      nf_good st' (past ++ [(m, now)]) now ∧ (0 <= dst < n_devices ∨ dst = FLOOD_FRAME)
}.

Lemma nf_run_snoc {S} `{!NetworkFunction S} (st : S) past m now :
  nf_run st (past ++ [(m, now)]) =
  (st ← nf_run st past; '(_, _, st) ← nf_process st m now; Ok st).
Proof.
  revert st. induction past as [|[m0 t0] past IH]; intros st; simpl.
  - by destruct (nf_process st m now) as [[[? ?] ?]|].
  - destruct (nf_process st m0 t0) as [[[? ?] st1]|]; [apply IH|done].
Qed.

Section verified.
Context {S : Type} `{!NetworkFunction S} (n_devices : Z).
Variable st0 : S.

(** The environment: time does not go backwards, received and cloned buffers are
    ones the program does not hold, packets come from the device that was asked,
    have room for the headers and are acceptable. *)
Definition rely (v : view) (e : event) : Prop :=
  match e with
  | EClock t => clock v <= t < nf_horizon
  | ERx device (Some (b, m)) =>
      b ∉ held v ∧ port m = device ∧ 52 <= zlen (buf m) ∧
      ∀ st, nf_run st0 (received v) = Ok st → nf_accepts st m (clock v)
  | EClone _ (Some c) => c ∉ held v
  | _ => True
  end.

Context `{!NFLaws S n_devices}.

(** [m'], to be sent to [device], is what the function made of the last packet,
    which came from another device, in the state that the packets before led to. *)
Definition result_of (v : view) (device : Z) (m' : mbuf) : Prop :=
  ∃ past m now st1 dst st2,
    received v = past ++ [(m, now)] ∧ nf_run st0 past = Ok st1 ∧
    nf_process st1 m now = Ok (dst, m', st2) ∧ (dst = device ∨ dst = FLOOD_FRAME) ∧
    device ≠ port m ∧
    nf_good st1 past now ∧ nf_accepts st1 m now ∧
    0 <= port m < n_devices ∧ 52 <= zlen (buf m) ∧ 0 <= now < nf_horizon.

(** The program: it sends, clones and frees only buffers it holds, and sends to
    devices that exist what the network function decided. *)
Definition guar (v : view) (e : event) : Prop :=
  match e with
  | ETx device b m _ => b ∈ held v ∧ 0 <= device < n_devices ∧ result_of v device m
  | EClone b _ | EFree b => b ∈ held v
  | _ => True
  end.

Lemma guar_uses_held v e : guar v e → uses_held n_devices v e.
Proof. destruct e; simpl; tauto. Qed.

(** Between packets the program holds no buffer. *)
Record loop_inv (v : view) (st : S) : Prop := {
  li_held : held v = ∅;
  li_clock : 0 <= clock v;
  li_run : nf_run st0 (received v) = Ok st;
  li_good : nf_good st (received v) (clock v)
}.

Definition loop_post (v : view) (r : res S) : Prop :=
  match r with Ok st => loop_inv v st | Err e => e = Exit end.

(** ... and during one iteration, the time is the one read at its start. *)
Definition step_post (now : Z) (v : view) (r : res S) : Prop :=
  match r with Ok st => loop_inv v st ∧ clock v = now | Err e => e = Exit end.

Hypothesis Hdevices : 0 <= n_devices < FLOOD_FRAME.

Lemma flood_loop_wp n device frame m skip t past :
  0 <= device → device + Z.of_nat n = n_devices →
  (∀ d, d ≠ skip → result_of (mk_view ∅ t past) d m) →
  wp rely guar (flood_loop n device frame m skip) (mk_view {[frame]} t past)
    (λ v r, match r with Ok _ => v = mk_view ∅ t past | Err e => e = Exit end).
Proof.
  intros Hd Hn Hres. revert device Hd Hn. induction n as [|n IH]; intros device Hd Hn.
  { cbn [flood_loop wp]. intros _. split; [holds|].
    simpl. f_equal. set_solver. }
  cbn [flood_loop]. destruct (Z.eqb_spec device skip); [apply IH; lia|].
  cbn [wp]. intros [c|] Hc; [|split; [holds|done]].
  split; [holds|]. cbn [rely held] in Hc. cbn [wp].
  assert (Hset : ({[c]} ∪ {[frame]}) ∖ {[c]} = ({[frame]} : gset Z)) by set_solver.
  intros sent _. split.
  { split; [holds|]. split; [lia|]. apply (Hres device). done. }
  cbn [view_step held clock received]. destruct sent; cbn [wp].
  - rewrite Hset. apply IH; lia.
  - intros _. split; [holds|]. cbn [view_step held clock received].
    rewrite Hset. apply IH; lia.
Qed.

Lemma device_step_wp st now device v :
  loop_inv v st → clock v = now → now < nf_horizon → 0 <= device < n_devices →
  wp rely guar (device_step n_devices st now device) v (step_post now).
Proof.
  intros [Hheld Ht Hrun Hgood] Hnow Hend Hdev. destruct v as [h t past]. simpl in *. subst h t.
  unfold device_step. cbn [wp]. intros [[b m]|] Hrely; (split; [done|]); [|by split; [split|]].
  cbn [rely held clock received] in Hrely. destruct Hrely as (Hb & Hport & Hlen & Hacc).
  destruct (nf_process_ok st past now m now) as (dst & m' & st' & E & Hgood' & Hdst);
    [done|lia|lia|lia|done|by apply Hacc|].
  rewrite E. cbn [view_step held clock received].
  assert (Hu : u16 dst = dst).
  { apply u16_id. unfold FLOOD_FRAME in *. destruct Hdst as [?| ->]; [|by vm_compute].
    change (u16 (-1)) with 65535 in *. lia. }
  rewrite Hu, union_empty_r_L. clear Hb.
  assert (Hrun' : nf_run st0 (past ++ [(m, now)]) = Ok st').
  { rewrite nf_run_snoc, Hrun. cbn [mbind res_bind]. by rewrite E. }
  assert (Hinv : loop_inv (mk_view ∅ now (past ++ [(m, now)])) st') by by split.
  assert (Hset : ({[b]} : gset Z) ∖ {[b]} = ∅) by set_solver.
  destruct (Z.eqb_spec dst device) as [->|Hne]; [|destruct (Z.eqb_spec dst FLOOD_FRAME) as [->|Hnf]].
  - cbn [wp]. intros _. split; [holds|]. cbn. by rewrite Hset.
  - apply wp_then. unfold flood. eapply wp_mono; [|apply flood_loop_wp; [lia|..]].
    + intros v' [[]|e]; [by intros ->|done].
    + unfold FLOOD_FRAME in *. change (u16 (-1)) with 65535 in *. rewrite u16_id by lia. lia.
    + intros d Hd. exists past, m, now, st, FLOOD_FRAME, st'.
      do 3 (split; [done|]). split; [by right|]. split; [congruence|]. split; [done|]. split; [by apply Hacc|]. split; [lia|done].
  - destruct Hdst as [Hdst|Hdst]; [|done]. cbn [wp]. intros sent _. split.
    { split; [holds|]. split; [done|].
      exists past, m, now, st, dst, st'. do 3 (split; [done|]).
      split; [by left|]. split; [congruence|]. split; [done|].
      split; [by apply Hacc|]. split; [lia|done]. }
    cbn [view_step held clock received]. destruct sent; cbn [wp].
    + rewrite Hset. by split.
    + intros _. split; [holds|]. cbn. by rewrite Hset.
Qed.

Lemma devices_loop_wp n device st now v :
  loop_inv v st → clock v = now → now < nf_horizon → 0 <= device →
  device + Z.of_nat n = n_devices →
  wp rely guar (devices_loop n_devices n device st now) v (step_post now).
Proof.
  revert device st v. induction n as [|n IH]; intros device st v Hinv Hc Hend Hd Hn; [by split|].
  cbn [devices_loop]. apply wp_then. eapply wp_mono; [|apply device_step_wp; [done|done|done|lia]].
  intros v' [st'|e]; [|done]. intros [Hinv' Hc']. apply IH; [done|done|done|lia|lia].
Qed.

Lemma main_loop_wp n st v :
  loop_inv v st → wp rely guar (main_loop n_devices n st) v loop_post.
Proof.
  revert st v. induction n as [|n IH]; intros st v Hinv; [done|].
  cbn [main_loop wp]. intros t Ht. split; [done|]. apply wp_then.
  eapply wp_mono; [|apply (devices_loop_wp _ 0 st t); [|done|by apply Ht|lia|lia]].
  - intros v' [st'|e]; [|done]. intros [Hinv' _]. by apply IH.
  - destruct Hinv as [Hh Hc Hr Hg]. cbn [rely] in Ht.
    split; [done|cbn; lia|done|]. by apply (nf_good_later _ _ (clock v)); [|cbn; lia].
Qed.

Lemma main_loop_sound n log r :
  nf_good st0 [] 0 → runs (main_loop n_devices n st0) log r →
  follows rely (mk_view ∅ 0 []) log →
  follows guar (mk_view ∅ 0 []) log ∧ loop_post (view_of (mk_view ∅ 0 []) log) r.
Proof.
  intros Hgood Hr Hrely. eapply wp_sound; [done|apply main_loop_wp|done]. by split.
Qed.

(** The same, with what follows for the frames on the wire. *)
Lemma main_loop_program (P : view → event → Prop) n log r :
  (∀ v e, guar v e → P v e) → nf_good st0 [] 0 → runs (main_loop n_devices n st0) log r →
  follows rely (mk_view ∅ 0 []) log →
  follows (λ v e, uses_held n_devices v e ∧ P v e) (mk_view ∅ 0 []) log ∧
  match r with
  | Ok st => held (view_of (mk_view ∅ 0 []) log) = ∅ ∧
             nf_run st0 (received (view_of (mk_view ∅ 0 []) log)) = Ok st
  | Err e => e = Exit
  end.
Proof.
  intros HP Hgood Hr Hrely. destruct (main_loop_sound n log r Hgood Hr Hrely) as [Hguar Hpost].
  split.
  - eapply follows_mono; [|exact Hguar]. intros v e Hg. split; [by apply guar_uses_held|by apply HP].
  - destruct r as [st|e]; [|exact Hpost]. by destruct Hpost.
Qed.
End verified.

(** ** Flooding *)

(** The first call of an execution. *)
Ltac run_call H :=
  let Hr := fresh in rename H into Hr; inversion Hr; subst; clear Hr;
  try match goal with H' : runs _ _ _ |- _ => rename H' into H end.

Definition offers (log : list event) : list (Z * mbuf) :=
  omap (λ e, match e with ETx device _ m _ => Some (device, m) | _ => None end) log.

Lemma flood_loop_offers n device frame m skip log :
  0 <= device → runs (flood_loop n device frame m skip) log (Ok tt) →
  offers log = (λ d, (d, m)) <$> List.filter (λ d, negb (d =? skip)) (seqZ device (Z.of_nat n)).
Proof.
  revert device log. induction n as [|n IH]; intros device log Hd Hr; cbn [flood_loop] in Hr.
  { run_call Hr. run_call Hr. reflexivity. }
  rewrite Nat2Z.inj_succ, seqZ_cons by lia. cbn [List.filter].
  replace (Z.pred (Z.succ (Z.of_nat n))) with (Z.of_nat n) by lia.
  destruct (device =? skip); cbn [negb]; [by apply IH; [lia|]|].
  rewrite fmap_cons. run_call Hr. destruct c as [c|]; [|run_call Hr]. run_call Hr.
  change (offers (EClone frame (Some c) :: ETx device c m sent :: ?log))
    with ((device, m) :: offers log). f_equal.
  destruct sent; [by apply IH; [lia|]|].
  run_call Hr. change (offers (EFree c :: ?log)) with (offers log). by apply IH; [lia|].
Qed.

(** [flood] offers the frame, unchanged, to every device but the one to skip,
    once and in order. *)
Theorem flood_offers_all frame m skip n log :
  0 <= n < 2 ^ 16 → runs (flood frame m skip n) log (Ok tt) →
  offers log = (λ d, (d, m)) <$> List.filter (λ d, negb (d =? skip)) (seqZ 0 n).
Proof.
  intros Hn Hr. unfold flood in Hr. rewrite u16_id in Hr by lia.
  rewrite (flood_loop_offers (Z.to_nat n) 0 frame m skip log) by done.
  by rewrite Z2Nat.id by lia.
Qed.

(** ** Replaying a log

    Whether a program has the execution a log says, and its result. *)
#[global] Instance event_eq_dec : EqDecision event.
Proof. solve_decision. Defined.

Fixpoint replay {A} (p : io A) (log : list event) : option (res A) :=
  match p, log with
  | Done r, [] => Some r
  | Clock k, EClock t :: log => replay (k t) log
  | Rx device k, ERx device' x :: log => if device =? device' then replay (k x) log else None
  | Tx device b m k, ETx device' b' m' sent :: log =>
      if bool_decide ((device, b, m) = (device', b', m')) then replay (k sent) log else None
  | Clone b k, EClone b' c :: log => if b =? b' then replay (k c) log else None
  | Free b k, EFree b' :: log => if b =? b' then replay k log else None
  | _, _ => None
  end.

Lemma replay_runs {A} (p : io A) log r : replay p log = Some r → runs p log r.
Proof.
  revert log. induction p as [r'|k IH|device k IH|device b m k IH|b k IH|b k IH];
    intros [|[t|device' x|device' b' m' sent|b' c|b'] log]; cbn [replay]; try done.
  - intros [= ->]. constructor.
  - intros H. constructor. by apply IH.
  - destruct (Z.eqb_spec device device') as [<-|]; [|done]. intros H. constructor. by apply IH.
  - case_bool_decide as E; [|done]. injection E as <- <- <-. intros H. constructor. by apply IH.
  - destruct (Z.eqb_spec b b') as [<-|]; [|done]. intros H. constructor. by apply IH.
  - destruct (Z.eqb_spec b b') as [<-|]; [|done]. intros H. constructor. by apply IH.
Qed.

Lemma replay_completes {A} (p : io A) log :
  match replay p log with Some (Ok _) => true | _ => false end = true →
  ∃ a, runs p log (Ok a).
Proof.
  destruct (replay p log) as [[a|]|] eqn:E; [|done..]. intros _. exists a. by apply replay_runs.
Qed.

(** The part of [rely] that can be computed. *)
Definition env_event_ok (horizon : Z) (v : view) (e : event) : bool :=
  match e with
  | EClock t => (clock v <=? t) && (t <? horizon)
  | ERx device (Some (b, m)) =>
      bool_decide (b ∉ held v) && (port m =? device) && (52 <=? zlen (buf m))
  | EClone _ (Some c) => bool_decide (c ∉ held v)
  | _ => true
  end.

Fixpoint env_ok (horizon : Z) (v : view) (log : list event) : bool :=
  match log with
  | [] => true
  | e :: log' => env_event_ok horizon v e && env_ok horizon (view_step v e) log'
  end.

Lemma env_ok_rely {S} `{!NetworkFunction S} (st0 : S) v log :
  Forall (λ e, match e with ERx _ (Some (_, m)) => ∀ st now, nf_accepts st m now | _ => True end) log →
  env_ok nf_horizon v log = true → follows (rely st0) v log.
Proof.
  intros Hacc. revert v. induction Hacc as [|e log Hacc _ IH]; intros v; [done|].
  cbn [env_ok follows]. intros [He Hl]%andb_prop. split; [|by apply IH].
  destruct e as [t|device [[b m]|]|? ? ? ?|b [c|]|b]; cbn in *; try done.
  - apply andb_prop in He as [H1 H2]. lia.
  - apply andb_prop in He as [[H1 H2]%andb_prop H3]. apply bool_decide_eq_true in H1.
    split; [done|]. split; [lia|]. split; [lia|]. intros. apply Hacc.
  - by apply bool_decide_eq_true in He.
Qed.

(** ** The claims *)

(** C6: Any number of iterations of the main loop, with a network function that
    fulfils its contract and an environment that fulfils its own: every buffer
    that is transmitted, cloned or freed is one the program holds at that moment,
    so none is used twice or after it was given away; between packets it holds
    none, so none is lost; frames are sent only to devices that exist, and what is
    sent is what the network function made of the last packet in the state that
    all packets before it led to. The program ends only with [rte_exit]. *)
Theorem main_loop_safe {S} `{!NetworkFunction S} n_devices `{!NFLaws S n_devices} (st0 : S) n log r :
  0 <= n_devices < FLOOD_FRAME → nf_good st0 [] 0 →
  runs (main_loop n_devices n st0) log r →
  follows (rely st0) (mk_view ∅ 0 []) log →
  follows (guar n_devices st0) (mk_view ∅ 0 []) log ∧
  loop_post n_devices st0 (view_of (mk_view ∅ 0 []) log) r.
Proof. intros Hd Hg Hr Hrely. by eapply main_loop_sound. Qed.

(** A repeater: it counts packets, sends those of device 0 to device 1 and floods
    the others. *)
#[local] Instance repeater : NetworkFunction Z := {|
  nf_process st m now := Ok (if port m =? 0 then 1 else FLOOD_FRAME, m, st + 1);
  nf_accepts st m now := True;
  nf_horizon := 2 ^ 63
|}.

#[local] Program Instance repeater_laws : NFLaws Z 3 := {|
  nf_good st past t := st = zlen past
|}.
Next Obligation. done. Qed.
Next Obligation.
  intros st past t m now -> Ht Hnow Hp Hb _. unfold nf_process, repeater.
  do 3 eexists. split; [reflexivity|]. split; [by rewrite zlen_app|].
  destruct (port m =? 0); [left; lia|by right].
Qed.

Definition small_frame (d : Z) : mbuf := mk_mbuf d 60 (replicate 60 0).
Definition repeater_log : list event :=
  [EClock 5; ERx 0 (Some (100, small_frame 0)); ETx 1 100 (small_frame 0) true;
   ERx 1 (Some (100, small_frame 1));
     EClone 100 (Some 7); ETx 0 7 (small_frame 1) true;
     EClone 100 (Some 7); ETx 2 7 (small_frame 1) false; EFree 7; EFree 100;
   ERx 2 None].

Lemma main_loop_safe_witness :
  follows (guar 3 0) (mk_view ∅ 0 []) repeater_log ∧
  loop_post 3 0 (view_of (mk_view ∅ 0 []) repeater_log) (Ok 2).
Proof.
  apply (main_loop_safe 3 0 1); [split; [done|reflexivity]|done| |].
  - apply replay_runs. vm_compute. reflexivity.
  - vm_compute. intuition congruence.
Defined.

Lemma flood_offers_all_witness :
  offers [EClone 9 (Some 7); ETx 0 7 (small_frame 1) true; EClone 9 (Some 8);
          ETx 2 8 (small_frame 1) false; EFree 8; EFree 9] =
  [(0, small_frame 1); (2, small_frame 1)].
Proof.
  apply (flood_offers_all 9 (small_frame 1) 1 3); [lia|].
  apply replay_runs. vm_compute. reflexivity.
Defined.

(** [nf_init_device] returns the zero of the call before when the device is not in
    promiscuous mode, so that [main] goes on as if it were. *)
Lemma promiscuous_failure_ignored conf txq rxq start device :
  conf device = 0 → txq device 0 = 0 → rxq device 0 = 0 → start device = 0 →
  nf_init_device conf txq rxq start (λ _, 0) device = 0.
Proof. intros H1 H2 H3 H4. unfold nf_init_device. simpl. by rewrite H1, H2, H3, H4. Qed.
