(* ===== verification/KleeStubs.v ===== *)
(** * The containers under symbolic execution

    To derive its contracts PIX runs an NF under KLEE with the containers replaced by
    the models in [lib/stubs/containers]: a model answers a question about the state
    that other packets left behind with a symbolic value, and then remembers the
    answer for the rest of the packet. This file models [map-stub.c],
    [double-chain-stub.c], [vector-stub.c] and the single-map loop of
    [expirator-stub.c], and relates them to the containers they stand for.

    A path of the symbolic execution is a list of integers, the values of the
    symbolic variables in the order in which they are made; [klee_assume] ends a path
    ([NoPath]), and so does a list that is too short; a failed [klee_assert] and an
    access out of bounds are what KLEE reports ([Failed]). Memory that is made
    symbolic ([klee_make_symbolic]) is an argument. Tracing and the symbols that
    describe performance only are left out. *)

From S2P Require Import Prelude.
From S2P Require Import MapSpec.
From S2P Require Import Map.

(** ** Paths *)
Inductive outcome (A : Type) :=
| Path (a : A) (rest : list Z)
| NoPath
| Failed (e : err).
Arguments Path {A} a rest.
Arguments NoPath {A}.
Arguments Failed {A} e.

Definition sym (A : Type) : Type := list Z → outcome A.

#[global] Instance sym_ret : MRet sym := λ A a choices, Path a choices.
#[global] Instance sym_bind : MBind sym := λ A B f m choices,
  match m choices with
  | Path a rest => f a rest
  | NoPath => NoPath
  | Failed e => Failed e
  end.

(** Code without symbolic values. *)
Definition lift {A} (r : res A) : sym A := λ choices,
  match r with Ok a => Path a choices | Err e => Failed e end.

Definition klee_int : sym Z := λ choices,
  match choices with [] => NoPath | c :: rest => Path (i32 c) rest end.

Definition klee_assume (b : bool) : sym unit := λ choices, if b then Path tt choices else NoPath.

Definition klee_assert (b : bool) : sym unit := lift (c_assert b).

(** A value in [[begin, end)]. *)
Definition klee_range (b e : Z) : sym Z :=
  x ← klee_int; _ ← klee_assume ((b <=? x) && (x <? e)); mret x.

(** ** Which results a model allows, and which it excludes

    [allows m a]: on some path [m] ends with the result [a]. [always m Q]: no path
    fails, and every path that ends has a result in [Q]. *)
Definition allows {A} (m : sym A) (a : A) : Prop :=
  ∃ choices, ∀ rest, m (choices ++ rest) = Path a rest.

Definition always {A} (m : sym A) (Q : A → Prop) : Prop :=
  ∀ choices, match m choices with Path a _ => Q a | NoPath => True | Failed _ => False end.

(** [exactly m a]: [m] has no symbolic variable and the result [a]. *)
Definition exactly {A} (m : sym A) (a : A) : Prop := ∀ choices, m choices = Path a choices.

Section rules.
Context {A B : Type}.
Implicit Types (m : sym A) (f : A → sym B) (a : A) (b : B).

Lemma allows_ret a : allows (mret a) a.
Proof. by exists []. Qed.

Lemma allows_bind m f a b : allows m a → allows (f a) b → allows (m ≫= f) b.
Proof.
  intros [c1 E1] [c2 E2]. exists (c1 ++ c2). intros rest. cbv [mbind sym_bind].
  rewrite <- (assoc_L (++)), E1. apply E2.
Qed.

Lemma allows_lift (r : res A) a : r = Ok a → allows (lift r) a.
Proof. intros ->. by exists []. Qed.

Lemma allows_path m a : allows m a → ∃ choices, m choices = Path a [].
Proof. intros [c E]. exists c. by rewrite <- (E []), app_nil_r. Qed.

Lemma always_ret a (Q : A → Prop) : Q a → always (mret a) Q.
Proof. by intros Ha choices. Qed.

Lemma always_bind m f (P : A → Prop) (Q : B → Prop) :
  always m P → (∀ a, P a → always (f a) Q) → always (m ≫= f) Q.
Proof.
  intros Hm Hf choices. specialize (Hm choices). cbv [mbind sym_bind].
  destruct (m choices); [by apply Hf|done..].
Qed.

Lemma always_lift (r : res A) a (Q : A → Prop) : r = Ok a → Q a → always (lift r) Q.
Proof. intros -> Ha choices. exact Ha. Qed.

Lemma always_total (r : res A) : (∃ a, r = Ok a) → always (lift r) (λ _, True).
Proof. by intros [a ->] choices. Qed.

Lemma always_mono m (P Q : A → Prop) : always m P → (∀ a, P a → Q a) → always m Q.
Proof. intros Hm HPQ c. specialize (Hm c). destruct (m c); auto. Qed.

Lemma exactly_ret a : exactly (mret a) a.
Proof. done. Qed.

Lemma exactly_bind m f a b : exactly m a → exactly (f a) b → exactly (m ≫= f) b.
Proof. intros E1 E2 c. cbv [mbind sym_bind]. rewrite E1. apply E2. Qed.

Lemma exactly_lift (r : res A) a : r = Ok a → exactly (lift r) a.
Proof. by intros -> c. Qed.

Lemma exactly_allows m a : exactly m a → allows m a.
Proof. intros E. exists []. intros rest. apply E. Qed.

Lemma exactly_always m a (Q : A → Prop) : exactly m a → Q a → always m Q.
Proof. intros E Ha c. by rewrite E. Qed.

Lemma allows_ext m1 m2 a : (∀ c, m1 c = m2 c) → allows m2 a → allows m1 a.
Proof. intros E [c Hc]. exists c. intros rest. by rewrite E. Qed.

Lemma always_ext m1 m2 (Q : A → Prop) : (∀ c, m1 c = m2 c) → always m2 Q → always m1 Q.
Proof. intros E Hm c. rewrite E. apply Hm. Qed.

(** A result that is allowed is not excluded. *)
Lemma allows_always m a (Q : A → Prop) : allows m a → always m Q → Q a.
Proof. intros [c E] Hm. specialize (Hm (c ++ [])). by rewrite E in Hm. Qed.
End rules.

Lemma allows_int c : - 2 ^ 31 <= c < 2 ^ 31 → allows klee_int c.
Proof. intros Hc. exists [c]. intros rest. cbn. by rewrite i32_id. Qed.

Lemma allows_assume b : b = true → allows (klee_assume b) tt.
Proof. intros ->. by exists []. Qed.

Lemma allows_assert b : b = true → allows (klee_assert b) tt.
Proof. intros ->. by exists []. Qed.

Lemma exactly_assert b : b = true → exactly (klee_assert b) tt.
Proof. by intros -> c. Qed.

Lemma always_int (Q : Z → Prop) : (∀ c, Q c) → always klee_int Q.
Proof. by intros HQ [|c rest]; cbn. Qed.

Lemma always_assume b (Q : unit → Prop) : (b = true → Q tt) → always (klee_assume b) Q.
Proof. intros HQ c. destruct b; [by apply HQ|done]. Qed.

Lemma always_assert b (Q : unit → Prop) : b = true → Q tt → always (klee_assert b) Q.
Proof. intros -> HQ c. exact HQ. Qed.

Lemma allows_range b e x : - 2 ^ 31 <= x < 2 ^ 31 → b <= x < e → allows (klee_range b e) x.
Proof.
  intros Hx Hr. eapply allows_bind; [by apply allows_int|]. cbn beta.
  eapply allows_bind; [apply allows_assume; lia|apply allows_ret].
Qed.

Lemma always_range b e (Q : Z → Prop) :
  (∀ x, b <= x < e → Q x) → always (klee_range b e) Q.
Proof.
  intros HQ. eapply always_bind; [by apply (always_int (λ _, True))|]. intros x _. cbn beta.
  eapply (always_bind _ _ (λ _, b <= x < e)); [apply always_assume; lia|].
  intros _ Hx. by apply always_ret, HQ.
Qed.

(** The next statement of a goal [allows (x ← m; ...) b] or [always (x ← m; ...) Q]
    when [m] does not branch. *)
Ltac allow_step a := apply (allows_bind _ _ a); [|cbn beta iota].
Ltac exact_step a := apply (exactly_bind _ _ a); [|cbn beta iota].
Ltac always_step P := apply (always_bind _ _ P); [|cbn beta iota].

(** ** Maps: [map-stub.c] *)
Module MapStub.

Definition NUM_ELEMS : Z := 2.

(** [keys_present] holds copies of the keys; [None]: bytes that were never written. *)
Record Map (K : Type) := mk_map {
  keys_present : list (option K);
  allocated_index : list Z;
  key_deleted : list Z;
  keys_cached : list Z;
  keys_seen : Z;
  capacity : Z;
  ent_cond : option (K → Z → bool);
  keq : K → K → bool;
  occupancy : Z
}.
Arguments mk_map {K} _ _ _ _ _ _ _ _ _.
Arguments keys_present {K} _.
Arguments allocated_index {K} _.
Arguments key_deleted {K} _.
Arguments keys_cached {K} _.
Arguments keys_seen {K} _.
Arguments capacity {K} _.
Arguments ent_cond {K} _.
Arguments keq {K} _.
Arguments occupancy {K} _.

Section ops.
Context {K : Type}.
Implicit Types (map : Map K) (key : K).

Definition fresh_map (keq : K → K → bool) (capacity occupancy : Z) : Map K :=
  let zeros := replicate (Z.to_nat NUM_ELEMS) 0 in
  mk_map (replicate (Z.to_nat NUM_ELEMS) None) zeros zeros zeros 0 capacity None keq occupancy.

(** The result and what [*map_out] becomes. [Num_bucket_traversals] and
    [Num_hash_collisions] are made and only traced. *)
Definition map_allocate (keq : K → K → bool) (capacity : Z) (old : option (Map K))
    : sym (Z * option (Map K)) :=
  allocation_succeeded ← klee_int;
  if allocation_succeeded =? 0 then mret (0, old)
  else
    _ ← klee_int;
    _ ← klee_int;
    occupancy ← klee_range 0 capacity;
    mret (1, Some (fresh_map keq capacity occupancy)).

Definition map_reset map : sym (Map K) :=
  let zeros := replicate (Z.to_nat NUM_ELEMS) 0 in
  occupancy ← klee_range 0 (capacity map);
  mret (mk_map (keys_present map) zeros zeros zeros 0 (capacity map) (ent_cond map)
          (keq map) occupancy).

Definition map_set_entry_condition map (cond : K → Z → bool) : Map K :=
  mk_map (keys_present map) (allocated_index map) (key_deleted map) (keys_cached map)
    (keys_seen map) (capacity map) (Some cond) (keq map) (occupancy map).

(** The loop over the keys that were seen, which all three operations start with. *)
Fixpoint find_key map key (n : Z) (fuel : nat) : res (option Z) :=
  match fuel with
  | O => Ok None
  | S fuel =>
      slot ← rd (keys_present map) n;
      key_ptr ← match slot with Some k => Ok k | None => Err OutOfBounds end;
      if keq map key key_ptr then Ok (Some n) else find_key map key (n + 1) fuel
  end.

Definition seen map key : res (option Z) := find_key map key 0 (Z.to_nat (keys_seen map)).

(** Assignments to the fields of the structure. *)
Definition set_key map (n : Z) key : res (Map K) :=
  kp ← wr (keys_present map) n (Some key);
  Ok (mk_map kp (allocated_index map) (key_deleted map) (keys_cached map) (keys_seen map)
        (capacity map) (ent_cond map) (keq map) (occupancy map)).
Definition set_index map (n v : Z) : res (Map K) :=
  ai ← wr (allocated_index map) n v;
  Ok (mk_map (keys_present map) ai (key_deleted map) (keys_cached map) (keys_seen map)
        (capacity map) (ent_cond map) (keq map) (occupancy map)).
Definition set_deleted map (n v : Z) : res (Map K) :=
  kd ← wr (key_deleted map) n v;
  Ok (mk_map (keys_present map) (allocated_index map) kd (keys_cached map) (keys_seen map)
        (capacity map) (ent_cond map) (keq map) (occupancy map)).
(** A key that is cached stays so; one that is not is from now on. *)
Definition set_cached map (n : Z) : res (Map K) :=
  c ← rd (keys_cached map) n;
  kc ← (if c =? 0 then wr (keys_cached map) n 1 else Ok (keys_cached map));
  Ok (mk_map (keys_present map) (allocated_index map) (key_deleted map) kc (keys_seen map)
        (capacity map) (ent_cond map) (keq map) (occupancy map)).
Definition set_seen map (seen occ : Z) : Map K :=
  mk_map (keys_present map) (allocated_index map) (key_deleted map) (keys_cached map) seen
    (capacity map) (ent_cond map) (keq map) occ.

(** The end of each operation on a key that was not seen before: it takes the next
    entry. *)
Definition add_entry map key (index : option Z) (deleted : Z) : res (Map K) :=
  let n := keys_seen map in
  map ← set_key map n key;
  map ← match index with Some v => set_index map n v | None => Ok map end;
  map ← set_deleted map n deleted;
  map ← set_cached map n;
  Ok (set_seen map (n + 1) (occupancy map)).

Definition map_get map key : sym (option Z * Map K) :=
  r ← lift (seen map key);
  match r with
  | Some n =>
      deleted ← lift (rd (key_deleted map) n);
      value_out ← (if negb (deleted =? 0) then mret None
                   else index ← lift (rd (allocated_index map) n); mret (Some index));
      map ← lift (set_cached map n);
      mret (value_out, map)
  | None =>
      _ ← klee_assert (keys_seen map <? NUM_ELEMS);
      map_has_this_key ← klee_int;
      index ← klee_int;
      _ ← match ent_cond map with
          | Some cond => klee_assume (cond key index)
          | None => mret tt
          end;
      if negb (map_has_this_key =? 0) then
        map ← lift (add_entry map key (Some index) 0); mret (Some index, map)
      else
        map ← lift (add_entry map key (Some index) 1); mret (None, map)
  end.

Definition map_put map key (value : Z) : sym (Map K) :=
  _ ← match ent_cond map with
      | Some cond => klee_assert (cond key value)
      | None => mret tt
      end;
  let map := set_seen map (keys_seen map) (occupancy map + 1) in
  r ← lift (seen map key);
  match r with
  | Some n =>
      deleted ← lift (rd (key_deleted map) n);
      _ ← klee_assert (negb (deleted =? 0));
      map ← lift (set_deleted map n 0);
      map ← lift (set_index map n value);
      lift (set_cached map n)
  | None =>
      _ ← klee_assert (keys_seen map <? NUM_ELEMS);
      lift (add_entry map key (Some value) 0)
  end.

(** [trash] is not written. A key that was not seen is not taken off the occupancy. *)
Definition map_erase map key : sym (Map K) :=
  r ← lift (seen map key);
  match r with
  | Some n =>
      let map := set_seen map (keys_seen map) (occupancy map - 1) in
      map ← lift (set_deleted map n 1);
      lift (set_cached map n)
  | None =>
      _ ← klee_assert (keys_seen map <? NUM_ELEMS);
      lift (add_entry map key None 1)
  end.

Definition map_size map : sym Z := klee_int.
End ops.


(** ** Proofs *)
Section proofs.
Context {P K : Type} `{Countable K}.
Implicit Types (map : Map K) (key : K) (m : gmap K (P * Z)) (ks : list K).

Definition int (v : Z) : Prop := - 2 ^ 31 <= v < 2 ^ 31.

(** The entry condition, which clients may set. *)
Definition cond map key (v : Z) : Prop :=
  match ent_cond map with Some c => c key v = true | None => True end.

(** [stands ks m map]: the stub has seen the keys [ks], and knows of each of them what
    the finite map [m] says. *)
Record stands ks m map : Prop := {
  st_kp : zlen (keys_present map) = NUM_ELEMS;
  st_ai : zlen (allocated_index map) = NUM_ELEMS;
  st_kd : zlen (key_deleted map) = NUM_ELEMS;
  st_kc : zlen (keys_cached map) = NUM_ELEMS;
  st_seen : keys_seen map = zlen ks;
  st_max : zlen ks <= NUM_ELEMS;
  st_nodup : NoDup ks;
  st_eq : ∀ k1 k2, keq map k1 k2 = true ↔ k1 = k2;
  st_key : ∀ n k, ks !! n = Some k → getz (keys_present map) (Z.of_nat n) = Some k;
  st_entry : ∀ n k, ks !! n = Some k →
    snd <$> m !! k = if getz (key_deleted map) (Z.of_nat n) =? 0
                     then Some (getz (allocated_index map) (Z.of_nat n)) else None
}.

Lemma find_seen_spec ks m map key n fuel :
  stands ks m map → (n + fuel = length ks)%nat →
  (∀ i, (i < n)%nat → ks !! i ≠ Some key) →
  (∃ i, find_key map key (Z.of_nat n) fuel = Ok (Some (Z.of_nat i)) ∧ ks !! i = Some key) ∨
  (find_key map key (Z.of_nat n) fuel = Ok None ∧ key ∉ ks).
Proof.
  intros Hs. revert n. induction fuel as [|fuel IH]; intros n Hn Hlt; cbn [find_key].
  - right. split; [done|]. intros [i Hi]%list_elem_of_lookup.
    apply (Hlt i); [|done]. apply lookup_lt_Some in Hi. lia.
  - pose proof (st_kp _ _ _ Hs). pose proof (st_max _ _ _ Hs) as Hmax. unfold zlen in Hmax.
    rewrite (rd_ok (keys_present map)) by lia. rewrite bind_Ok.
    destruct (lookup_lt_is_Some_2 ks n) as [k Hk]; [lia|].
    rewrite (st_key _ _ _ Hs n k Hk), bind_Ok.
    destruct (keq map key k) eqn:E.
    + apply (st_eq _ _ _ Hs) in E as <-. left. by exists n.
    + replace (Z.of_nat n + 1) with (Z.of_nat (S n)) by lia. apply IH; [lia|].
      intros i Hi. destruct (decide (i = n)) as [->|]; [|apply Hlt; lia].
      rewrite Hk. intros [= ->]. rewrite (proj2 (st_eq _ _ _ Hs key key) eq_refl) in E. done.
Qed.

Lemma seen_spec ks m map key :
  stands ks m map →
  (∃ i, seen map key = Ok (Some (Z.of_nat i)) ∧ ks !! i = Some key) ∨
  (seen map key = Ok None ∧ key ∉ ks).
Proof.
  intros Hs. unfold seen. rewrite (st_seen _ _ _ Hs). unfold zlen. rewrite Nat2Z.id.
  apply (find_seen_spec ks m map key 0 (length ks) Hs); [done|lia].
Qed.

(** What an operation on a key that was seen may change: the entry of the key. *)
Lemma set_cached_stands ks m map n :
  stands ks m map → 0 <= n < NUM_ELEMS →
  ∃ map', set_cached map n = Ok map' ∧ stands ks m map' ∧
    ent_cond map' = ent_cond map ∧ capacity map' = capacity map.
Proof.
  intros [L1 L2 L3 L4 S1 S2 S3 S4 S5 S6] Hn. unfold set_cached.
  rewrite (rd_ok (keys_cached map)) by lia. rewrite bind_Ok.
  destruct (getz (keys_cached map) n =? 0).
  - rewrite (wr_ok (keys_cached map)) by lia. rewrite bind_Ok. eexists. split; [done|].
    split; [|done]. split; cbn; try done. by rewrite zlen_setz.
  - rewrite bind_Ok. eexists. split; [done|]. by split.
Qed.

Lemma set_seen_stands ks m map occ :
  stands ks m map → stands ks m (set_seen map (keys_seen map) occ).
Proof. by intros []. Qed.

(** An entry is set for a key that was seen. *)
Lemma set_entry_stands ks m m' map i key del idx :
  stands ks m map → ks !! i = Some key →
  snd <$> m' !! key = (if del =? 0 then Some idx else None) →
  (∀ k, k ≠ key → m' !! k = m !! k) →
  ∃ map1 map2, set_deleted map (Z.of_nat i) del = Ok map1 ∧
    set_index map1 (Z.of_nat i) idx = Ok map2 ∧ stands ks m' map2 ∧
    ent_cond map2 = ent_cond map ∧ capacity map2 = capacity map.
Proof.
  intros [L1 L2 L3 L4 S1 S2 S3 S4 S5 S6] Hi Hm' Hother.
  pose proof (lookup_lt_Some _ _ _ Hi) as Hlt. unfold zlen in S2.
  unfold set_deleted. rewrite (wr_ok (key_deleted map)) by lia. rewrite bind_Ok.
  eexists _, _. split; [done|]. unfold set_index. cbn [allocated_index].
  rewrite (wr_ok (allocated_index map)) by lia. split; [done|]. split; [|done].
  split; cbn; rewrite ?zlen_setz; try done.
  intros n k Hk. destruct (decide (n = i)) as [->|Hne].
  - rewrite Hi in Hk. injection Hk as <-. by rewrite !getz_setz_eq by lia.
  - rewrite !getz_setz_ne by lia. rewrite <- (S6 n k Hk), Hother; [done|].
    intros ->. apply Hne. by eapply NoDup_lookup.
Qed.

Lemma set_deleted_stands ks m m' map i key :
  stands ks m map → ks !! i = Some key → m' !! key = None →
  (∀ k, k ≠ key → m' !! k = m !! k) →
  ∃ map', set_deleted map (Z.of_nat i) 1 = Ok map' ∧ stands ks m' map' ∧
    ent_cond map' = ent_cond map ∧ capacity map' = capacity map.
Proof.
  intros Hs Hi Hm' Hother. pose proof (st_ai _ _ _ Hs) as Lai. pose proof (st_max _ _ _ Hs) as Hmax.
  pose proof (lookup_lt_Some _ _ _ Hi) as Hlt. unfold zlen in Hmax.
  destruct (set_entry_stands ks m m' map i key 1 (getz (allocated_index map) (Z.of_nat i)) Hs Hi)
    as (map1 & map2 & E1 & E2 & Hs2 & He & Hc); [by rewrite Hm'|done|].
  exists map1. split; [done|].
  assert (allocated_index map1 = allocated_index map ∧ map2 = map1) as [_ ->].
  { unfold set_deleted in E1. apply res_bind_Ok in E1 as (kd & _ & [= <-]).
    unfold set_index in E2. cbn in E2. rewrite (wr_ok (allocated_index map)) in E2 by lia.
    cbn in E2. rewrite setz_getz in E2 by lia. by injection E2 as <-. }
  done.
Qed.

(** A key that was not seen takes the next entry. *)
Lemma add_entry_stands ks m m' map key oidx del :
  stands ks m map → key ∉ ks → keys_seen map < NUM_ELEMS →
  snd <$> m' !! key = (if del =? 0 then oidx else None) → (oidx = None → del ≠ 0) →
  (∀ k, k ≠ key → m' !! k = m !! k) →
  ∃ map', add_entry map key oidx del = Ok map' ∧ stands (ks ++ [key]) m' map' ∧
    ent_cond map' = ent_cond map ∧ capacity map' = capacity map.
Proof.
  intros [L1 L2 L3 L4 S1 S2 S3 S4 S5 S6] Hk Hlt Hm' Hdel Hother.
  pose proof (zlen_nonneg ks) as Hnn. unfold add_entry. rewrite S1 in *.
  assert (Hkey : ∀ n k, (ks ++ [key]) !! n = Some k →
    Z.of_nat n < zlen ks ∧ ks !! n = Some k ∧ k ≠ key ∨ Z.of_nat n = zlen ks ∧ k = key).
  { intros n k Hn. apply lookup_app_Some in Hn as [Hn|[Hn1 Hn2]].
    - left. split; [apply lookup_lt_Some in Hn; unfold zlen; lia|]. split; [done|]. intros ->.
      by apply Hk, list_elem_of_lookup; exists n.
    - right. apply list_lookup_singleton_Some in Hn2 as [Hn2 <-]. unfold zlen. split; [lia|done]. }
  unfold set_key. rewrite (wr_ok (keys_present map)) by lia. rewrite !bind_Ok.
  set (map1 := mk_map _ _ _ _ _ _ _ _ _).
  assert (∃ map2, (match oidx with Some v => set_index map1 (zlen ks) v | None => Ok map1 end) = Ok map2 ∧
    map2 = mk_map (keys_present map1)
      (match oidx with Some v => setz (allocated_index map) (zlen ks) v | None => allocated_index map end)
      (key_deleted map) (keys_cached map) (keys_seen map) (capacity map) (ent_cond map) (keq map)
      (occupancy map)) as (map2 & -> & ->).
  { destruct oidx as [v|]; [|by exists map1]. unfold set_index, map1. cbn.
    rewrite (wr_ok (allocated_index map)) by lia. by eexists. }
  rewrite bind_Ok. unfold set_deleted. cbn [key_deleted]. rewrite (wr_ok (key_deleted map)) by lia.
  rewrite bind_Ok. cbn. unfold set_cached. cbn.
  rewrite (rd_ok (keys_cached map)) by lia. cbn.
  assert (∃ kc, (if getz (keys_cached map) (zlen ks) =? 0 then wr (keys_cached map) (zlen ks) 1
    else Ok (keys_cached map)) = Ok kc ∧ zlen kc = NUM_ELEMS) as (kc & -> & Lkc).
  { destruct (getz (keys_cached map) (zlen ks) =? 0); [|exists (keys_cached map); split; [reflexivity|exact L4]]. rewrite (wr_ok (keys_cached map)) by lia.
    eexists. split; [done|]. by rewrite zlen_setz. }
  cbn. eexists. split; [done|]. split; [|done].
  split; cbn; rewrite ?zlen_setz, ?zlen_app, ?zlen_cons, ?zlen_nil; try done; try lia.
  - destruct oidx; by rewrite ?zlen_setz.
  - apply NoDup_app. split; [done|]. split; [|apply NoDup_singleton].
    intros x Hx ->%list_elem_of_singleton. done.
  - intros n k [(Hn & Hnk & Hne)|[-> ->]]%Hkey.
    + rewrite getz_setz_ne by lia. by apply S5.
    + by rewrite getz_setz_eq by lia.
  - intros n k [(Hn & Hnk & Hne)|[-> ->]]%Hkey.
    + rewrite getz_setz_ne by lia. rewrite Hother, (S6 n k Hnk) by done.
      destruct oidx; [|done]. by rewrite getz_setz_ne by lia.
    + rewrite getz_setz_eq by lia. rewrite Hm'. destruct (del =? 0) eqn:Ed; [|done].
      destruct oidx; [by rewrite getz_setz_eq by lia|]. exfalso. apply Hdel; [done|lia].
Qed.

Definition add_key key ks : list K := if decide (key ∈ ks) then ks else ks ++ [key].

Lemma add_key_seen key ks i : ks !! i = Some key → add_key key ks = ks.
Proof. intros Hi. unfold add_key. apply decide_True. apply list_elem_of_lookup. by exists i. Qed.

Lemma add_key_new key ks : key ∉ ks → add_key key ks = ks ++ [key].
Proof. apply decide_False. Qed.

(** Each operation allows what the map does. *)
Definition room key ks : Prop := key ∈ ks ∨ zlen ks < NUM_ELEMS.

Lemma get_allows ks m map key v :
  stands ks m map → room key ks → int v → cond map key v →
  (m !! key = None ∨ snd <$> m !! key = Some v) →
  ∃ map', allows (map_get map key) (snd <$> m !! key, map') ∧ stands (add_key key ks) m map' ∧
    ent_cond map' = ent_cond map.
Proof.
  intros Hs Hroom Hv Hc Hm. unfold map_get.
  destruct (seen_spec ks m map key Hs) as [(i & E & Hi)|[E Hn]].
  - rewrite (add_key_seen _ _ _ Hi). pose proof (lookup_lt_Some _ _ _ Hi) as Hlt.
    pose proof (st_max _ _ _ Hs) as Hmax. unfold zlen in Hmax.
    destruct (set_cached_stands ks m map (Z.of_nat i) Hs) as (map' & Ec & Hs' & He & _); [lia|].
    exists map'. split; [|by split].
    allow_step (Some (Z.of_nat i)); [by apply allows_lift|].
    pose proof (st_kd _ _ _ Hs). pose proof (st_ai _ _ _ Hs).
    allow_step (getz (key_deleted map) (Z.of_nat i)); [apply allows_lift, rd_ok; lia|].
    allow_step (snd <$> m !! key).
    + rewrite (st_entry _ _ _ Hs i key Hi).
      destruct (getz (key_deleted map) (Z.of_nat i) =? 0); cbn [negb]; [|apply allows_ret].
      allow_step (getz (allocated_index map) (Z.of_nat i)); [apply allows_lift, rd_ok; lia|].
      apply allows_ret.
    + allow_step map'; [by apply allows_lift|apply allows_ret].
  - rewrite (add_key_new _ _ Hn). destruct Hroom as [|Hroom]; [done|].
    pose proof (st_seen _ _ _ Hs) as Hseen.
    set (del := match (snd <$> m !! key : option Z) with Some _ => 0 | None => 1 end).
    destruct (add_entry_stands ks m m map key (Some v) del Hs Hn) as (map' & Ea & Hs' & He & _);
      [lia|unfold del; destruct Hm as [Hm|Hm]; rewrite Hm; reflexivity|done|done|].
    exists map'. split; [|by split].
    allow_step (@None Z); [by apply allows_lift|].
    allow_step tt; [apply allows_assert; lia|].
    allow_step (1 - del); [apply allows_int; unfold del; destruct (snd <$> _); lia|].
    allow_step v; [by apply allows_int|].
    allow_step tt.
    { unfold cond in Hc. destruct (ent_cond map); [by apply allows_assume|apply allows_ret]. }
    unfold del in *. destruct Hm as [Hm|Hm]; rewrite Hm in *; cbn in *.
    + allow_step map'; [by apply allows_lift|apply allows_ret].
    + allow_step map'; [by apply allows_lift|apply allows_ret].
Qed.

Lemma put_exactly ks m map key p v :
  stands ks m map → room key ks → cond map key v → m !! key = None →
  ∃ map', exactly (map_put map key v) map' ∧ stands (add_key key ks) (<[key := (p, v)]> m) map' ∧
    ent_cond map' = ent_cond map.
Proof.
  intros Hs Hroom Hc Hm. unfold map_put.
  set (map0 := set_seen map (keys_seen map) (occupancy map + 1)).
  assert (Hs0 : stands ks m map0) by (by apply set_seen_stands).
  assert (Hother : ∀ k, k ≠ key → <[key := (p, v)]> m !! k = m !! k)
    by (intros; by apply lookup_insert_ne).
  assert (Hstart : ∀ (f : unit → sym (Map K)) map', exactly (f tt) map' →
    exactly (x ← match ent_cond map with Some c => klee_assert (c key v) | None => mret tt end; f x) map').
  { intros f map' Hf. exact_step tt; [|exact Hf]. unfold cond in Hc.
    destruct (ent_cond map); [by apply exactly_assert|apply exactly_ret]. }
  destruct (seen_spec ks m map0 key Hs0) as [(i & E & Hi)|[E Hn]].
  - rewrite (add_key_seen _ _ _ Hi). pose proof (lookup_lt_Some _ _ _ Hi) as Hlt.
    pose proof (st_max _ _ _ Hs) as Hmax. unfold zlen in Hmax.
    destruct (set_entry_stands ks m (<[key := (p, v)]> m) map0 i key 0 v Hs0 Hi)
      as (map1 & map2 & E1 & E2 & Hs2 & He2 & _); [by rewrite lookup_insert_eq|done|].
    destruct (set_cached_stands ks _ map2 (Z.of_nat i) Hs2) as (map' & Ec & Hs' & He & _); [lia|].
    exists map'. split; [|split; [done|by rewrite He, He2]].
    apply Hstart. exact_step (Some (Z.of_nat i)); [by apply exactly_lift|].
    pose proof (st_kd _ _ _ Hs0). pose proof (st_entry _ _ _ Hs0 i key Hi) as Hd. rewrite Hm in Hd.
    exact_step (getz (key_deleted map0) (Z.of_nat i)); [apply exactly_lift, rd_ok; lia|].
    exact_step tt. { apply exactly_assert. by destruct (getz (key_deleted map0) (Z.of_nat i) =? 0). }
    exact_step map1; [by apply exactly_lift|]. exact_step map2; by apply exactly_lift.
  - rewrite (add_key_new _ _ Hn). destruct Hroom as [|Hroom]; [done|].
    pose proof (st_seen _ _ _ Hs0) as Hseen.
    destruct (add_entry_stands ks m (<[key := (p, v)]> m) map0 key (Some v) 0 Hs0 Hn)
      as (map' & Ea & Hs' & He & _); [lia|by rewrite lookup_insert_eq|done|done|].
    exists map'. split; [|by split].
    apply Hstart. exact_step (@None Z); [by apply exactly_lift|].
    exact_step tt; [apply exactly_assert; lia|]. by apply exactly_lift.
Qed.

Lemma erase_exactly ks m map key :
  stands ks m map → room key ks →
  ∃ map', exactly (map_erase map key) map' ∧ stands (add_key key ks) (delete key m) map' ∧
    ent_cond map' = ent_cond map.
Proof.
  intros Hs Hroom. unfold map_erase.
  assert (Hother : ∀ k, k ≠ key → delete key m !! k = m !! k) by (intros; by apply lookup_delete_ne).
  destruct (seen_spec ks m map key Hs) as [(i & E & Hi)|[E Hn]].
  - rewrite (add_key_seen _ _ _ Hi). pose proof (lookup_lt_Some _ _ _ Hi) as Hlt.
    pose proof (st_max _ _ _ Hs) as Hmax. unfold zlen in Hmax.
    pose proof (set_seen_stands ks m map (occupancy map - 1) Hs) as Hs0.
    destruct (set_deleted_stands ks m (delete key m) _ i key Hs0 Hi)
      as (map1 & E1 & Hs1 & He1 & _); [apply lookup_delete_eq|done|].
    destruct (set_cached_stands ks _ map1 (Z.of_nat i) Hs1) as (map' & Ec & Hs' & He & _); [lia|].
    exists map'. split; [|split; [done|by rewrite He, He1]].
    exact_step (Some (Z.of_nat i)); [by apply exactly_lift|].
    exact_step map1; by apply exactly_lift.
  - rewrite (add_key_new _ _ Hn). destruct Hroom as [|Hroom]; [done|].
    pose proof (st_seen _ _ _ Hs) as Hseen.
    destruct (add_entry_stands ks m (delete key m) map key None 1 Hs Hn)
      as (map' & Ea & Hs' & He & _); [lia|by rewrite lookup_delete_eq|done|done|].
    exists map'. split; [|by split].
    exact_step (@None Z); [by apply exactly_lift|].
    exact_step tt; [apply exactly_assert; lia|]. by apply exactly_lift.
Qed.
End proofs.

(** ** Runs *)
Definition call_key {P} (c : map_call P) : P :=
  match c with MapGet key => key | MapPut key _ => key | MapErase key => key end.

(** The calls of one packet; only lookups answer. *)
Fixpoint run_stub {P K} (d : P → K) map (cs : list (map_call P)) : sym (list (option Z) * Map K) :=
  match cs with
  | [] => mret ([], map)
  | MapGet key :: cs =>
      '(r, map) ← map_get map (d key);
      '(rs, map) ← run_stub d map cs; mret (r :: rs, map)
  | MapPut key v :: cs => map ← map_put map (d key) v; run_stub d map cs
  | MapErase key :: cs => map ← map_erase map (d key); run_stub d map cs
  end.

Definition lookups {P} (answers : list (option Z + option P)) : list (option Z) :=
  omap (λ a, match a with inl r => Some r | inr _ => None end) answers.

(** On a key that was not seen, a lookup allows both answers and any value. *)
Lemma get_always {K} `{Countable K} (map : Map K) key :
  stands (P := unit) [] ∅ map →
  always (map_get map key) (λ r, ent_cond r.2 = ent_cond map ∧
    ∃ m : gmap K (unit * Z), stands [key] m r.2 ∧ snd <$> m !! key = r.1).
Proof.
  intros Hs. unfold map_get.
  destruct (seen_spec [] ∅ map key Hs) as [(i & _ & Hi)|[E Hn]]; [done|].
  pose proof (st_seen _ _ _ Hs) as Hseen. rewrite zlen_nil in Hseen.
  always_step (λ r, r = @None Z); [by apply (always_lift _ None)|]. intros _ ->.
  always_step (λ _ : unit, True); [apply always_assert; [by rewrite Hseen|done]|]. intros _ _.
  always_step (λ _ : Z, True); [by apply always_int|]. intros has _.
  always_step (λ _ : Z, True); [by apply always_int|]. intros index _.
  always_step (λ _ : unit, True).
  { destruct (ent_cond map); [by apply always_assume|by apply always_ret]. }
  intros _ _. cbn beta. destruct (has =? 0); cbn [negb].
  - destruct (add_entry_stands [] ∅ ∅ map key (Some index) 1 Hs Hn)
      as (map' & Ea & Hs' & He & _); [by rewrite Hseen|by rewrite lookup_empty|done|done|].
    always_step (λ r, r = map'); [by apply (always_lift _ map')|]. intros _ ->.
    apply always_ret. split; [done|]. exists ∅. split; [done|]. by rewrite lookup_empty.
  - destruct (add_entry_stands [] ∅ {[key := (tt, index)]} map key (Some index) 0 Hs Hn)
      as (map' & Ea & Hs' & He & _).
    { by rewrite Hseen. } { by rewrite lookup_singleton_eq. } { done. }
    { intros k Hk. rewrite lookup_singleton_ne by congruence. by rewrite lookup_empty. }
    always_step (λ r, r = map'); [by apply (always_lift _ map')|]. intros _ ->.
    apply always_ret. split; [done|]. exists {[key := (tt, index)]}. split; [done|].
    by rewrite lookup_singleton_eq.
Qed.

Section runs.
Context {P K M : Type} `{Countable K} `{!MapOps P K M, !MapLaws P K M}.
Implicit Types (map : Map K) (key : P) (m : gmap K (P * Z)) (ks : list K) (cs : list (map_call P)).
Variable d : P → K.

Definition keys_of cs : gset K := list_to_set (d ∘ call_key <$> cs).

(** What the entry condition [c] says about the calls: the stub assumes it even of a
    key that is not there, for some value. *)
Definition holds (c : option (K → Z → bool)) (k : K) (v : Z) : Prop :=
  match c with Some c => c k v = true | None => True end.
Definition call_ok c (call : map_call P) : Prop :=
  match call with
  | MapGet key => ∃ v, int v ∧ holds c (d key) v
  | MapPut key v => int v ∧ holds c (d key) v
  | MapErase _ => True
  end.
Definition entries_ok c m : Prop := ∀ k p v, m !! k = Some (p, v) → int v ∧ holds c k v.

Lemma room_of ks (k : K) (rest : gset K) :
  NoDup ks → Z.of_nat (size (list_to_set ks ∪ ({[k]} ∪ rest))) <= NUM_ELEMS →
  room k ks ∧ list_to_set (add_key k ks) ∪ rest = list_to_set ks ∪ ({[k]} ∪ rest).
Proof.
  intros Hnd Hs. unfold room, add_key. destruct (decide (k ∈ ks)) as [Hin|Hn].
  - split; [by left|]. set_solver.
  - assert (Hadd : (list_to_set (ks ++ [k]) : gset K) ∪ rest = list_to_set ks ∪ ({[k]} ∪ rest)).
    { rewrite list_to_set_app_L. set_solver. }
    split; [right|done].
    assert (Hsub : (list_to_set (ks ++ [k]) : gset K) ⊆ list_to_set ks ∪ ({[k]} ∪ rest)) by set_solver.
    apply subseteq_size in Hsub. rewrite size_list_to_set in Hsub.
    + rewrite length_app in Hsub. cbn in Hsub. unfold zlen. lia.
    + apply NoDup_app. split; [done|]. split; [set_solver|apply NoDup_singleton].
Qed.

Lemma run_allows cs ks m map answers m' cap :
  stands ks m map → entries_ok (ent_cond map) m → Forall (call_ok (ent_cond map)) cs →
  Z.of_nat (size (list_to_set ks ∪ keys_of cs)) <= NUM_ELEMS →
  spec_map d cap m cs = Some (answers, m') →
  ∃ map', allows (run_stub d map cs) (lookups answers, map').
Proof.
  revert ks m map answers. induction cs as [|c cs IH]; intros ks m map answers Hs Hm Hcs Hsize E.
  { cbn in E. injection E as <- <-. exists map. apply allows_ret. }
  apply Forall_cons in Hcs as [Hc Hcs].
  change (keys_of (c :: cs)) with ({[d (call_key c)]} ∪ keys_of cs) in Hsize.
  destruct (room_of ks _ _ (st_nodup _ _ _ Hs) Hsize) as [Hroom Hset]. rewrite <- Hset in Hsize.
  destruct c as [key|key v|key]; cbn [run_stub spec_map call_key call_ok] in *.
  - destruct (spec_map d cap m cs) as [[rs m1]|] eqn:E1; [|done]. cbn in E. injection E as <- <-.
    assert (∃ v, int v ∧ cond map (d key) v ∧ (m !! d key = None ∨ snd <$> m !! d key = Some v))
      as (v & Hv & Hcond & Hv').
    { destruct (m !! d key) as [[p v]|] eqn:Ek.
      - destruct (Hm _ _ _ Ek). exists v. by repeat (split; [done|]); right.
      - destruct Hc as (v & ? & ?). exists v. by repeat (split; [done|]); left. }
    destruct (get_allows ks m map (d key) v Hs Hroom Hv Hcond Hv') as (map1 & Hg & Hs1 & He1).
    rewrite <- He1 in Hm, Hcs. destruct (IH _ _ map1 _ Hs1 Hm Hcs Hsize E1) as [map2 H2].
    exists map2. allow_step (snd <$> m !! d key, map1); [exact Hg|].
    allow_step (lookups rs, map2); [exact H2|apply allows_ret].
  - destruct (m !! d key) eqn:Ek; [done|]. destruct (Z.of_nat (size m) <? cap); [|done].
    destruct Hc as [Hv Hcond].
    destruct (put_exactly ks m map (d key) key v Hs Hroom Hcond Ek) as (map1 & Hp & Hs1 & He1).
    rewrite <- He1 in Hm, Hcs, Hcond.
    assert (Hm1 : entries_ok (ent_cond map1) (<[d key := (key, v)]> m)).
    { intros k p u [[<- [= <- <-]]|[_ Hk]]%lookup_insert_Some; [done|by eapply Hm]. }
    destruct (IH _ _ map1 _ Hs1 Hm1 Hcs Hsize E) as [map2 H2].
    exists map2. allow_step map1; [by apply exactly_allows|exact H2].
  - destruct (m !! d key) as [[p v]|] eqn:Ek; [|done].
    destruct (spec_map d cap (delete (d key) m) cs) as [[rs m1]|] eqn:E1; [|done].
    cbn in E. injection E as <- <-.
    destruct (erase_exactly ks m map (d key) Hs Hroom) as (map1 & He & Hs1 & He1).
    rewrite <- He1 in Hm, Hcs.
    assert (Hm1 : entries_ok (ent_cond map1) (delete (d key) m)).
    { intros k q u [_ Hk]%lookup_delete_Some. by eapply Hm. }
    destruct (IH _ _ map1 _ Hs1 Hm1 Hcs Hsize E1) as [map2 H2].
    exists map2. allow_step map1; [by apply exactly_allows|exact H2].
Qed.

(** The stub at the start of a packet. *)
Record stub_ready map : Prop := {
  sr_keys : zlen (keys_present map) = NUM_ELEMS;
  sr_eq : ∀ k1 k2, keq map k1 k2 = true ↔ k1 = k2;
  sr_capacity : 0 < capacity map
}.

Lemma reset_allows m map :
  stub_ready map →
  ∃ map', allows (map_reset map) map' ∧ stands [] m map' ∧ ent_cond map' = ent_cond map.
Proof.
  intros [Hk He Hc]. unfold map_reset. eexists. split.
  { allow_step 0; [apply allows_range; lia|apply allows_ret]. }
  split; [|done]. by split; cbn; try done; try apply NoDup_nil_2.
Qed.

Lemma reset_always map :
  stub_ready map →
  always (map_reset map) (λ map', ent_cond map' = ent_cond map ∧ ∀ m, stands [] m map').
Proof.
  intros [Hk He Hc]. unfold map_reset.
  always_step (λ _ : Z, True); [by apply always_range|]. intros occ _. apply always_ret.
  split; [done|]. intros m. by split; cbn; try done; try apply NoDup_nil_2.
Qed.

(** C20: Every behaviour of the map is one of the model of [map-stub.c]: whatever finite
    map the earlier packets left in an implementation of [map.h], if the calls of a
    packet respect the contract and concern at most two keys, some path of the
    symbolic execution gets the answers of the implementation, and no assertion of the
    model fails on it. *)
Theorem map_stub_covers (real : M) cap m cs answers m' map :
  mapp d real cap m → spec_map d cap m cs = Some (answers, m') →
  stub_ready map → entries_ok (ent_cond map) m → Forall (call_ok (ent_cond map)) cs →
  Z.of_nat (size (keys_of cs)) <= NUM_ELEMS →
  ∃ real' map', exec_map d real cs = Ok (answers, real') ∧
    allows (map ← map_reset map; run_stub d map cs) (lookups answers, map').
Proof.
  intros Hr E Hready Hm Hcs Hsize.
  destruct (exec_map_spec _ _ _ _ _ _ _ Hr E) as (real' & Ex & _).
  destruct (reset_allows m map Hready) as (map1 & Hreset & Hs & He). rewrite <- He in Hm, Hcs.
  assert (Z.of_nat (size (list_to_set [] ∪ keys_of cs)) <= NUM_ELEMS) as Hsize1.
  { cbn [list_to_set]. by rewrite (left_id_L ∅ (∪)). }
  destruct (run_allows cs [] m map1 answers m' cap Hs Hm Hcs Hsize1 E) as [map' Hrun].
  exists real', map'. split; [exact Ex|]. allow_step map1; [exact Hreset|exact Hrun].
Qed.
End runs.

(** The contract of [map_erase] is not checked: the key need not be there. *)
Theorem map_stub_erases_twice {K} `{Countable K} (map : Map K) (key : K) :
  stub_ready map →
  ∃ map', allows (map ← map_reset map; map ← map_erase map key; map_erase map key) map'.
Proof.
  intros Hr. destruct (reset_allows (P := unit) ∅ map Hr) as (map1 & H1 & Hs1 & _).
  destruct (erase_exactly [] ∅ map1 key Hs1) as (map2 & H2 & Hs2 & _); [by right|].
  destruct (erase_exactly _ _ map2 key Hs2) as (map3 & H3 & _).
  { left. unfold add_key. case_decide; [done|]. apply elem_of_app. right. by left. }
  exists map3. allow_step map1; [exact H1|]. allow_step map2; by apply exactly_allows.
Qed.

Lemma map_stub_covers_witness :
  ∃ real' map',
    exec_map (λ p, p) one_bucket [MapGet 5; MapPut 5 7; MapGet 5; MapErase 5; MapGet 5; MapGet 6] =
      Ok ([inl None; inl (Some 7); inr (Some 5); inl None; inl None], real') ∧
    allows (map ← map_reset (fresh_map Z.eqb 1 0);
            run_stub (λ p, p) map [MapGet 5; MapPut 5 7; MapGet 5; MapErase 5; MapGet 5; MapGet 6])
      ([None; Some 7; None; None], map').
Proof.
  apply (map_stub_covers (λ p, p) one_bucket 1 ∅
    [MapGet 5; MapPut 5 7; MapGet 5; MapErase 5; MapGet 5; MapGet 6]
    [inl None; inl (Some 7); inr (Some 5); inl None; inl None] ∅ (fresh_map Z.eqb 1 0)).
  - exact one_bucket_ok.
  - reflexivity.
  - split; [reflexivity|exact Z.eqb_eq|reflexivity].
  - intros k p v Hk. discriminate Hk.
  - assert (int 0) by (split; lia). assert (int 7) by (split; lia).
    repeat (apply Forall_cons; split); try apply Forall_nil_2; cbn; try done;
      by exists 0.
  - vm_compute. discriminate.
Defined.
End MapStub.

(** ** Double chains: [double-chain-stub.c]

    The chain knows one index that is free, and whether there is one at all. Index and
    time arguments are not used. *)
Module DChainStub.

Record DoubleChain := mk_chain { dchain_out_of_space : Z; new_index : Z }.

(** The result and what [*chain_out] becomes: the pointer that [malloc] returned, null or
    to a block, which holds [havocked] when the function returns 0. Success needs the
    lowest bit of the symbolic value, since the code combines it with [&] with the test
    of the pointer. *)
Definition dchain_allocate (index_range : Z) (malloc_succeeds : bool) (havocked : DoubleChain)
    : sym (Z * option DoubleChain) :=
  is_dchain_allocated ← klee_int;
  let chain_out := if malloc_succeeds then Some havocked else None in
  if Z.land is_dchain_allocated (if malloc_succeeds then 1 else 0) =? 0 then mret (0, chain_out)
  else
    new_index ← klee_int;
    _ ← klee_assume (0 <=? new_index);
    _ ← klee_assume (new_index <? index_range);
    dchain_out_of_space ← klee_int;
    mret (1, Some (mk_chain dchain_out_of_space new_index)).

(** The result, the chain, and [*index_out]. *)
Definition dchain_allocate_new_index (chain : DoubleChain) (index_out time : Z)
    : sym (Z * DoubleChain * Z) :=
  if negb (dchain_out_of_space chain =? 0) then mret (0, chain, index_out)
  else mret (1, chain, new_index chain).

Definition dchain_rejuvenate_index (chain : DoubleChain) (index time : Z) : sym Z := mret 1.

(** [klee_assert(0)]: not supported. *)
Definition dchain_expire_one_index (chain : DoubleChain) (time : Z) : sym Z :=
  _ ← klee_assert false; mret 0.

Definition dchain_is_index_allocated (chain : DoubleChain) (index : Z) : sym Z := klee_int.

Definition dchain_make_space (chain : DoubleChain) (nfreed : Z) : DoubleChain :=
  mk_chain 0 (new_index chain).

Definition dchain_reset (chain : DoubleChain) (index_range : Z) : sym DoubleChain :=
  new_index ← klee_int;
  _ ← klee_assume (0 <=? new_index);
  _ ← klee_assume (new_index <? index_range);
  dchain_out_of_space ← klee_int;
  mret (mk_chain dchain_out_of_space new_index).

Lemma chain_reset_allows chain range i full :
  - 2 ^ 31 <= i < 2 ^ 31 → 0 <= i < range → - 2 ^ 31 <= full < 2 ^ 31 →
  allows (dchain_reset chain range) (mk_chain full i).
Proof.
  intros Hi Hr Hf. allow_step i; [by apply allows_int|].
  allow_step tt; [apply allows_assume; lia|]. allow_step tt; [apply allows_assume; lia|].
  allow_step full; [by apply allows_int|apply allows_ret].
Qed.

(** Every chain with an index in range may be allocated. But an allocation may also fail
    with the pointer overwritten, where the contract in [double-chain.h] has it
    unchanged. *)
Theorem chain_stub_allocates range i full junk :
  - 2 ^ 31 <= i < 2 ^ 31 → 0 <= i < range → - 2 ^ 31 <= full < 2 ^ 31 →
  allows (dchain_allocate range true junk) (1, Some (mk_chain full i)) ∧
  allows (dchain_allocate range true junk) (0, Some junk).
Proof.
  intros Hi Hr Hf. split.
  - allow_step 1; [by apply allows_int|]. cbn beta zeta. change (Z.land 1 1 =? 0) with false. cbn iota.
    allow_step i; [by apply allows_int|].
    allow_step tt; [apply allows_assume; lia|]. allow_step tt; [apply allows_assume; lia|].
    allow_step full; [by apply allows_int|apply allows_ret].
  - allow_step 0; [by apply allows_int|]. apply allows_ret.
Qed.

Lemma chain_stub_allocates_witness :
  allows (dchain_allocate 4 true (mk_chain 7 7)) (1, Some (mk_chain 0 3)) ∧
  allows (dchain_allocate 4 true (mk_chain 7 7)) (0, Some (mk_chain 7 7)).
Proof. apply (chain_stub_allocates 4 3 0 (mk_chain 7 7)); lia. Defined.

Lemma chain_reset_always chain range :
  always (dchain_reset chain range) (λ c, 0 <= new_index c < range).
Proof.
  always_step (λ _ : Z, True); [by apply always_int|]. intros i _. cbn beta.
  always_step (λ _ : unit, 0 <= i); [apply always_assume; lia|]. intros [] H1. cbn beta.
  always_step (λ _ : unit, i < range); [apply always_assume; lia|]. intros [] H2. cbn beta.
  always_step (λ _ : Z, True); [by apply always_int|]. intros f _. by apply always_ret.
Qed.
End DChainStub.

(** ** Vectors: [vector-stub.c]

    Every cell that is borrowed is new memory with symbolic contents; [index_claimed]
    remembers for which index. Neither the index nor the capacity is checked. *)
Module VectorStub.

Definition NUM_ELEMS : Z := 3.

(** A pointer to a cell is its number in [data]. [accessible]: whether the memory of
    the cells may be used ([klee_allow_access], [klee_forbid_access]). *)
Record Vector (V : Type) := mk_vector {
  data : list V;
  elems_claimed : Z;
  index_claimed : list Z;
  ent_cond : option (V → bool);
  accessible : bool
}.
Arguments mk_vector {V} _ _ _ _ _.
Arguments data {V} _.
Arguments elems_claimed {V} _.
Arguments index_claimed {V} _.
Arguments ent_cond {V} _.
Arguments accessible {V} _.

Section ops.
Context {V : Type}.
Implicit Types (vector : Vector V).

(** [mem] is the memory that is made symbolic; [index_claimed] is symbolic, too. *)
Definition vector_allocate (mem : list V) (claimed : list Z) (old : option (Vector V))
    : sym (Z * option (Vector V)) :=
  allocation_succeeded ← klee_int;
  if allocation_succeeded =? 0 then mret (0, old)
  else mret (1, Some (mk_vector mem 0 claimed None false)).

Definition vector_reset vector (mem : list V) : Vector V :=
  mk_vector mem 0 (index_claimed vector) (ent_cond vector) false.

Definition vector_set_entry_condition vector (cond : V → bool) : Vector V :=
  mk_vector (data vector) (elems_claimed vector) (index_claimed vector) (Some cond)
    (accessible vector).

(** The pointer to the cell, and the vector. *)
Definition vector_borrow vector (index : Z) : sym (Z * Vector V) :=
  _ ← klee_assert (elems_claimed vector <? NUM_ELEMS);
  let cell := elems_claimed vector in
  _ ← match ent_cond vector with
      | Some cond => v ← lift (rd (data vector) cell); klee_assume (cond v)
      | None => mret tt
      end;
  ic ← lift (wr (index_claimed vector) (elems_claimed vector) index);
  mret (cell, mk_vector (data vector) (elems_claimed vector + 1) ic (ent_cond vector) true).

(** The client reads and writes a cell. *)
Definition load vector (cell : Z) : sym V :=
  _ ← klee_assert (accessible vector); lift (rd (data vector) cell).

Definition store vector (cell : Z) (v : V) : sym (Vector V) :=
  _ ← klee_assert (accessible vector);
  d ← lift (wr (data vector) cell v);
  mret (mk_vector d (elems_claimed vector) (index_claimed vector) (ent_cond vector)
          (accessible vector)).

(** The loop of [vector_return]: whether the pointer is one that was borrowed. *)
Fixpoint belongs_loop (claimed : list Z) (index value : Z) (i : Z) (fuel : nat) (belongs : bool)
    : sym bool :=
  match fuel with
  | O => mret belongs
  | S fuel =>
      if i =? value then
        c ← lift (rd claimed i);
        _ ← klee_assert (c =? index);
        belongs_loop claimed index value (i + 1) fuel true
      else belongs_loop claimed index value (i + 1) fuel belongs
  end.

Definition vector_return vector (index value : Z) : sym (Vector V) :=
  _ ← match ent_cond vector with
      | Some cond => v ← load vector value; klee_assert (cond v)
      | None => mret tt
      end;
  belongs ← belongs_loop (index_claimed vector) index value 0 (Z.to_nat (elems_claimed vector)) false;
  _ ← klee_assert belongs;
  mret (mk_vector (data vector) (elems_claimed vector) (index_claimed vector) (ent_cond vector) false).
End ops.

(** A packet borrows one cell. *)
Section proofs.
Context {V : Type} `{Inhabited V}.
Implicit Types (vector : Vector V) (x : V).

Record ready vector : Prop := {
  r_claimed : elems_claimed vector = 0;
  r_index : zlen (index_claimed vector) = NUM_ELEMS;
  r_data : 0 < zlen (data vector)
}.

Definition holds (c : option (V → bool)) x : Prop :=
  match c with Some c => c x = true | None => True end.

Definition borrowed vector (index : Z) x (access : bool) : Vector V :=
  mk_vector (setz (data vector) 0 x) 1 (setz (index_claimed vector) 0 index)
    (ent_cond vector) access.

Lemma borrow_body vector index choices :
  ready vector →
  vector_borrow vector index choices =
  match ent_cond vector with
  | Some c => if c (getz (data vector) 0)
      then Path (0, borrowed vector index (getz (data vector) 0) true) choices else NoPath
  | None => Path (0, borrowed vector index (getz (data vector) 0) true) choices
  end.
Proof.
  intros [Hc Hi Hd]. unfold vector_borrow, borrowed. rewrite Hc, setz_getz by lia.
  cbv [mbind sym_bind klee_assert c_assert lift mret sym_ret klee_assume].
  change (0 <? NUM_ELEMS) with true. cbv iota beta.
  assert (0 < zlen (index_claimed vector)) by (rewrite Hi; done).
  destruct (ent_cond vector) as [c|].
  - rewrite (rd_ok (data vector)) by lia. destruct (c (getz (data vector) 0)); [|done].
    by rewrite (wr_ok (index_claimed vector)) by lia.
  - by rewrite (wr_ok (index_claimed vector)) by lia.
Qed.

Lemma borrow_allows vector index :
  ready vector → holds (ent_cond vector) (getz (data vector) 0) →
  allows (vector_borrow vector index) (0, borrowed vector index (getz (data vector) 0) true).
Proof.
  intros Hr Hh. apply exactly_allows. intros c. rewrite borrow_body by done.
  unfold holds in Hh. destruct (ent_cond vector); [by rewrite Hh|done].
Qed.

Lemma borrow_always vector index :
  ready vector →
  always (vector_borrow vector index) (λ r, holds (ent_cond vector) (getz (data vector) 0) ∧
    r = (0, borrowed vector index (getz (data vector) 0) true)).
Proof.
  intros Hr c. rewrite borrow_body by done. unfold holds.
  destruct (ent_cond vector) as [f|]; [destruct (f _) eqn:E|]; done.
Qed.

Lemma load_exactly vector index x :
  ready vector → exactly (load (borrowed vector index x true) 0) x.
Proof.
  intros [_ _ Hd]. exact_step tt; [by apply exactly_assert|]. apply exactly_lift. cbn [borrowed data].
  rewrite rd_ok by (rewrite zlen_setz; lia). by rewrite getz_setz_eq by lia.
Qed.

Lemma store_exactly vector index x y :
  ready vector → exactly (store (borrowed vector index x true) 0 y) (borrowed vector index y true).
Proof.
  intros [_ _ Hd]. exact_step tt; [by apply exactly_assert|].
  exact_step (setz (data vector) 0 y); [|by apply exactly_ret]. apply exactly_lift. cbn [borrowed data].
  rewrite wr_ok by (rewrite zlen_setz; lia). unfold setz. by rewrite list_insert_insert_eq.
Qed.

Lemma return_exactly vector index x :
  ready vector → holds (ent_cond vector) x →
  exactly (vector_return (borrowed vector index x true) index 0) (borrowed vector index x false).
Proof.
  intros Hr Hh. pose proof Hr as [_ Hi _]. unfold vector_return. cbn [borrowed ent_cond].
  exact_step tt.
  { unfold holds in Hh. destruct (ent_cond vector); [|by apply exactly_ret].
    exact_step x; [by apply load_exactly|by apply exactly_assert]. }
  exact_step true; [|exact_step tt; [by apply exactly_assert|by apply exactly_ret]].
  cbn [elems_claimed index_claimed]. change (Z.to_nat 1) with 1%nat. cbn [belongs_loop Z.eqb].
  assert (0 < zlen (index_claimed vector)) by (rewrite Hi; done).
  exact_step index; [apply exactly_lift|].
  { cbn [borrowed index_claimed]. rewrite rd_ok by (rewrite zlen_setz; lia). by rewrite getz_setz_eq by lia. }
  exact_step tt; [apply exactly_assert; lia|by apply exactly_ret].
Qed.
End proofs.
End VectorStub.

(** ** Expiration: [expire_items_single_map] of [expirator-stub.c]

    Any number of entries may expire. Neither the map nor the vector changes, and the
    chain has a free index afterwards even if no entry expired. *)
Module ExpiratorStub.
Import DChainStub.

Definition expire_items_single_map (chain : DoubleChain) (time : Z) : sym (Z * DoubleChain) :=
  nfreed ← klee_int;
  _ ← klee_assume (0 <=? nfreed);
  mret (nfreed, dchain_make_space chain nfreed).

Lemma expire_allows chain time :
  allows (expire_items_single_map chain time) (0, mk_chain 0 (new_index chain)).
Proof.
  allow_step 0; [by apply allows_int|]. allow_step tt; [by apply allows_assume|apply allows_ret].
Qed.

Lemma expire_always chain time :
  always (expire_items_single_map chain time)
    (λ r, 0 <= r.1 ∧ r.2 = mk_chain 0 (new_index chain)).
Proof.
  always_step (λ _ : Z, True); [by apply always_int|]. intros n _. cbn beta.
  always_step (λ _ : unit, 0 <= n); [apply always_assume; lia|]. intros [] Hn. cbn beta.
  by apply always_ret.
Qed.

End ExpiratorStub.
