(* ===== verification/NatSymbex.v ===== *)
(** * The NAT under symbolic execution

    PIX derives the contract of the NAT from the paths KLEE finds through
    [nf_core_process] with the models of the containers. This file models that program:
    the functions of [nat-flowmanager.c] and [nat_forward_vignat.c] again, on the models
    of [KleeStubs.v], with the reset of [nat-loop.c] before each packet. It then relates
    its paths to the packets the NAT of [Nat.v] handles: they cover every packet but
    those that find the flow table full, no assertion fails on any of them, and the
    one access out of bounds of the NAT is not found. *)

From S2P Require Import Prelude.
From S2P Require Import DChainImpl.
From S2P Require Import DChain.
From S2P Require Import MapSpec.
From S2P Require Import Map.
From S2P Require Import Vector.
From S2P Require Import Coherence.
From S2P Require Import Fresh.
From S2P Require Import Expirator.
From S2P Require Import NfUtil.
From S2P Require Import Nat.
From S2P Require Import KleeStubs.

(** The handler on the containers themselves. *)
Abbreviation real_process := nf_core_process.
Abbreviation real_start_port manager := (start_port (state manager)).

Module Symbex.

Record State := mk_state {
  fm : MapStub.Map FlowId; fv : VectorStub.Vector FlowId; heap : DChainStub.DoubleChain;
  max_flows : Z; start_port : Z; ext_ip : Z; nat_device : Z }.

Definition upd (st : State) m v h : State :=
  mk_state m v h (max_flows st) (start_port st) (ext_ip st) (nat_device st).

(** The condition [alloc_state] sets for the vector; [dev_count] is the number of
    devices DPDK counts. *)
Definition flow_consistency (dev_count : Z) (nat_device : Z) (flow_id : FlowId) : bool :=
  (0 <=? internal_device flow_id) && (internal_device flow_id <? dev_count) &&
  negb (internal_device flow_id =? nat_device).

(** [loop_reset] of [nat-loop.c]; [mem] is what the vector will contain. *)
Definition loop_reset (st : State) (mem : list FlowId) : sym State :=
  m ← MapStub.map_reset (fm st);
  let v := VectorStub.vector_reset (fv st) mem in
  h ← DChainStub.dchain_reset (heap st) (max_flows st);
  mret (upd st m v h).

Definition flow_manager_allocate_flow (st : State) (id : FlowId) (time : Z)
    : sym (option Z * State) :=
  '(ret, h, index) ← DChainStub.dchain_allocate_new_index (heap st) 0 time;
  if ret =? 0 then mret (None, upd st (fm st) (fv st) h)
  else
    let external_port := u16 (start_port st + index) in
    '(key, v) ← VectorStub.vector_borrow (fv st) index;
    v ← VectorStub.store v key id;
    k ← VectorStub.load v key;
    m ← MapStub.map_put (fm st) k index;
    v ← VectorStub.vector_return v index key;
    mret (Some external_port, upd st m v h).

Definition flow_manager_expire (st : State) (time : Z) : sym State :=
  _ ← lift (c_assert (0 <=? time));
  '(_, h) ← ExpiratorStub.expire_items_single_map (heap st) time;
  mret (upd st (fm st) (fv st) h).

Definition flow_manager_get_internal (st : State) (id : FlowId) (time : Z)
    : sym (option Z * State) :=
  '(r, m) ← MapStub.map_get (fm st) id;
  let st := upd st m (fv st) (heap st) in
  match r with
  | None => mret (None, st)
  | Some index =>
      let external_port := u16 (index + start_port st) in
      _ ← DChainStub.dchain_rejuvenate_index (heap st) index time;
      mret (Some external_port, st)
  end.

Definition flow_manager_get_external (st : State) (external_port time : Z)
    : sym (option FlowId * State) :=
  let index := external_port - start_port st in
  allocated ← DChainStub.dchain_is_index_allocated (heap st) index;
  if allocated =? 0 then mret (None, st)
  else
    '(key, v) ← VectorStub.vector_borrow (fv st) index;
    out_flow ← VectorStub.load v key;
    v ← VectorStub.vector_return v index key;
    _ ← DChainStub.dchain_rejuvenate_index (heap st) index time;
    mret (Some out_flow, upd st (fm st) v (heap st)).

Section process.
Variable config : nat_config.
Variable rte_ipv4_udptcp_cksum : list Z → Z → Z → Z.
Variable rte_ipv4_cksum : list Z → Z → Z.
Variable rte_raw_cksum : list Z → Z → Z → Z.

Variable rte_eth_dev_count_avail : Z.

Definition emit := nat_emit config rte_ipv4_udptcp_cksum rte_ipv4_cksum rte_raw_cksum.

(** [concretize_devices] of [nf_util.h]: a case distinction for KLEE, which leaves the
    device as it is. *)
Fixpoint concretize_loop (device d : Z) (fuel : nat) : Z :=
  match fuel with
  | O => device
  | S fuel => if device =? d then d else concretize_loop device (d + 1) fuel
  end.

Definition concretize_devices (device count : Z) : sym Z :=
  _ ← klee_assert (0 <=? device);
  _ ← klee_assert (device <? count);
  mret (concretize_loop device 0 (Z.to_nat count)).

(** The two branches of the handler. *)
Definition handle_external (st : State) (m : mbuf) (now ipv4_header tcpudp_header : Z)
    : sym (Z * mbuf * State) :=
  let ether_header := nf_get_mbuf_ether_header m in
  dst ← lift (ld16 (buf m) (tcpudp_header + TCPUDP_DST_PORT));
  '(r, st) ← flow_manager_get_external st dst now;
  match r with
  | Some internal_flow =>
      '(dev, m) ← lift (
        b ← st32 (buf m) (ipv4_header + IPV4_DST_ADDR) (src_ip internal_flow);
        b ← st16 b (tcpudp_header + TCPUDP_DST_PORT) (src_port internal_flow);
        emit m b ether_header ipv4_header (internal_device internal_flow));
      dev ← concretize_devices dev rte_eth_dev_count_avail;
      mret (dev, m, st)
  | None => mret (port m, m, st)
  end.

Definition handle_internal (st : State) (m : mbuf) (now ipv4_header tcpudp_header : Z)
    : sym (Z * mbuf * State) :=
  let ether_header := nf_get_mbuf_ether_header m in
  sp ← lift (ld16 (buf m) (tcpudp_header + TCPUDP_SRC_PORT));
  dp ← lift (ld16 (buf m) (tcpudp_header + TCPUDP_DST_PORT));
  sa ← lift (ld32 (buf m) (ipv4_header + IPV4_SRC_ADDR));
  da ← lift (ld32 (buf m) (ipv4_header + IPV4_DST_ADDR));
  proto ← lift (ld8 (buf m) (ipv4_header + IPV4_NEXT_PROTO_ID));
  let id := mk_flowid sp dp sa da (port m) proto in
  '(r, st) ← flow_manager_get_internal st id now;
  '(r, st) ← (match r with
              | Some external_port => mret (Some external_port, st)
              | None => flow_manager_allocate_flow st id now
              end);
  match r with
  | Some external_port =>
      '(dev, m) ← lift (
        b ← st32 (buf m) (ipv4_header + IPV4_SRC_ADDR) (external_addr config);
        b ← st16 b (tcpudp_header + TCPUDP_SRC_PORT) external_port;
        emit m b ether_header ipv4_header (wan_device config));
      dev ← concretize_devices dev rte_eth_dev_count_avail;
      mret (dev, m, st)
  | None => mret (port m, m, st)
  end.

Definition nf_core_process (st : State) (m : mbuf) (now : Z) : sym (Z * mbuf * State) :=
  let in_port := port m in
  st ← flow_manager_expire st now;
  ip ← lift (nf_get_mbuf_ipv4_header m);
  match ip with
  | None => mret (port m, m, st)
  | Some ipv4_header =>
    tcpudp ← lift (nf_get_ipv4_tcpudp_header (buf m) ipv4_header);
    match tcpudp with
    | None => mret (port m, m, st)
    | Some tcpudp_header =>
      if in_port =? wan_device config
      then handle_external st m now ipv4_header tcpudp_header
      else handle_internal st m now ipv4_header tcpudp_header
    end
  end.

(** The body of the loop that KLEE explores: [nf_loop_iteration_border], then a
    packet. *)
Definition iteration (st : State) (mem : list FlowId) (m : mbuf) (now : Z)
    : sym (Z * mbuf * State) :=
  st ← loop_reset st mem; nf_core_process st m now.
End process.

(** ** Proofs *)

Lemma concretize_exactly device count :
  0 <= device < count → exactly (concretize_devices device count) device.
Proof.
  intros Hd. exact_step tt; [apply exactly_assert; lia|].
  exact_step tt; [apply exactly_assert; lia|].
  assert (∀ fuel d, concretize_loop device d fuel = device) as ->; [|apply exactly_ret].
  induction fuel as [|fuel IH]; intros d; [done|]. cbn. destruct (Z.eqb_spec device d); [done|apply IH].
Qed.

(** *** The parsing of the headers *)
Lemma sym_parse_headers m (A : Type) (no : sym A) (yes : Z → Z → sym A) choices :
  52 <= zlen (buf m) →
  (ip ← lift (nf_get_mbuf_ipv4_header m);
   match ip with
   | None => no
   | Some ipv4_header =>
       tcpudp ← lift (nf_get_ipv4_tcpudp_header (buf m) ipv4_header);
       match tcpudp with None => no | Some tcpudp_header => yes ipv4_header tcpudp_header end
   end) choices = (if is_tcpudp (buf m) then yes SIZEOF_ETHER_HDR (ports_at (buf m)) else no) choices.
Proof.
  intros Hl. pose proof (parse_headers m _ (Ok no) (λ i t, Ok (yes i t)) Hl) as E.
  cbv [mbind sym_bind lift]. destruct (nf_get_mbuf_ipv4_header m) as [[ip|]|e]; cbn in E.
  - destruct (nf_get_ipv4_tcpudp_header (buf m) ip) as [[t|]|e]; cbn in E;
      destruct (is_tcpudp (buf m)); congruence.
  - destruct (is_tcpudp (buf m)); congruence.
  - destruct (is_tcpudp (buf m)); congruence.
Qed.

(** *** The flow manager *)
Section manager.
Variables (config : nat_config) (n_devices : Z).
Implicit Types (st : State) (id : FlowId).

(** The state of the models at the end of an earlier packet, or after
    [alloc_state]. *)
Record sym_ready st : Prop := {
  sr_map : MapStub.stub_ready (fm st);
  sr_nocond : MapStub.ent_cond (fm st) = None;
  sr_index : zlen (VectorStub.index_claimed (fv st)) = VectorStub.NUM_ELEMS;
  sr_cond : VectorStub.ent_cond (fv st) = Some (flow_consistency n_devices (nat_device st));
  sr_wan : nat_device st = wan_device config;
  sr_range : 0 < max_flows st < 2 ^ 31
}.

(** The state after the reset and the expiration: nothing is known of the flows, and
    [i] is a free index. *)
Record sym_start st (i : Z) : Prop := {
  ss_map : ∀ m : gmap FlowId (unit * Z), MapStub.stands [] m (fm st);
  ss_nocond : MapStub.ent_cond (fm st) = None;
  ss_vec : VectorStub.ready (fv st);
  ss_cond : VectorStub.ent_cond (fv st) = Some (flow_consistency n_devices (nat_device st));
  ss_heap : heap st = DChainStub.mk_chain 0 i;
  ss_wan : nat_device st = wan_device config
}.

Definition consistent id : Prop :=
  0 <= internal_device id < n_devices ∧ internal_device id ≠ wan_device config.

Lemma consistent_holds st id :
  nat_device st = wan_device config →
  VectorStub.holds (Some (flow_consistency n_devices (nat_device st))) id ↔ consistent id.
Proof.
  intros ->. unfold VectorStub.holds, flow_consistency, consistent.
  rewrite !andb_true_iff, negb_true_iff, Z.eqb_neq, Z.leb_le, Z.ltb_lt. tauto.
Qed.

Definition started st st1 (mem : list FlowId) : Prop :=
  start_port st1 = start_port st ∧ VectorStub.data (fv st1) = mem.

Lemma start_allows st mem i now :
  sym_ready st → 0 < zlen mem → 0 <= i < max_flows st → 0 <= now →
  ∃ st1, allows (st1 ← loop_reset st mem; flow_manager_expire st1 now) st1 ∧
    sym_start st1 i ∧ started st st1 mem.
Proof.
  intros [Hm Hn Hi Hc Hw Hr] Hmem Hrange Hnow.
  destruct (MapStub.reset_allows (P := unit) ∅ (fm st) Hm) as (m1 & Hm1 & _ & He).
  pose proof (MapStub.reset_always (P := unit) (fm st) Hm) as Hall.
  destruct (allows_always _ _ _ Hm1 Hall) as [_ Hst].
  eexists. split.
  { allow_step (upd st m1 (VectorStub.vector_reset (fv st) mem) (DChainStub.mk_chain 0 i)).
    - allow_step m1; [exact Hm1|]. allow_step (DChainStub.mk_chain 0 i); [|apply allows_ret].
      apply DChainStub.chain_reset_allows; lia.
    - unfold flow_manager_expire. allow_step tt.
      { apply allows_lift. by rewrite (proj2 (Z.leb_le 0 now)) by done. }
      allow_step (0, DChainStub.mk_chain 0 i); [apply ExpiratorStub.expire_allows|apply allows_ret]. }
  split; [|done]. split; cbn; try done. by rewrite He.
Qed.

Lemma start_always st mem now :
  sym_ready st → 0 < zlen mem → 0 <= now →
  always (st1 ← loop_reset st mem; flow_manager_expire st1 now)
    (λ st1, ∃ i, sym_start st1 i ∧ started st st1 mem).
Proof.
  intros [Hm Hn Hi Hc Hw Hr] Hmem Hnow.
  always_step (λ st1, ∃ m1 c, (∀ m : gmap FlowId (unit * Z), MapStub.stands [] m m1) ∧
    MapStub.ent_cond m1 = None ∧ st1 = upd st m1 (VectorStub.vector_reset (fv st) mem) c).
  { unfold loop_reset. eapply always_bind; [exact (MapStub.reset_always (P := unit) _ Hm)|]. intros m1 [He Hst].
    cbn beta. eapply always_bind; [apply DChainStub.chain_reset_always|]. intros c _. apply always_ret.
    exists m1, c. split; [done|]. by rewrite He. }
  intros st1 (m1 & c & Hst & He & ->). unfold flow_manager_expire.
  always_step (λ _ : unit, True).
  { apply (always_lift _ tt); [|done]. by rewrite (proj2 (Z.leb_le 0 now)) by done. }
  intros _ _. eapply always_bind; [apply ExpiratorStub.expire_always|]. intros [n h] [_ Eh].
  cbn in Eh. subst h. apply always_ret. exists (DChainStub.new_index c).
  split; [|done]. by split.
Qed.

(** A known flow is found, with any index. *)
Lemma get_internal_known st i id time index :
  sym_start st i → 0 <= index < 2 ^ 31 →
  ∃ st1, allows (flow_manager_get_internal st id time) (Some (u16 (index + start_port st)), st1).
Proof.
  intros Hs Hi. unfold flow_manager_get_internal.
  destruct (MapStub.get_allows [] {[id := (tt, index)]} (fm st) id index)
    as (m1 & Hg & _); [apply Hs|right; done|unfold MapStub.int; lia| |right; by rewrite lookup_singleton_eq|].
  { unfold MapStub.cond. by rewrite (ss_nocond _ _ Hs). }
  rewrite lookup_singleton_eq in Hg. eexists. allow_step (Some index, m1); [exact Hg|].
  allow_step 1; apply allows_ret.
Qed.

(** The body of [flow_manager_allocate_flow] for a flow the packet has looked up. *)
Lemma allocate_body st i id (m : gmap FlowId (unit * Z)) :
  MapStub.stands [id] m (fm st) → MapStub.ent_cond (fm st) = None → m !! id = None →
  VectorStub.ready (fv st) →
  VectorStub.ent_cond (fv st) = Some (flow_consistency n_devices (nat_device st)) →
  heap st = DChainStub.mk_chain 0 i → nat_device st = wan_device config → consistent id →
  ∃ st1, exactly
    (v ← VectorStub.store (VectorStub.borrowed (fv st) i (getz (VectorStub.data (fv st)) 0) true) 0 id;
     k ← VectorStub.load v 0;
     m ← MapStub.map_put (fm st) k i;
     v ← VectorStub.vector_return v i 0;
     mret (Some (u16 (start_port st + i)), upd st m v (heap st)))
    (Some (u16 (start_port st + i)), st1) ∧ nat_device st1 = nat_device st.
Proof.
  intros Hm He Hn Hv Hc Hh Hw Hid.
  destruct (MapStub.put_exactly _ _ (fm st) id tt i Hm) as (m2 & Hp & _).
  { left. by left. }
  { unfold MapStub.cond. by rewrite He. }
  { done. }
  eexists. split; [|shelve].
  exact_step (VectorStub.borrowed (fv st) i id true); [by apply VectorStub.store_exactly|].
  exact_step id; [by apply VectorStub.load_exactly|].
  exact_step m2; [exact Hp|].
  exact_step (VectorStub.borrowed (fv st) i id false); [|by apply exactly_ret].
  apply VectorStub.return_exactly; [done|]. rewrite Hc. by apply consistent_holds.
  Unshelve. done.
Qed.

Lemma stands_single id (m : gmap FlowId (unit * Z)) map :
  MapStub.stands (MapStub.add_key id []) m map → MapStub.stands [id] m map.
Proof. unfold MapStub.add_key. by rewrite decide_False by apply not_elem_of_nil. Qed.

(** A flow that is not known is not found, and gets the free index. *)
Lemma get_internal_new st i id time :
  sym_start st i → consistent id → consistent (getz (VectorStub.data (fv st)) 0) →
  ∃ st1 st2, allows (flow_manager_get_internal st id time) (None, st1) ∧
    allows (flow_manager_allocate_flow st1 id time) (Some (u16 (start_port st + i)), st2).
Proof.
  intros Hs Hid Hd. unfold flow_manager_get_internal.
  destruct (MapStub.get_allows (P := unit) [] ∅ (fm st) id 0)
    as (m1 & Hg & Hm1 & He1); [apply Hs|right; done|unfold MapStub.int; lia| |by left|].
  { unfold MapStub.cond. by rewrite (ss_nocond _ _ Hs). }
  rewrite lookup_empty in Hg. rewrite (ss_nocond _ _ Hs) in He1. apply stands_single in Hm1.
  set (st1 := upd st m1 (fv st) (heap st)).
  destruct (allocate_body st1 i id ∅ Hm1 He1) as (st2 & Ha & _);
    [apply lookup_empty|apply Hs..|done|].
  exists st1, st2. split.
  { allow_step (@None Z, m1); [exact Hg|apply allows_ret]. }
  unfold flow_manager_allocate_flow. cbn [heap fv fm upd start_port st1]. rewrite (ss_heap _ _ Hs).
  allow_step (1, DChainStub.mk_chain 0 i, i); [apply allows_ret|]. cbn [Z.eqb].
  allow_step (0, VectorStub.borrowed (fv st) i (getz (VectorStub.data (fv st)) 0) true).
  { apply VectorStub.borrow_allows; [apply Hs|]. rewrite (ss_cond _ _ Hs).
    by apply consistent_holds, Hd; apply Hs. }
  apply exactly_allows. cbn [st1 fv fm heap upd start_port] in Ha. rewrite (ss_heap _ _ Hs) in Ha.
  exact Ha.
Qed.

(** The index of a port from outside: in use, with any consistent flow, or not. *)
Lemma get_external_used st i port time :
  sym_start st i → consistent (getz (VectorStub.data (fv st)) 0) →
  ∃ st1, allows (flow_manager_get_external st port time)
    (Some (getz (VectorStub.data (fv st)) 0), st1).
Proof.
  intros Hs Hd. unfold flow_manager_get_external. set (index := port - start_port st).
  pose proof (ss_vec _ _ Hs) as Hv. set (x := getz (VectorStub.data (fv st)) 0) in *.
  eexists. allow_step 1; [by apply allows_int|]. cbn [Z.eqb].
  allow_step (0, VectorStub.borrowed (fv st) index x true).
  { apply VectorStub.borrow_allows; [done|]. rewrite (ss_cond _ _ Hs).
    by apply consistent_holds, Hd; apply Hs. }
  apply exactly_allows. exact_step x; [by apply VectorStub.load_exactly|].
  exact_step (VectorStub.borrowed (fv st) index x false).
  { apply VectorStub.return_exactly; [done|]. rewrite (ss_cond _ _ Hs).
    by apply consistent_holds, Hd; apply Hs. }
  exact_step 1; by apply exactly_ret.
Qed.

Lemma get_external_unused st port time :
  allows (flow_manager_get_external st port time) (None, st).
Proof.
  allow_step 0; [by apply allows_int|]. apply allows_ret.
Qed.

(** The other direction: what is excluded. *)
Lemma get_external_always st i port time :
  sym_start st i →
  always (flow_manager_get_external st port time)
    (λ r, match r.1 with Some f => consistent f | None => True end).
Proof.
  intros Hs. unfold flow_manager_get_external. set (index := port - start_port st).
  pose proof (ss_vec _ _ Hs) as Hv. set (x := getz (VectorStub.data (fv st)) 0) in *.
  always_step (λ _ : Z, True); [by apply always_int|]. intros a _. cbn beta.
  destruct (a =? 0); [by apply always_ret|].
  eapply always_bind; [by apply VectorStub.borrow_always|]. intros r [Hh ->].
  rewrite (ss_cond _ _ Hs), (consistent_holds st) in Hh by apply Hs. fold x in Hh.
  apply (exactly_always _ (Some x, upd st (fm st) (VectorStub.borrowed (fv st) index x false) (heap st)));
    [|done].
  cbn beta iota. exact_step x; [by apply VectorStub.load_exactly|].
  exact_step (VectorStub.borrowed (fv st) index x false).
  { apply VectorStub.return_exactly; [done|]. rewrite (ss_cond _ _ Hs).
    by apply consistent_holds, Hh; apply Hs. }
  exact_step 1; by apply exactly_ret.
Qed.

(** A packet from inside always gets a port: that of its flow or a new one. *)
Lemma get_internal_always st i id time :
  sym_start st i → consistent id →
  always ('(r, st) ← flow_manager_get_internal st id time;
          match r with
          | Some external_port => mret (Some external_port, st)
          | None => flow_manager_allocate_flow st id time
          end)
    (λ r, ∃ x, r.1 = Some (u16 x)).
Proof.
  intros Hs Hid. unfold flow_manager_get_internal.
  always_step (λ r : option Z * State, (∃ x, r.1 = Some (u16 x)) ∨
    r.1 = None ∧ ∃ m1, r.2 = upd st m1 (fv st) (heap st) ∧ MapStub.ent_cond m1 = None ∧
      ∃ m : gmap FlowId (unit * Z), MapStub.stands [id] m m1 ∧ m !! id = None).
  { eapply always_bind; [apply MapStub.get_always, Hs|]. intros [r m1] (He & m & Hst & Hm).
    cbn [fst snd] in *. rewrite (ss_nocond _ _ Hs) in He. destruct r as [index|].
    - always_step (λ _ : Z, True); [by apply always_ret|]. intros _ _. apply always_ret.
      left. by eexists.
    - apply always_ret. right. split; [done|]. exists m1. split; [done|]. split; [done|].
      exists m. split; [done|]. by destruct (m !! id). }
  intros [r st1] [[x Hx]|(Hr & m1 & Est & He & m & Hst & Hm)]; cbn [fst snd] in *.
  { rewrite Hx. apply always_ret. by exists x. }
  subst r st1. unfold flow_manager_allocate_flow. cbn [heap fv fm upd start_port].
  rewrite (ss_heap _ _ Hs).
  always_step (λ r, r = (1, DChainStub.mk_chain 0 i, i)); [by apply always_ret|]. intros _ ->.
  cbn [Z.eqb]. eapply always_bind; [apply VectorStub.borrow_always, Hs|]. intros r [Hh ->].
  destruct (allocate_body (upd st m1 (fv st) (heap st)) i id m Hst He Hm) as (st2 & Ha & _);
    [apply Hs..|done|].
  cbn [fv fm heap upd start_port] in Ha. rewrite (ss_heap _ _ Hs) in Ha.
  eapply exactly_always; [exact Ha|]. by eexists.
Qed.
End manager.

(** *** A packet *)
Section packet.
Context {M : Type} `{!MapOps (ptr FlowId) FlowId M, !MapLaws (ptr FlowId) FlowId M}.
Variables (config : nat_config) (n_devices : Z).
Variable c1 : list Z → Z → Z → Z.
Variable c2 : list Z → Z → Z.
Variable c3 : list Z → Z → Z → Z.
Implicit Types (manager : FlowManager M) (ch : dchain) (m : mbuf) (st : State).

(** What follows the expiration. *)
Definition branch st m now : sym (Z * mbuf * State) :=
  if is_tcpudp (buf m) then
    if port m =? wan_device config
    then handle_external config c1 c2 c3 n_devices st m now SIZEOF_ETHER_HDR (ports_at (buf m))
    else handle_internal config c1 c2 c3 n_devices st m now SIZEOF_ETHER_HDR (ports_at (buf m))
  else mret (port m, m, st).

Lemma iteration_body st mem m now choices :
  52 <= zlen (buf m) →
  iteration config c1 c2 c3 n_devices st mem m now choices =
  (st1 ← (st1 ← loop_reset st mem; flow_manager_expire st1 now); branch st1 m now) choices.
Proof.
  intros Hl. unfold iteration, nf_core_process. cbv [mbind sym_bind].
  destruct (loop_reset st mem choices) as [st1 rest| |e]; [|done..].
  destruct (flow_manager_expire st1 now rest) as [st2 rest2| |e]; [|done..].
  exact (sym_parse_headers m _ (mret (port m, m, st2)) (λ ipv4_header tcpudp_header,
    if port m =? wan_device config
    then handle_external config c1 c2 c3 n_devices st2 m now ipv4_header tcpudp_header
    else handle_internal config c1 c2 c3 n_devices st2 m now ipv4_header tcpudp_header) rest2 Hl).
Qed.

(** The ends of the two handlers, in the real program and here. *)
Lemma real_emit (r1 : res (list Z)) r2 (emit : list Z → res (Z * mbuf)) (mgr : FlowManager M) dev m' :
  (b ← r1; b ← r2 b; emit b) = Ok (dev, m') →
  (b ← r1; b ← r2 b; '(dev, m) ← emit b; Ok (dev, m, mgr)) = Ok (dev, m', mgr).
Proof.
  intros (b1 & -> & (b2 & E2 & E)%res_bind_Ok)%res_bind_Ok. rewrite bind_Ok, E2, bind_Ok, E.
  by rewrite bind_Ok.
Qed.

Lemma handle_external_allows st m now r st1 dev m' :
  52 <= zlen (buf m) →
  allows (flow_manager_get_external st (w16 (buf m) (ports_at (buf m) + TCPUDP_DST_PORT)) now) (r, st1) →
  match r with
  | Some f => (b ← st32 (buf m) (14 + IPV4_DST_ADDR) (src_ip f);
               b ← st16 b (ports_at (buf m) + TCPUDP_DST_PORT) (src_port f);
               nat_emit config c1 c2 c3 m b 0 14 (internal_device f)) = Ok (dev, m') ∧
              0 <= dev < n_devices
  | None => (dev, m') = (port m, m)
  end →
  allows (handle_external config c1 c2 c3 n_devices st m now SIZEOF_ETHER_HDR (ports_at (buf m))) (dev, m', st1).
Proof.
  intros Hl Hg Hr. pose proof (land15_bound (getz (buf m) 14)) as Hi. unfold handle_external.
  allow_step (w16 (buf m) (ports_at (buf m) + TCPUDP_DST_PORT)).
  { apply allows_lift, ld16_ok; unfold ports_at, TCPUDP_DST_PORT; lia. }
  allow_step (r, st1); [exact Hg|]. destruct r as [f|].
  - destruct Hr as [E Hd]. allow_step (dev, m'); [by apply allows_lift|].
    allow_step dev; [by apply exactly_allows, concretize_exactly|apply allows_ret].
  - injection Hr as -> ->. apply allows_ret.
Qed.

Lemma handle_internal_allows st m now r st1 x st2 dev m' :
  52 <= zlen (buf m) →
  let id := mk_flowid (w16 (buf m) (ports_at (buf m) + TCPUDP_SRC_PORT))
    (w16 (buf m) (ports_at (buf m) + TCPUDP_DST_PORT)) (w32 (buf m) 26) (w32 (buf m) 30)
    (port m) (getz (buf m) 23) in
  allows (flow_manager_get_internal st id now) (r, st1) →
  match r with
  | Some y => y = x ∧ st2 = st1
  | None => allows (flow_manager_allocate_flow st1 id now) (Some x, st2)
  end →
  (b ← st32 (buf m) (14 + IPV4_SRC_ADDR) (external_addr config);
   b ← st16 b (ports_at (buf m) + TCPUDP_SRC_PORT) x;
   nat_emit config c1 c2 c3 m b 0 14 (wan_device config)) = Ok (dev, m') →
  0 <= dev < n_devices →
  allows (handle_internal config c1 c2 c3 n_devices st m now SIZEOF_ETHER_HDR (ports_at (buf m))) (dev, m', st2).
Proof.
  intros Hl id Hg Hr He Hdev. pose proof (land15_bound (getz (buf m) 14)) as Hi. unfold handle_internal.
  allow_step (w16 (buf m) (ports_at (buf m) + TCPUDP_SRC_PORT)).
  { apply allows_lift, ld16_ok; unfold ports_at, TCPUDP_SRC_PORT; lia. }
  allow_step (w16 (buf m) (ports_at (buf m) + TCPUDP_DST_PORT)).
  { apply allows_lift, ld16_ok; unfold ports_at, TCPUDP_DST_PORT; lia. }
  allow_step (w32 (buf m) 26); [apply allows_lift, ld32_ok; unfold IPV4_SRC_ADDR, SIZEOF_ETHER_HDR; lia|].
  allow_step (w32 (buf m) 30); [apply allows_lift, ld32_ok; unfold IPV4_DST_ADDR, SIZEOF_ETHER_HDR; lia|].
  allow_step (getz (buf m) 23);
    [apply allows_lift, ld8_ok; unfold IPV4_NEXT_PROTO_ID, SIZEOF_ETHER_HDR; lia|].
  allow_step (r, st1); [exact Hg|].
  allow_step (Some x, st2).
  { destruct r as [y|]; [destruct Hr as [-> ->]; apply allows_ret|exact Hr]. }
  allow_step (dev, m'); [by apply allows_lift|].
  allow_step dev; [by apply exactly_allows, concretize_exactly|apply allows_ret].
Qed.

Lemma handle_external_always st i m now :
  config_ok config n_devices → 52 <= zlen (buf m) → sym_start config n_devices st i →
  always (handle_external config c1 c2 c3 n_devices st m now SIZEOF_ETHER_HDR (ports_at (buf m))) (λ _, True).
Proof.
  intros Hcfg Hl Hs. pose proof (land15_bound (getz (buf m) 14)) as Hi. unfold handle_external.
  always_step (λ _ : Z, True).
  { apply (always_lift _ (w16 (buf m) (ports_at (buf m) + TCPUDP_DST_PORT))); [|done].
    apply ld16_ok; unfold ports_at, TCPUDP_DST_PORT; lia. }
  intros dst _. cbn beta. eapply always_bind; [by apply (get_external_always config n_devices st i)|].
  intros [[f|] st1] Hf; cbn [fst] in Hf; [|by apply always_ret].
  destruct (emit_to_lan config n_devices c1 c2 c3 Hcfg m f Hl) as (dev & m' & E & [Hd _]); [apply Hf|].
  always_step (λ r : Z * mbuf, r = (dev, m')); [by apply (always_lift _ (dev, m'))|].
  intros _ ->. eapply exactly_always; [|done].
  exact_step dev; [apply concretize_exactly; rewrite Hd; apply Hf|apply exactly_ret].
Qed.

Lemma handle_internal_always st i m now :
  config_ok config n_devices → mbuf_ok n_devices m → sym_start config n_devices st i →
  port m ≠ wan_device config →
  always (handle_internal config c1 c2 c3 n_devices st m now SIZEOF_ETHER_HDR (ports_at (buf m)))
    (λ r, r.1.1 = wan_device config).
Proof.
  intros Hcfg [Hp Hl] Hs Hw. pose proof (land15_bound (getz (buf m) 14)) as Hi.
  unfold handle_internal.
  eapply always_bind; [apply always_total; eexists; apply ld16_ok; unfold ports_at, TCPUDP_SRC_PORT; lia|]. intros sp _. cbn beta.
  eapply always_bind; [apply always_total; eexists; apply ld16_ok; unfold ports_at, TCPUDP_DST_PORT; lia|]. intros dp _. cbn beta.
  eapply always_bind; [apply always_total; eexists; apply ld32_ok; unfold IPV4_SRC_ADDR, SIZEOF_ETHER_HDR; lia|]. intros sa _. cbn beta.
  eapply always_bind; [apply always_total; eexists; apply ld32_ok; unfold IPV4_DST_ADDR, SIZEOF_ETHER_HDR; lia|]. intros da _. cbn beta.
  eapply always_bind; [apply always_total; eexists; apply ld8_ok; unfold IPV4_NEXT_PROTO_ID, SIZEOF_ETHER_HDR; lia|]. intros proto _. cbn beta zeta.
  set (id := mk_flowid sp dp sa da (port m) proto).
  assert (Hid : consistent config n_devices id) by done.
  pose proof (get_internal_always config n_devices st i id now Hs Hid) as Hget.
  apply (always_ext _ (r ← ('(r, st) ← flow_manager_get_internal st id now;
     match r with
     | Some external_port => mret (Some external_port, st)
     | None => flow_manager_allocate_flow st id now
     end);
     let '(r, st) := r in
     match r with
     | Some external_port =>
         '(dev, m) ← lift (
           b ← st32 (buf m) (14 + IPV4_SRC_ADDR) (external_addr config);
           b ← st16 b (ports_at (buf m) + TCPUDP_SRC_PORT) external_port;
           nat_emit config c1 c2 c3 m b 0 14 (wan_device config));
         dev ← concretize_devices dev n_devices;
         mret (dev, m, st)
     | None => mret (port m, m, st)
     end)).
  { intros c. cbv [mbind sym_bind].
    by destruct (flow_manager_get_internal st id now c) as [[r st1] rest| |]. }
  eapply always_bind; [exact Hget|]. intros [r st1] [x Hx]. cbn [fst] in Hx. subst r.
  destruct (emit_to_wan config n_devices c1 c2 c3 Hcfg m (u16 x) Hl (u16_bound x))
    as (dev & m' & E & Hem).
  always_step (λ r : Z * mbuf, r = (dev, m')); [by apply (always_lift _ (dev, m'))|].
  intros _ ->. destruct Hem as [-> _].
  always_step (λ d, d = wan_device config);
    [by eapply exactly_always; [apply concretize_exactly, Hcfg|]|]. intros _ ->. by apply always_ret.
Qed.

(** ** The claims

    The models of a NAT in a given state: the containers hold anything, the constants
    are those of the NAT. *)
Definition models_of manager ch st : Prop :=
  sym_ready config n_devices st ∧ start_port st = Nat.start_port (state manager) ∧
  max_flows st = dchain_index_range_fp ch.

(** Every flow comes from inside: an invariant of the NAT ([from_inside_kept]). *)
Definition from_inside manager ch : Prop :=
  ∀ e, e ∈ flows manager ch → internal_device e.1.1 ≠ wan_device config.

(** A packet of a new flow that finds no free index. *)
Definition table_full manager ch m now : Prop :=
  let es := unexpired (expiration_time manager) now (flows manager ch) in
  ∃ id, classify config m = Internal id ∧ id ∉ keys_of es ∧ zlen es = dchain_index_range_fp ch.

Section steps.
Variables (manager : FlowManager M) (ch : dchain) (m : mbuf) (now : Z) (st : State).
Hypothesis Hcfg : config_ok config n_devices.
Hypothesis Hinv : nat_inv n_devices manager ch.
Hypothesis Hm : mbuf_ok n_devices m.
Hypothesis Hnow : 0 <= now < 2 ^ 63.
Hypothesis Hhigh : dchain_high_fp ch <= now.

Lemma flow_at i :
  i ∈ dchain_indexes_fp ch → ∃ t, (getz (Vector.data (Nat.fv (state manager))) i, i, t) ∈ flows manager ch.
Proof.
  intros Hi. destruct (table_lookup (v := Nat.fv (state manager)) i Hi) as (l1 & t & l2 & E & _).
  exists t. unfold flows. rewrite E. apply elem_of_app. right. by left.
Qed.

(** The invariant holds of an empty table, and packets keep it. *)
Lemma from_inside_kept dev m' manager' :
  from_inside manager ch → port_in_range config manager ch m →
  real_process config c1 c2 c3 manager m now = Ok (dev, m', manager') →
  ∃ ch', nat_inv n_devices manager' ch' ∧ from_inside manager' ch'.
Proof.
  intros Hin Hport E. destruct (nat_process_spec config n_devices c1 c2 c3 Hcfg manager ch m now
    Hinv Hm Hnow Hhigh Hport) as (dev1 & m1 & mgr1 & ch1 & out & E1 & Hinv1 & _ & _ & _ & Hstep & _).
  rewrite E in E1. injection E1 as <- <- <-. exists ch1. split; [done|].
  assert (Hold : ∀ e, e ∈ unexpired (expiration_time manager) now (flows manager ch) →
    internal_device e.1.1 ≠ wan_device config).
  { intros e He. apply Hin. unfold unexpired in He. by apply list_elem_of_In, filter_In in He as [?%list_elem_of_In _]. }
  remember (unexpired (expiration_time manager) now (flows manager ch)) as es eqn:Ees. clear Ees.
  unfold from_inside. revert Hstep. unfold classify.
  destruct (is_tcpudp (buf m)); [|by inversion 1; subst].
  destruct (Z.eqb_spec (port m) (wan_device config)) as [Hw|Hw]; inversion 1; subst; try done.
  - intros e [[He|He]%elem_of_app| ->%list_elem_of_singleton]%elem_of_app.
    + apply Hold. apply elem_of_app. by left.
    + apply Hold. apply elem_of_app. right. by right.
    + apply (Hold (id, w16 (buf m) (ports_at (buf m) + TCPUDP_DST_PORT) - Nat.start_port (state manager), t)).
      apply elem_of_app. right. by left.
  - intros e [[He|He]%elem_of_app| ->%list_elem_of_singleton]%elem_of_app; [| |done].
    + apply Hold. apply elem_of_app. by left.
    + apply Hold. apply elem_of_app. right. by right.
  - intros e [He| ->%list_elem_of_singleton]%elem_of_app; [by apply Hold|done].
Qed.

(** The start of the real handler. *)
Lemma real_start :
  ∃ manager1 ch1, Nat.flow_manager_expire manager now = Ok manager1 ∧
    nat_inv n_devices manager1 ch1 ∧ dchain_high_fp ch1 <= now ∧
    dchain_index_range_fp ch1 = dchain_index_range_fp ch ∧
    Nat.start_port (state manager1) = Nat.start_port (state manager) ∧
    flows manager1 ch1 = unexpired (expiration_time manager) now (flows manager ch).
Proof.
  destruct (nat_expire_spec n_devices manager ch now Hinv Hnow) as (manager1 & E & Hinv1 & Hsame & Hv).
  eexists manager1, _. split; [exact E|]. split; [exact Hinv1|]. split; [done|]. split; [done|].
  split; [apply Hsame|]. unfold flows. rewrite Hv.
  by apply (table_expire _ _ _ _ _ (ni_co _ _ _ Hinv)).
Qed.

Lemma from_inside_expired (manager1 : FlowManager M) ch1 :
  flows manager1 ch1 = unexpired (expiration_time manager) now (flows manager ch) →
  from_inside manager ch → from_inside manager1 ch1.
Proof.
  intros E Hin e He. rewrite E in He. apply Hin. unfold unexpired in He.
  by apply list_elem_of_In, filter_In in He as [?%list_elem_of_In _].
Qed.
End steps.

(** The flow at an index that is in use is one the models may make up. *)
Lemma flow_consistent manager ch i :
  nat_inv n_devices manager ch → from_inside manager ch → i ∈ dchain_indexes_fp ch →
  consistent config n_devices (getz (Vector.data (Nat.fv (state manager))) i).
Proof.
  intros Hinv Hin Hi. split; [by apply (ni_dev _ _ _ Hinv)|].
  destruct (flow_at manager ch i Hi) as [t Ht]. exact (Hin _ Ht).
Qed.

Lemma covers_external (manager1 : FlowManager M) ch1 m now st :
  config_ok config n_devices → nat_inv n_devices manager1 ch1 → mbuf_ok n_devices m →
  0 <= now → dchain_high_fp ch1 <= now → from_inside manager1 ch1 →
  sym_ready config n_devices st → start_port st = Nat.start_port (state manager1) →
  max_flows st = dchain_index_range_fp ch1 →
  let dport := w16 (buf m) (ports_at (buf m) + TCPUDP_DST_PORT) in
  0 <= dport - Nat.start_port (state manager1) < dchain_index_range_fp ch1 →
  ∃ dev m' manager' mem st1 st',
    ('(r, manager) ← Nat.flow_manager_get_external manager1 dport now;
     match r with
     | Some internal_flow =>
         b ← st32 (buf m) (14 + IPV4_DST_ADDR) (src_ip internal_flow);
         b ← st16 b (ports_at (buf m) + TCPUDP_DST_PORT) (src_port internal_flow);
         '(dev, m) ← nat_emit config c1 c2 c3 m b 0 14 (internal_device internal_flow);
         Ok (dev, m, manager)
     | None => Ok (port m, m, manager)
     end) = Ok (dev, m', manager') ∧
    allows (st1 ← loop_reset st mem; flow_manager_expire st1 now) st1 ∧
    allows (handle_external config c1 c2 c3 n_devices st1 m now SIZEOF_ETHER_HDR (ports_at (buf m)))
      (dev, m', st').
Proof.
  intros Hcfg Hinv [Hp Hl] Hnow Hhigh Hin Hst Hport Hmax dport Hrange.
  pose proof (flow_manager_get_external_spec n_devices manager1 ch1 dport now Hinv Hhigh Hrange) as Hget.
  set (i := dport - Nat.start_port (state manager1)) in *.
  destruct (dchain_allocated_fp ch1 i) eqn:Ha.
  - destruct Hget as (manager' & -> & _). apply dchain_allocated_spec in Ha.
    pose proof (flow_consistent manager1 ch1 i Hinv Hin Ha) as Hc.
    set (f := getz (Vector.data (Nat.fv (state manager1))) i) in *.
    destruct (start_allows config n_devices st [f] 0 now Hst) as (st1 & Hstart & Hs1 & _ & Hd1);
      [done|lia|done|].
    destruct (get_external_used config n_devices st1 0 dport now Hs1) as (st2 & Hg); [by rewrite Hd1|].
    rewrite Hd1 in Hg.
    destruct (emit_to_lan config n_devices c1 c2 c3 Hcfg m f Hl) as (dev & m' & E & [Hd _]); [apply Hc|].
    exists dev, m', manager', [f], st1, st2. split; [|split; [exact Hstart|]].
    + rewrite bind_Ok. by apply real_emit.
    + eapply handle_external_allows; [done|exact Hg|]. split; [exact E|rewrite Hd; apply Hc].
  - rewrite Hget, bind_Ok.
    destruct (start_allows config n_devices st [mk_flowid 0 0 0 0 0 0] 0 now Hst)
      as (st1 & Hstart & Hs1 & _); [done|lia|done|].
    eexists (port m), m, manager1, _, st1, st1. split; [done|]. split; [exact Hstart|].
    eapply handle_external_allows; [done|apply get_external_unused|done].
Qed.

Lemma covers_internal (manager1 : FlowManager M) ch1 m now st :
  config_ok config n_devices → nat_inv n_devices manager1 ch1 → mbuf_ok n_devices m →
  0 <= now → dchain_high_fp ch1 <= now →
  sym_ready config n_devices st → start_port st = Nat.start_port (state manager1) →
  max_flows st = dchain_index_range_fp ch1 → port m ≠ wan_device config →
  let id := mk_flowid (w16 (buf m) (ports_at (buf m) + TCPUDP_SRC_PORT))
    (w16 (buf m) (ports_at (buf m) + TCPUDP_DST_PORT)) (w32 (buf m) 26) (w32 (buf m) 30)
    (port m) (getz (buf m) 23) in
  ¬ (id ∉ keys_of (flows manager1 ch1) ∧ zlen (flows manager1 ch1) = dchain_index_range_fp ch1) →
  ∃ dev m' manager' mem st1 st',
    ('(r, manager) ← Nat.flow_manager_get_internal manager1 id now;
     '(r, manager) ← (match r with
                      | Some external_port => Ok (Some external_port, manager)
                      | None => Nat.flow_manager_allocate_flow manager id (port m) now
                      end);
     match r with
     | Some external_port =>
         b ← st32 (buf m) (14 + IPV4_SRC_ADDR) (external_addr config);
         b ← st16 b (ports_at (buf m) + TCPUDP_SRC_PORT) external_port;
         '(dev, m) ← nat_emit config c1 c2 c3 m b 0 14 (wan_device config);
         Ok (dev, m, manager)
     | None => Ok (port m, m, manager)
     end) = Ok (dev, m', manager') ∧
    allows (st1 ← loop_reset st mem; flow_manager_expire st1 now) st1 ∧
    allows (handle_internal config c1 c2 c3 n_devices st1 m now SIZEOF_ETHER_HDR (ports_at (buf m)))
      (dev, m', st').
Proof.
  intros Hcfg Hinv [Hp Hl] Hnow Hhigh Hst Hport Hmax Hw id Hfull.
  pose proof (ni_co _ _ _ Hinv) as Hco. pose proof (sr_range _ _ _ Hst) as Hrange.
  assert (Hid : consistent config n_devices id) by done.
  pose proof (flow_manager_get_internal_spec n_devices manager1 ch1 id now Hinv Hhigh) as Hget.
  destruct (index_of (Nat.fv (state manager1)) ch1 id) as [i|] eqn:Hidx.
  - destruct Hget as (manager' & -> & _). rewrite !bind_Ok.
    apply (index_of_Some Hco) in Hidx as [Hi _]. pose proof (co_range Hco i Hi) as Hri.
    destruct (start_allows config n_devices st [id] 0 now Hst) as (st1 & Hstart & Hs1 & Hp1 & _);
      [done|lia|done|].
    destruct (get_internal_known config n_devices st1 0 id now i Hs1) as (st2 & Hg); [lia|].
    rewrite Hp1, Hport, Z.add_comm in Hg.
    destruct (emit_to_wan config n_devices c1 c2 c3 Hcfg m _ Hl
      (u16_bound (Nat.start_port (state manager1) + i))) as (dev & m' & E & [Hd _]).
    exists dev, m', manager', [id], st1, st2. split; [by apply real_emit|]. split; [exact Hstart|].
    eapply handle_internal_allows; [done|exact Hg|done|exact E|rewrite Hd; apply Hcfg].
  - rewrite Hget, bind_Ok.
    pose proof (nat_allocate_flow_spec n_devices manager1 ch1 id (port m) now Hinv Hhigh Hidx Hp) as Hal.
    destruct (dchain_out_of_space_fp ch1) eqn:Hout.
    { exfalso. apply Hfull. split.
      - unfold keys_of, flows. rewrite (table_key Hco), Hidx. by intros [].
      - unfold flows. etransitivity; [apply table_len|].
        pose proof (double_chainp_len (co_chain _ _ _ _ Hco)).
        unfold dchain_out_of_space_fp in Hout. apply Z.leb_le in Hout. lia. }
    destruct Hal as (i & manager' & -> & Hi & _). rewrite bind_Ok.
    destruct (start_allows config n_devices st [id] i now Hst) as (st1 & Hstart & Hs1 & Hp1 & Hd1);
      [done|lia|done|].
    destruct (get_internal_new config n_devices st1 i id now Hs1 Hid) as (st2 & st3 & Hg & Hn);
      [by rewrite Hd1|].
    rewrite Hp1, Hport in Hn.
    destruct (emit_to_wan config n_devices c1 c2 c3 Hcfg m _ Hl
      (u16_bound (Nat.start_port (state manager1) + i))) as (dev & m' & E & [Hd _]).
    exists dev, m', manager', [id], st1, st3. split; [by apply real_emit|]. split; [exact Hstart|].
    eapply handle_internal_allows; [done|exact Hg|exact Hn|exact E|rewrite Hd; apply Hcfg].
Qed.

(** C7: The symbolic execution covers the NAT: for every packet the NAT handles, in any
    state whose flows come from inside, some path through the same handler on the
    models of the containers ends with the device and the packet the NAT ends with;
    unless the packet is of a new flow and finds the table full. *)
Theorem nat_symbex_covers manager ch m now st :
  config_ok config n_devices → nat_inv n_devices manager ch → mbuf_ok n_devices m →
  0 <= now < 2 ^ 63 → dchain_high_fp ch <= now → port_in_range config manager ch m →
  from_inside manager ch → models_of manager ch st → ¬ table_full manager ch m now →
  ∃ dev m' manager' mem st',
    real_process config c1 c2 c3 manager m now = Ok (dev, m', manager') ∧
    allows (iteration config c1 c2 c3 n_devices st mem m now) (dev, m', st').
Proof.
  intros Hcfg Hinv Hm Hnow Hhigh Hport Hin (Hst & Hsp & Hmax) Hfull.
  destruct (real_start manager ch now Hinv Hnow Hhigh)
    as (manager1 & ch1 & E1 & Hinv1 & Hh1 & Hr1 & Hsp1 & Hf1).
  pose proof (from_inside_expired manager ch now manager1 ch1 Hf1 Hin) as Hin1.
  unfold table_full in Hfull. cbv zeta in Hfull. rewrite <- Hf1, <- Hr1 in Hfull.
  rewrite <- Hsp1 in Hsp. rewrite <- Hr1 in Hmax.
  assert (Hbody : ∃ dev m' manager' mem st1 st',
    real_process config c1 c2 c3 manager m now = Ok (dev, m', manager') ∧
    allows (st1 ← loop_reset st mem; flow_manager_expire st1 now) st1 ∧
    allows (branch st1 m now) (dev, m', st')).
  { unfold real_process. rewrite E1, bind_Ok.
    rewrite (parse_headers m _ (Ok (port m, m, manager1))) by apply Hm.
    unfold branch, port_in_range, classify in *. pose proof (land15_bound (getz (buf m) 14)).
    destruct (is_tcpudp (buf m)).
    - destruct (Z.eqb_spec (port m) (wan_device config)) as [Hw|Hw].
      + rewrite ld16_ok by (unfold ports_at, TCPUDP_DST_PORT; destruct Hm; lia). rewrite bind_Ok.
        rewrite <- Hsp1, <- Hr1 in Hport.
        exact (covers_external manager1 ch1 m now st Hcfg Hinv1 Hm (proj1 Hnow) Hh1 Hin1 Hst Hsp
          Hmax Hport).
      + rewrite !ld16_ok, !ld32_ok, ld8_ok
          by (unfold ports_at, IPV4_SRC_ADDR, IPV4_DST_ADDR, IPV4_NEXT_PROTO_ID, SIZEOF_ETHER_HDR,
              TCPUDP_DST_PORT, TCPUDP_SRC_PORT; destruct Hm; lia).
        rewrite !bind_Ok.
        apply (covers_internal manager1 ch1 m now st Hcfg Hinv1 Hm (proj1 Hnow) Hh1 Hst Hsp Hmax Hw).
        intros Hno. apply Hfull. eexists. split; [done|exact Hno].
    - destruct (start_allows config n_devices st [mk_flowid 0 0 0 0 0 0] 0 now Hst)
        as (st1 & Hs & _); [done|pose proof (sr_range _ _ _ Hst); lia|lia|].
      eexists (port m), m, manager1, _, st1, st1. split; [done|]. split; [exact Hs|apply allows_ret]. }
  destruct Hbody as (dev & m' & manager' & mem & st1 & st' & E & Hs & Hb).
  exists dev, m', manager', mem, st'. split; [exact E|].
  eapply allows_ext; [intros c; apply iteration_body, Hm|].
  eapply allows_bind; [exact Hs|exact Hb].
Qed.

Lemma iteration_always st mem m now :
  config_ok config n_devices → mbuf_ok n_devices m → 0 <= now → sym_ready config n_devices st →
  0 < zlen mem →
  always (iteration config c1 c2 c3 n_devices st mem m now) (λ r,
    is_tcpudp (buf m) = true → port m ≠ wan_device config → r.1.1 = wan_device config).
Proof.
  intros Hcfg Hm Hnow Hst Hmem. eapply always_ext; [intros c; apply iteration_body, Hm|].
  eapply always_bind; [by apply (start_always config n_devices)|]. intros st1 (i & Hs & _).
  cbn beta. unfold branch. destruct (is_tcpudp (buf m)); [|by apply always_ret].
  destruct (Z.eqb_spec (port m) (wan_device config)) as [Hw|Hw].
  - eapply always_mono; [by apply (handle_external_always st1 i), Hs; [|apply Hm]|done].
  - eapply always_mono; [by apply (handle_internal_always st1 i)|]. cbn beta. auto.
Qed.

(** The NAT with a full table. *)
Lemma real_full manager ch m now id :
  nat_inv n_devices manager ch → mbuf_ok n_devices m → 0 <= now < 2 ^ 63 →
  dchain_high_fp ch <= now → is_tcpudp (buf m) = true → port m ≠ wan_device config →
  mk_flowid (w16 (buf m) (ports_at (buf m) + TCPUDP_SRC_PORT))
    (w16 (buf m) (ports_at (buf m) + TCPUDP_DST_PORT)) (w32 (buf m) 26) (w32 (buf m) 30)
    (port m) (getz (buf m) 23) = id →
  id ∉ keys_of (unexpired (expiration_time manager) now (flows manager ch)) →
  zlen (unexpired (expiration_time manager) now (flows manager ch)) = dchain_index_range_fp ch →
  ∃ manager', real_process config c1 c2 c3 manager m now = Ok (port m, m, manager').
Proof.
  intros Hinv Hm Hnow Hhigh Htu Hw Hid Hn Hlen.
  destruct (real_start manager ch now Hinv Hnow Hhigh)
    as (manager1 & ch1 & E1 & Hinv1 & Hh1 & Hr1 & _ & Hf1).
  rewrite <- Hf1 in Hn, Hlen. rewrite <- Hr1 in Hlen. pose proof (ni_co _ _ _ Hinv1) as Hco.
  unfold real_process. rewrite E1, bind_Ok.
  rewrite (parse_headers m _ (Ok (port m, m, manager1))) by apply Hm. rewrite Htu.
  rewrite (proj2 (Z.eqb_neq (port m) (wan_device config))) by done.
  pose proof (land15_bound (getz (buf m) 14)) as Hi.
  rewrite !ld16_ok, !ld32_ok, ld8_ok
    by (unfold ports_at, IPV4_SRC_ADDR, IPV4_DST_ADDR, IPV4_NEXT_PROTO_ID, SIZEOF_ETHER_HDR,
        TCPUDP_DST_PORT, TCPUDP_SRC_PORT; destruct Hm; lia).
  rewrite !bind_Ok.
  change (w32 (buf m) (SIZEOF_ETHER_HDR + IPV4_SRC_ADDR)) with (w32 (buf m) 26).
  change (w32 (buf m) (SIZEOF_ETHER_HDR + IPV4_DST_ADDR)) with (w32 (buf m) 30).
  change (getz (buf m) (SIZEOF_ETHER_HDR + IPV4_NEXT_PROTO_ID)) with (getz (buf m) 23).
  rewrite Hid.
  assert (Hidx : index_of (Nat.fv (state manager1)) ch1 id = None).
  { destruct (index_of (Nat.fv (state manager1)) ch1 id) as [i|] eqn:E; [|done]. exfalso.
    apply Hn. unfold keys_of, flows. rewrite (table_key Hco), E. by eexists. }
  pose proof (flow_manager_get_internal_spec n_devices manager1 ch1 id now Hinv1 Hh1) as Hget.
  rewrite Hidx in Hget. rewrite Hget, bind_Ok.
  assert (Hdev : 0 <= internal_device id < n_devices) by (rewrite <- Hid; apply Hm).
  pose proof (nat_allocate_flow_spec n_devices manager1 ch1 id (port m) now Hinv1 Hh1 Hidx Hdev) as Hal.
  assert (dchain_out_of_space_fp ch1 = true) as Hout.
  { unfold dchain_out_of_space_fp. apply Z.leb_le.
    assert (zlen (flows manager1 ch1) = zlen (dchain_alist_fp ch1)) as <- by apply table_len. lia. }
  rewrite Hout in Hal. rewrite Hal, bind_Ok. by exists manager1.
Qed.

(** C8: What the symbolic execution misses: no path covers a packet that finds the table
    full. The NAT gives such a packet back to its device; on every path the packet is
    sent out, since the model of the expirator makes room in the chain even when
    nothing expired. *)
Theorem nat_symbex_misses_full_table manager ch m now st mem :
  config_ok config n_devices → nat_inv n_devices manager ch → mbuf_ok n_devices m →
  0 <= now < 2 ^ 63 → dchain_high_fp ch <= now → models_of manager ch st → 0 < zlen mem →
  table_full manager ch m now →
  (∃ manager', real_process config c1 c2 c3 manager m now = Ok (port m, m, manager')) ∧
  always (iteration config c1 c2 c3 n_devices st mem m now)
    (λ r, r.1.1 = wan_device config ∧ r.1.1 ≠ port m).
Proof.
  intros Hcfg Hinv Hm Hnow Hhigh (Hst & _) Hmem (id & Hcl & Hn & Hlen).
  unfold classify in Hcl. destruct (is_tcpudp (buf m)) eqn:Htu; [|done].
  destruct (Z.eqb_spec (port m) (wan_device config)) as [Hw|Hw]; [done|]. injection Hcl as Hid.
  split.
  - by apply (real_full manager ch m now id).
  - eapply always_mono; [apply iteration_always; [done|done|lia|exact Hst|exact Hmem]|].
    intros r Hr. rewrite Hr by done. by split; [|apply not_eq_sym].
Qed.

(** C19: No assertion of the handler or of the models fails, and no access is out of
    bounds, on any path and for any packet: the symbolic execution of the NAT finds
    nothing. That includes packets from outside to a port the NAT never hands out, for
    which the NAT itself reads outside of the cells of its chain: the model of
    [dchain_is_index_allocated] does not check the index. *)
Theorem nat_symbex_finds_nothing manager ch m now st mem :
  config_ok config n_devices → nat_inv n_devices manager ch → mbuf_ok n_devices m →
  0 <= now < 2 ^ 63 → dchain_high_fp ch <= now → models_of manager ch st → 0 < zlen mem →
  always (iteration config c1 c2 c3 n_devices st mem m now) (λ _, True) ∧
  ∀ dport, classify config m = External dport →
    Nat.start_port (state manager) + dchain_index_range_fp ch <= dport ∨
      dport < Nat.start_port (state manager) - 2 →
    real_process config c1 c2 c3 manager m now = Err OutOfBounds.
Proof.
  intros Hcfg Hinv Hm Hnow Hhigh (Hst & _) Hmem. split.
  { eapply always_mono; [apply iteration_always; [done|done|lia|exact Hst|exact Hmem]|done]. }
  intros dport Hcl Hd.
  destruct (real_start manager ch now Hinv Hnow Hhigh)
    as (manager1 & ch1 & E1 & [Hco _ _] & _ & Hr1 & Hsp1 & _).
  unfold real_process. rewrite E1, bind_Ok. rewrite (parse_headers m _ (Ok (port m, m, manager1))) by apply Hm.
  unfold classify in Hcl. destruct (is_tcpudp (buf m)); [|done].
  destruct (port m =? wan_device config); [|done]. injection Hcl as Hport.
  pose proof (land15_bound (getz (buf m) 14)) as Hi.
  rewrite ld16_ok by (unfold ports_at, TCPUDP_DST_PORT; destruct Hm; lia). rewrite bind_Ok, Hport.
  unfold Nat.flow_manager_get_external, dchain_is_index_allocated, dchain_impl_is_index_allocated,
    INDEX_SHIFT, DCHAIN_RESERVED.
  pose proof (double_chainp_cells (co_chain _ _ _ _ Hco)) as Hl. unfold DCHAIN_RESERVED in Hl.
  rewrite rd_err by lia. done.
Qed.
End packet.

(** *** A small instance *)
Definition small_models (cap : Z) : State :=
  mk_state (MapStub.fresh_map FlowId_eq cap 0)
    (VectorStub.mk_vector [] 0 [0; 0; 0] (Some (flow_consistency 2 1)) false)
    (DChainStub.mk_chain 0 0) cap 1000 16777226 1.

Lemma small_ready cap : 0 < cap < 2 ^ 31 → sym_ready small_config 2 (small_models cap).
Proof. intros Hc. split; try done. split; [done|exact FlowId_eq_spec|cbn; lia]. Qed.

Definition small_iteration cap :=
  iteration small_config no_cksum3 no_cksum2 no_cksum3 2 (small_models cap).

(** A NAT for one flow. *)
Definition tiny_nat : FlowManager (Map (ptr FlowId) FlowId) :=
  mk_manager (Nat.mk_state (fresh_map 1 FlowId_eq FlowId_hash) (fresh_vector 1) (fresh_chain 1)
                1 1000 16777226 1) 100.

Lemma tiny_nat_ok : nat_inv 2 tiny_nat (empty_dchain_fp 1 0).
Proof.
  split; [|by intros i ?%elem_of_nil|done].
  apply (fresh_coherent 1 FlowId_eq FlowId_hash 0); [lia|done|apply FlowId_eq_spec].
Qed.

Lemma nat_symbex_covers_witness :
  ∃ dev m' manager' mem st', small_process small_nat request 10 = Ok (dev, m', manager') ∧
    allows (small_iteration 4 mem request 10) (dev, m', st').
Proof.
  apply (nat_symbex_covers small_config 2 no_cksum3 no_cksum2 no_cksum3 small_nat
    (empty_dchain_fp 4 0) request 10 (small_models 4)).
  - exact small_nat_config_ok.
  - exact small_nat_ok.
  - split; done.
  - lia.
  - cbn. lia.
  - exact I.
  - intros e He. by apply elem_of_nil in He.
  - split; [apply small_ready; lia|]. split; reflexivity.
  - intros (id & _ & _ & Hlen). discriminate Hlen.
Defined.

Lemma nat_symbex_misses_full_table_witness :
  ∃ manager : FlowManager (Map (ptr FlowId) FlowId),
    (∃ manager', small_process manager request2 20 = Ok (0, request2, manager')) ∧
    always (small_iteration 1 [mk_flowid 0 0 0 0 0 0] request2 20) (λ r, r.1.1 = 1 ∧ r.1.1 ≠ 0).
Proof.
  destruct (nat_process_spec small_config 2 no_cksum3 no_cksum2 no_cksum3 small_nat_config_ok
    tiny_nat (empty_dchain_fp 1 0) request 10 tiny_nat_ok)
    as (dev & m' & manager & ch & out & _ & Hinv & (Hsp & _ & Hexp) & Hhigh & Hr & Hstep & _).
  { split; done. } { lia. } { cbn. lia. } { exact I. }
  exists manager.
  apply (nat_symbex_misses_full_table small_config 2 no_cksum3 no_cksum2 no_cksum3 manager ch
    request2 20 (small_models 1) [mk_flowid 0 0 0 0 0 0]).
  - exact small_nat_config_ok.
  - exact Hinv.
  - split; done.
  - lia.
  - lia.
  - split; [apply small_ready; lia|]. split; [symmetry; exact Hsp|symmetry; exact Hr].
  - done.
  - unfold table_full. cbv zeta. rewrite Hexp, Hr.
    change (unexpired (expiration_time tiny_nat) 10 (flows tiny_nat (empty_dchain_fp 1 0)))
      with (@nil entry) in Hstep.
    change (classify small_config request) with (Internal (flow_of request)) in Hstep.
    exists (flow_of request2). split; [reflexivity|].
    inversion Hstep; try match goal with Hl : [] = ?l ++ _ :: _ |- _ => by destruct l end.
    + split; [|done]. by intros ?%list_elem_of_singleton.
    + done.
Defined.

Lemma nat_symbex_finds_nothing_witness :
  let stray := small_packet 1 [3; 4; 232; 4] [8; 8; 8; 8] [10; 0; 0; 1] in
  always (small_iteration 4 [mk_flowid 0 0 0 0 0 0] stray 10) (λ _, True) ∧
  small_process small_nat stray 10 = Err OutOfBounds.
Proof.
  intros stray.
  destruct (nat_symbex_finds_nothing small_config 2 no_cksum3 no_cksum2 no_cksum3 small_nat
    (empty_dchain_fp 4 0) stray 10 (small_models 4) [mk_flowid 0 0 0 0 0 0]) as [Hall Hreal].
  - exact small_nat_config_ok.
  - exact small_nat_ok.
  - split; done.
  - lia.
  - cbn. lia.
  - split; [apply small_ready; lia|]. split; reflexivity.
  - done.
  - split; [exact Hall|]. apply (Hreal 1256); [reflexivity|]. left. cbn. lia.
Defined.
End Symbex.
