(* ===== verification/Router.v ===== *)
(** * The router and the LPM forwarder: [router/] and [lpm/]

    Two network functions without state. The router forwards between two devices
    and processes the time stamp option of IPv4 ([router_options.c]); the
    forwarder asks a longest-prefix-match table of DPDK, a parameter here, for the
    device. Both use the configuration of the NAT. *)

From S2P Require Import Prelude.
From S2P Require Import NfUtil.
From S2P Require Import Nat.
From S2P Require Import MainLoop.

(** ** [handle_packet_timestamp] *)
Definition st8 (b : list Z) (off v : Z) : res (list Z) := wr b off (u8 v).

Definition OPT_END : Z := 0.
Definition OPT_NOP : Z := 1.
Definition OPT_TIMESTAMP : Z := 68.

(** The loop, from the option at [p] on; the result says whether to keep the
    packet, and is the buffer as it is then. The count of bytes the loop tests is
    never changed, so the only ways out are the returns and the [break]. *)
Fixpoint options_loop (fuel : nat) (b : list Z) (p router_ip current_milliseconds_utc : Z)
    : res (bool * list Z) :=
  match fuel with
  | O => Err NoFuel
  | S fuel' =>
      let continue b p := options_loop fuel' b p router_ip current_milliseconds_utc in
      opt_type ← ld8 b p;
      let p := p + 1 in
      if opt_type =? OPT_END then Ok (true, b)
      else if opt_type =? OPT_NOP then continue b p
      else
        opt_length ← ld8 b p;
        let p := p + 1 in
        if negb (opt_type =? OPT_TIMESTAMP) then continue b (p + (opt_length - 2))
        else
          let timestamp_pointer_ptr := p in
          timestamp_pointer ← ld8 b p;
          let p := p + 1 in
          x ← ld8 b p;
          if opt_length <? timestamp_pointer then
            let timestamp_overflow := Z.shiftr (Z.land x 240) 4 in
            if timestamp_overflow =? 15 then Ok (false, b)
            else
              let timestamp_flag := Z.land x 15 in
              b ← st8 b p (Z.shiftl (timestamp_overflow + 1) 4 + timestamp_flag);
              let p := p + 1 in
              y ← ld8 b p;
              b ← st8 b p (y + (opt_length - 2 - 2));
              continue b p
          else
            let timestamp_flag := Z.land x 15 in
            let p := p + 1 in
            let remaining_length := u8 (opt_length - (timestamp_pointer - 1)) in
            let required_length := if timestamp_flag =? 0 then 4 else 8 in
            if remaining_length <? required_length then Ok (false, b)
            else
              let p := p + (timestamp_pointer - 5) in
              let write b timestamp_bytes :=
                b ← st32 b timestamp_bytes current_milliseconds_utc;
                z ← ld8 b timestamp_pointer_ptr;
                b ← st8 b timestamp_pointer_ptr (z + required_length);
                continue b (timestamp_pointer_ptr + opt_length - 2) in
              if timestamp_flag =? 3 then
                addr ← ld32 b p;
                if negb (addr =? router_ip) then continue b p
                else write b (p + 4)
              else if timestamp_flag =? 1 then
                b ← st32 b p router_ip;
                write b (p + 4)
              else write b p
  end.

Definition handle_packet_timestamp (fuel : nat) (b : list Z)
    (header router_ip current_milliseconds_utc : Z) : res (bool * list Z) :=
  version_ihl ← ld8 b (header + IPV4_VERSION_IHL);
  let options_length := u8 (Z.land version_ihl 15 - 5) in
  let options_bytes := header + 20 in
  let options_bytes_count := u8 (options_length * 4) in
  if 0 <? options_bytes_count then
    options_loop fuel b options_bytes router_ip current_milliseconds_utc
  else Ok (true, b).

(** The ethernet addresses for a device, as both programs write them. *)
Definition l2_forward (config : nat_config) (m : mbuf) (b : list Z) (dst_device : Z)
    : res (Z * mbuf) :=
  s_addr ← rd (device_macs config) dst_device;
  b ← st_bytes b ETHER_S_ADDR s_addr;
  d_addr ← rd (endpoint_macs config) dst_device;
  b ← st_bytes b ETHER_D_ADDR d_addr;
  Ok (dst_device, mk_mbuf (port m) (pkt_len m) b).

Definition ROUTER_IP : Z := 305419896.

(** [nf_core_process] of [router.c]. *)
Definition router_process (fuel : nat) (config : nat_config) (m : mbuf) : res (Z * mbuf) :=
  ip ← nf_get_mbuf_ipv4_header m;
  match ip with
  | None => Ok (port m, m)
  | Some ip_header =>
      version_ihl ← ld8 (buf m) (ip_header + IPV4_VERSION_IHL);
      '(keep, b) ← (if 5 <? Z.land version_ihl 15 then
                      handle_packet_timestamp fuel (buf m) ip_header ROUTER_IP 100
                    else Ok (true, buf m));
      if negb keep then Ok (port m, mk_mbuf (port m) (pkt_len m) b)
      else
        let dst_device := u8 (if port m =? lan_main_device config then wan_device config
                              else lan_main_device config) in
        l2_forward config m b dst_device
  end.

(** [lpm_lookup]; [rte_lpm_lookup] gives the next hop, if there is one. *)
Definition lpm_lookup (rte_lpm_lookup : Z → option Z) (addr : Z) : Z :=
  match rte_lpm_lookup addr with Some next_hop => next_hop | None => u32 (-1) end.

(** [rte_be_to_cpu_32]. *)
Definition be_to_cpu_32 (x : Z) : Z :=
  be_to_cpu_16 (u16 x) * 65536 + be_to_cpu_16 (u16 (x / 65536)).

(** [nf_core_process] of [lpm.c]. *)
Definition lpm_process (rte_lpm_lookup : Z → option Z) (config : nat_config) (m : mbuf)
    : res (Z * mbuf) :=
  ip ← nf_get_mbuf_ipv4_header m;
  match ip with
  | None => Ok (port m, m)
  | Some ip_header =>
      dst_addr ← ld32 (buf m) (ip_header + IPV4_DST_ADDR);
      let dst_device := u8 (lpm_lookup rte_lpm_lookup (be_to_cpu_32 dst_addr)) in
      l2_forward config m (buf m) dst_device
  end.

(** ** Lemmas *)
Lemma st8_ok b off v :
  0 <= off < zlen b → st8 b off v = Ok (setz b off (u8 v)) ∧ frame off 1 b (setz b off (u8 v)).
Proof.
  intros Ho. unfold st8. split; [by apply wr_ok|]. split; [by rewrite zlen_setz|].
  intros i Hi Hn. apply getz_setz_ne; lia.
Qed.

(** One turn of the loop on an option that is none of the three. *)
Lemma other_option fuel b p ip ms t len :
  0 <= p → p + 2 <= zlen b → getz b p = t → getz b (p + 1) = len →
  t ≠ OPT_END → t ≠ OPT_NOP → t ≠ OPT_TIMESTAMP →
  options_loop (S fuel) b p ip ms = options_loop fuel b (p + len) ip ms.
Proof.
  intros Hp Hl Ht Hlen H0 H1 H68. cbn [options_loop]. rewrite (ld8_ok b p) by lia. cbn [mbind res_bind].
  rewrite Ht, (proj2 (Z.eqb_neq _ _) H0), (proj2 (Z.eqb_neq _ _) H1), (ld8_ok b (p + 1)) by lia.
  cbn [mbind res_bind]. rewrite (proj2 (Z.eqb_neq _ _) H68), Hlen. cbn [negb].
  f_equal. lia.
Qed.

Lemma nop_option fuel b p ip ms :
  0 <= p < zlen b → getz b p = OPT_NOP →
  options_loop (S fuel) b p ip ms = options_loop fuel b (p + 1) ip ms.
Proof.
  intros Hp Ht. cbn [options_loop]. rewrite (ld8_ok b p) by lia. cbn [mbind res_bind]. by rewrite Ht.
Qed.

Lemma end_option fuel b p ip ms :
  0 <= p < zlen b → getz b p = OPT_END → options_loop (S fuel) b p ip ms = Ok (true, b).
Proof.
  intros Hp Ht. cbn [options_loop]. rewrite (ld8_ok b p) by lia. cbn [mbind res_bind]. by rewrite Ht.
Qed.

(** The loop runs over padding, and past the end of the buffer if nothing else
    comes. *)
Lemma padding_runs_off fuel b p ip ms :
  0 <= p <= zlen b → (∀ i, p <= i < zlen b → getz b i = OPT_NOP) → zlen b - p < Z.of_nat fuel →
  options_loop fuel b p ip ms = Err OutOfBounds.
Proof.
  revert p. induction fuel as [|fuel IH]; intros p Hp Hnop Hf; [lia|].
  destruct (decide (p = zlen b)) as [->|Hne].
  - cbn [options_loop]. assert (E : ld8 b (zlen b) = Err OutOfBounds) by (apply rd_err; lia). by rewrite E.
  - rewrite nop_option; [|lia|by apply Hnop; lia]. apply IH; [lia| |lia].
    intros i Hi. apply Hnop. lia.
Qed.

Lemma zero_length_loops fuel b p ip ms t :
  0 <= p → p + 2 <= zlen b → getz b p = t → getz b (p + 1) = 0 →
  t ≠ OPT_END → t ≠ OPT_NOP → t ≠ OPT_TIMESTAMP → options_loop fuel b p ip ms = Err NoFuel.
Proof.
  intros Hp Hl Ht Hz H0 H1 H68. induction fuel as [|fuel IH]; [done|].
  rewrite (other_option _ _ _ _ _ t 0), Z.add_0_r by done. exact IH.
Qed.

(** The parsing before the loop. *)
Lemma ipv4_options m fuel config :
  52 <= zlen (buf m) → w16 (buf m) 12 = ETHER_TYPE_IPV4_BE → 5 < Z.land (getz (buf m) 14) 15 →
  router_process fuel config m =
  ('(keep, b) ← options_loop fuel (buf m) 34 ROUTER_IP 100;
   if negb keep then Ok (port m, mk_mbuf (port m) (pkt_len m) b)
   else l2_forward config m b (u8 (if port m =? lan_main_device config then wan_device config
                                   else lan_main_device config))).
Proof.
  intros Hl Htype Hihl. unfold router_process, nf_get_mbuf_ipv4_header, nf_get_mbuf_ether_header,
    handle_packet_timestamp, SIZEOF_ETHER_HDR, ETHER_TYPE, IPV4_VERSION_IHL.
  rewrite ld16_ok by lia. cbn [mbind res_bind]. rewrite Z.add_0_l, Htype, Z.eqb_refl. cbn [negb mbind res_bind].
  rewrite ld8_ok by lia. cbn [mbind res_bind]. change (14 + 0) with 14.
  rewrite (proj2 (Z.ltb_lt _ _)) by done. cbn [mbind res_bind].
  pose proof (land15_bound (getz (buf m) 14)) as Hb.
  assert (0 < u8 (u8 (Z.land (getz (buf m) 14) 15 - 5) * 4)) as Hpos.
  { unfold u8. rewrite (Z.mod_small (_ - 5)) by lia. rewrite Z.mod_small; lia. }
  by rewrite (proj2 (Z.ltb_lt _ _) Hpos).
Qed.

(** A time stamp option with room for one more stamp, without addresses: the stamp
    goes where the pointer says, and the pointer moves on by four. *)
Lemma timestamp_option fuel b p ip ms len ptr x :
  0 <= p → p + len <= zlen b → getz b p = OPT_TIMESTAMP → getz b (p + 1) = len →
  getz b (p + 2) = ptr → getz b (p + 3) = x → Z.land x 15 = 0 →
  5 <= ptr → ptr + 3 <= len → len < 256 →
  ∃ b', options_loop (S fuel) b p ip ms = options_loop fuel b' (p + len) ip ms ∧
    w32 b' (p + ptr - 1) = u32 ms ∧ getz b' (p + 2) = u8 (ptr + 4) ∧
    agree (λ i, i ≠ p + 2 ∧ ¬ (p + ptr - 1 <= i < p + ptr + 3)) b b'.
Proof.
  intros Hp Hl Ht Hlen Hptr Hx Hflag H5 Hroom Hbyte. cbn [options_loop].
  rewrite (ld8_ok b p) by lia. cbn [mbind res_bind]. rewrite Ht.
  cbn [Z.eqb OPT_TIMESTAMP OPT_END OPT_NOP Pos.eqb]. rewrite (ld8_ok b (p + 1)) by lia.
  cbn [mbind res_bind negb]. rewrite Hlen.
  replace (p + 1 + 1) with (p + 2) by lia. rewrite (ld8_ok b (p + 2)) by lia. cbn [mbind res_bind].
  replace (p + 2 + 1) with (p + 3) by lia. rewrite (ld8_ok b (p + 3)) by lia. cbn [mbind res_bind].
  rewrite Hptr, Hx, Hflag, (proj2 (Z.ltb_ge len ptr)) by lia. cbn [Z.eqb].
  assert (Hrem : u8 (len - (ptr - 1)) = len - ptr + 1) by (unfold u8; rewrite Z.mod_small; lia).
  rewrite Hrem, (proj2 (Z.ltb_ge _ _)) by lia.
  replace (p + 3 + 1 + (ptr - 5)) with (p + ptr - 1) by lia.
  destruct (st32_ok b (p + ptr - 1) ms) as (b1 & -> & [L1 F1] & W1); [lia|lia|].
  cbn [mbind res_bind]. rewrite (ld8_ok b1 (p + 2)) by lia. cbn [mbind res_bind].
  rewrite (F1 (p + 2)), Hptr by lia.
  destruct (st8_ok b1 (p + 2) (ptr + 4)) as [-> [L2 F2]]; [lia|]. cbn [mbind res_bind].
  replace (p + 2 + len - 2) with (p + len) by lia. eexists. split; [done|]. split; [|split].
  - rewrite <- W1. unfold w32, w16. rewrite !F2 by lia. done.
  - apply getz_setz_eq. lia.
  - split; [lia|]. intros i Hi [Hne Hout]. rewrite F2, F1 by lia. done.
Qed.

Lemma l2_forward_ok config n_devices m b dst :
  config_ok config n_devices → 0 <= dst < n_devices → 12 <= zlen b →
  ∃ b', l2_forward config m b dst = Ok (dst, mk_mbuf (port m) (pkt_len m) b') ∧
    agree (λ i, 12 <= i) b b'.
Proof.
  intros [_ L1 L2 L3 L4] Hd Hb. unfold l2_forward, ETHER_S_ADDR, ETHER_D_ADDR.
  rewrite (rd_ok (device_macs config)), (rd_ok (endpoint_macs config)) by lia.
  cbn [mbind res_bind].
  destruct (st_bytes_step (λ i, 12 <= i) b b 6 (getz (device_macs config) dst))
    as (b1 & -> & A1 & _); [lia|rewrite L3 by done; lia|rewrite L3 by done; lia|done|].
  cbn [mbind res_bind].
  destruct (st_bytes_step (λ i, 12 <= i) b b1 0 (getz (endpoint_macs config) dst))
    as (b2 & -> & A2 & _); [lia|rewrite L4 by done; lia|rewrite L4 by done; lia|done|].
  cbn [mbind res_bind]. by exists b2.
Qed.

(** Where the router sends a packet. *)
Definition other_side (config : nat_config) (m : mbuf) : Z :=
  if port m =? lan_main_device config then wan_device config else lan_main_device config.

Lemma other_side_ok config n_devices m :
  config_ok config n_devices → 0 <= lan_main_device config < n_devices → n_devices <= 256 →
  0 <= other_side config m < n_devices ∧ u8 (other_side config m) = other_side config m.
Proof.
  intros [Hw _ _ _ _] Hl Hn. unfold other_side, u8.
  destruct (_ =? _); (split; [lia|apply Z.mod_small; lia]).
Qed.

(** Packets without options go to the other side, others than IPv4 nowhere. *)
Lemma router_plain fuel config n_devices m :
  config_ok config n_devices → 0 <= lan_main_device config < n_devices → n_devices <= 256 →
  52 <= zlen (buf m) → Z.land (getz (buf m) 14) 15 <= 5 →
  ∃ dst m', router_process fuel config m = Ok (dst, m') ∧ agree (λ i, 12 <= i) (buf m) (buf m') ∧
    dst = if w16 (buf m) 12 =? ETHER_TYPE_IPV4_BE then other_side config m else port m.
Proof.
  intros Hcfg Hlan Hn Hl Hihl. unfold router_process, nf_get_mbuf_ipv4_header,
    nf_get_mbuf_ether_header, SIZEOF_ETHER_HDR, ETHER_TYPE, IPV4_VERSION_IHL.
  rewrite ld16_ok by lia. cbn [mbind res_bind]. rewrite Z.add_0_l.
  destruct (w16 (buf m) 12 =? ETHER_TYPE_IPV4_BE); cbn [negb mbind res_bind].
  - rewrite ld8_ok by lia. cbn [mbind res_bind]. change (14 + 0) with 14.
    rewrite (proj2 (Z.ltb_ge _ _)) by done. cbn [mbind res_bind negb].
    destruct (other_side_ok config n_devices m Hcfg Hlan Hn) as [Hdst Hu].
    fold (other_side config m). rewrite Hu.
    destruct (l2_forward_ok config n_devices m (buf m) (other_side config m) Hcfg Hdst)
      as (b' & -> & HA); [lia|]. by eexists _, _.
  - by exists (port m), m.
Qed.

(** The forwarder sends a packet to the next hop of its address. *)
Lemma lpm_forwards rte_lpm_lookup config n_devices m hop :
  config_ok config n_devices → 0 <= hop < n_devices → n_devices <= 256 → 52 <= zlen (buf m) →
  rte_lpm_lookup (be_to_cpu_32 (w32 (buf m) 30)) = Some hop →
  ∃ dst m', lpm_process rte_lpm_lookup config m = Ok (dst, m') ∧
    agree (λ i, 12 <= i) (buf m) (buf m') ∧
    dst = if w16 (buf m) 12 =? ETHER_TYPE_IPV4_BE then hop else port m.
Proof.
  intros Hcfg Hhop Hn Hl Hroute. unfold lpm_process, nf_get_mbuf_ipv4_header,
    nf_get_mbuf_ether_header, SIZEOF_ETHER_HDR, ETHER_TYPE, IPV4_DST_ADDR.
  rewrite ld16_ok by lia. cbn [mbind res_bind]. rewrite Z.add_0_l.
  destruct (w16 (buf m) 12 =? ETHER_TYPE_IPV4_BE); cbn [negb mbind res_bind].
  - rewrite ld32_ok by lia. cbn [mbind res_bind]. change (14 + 16) with 30.
    unfold lpm_lookup. rewrite Hroute. unfold u8. rewrite Z.mod_small by lia.
    destruct (l2_forward_ok config n_devices m (buf m) hop Hcfg Hhop) as (b' & -> & HA); [lia|].
    by eexists _, _.
  - by exists (port m), m.
Qed.

(** ** The claims *)

(** C25: An IPv4 packet whose options begin, at byte 34, with a time stamp option of
    flag 0 (time stamps only) that has room for one more, and in which the byte right
    behind that option is the end-of-options byte: it gets the router's time, 100, at the
    place its pointer names, the pointer moves on by four, nothing else behind the
    ethernet addresses changes, and the packet goes to the other side. The end byte
    is needed: the count that the loop tests (router_options.c:9) never goes down, so
    that without it the router takes what comes behind for options, the payload too
    ([router_leaves_the_options]). Options in front of the time stamp and the flags 1
    and 3 are not covered, the length of the option is trusted to stay in the frame,
    and the frame has at least 52 bytes. *)
Theorem router_stamps fuel config n_devices m len ptr x :
  config_ok config n_devices → 0 <= lan_main_device config < n_devices → n_devices <= 256 →
  34 + len < zlen (buf m) → 52 <= zlen (buf m) → w16 (buf m) 12 = ETHER_TYPE_IPV4_BE →
  5 < Z.land (getz (buf m) 14) 15 →
  getz (buf m) 34 = OPT_TIMESTAMP → getz (buf m) 35 = len → getz (buf m) 36 = ptr →
  getz (buf m) 37 = x → Z.land x 15 = 0 → 5 <= ptr → ptr + 3 <= len → len < 256 →
  getz (buf m) (34 + len) = OPT_END →
  ∃ m', router_process (S (S fuel)) config m = Ok (other_side config m, m') ∧
    w32 (buf m') (34 + ptr - 1) = 100 ∧ getz (buf m') 36 = u8 (ptr + 4) ∧
    agree (λ i, 12 <= i ∧ i ≠ 36 ∧ ¬ (33 + ptr <= i < 37 + ptr)) (buf m) (buf m').
Proof.
  intros Hcfg Hlan Hn Hend Hl Htype Hihl Ht Hlen Hptr Hx Hflag H5 Hroom Hbyte Hstop.
  rewrite ipv4_options by done.
  destruct (timestamp_option (S fuel) (buf m) 34 ROUTER_IP 100 len ptr x)
    as (b' & -> & W & Gp & [L A]); try done; [lia|].
  rewrite end_option; [|lia|by rewrite A; [|lia|lia]]. cbn [mbind res_bind negb].
  destruct (other_side_ok config n_devices m Hcfg Hlan Hn) as [Hdst Hu].
  fold (other_side config m). rewrite Hu.
  destruct (l2_forward_ok config n_devices m b' (other_side config m) Hcfg Hdst)
    as (b2 & -> & [L2 A2]); [lia|].
  eexists. split; [done|]. cbn [buf]. split; [|split].
  - replace (34 + ptr - 1) with (34 + ptr - 1) in W by lia.
    unfold w32, w16 in *. rewrite !A2 by lia. rewrite W. done.
  - rewrite A2 by lia. rewrite <- Gp. done.
  - split; [congruence|]. intros i Hi (H12 & H36 & Hout). rewrite A2 by lia. apply A; [lia|]. lia.
Qed.

(** An option of length zero, of any kind but the three the router knows, makes
    [handle_packet_timestamp] go round forever: whatever the number of turns, the
    router has not returned. *)
Theorem router_hangs_on_empty_option fuel config m t :
  52 <= zlen (buf m) → w16 (buf m) 12 = ETHER_TYPE_IPV4_BE → 5 < Z.land (getz (buf m) 14) 15 →
  getz (buf m) 34 = t → t ≠ OPT_END → t ≠ OPT_NOP → t ≠ OPT_TIMESTAMP → getz (buf m) 35 = 0 →
  router_process fuel config m = Err NoFuel.
Proof.
  intros Hl Htype Hihl Ht H0 H1 H68 Hz. rewrite ipv4_options by done.
  rewrite (zero_length_loops _ _ _ _ _ t) by (done || lia). done.
Qed.

(** The loop does not stop at the end of the options: behind options that are
    all padding it takes the payload for options, up to reading outside of the
    packet when nothing stops it. *)
Theorem router_leaves_the_options fuel config m :
  52 <= zlen (buf m) → w16 (buf m) 12 = ETHER_TYPE_IPV4_BE → 5 < Z.land (getz (buf m) 14) 15 →
  (∀ i, 34 <= i < zlen (buf m) → getz (buf m) i = OPT_NOP) → zlen (buf m) < Z.of_nat fuel →
  router_process fuel config m = Err OutOfBounds.
Proof.
  intros Hl Htype Hihl Hnop Hf. rewrite ipv4_options by done.
  rewrite padding_runs_off by (done || lia). done.
Qed.

(** The forwarder looks up no device for an address without a route, and then
    reads the addresses of device 255, outside of the array. *)
Theorem lpm_no_route_reads_outside rte_lpm_lookup config m :
  52 <= zlen (buf m) → w16 (buf m) 12 = ETHER_TYPE_IPV4_BE → zlen (device_macs config) <= 255 →
  rte_lpm_lookup (be_to_cpu_32 (w32 (buf m) 30)) = None →
  lpm_process rte_lpm_lookup config m = Err OutOfBounds.
Proof.
  intros Hl Htype Hmacs Hnone. unfold lpm_process, nf_get_mbuf_ipv4_header,
    nf_get_mbuf_ether_header, SIZEOF_ETHER_HDR, ETHER_TYPE, IPV4_DST_ADDR.
  rewrite ld16_ok by lia. cbn [mbind res_bind]. rewrite Z.add_0_l, Htype, Z.eqb_refl.
  cbn [negb mbind res_bind]. rewrite ld32_ok by lia. cbn [mbind res_bind].
  change (14 + 16) with 30. unfold lpm_lookup. rewrite Hnone.
  change (u8 (u32 (-1))) with 255. unfold l2_forward. by rewrite (rd_err (device_macs config) 255) by lia.
Qed.

(** A packet of 60 bytes with IPv4 options, the bytes from 34 on. *)
Definition with_options (ihl : Z) (options : list Z) : mbuf :=
  mk_mbuf 0 60 (replicate 12 0 ++ [8; 0; 64 + ihl] ++ replicate 15 0 ++ [8; 8; 8; 8] ++ options).

Lemma router_stamps_witness :
  let m := with_options 8 ([68; 8; 5; 0; 0; 0; 0; 0; 0] ++ replicate 17 7) in
  ∃ m', router_process 2 small_config m = Ok (1, m') ∧ w32 (buf m') 38 = 100 ∧
    getz (buf m') 36 = 9 ∧ agree (λ i, 12 <= i ∧ i ≠ 36 ∧ ¬ (38 <= i < 42)) (buf m) (buf m').
Proof.
  apply (router_stamps 0 small_config 2 (with_options 8 ([68; 8; 5; 0; 0; 0; 0; 0; 0] ++
    replicate 17 7)) 8 5 0); try exact small_nat_config_ok; vm_compute; intuition congruence.
Defined.

Lemma router_hangs_on_empty_option_witness :
  router_process 1000 small_config (with_options 6 ([7; 0; 0; 0] ++ replicate 22 0)) = Err NoFuel.
Proof.
  apply (router_hangs_on_empty_option 1000 small_config _ 7); vm_compute; intuition congruence.
Defined.

Lemma router_leaves_the_options_witness :
  router_process 100 small_config (with_options 6 (replicate 26 1)) = Err OutOfBounds.
Proof.
  apply router_leaves_the_options; [vm_compute; congruence|reflexivity|reflexivity| |reflexivity].
  intros i Hi. change (zlen (buf (with_options 6 (replicate 26 1)))) with 60 in Hi.
  assert (Hall : forallb (λ i, getz (buf (with_options 6 (replicate 26 1))) i =? 1) (seqZ 34 26) = true)
    by by vm_compute.
  rewrite forallb_forall in Hall. apply Z.eqb_eq, Hall, list_elem_of_In, elem_of_seqZ. lia.
Defined.

Lemma lpm_no_route_reads_outside_witness :
  lpm_process (λ addr, if addr =? 0 then Some 1 else None) small_config (with_options 5 (replicate 26 1)) =
  Err OutOfBounds.
Proof. apply lpm_no_route_reads_outside; vm_compute; congruence. Defined.
