(* ===== verification/Xdp.v ===== *)
(** * XDP programs: what the programs of [ebpf-nfs] share

    An XDP program gets the bytes of a frame from [data] to [data_end] and returns
    an action. A pointer into the frame is an offset from [data], so that
    [data_end] is the length, and an access behind it is an error: the theorems
    show that the bounds checks of the programs suffice. The maps of the kernel are
    an interface with laws from the documentation of the helpers in
    [libbpf-stubbed/src/bpf_helper_defs.h]; the header parsers are those of
    [common/parsing_helpers.h]. *)

From S2P Require Import Prelude.
From S2P Require Import NfUtil.

(** ** Actions *)
Definition XDP_ABORTED : Z := 0.
Definition XDP_DROP : Z := 1.
Definition XDP_PASS : Z := 2.
Definition XDP_TX : Z := 3.
Definition XDP_REDIRECT : Z := 4.

(** ** Maps

    A lookup gives a pointer to the value, [None] is the null pointer; an update
    with [BPF_ANY] gives the new map or a negative error; [bpf_map_store] is a write
    through the pointer of a lookup. *)
Class BpfMap (K V T : Type) := {
  bpf_map_lookup_elem : T → K → option V;
  bpf_map_update_elem : T → K → V → option T;
  bpf_map_store : T → K → V → T
}.

(** What every map does; the least recently used entries may go at an update. *)
Class BpfMapLaws (K V T : Type) `{!BpfMap K V T} := {
  bpf_update_here (t t' : T) (k : K) (v : V) :
    bpf_map_update_elem t k v = Some t' → bpf_map_lookup_elem t' k = Some v;
  bpf_update_old (t t' : T) (k k' : K) (v w : V) :
    bpf_map_update_elem t k v = Some t' → k' ≠ k → bpf_map_lookup_elem t' k' = Some w →
    bpf_map_lookup_elem t k' = Some w;
  bpf_store_here (t : T) (k : K) (v w : V) :
    bpf_map_lookup_elem t k = Some v → bpf_map_lookup_elem (bpf_map_store t k w) k = Some w;
  bpf_store_other (t : T) (k k' : K) (w : V) :
    k' ≠ k → bpf_map_lookup_elem (bpf_map_store t k w) k' = bpf_map_lookup_elem t k'
}.

(** Maps that keep the other entries. *)
Class BpfMapKeeps (K V T : Type) `{!BpfMap K V T} :=
  bpf_update_keeps (t t' : T) (k k' : K) (v : V) :
    bpf_map_update_elem t k v = Some t' → k' ≠ k →
    bpf_map_lookup_elem t' k' = bpf_map_lookup_elem t k'.

(** A hash map with a maximal number of entries. *)
Record bpf_hash (K V : Type) `{Countable K} := mk_hash { max_entries : nat; entries : gmap K V }.
Arguments mk_hash {K V _ _} _ _.
Arguments max_entries {K V _ _} _.
Arguments entries {K V _ _} _.

Section hash.
Context {K V : Type} `{Countable K}.

#[export] Instance hash_ops : BpfMap K V (bpf_hash K V) := {|
  bpf_map_lookup_elem t k := entries t !! k;
  bpf_map_update_elem t k v :=
    if bool_decide (is_Some (entries t !! k)) || (size (entries t) <? max_entries t)%nat
    then Some (mk_hash (max_entries t) (<[k := v]> (entries t))) else None;
  bpf_map_store t k v := mk_hash (max_entries t) (<[k := v]> (entries t))
|}.

#[export] Program Instance hash_laws : BpfMapLaws K V (bpf_hash K V).
Next Obligation. cbn. intros t t' k v E. destruct (_ || _); simplify_eq/=. apply lookup_insert_eq. Qed.
Next Obligation.
  cbn. intros t t' k k' v w E Hne. destruct (_ || _); simplify_eq/=. by rewrite lookup_insert_ne.
Qed.
Next Obligation. cbn. intros. apply lookup_insert_eq. Qed.
Next Obligation. cbn. intros. by rewrite lookup_insert_ne. Qed.

#[export] Instance hash_keeps : BpfMapKeeps K V (bpf_hash K V).
Proof.
  intros t t' k k' v E Hne. cbn in *. destruct (_ || _); simplify_eq/=. by rewrite lookup_insert_ne.
Qed.
End hash.

(** An array: every index below the length has an element. *)
Section array.
Context {V : Type}.

#[export] Instance array_ops : BpfMap Z V (list V) := {|
  bpf_map_lookup_elem t k := match rd t k with Ok v => Some v | Err _ => None end;
  bpf_map_update_elem t k v := match wr t k v with Ok t => Some t | Err _ => None end;
  bpf_map_store t k v := match wr t k v with Ok t => t | Err _ => t end
|}.

Lemma wr_rd (t t' : list V) k k' v : wr t k v = Ok t' → rd t' k' = if decide (k' = k) then Ok v else rd t k'.
Proof.
  unfold wr, rd. destruct ((0 <=? k) && (k <? zlen t)) eqn:E; [|done]. intros [= <-].
  apply andb_prop in E as [Hk1 Hk2]. unfold zlen in Hk2. destruct (Z.leb_spec 0 k').
  - destruct (decide (k' = k)) as [->|Hne].
    + by rewrite list_lookup_insert_eq by lia.
    + by rewrite list_lookup_insert_ne by lia.
  - destruct (decide (k' = k)) as [->|]; [lia|done].
Qed.

Lemma rd_wr (t : list V) k v w : rd t k = Ok v → ∃ t', wr t k w = Ok t'.
Proof.
  unfold rd, wr. destruct (0 <=? k) eqn:Hk; [|done].
  destruct (t !! Z.to_nat k) eqn:E; [|done]. intros _. apply lookup_lt_Some in E.
  rewrite (proj2 (Z.ltb_lt _ _)) by (unfold zlen; lia). by eexists.
Qed.

#[export] Program Instance array_laws : BpfMapLaws Z V (list V).
Next Obligation.
  cbn. intros t t' k v E. destruct (wr t k v) eqn:Ew; simplify_eq.
  by rewrite (wr_rd _ _ _ _ _ Ew), decide_True.
Qed.
Next Obligation.
  cbn. intros t t' k k' v w E Hne. destruct (wr t k v) eqn:Ew; simplify_eq.
  by rewrite (wr_rd _ _ _ _ _ Ew), decide_False.
Qed.
Next Obligation.
  cbn. intros t k v w E. destruct (rd t k) eqn:Er; simplify_eq.
  destruct (rd_wr _ _ _ w Er) as [t' Ew]. by rewrite Ew, (wr_rd _ _ _ _ _ Ew), decide_True.
Qed.
Next Obligation.
  cbn. intros t k k' w Hne. destruct (wr t k w) eqn:Ew; [|done].
  by rewrite (wr_rd _ _ _ _ _ Ew), decide_False.
Qed.
End array.

(** [bpf_redirect_map] with a map of devices: the action and the device. *)
Record verdict := mk_verdict { action : Z; to_device : option Z }.

#[global] Instance verdict_eq_dec : EqDecision verdict.
Proof. solve_decision. Defined.

Definition bpf_redirect_map {T} `{!BpfMap Z Z T} (map : T) (key flags : Z) : verdict :=
  match bpf_map_lookup_elem map key with
  | Some dev => mk_verdict XDP_REDIRECT (Some dev)
  | None => mk_verdict (Z.land flags 3) None
  end.

(** ** The parsers of [parsing_helpers.h]

    Each takes the cursor [pos] and returns its result, the cursor and the pointer
    to the header, if it was set. *)
Definition SIZEOF_VLAN_HDR : Z := 4.
Definition SIZEOF_IPV6HDR : Z := 40.
Definition SIZEOF_ICMPHDR : Z := 8.
Definition SIZEOF_ICMPHDR_COMMON : Z := 4.
Definition SIZEOF_UDPHDR : Z := 8.
Definition SIZEOF_TCPHDR : Z := 20.
Definition VLAN_MAX_DEPTH : nat := 4.

(** [bpf_ntohs] and [bpf_htons]. *)
Definition bpf_ntohs (x : Z) : Z := be_to_cpu_16 x.
Definition bpf_htons (x : Z) : Z := be_to_cpu_16 x.

(** The numbers of the protocols: 802.1Q, 802.1ad and IPv4. *)
Definition ETH_P_8021Q : Z := 33024.
Definition ETH_P_8021AD : Z := 34984.
Definition ETH_P_IP : Z := 2048.

Definition proto_is_vlan (h_proto : Z) : bool :=
  (h_proto =? bpf_htons ETH_P_8021Q) || (h_proto =? bpf_htons ETH_P_8021AD).

Fixpoint vlan_loop (n : nat) (data : list Z) (vlh h_proto : Z) : res (Z * Z) :=
  match n with
  | O => Ok (h_proto, vlh)
  | S n =>
      if negb (proto_is_vlan h_proto) then Ok (h_proto, vlh)
      else if zlen data <? vlh + SIZEOF_VLAN_HDR then Ok (h_proto, vlh)
      else
        h_proto ← ld16 data (vlh + 2);
        vlan_loop n data (vlh + SIZEOF_VLAN_HDR) h_proto
  end.

Definition parse_ethhdr (data : list Z) (pos : Z) : res (Z * Z * option Z) :=
  let eth := pos in
  let hdrsize := SIZEOF_ETHER_HDR in
  if zlen data <? pos + hdrsize then Ok (-1, pos, None)
  else
    let pos := pos + hdrsize in
    h_proto ← ld16 data (eth + ETHER_TYPE);
    '(h_proto, vlh) ← vlan_loop VLAN_MAX_DEPTH data pos h_proto;
    Ok (h_proto, vlh, Some eth).

Definition parse_ip6hdr (data : list Z) (pos : Z) : res (Z * Z * option Z) :=
  if zlen data <? pos + SIZEOF_IPV6HDR then Ok (-1, pos, None)
  else nexthdr ← ld8 data (pos + 6); Ok (nexthdr, pos + SIZEOF_IPV6HDR, Some pos).

Definition parse_iphdr (data : list Z) (pos : Z) : res (Z * Z * option Z) :=
  if zlen data <? pos + SIZEOF_IPV4_HDR then Ok (-1, pos, None)
  else
    x ← ihl data pos;
    let hdrsize := x * 4 in
    if hdrsize <? SIZEOF_IPV4_HDR then Ok (-1, pos, None)
    else if zlen data <? pos + hdrsize then Ok (-1, pos, None)
    else protocol ← ld8 data (pos + IPV4_NEXT_PROTO_ID); Ok (protocol, pos + hdrsize, Some pos).

Definition parse_icmp6hdr (data : list Z) (pos : Z) : res (Z * Z * option Z) :=
  if zlen data <? pos + SIZEOF_ICMPHDR then Ok (-1, pos, None)
  else type ← ld8 data pos; Ok (type, pos + SIZEOF_ICMPHDR, Some pos).

Definition parse_icmphdr (data : list Z) (pos : Z) : res (Z * Z * option Z) :=
  if zlen data <? pos + SIZEOF_ICMPHDR then Ok (-1, pos, None)
  else type ← ld8 data pos; Ok (type, pos + SIZEOF_ICMPHDR, Some pos).

Definition parse_icmphdr_common (data : list Z) (pos : Z) : res (Z * Z * option Z) :=
  if zlen data <? pos + SIZEOF_ICMPHDR_COMMON then Ok (-1, pos, None)
  else type ← ld8 data pos; Ok (type, pos + SIZEOF_ICMPHDR_COMMON, Some pos).

(** The length of the payload. *)
Definition parse_udphdr (data : list Z) (pos : Z) : res (Z * Z * option Z) :=
  if zlen data <? pos + SIZEOF_UDPHDR then Ok (-1, pos, None)
  else
    x ← ld16 data (pos + 4);
    let len := i32 (bpf_ntohs x - SIZEOF_UDPHDR) in
    Ok (if len <? 0 then -1 else len, pos + SIZEOF_UDPHDR, Some pos).

(** The bit field [doff], the high four bits of byte 12. *)
Definition TCP_DOFF : Z := 12.
Definition doff (data : list Z) (tcph : Z) : res Z :=
  x ← ld8 data (tcph + TCP_DOFF); Ok (Z.shiftr x 4).

(** The length of the header. *)
Definition parse_tcphdr (data : list Z) (pos : Z) : res (Z * Z * option Z) :=
  if zlen data <? pos + SIZEOF_TCPHDR then Ok (-1, pos, None)
  else
    x ← doff data pos;
    let len := x * 4 in
    if len <? SIZEOF_TCPHDR then Ok (-1, pos, None)
    else if zlen data <? pos + len then Ok (-1, pos, None)
    else Ok (len, pos + len, Some pos).

(** ** What the parsers promise

    They read inside of the frame only; the cursor moves from the header, which has
    at least [size] bytes, to a place inside of the frame or to its end; and when
    the pointer to the header is not set, the result is -1 and the cursor has not
    moved. *)
Definition well_behaved (parse : list Z → Z → res (Z * Z * option Z)) (size : Z) : Prop :=
  ∀ data pos, 0 <= pos <= zlen data →
  ∃ r pos' h, parse data pos = Ok (r, pos', h) ∧
    (h = None ∧ r = -1 ∧ pos' = pos ∨ h = Some pos ∧ pos + size <= pos' <= zlen data).

Lemma vlan_loop_spec n data vlh h_proto :
  0 <= vlh <= zlen data →
  ∃ p v, vlan_loop n data vlh h_proto = Ok (p, v) ∧ vlh <= v <= zlen data.
Proof.
  revert vlh h_proto. induction n as [|n IH]; intros vlh h_proto Hv; cbn [vlan_loop].
  { eexists _, _. split; [done|lia]. }
  destruct (negb _). { eexists _, _. split; [done|lia]. }
  unfold SIZEOF_VLAN_HDR. destruct (Z.ltb_spec (zlen data) (vlh + 4)).
  { eexists _, _. split; [done|lia]. }
  rewrite ld16_ok by lia. cbn [mbind res_bind].
  destruct (IH (vlh + 4) (w16 data (vlh + 2))) as (p & v & -> & Hb); [lia|].
  exists p, v. split; [done|lia].
Qed.

Ltac not_parsed := do 3 eexists; split; [reflexivity|left; by split_and!].
Ltac parsed := do 3 eexists; split; [reflexivity|right; split; [done|lia]].

Lemma parse_ethhdr_ok : well_behaved parse_ethhdr SIZEOF_ETHER_HDR.
Proof.
  intros data pos Hp. unfold parse_ethhdr, SIZEOF_ETHER_HDR, ETHER_TYPE.
  destruct (Z.ltb_spec (zlen data) (pos + 14)); [not_parsed|].
  rewrite ld16_ok by lia. cbn [mbind res_bind].
  destruct (vlan_loop_spec VLAN_MAX_DEPTH data (pos + 14) (w16 data (pos + 12))) as (p & v & -> & Hv); [lia|].
  cbn [mbind res_bind]. parsed.
Qed.

Lemma parse_iphdr_ok : well_behaved parse_iphdr SIZEOF_IPV4_HDR.
Proof.
  intros data pos Hp. unfold parse_iphdr, ihl, SIZEOF_IPV4_HDR, IPV4_VERSION_IHL, IPV4_NEXT_PROTO_ID.
  destruct (Z.ltb_spec (zlen data) (pos + 20)); [not_parsed|].
  rewrite (ld8_ok data (pos + 0)) by lia. cbn [mbind res_bind].
  destruct (Z.ltb_spec (Z.land (getz data (pos + 0)) 15 * 4) 20); [not_parsed|].
  destruct (Z.ltb_spec (zlen data) (pos + Z.land (getz data (pos + 0)) 15 * 4)); [not_parsed|].
  rewrite (ld8_ok data (pos + 9)) by lia. cbn [mbind res_bind]. parsed.
Qed.

Lemma parse_tcphdr_ok : well_behaved parse_tcphdr SIZEOF_TCPHDR.
Proof.
  intros data pos Hp. unfold parse_tcphdr, doff, SIZEOF_TCPHDR, TCP_DOFF.
  destruct (Z.ltb_spec (zlen data) (pos + 20)); [not_parsed|].
  rewrite (ld8_ok data (pos + 12)) by lia. cbn [mbind res_bind].
  destruct (Z.ltb_spec (Z.shiftr (getz data (pos + 12)) 4 * 4) 20); [not_parsed|].
  destruct (Z.ltb_spec (zlen data) (pos + Z.shiftr (getz data (pos + 12)) 4 * 4)); [not_parsed|].
  parsed.
Qed.

(** Headers of a fixed size whose type is in one byte. *)
Lemma fixed_header_ok size off :
  0 <= off < size →
  well_behaved (λ data pos, if zlen data <? pos + size then Ok (-1, pos, None)
                            else type ← ld8 data (pos + off); Ok (type, pos + size, Some pos)) size.
Proof.
  intros Ho data pos Hp. destruct (Z.ltb_spec (zlen data) (pos + size)); [not_parsed|].
  rewrite ld8_ok by lia. cbn [mbind res_bind]. parsed.
Qed.

(** Every parser of [parsing_helpers.h] stays inside of the frame, whatever the
    frame holds, and leaves the cursor inside of it, behind a complete header. *)
Theorem parsers_within_bounds :
  Forall (λ '(parse, size), well_behaved parse size)
    [(parse_ethhdr, SIZEOF_ETHER_HDR); (parse_ip6hdr, SIZEOF_IPV6HDR); (parse_iphdr, SIZEOF_IPV4_HDR);
     (parse_icmp6hdr, SIZEOF_ICMPHDR); (parse_icmphdr, SIZEOF_ICMPHDR);
     (parse_icmphdr_common, SIZEOF_ICMPHDR_COMMON); (parse_udphdr, SIZEOF_UDPHDR);
     (parse_tcphdr, SIZEOF_TCPHDR)].
Proof.
  repeat (apply Forall_cons_2; [|]); try apply Forall_nil_2.
  - apply parse_ethhdr_ok.
  - by apply (fixed_header_ok 40 6).
  - apply parse_iphdr_ok.
  - intros data pos Hp. destruct (fixed_header_ok 8 0 ltac:(lia) data pos Hp) as (r & p & h & E & H).
    rewrite Z.add_0_r in E. by exists r, p, h.
  - intros data pos Hp. destruct (fixed_header_ok 8 0 ltac:(lia) data pos Hp) as (r & p & h & E & H).
    rewrite Z.add_0_r in E. by exists r, p, h.
  - intros data pos Hp. destruct (fixed_header_ok 4 0 ltac:(lia) data pos Hp) as (r & p & h & E & H).
    rewrite Z.add_0_r in E. by exists r, p, h.
  - intros data pos Hp. unfold parse_udphdr, SIZEOF_UDPHDR.
    destruct (Z.ltb_spec (zlen data) (pos + 8)); [not_parsed|].
    rewrite ld16_ok by lia. cbn [mbind res_bind]. parsed.
  - apply parse_tcphdr_ok.
Qed.
