(* ===== verification/XdpFirewall.v ===== *)
(** * The firewall on XDP: [ebpf-nfs/fw/xdp_fw_kern.h]

    Packets from every device but [B_PORT] open their flow and go to [B_PORT];
    packets from [B_PORT] pass to [A_PORT] if their flow is open. Both directions of
    a flow have one key, which [biflow] computes. *)

From S2P Require Import Prelude.
From S2P Require Import NfUtil.
From S2P Require Import Xdp.

Record flow_ctx_table_key := mk_key {
  ip_proto : Z; l4_src : Z; l4_dst : Z; ip_src : Z; ip_dst : Z
}.
Record flow_ctx_table_leaf := mk_leaf { out_port : Z; in_port : Z }.

#[global] Instance flow_ctx_table_key_eq_dec : EqDecision flow_ctx_table_key.
Proof. solve_decision. Defined.
#[global] Instance flow_ctx_table_leaf_eq_dec : EqDecision flow_ctx_table_leaf.
Proof. solve_decision. Defined.
#[global] Program Instance flow_ctx_table_key_countable : Countable flow_ctx_table_key :=
  inj_countable' (λ k, (ip_proto k, l4_src k, l4_dst k, ip_src k, ip_dst k))
    (λ '(p, s, d, a, b), mk_key p s d a b) _.
Next Obligation. by intros []. Qed.

Definition A_PORT : Z := 6.
Definition B_PORT : Z := 7.
Definition BE_ETH_P_IP : Z := 8.

Definition biflow (k : flow_ctx_table_key) : flow_ctx_table_key :=
  let k := if ip_dst k <? ip_src k then mk_key (ip_proto k) (l4_src k) (l4_dst k) (ip_dst k) (ip_src k)
           else k in
  if l4_dst k <? l4_src k then mk_key (ip_proto k) (l4_dst k) (l4_src k) (ip_src k) (ip_dst k)
  else k.

Section program.
Context {DEV FLOWS : Type} `{!BpfMap Z Z DEV} `{!BpfMap flow_ctx_table_key flow_ctx_table_leaf FLOWS}.
Variable tx_port : DEV.

Definition EOP (flow_ctx_table : FLOWS) : res (verdict * FLOWS) :=
  Ok (mk_verdict XDP_DROP None, flow_ctx_table).

Definition xdp_fw_prog (ingress_ifindex : Z) (data : list Z) (flow_ctx_table : FLOWS)
    : res (verdict * FLOWS) :=
  let data_end := zlen data in
  let nh_off := SIZEOF_ETHER_HDR in
  if data_end <? nh_off then EOP flow_ctx_table
  else
    h_proto ← ld16 data ETHER_TYPE;
    if negb (h_proto =? BE_ETH_P_IP) then EOP flow_ctx_table
    else
      let ip := nh_off in
      let nh_off := nh_off + SIZEOF_IPV4_HDR in
      if data_end <? nh_off then EOP flow_ctx_table
      else
        protocol ← ld8 data (ip + IPV4_NEXT_PROTO_ID);
        if negb (protocol =? IPPROTO_TCP) && negb (protocol =? IPPROTO_UDP) then EOP flow_ctx_table
        else
          let l4 := nh_off in
          let nh_off := nh_off + SIZEOF_UDPHDR in
          if data_end <? nh_off then EOP flow_ctx_table
          else
            ip_src ← ld32 data (ip + IPV4_SRC_ADDR);
            ip_dst ← ld32 data (ip + IPV4_DST_ADDR);
            l4_src ← ld16 data (l4 + TCPUDP_SRC_PORT);
            l4_dst ← ld16 data (l4 + TCPUDP_DST_PORT);
            let flow_key := biflow (mk_key protocol l4_src l4_dst ip_src ip_dst) in
            if ingress_ifindex =? B_PORT then
              match bpf_map_lookup_elem flow_ctx_table flow_key with
              | Some flow_leaf => Ok (bpf_redirect_map tx_port (out_port flow_leaf) 0, flow_ctx_table)
              | None => Ok (mk_verdict XDP_DROP None, flow_ctx_table)
              end
            else
              let flow_ctx_table :=
                match bpf_map_lookup_elem flow_ctx_table flow_key with
                | Some _ => flow_ctx_table
                | None =>
                    match bpf_map_update_elem flow_ctx_table flow_key (mk_leaf A_PORT B_PORT) with
                    | Some flow_ctx_table => flow_ctx_table
                    | None => flow_ctx_table
                    end
                end in
              Ok (bpf_redirect_map tx_port B_PORT 0, flow_ctx_table).
End program.

(** ** What a packet is to the firewall *)
(** The flow of a frame, if it has one. *)
Definition flow_of (data : list Z) : flow_ctx_table_key :=
  mk_key (getz data 23) (w16 data 34) (w16 data 36) (w32 data 26) (w32 data 30).

Definition has_flow (data : list Z) : bool :=
  (42 <=? zlen data) && is_tcpudp data.

Definition fw_key (data : list Z) : option flow_ctx_table_key :=
  if has_flow data then Some (biflow (flow_of data)) else None.

(** The keys ignore the direction of addresses and ports, each on its own. *)
Definition mirror_addresses (k : flow_ctx_table_key) : flow_ctx_table_key :=
  mk_key (ip_proto k) (l4_src k) (l4_dst k) (ip_dst k) (ip_src k).
Definition mirror_ports (k : flow_ctx_table_key) : flow_ctx_table_key :=
  mk_key (ip_proto k) (l4_dst k) (l4_src k) (ip_src k) (ip_dst k).

Lemma biflow_fields k :
  biflow k = mk_key (ip_proto k) (l4_src k `min` l4_dst k) (l4_src k `max` l4_dst k)
                    (ip_src k `min` ip_dst k) (ip_src k `max` ip_dst k).
Proof.
  destruct k as [p ls ld sa da]. unfold biflow. cbn.
  destruct (Z.ltb_spec da sa); cbn; destruct (Z.ltb_spec ld ls); cbn; f_equal; lia.
Qed.

Lemma biflow_mirror_addresses k : biflow (mirror_addresses k) = biflow k.
Proof. rewrite !biflow_fields. cbn. f_equal; lia. Qed.

Lemma biflow_mirror_ports k : biflow (mirror_ports k) = biflow k.
Proof. rewrite !biflow_fields. cbn. f_equal; lia. Qed.

(** No others have the same key. *)
Lemma biflow_inv k k' :
  biflow k = biflow k' →
  k' = k ∨ k' = mirror_addresses k ∨ k' = mirror_ports k ∨ k' = mirror_ports (mirror_addresses k).
Proof.
  rewrite !biflow_fields. destruct k as [p ls ld sa da], k' as [p' ls' ld' sa' da']. cbn.
  intros E. injection E as Ep E1 E2 E3 E4. subst p'.
  assert (Hp : (ls' = ls ∧ ld' = ld) ∨ (ls' = ld ∧ ld' = ls)) by lia.
  assert (Ha : (sa' = sa ∧ da' = da) ∨ (sa' = da ∧ da' = sa)) by lia.
  unfold mirror_addresses, mirror_ports. cbn.
  destruct Hp as [[-> ->]|[-> ->]], Ha as [[-> ->]|[-> ->]]; auto.
Qed.

Section correctness.
Context {DEV FLOWS : Type} `{!BpfMap Z Z DEV} `{!BpfMap flow_ctx_table_key flow_ctx_table_leaf FLOWS}.
Implicit Types (t : FLOWS) (data : list Z) (k : flow_ctx_table_key).

(** The table after a packet of the flow [k] from inside. *)
Definition open_flow k t : FLOWS :=
  match bpf_map_lookup_elem t k with
  | Some _ => t
  | None => default t (bpf_map_update_elem t k (mk_leaf A_PORT B_PORT))
  end.

(** The abstract step: drop, or ask the table, or open the flow and let out. *)
Definition fw_spec (tx_port : DEV) (dev : Z) data t : verdict * FLOWS :=
  match fw_key data with
  | None => (mk_verdict XDP_DROP None, t)
  | Some k =>
      if dev =? B_PORT then
        (match bpf_map_lookup_elem t k with
         | Some leaf => bpf_redirect_map tx_port (out_port leaf) 0
         | None => mk_verdict XDP_DROP None
         end, t)
      else (bpf_redirect_map tx_port B_PORT 0, open_flow k t)
  end.

Lemma xdp_fw_spec tx_port dev data t : xdp_fw_prog tx_port dev data t = Ok (fw_spec tx_port dev data t).
Proof.
  unfold xdp_fw_prog, EOP, fw_spec, fw_key, has_flow, is_tcpudp, SIZEOF_ETHER_HDR, SIZEOF_IPV4_HDR,
    SIZEOF_UDPHDR, ETHER_TYPE.
  change BE_ETH_P_IP with ETHER_TYPE_IPV4_BE.
  destruct (Z.ltb_spec (zlen data) 14) as [Hs|Hs].
  { by rewrite (proj2 (Z.leb_gt 42 (zlen data))) by lia. }
  rewrite (ld16_ok data 12) by lia. cbn [mbind res_bind].
  destruct (w16 data 12 =? ETHER_TYPE_IPV4_BE); cbn [negb andb]; [|by rewrite andb_false_r].
  change (14 + 20) with 34. destruct (Z.ltb_spec (zlen data) 34) as [Hs'|Hs'].
  { by rewrite (proj2 (Z.leb_gt 42 (zlen data))) by lia. }
  change (14 + IPV4_NEXT_PROTO_ID) with 23. rewrite (ld8_ok data 23) by lia. cbn [mbind res_bind].
  rewrite <- negb_orb. destruct (_ || _) eqn:Hproto; cbn [negb]; [|by rewrite andb_false_r].
  change (34 + 8) with 42. rewrite andb_true_r.
  destruct (Z.ltb_spec (zlen data) 42) as [Hl|Hl].
  { by rewrite (proj2 (Z.leb_gt 42 (zlen data))) by lia. }
  rewrite (proj2 (Z.leb_le 42 (zlen data))) by lia.
  change (14 + IPV4_SRC_ADDR) with 26. change (14 + IPV4_DST_ADDR) with 30.
  change (34 + TCPUDP_SRC_PORT) with 34. change (34 + TCPUDP_DST_PORT) with 36.
  rewrite !ld32_ok by lia. rewrite !ld16_ok by lia. cbn [mbind res_bind]. fold (flow_of data). unfold open_flow.
  destruct (dev =? B_PORT); destruct (bpf_map_lookup_elem t _); try done.
Qed.
End correctness.

(** ** Sequences of packets *)
Section runs.
Context {DEV FLOWS : Type} `{!BpfMap Z Z DEV} `{!BpfMap flow_ctx_table_key flow_ctx_table_leaf FLOWS}.
Context `{!BpfMapLaws flow_ctx_table_key flow_ctx_table_leaf FLOWS}.
Variable tx_port : DEV.
Implicit Types (t : FLOWS) (data : list Z) (k : flow_ctx_table_key).

(** The program on one frame after the other, each with the device it came from. *)
Fixpoint fw_run t (ps : list (Z * list Z)) : res (list verdict * FLOWS) :=
  match ps with
  | [] => Ok ([], t)
  | (dev, data) :: ps =>
      '(v, t) ← xdp_fw_prog tx_port dev data t;
      '(vs, t) ← fw_run t ps;
      Ok (v :: vs, t)
  end.

(** The table only has flows that a packet from inside opened, and they lead to
    [A_PORT]. *)
Definition opened (past : list (Z * list Z)) k : Prop :=
  ∃ dev data, (dev, data) ∈ past ∧ dev ≠ B_PORT ∧ fw_key data = Some k.

Definition table_ok (past : list (Z * list Z)) t : Prop :=
  ∀ k leaf, bpf_map_lookup_elem t k = Some leaf → opened past k ∧ out_port leaf = A_PORT.

Lemma opened_mono past past' k : past ⊆ past' → opened past k → opened past' k.
Proof. intros Hs (dev & data & Hin & H). exists dev, data. split; [by apply Hs|done]. Qed.

Lemma table_ok_step past dev data t :
  table_ok past t → table_ok (past ++ [(dev, data)]) (fw_spec tx_port dev data t).2.
Proof.
  intros Ht k leaf. assert (Hold : ∀ t', t' = t → bpf_map_lookup_elem t' k = Some leaf →
      opened (past ++ [(dev, data)]) k ∧ out_port leaf = A_PORT).
  { intros t' -> Hk. destruct (Ht k leaf Hk) as [Ho Hp]. split; [|done].
    eapply opened_mono; [|exact Ho]. intros x Hx. apply elem_of_app. by left. }
  unfold fw_spec. destruct (fw_key data) as [k0|] eqn:Hk0; [|by apply Hold].
  destruct (Z.eqb_spec dev B_PORT) as [->|Hdev]; cbn [snd]; [by apply Hold|].
  unfold open_flow. destruct (bpf_map_lookup_elem t k0) eqn:E0; [by apply Hold|].
  destruct (bpf_map_update_elem t k0 _) as [t'|] eqn:Eu; cbn; [|by apply Hold].
  intros Hk. destruct (decide (k = k0)) as [->|Hne].
  - rewrite (bpf_update_here _ _ _ _ Eu) in Hk. simplify_eq. split; [|done].
    exists dev, data. split; [|done]. apply elem_of_app. right. by apply list_elem_of_singleton.
  - by apply (Hold t eq_refl), (bpf_update_old t t' k0 k _ _ Eu).
Qed.

(** A run is total; it can be looked at one packet at a time. *)
Lemma fw_run_total past ps t :
  table_ok past t →
  ∃ vs t', fw_run t ps = Ok (vs, t') ∧ table_ok (past ++ ps) t' ∧ length vs = length ps.
Proof.
  revert past t. induction ps as [|[dev data] ps IH]; intros past t Ht.
  { exists [], t. by rewrite app_nil_r. }
  cbn [fw_run]. rewrite xdp_fw_spec. cbn [mbind res_bind].
  pose proof (table_ok_step past dev data t Ht) as Ht1.
  destruct (fw_spec tx_port dev data t) as [v t1]. cbn [snd] in Ht1.
  destruct (IH (past ++ [(dev, data)]) t1 Ht1) as (vs & t' & -> & Ht' & Hl).
  exists (v :: vs), t'. split; [done|]. split; [by rewrite <- app_assoc in Ht'|cbn; lia].
Qed.

Lemma fw_run_app t ps1 ps2 :
  fw_run t (ps1 ++ ps2) =
  ('(vs1, t1) ← fw_run t ps1; '(vs2, t2) ← fw_run t1 ps2; Ok (vs1 ++ vs2, t2)).
Proof.
  revert t. induction ps1 as [|[dev data] ps1 IH]; intros t; cbn [fw_run app].
  { cbn [mbind res_bind]. by destruct (fw_run t ps2) as [[vs2 t2]|]. }
  destruct (xdp_fw_prog tx_port dev data t) as [[v t1]|]; cbn [mbind res_bind]; [|done].
  rewrite IH. destruct (fw_run t1 ps1) as [[vs1 t2]|]; cbn [mbind res_bind]; [|done].
  by destruct (fw_run t2 ps2) as [[vs2 t3]|].
Qed.

(** A flow that is in the table stays there if the map does not evict. *)
Lemma known_flow_stays `{!BpfMapKeeps flow_ctx_table_key flow_ctx_table_leaf FLOWS} t ps vs t' k leaf :
  bpf_map_lookup_elem t k = Some leaf → fw_run t ps = Ok (vs, t') →
  bpf_map_lookup_elem t' k = Some leaf.
Proof.
  revert t vs. induction ps as [|[dev data] ps IH]; intros t vs Hk E; cbn [fw_run] in E.
  { by simplify_eq. }
  rewrite xdp_fw_spec in E. cbn [mbind res_bind] in E.
  destruct (fw_spec tx_port dev data t) as [v t1] eqn:Es.
  destruct (fw_run t1 ps) as [[vs1 t2]|] eqn:Er; cbn [mbind res_bind] in E; [|done]. simplify_eq.
  eapply IH; [|exact Er]. unfold fw_spec in Es. destruct (fw_key data) as [k0|]; [|by simplify_eq].
  destruct (dev =? B_PORT); simplify_eq; [done|]. unfold open_flow.
  destruct (bpf_map_lookup_elem t k0) eqn:E0; [done|].
  destruct (bpf_map_update_elem t k0 _) as [t1|] eqn:Eu; cbn; [|done].
  rewrite (bpf_update_keeps _ _ _ _ _ Eu); [done|]. by intros ->; simplify_eq.
Qed.
End runs.

(** ** The claims *)
Section claims.
Context {DEV FLOWS : Type} `{!BpfMap Z Z DEV} `{!BpfMap flow_ctx_table_key flow_ctx_table_leaf FLOWS}.
Context `{!BpfMapLaws flow_ctx_table_key flow_ctx_table_leaf FLOWS}.
Implicit Types (tx_port : DEV) (t : FLOWS) (data : list Z).

(** The two flows are one to the firewall: one is the other with the addresses in
    either order and the ports in either order. *)
Definition same_biflow (k k' : flow_ctx_table_key) : Prop :=
  k' = k ∨ k' = mirror_addresses k ∨ k' = mirror_ports k ∨ k' = mirror_ports (mirror_addresses k).

Lemma same_biflow_spec k k' : same_biflow k k' ↔ biflow k = biflow k'.
Proof.
  split; [|apply biflow_inv]. intros [->|[->|[->| ->]]];
    by rewrite ?biflow_mirror_ports, ?biflow_mirror_addresses.
Qed.

Lemma fw_key_some data k : fw_key data = Some k ↔ has_flow data = true ∧ biflow (flow_of data) = k.
Proof. unfold fw_key. destruct (has_flow data); naive_solver. Qed.

(** C31: The firewall is total on every sequence of frames, whatever their length and
    content: no access is outside of a frame. From an empty table it lets a packet
    from [B_PORT] through only to [A_PORT], and only if an earlier packet from
    another device had the same flow, up to the order of the addresses and that of
    the ports; also if the map evicts entries. *)
Theorem xdp_fw_blocks_unsolicited tx_port t ps :
  (∀ k, bpf_map_lookup_elem t k = None) →
  ∃ vs t', fw_run tx_port t ps = Ok (vs, t') ∧ length vs = length ps ∧
    ∀ i data v, ps !! i = Some (B_PORT, data) → vs !! i = Some v → v ≠ mk_verdict XDP_DROP None →
      v = bpf_redirect_map tx_port A_PORT 0 ∧ has_flow data = true ∧
      ∃ j dev data', (j < i)%nat ∧ ps !! j = Some (dev, data') ∧ dev ≠ B_PORT ∧
        has_flow data' = true ∧ same_biflow (flow_of data') (flow_of data).
Proof.
  intros Hempty. assert (Ht0 : table_ok [] t) by (intros k leaf Hk; by rewrite Hempty in Hk).
  destruct (fw_run_total tx_port [] ps t Ht0) as (vs & t' & E & _ & Hlen).
  exists vs, t'. split; [done|]. split; [done|]. intros i data v Hi Hv Hpass.
  rewrite <- (take_drop_middle ps i (B_PORT, data) Hi), fw_run_app in E.
  destruct (fw_run_total tx_port [] (take i ps) t Ht0) as (vs1 & t1 & E1 & Ht1 & Hl1).
  rewrite E1 in E. cbn [mbind res_bind fw_run] in E. rewrite xdp_fw_spec in E.
  cbn [mbind res_bind] in E. destruct (fw_spec tx_port B_PORT data t1) as [v' t2] eqn:Es.
  destruct (fw_run tx_port t2 (drop (S i) ps)) as [[vs2 t3]|]; cbn [mbind res_bind] in E; [|done].
  injection E as <- <-. pose proof (lookup_lt_Some _ _ _ Hi) as Hlt.
  rewrite length_take in Hl1. rewrite lookup_app_r in Hv by lia.
  replace (i - length vs1)%nat with O in Hv by lia. cbn in Hv. injection Hv as ->.
  unfold fw_spec in Es. destruct (fw_key data) as [k|] eqn:Hk; [|by simplify_eq].
  rewrite Z.eqb_refl in Es. destruct (bpf_map_lookup_elem t1 k) as [leaf|] eqn:El; [|by simplify_eq].
  destruct (Ht1 k leaf El) as [(dev & data' & Hin & Hdev & Hk') Hport]. rewrite Hport in Es.
  apply fw_key_some in Hk as [Hf Hk], Hk' as [Hf' Hk']. simplify_eq. split; [done|]. split; [done|].
  apply list_elem_of_lookup in Hin as [j Hj]. apply lookup_take_Some in Hj as [Hj Hji].
  exists j, dev, data'. do 4 (split; [done|]). by apply same_biflow_spec.
Qed.

(** Once a flow is in the table, packets from outside with the same key pass. *)
Lemma later_packet_admitted `{!BpfMapKeeps flow_ctx_table_key flow_ctx_table_leaf FLOWS}
    tx_port past t dev data v t1 ps data' :
  table_ok past t → dev ≠ B_PORT → xdp_fw_prog tx_port dev data t = Ok (v, t1) →
  has_flow data = true → bpf_map_lookup_elem t1 (biflow (flow_of data)) ≠ None →
  has_flow data' = true → same_biflow (flow_of data) (flow_of data') →
  ∃ vs t2, fw_run tx_port t1 ps = Ok (vs, t2) ∧
    xdp_fw_prog tx_port B_PORT data' t2 = Ok (bpf_redirect_map tx_port A_PORT 0, t2).
Proof.
  intros Ht Hdev E Hf Hroom Hf' Hsame. rewrite xdp_fw_spec in E.
  pose proof (table_ok_step tx_port past dev data t Ht) as Ht1.
  assert (Es : fw_spec tx_port dev data t = (v, t1)) by congruence. rewrite Es in Ht1. cbn in Ht1.
  destruct (bpf_map_lookup_elem t1 _) as [leaf|] eqn:El; [|done].
  destruct (fw_run_total tx_port _ ps t1 Ht1) as (vs & t2 & Er & Ht2 & _).
  exists vs, t2. split; [done|]. pose proof (known_flow_stays tx_port _ _ _ _ _ _ El Er) as El2.
  rewrite xdp_fw_spec. unfold fw_spec, fw_key. rewrite Hf', Z.eqb_refl.
  rewrite <- (proj1 (same_biflow_spec _ _) Hsame), El2. by rewrite (proj2 (Ht2 _ _ El2)).
Qed.

(** After a packet from inside for whose flow the table had room, the answer
    passes to [A_PORT], whatever came in between. *)
Theorem xdp_fw_admits_replies `{!BpfMapKeeps flow_ctx_table_key flow_ctx_table_leaf FLOWS}
    tx_port past t dev data v t1 ps reply :
  table_ok past t → dev ≠ B_PORT → xdp_fw_prog tx_port dev data t = Ok (v, t1) →
  has_flow data = true → bpf_map_lookup_elem t1 (biflow (flow_of data)) ≠ None →
  has_flow reply = true → flow_of reply = mirror_ports (mirror_addresses (flow_of data)) →
  ∃ vs t2, fw_run tx_port t1 ps = Ok (vs, t2) ∧
    xdp_fw_prog tx_port B_PORT reply t2 = Ok (bpf_redirect_map tx_port A_PORT 0, t2).
Proof.
  intros Ht Hdev E Hf Hroom Hf' Hr. apply (later_packet_admitted tx_port past t dev data v t1 ps);
    try done. right. by right; right.
Qed.

(** But [biflow] orders addresses and ports independently of each other, so
    that the firewall also lets in what is no answer: a packet from the other host
    with the ports not exchanged, that is from the port number of the client to the
    port number of the server, but at the client. *)
Theorem xdp_fw_admits_crossed_ports `{!BpfMapKeeps flow_ctx_table_key flow_ctx_table_leaf FLOWS}
    tx_port past t dev data v t1 ps crossed :
  table_ok past t → dev ≠ B_PORT → xdp_fw_prog tx_port dev data t = Ok (v, t1) →
  has_flow data = true → bpf_map_lookup_elem t1 (biflow (flow_of data)) ≠ None →
  has_flow crossed = true → flow_of crossed = mirror_addresses (flow_of data) →
  ∃ vs t2, fw_run tx_port t1 ps = Ok (vs, t2) ∧
    xdp_fw_prog tx_port B_PORT crossed t2 = Ok (bpf_redirect_map tx_port A_PORT 0, t2).
Proof.
  intros Ht Hdev E Hf Hroom Hf' Hr. apply (later_packet_admitted tx_port past t dev data v t1 ps);
    try done. right. by left.
Qed.

(** The result of the update is not looked at: when the table is full, a packet
    of a new flow still leaves to [B_PORT], and its answer is dropped. *)
Theorem xdp_fw_full_table tx_port t dev data reply :
  dev ≠ B_PORT → has_flow data = true → has_flow reply = true →
  flow_of reply = mirror_ports (mirror_addresses (flow_of data)) →
  bpf_map_lookup_elem t (biflow (flow_of data)) = None →
  bpf_map_update_elem t (biflow (flow_of data)) (mk_leaf A_PORT B_PORT) = None →
  xdp_fw_prog tx_port dev data t = Ok (bpf_redirect_map tx_port B_PORT 0, t) ∧
  xdp_fw_prog tx_port B_PORT reply t = Ok (mk_verdict XDP_DROP None, t).
Proof.
  intros Hdev Hf Hf' Hr Hnone Hfull. rewrite !xdp_fw_spec. unfold fw_spec, fw_key, open_flow.
  rewrite Hf, Hf', Hr, biflow_mirror_ports, biflow_mirror_addresses, Z.eqb_refl, Hnone, Hfull.
  by rewrite (proj2 (Z.eqb_neq _ _) Hdev).
Qed.
End claims.

(** ** Witnesses: frames of 42 bytes *)
Definition udp_frame (src dst : Z) (sport dport : Z) : list Z :=
  replicate 12 0 ++ [8; 0; 69] ++ replicate 8 0 ++ [17; 0; 0; src; 0; 0; 0; dst; 0; 0; 0;
    sport; 0; dport; 0; 0; 8; 0; 0].

Definition empty_table (n : nat) : bpf_hash flow_ctx_table_key flow_ctx_table_leaf := mk_hash n ∅.

(** Both ports of the machine are in the map of devices. *)
Definition both_ports : list Z := [0; 0; 0; 0; 0; 0; 106; 107; 0; 0].

Lemma xdp_fw_blocks_unsolicited_witness :
  let ps := [(A_PORT, udp_frame 1 2 3 4); (B_PORT, udp_frame 2 1 4 3); (B_PORT, udp_frame 2 1 4 5)] in
  (∀ k, bpf_map_lookup_elem (empty_table 4) k = None) ∧
  ∃ vs t', fw_run both_ports (empty_table 4) ps = Ok (vs, t') ∧ length vs = length ps ∧
    ∀ i data v, ps !! i = Some (B_PORT, data) → vs !! i = Some v → v ≠ mk_verdict XDP_DROP None →
      v = bpf_redirect_map both_ports A_PORT 0 ∧ has_flow data = true ∧
      ∃ j dev data', (j < i)%nat ∧ ps !! j = Some (dev, data') ∧ dev ≠ B_PORT ∧
        has_flow data' = true ∧ same_biflow (flow_of data') (flow_of data).
Proof.
  assert (Hempty : ∀ k, bpf_map_lookup_elem (empty_table 4) k = None) by (intros k; apply lookup_empty).
  split; [exact Hempty|]. exact (xdp_fw_blocks_unsolicited both_ports (empty_table 4) _ Hempty).
Defined.

(** The run of the witness: the answer passes, the other packet does not. *)
Example fw_run_example :
  match fw_run both_ports (empty_table 4)
    [(A_PORT, udp_frame 1 2 3 4); (B_PORT, udp_frame 2 1 4 3); (B_PORT, udp_frame 2 1 4 5)] with
  | Ok (vs, _) => bool_decide (vs = [mk_verdict XDP_REDIRECT (Some 107);
      mk_verdict XDP_REDIRECT (Some 106); mk_verdict XDP_DROP None])
  | Err _ => false
  end = true.
Proof. vm_compute. reflexivity. Qed.

(** The state after a first packet from inside. *)
Definition one_flow : verdict * bpf_hash flow_ctx_table_key flow_ctx_table_leaf :=
  fw_spec both_ports A_PORT (udp_frame 1 2 3 4) (empty_table 1).

Lemma empty_table_ok n : table_ok [] (empty_table n).
Proof. intros k leaf Hk. cbn in Hk. by rewrite lookup_empty in Hk. Qed.

Lemma xdp_fw_admits_replies_witness :
  ∃ vs t2, fw_run both_ports one_flow.2 [(A_PORT, udp_frame 1 2 3 5)] = Ok (vs, t2) ∧
    xdp_fw_prog both_ports B_PORT (udp_frame 2 1 4 3) t2 =
    Ok (bpf_redirect_map both_ports A_PORT 0, t2).
Proof.
  apply (xdp_fw_admits_replies both_ports [] (empty_table 1) A_PORT (udp_frame 1 2 3 4) one_flow.1);
    [apply empty_table_ok|done|rewrite xdp_fw_spec; f_equal; apply surjective_pairing|vm_compute; reflexivity|vm_compute; congruence
    |vm_compute; reflexivity|vm_compute; reflexivity].
Defined.

Lemma xdp_fw_admits_crossed_ports_witness :
  ∃ vs t2, fw_run both_ports one_flow.2 [] = Ok (vs, t2) ∧
    xdp_fw_prog both_ports B_PORT (udp_frame 2 1 3 4) t2 =
    Ok (bpf_redirect_map both_ports A_PORT 0, t2).
Proof.
  apply (xdp_fw_admits_crossed_ports both_ports [] (empty_table 1) A_PORT (udp_frame 1 2 3 4) one_flow.1);
    [apply empty_table_ok|done|rewrite xdp_fw_spec; f_equal; apply surjective_pairing|vm_compute; reflexivity|vm_compute; congruence
    |vm_compute; reflexivity|vm_compute; reflexivity].
Defined.

Lemma xdp_fw_full_table_witness :
  xdp_fw_prog both_ports A_PORT (udp_frame 1 2 3 5) one_flow.2 =
    Ok (bpf_redirect_map both_ports B_PORT 0, one_flow.2) ∧
  xdp_fw_prog both_ports B_PORT (udp_frame 2 1 5 3) one_flow.2 =
    Ok (mk_verdict XDP_DROP None, one_flow.2).
Proof.
  apply xdp_fw_full_table; [done|vm_compute; reflexivity..].
Defined.
