(* ===== verification/Checksum.v ===== *)
(** * The Internet checksum

    The reference (RFC 1071): the one's complement sum of the 16-bit words, which a
    receiver finds to be all ones; words are little-endian here as everywhere in the
    model, which does not matter for the checksum. Then what the helper
    [bpf_csum_diff] of the kernel promises, and how a program that uses it makes a
    header verify. *)

From S2P Require Import Prelude.
From S2P Require Import NfUtil.
From S2P Require Import Xdp.

(** ** The reference *)
Definition ones_add (a b : Z) : Z := if a + b <? 65536 then a + b else a + b - 65535.

Fixpoint ones_sum (l : list Z) : Z :=
  match l with
  | x0 :: x1 :: l => ones_add (x0 + 256 * x1) (ones_sum l)
  | [x0] => x0
  | [] => 0
  end.

Definition csum_ok (l : list Z) : Prop := ones_sum l = 65535.

(** The plain sum of the words. *)
Fixpoint sum16 (l : list Z) : Z :=
  match l with
  | x0 :: x1 :: l => x0 + 256 * x1 + sum16 l
  | [x0] => x0
  | [] => 0
  end.

Lemma bytes_ind (P : list Z → Prop) :
  P [] → (∀ x, P [x]) → (∀ x0 x1 l, P l → P (x0 :: x1 :: l)) → ∀ l, P l.
Proof.
  intros H0 H1 H2 l. assert (P l ∧ ∀ x, P (x :: l)) as [? _]; [|done].
  induction l as [|y l [IH IH']]; [auto|]. split; [by apply IH'|]. intros x. by apply H2.
Qed.

Lemma sum16_nonneg l : bytes_ok l → 0 <= sum16 l.
Proof.
  induction l as [|x|x0 x1 l IH] using bytes_ind; intros Hb; cbn; [lia| |];
    apply Forall_cons in Hb as [Hx Hb]; [lia|].
  apply Forall_cons in Hb as [Hx1 Hb]. specialize (IH Hb). lia.
Qed.

Lemma ones_add_spec a b :
  0 <= a <= 65535 → 0 <= b <= 65535 →
  0 <= ones_add a b <= 65535 ∧ ones_add a b mod 65535 = (a + b) mod 65535 ∧
  (ones_add a b = 0 ↔ a + b = 0).
Proof.
  intros Ha Hb. unfold ones_add. destruct (Z.ltb_spec (a + b) 65536); [split; [lia|done]|].
  split; [lia|]. split; [|lia].
  replace (a + b - 65535) with (a + b + (-1) * 65535) by lia. by rewrite Z.mod_add by lia.
Qed.

Lemma ones_sum_spec l :
  bytes_ok l → 0 <= ones_sum l <= 65535 ∧ ones_sum l mod 65535 = sum16 l mod 65535 ∧
  (ones_sum l = 0 ↔ sum16 l = 0).
Proof.
  induction l as [|x|x0 x1 l IH] using bytes_ind; intros Hb; cbn; [lia| |];
    apply Forall_cons in Hb as [Hx Hb]; [lia|].
  apply Forall_cons in Hb as [Hx1 Hb]. destruct (IH Hb) as (Hr & Hm & Hz).
  pose proof (sum16_nonneg l Hb) as Hn.
  destruct (ones_add_spec (x0 + 256 * x1) (ones_sum l)) as (Hr' & Hm' & Hz'); [lia|done|].
  split; [done|]. split; [|lia].
  rewrite Hm', <- Z.add_mod_idemp_r, Hm, Z.add_mod_idemp_r by lia. done.
Qed.

Lemma csum_ok_intro l : bytes_ok l → sum16 l mod 65535 = 0 → sum16 l ≠ 0 → csum_ok l.
Proof.
  intros Hb Hm Hz. destruct (ones_sum_spec l Hb) as (Hr & Hm' & Hz'). unfold csum_ok.
  rewrite Hm in Hm'. destruct (decide (ones_sum l = 65535)) as [|Hne]; [done|].
  rewrite Z.mod_small in Hm' by lia. tauto.
Qed.

(** ** Slices of a buffer *)
Definition slice (b : list Z) (off n : Z) : list Z := take (Z.to_nat n) (drop (Z.to_nat off) b).

(** [memcpy] from a buffer. *)
Fixpoint ld_bytes (b : list Z) (off : Z) (n : nat) : res (list Z) :=
  match n with
  | O => Ok []
  | S n => x ← rd b off; xs ← ld_bytes b (off + 1) n; Ok (x :: xs)
  end.

(** The sum of [n] words from [off] on. *)
Fixpoint wsum (b : list Z) (off : Z) (n : nat) : Z :=
  match n with O => 0 | S n => w16 b off + wsum b (off + 2) n end.

Section slices.
Implicit Types (b : list Z) (off n : Z).

Lemma slice_S b off n : 0 <= off < zlen b → 0 < n → slice b off n = getz b off :: slice b (off + 1) (n - 1).
Proof.
  intros Ho Hn. unfold slice. replace (Z.to_nat n) with (S (Z.to_nat (n - 1))) by lia.
  replace (Z.to_nat (off + 1)) with (S (Z.to_nat off)) by lia.
  assert (Hl : b !! Z.to_nat off = Some (getz b off)).
  { apply list_lookup_lookup_total_lt. unfold zlen in Ho. lia. }
  rewrite (drop_S b _ _ Hl). done.
Qed.

Lemma slice_0 b off : slice b off 0 = [].
Proof. done. Qed.

Lemma zlen_slice b off n : 0 <= off → 0 <= n → off + n <= zlen b → zlen (slice b off n) = n.
Proof. unfold slice, zlen. intros. rewrite length_take, length_drop. lia. Qed.

Lemma getz_slice b off n i :
  0 <= off → 0 <= i < n → off + n <= zlen b → getz (slice b off n) i = getz b (off + i).
Proof.
  intros Ho Hi Hl. unfold slice, getz, zlen in *. rewrite !list_lookup_total_alt.
  rewrite lookup_take_lt, lookup_drop by lia. do 2 f_equal. lia.
Qed.

Lemma ld_bytes_ok b off (n : nat) :
  0 <= off → off + Z.of_nat n <= zlen b → ld_bytes b off n = Ok (slice b off (Z.of_nat n)).
Proof.
  revert off. induction n as [|n IH]; intros off Ho Hl; [done|]. cbn [ld_bytes].
  rewrite rd_ok by lia. cbn [mbind res_bind]. rewrite IH by lia. cbn [mbind res_bind].
  rewrite (slice_S b off (Z.of_nat (S n))) by lia. do 3 f_equal. lia.
Qed.

Lemma slice_ext b b' off off' n :
  0 <= off → 0 <= off' → 0 <= n → off + n <= zlen b → off' + n <= zlen b' →
  (∀ i, 0 <= i < n → getz b (off + i) = getz b' (off' + i)) → slice b off n = slice b' off' n.
Proof.
  intros Ho Ho' Hn Hl Hl' Hg. apply getz_ext; [by rewrite !zlen_slice by lia|].
  intros i Hi. rewrite zlen_slice in Hi by lia. rewrite !getz_slice by lia. by apply Hg.
Qed.

Lemma bytes_ok_slice b off n : bytes_ok b → bytes_ok (slice b off n).
Proof. intros Hb. unfold slice. by apply Forall_take, Forall_drop. Qed.

Lemma bytes_ok_app b1 b2 : bytes_ok b1 → bytes_ok b2 → bytes_ok (b1 ++ b2).
Proof. intros. by apply Forall_app. Qed.

Lemma bytes_ok_intro b : (∀ i, 0 <= i < zlen b → 0 <= getz b i < 256) → bytes_ok b.
Proof. intros Hb. apply Forall_forall. intros x (i & Hi & <-)%getz_elem_of. by apply Hb. Qed.

Lemma sum16_slice b off (n : nat) :
  0 <= off → off + 2 * Z.of_nat n <= zlen b → sum16 (slice b off (2 * Z.of_nat n)) = wsum b off n.
Proof.
  revert off. induction n as [|n IH]; intros off Ho Hl; [done|].
  rewrite (slice_S b off), (slice_S b (off + 1)) by lia. cbn [sum16 wsum].
  replace (2 * Z.of_nat (S n) - 1 - 1) with (2 * Z.of_nat n) by lia.
  replace (off + 1 + 1) with (off + 2) by lia. by rewrite IH by lia.
Qed.

Lemma wsum_app b off (m n : nat) : wsum b off (m + n) = wsum b off m + wsum b (off + 2 * Z.of_nat m) n.
Proof.
  revert off. induction m as [|m IH]; intros off; cbn [wsum Nat.add].
  { replace (off + 2 * Z.of_nat 0) with off by lia. lia. }
  rewrite IH. replace (off + 2 + 2 * Z.of_nat m) with (off + 2 * Z.of_nat (S m)) by lia. lia.
Qed.

Lemma wsum_ext b b' off off' (n : nat) :
  (∀ i, 0 <= i < 2 * Z.of_nat n → getz b (off + i) = getz b' (off' + i)) →
  wsum b off n = wsum b' off' n.
Proof.
  revert off off'. induction n as [|n IH]; intros off off' Hg; [done|]. cbn [wsum]. f_equal.
  - unfold w16. rewrite <- (Z.add_0_r off), <- (Z.add_0_r off'), Hg by lia.
    replace (off + 0 + 1) with (off + 1) by lia. replace (off' + 0 + 1) with (off' + 1) by lia.
    by rewrite Hg by lia.
  - apply IH. intros i Hi. replace (off + 2 + i) with (off + (2 + i)) by lia.
    replace (off' + 2 + i) with (off' + (2 + i)) by lia. apply Hg. lia.
Qed.

(** Only the word at [c] has changed. *)
Lemma wsum_update b b' off (n : nat) c :
  0 <= off → off <= c → c + 2 <= off + 2 * Z.of_nat n → (c - off) mod 2 = 0 → frame c 2 b b' →
  wsum b' off n = wsum b off n - w16 b c + w16 b' c.
Proof.
  intros Ho Hc Hl Hev [_ F]. set (m := Z.to_nat ((c - off) / 2)).
  assert (Hm : off + 2 * Z.of_nat m = c).
  { unfold m. rewrite Z2Nat.id by (apply Z.div_pos; lia).
    pose proof (Z.div_mod (c - off) 2). lia. }
  replace n with (m + (1 + (n - m - 1)))%nat by lia. rewrite !wsum_app, !Hm.
  change (Z.of_nat 1) with 1. cbn [wsum].
  rewrite (wsum_ext b' b off off m) by (intros; apply F; lia).
  rewrite (wsum_ext b' b (c + 2 * 1) (c + 2 * 1) (n - m - 1)) by (intros; apply F; lia). lia.
Qed.
End slices.

Lemma sum16_app l1 l2 : zlen l1 mod 2 = 0 → sum16 (l1 ++ l2) = sum16 l1 + sum16 l2.
Proof.
  induction l1 as [|x|x0 x1 l1 IH] using bytes_ind; intros He; [done|done|].
  cbn [app sum16]. rewrite IH; [lia|]. rewrite !zlen_cons in He.
  replace (1 + (1 + zlen l1)) with (zlen l1 + 1 * 2) in He by lia. by rewrite Z.mod_add in He by lia.
Qed.

Lemma slice_end b off : 0 <= off <= zlen b → slice b off (zlen b - off) = drop (Z.to_nat off) b.
Proof.
  intros Ho. unfold slice. apply take_ge. rewrite length_drop. unfold zlen in *. lia.
Qed.

(** ** Fields as bytes *)
(** The bytes of a 32-bit field, and of a 16-bit one. *)
Definition bytes32 (x : Z) : list Z := [u8 x; u8 (x / 2 ^ 8); u8 (x / 2 ^ 16); u8 (x / 2 ^ 24)].
Definition bytes16 (x : Z) : list Z := [u8 x; u8 (x / 2 ^ 8)].

Lemma st_bytes_list b off bytes :
  0 <= off → off + zlen bytes <= zlen b →
  st_bytes b off bytes =
  Ok (take (Z.to_nat off) b ++ bytes ++ drop (Z.to_nat off + length bytes) b).
Proof.
  revert b off. induction bytes as [|x bytes IH]; intros b off Ho Hl.
  { cbn. by rewrite Nat.add_0_r, take_drop. }
  cbn [st_bytes]. rewrite zlen_cons in Hl. pose proof (zlen_nonneg bytes).
  rewrite wr_ok by lia. cbn [mbind res_bind]. rewrite IH by (rewrite ?zlen_setz; lia). f_equal.
  unfold setz. replace (Z.to_nat (off + 1)) with (S (Z.to_nat off)) by lia.
  assert (Hlt : (Z.to_nat off < length b)%nat) by (unfold zlen in Hl; lia).
  rewrite (take_S_r _ _ x) by (by apply list_lookup_insert_eq).
  rewrite take_insert_ge by lia. rewrite drop_insert_lt by lia. rewrite <- app_assoc. cbn.
  do 4 f_equal. lia.
Qed.

Lemma st16_bytes b off v : st16 b off v = st_bytes b off (bytes16 v).
Proof. unfold st16, bytes16. cbn. destruct (wr b off _); cbn; [|done]. by destruct (wr _ _ _). Qed.

Lemma u8_u16 v : u8 (u16 v) = u8 v.
Proof. apply Z.mod_mod_divide. by exists (2 ^ 8). Qed.

Lemma u8_u16_high v : u8 (u16 v / 2 ^ 8) = u8 (v / 2 ^ 8).
Proof.
  unfold u8, u16. change (2 ^ 16) with (2 ^ 8 * 2 ^ 8). rewrite Z.rem_mul_r by lia.
  rewrite Z.mul_comm, Z.div_add by lia. rewrite (Z.div_small (v mod 2 ^ 8)) by (apply Z.mod_pos_bound; lia).
  rewrite Z.add_0_l. by rewrite Z.mod_mod.
Qed.

Lemma st32_bytes b off v : st32 b off v = st_bytes b off (bytes32 v).
Proof.
  unfold st32. rewrite st16_bytes. unfold bytes16, bytes32.
  rewrite u8_u16, u8_u16_high. cbn [st_bytes].
  destruct (wr b off _) as [b1|]; cbn [mbind res_bind]; [|done].
  destruct (wr b1 (off + 1) _) as [b2|]; cbn [mbind res_bind]; [|done].
  rewrite st16_bytes. unfold bytes16. rewrite u8_u16, u8_u16_high. cbn [st_bytes].
  replace (off + 1 + 1) with (off + 2) by lia.
  change 65536 with (2 ^ 16). rewrite Z.div_div by lia. change (2 ^ 16 * 2 ^ 8) with (2 ^ 24). done.
Qed.

Lemma u8_small x : 0 <= x < 256 → u8 x = x.
Proof. apply Z.mod_small. Qed.

Lemma bytes16_le a b : 0 <= a < 256 → 0 <= b < 256 → bytes16 (a + 256 * b) = [a; b].
Proof.
  intros Ha Hb. unfold bytes16, u8. change (2 ^ 8) with 256.
  rewrite (Z.mul_comm 256), Z.mod_add, Z.div_add by lia. rewrite (Z.div_small a) by lia.
  rewrite Z.add_0_l, !Z.mod_small by lia. done.
Qed.

Lemma bytes32_le a b c d :
  0 <= a < 256 → 0 <= b < 256 → 0 <= c < 256 → 0 <= d < 256 →
  bytes32 (a + 256 * b + 65536 * (c + 256 * d)) = [a; b; c; d].
Proof.
  intros Ha Hb Hc Hd. unfold bytes32, u8.
  rewrite <- (Z.mod_unique_pos (a + 256 * b + 65536 * (c + 256 * d)) (2 ^ 8) (b + 256 * (c + 256 * d)) a) by lia.
  rewrite <- (Z.div_unique_pos (a + 256 * b + 65536 * (c + 256 * d)) (2 ^ 8) (b + 256 * (c + 256 * d)) a) by lia.
  rewrite <- (Z.div_unique_pos (a + 256 * b + 65536 * (c + 256 * d)) (2 ^ 16) (c + 256 * d) (a + 256 * b)) by lia.
  rewrite <- (Z.div_unique_pos (a + 256 * b + 65536 * (c + 256 * d)) (2 ^ 24) d (a + 256 * b + 65536 * c)) by lia.
  rewrite <- (Z.mod_unique_pos (b + 256 * (c + 256 * d)) (2 ^ 8) (c + 256 * d) b) by lia.
  rewrite <- (Z.mod_unique_pos (c + 256 * d) (2 ^ 8) d c) by lia.
  rewrite Z.mod_small by lia. done.
Qed.

Lemma bytes16_ok v : bytes_ok (bytes16 v).
Proof. repeat constructor; apply Z.mod_pos_bound; lia. Qed.

Lemma bytes32_ok v : bytes_ok (bytes32 v).
Proof. repeat constructor; apply Z.mod_pos_bound; lia. Qed.

Lemma bytes16_sum v : 0 <= v < 65536 → u8 v + 256 * u8 (v / 2 ^ 8) = v.
Proof.
  intros Hv. unfold u8. change (2 ^ 8) with 256. rewrite (Z.mod_small (v / 256)).
  - pose proof (Z.div_mod v 256). lia.
  - split; [apply Z.div_pos; lia|apply Z.div_lt_upper_bound; lia].
Qed.

(** ** Pieces of a buffer *)
Lemma getz_app_l (l1 l2 : list Z) i : 0 <= i < zlen l1 → getz (l1 ++ l2) i = getz l1 i.
Proof.
  intros Hi. unfold getz, zlen in *. rewrite !list_lookup_total_alt, lookup_app_l by lia. done.
Qed.

Lemma w16_app_l l1 l2 i : 0 <= i → i + 2 <= zlen l1 → w16 (l1 ++ l2) i = w16 l1 i.
Proof. intros. unfold w16. by rewrite !getz_app_l by lia. Qed.

Lemma w32_app_l l1 l2 i : 0 <= i → i + 4 <= zlen l1 → w32 (l1 ++ l2) i = w32 l1 i.
Proof. intros. unfold w32. by rewrite !w16_app_l by lia. Qed.

Lemma getz_app_r (l1 l2 : list Z) i : zlen l1 <= i → getz (l1 ++ l2) i = getz l2 (i - zlen l1).
Proof.
  intros Hi. unfold getz, zlen in *. rewrite !list_lookup_total_alt, lookup_app_r by lia.
  do 2 f_equal. lia.
Qed.

Lemma bytes32_sum v :
  0 <= v < 2 ^ 32 →
  u8 v + 256 * u8 (v / 2 ^ 8) + 65536 * (u8 (v / 2 ^ 16) + 256 * u8 (v / 2 ^ 24)) = v.
Proof.
  intros Hv. change (2 ^ 16) with (2 ^ 8 * 2 ^ 8). change (2 ^ 24) with (2 ^ 8 * 2 ^ 8 * 2 ^ 8).
  rewrite <- !Z.div_div by lia. unfold u8. change (2 ^ 8) with 256.
  rewrite (Z.mod_small (v / 256 / 256 / 256)).
  - pose proof (Z.div_mod v 256). pose proof (Z.div_mod (v / 256) 256).
    pose proof (Z.div_mod (v / 256 / 256) 256). lia.
  - rewrite !Z.div_div by lia. split; [apply Z.div_pos; lia|apply Z.div_lt_upper_bound; lia].
Qed.

Lemma w32_bytes32 l1 v l2 off : zlen l1 = off → 0 <= v < 2 ^ 32 → w32 (l1 ++ bytes32 v ++ l2) off = v.
Proof.
  intros Hl Hv. unfold w32, w16. rewrite !(getz_app_r l1) by lia. rewrite Hl.
  replace (off - off) with 0 by lia. replace (off + 1 - off) with 1 by lia.
  replace (off + 2 - off) with 2 by lia. replace (off + 2 + 1 - off) with 3 by lia.
  by apply bytes32_sum.
Qed.

Lemma st_bytes_piece l1 old new l2 off :
  off = zlen l1 → length old = length new →
  st_bytes (l1 ++ old ++ l2) off new = Ok (l1 ++ new ++ l2).
Proof.
  intros -> Hl. unfold zlen. rewrite st_bytes_list.
  - rewrite Nat2Z.id, take_app_length. do 3 f_equal. rewrite app_assoc.
    rewrite drop_app_length' by (rewrite length_app; lia). done.
  - lia.
  - unfold zlen. rewrite !length_app. lia.
Qed.

Lemma ld_bytes_piece l1 l l2 off n :
  off = zlen l1 → n = length l → ld_bytes (l1 ++ l ++ l2) off n = Ok l.
Proof.
  intros -> ->. unfold zlen. rewrite ld_bytes_ok by (unfold zlen; rewrite ?length_app; lia).
  unfold slice. by rewrite !Nat2Z.id, drop_app_length, take_app_length.
Qed.

Lemma u8_byte x : 0 <= u8 x < 256.
Proof. apply Z.mod_pos_bound. lia. Qed.

Lemma new_doff_byte x y : 0 <= Z.land x 15 + 16 * (y mod 16) < 256.
Proof. pose proof (land15_bound x). pose proof (Z.mod_pos_bound y 16). lia. Qed.

Lemma const_byte x : (0 <=? x) && (x <? 256) = true → 0 <= x < 256.
Proof. intros [H1 H2]%andb_prop. lia. Qed.

(** ** [bpf_csum_diff]

    The helper without the bytes to remove ([from_size] is 0 in all calls): the
    checksum of some bytes, a multiple of four, added to a seed. It is a 32-bit
    partial sum: which one, the documentation leaves open, only its residue is
    fixed. *)
Class CsumDiff (bpf_csum_diff : list Z → Z → Z) := {
  csum_diff_bound to seed : 0 <= seed < 2 ^ 32 → 0 <= bpf_csum_diff to seed < 2 ^ 32;
  csum_diff_spec to seed :
    bytes_ok to → zlen to mod 4 = 0 → 0 <= seed < 2 ^ 32 →
    bpf_csum_diff to seed mod 65535 = (seed + sum16 to) mod 65535
}.

(** A function that does it. *)
Definition csum_partial (to : list Z) (seed : Z) : Z := (seed + sum16 to) mod 65535.

#[global] Instance csum_partial_diff : CsumDiff csum_partial.
Proof.
  split; intros; unfold csum_partial; [|by rewrite Z.mod_mod by lia].
  pose proof (Z.mod_pos_bound (seed + sum16 to) 65535). lia.
Qed.

(** A checksum field that holds the complement of the sum of the rest makes the
    whole verify. *)
Lemma complement_verifies s r : 0 <= r <= 65535 → r mod 65535 = s mod 65535 → 0 < s →
  (s + u16 (Z.lnot r)) mod 65535 = 0 ∧ s + u16 (Z.lnot r) ≠ 0.
Proof.
  intros Hr Hm Hs. assert (E : u16 (Z.lnot r) = 65535 - r).
  { unfold u16, Z.lnot. replace (Z.pred (- r)) with (65535 - r + (-1) * 2 ^ 16) by lia.
    rewrite Z.mod_add by lia. apply Z.mod_small. lia. }
  rewrite E. split; [|lia].
  replace (s + (65535 - r)) with (s - r + 1 * 65535) by lia. rewrite Z.mod_add by lia.
  by apply Z.cong_iff_0.
Qed.

(** ** A checksum field *)
Lemma fold_residue c : (c / 65536 + c mod 65536) mod 65535 = c mod 65535.
Proof.
  rewrite (Z.div_mod c 65536) at 3 by lia.
  replace (65536 * (c / 65536) + c mod 65536)
    with (c / 65536 + c mod 65536 + c / 65536 * 65535) by lia.
  by rewrite Z.mod_add by lia.
Qed.

(** A checksum field in the middle of some bytes. *)
Lemma field_sum l1 v l2 :
  zlen l1 mod 2 = 0 → 0 <= v < 65536 →
  sum16 (l1 ++ bytes16 v ++ l2) = sum16 l1 + v + sum16 l2.
Proof.
  intros He Hv. rewrite sum16_app by done. rewrite sum16_app by done.
  unfold bytes16 at 1. cbn [sum16]. rewrite bytes16_sum by done. lia.
Qed.

(** The field gets the complement of the sum of everything else, [extra] included. *)
Lemma field_verifies l1 l2 extra r :
  zlen l1 mod 2 = 0 → bytes_ok l1 → bytes_ok l2 → bytes_ok extra → zlen extra mod 2 = 0 →
  0 <= r <= 65535 → r mod 65535 = sum16 (extra ++ l1 ++ [0; 0] ++ l2) mod 65535 →
  0 < sum16 (extra ++ l1) → csum_ok (extra ++ l1 ++ bytes16 (u16 (Z.lnot r)) ++ l2).
Proof.
  intros He H1 H2 Hx Hex Hr Hm Hpos. pose proof (sum16_nonneg l1 H1). pose proof (sum16_nonneg l2 H2).
  rewrite sum16_app in Hm, Hpos by done. change [0; 0] with (bytes16 0) in Hm.
  rewrite field_sum in Hm by (done || lia).
  destruct (complement_verifies (sum16 extra + (sum16 l1 + 0 + sum16 l2)) r Hr Hm) as [Hz Hnz]; [lia|].
  assert (E : sum16 (extra ++ l1 ++ bytes16 (u16 (Z.lnot r)) ++ l2) =
              sum16 extra + (sum16 l1 + 0 + sum16 l2) + u16 (Z.lnot r)).
  { rewrite sum16_app, field_sum; [lia|done|apply u16_bound|done]. }
  apply csum_ok_intro; [|by rewrite E|by rewrite E].
  repeat (apply bytes_ok_app; [done || apply bytes16_ok|]). done.
Qed.

(** ** More on fields *)
Lemma st_bytes_total b off bytes :
  0 <= off → off + zlen bytes <= zlen b → ∃ b', st_bytes b off bytes = Ok b' ∧ zlen b' = zlen b.
Proof.
  intros Ho Hl. destruct (st_bytes_ok b off bytes Ho Hl) as (b' & E & [L _] & _). by exists b'.
Qed.

Lemma st16_total b off v : 0 <= off → off + 2 <= zlen b → ∃ b', st16 b off v = Ok b' ∧ zlen b' = zlen b.
Proof. intros Ho Hl. rewrite st16_bytes. apply st_bytes_total; [done|]. by change (zlen (bytes16 v)) with 2. Qed.

Lemma ntohs_bound x : 0 <= bpf_ntohs x < 65536.
Proof.
  unfold bpf_ntohs, be_to_cpu_16. pose proof (u8_byte x). pose proof (u8_byte (x / 256)). lia.
Qed.

Lemma ntohs_htons x : 0 <= x < 65536 → bpf_ntohs (bpf_htons x) = x.
Proof.
  intros Hx. unfold bpf_ntohs, bpf_htons, be_to_cpu_16.
  pose proof (u8_byte x) as Ha. pose proof (u8_byte (x / 256)) as Hb.
  pose proof (bytes16_sum x Hx) as E. change (2 ^ 8) with 256 in E.
  set (a := u8 x) in *. set (b := u8 (x / 256)) in *. unfold u8 at 1 2. change (2 ^ 8) with 256.
  rewrite <- (Z.mod_unique_pos (a * 256 + b) 256 a b) by lia.
  rewrite <- (Z.div_unique_pos (a * 256 + b) 256 a b) by lia. rewrite Z.mod_small by lia. lia.
Qed.

Lemma w16_bytes16 l1 v l2 off : zlen l1 = off → 0 <= v < 65536 → w16 (l1 ++ bytes16 v ++ l2) off = v.
Proof.
  intros Hl Hv. unfold w16. rewrite !(getz_app_r l1) by lia. rewrite Hl.
  replace (off - off) with 0 by lia. replace (off + 1 - off) with 1 by lia. by apply bytes16_sum.
Qed.

Lemma w32_take n b off : 0 <= off → off + 4 <= n → n <= zlen b → w32 (take (Z.to_nat n) b) off = w32 b off.
Proof.
  intros. rewrite <- (take_drop (Z.to_nat n) b) at 2. rewrite w32_app_l; [done|lia|].
  unfold zlen in *. rewrite length_take. lia.
Qed.

Lemma w16_take n b off : 0 <= off → off + 2 <= n → n <= zlen b → w16 (take (Z.to_nat n) b) off = w16 b off.
Proof.
  intros. rewrite <- (take_drop (Z.to_nat n) b) at 2. rewrite w16_app_l; [done|lia|].
  unfold zlen in *. rewrite length_take. lia.
Qed.

Lemma bytes32_w32 b off : bytes_ok b → 0 <= off → off + 4 <= zlen b → bytes32 (w32 b off) = slice b off 4.
Proof.
  intros Hb Ho Hl. unfold w32, w16. rewrite bytes32_le by (apply bytes_ok_get; [done|lia]).
  rewrite (slice_S b off), (slice_S b (off + 1)), (slice_S b (off + 1 + 1)),
    (slice_S b (off + 1 + 1 + 1)) by lia.
  replace (off + 1 + 1) with (off + 2) by lia. done.
Qed.

(** ** Explicit frames *)
Definition bytes_ok_b (l : list Z) : bool := forallb (λ x, (0 <=? x) && (x <? 256)) l.

Lemma bytes_ok_b_spec l : bytes_ok_b l = true → bytes_ok l.
Proof.
  unfold bytes_ok_b. rewrite forallb_forall. intros H. apply Forall_forall. intros x Hx.
  apply const_byte, H. by apply list_elem_of_In.
Qed.

Ltac len := unfold zlen; cbn [length app]; lia.
Ltac explicit :=
  cbv [slice nth take drop app length Z.to_nat Pos.to_nat Pos.iter_op Nat.add Init.Nat.add Z.of_nat
       Pos.of_succ_nat Pos.succ].
Ltac bytes_ne Hb := repeat (apply Forall_cons in Hb as [? Hb]).

(** Takes the first byte of a frame that is long enough. *)
Ltac peel data Hl :=
  destruct data as [|? data]; [exfalso; unfold zlen in Hl; cbn [length] in Hl; lia|].

(** Explicit lists of bytes, perhaps with a rest. *)
Ltac bytes :=
  unfold bytes_ok; cbn [take drop];
  repeat first [apply Forall_nil_2 | apply Forall_cons_2; [first [assumption | apply u8_byte | apply const_byte; reflexivity | apply new_doff_byte]|]];
  try assumption.

(** Adds the constants. *)
Ltac offsets :=
  cbv zeta; repeat match goal with |- context [Z.add ?a ?b] =>
    match a with Z0 => idtac | Zpos _ => idtac end; match b with Z0 => idtac | Zpos _ => idtac end;
    let c := eval cbv in (Z.add a b) in change (Z.add a b) with c end.

(** One store into an explicit list. *)
Ltac store :=
  rewrite st_bytes_list by len; explicit; rewrite ?bind_Ok.
