(* ===== verification/Crab.v ===== *)
(** * The CRAB load balancer on XDP: [ebpf-nfs/crab/lb_kern.c]

    A SYN to the virtual address is sent on to one of the servers, in turn, with a
    new TCP option that tells the server the virtual address; the rest of the
    connection does not pass the balancer. The program makes room for the option at
    the front of the frame and moves the headers there. *)

From S2P Require Import Prelude.
From S2P Require Import NfUtil.
From S2P Require Import Xdp.
From S2P Require Import Checksum.

Definition MAX_OPT_WORDS : nat := 10.
Definition REDIR_OPT_TYPE : Z := 42.
Definition SIZEOF_REDIR_OPT : Z := 8.
Definition SIZEOF_PSD_HEADER : Z := 12.
Definition TCP_FLAGS : Z := 13.
Definition TCP_CHECK : Z := 16.

Record redir_opt := mk_redir_opt { opt_type : Z; opt_size : Z; opt_ip : Z; opt_nop : Z }.
Definition redir_opt_bytes (o : redir_opt) : list Z :=
  [u8 (opt_type o); u8 (opt_size o)] ++ bytes32 (opt_ip o) ++ bytes16 (opt_nop o).

Record ipv4_psd_header := mk_psd {
  src_addr : Z; dst_addr : Z; zero : Z; proto : Z; len : Z
}.
Definition psd_bytes (h : ipv4_psd_header) : list Z :=
  bytes32 (src_addr h) ++ bytes32 (dst_addr h) ++ [u8 (zero h); u8 (proto h)] ++ bytes16 (len h).

Definition csum_reduce_helper (csum : Z) : Z :=
  let csum := u32 (Z.shiftr (Z.land csum 4294901760) 16 + Z.land csum 65535) in
  let csum := u32 (Z.shiftr (Z.land csum 4294901760) 16 + Z.land csum 65535) in
  u16 csum.

(** The maps of the program. *)
Record crab (ARR MACS : Type) := mk_crab {
  targets_map : ARR; macs_map : MACS; targets_count : ARR; cpu_rr_idx : ARR
}.
Arguments mk_crab {ARR MACS} _ _ _ _.
Arguments targets_map {ARR MACS} _.
Arguments macs_map {ARR MACS} _.
Arguments targets_count {ARR MACS} _.
Arguments cpu_rr_idx {ARR MACS} _.

Section program.
Context {ARR MACS : Type} `{!BpfMap Z Z ARR} `{!BpfMap Z (list Z) MACS}.
(** The helpers of the kernel: [bpf_csum_diff] with nothing to remove, and
    [bpf_xdp_adjust_head], which gives the bytes of the new frame. *)
Variable bpf_csum_diff : list Z → Z → Z.
Variable bpf_xdp_adjust_head : list Z → Z → option (list Z).
Implicit Types (m : crab ARR MACS) (data : list Z).

Definition get_target_idx_rr m : res (Z * crab ARR MACS) :=
  let key := 0 in
  match bpf_map_lookup_elem (targets_count m) key with
  | None => Ok (0, m)
  | Some count =>
      match bpf_map_lookup_elem (cpu_rr_idx m) key with
      | None => Ok (0, m)
      | Some rr_idx =>
          if count =? 0 then Err DivByZero
          else Ok (i32 (rr_idx mod count),
                   mk_crab (targets_map m) (macs_map m) (targets_count m)
                     (bpf_map_store (cpu_rr_idx m) key (u32 (rr_idx + 1))))
      end
  end.

(** [daddr] is the offset of the address to write. *)
Definition get_target (data : list Z) (daddr : Z) m : res (Z * list Z * crab ARR MACS) :=
  '(key, m) ← get_target_idx_rr m;
  match bpf_map_lookup_elem (targets_map m) (u32 key) with
  | None => Ok (-1, data, m)
  | Some target => data ← st32 data daddr target; Ok (0, data, m)
  end.

Definition update_macs (data : list Z) (dst_ip ethh : Z) m : res (Z * list Z) :=
  h_dest ← ld_bytes data (ethh + ETHER_D_ADDR) 6;
  data ← st_bytes data (ethh + ETHER_S_ADDR) h_dest;
  ip ← ld32 data dst_ip;
  match bpf_map_lookup_elem (macs_map m) ip with
  | None => Ok (-1, data)
  | Some target => data ← st_bytes data (ethh + ETHER_D_ADDR) target; Ok (0, data)
  end.

(** The words behind the new option, as long as the frame has any. *)
Fixpoint opt_loop (n : nat) (data : list Z) (opt csum : Z) : res Z :=
  match n with
  | O => Ok csum
  | S n =>
      if zlen data <? opt + 4 then Ok csum
      else
        word ← ld_bytes data opt 4;
        opt_loop n data (opt + 4) (u32 (bpf_csum_diff word csum))
  end.

(** Fix TCP CSUM. *)
Definition fix_tcp_csum (data : list Z) (iph tcph ptr : Z) : res (list Z) :=
  data ← st16 data (tcph + TCP_CHECK) 0;
  header ← ld_bytes data tcph (Z.to_nat (SIZEOF_TCPHDR + SIZEOF_REDIR_OPT));
  let csum := u32 (bpf_csum_diff header 0) in
  let opt := ptr + SIZEOF_REDIR_OPT in
  csum ← opt_loop MAX_OPT_WORDS data opt csum;
  let csum := csum_reduce_helper csum in
  saddr ← ld32 data (iph + IPV4_SRC_ADDR);
  daddr ← ld32 data (iph + IPV4_DST_ADDR);
  tot_len ← ld16 data (iph + IPV4_TOTAL_LENGTH);
  let psdh := mk_psd saddr daddr 0 IPPROTO_TCP (bpf_htons (u16 (bpf_ntohs tot_len - SIZEOF_IPV4_HDR))) in
  let csum := u32 (bpf_csum_diff (psd_bytes psdh) csum) in
  st16 data (tcph + TCP_CHECK) (u16 (Z.lnot (csum_reduce_helper csum))).

(** Fix IP checksum. *)
Definition fix_ip_csum (data : list Z) (iph : Z) : res (list Z) :=
  data ← st16 data (iph + IPV4_HDR_CHECKSUM) 0;
  header ← ld_bytes data iph (Z.to_nat SIZEOF_IPV4_HDR);
  st16 data (iph + IPV4_HDR_CHECKSUM)
    (u16 (Z.lnot (csum_reduce_helper (u32 (bpf_csum_diff header 0))))).

(** TCP HDR: the old header with the new length. *)
Definition write_tcp (data : list Z) (tcph : Z) (tcph_old : list Z) : res (list Z) :=
  data ← st_bytes data tcph tcph_old;
  x ← ld8 data (tcph + TCP_DOFF);
  wr data (tcph + TCP_DOFF)
    (Z.land x 15 + 16 * ((Z.shiftr x 4 + SIZEOF_REDIR_OPT / 4) mod 16)).

Definition handle_syn (data : list Z) (ethh iph tcph : Z) m : res (Z * list Z * crab ARR MACS) :=
  ethh_old ← ld_bytes data ethh (Z.to_nat SIZEOF_ETHER_HDR);
  iph_old ← ld_bytes data iph (Z.to_nat SIZEOF_IPV4_HDR);
  iph_old_daddr ← ld32 data (iph + IPV4_DST_ADDR);
  tcph_old ← ld_bytes data tcph (Z.to_nat SIZEOF_TCPHDR);
  match bpf_xdp_adjust_head data (0 - SIZEOF_REDIR_OPT) with
  | None => Ok (XDP_ABORTED, data, m)
  | Some data =>
      let data_end := zlen data in
      let ethh := 0 in
      if data_end <? ethh + SIZEOF_ETHER_HDR then Ok (XDP_ABORTED, data, m)
      else
        data ← st_bytes data ethh ethh_old;
        let iph := ethh + SIZEOF_ETHER_HDR in
        if data_end <? iph + SIZEOF_IPV4_HDR then Ok (XDP_ABORTED, data, m)
        else
          data ← st_bytes data iph iph_old;
          tot_len ← ld16 data (iph + IPV4_TOTAL_LENGTH);
          data ← st16 data (iph + IPV4_TOTAL_LENGTH)
                   (bpf_htons (u16 (bpf_ntohs tot_len + SIZEOF_REDIR_OPT)));
          '(r, data, m) ← get_target data (iph + IPV4_DST_ADDR) m;
          if negb (r =? 0) then Ok (XDP_ABORTED, data, m)
          else
            '(r, data) ← update_macs data (iph + IPV4_DST_ADDR) ethh m;
            if negb (r =? 0) then Ok (XDP_ABORTED, data, m)
            else
              data ← fix_ip_csum data iph;
              let tcph := iph + SIZEOF_IPV4_HDR in
              if data_end <? tcph + SIZEOF_TCPHDR then Ok (XDP_ABORTED, data, m)
              else
                data ← write_tcp data tcph tcph_old;
                let ptr := tcph + SIZEOF_TCPHDR in
                if data_end <? ptr + SIZEOF_REDIR_OPT then Ok (XDP_ABORTED, data, m)
                else
                  let ropt := mk_redir_opt REDIR_OPT_TYPE 6 iph_old_daddr 257 in
                  data ← st_bytes data ptr (redir_opt_bytes ropt);
                  data ← fix_tcp_csum data iph tcph ptr;
                  Ok (XDP_TX, data, m)
  end.

(** The flags of the TCP header. *)
Definition tcp_ack (data : list Z) (tcph : Z) : res bool :=
  x ← ld8 data (tcph + TCP_FLAGS); Ok (Z.testbit x 4).
Definition tcp_syn (data : list Z) (tcph : Z) : res bool :=
  x ← ld8 data (tcph + TCP_FLAGS); Ok (Z.testbit x 1).

Definition xdp_prog_simple (data : list Z) m : res (Z * list Z * crab ARR MACS) :=
  let action := XDP_PASS in
  let pos := 0 in
  '(nh_type, pos, ethh) ← parse_ethhdr data pos;
  if negb (nh_type =? bpf_htons ETH_P_IP) then Ok (action, data, m)
  else
    '(ip_type, pos, iph) ← parse_iphdr data pos;
    if negb (ip_type =? IPPROTO_TCP) then Ok (action, data, m)
    else
      '(len, pos, tcph) ← parse_tcphdr data pos;
      if len <? 0 then Ok (XDP_ABORTED, data, m)
      else
        match ethh, iph, tcph with
        | Some ethh, Some iph, Some tcph =>
            ack ← tcp_ack data tcph;
            if (ack : bool) then Ok (action, data, m)
            else
              syn ← tcp_syn data tcph;
              if (syn : bool) then handle_syn data ethh iph tcph m
              else Ok (action, data, m)
        | _, _, _ => Err OutOfBounds
        end.
End program.

(** ** Lemmas: checksums *)
Lemma fold_spec c :
  0 <= c < 2 ^ 32 →
  Z.shiftr (Z.land c 4294901760) 16 + Z.land c 65535 = c / 65536 + c mod 65536.
Proof.
  intros Hc. rewrite Z.shiftr_land. change (Z.shiftr 4294901760 16) with (Z.ones 16).
  change 65535 with (Z.ones 16). rewrite !Z.land_ones by lia. rewrite Z.shiftr_div_pow2 by lia.
  change (2 ^ 16) with 65536. rewrite (Z.mod_small (c / 65536)); [done|].
  split; [apply Z.div_pos; lia|apply Z.div_lt_upper_bound; lia].
Qed.

Lemma csum_reduce_spec c :
  0 <= c < 2 ^ 32 →
  0 <= csum_reduce_helper c <= 65535 ∧ csum_reduce_helper c mod 65535 = c mod 65535.
Proof.
  intros Hc. unfold csum_reduce_helper. rewrite (fold_spec c Hc).
  set (c1 := c / 65536 + c mod 65536).
  assert (H1 : 0 <= c1 <= 131070).
  { unfold c1. pose proof (Z.mod_pos_bound c 65536).
    pose proof (Z.div_pos c 65536). pose proof (Z.div_lt_upper_bound c 65536 65536). lia. }
  rewrite (u32_id c1) by lia. rewrite (fold_spec c1) by lia.
  set (c2 := c1 / 65536 + c1 mod 65536).
  assert (H2 : 0 <= c2 <= 65535).
  { unfold c2. pose proof (Z.div_mod c1 65536). pose proof (Z.mod_pos_bound c1 65536). lia. }
  rewrite (u32_id c2), (u16_id c2) by lia. split; [done|].
  unfold c2. rewrite fold_residue. apply fold_residue.
Qed.

Section checksums.
Context (bpf_csum_diff : list Z → Z → Z) `{!CsumDiff bpf_csum_diff}.
Implicit Types (data : list Z).

(** The helper on a 32-bit variable. *)
Lemma diff_spec to seed :
  bytes_ok to → zlen to mod 4 = 0 → 0 <= seed < 2 ^ 32 →
  0 <= u32 (bpf_csum_diff to seed) < 2 ^ 32 ∧
  u32 (bpf_csum_diff to seed) mod 65535 = (seed + sum16 to) mod 65535.
Proof.
  intros Hb Hl Hs. pose proof (csum_diff_bound to seed Hs) as Hr.
  rewrite u32_id by done. split; [done|]. by apply csum_diff_spec.
Qed.

(** The loop over the options never fails; if the rest of the frame is at most ten
    whole words, it adds all of them. *)
Lemma opt_loop_spec n data opt csum :
  bytes_ok data → 0 <= opt <= zlen data → 0 <= csum < 2 ^ 32 →
  ∃ c, opt_loop bpf_csum_diff n data opt csum = Ok c ∧ 0 <= c < 2 ^ 32 ∧
    (zlen data - opt <= 4 * Z.of_nat n → (zlen data - opt) mod 4 = 0 →
     c mod 65535 = (csum + sum16 (slice data opt (zlen data - opt))) mod 65535).
Proof.
  intros Hb. revert opt csum. induction n as [|n IH]; intros opt csum Ho Hc; cbn [opt_loop].
  { exists csum. split; [done|]. split; [done|]. intros Hn _.
    replace (zlen data - opt) with 0 by lia. rewrite slice_0. cbn. by rewrite Z.add_0_r. }
  destruct (Z.ltb_spec (zlen data) (opt + 4)) as [Hs|Hs].
  { exists csum. split; [done|]. split; [done|]. intros _ Hm. rewrite Z.mod_small in Hm by lia.
    rewrite Hm, slice_0. cbn. by rewrite Z.add_0_r. }
  rewrite (ld_bytes_ok data opt 4) by lia. cbn [mbind res_bind]. change (Z.of_nat 4) with 4.
  destruct (diff_spec (slice data opt 4) csum) as [Hr Hm];
    [by apply bytes_ok_slice|by rewrite zlen_slice by lia|done|].
  destruct (IH (opt + 4) _ ltac:(lia) Hr) as (c & -> & Hc' & Hspec).
  exists c. split; [done|]. split; [done|]. intros Hn Hm4. rewrite Hspec; [|lia|].
  2: { replace (zlen data - (opt + 4)) with (zlen data - opt + (-1) * 4) by lia.
       by rewrite Z.mod_add by lia. }
  rewrite <- Z.add_mod_idemp_l, Hm, Z.add_mod_idemp_l by lia.
  assert (E : slice data opt (zlen data - opt) =
              slice data opt 4 ++ slice data (opt + 4) (zlen data - (opt + 4))).
  { rewrite !slice_end by lia. unfold slice.
    replace (Z.to_nat (opt + 4)) with (Z.to_nat opt + 4)%nat by lia.
    by rewrite <- drop_drop, (take_drop 4). }
  rewrite E, sum16_app by by rewrite zlen_slice by lia. f_equal. lia.
Qed.

End checksums.

(** ** What the program makes of a SYN

    The reference: the frame with the new addresses, lengths and checksums, and the
    option behind the TCP header. *)
Definition encap (data mac : list Z) (target ip_check tcp_check : Z) : list Z :=
  mac ++ slice data 0 6 ++ slice data 12 4 ++
  bytes16 (bpf_htons (u16 (bpf_ntohs (w16 data 16) + 8))) ++ slice data 18 6 ++
  bytes16 ip_check ++ slice data 26 4 ++ bytes32 target ++ slice data 34 12 ++
  [Z.land (getz data 46) 15 + 16 * ((Z.shiftr (getz data 46) 4 + 2) mod 16)] ++ slice data 47 3 ++
  bytes16 tcp_check ++ slice data 52 2 ++ [42; 6] ++ slice data 30 4 ++ [1; 1] ++ drop 54 data.

(** The pseudo header of TCP, for a segment of [len] bytes. *)
Definition pseudo_header (data : list Z) (len : Z) : list Z :=
  slice data 26 8 ++ [0; IPPROTO_TCP] ++ bytes16 (bpf_htons len).

Section handle_syn.
Context {ARR MACS : Type} `{!BpfMap Z Z ARR} `{!BpfMap Z (list Z) MACS}.
Context (bpf_csum_diff : list Z → Z → Z) `{!CsumDiff bpf_csum_diff}.
Variable bpf_xdp_adjust_head : list Z → Z → option (list Z).
Implicit Types (m : crab ARR MACS) (data : list Z).

Lemma fix_ip_csum_spec l1 l2 c0 c1 l3 :
  zlen l1 = 14 → zlen l2 = 10 → zlen l3 >= 8 → bytes_ok l2 → bytes_ok l3 → 0 < sum16 l2 →
  ∃ ck, 0 <= ck < 65536 ∧
    fix_ip_csum bpf_csum_diff (l1 ++ l2 ++ [c0; c1] ++ l3) 14 = Ok (l1 ++ l2 ++ bytes16 ck ++ l3) ∧
    csum_ok (l2 ++ bytes16 ck ++ take 8 l3).
Proof.
  intros L1 L2 L3 B2 B3 Hpos. unfold fix_ip_csum, IPV4_HDR_CHECKSUM. change (14 + 10) with 24.
  assert (T : ∀ (a b : Z) v, st_bytes (l1 ++ l2 ++ [a; b] ++ l3) 24 (bytes16 v) =
    Ok (l1 ++ l2 ++ bytes16 v ++ l3)).
  { intros a b v. unfold zlen in *. rewrite st_bytes_list.
    - f_equal. rewrite !(app_assoc l1 l2).
      rewrite take_app_length' by (rewrite length_app; lia).
      rewrite (app_assoc (l1 ++ l2) [a; b] l3).
      rewrite drop_app_length'; [done|]. rewrite !length_app. cbn. lia.
    - lia.
    - unfold zlen. rewrite !length_app. cbn. lia. }
  rewrite st16_bytes, T. cbn [mbind res_bind].
  rewrite ld_bytes_ok by (unfold zlen, SIZEOF_IPV4_HDR in *; rewrite ?length_app; cbn; lia). cbn [mbind res_bind].
  change (Z.of_nat (Z.to_nat SIZEOF_IPV4_HDR)) with 20.
  assert (E : slice (l1 ++ l2 ++ bytes16 0 ++ l3) 14 20 = l2 ++ [0; 0] ++ take 8 l3).
  { unfold slice, zlen in *. rewrite drop_app_length' by lia. rewrite take_app_ge by lia. f_equal.
    replace (Z.to_nat 20 - length l2)%nat with 10%nat by lia. done. }
  rewrite E. set (hdr := l2 ++ [0; 0] ++ take 8 l3).
  assert (Lh : zlen hdr = 20).
  { unfold hdr, zlen in *. rewrite !length_app, length_take. change (length [0; 0]) with 2%nat. lia. }
  assert (Bh : bytes_ok hdr).
  { unfold hdr. apply bytes_ok_app; [done|]. apply (bytes_ok_app [0; 0]).
    - repeat constructor; lia.
    - by apply Forall_take. }
  destruct (diff_spec bpf_csum_diff hdr 0) as [Hr Hm]; [done|by rewrite Lh|lia|].
  destruct (csum_reduce_spec _ Hr) as [Hr' Hm'].
  pose proof (T 0 0) as T0. change [0; 0] with (bytes16 0) in T0. rewrite st16_bytes, T0.
  eexists. split; [apply u16_bound|]. split; [done|].
  apply (field_verifies l2 (take 8 l3) []); try done; [by rewrite L2|by apply Forall_take|constructor|].
  by rewrite Hm', Hm.
Qed.

Lemma psd_bytes_spec h : bytes_ok (psd_bytes h) ∧ zlen (psd_bytes h) = 12.
Proof.
  split; [|done]. unfold psd_bytes. repeat apply bytes_ok_app; try apply bytes32_ok; try apply bytes16_ok.
  repeat constructor; apply Z.mod_pos_bound; lia.
Qed.

Lemma psd_bytes_pos h : proto h = IPPROTO_TCP → 0 < sum16 (psd_bytes h).
Proof.
  intros Hp. assert (Hu : ∀ x, 0 <= u8 x < 256) by (intros; apply Z.mod_pos_bound; lia).
  unfold psd_bytes, bytes32, bytes16. rewrite Hp. change (u8 IPPROTO_TCP) with 6.
  cbn [app sum16].
  repeat match goal with |- context [u8 ?x] =>
    let H := fresh in pose proof (Hu x) as H; generalize dependent (u8 x); intros end. lia.
Qed.

Definition segment_psd (l1 : list Z) : ipv4_psd_header :=
  mk_psd (w32 l1 26) (w32 l1 30) 0 IPPROTO_TCP
    (bpf_htons (u16 (bpf_ntohs (w16 l1 16) - SIZEOF_IPV4_HDR))).

Lemma fix_tcp_csum_spec l1 t1 c0 c1 t2 rest :
  zlen l1 = 34 → zlen t1 = 16 → zlen t2 = 10 → bytes_ok l1 → bytes_ok t1 → bytes_ok t2 → bytes_ok rest →
  ∃ ck, 0 <= ck < 65536 ∧
    fix_tcp_csum bpf_csum_diff (l1 ++ t1 ++ [c0; c1] ++ t2 ++ rest) 14 34 54 =
      Ok (l1 ++ t1 ++ bytes16 ck ++ t2 ++ rest) ∧
    (zlen rest <= 40 → zlen rest mod 4 = 0 →
     csum_ok (psd_bytes (segment_psd l1) ++ t1 ++ bytes16 ck ++ t2 ++ rest)).
Proof.
  intros L1 L2 L3 B1 B2 B3 Br. unfold fix_tcp_csum, TCP_CHECK. change (34 + 16) with 50.
  assert (T : ∀ (a b : Z) v, st_bytes (l1 ++ t1 ++ [a; b] ++ t2 ++ rest) 50 (bytes16 v) =
    Ok (l1 ++ t1 ++ bytes16 v ++ t2 ++ rest)).
  { intros a b v. unfold zlen in *. rewrite st_bytes_list.
    - f_equal. rewrite !(app_assoc l1 t1).
      rewrite take_app_length' by (rewrite length_app; lia).
      rewrite (app_assoc (l1 ++ t1) [a; b]).
      rewrite drop_app_length'; [done|]. rewrite !length_app. cbn. lia.
    - lia.
    - unfold zlen. rewrite !length_app. cbn. lia. }
  rewrite st16_bytes, T. cbn [mbind res_bind]. set (data := l1 ++ t1 ++ bytes16 0 ++ t2 ++ rest).
  assert (Ld : zlen data = 62 + zlen rest).
  { unfold data, zlen in *. rewrite !length_app. change (length (bytes16 0)) with 2%nat. lia. }
  pose proof (zlen_nonneg rest) as Hrest.
  assert (Bd : bytes_ok data) by (repeat (apply bytes_ok_app; [done || apply bytes16_ok|]); done).
  rewrite ld_bytes_ok by (rewrite ?Ld; unfold SIZEOF_TCPHDR, SIZEOF_REDIR_OPT; lia). cbn [mbind res_bind].
  change (Z.of_nat (Z.to_nat (SIZEOF_TCPHDR + SIZEOF_REDIR_OPT))) with 28.
  change (54 + SIZEOF_REDIR_OPT) with 62.
  assert (E28 : slice data 34 28 = t1 ++ [0; 0] ++ t2).
  { unfold data, slice, zlen in *. rewrite drop_app_length' by lia.
    rewrite (app_assoc t1), (app_assoc (t1 ++ _)). rewrite take_app_length'.
    - by rewrite <- app_assoc.
    - rewrite !length_app. change (length (bytes16 0)) with 2%nat. lia. }
  assert (Erest : slice data 62 (zlen data - 62) = rest).
  { rewrite slice_end by lia. unfold data. rewrite !app_assoc. apply drop_app_length'.
    unfold zlen in *. rewrite !length_app. change (length (bytes16 0)) with 2%nat. lia. }
  rewrite E28. set (hdr := t1 ++ [0; 0] ++ t2).
  assert (Bh : bytes_ok hdr) by (unfold hdr; rewrite <- E28; by apply bytes_ok_slice).
  assert (Lh : zlen hdr = 28) by (unfold hdr; rewrite <- E28; apply zlen_slice; lia).
  destruct (diff_spec bpf_csum_diff hdr 0) as [Hr Hm]; [done|by rewrite Lh|lia|].
  destruct (opt_loop_spec bpf_csum_diff MAX_OPT_WORDS data 62 _ Bd ltac:(lia) Hr) as (c & -> & Hc & Hcm).
  cbn [mbind res_bind]. destruct (csum_reduce_spec c Hc) as [Hr1 Hm1].
  change (14 + IPV4_SRC_ADDR) with 26. change (14 + IPV4_DST_ADDR) with 30.
  change (14 + IPV4_TOTAL_LENGTH) with 16.
  rewrite !ld32_ok by lia. rewrite ld16_ok by lia. cbn [mbind res_bind].
  assert (Epsd : segment_psd data = segment_psd l1).
  { unfold segment_psd, data. by rewrite !w32_app_l, w16_app_l by lia. }
  fold (segment_psd data). rewrite Epsd.
  destruct (psd_bytes_spec (segment_psd l1)) as [Bp Lp].
  destruct (diff_spec bpf_csum_diff (psd_bytes (segment_psd l1)) (csum_reduce_helper c)) as [Hr2 Hm2];
    [done|by rewrite Lp|lia|].
  destruct (csum_reduce_spec _ Hr2) as [Hr3 Hm3].
  pose proof (T 0 0) as T0. change [0; 0] with (bytes16 0) in T0. unfold data. rewrite st16_bytes, T0.
  eexists. split; [apply u16_bound|]. split; [done|]. intros H40 H4.
  rewrite Ld in Hcm. replace (62 + zlen rest - 62) with (zlen rest) in Hcm by lia.
  replace (zlen data - 62) with (zlen rest) in Erest by lia. rewrite Erest in Hcm.
  specialize (Hcm ltac:(unfold MAX_OPT_WORDS; lia) H4).
  apply (field_verifies t1 (t2 ++ rest) (psd_bytes (segment_psd l1))); try done;
    [by rewrite L2|by apply bytes_ok_app| |].
  - rewrite Hm3, Hm2, <- Z.add_mod_idemp_l, Hm1, Hcm by lia.
    rewrite Z.add_mod_idemp_l by lia. rewrite <- Z.add_assoc, <- Z.add_mod_idemp_l, Hm by lia.
    rewrite Z.add_mod_idemp_l by lia. unfold hdr. rewrite (sum16_app (psd_bytes _)) by done.
    rewrite !(sum16_app t1) by (by rewrite L2). rewrite !(sum16_app [0; 0]) by done.
    rewrite (sum16_app t2) by (by rewrite L3). f_equal. lia.
  - rewrite (sum16_app (psd_bytes _)) by done. pose proof (psd_bytes_pos (segment_psd l1) eq_refl).
    pose proof (sum16_nonneg t1 B2). lia.
Qed.

Definition bump m rr : crab ARR MACS :=
  mk_crab (targets_map m) (macs_map m) (targets_count m) (bpf_map_store (cpu_rr_idx m) 0 (u32 (rr + 1))).

(** The maps send the next packet to [target] at [mac]. *)
Record next_target m (rr count target : Z) (mac : list Z) : Prop := {
  nt_count : bpf_map_lookup_elem (targets_count m) 0 = Some count;
  nt_rr : bpf_map_lookup_elem (cpu_rr_idx m) 0 = Some rr;
  nt_range : 0 < count < 2 ^ 32 ∧ 0 <= rr < 2 ^ 32;
  nt_target : bpf_map_lookup_elem (targets_map m) (rr mod count) = Some target;
  nt_target_range : 0 <= target < 2 ^ 32;
  nt_mac : bpf_map_lookup_elem (macs_map m) target = Some mac;
  nt_mac_len : zlen mac = 6;
  nt_mac_bytes : bytes_ok mac
}.

Lemma u32_i32 x : 0 <= x < 2 ^ 32 → u32 (i32 x) = x.
Proof.
  intros Hx. unfold u32, i32. rewrite Zminus_mod_idemp_l.
  replace (x + 2 ^ 31 - 2 ^ 31) with x by lia. by apply Z.mod_small.
Qed.

Lemma get_target_spec m rr count target mac data daddr :
  next_target m rr count target mac →
  get_target data daddr m = (data ← st_bytes data daddr (bytes32 target); Ok (0, data, bump m rr)).
Proof.
  intros [H1 H2 [Hc Hrr] H3 _ _ _ _]. unfold get_target, get_target_idx_rr. rewrite H1, H2.
  rewrite (proj2 (Z.eqb_neq count 0)) by lia. cbn [mbind res_bind].
  pose proof (Z.mod_pos_bound rr count ltac:(lia)). rewrite u32_i32 by lia. cbn [targets_map].
  rewrite H3, st32_bytes. done.
Qed.

Lemma update_macs_spec m rr count target mac dst src l :
  next_target m rr count target mac → zlen dst = 6 → zlen src = 6 → 34 <= zlen (dst ++ src ++ l) →
  w32 (dst ++ src ++ l) 30 = target →
  update_macs (dst ++ src ++ l) 30 0 (bump m rr) = Ok (0, mac ++ dst ++ l).
Proof.
  intros [_ _ _ _ _ Hmac Hml _] Hd Hs Hl Hw. unfold update_macs, ETHER_D_ADDR, ETHER_S_ADDR.
  unfold zlen in Hd, Hs, Hml. change (0 + 0) with 0. change (0 + 6) with 6.
  rewrite (ld_bytes_piece [] dst (src ++ l)) by (done || lia). cbn [mbind res_bind].
  rewrite (st_bytes_piece dst src dst l) by (unfold zlen; lia). cbn [mbind res_bind].
  assert (E : w32 (dst ++ dst ++ l) 30 = target).
  { rewrite <- Hw. rewrite !app_assoc. unfold w32, w16.
    rewrite !(getz_app_r (dst ++ dst)) by (unfold zlen; rewrite length_app; lia).
    rewrite !(getz_app_r (dst ++ src)) by (unfold zlen; rewrite length_app; lia).
    unfold zlen. rewrite !length_app. by replace (length src) with (length dst) by lia. }
  rewrite ld32_ok, E; [|lia|unfold zlen in *; rewrite !length_app in *; lia]. cbn [mbind res_bind macs_map bump].
  rewrite Hmac. rewrite (st_bytes_piece [] dst mac (dst ++ l)) by (done || lia). done.
Qed.

Lemma write_tcp_spec l1 old l2 t1 x t2 :
  zlen l1 = 34 → zlen old = 20 → zlen t1 = 12 → zlen t2 = 7 →
  write_tcp (l1 ++ old ++ l2) 34 (t1 ++ [x] ++ t2) =
  Ok (l1 ++ (t1 ++ [Z.land x 15 + 16 * ((Z.shiftr x 4 + 2) mod 16)] ++ t2) ++ l2).
Proof.
  intros L1 L2 L3 L4. unfold write_tcp, TCP_DOFF. unfold zlen in *.
  rewrite (st_bytes_piece l1 old _ l2) by (unfold zlen; rewrite ?length_app; cbn; lia).
  cbn [mbind res_bind]. change (34 + 12) with 46.
  assert (E : l1 ++ (t1 ++ [x] ++ t2) ++ l2 = (l1 ++ t1) ++ [x] ++ (t2 ++ l2)) by by rewrite !app_assoc.
  rewrite E. assert (L : zlen (l1 ++ t1) = 46) by (unfold zlen; rewrite length_app; lia).
  rewrite ld8_ok by (split; [lia|unfold zlen in *; rewrite !length_app in *; cbn; lia]).
  rewrite getz_app_r, L by lia. cbn [mbind res_bind]. change (getz ([x] ++ _) (46 - 46)) with x.
  assert (W : ∀ b v, wr b 46 v = st_bytes b 46 [v]).
  { intros b v. cbn. by destruct (wr b 46 v). }
  rewrite W, (st_bytes_piece (l1 ++ t1) [x]) by done. by rewrite !app_assoc.
Qed.

Lemma redir_opt_spec data :
  bytes_ok data → 34 <= zlen data →
  redir_opt_bytes (mk_redir_opt REDIR_OPT_TYPE 6 (w32 data 30) 257) =
  [42; 6] ++ slice data 30 4 ++ [1; 1].
Proof.
  intros Hb Hl. unfold redir_opt_bytes. cbn [opt_type opt_size opt_ip opt_nop].
  unfold w32, w16. rewrite bytes32_le by (apply bytes_ok_get; [done|lia]).
  rewrite (slice_S data 30), (slice_S data (30 + 1)), (slice_S data (30 + 1 + 1)),
    (slice_S data (30 + 1 + 1 + 1)) by lia. done.
Qed.

Lemma handle_syn_spec m rr count target mac h data :
  next_target m rr count target mac → bytes_ok data → 54 <= zlen data → bytes_ok h → zlen h = 8 →
  bpf_xdp_adjust_head data (0 - SIZEOF_REDIR_OPT) = Some (h ++ data) → 0 < getz data 14 →
  ∃ ip_check tcp_check, let data' := encap data mac target ip_check tcp_check in
    0 <= ip_check < 65536 ∧ 0 <= tcp_check < 65536 ∧
    handle_syn bpf_csum_diff bpf_xdp_adjust_head data 0 14 34 m = Ok (XDP_TX, data', bump m rr) ∧
    csum_ok (slice data' 14 20) ∧
    (zlen data <= 94 → (zlen data - 54) mod 4 = 0 →
     csum_ok (psd_bytes (segment_psd (take 34 data')) ++ drop 34 data')).
Proof.
  intros Hnt Hb Hl Hbh Hlh Hadj Hver. unfold handle_syn. rewrite Hadj.
  unfold SIZEOF_ETHER_HDR, SIZEOF_IPV4_HDR, SIZEOF_TCPHDR, SIZEOF_REDIR_OPT, IPV4_DST_ADDR,
    IPV4_TOTAL_LENGTH in *.
  unfold ETHER_D_ADDR, ETHER_S_ADDR. offsets.
  rewrite !ld_bytes_ok by lia. cbn [mbind res_bind]. rewrite !ld32_ok by lia.
  cbn [mbind res_bind]. rewrite redir_opt_spec by (done || lia).
  do 54 peel data Hl. do 8 peel h Hlh.
  destruct h; [|exfalso; unfold zlen in Hlh; cbn [length] in Hlh; lia].
  explicit. cbn [mbind res_bind].
  rewrite (proj2 (Z.ltb_ge _ _)) by len. store.
  rewrite (proj2 (Z.ltb_ge _ _)) by len. store.
  rewrite ld16_ok by len. cbn [mbind res_bind]. rewrite st16_bytes.
  set (tot_len := bpf_htons _). unfold bytes16 at 1. store.
  rewrite (get_target_spec _ _ _ _ _ _ _ Hnt). unfold bytes32 at 1. store. cbn [Z.eqb negb].
  pose proof Hnt as [_ _ _ _ Htr _ Hml Hmb].
  match goal with |- context [update_macs (?a :: ?D) 30 0 _] =>
    pose proof (update_macs_spec m rr count target mac (take 6 (a :: D)) (take 6 (drop 6 (a :: D)))
      (drop 12 (a :: D)) Hnt eq_refl eq_refl ltac:(unfold zlen; cbn [take drop app length]; lia)
      (w32_bytes32 (take 30 (a :: D)) target (drop 34 (a :: D)) 30 eq_refl Htr)) as E
  end.
  do 6 peel mac Hml. destruct mac; [|exfalso; unfold zlen in Hml; cbn [length] in Hml; lia].
  revert E. explicit. intros E. rewrite E. clear E. cbn [mbind res_bind Z.eqb negb].
  pose proof Hb as Hb'. bytes_ne Hb'. bytes_ne Hmb.
  match goal with |- context [fix_ip_csum _ (?a :: ?D) _] =>
    pose proof (fix_ip_csum_spec (take 14 (a :: D)) (take 10 (drop 14 (a :: D))) (nth 23 D 0) (nth 24 D 0)
      (drop 26 (a :: D)) eq_refl eq_refl) as E end.
  destruct E as (ip_check & Hip & E & Hipok).
  { unfold zlen. cbn [take drop length]. lia. }
  { bytes. }
  { bytes. }
  { cbn [take drop sum16]. change (0 < z13) in Hver.
    pose proof (u8_byte tot_len). pose proof (u8_byte (tot_len / 2 ^ 8)). lia. }
  revert E Hipok. unfold bytes16. explicit. intros E Hipok. rewrite E. clear E. cbn [mbind res_bind].
  rewrite (proj2 (Z.ltb_ge _ _)) by len.
  match goal with |- context [write_tcp (?a :: ?D) _ (?b :: ?T)] =>
    pose proof (write_tcp_spec (take 34 (a :: D)) (take 20 (drop 34 (a :: D))) (drop 54 (a :: D))
      (take 12 (b :: T)) (nth 11 T 0) (drop 13 (b :: T)) eq_refl eq_refl eq_refl eq_refl) as E end.
  revert E. explicit. intros E. rewrite E. clear E. cbn [mbind res_bind].
  rewrite (proj2 (Z.ltb_ge _ _)) by len. store.
  match goal with |- context [fix_tcp_csum _ (?a :: ?D) _ _ _] =>
    pose proof (fix_tcp_csum_spec (take 34 (a :: D)) (take 16 (drop 34 (a :: D))) (nth 49 D 0) (nth 50 D 0)
      (take 10 (drop 52 (a :: D))) (drop 62 (a :: D)) eq_refl eq_refl eq_refl) as E end.
  destruct E as (tcp_check & Htcp & E & Htcpok).
  { bytes. }
  { bytes. }
  { bytes. }
  { bytes. }
  revert E Htcpok. explicit. intros E Htcpok. rewrite E. clear E. cbn [mbind res_bind].
  exists ip_check, tcp_check. split; [done|]. split; [done|]. split; [|split].
  - reflexivity.
  - exact Hipok.
  - intros Hmax Hwords. apply Htcpok.
    + revert Hmax. len.
    + rewrite <- Hwords. f_equal. len.
Qed.
End handle_syn.

(** ** Every frame is handled *)
Section total.
Context {ARR MACS : Type} `{!BpfMap Z Z ARR} `{!BpfMap Z (list Z) MACS}.
Context (bpf_csum_diff : list Z → Z → Z) `{!CsumDiff bpf_csum_diff}.
Variable bpf_xdp_adjust_head : list Z → Z → option (list Z).
Implicit Types (m : crab ARR MACS) (data : list Z).

(** The helper puts bytes in front of the frame, or fails. *)
Definition makes_room : Prop :=
  ∀ data d, bpf_xdp_adjust_head data (0 - SIZEOF_REDIR_OPT) = Some d →
  ∃ h, zlen h = SIZEOF_REDIR_OPT ∧ bytes_ok h ∧ d = h ++ data.

(** Some target is configured, and the addresses in the map have six bytes. *)
Definition configured m : Prop :=
  (∀ count, bpf_map_lookup_elem (targets_count m) 0 = Some count → count ≠ 0) ∧
  (∀ ip mac, bpf_map_lookup_elem (macs_map m) ip = Some mac → zlen mac = 6).

Lemma opt_loop_total n data opt csum : 0 <= opt → ∃ c, opt_loop bpf_csum_diff n data opt csum = Ok c.
Proof.
  revert opt csum. induction n as [|n IH]; intros opt csum Ho; cbn [opt_loop]; [by eexists|].
  destruct (Z.ltb_spec (zlen data) (opt + 4)); [by eexists|].
  rewrite ld_bytes_ok by lia. cbn [mbind res_bind]. apply IH. lia.
Qed.

Lemma fix_ip_csum_total data :
  34 <= zlen data → ∃ b, fix_ip_csum bpf_csum_diff data 14 = Ok b ∧ zlen b = zlen data.
Proof.
  intros Hl. unfold fix_ip_csum, IPV4_HDR_CHECKSUM, SIZEOF_IPV4_HDR.
  destruct (st16_total data (14 + 10) 0) as (b & -> & L); [lia..|]. cbn [mbind res_bind].
  rewrite ld_bytes_ok by lia. cbn [mbind res_bind].
  destruct (st16_total b (14 + 10) (u16 (Z.lnot (csum_reduce_helper (u32 (bpf_csum_diff
    (slice b 14 (Z.of_nat (Z.to_nat 20))) 0)))))) as (b' & -> & L'); [lia..|].
  exists b'. split; [done|lia].
Qed.

Lemma fix_tcp_csum_total data :
  62 <= zlen data → ∃ b, fix_tcp_csum bpf_csum_diff data 14 34 54 = Ok b.
Proof.
  intros Hl. unfold fix_tcp_csum, TCP_CHECK, SIZEOF_TCPHDR, SIZEOF_REDIR_OPT, IPV4_SRC_ADDR,
    IPV4_DST_ADDR, IPV4_TOTAL_LENGTH.
  destruct (st16_total data (34 + 16) 0) as (b & -> & L); [lia..|]. cbn [mbind res_bind].
  rewrite ld_bytes_ok by lia. cbn [mbind res_bind].
  destruct (opt_loop_total MAX_OPT_WORDS b (54 + 8)
    (u32 (bpf_csum_diff (slice b 34 (Z.of_nat (Z.to_nat (20 + 8)))) 0))) as (c & ->); [lia|].
  cbn [mbind res_bind]. rewrite !ld32_ok by lia. rewrite ld16_ok by lia. cbn [mbind res_bind].
  match goal with |- context [st16 b _ ?v] => destruct (st16_total b (34 + 16) v) as (b' & -> & _); [lia..|] end.
  by eexists.
Qed.

Lemma write_tcp_total data tcph_old :
  54 <= zlen data → zlen tcph_old = 20 →
  ∃ b, write_tcp data 34 tcph_old = Ok b ∧ zlen b = zlen data.
Proof.
  intros Hl Ht. unfold write_tcp, TCP_DOFF.
  destruct (st_bytes_total data 34 tcph_old) as (b & -> & L); [lia..|]. cbn [mbind res_bind].
  rewrite ld8_ok by lia. cbn [mbind res_bind]. rewrite wr_ok by lia. eexists. split; [done|].
  by rewrite zlen_setz.
Qed.

Lemma get_target_total data m :
  configured m → 34 <= zlen data →
  ∃ r b m', get_target data 30 m = Ok (r, b, m') ∧ zlen b = zlen data ∧ macs_map m' = macs_map m.
Proof.
  intros [Hc _] Hl. unfold get_target, get_target_idx_rr.
  assert (Hget : ∀ key m', macs_map m' = macs_map m →
    ∃ r b m'', match bpf_map_lookup_elem (targets_map m') (u32 key) with
      | Some target => data ← st32 data 30 target; Ok (0, data, m')
      | None => Ok (-1, data, m') end = Ok (r, b, m'') ∧ zlen b = zlen data ∧ macs_map m'' = macs_map m).
  { intros key m' Hm'. destruct (bpf_map_lookup_elem (targets_map m') _) as [t|]; [|by do 3 eexists].
    rewrite st32_bytes. destruct (st_bytes_total data 30 (bytes32 t)) as (b & -> & L);
      [lia|by change (zlen (bytes32 t)) with 4; lia|]. by do 3 eexists. }
  destruct (bpf_map_lookup_elem (targets_count m) 0) as [count|] eqn:Ec; [|by apply Hget].
  destruct (bpf_map_lookup_elem (cpu_rr_idx m) 0) as [rr|]; [|by apply Hget].
  rewrite (proj2 (Z.eqb_neq _ _)) by by apply Hc. cbn [mbind res_bind]. by apply Hget.
Qed.

Lemma update_macs_total data m :
  configured m → 34 <= zlen data →
  ∃ r b, update_macs data 30 0 m = Ok (r, b) ∧ zlen b = zlen data.
Proof.
  intros [_ Hm] Hl. unfold update_macs, ETHER_D_ADDR, ETHER_S_ADDR.
  rewrite (ld_bytes_ok data (0 + 0) 6) by lia. cbn [mbind res_bind]. change (Z.of_nat 6) with 6.
  destruct (st_bytes_total data (0 + 6) (slice data (0 + 0) 6)) as (b & -> & L);
    [lia|rewrite zlen_slice by lia; lia|]. cbn [mbind res_bind].
  rewrite ld32_ok by lia. cbn [mbind res_bind].
  destruct (bpf_map_lookup_elem (macs_map m) _) as [mac|] eqn:Em; [|by do 2 eexists].
  destruct (st_bytes_total b (0 + 0) mac) as (b' & -> & L'); [lia|rewrite (Hm _ _ Em); lia|].
  cbn [mbind res_bind]. do 2 eexists. split; [done|lia].
Qed.

(** Whatever the positions of the headers. *)
Lemma handle_syn_total data iph tcph m :
  makes_room → configured m → 14 <= zlen data → 0 <= iph → iph + 20 <= zlen data →
  0 <= tcph → tcph + 20 <= zlen data →
  ∃ a d m', handle_syn bpf_csum_diff bpf_xdp_adjust_head data 0 iph tcph m = Ok (a, d, m') ∧
    (a = XDP_ABORTED ∨ a = XDP_TX).
Proof.
  intros Hroom Hcfg Hl Hi Hil Ht Htl. unfold handle_syn. unfold SIZEOF_ETHER_HDR, SIZEOF_IPV4_HDR,
    SIZEOF_TCPHDR, IPV4_DST_ADDR, IPV4_TOTAL_LENGTH.
  rewrite !ld_bytes_ok by lia. cbn [mbind res_bind]. rewrite !ld32_ok by lia. cbn [mbind res_bind].
  destruct (bpf_xdp_adjust_head data _) as [d|] eqn:Ed; [|do 3 eexists; split; [done|by left]].
  destruct (Hroom data d Ed) as (h & Hh & _ & ->). unfold SIZEOF_REDIR_OPT in *.
  assert (Ld : zlen (h ++ data) = 8 + zlen data) by (rewrite zlen_app; lia).
  set (e := slice data 0 _). set (i := slice data iph _). set (t := slice data tcph _).
  assert (zlen e = 14 ∧ zlen i = 20 ∧ zlen t = 20) as (Le & Li & Lt).
  { unfold e, i, t. rewrite !zlen_slice by lia. lia. }
  rewrite (proj2 (Z.ltb_ge _ _)) by lia.
  destruct (st_bytes_total (h ++ data) 0 e) as (b1 & -> & L1); [lia..|]. cbn [mbind res_bind].
  offsets. destruct (Z.ltb_spec (zlen (h ++ data)) 34); [do 3 eexists; split; [done|by left]|].
  destruct (st_bytes_total b1 14 i) as (b2 & -> & L2); [lia..|]. cbn [mbind res_bind].
  rewrite ld16_ok by lia. cbn [mbind res_bind].
  destruct (st16_total b2 16 (bpf_htons (u16 (bpf_ntohs (w16 b2 16) + 8)))) as (b3 & -> & L3); [lia..|].
  cbn [mbind res_bind].
  destruct (get_target_total b3 m Hcfg) as (r & b4 & m' & -> & L4 & Hm'); [lia|]. cbn [mbind res_bind].
  destruct (negb _); [do 3 eexists; split; [done|by left]|].
  destruct (update_macs_total b4 m) as (r' & b5 & E5 & L5); [done|lia|].
  assert (E5' : update_macs b4 30 0 m' = Ok (r', b5)) by by rewrite <- E5; unfold update_macs; rewrite Hm'.
  rewrite E5'. cbn [mbind res_bind]. destruct (negb _); [do 3 eexists; split; [done|by left]|].
  destruct (fix_ip_csum_total b5) as (b6 & -> & L6); [lia|]. cbn [mbind res_bind].
  destruct (Z.ltb_spec (zlen (h ++ data)) 54); [do 3 eexists; split; [done|by left]|].
  destruct (write_tcp_total b6 t) as (b7 & -> & L7); [lia..|]. cbn [mbind res_bind].
  destruct (Z.ltb_spec (zlen (h ++ data)) 62); [do 3 eexists; split; [done|by left]|].
  match goal with |- context [st_bytes b7 54 ?o] => destruct (st_bytes_total b7 54 o) as (b8 & -> & L8);
    [lia|change (zlen o) with 8; lia|] end. cbn [mbind res_bind].
  destruct (fix_tcp_csum_total b8) as (b9 & ->); [lia|]. cbn [mbind res_bind].
  do 3 eexists. split; [done|by right].
Qed.
End total.

(** ** The claims *)
Section claims.
Context {ARR MACS : Type} `{!BpfMap Z Z ARR} `{!BpfMap Z (list Z) MACS}.
Context (bpf_csum_diff : list Z → Z → Z) `{!CsumDiff bpf_csum_diff}.
Variable bpf_xdp_adjust_head : list Z → Z → option (list Z).
Implicit Types (m : crab ARR MACS) (data : list Z).

Abbreviation prog := (xdp_prog_simple bpf_csum_diff bpf_xdp_adjust_head).

(** The balancer is total on frames of any length and content: no access outside
    of the frame, as long as a target is configured. A frame is passed to the kernel
    as it is, without a change to the maps, or given up, or sent out. *)
Theorem crab_safe m data :
  makes_room bpf_xdp_adjust_head → configured m →
  ∃ a data' m', prog data m = Ok (a, data', m') ∧
    (a = XDP_PASS ∧ data' = data ∧ m' = m ∨ a = XDP_ABORTED ∨ a = XDP_TX).
Proof.
  intros Hroom Hcfg. unfold xdp_prog_simple. pose proof (zlen_nonneg data) as Hn.
  assert (Hpass : ∃ a data' m', Ok (XDP_PASS, data, m) = Ok (a, data', m') ∧
    (a = XDP_PASS ∧ data' = data ∧ m' = m ∨ a = XDP_ABORTED ∨ a = XDP_TX)).
  { do 3 eexists. split; [done|by left]. }
  destruct (parse_ethhdr_ok data 0) as (r1 & p1 & h1 & -> & H1); [lia|]. cbn [mbind res_bind].
  destruct (Z.eqb_spec r1 (bpf_htons ETH_P_IP)) as [->|]; cbn [negb]; [|exact Hpass].
  destruct H1 as [(_ & ? & _)|[-> [Hp1 Hl1]]]; [done|]. unfold SIZEOF_ETHER_HDR in Hp1.
  destruct (parse_iphdr_ok data p1) as (r2 & p2 & h2 & -> & H2); [lia|]. cbn [mbind res_bind].
  destruct (Z.eqb_spec r2 IPPROTO_TCP) as [->|]; cbn [negb]; [|exact Hpass].
  destruct H2 as [(_ & ? & _)|[-> [Hp2 Hl2]]]; [done|]. unfold SIZEOF_IPV4_HDR in Hp2.
  destruct (parse_tcphdr_ok data p2) as (r3 & p3 & h3 & -> & H3); [lia|]. cbn [mbind res_bind].
  destruct H3 as [(-> & -> & ->)|[-> [Hp3 Hl3]]].
  { cbn. do 3 eexists. split; [done|]. by right; left. }
  unfold SIZEOF_TCPHDR in Hp3.
  destruct (r3 <? 0). { do 3 eexists. split; [done|]. by right; left. }
  unfold tcp_ack, tcp_syn, TCP_FLAGS. rewrite ld8_ok by lia. cbn [mbind res_bind].
  destruct (Z.testbit _ 4); [exact Hpass|]. destruct (Z.testbit _ 1); [|exact Hpass].
  destruct (handle_syn_total bpf_csum_diff bpf_xdp_adjust_head data p1 p2 m)
    as (a & d & m' & -> & Ha); try done; try lia.
  do 3 eexists. split; [done|by right].
Qed.

(** A SYN over plain Ethernet and IPv4 without options, the flags as a byte. *)
Definition plain_syn data : bool :=
  (54 <=? zlen data) && (w16 data 12 =? 8) && (Z.land (getz data 14) 15 =? 5) &&
  (getz data 23 =? IPPROTO_TCP) && (20 <=? Z.shiftr (getz data 46) 4 * 4) &&
  (34 + Z.shiftr (getz data 46) 4 * 4 <=? zlen data) &&
  negb (Z.testbit (getz data 47) 4) && Z.testbit (getz data 47) 1.

Lemma plain_syn_handled data m :
  plain_syn data = true → prog data m = handle_syn bpf_csum_diff bpf_xdp_adjust_head data 0 14 34 m.
Proof.
  intros Hs. unfold plain_syn in Hs.
  repeat (apply andb_prop in Hs as [Hs ?]). rewrite ?negb_true_iff, ?Z.eqb_eq, ?Z.leb_le in *.
  unfold xdp_prog_simple, parse_ethhdr, SIZEOF_ETHER_HDR, ETHER_TYPE.
  rewrite (proj2 (Z.ltb_ge _ _)) by lia. rewrite ld16_ok by lia. cbn [mbind res_bind Z.add].
  change (0 + 12) with 12. replace (w16 data 12) with 8 by lia. cbn [vlan_loop VLAN_MAX_DEPTH].
  change (negb (proto_is_vlan 8)) with true. cbn [mbind res_bind].
  change (8 =? bpf_htons ETH_P_IP) with true. cbn [negb]. change (0 + 14) with 14.
  unfold parse_iphdr, SIZEOF_IPV4_HDR, ihl, IPV4_VERSION_IHL, IPV4_NEXT_PROTO_ID.
  rewrite (proj2 (Z.ltb_ge _ _)) by lia. rewrite (ld8_ok data (14 + 0)) by lia. cbn [mbind res_bind].
  change (14 + 0) with 14. replace (Z.land (getz data 14) 15) with 5 by lia. change (5 * 4 <? 20) with false.
  cbv iota. rewrite (proj2 (Z.ltb_ge _ _)) by lia. rewrite (ld8_ok data (14 + 9)) by lia.
  cbn [mbind res_bind]. change (14 + 9) with 23. replace (getz data 23) with IPPROTO_TCP by lia.
  change (negb (IPPROTO_TCP =? IPPROTO_TCP)) with false. cbv iota. change (14 + 5 * 4) with 34.
  unfold parse_tcphdr, doff, SIZEOF_TCPHDR, TCP_DOFF. change (34 + 12) with 46.
  rewrite (proj2 (Z.ltb_ge _ _)) by lia. rewrite (ld8_ok data 46) by lia. cbn [mbind res_bind].
  rewrite (proj2 (Z.ltb_ge _ _)) by lia. rewrite (proj2 (Z.ltb_ge (zlen data) _)) by lia.
  cbn [mbind res_bind]. rewrite (proj2 (Z.ltb_ge _ 0)) by lia.
  unfold tcp_ack, tcp_syn, TCP_FLAGS. rewrite (ld8_ok data (34 + 13)) by lia. cbn [mbind res_bind].
  change (34 + 13) with 47. by repeat match goal with H : Z.testbit _ _ = _ |- _ => rewrite H; clear H end.
Qed.

(** What arrives at the server: the segment with its pseudo header verifies. *)
Definition segment_ok data : Prop := csum_ok (pseudo_header data (zlen data - 34) ++ drop 34 data).

Lemma zlen_encap data mac target c1 c2 :
  54 <= zlen data → zlen mac = 6 → zlen (encap data mac target c1 c2) = zlen data + 8.
Proof.
  intros Hl Hm. unfold encap, bytes16, bytes32. rewrite !zlen_app, !zlen_slice by lia. rewrite Hm.
  assert (Hd : zlen (drop 54 data) = zlen data - 54) by (unfold zlen in *; rewrite length_drop; lia).
  rewrite Hd. unfold zlen. cbn [length]. lia.
Qed.

Lemma encap_tot_len data mac target c1 c2 :
  54 <= zlen data → zlen mac = 6 →
  w16 (encap data mac target c1 c2) 16 = bpf_htons (u16 (bpf_ntohs (w16 data 16) + 8)).
Proof.
  intros Hl Hm. unfold encap. rewrite (app_assoc _ (slice data 0 6)), (app_assoc _ (slice data 12 4)).
  apply w16_bytes16; [|apply ntohs_bound]. rewrite !zlen_app, !zlen_slice by lia. lia.
Qed.

(** The pseudo header the program builds is the one of the segment it sends. *)
Lemma psd_is_pseudo_header data mac target c1 c2 :
  bytes_ok (encap data mac target c1 c2) → 54 <= zlen data → zlen mac = 6 → zlen data < 65536 →
  bpf_ntohs (w16 data 16) = zlen data - 14 →
  let data' := encap data mac target c1 c2 in
  psd_bytes (segment_psd (take 34 data')) = pseudo_header data' (zlen data' - 34).
Proof.
  intros Hb Hl Hm Hs Ht data'. unfold segment_psd, pseudo_header, psd_bytes. cbn [src_addr dst_addr zero proto len].
  assert (L : zlen data' = zlen data + 8) by by apply zlen_encap.
  change 34%nat with (Z.to_nat 34). rewrite !w32_take, w16_take by lia.
  rewrite !bytes32_w32 by (done || lia). unfold data' at 3. rewrite encap_tot_len by done.
  rewrite ntohs_htons by apply u16_bound. rewrite Ht, L. unfold SIZEOF_IPV4_HDR.
  rewrite (u16_id (_ + 8)), (u16_id (_ - 20)) by lia.
  change (u8 0) with 0. change (u8 IPPROTO_TCP) with IPPROTO_TCP.
  assert (E : slice data' 26 8 = slice data' 26 4 ++ slice data' 30 4).
  { unfold slice. change (Z.to_nat 30) with (Z.to_nat 26 + 4)%nat.
    rewrite <- drop_drop. symmetry. apply (take_take_drop _ 4 4). }
  rewrite E, <- app_assoc. replace (zlen data - 14 + 8 - 20) with (zlen data + 8 - 34) by lia. done.
Qed.

Lemma bytes_ok_encap data mac target c1 c2 :
  bytes_ok data → bytes_ok mac → 54 <= zlen data → bytes_ok (encap data mac target c1 c2).
Proof.
  intros Hb Hm Hl. unfold encap.
  repeat (apply bytes_ok_app; [first [done | by apply bytes_ok_slice | apply bytes16_ok | apply bytes32_ok
    | repeat constructor; lia | apply Forall_singleton, new_doff_byte]|]).
  by apply Forall_drop.
Qed.

Lemma plain_syn_spec m rr count target mac data d :
  makes_room bpf_xdp_adjust_head → bpf_xdp_adjust_head data (0 - SIZEOF_REDIR_OPT) = Some d →
  next_target m rr count target mac → plain_syn data = true → bytes_ok data →
  54 <= zlen data ∧ ∃ c1 c2, let data' := encap data mac target c1 c2 in
    prog data m = Ok (XDP_TX, data', bump m rr) ∧ csum_ok (slice data' 14 20) ∧
    (zlen data <= 94 → (zlen data - 54) mod 4 = 0 →
     csum_ok (psd_bytes (segment_psd (take 34 data')) ++ drop 34 data')).
Proof.
  intros Hroom Hd Hnt Hs Hb. destruct (Hroom data d Hd) as (h & Hh & Hbh & ->).
  rewrite plain_syn_handled by done. unfold plain_syn in Hs.
  repeat (apply andb_prop in Hs as [Hs ?]). rewrite ?Z.eqb_eq, ?Z.leb_le in *. split; [done|].
  assert (0 < getz data 14) as Hver.
  { pose proof (bytes_ok_get data 14 Hb ltac:(lia)).
    destruct (decide (getz data 14 = 0)) as [E|]; [|lia].
    match goal with H : Z.land _ 15 = 5 |- _ => rewrite E in H; done end. }
  destruct (handle_syn_spec bpf_csum_diff bpf_xdp_adjust_head m rr count target mac h data)
    as (c1 & c2 & _ & _ & E & Hip & Htcp); try done.
  by exists c1, c2.
Qed.

(** C40: A SYN without IP options, for which the maps name a target, is sent out as
    the reference says: to the address and the MAC of the target, from the MAC it
    came to, eight bytes longer, with the virtual address in a new option and
    everything else unchanged, and the index of the target moves on. The checksum of
    the IPv4 header verifies; that of TCP verifies if what follows the header is at
    most ten whole words and the frame has no padding. *)
Theorem crab_redirects_syn m rr count target mac data d :
  makes_room bpf_xdp_adjust_head → bpf_xdp_adjust_head data (0 - SIZEOF_REDIR_OPT) = Some d →
  next_target m rr count target mac → plain_syn data = true → bytes_ok data →
  ∃ ip_check tcp_check, let data' := encap data mac target ip_check tcp_check in
    prog data m = Ok (XDP_TX, data', bump m rr) ∧ csum_ok (slice data' 14 20) ∧
    (zlen data <= 94 → (zlen data - 54) mod 4 = 0 → bpf_ntohs (w16 data 16) = zlen data - 14 →
     segment_ok data').
Proof.
  intros Hroom Hd Hnt Hs Hb.
  destruct (plain_syn_spec m rr count target mac data d) as (Hl & c1 & c2 & E & Hip & Htcp); try done.
  exists c1, c2. split; [exact E|]. split; [exact Hip|]. intros H94 Hw Ht. unfold segment_ok.
  destruct Hnt as [_ _ _ _ _ _ Hml Hmb].
  rewrite <- psd_is_pseudo_header by (done || lia || by apply bytes_ok_encap). by apply Htcp.
Qed.

(** As long as no target is configured, a SYN makes the program divide by zero. *)
Theorem crab_divides_by_zero m rr data d :
  makes_room bpf_xdp_adjust_head → bpf_xdp_adjust_head data (0 - SIZEOF_REDIR_OPT) = Some d →
  bpf_map_lookup_elem (targets_count m) 0 = Some 0 → bpf_map_lookup_elem (cpu_rr_idx m) 0 = Some rr →
  plain_syn data = true → prog data m = Err DivByZero.
Proof.
  intros Hroom Hd Hc Hrr Hs. destruct (Hroom data d Hd) as (h & Hh & _ & ->).
  rewrite plain_syn_handled by done. unfold plain_syn in Hs.
  repeat (apply andb_prop in Hs as [Hs ?]). rewrite ?Z.leb_le in *.
  unfold handle_syn. rewrite Hd. unfold SIZEOF_ETHER_HDR, SIZEOF_IPV4_HDR, SIZEOF_TCPHDR,
    IPV4_DST_ADDR, IPV4_TOTAL_LENGTH, SIZEOF_REDIR_OPT in *. offsets.
  rewrite !ld_bytes_ok by lia. cbn [mbind res_bind]. rewrite !ld32_ok by lia. cbn [mbind res_bind].
  assert (Ld : zlen (h ++ data) = 8 + zlen data) by (rewrite zlen_app; lia).
  rewrite (proj2 (Z.ltb_ge _ 14)) by lia. change (Z.of_nat (Z.to_nat 14)) with 14.
  change (Z.of_nat (Z.to_nat 20)) with 20.
  destruct (st_bytes_total (h ++ data) 0 (slice data 0 14)) as (b1 & -> & L1);
    [lia|rewrite zlen_slice by lia; lia|]. cbn [mbind res_bind].
  rewrite (proj2 (Z.ltb_ge _ 34)) by lia.
  destruct (st_bytes_total b1 14 (slice data 14 20)) as (b2 & -> & L2);
    [lia|rewrite zlen_slice by lia; lia|]. cbn [mbind res_bind].
  rewrite ld16_ok by lia. cbn [mbind res_bind].
  destruct (st16_total b2 16 (bpf_htons (u16 (bpf_ntohs (w16 b2 16) + 8)))) as (b3 & -> & _); [lia..|].
  cbn [mbind res_bind]. unfold get_target, get_target_idx_rr. by rewrite Hc, Hrr.
Qed.

Lemma encap_doff data mac target c1 c2 :
  54 <= zlen data → zlen mac = 6 →
  Z.shiftr (getz (encap data mac target c1 c2) 46) 4 = (Z.shiftr (getz data 46) 4 + 2) mod 16.
Proof.
  intros Hl Hm. set (l1 := mac ++ slice data 0 6 ++ slice data 12 4 ++
    bytes16 (bpf_htons (u16 (bpf_ntohs (w16 data 16) + 8))) ++ slice data 18 6 ++
    bytes16 c1 ++ slice data 26 4 ++ bytes32 target ++ slice data 34 12).
  set (x := Z.land (getz data 46) 15 + 16 * ((Z.shiftr (getz data 46) 4 + 2) mod 16)).
  assert (E : encap data mac target c1 c2 = l1 ++ [x] ++ (slice data 47 3 ++ bytes16 c2 ++
    slice data 52 2 ++ [42; 6] ++ slice data 30 4 ++ [1; 1] ++ drop 54 data)).
  { unfold encap, l1, x. by rewrite <- !app_assoc. }
  assert (L : zlen l1 = 46).
  { unfold l1. rewrite !zlen_app, !zlen_slice by lia. rewrite Hm. unfold zlen, bytes16, bytes32.
    cbn [length]. lia. }
  rewrite E, getz_app_r, L by lia. change (getz ([x] ++ _) (46 - 46)) with x. unfold x.
  rewrite Z.shiftr_div_pow2 by lia. pose proof (land15_bound (getz data 46)).
  symmetry. apply Z.div_unique_pos with (Z.land (getz data 46) 15); lia.
Qed.

(** The length field of the TCP header has four bits. A SYN with 36 bytes of
    options or more leaves with a length that is less than the header itself, so that
    no server can parse it. *)
Theorem crab_long_options_break m rr count target mac data d :
  makes_room bpf_xdp_adjust_head → bpf_xdp_adjust_head data (0 - SIZEOF_REDIR_OPT) = Some d →
  next_target m rr count target mac → plain_syn data = true → bytes_ok data →
  14 <= Z.shiftr (getz data 46) 4 →
  ∃ data' m', prog data m = Ok (XDP_TX, data', m') ∧ Z.shiftr (getz data' 46) 4 * 4 < SIZEOF_TCPHDR ∧
    parse_tcphdr data' 34 = Ok (-1, 34, None).
Proof.
  intros Hroom Hd Hnt Hs Hb H14.
  destruct (plain_syn_spec m rr count target mac data d) as (Hl & c1 & c2 & E & _); try done.
  eexists _, _. split; [exact E|]. destruct Hnt as [_ _ _ _ _ _ Hml _].
  pose proof (zlen_encap data mac target c1 c2 Hl Hml) as L.
  rewrite (encap_doff data mac target c1 c2 Hl Hml).
  assert (H15 : Z.shiftr (getz data 46) 4 <= 15).
  { pose proof (bytes_ok_get data 46 Hb). rewrite Z.shiftr_div_pow2 by lia.
    apply Z.lt_succ_r, Z.div_lt_upper_bound; lia. }
  assert (Hd' : (Z.shiftr (getz data 46) 4 + 2) mod 16 <= 1).
  { replace (Z.shiftr (getz data 46) 4 + 2) with (Z.shiftr (getz data 46) 4 - 14 + 1 * 16) by lia.
    rewrite Z.mod_add, Z.mod_small by lia. lia. }
  split; [unfold SIZEOF_TCPHDR; lia|].
  unfold parse_tcphdr, doff, SIZEOF_TCPHDR, TCP_DOFF. change (34 + 12) with 46.
  rewrite (proj2 (Z.ltb_ge _ _)) by lia. rewrite ld8_ok by lia. cbn [mbind res_bind].
  rewrite (encap_doff data mac target c1 c2 Hl Hml). by rewrite (proj2 (Z.ltb_lt _ _)) by lia.
Qed.

(** The program on one frame after the other. *)
Fixpoint crab_run m (frames : list (list Z)) : res (list (Z * list Z) * crab ARR MACS) :=
  match frames with
  | [] => Ok ([], m)
  | data :: frames =>
      '(a, data, m) ← prog data m;
      '(outs, m) ← crab_run m frames;
      Ok ((a, data) :: outs, m)
  end.
(** The configured servers, in the order of the map. *)
Definition serves m (ts : list Z) : Prop :=
  ∀ i, 0 <= i < zlen ts → ∃ mac,
    bpf_map_lookup_elem (targets_map m) i = Some (getz ts i) ∧ 0 <= getz ts i < 2 ^ 32 ∧
    bpf_map_lookup_elem (macs_map m) (getz ts i) = Some mac ∧ zlen mac = 6 ∧ bytes_ok mac.

Lemma encap_daddr data mac target c1 c2 :
  54 <= zlen data → zlen mac = 6 → 0 <= target < 2 ^ 32 → w32 (encap data mac target c1 c2) 30 = target.
Proof.
  intros Hl Hm Ht. set (l1 := mac ++ slice data 0 6 ++ slice data 12 4 ++
    bytes16 (bpf_htons (u16 (bpf_ntohs (w16 data 16) + 8))) ++ slice data 18 6 ++
    bytes16 c1 ++ slice data 26 4).
  assert (E : encap data mac target c1 c2 = l1 ++ bytes32 target ++ (slice data 34 12 ++
    [Z.land (getz data 46) 15 + 16 * ((Z.shiftr (getz data 46) 4 + 2) mod 16)] ++ slice data 47 3 ++
    bytes16 c2 ++ slice data 52 2 ++ [42; 6] ++ slice data 30 4 ++ [1; 1] ++ drop 54 data)).
  { unfold encap, l1. by rewrite <- !app_assoc. }
  rewrite E. apply w32_bytes32; [|done].
  unfold l1. rewrite !zlen_app, !zlen_slice by lia. rewrite Hm. unfold zlen, bytes16. cbn [length]. lia.
Qed.

Context `{!BpfMapLaws Z Z ARR}.

Lemma crab_run_spec m rr ts frames :
  makes_room bpf_xdp_adjust_head →
  (∀ data, bpf_xdp_adjust_head data (0 - SIZEOF_REDIR_OPT) ≠ None) →
  0 < zlen ts < 2 ^ 32 → serves m ts →
  bpf_map_lookup_elem (targets_count m) 0 = Some (zlen ts) →
  bpf_map_lookup_elem (cpu_rr_idx m) 0 = Some rr → 0 <= rr → rr + zlen frames < 2 ^ 32 →
  Forall (λ data, plain_syn data = true ∧ bytes_ok data) frames →
  ∃ outs m', crab_run m frames = Ok (outs, m') ∧ Forall (λ o, o.1 = XDP_TX) outs ∧
    (λ o, w32 o.2 30) <$> outs = (λ i, getz ts (i mod zlen ts)) <$> seqZ rr (zlen frames).
Proof.
  intros Hroom Hall Hts. revert m rr.
  induction frames as [|data frames IH]; intros m rr Hs Hc Hrr H0 Hwrap Hf; cbn [crab_run].
  { exists [], m. by repeat split. }
  apply Forall_cons in Hf as [[Hsyn Hb] Hf]. rewrite zlen_cons in Hwrap. pose proof (zlen_nonneg frames).
  pose proof (Z.mod_pos_bound rr (zlen ts) ltac:(lia)) as Hi.
  destruct (Hs _ Hi) as (mac & Ht & Htr & Hmac & Hml & Hmb).
  assert (Hnt : next_target m rr (zlen ts) (getz ts (rr mod zlen ts)) mac) by (split; done || lia).
  destruct (bpf_xdp_adjust_head data (0 - SIZEOF_REDIR_OPT)) as [d|] eqn:Ed; [|by apply Hall in Ed].
  destruct (plain_syn_spec m rr (zlen ts) _ mac data d Hroom Ed Hnt Hsyn Hb) as (Hl & c1 & c2 & -> & _).
  cbn [mbind res_bind].
  destruct (IH (bump m rr) (rr + 1)) as (outs & m' & -> & Htx & Hdst); try done; try lia.
  { cbn. rewrite (bpf_store_here _ _ _ _ Hrr). by rewrite u32_id by lia. }
  cbn [mbind res_bind]. eexists _, _. split; [done|]. split; [by apply Forall_cons|].
  cbn [fmap list_fmap snd]. rewrite encap_daddr, Hdst by done.
  rewrite zlen_cons, (seqZ_cons rr (1 + zlen frames)) by lia. cbn [fmap list_fmap].
  by replace (Z.pred (1 + zlen frames)) with (zlen frames) by lia.
Qed.

(** Any [n] numbers in a row are different modulo [n]. *)
Lemma residues_permutation rr n : 0 < n → (λ i, i mod n) <$> seqZ rr n ≡ₚ seqZ 0 n.
Proof.
  intros Hn. apply NoDup_Permutation_bis.
  - apply NoDup_ListNoDup, NoDup_fmap_2_strong; [|apply NoDup_seqZ].
    intros i j Hi%elem_of_seqZ Hj%elem_of_seqZ E.
    rewrite (Z.div_mod i n), (Z.div_mod j n), E by lia.
    assert (i / n = j / n); [|by f_equal; f_equal].
    pose proof (Z.div_mod i n). pose proof (Z.div_mod j n). nia.
  - rewrite length_fmap, !length_seqZ. lia.
  - intros x Hx%list_elem_of_In. apply list_elem_of_In. apply list_elem_of_fmap in Hx as (i & -> & _).
    apply elem_of_seqZ. pose proof (Z.mod_pos_bound i n). lia.
Qed.

(** Round robin: of as many SYNs in a row as there are servers, each server gets
    one, until the 32-bit index wraps. *)
Theorem crab_round_robin m rr ts frames :
  makes_room bpf_xdp_adjust_head →
  (∀ data, bpf_xdp_adjust_head data (0 - SIZEOF_REDIR_OPT) ≠ None) →
  0 < zlen ts < 2 ^ 32 → serves m ts →
  bpf_map_lookup_elem (targets_count m) 0 = Some (zlen ts) →
  bpf_map_lookup_elem (cpu_rr_idx m) 0 = Some rr → 0 <= rr → rr + zlen ts < 2 ^ 32 →
  Forall (λ data, plain_syn data = true ∧ bytes_ok data) frames → zlen frames = zlen ts →
  ∃ outs m', crab_run m frames = Ok (outs, m') ∧ Forall (λ o, o.1 = XDP_TX) outs ∧
    (λ o, w32 o.2 30) <$> outs ≡ₚ ts.
Proof.
  intros Hroom Hall Hts Hs Hc Hrr H0 Hwrap Hf Hlen.
  destruct (crab_run_spec m rr ts frames) as (outs & m' & E & Htx & Hdst); try done; try lia.
  exists outs, m'. split; [done|]. split; [done|]. rewrite Hdst, Hlen.
  assert (E' : (λ i, getz ts (i mod zlen ts)) <$> seqZ rr (zlen ts) =
               getz ts <$> ((λ i, i mod zlen ts) <$> seqZ rr (zlen ts))) by by rewrite <- list_fmap_compose.
  rewrite E', residues_permutation by lia.
  assert (E2 : getz ts <$> seqZ 0 (zlen ts) = ts); [|by rewrite E2].
  apply list_eq. intros i. rewrite list_lookup_fmap. destruct (decide (i < length ts)%nat).
  - rewrite lookup_seqZ_lt by (unfold zlen; lia). cbn. unfold getz. rewrite Z.add_0_l, Nat2Z.id.
    by rewrite list_lookup_lookup_total_lt.
  - rewrite lookup_seqZ_ge by (unfold zlen; lia). cbn. symmetry. apply lookup_ge_None. lia.
Qed.
End claims.

(** ** Witnesses: two servers, room in front of every frame *)
Definition room (data : list Z) (delta : Z) : option (list Z) :=
  Some (replicate (Z.to_nat (- delta)) 0 ++ data).

Lemma room_makes_room : makes_room room.
Proof. intros data d [= <-]. exists (replicate 8 0). by repeat (split; [repeat constructor; done|]). Qed.

Definition two_servers (count rr : Z) : crab (list Z) (bpf_hash Z (list Z)) :=
  mk_crab [11; 22] (mk_hash 64 {[11 := [1; 1; 1; 1; 1; 1]; 22 := [2; 2; 2; 2; 2; 2]]}) [count] [rr].

(** A SYN of [4 * doff] bytes. *)
Definition syn_frame (doff : Z) : list Z :=
  replicate 12 0 ++ [8; 0; 69; 0; 0; 20 + 4 * doff] ++ replicate 5 0 ++ [6; 0; 0; 10; 0; 0; 1; 10; 0; 0; 2] ++
  replicate 12 0 ++ [16 * doff; 2] ++ replicate 6 0 ++ replicate (Z.to_nat (4 * (doff - 5))) 1.

Lemma two_servers_target : next_target (two_servers 2 0) 0 2 11 [1; 1; 1; 1; 1; 1].
Proof. split; try done. repeat constructor; done. Qed.

Lemma two_servers_configured : configured (two_servers 2 0).
Proof.
  split; [by intros count [= <-]|]. intros ip mac Hm. cbn in Hm.
  apply lookup_insert_Some in Hm as [[_ <-]|[_ Hm]]; [done|].
  by apply lookup_singleton_Some in Hm as [_ <-].
Qed.

Lemma crab_safe_witness :
  ∃ a data' m', xdp_prog_simple csum_partial room [1; 2; 3] (two_servers 2 0) = Ok (a, data', m') ∧
    (a = XDP_PASS ∧ data' = [1; 2; 3] ∧ m' = two_servers 2 0 ∨ a = XDP_ABORTED ∨ a = XDP_TX).
Proof. apply crab_safe; [apply room_makes_room|apply two_servers_configured]. Defined.

Lemma crab_redirects_syn_witness :
  ∃ ip_check tcp_check, let data' := encap (syn_frame 6) [1; 1; 1; 1; 1; 1] 11 ip_check tcp_check in
    xdp_prog_simple csum_partial room (syn_frame 6) (two_servers 2 0) =
      Ok (XDP_TX, data', bump (two_servers 2 0) 0) ∧
    csum_ok (slice data' 14 20) ∧
    (zlen (syn_frame 6) <= 94 → (zlen (syn_frame 6) - 54) mod 4 = 0 →
     bpf_ntohs (w16 (syn_frame 6) 16) = zlen (syn_frame 6) - 14 → segment_ok data').
Proof.
  apply (crab_redirects_syn csum_partial room (two_servers 2 0) 0 2 11 [1; 1; 1; 1; 1; 1] (syn_frame 6)
    (replicate 8 0 ++ syn_frame 6));
    [apply room_makes_room|reflexivity|apply two_servers_target|vm_compute; reflexivity|].
  apply bytes_ok_b_spec. vm_compute. reflexivity.
Defined.

Lemma crab_divides_by_zero_witness :
  xdp_prog_simple csum_partial room (syn_frame 5) (two_servers 0 0) = Err DivByZero.
Proof.
  apply (crab_divides_by_zero csum_partial room (two_servers 0 0) 0 (syn_frame 5)
    (replicate 8 0 ++ syn_frame 5)); [apply room_makes_room|reflexivity|reflexivity|reflexivity|].
  vm_compute. reflexivity.
Defined.

Lemma crab_long_options_break_witness :
  ∃ data' m', xdp_prog_simple csum_partial room (syn_frame 15) (two_servers 2 0) = Ok (XDP_TX, data', m') ∧
    Z.shiftr (getz data' 46) 4 * 4 < SIZEOF_TCPHDR ∧ parse_tcphdr data' 34 = Ok (-1, 34, None).
Proof.
  apply (crab_long_options_break csum_partial room (two_servers 2 0) 0 2 11 [1; 1; 1; 1; 1; 1] (syn_frame 15)
    (replicate 8 0 ++ syn_frame 15));
    [apply room_makes_room|reflexivity|apply two_servers_target|vm_compute; reflexivity| |vm_compute; congruence].
  apply bytes_ok_b_spec. vm_compute. reflexivity.
Defined.

Lemma crab_round_robin_witness :
  ∃ outs m', crab_run csum_partial room (two_servers 2 7) [syn_frame 5; syn_frame 6] = Ok (outs, m') ∧
    Forall (λ o, o.1 = XDP_TX) outs ∧ (λ o, w32 o.2 30) <$> outs ≡ₚ [11; 22].
Proof.
  apply (crab_round_robin csum_partial room (two_servers 2 7) 7 [11; 22]);
    [apply room_makes_room|done|done| |done|done|done|done| |done].
  - intros i Hi. change (zlen [11; 22]) with 2 in Hi.
    assert (i = 0 ∨ i = 1) as [-> | ->] by lia; [exists [1; 1; 1; 1; 1; 1]|exists [2; 2; 2; 2; 2; 2]];
      (repeat split; try done; repeat constructor; done).
  - repeat (apply Forall_cons_2; [split; [vm_compute; reflexivity|apply bytes_ok_b_spec; vm_compute; reflexivity]|]).
    by apply Forall_nil_2.
Defined.
