(* ===== verification/KatranNet.v ===== *)
(** * Katran: hashes, headers and encapsulation

    The parts of [ebpf-nfs/katran] that do not touch its maps: the hash of
    [jhash.h], the checksum of [csum_helpers.h], the header builders of
    [encap_helpers.h], the encapsulation of [pckt_encap.h], the parsers of
    [pckt_parsing.h] and [balancer_helpers.h], and the echo replies of
    [handle_icmp.h]. A frame is a list of bytes as in the other programs on XDP; the
    optional features of [balancer_consts.h] are off, as in the default build. *)

From S2P Require Import Prelude.
From S2P Require Import NfUtil.
From S2P Require Import Xdp.
From S2P Require Import Checksum.

(** ** [jhash.h] *)
Definition rol32 (word shift : Z) : Z :=
  Z.lor (u32 (Z.shiftl word shift)) (Z.shiftr word (Z.land (- shift) 31)).

Definition jhash_mix '(a, b, c) : Z * Z * Z :=
  let a := u32 (a - c) in let a := Z.lxor a (rol32 c 4) in let c := u32 (c + b) in
  let b := u32 (b - a) in let b := Z.lxor b (rol32 a 6) in let a := u32 (a + c) in
  let c := u32 (c - b) in let c := Z.lxor c (rol32 b 8) in let b := u32 (b + a) in
  let a := u32 (a - c) in let a := Z.lxor a (rol32 c 16) in let c := u32 (c + b) in
  let b := u32 (b - a) in let b := Z.lxor b (rol32 a 19) in let a := u32 (a + c) in
  let c := u32 (c - b) in let c := Z.lxor c (rol32 b 4) in let b := u32 (b + a) in
  (a, b, c).

Definition jhash_final '(a, b, c) : Z * Z * Z :=
  let c := Z.lxor c b in let c := u32 (c - rol32 b 14) in
  let a := Z.lxor a c in let a := u32 (a - rol32 c 11) in
  let b := Z.lxor b a in let b := u32 (b - rol32 a 25) in
  let c := Z.lxor c b in let c := u32 (c - rol32 b 16) in
  let a := Z.lxor a c in let a := u32 (a - rol32 c 4) in
  let b := Z.lxor b a in let b := u32 (b - rol32 a 14) in
  let c := Z.lxor c b in let c := u32 (c - rol32 b 24) in
  (a, b, c).

Definition JHASH_INITVAL : Z := 3735928559.

(** The loop over the blocks of twelve bytes; gives the rest of the key too. *)
Fixpoint jhash_loop (fuel : nat) (key : list Z) (k length : Z) (abc : Z * Z * Z)
    : res (Z * Z * (Z * Z * Z)) :=
  if 12 <? length then
    match fuel with
    | O => Err NoFuel
    | S fuel =>
        let '(a, b, c) := abc in
        x ← ld32 key k; let a := u32 (a + x) in
        y ← ld32 key (k + 4); let b := u32 (b + y) in
        z ← ld32 key (k + 8); let c := u32 (c + z) in
        jhash_loop fuel key (k + 12) (length - 12) (jhash_mix (a, b, c))
    end
  else Ok (k, length, abc).

(** One case of the switch: it falls through, so that it runs if the length is at
    least its number. *)
Definition jhash_case (n length : Z) (key : list Z) (k shift x : Z) : res Z :=
  if length <? n then Ok x
  else byte ← rd key (k + (n - 1)); Ok (u32 (x + Z.shiftl byte shift)).

Definition jhash_switch (key : list Z) (k length : Z) (abc : Z * Z * Z) : res (Z * Z * Z) :=
  let '(a, b, c) := abc in
  c ← jhash_case 12 length key k 24 c;
  c ← jhash_case 11 length key k 16 c;
  c ← jhash_case 10 length key k 8 c;
  c ← jhash_case 9 length key k 0 c;
  b ← jhash_case 8 length key k 24 b;
  b ← jhash_case 7 length key k 16 b;
  b ← jhash_case 6 length key k 8 b;
  b ← jhash_case 5 length key k 0 b;
  a ← jhash_case 4 length key k 24 a;
  a ← jhash_case 3 length key k 16 a;
  a ← jhash_case 2 length key k 8 a;
  a ← jhash_case 1 length key k 0 a;
  Ok (if length <? 1 then (a, b, c) else jhash_final (a, b, c)).

Definition jhash (key : list Z) (length initval : Z) : res Z :=
  let x := u32 (JHASH_INITVAL + length + initval) in
  '(k, length, abc) ← jhash_loop (Z.to_nat length) key 0 length (x, x, x);
  '(_, _, c) ← jhash_switch key k length abc;
  Ok c.

Definition jhash_nwords (a b c initval : Z) : Z :=
  let '(_, _, c) := jhash_final (u32 (a + initval), u32 (b + initval), u32 (c + initval)) in c.

Definition jhash_2words (a b initval : Z) : Z :=
  jhash_nwords a b 0 (u32 (initval + JHASH_INITVAL + Z.shiftl 2 2)).

Definition jhash_1word (a initval : Z) : Z :=
  jhash_nwords a 0 0 (u32 (initval + JHASH_INITVAL + Z.shiftl 1 2)).

(** A comparison of terms unfolds the hash last: on variables it is large. *)
#[global] Strategy 1000 [jhash_2words].

(** ** [csum_helpers.h] *)
Fixpoint csum_fold_loop (n : nat) (csum : Z) : Z :=
  match n with
  | O => csum
  | S n =>
      csum_fold_loop n
        (if Z.shiftr csum 16 =? 0 then csum
         else u64 (Z.land csum 65535 + Z.shiftr csum 16))
  end.

Definition csum_fold_helper (csum : Z) : Z := u16 (Z.lnot (csum_fold_loop 4 csum)).

Fixpoint csum_words (n : nat) (data : list Z) (next_iph_u16 csum : Z) : res Z :=
  match n with
  | O => Ok csum
  | S n =>
      x ← ld16 data next_iph_u16;
      csum_words n data (next_iph_u16 + 2) (u64 (csum + x))
  end.

Definition ipv4_csum_inline (data : list Z) (iph csum : Z) : res Z :=
  csum ← csum_words (Z.to_nat (Z.shiftr SIZEOF_IPV4_HDR 1)) data iph csum;
  Ok (csum_fold_helper csum).

(** ** Packets *)
(** An address: four words in network byte order, an IPv4 address is the first. *)
Definition in6 : Type := Z * Z * Z * Z.
Definition in6_word0 (a : in6) : Z := let '(x, _, _, _) := a in x.
Definition in6_word3 (a : in6) : Z := let '(_, _, _, x) := a in x.
Definition in6_set0 (a : in6) (x : Z) : in6 := let '(_, y, z, w) := a in (x, y, z, w).
Definition in6_zero : in6 := (0, 0, 0, 0).
Definition in6_bytes (a : in6) : list Z :=
  let '(x, y, z, w) := a in bytes32 x ++ bytes32 y ++ bytes32 z ++ bytes32 w.

Definition ld_in6 (data : list Z) (off : Z) : res in6 :=
  x ← ld32 data off; y ← ld32 data (off + 4);
  z ← ld32 data (off + 8); w ← ld32 data (off + 12); Ok (x, y, z, w).

Record flow_key := mk_flow { srcv6 : in6; dstv6 : in6; port16_0 : Z; port16_1 : Z; proto : Z }.
Definition ports (f : flow_key) : Z := port16_0 f + 65536 * port16_1 f.

Record packet_description := mk_pckt { flow : flow_key; real_index : Z; flags : Z; tos : Z }.
Definition pckt_zero : packet_description := mk_pckt (mk_flow in6_zero in6_zero 0 0 0) 0 0 0.

#[global] Instance flow_key_eq_dec : EqDecision flow_key.
Proof. solve_decision. Defined.
#[global] Instance flow_key_countable : Countable flow_key.
Proof.
  apply (inj_countable' (λ f, (srcv6 f, dstv6 f, port16_0 f, port16_1 f, proto f))
    (λ '(s, d, p, q, r), mk_flow s d p q r)). by intros [].
Defined.

(** Assignments to fields of the description. *)
Definition set_addrs (p : packet_description) (s d : in6) : packet_description :=
  mk_pckt (mk_flow s d (port16_0 (flow p)) (port16_1 (flow p)) (proto (flow p)))
    (real_index p) (flags p) (tos p).
Definition set_ports (p : packet_description) (x y : Z) : packet_description :=
  mk_pckt (mk_flow (srcv6 (flow p)) (dstv6 (flow p)) x y (proto (flow p)))
    (real_index p) (flags p) (tos p).
Definition set_proto (p : packet_description) (x : Z) : packet_description :=
  mk_pckt (mk_flow (srcv6 (flow p)) (dstv6 (flow p)) (port16_0 (flow p)) (port16_1 (flow p)) x)
    (real_index p) (flags p) (tos p).
Definition set_real_index (p : packet_description) (x : Z) : packet_description :=
  mk_pckt (flow p) x (flags p) (tos p).
Definition set_flags (p : packet_description) (x : Z) : packet_description :=
  mk_pckt (flow p) (real_index p) x (tos p).
Definition set_tos (p : packet_description) (x : Z) : packet_description :=
  mk_pckt (flow p) (real_index p) (flags p) x.

(** ** Headers *)
Definition ETH_P_IPV6_BE : Z := 56710.
Definition SIZEOF_ICMP6HDR : Z := 8.
Definition IPV4_TOS : Z := 1.
Definition IPV4_FRAG_OFF : Z := 6.
Definition IPV4_TTL : Z := 8.
Definition IPV6_FLOW_LBL : Z := 1.
Definition IPV6_PAYLOAD_LEN : Z := 4.
Definition IPV6_NEXTHDR : Z := 6.
Definition IPV6_HOP_LIMIT : Z := 7.
Definition IPV6_SADDR : Z := 8.
Definition IPV6_DADDR : Z := 24.
Definition TCP_FLAGS : Z := 13.

Definition IPPROTO_IPIP : Z := 4.
Definition IPPROTO_IPV6 : Z := 41.
Definition IPPROTO_FRAGMENT : Z := 44.
Definition IPPROTO_ICMPV6 : Z := 58.
Definition ICMP_ECHOREPLY : Z := 0.
Definition ICMP_DEST_UNREACH : Z := 3.
Definition ICMP_ECHO : Z := 8.
Definition ICMPV6_DEST_UNREACH : Z := 1.
Definition ICMPV6_PKT_TOOBIG : Z := 2.
Definition ICMPV6_ECHO_REQUEST : Z := 128.
Definition ICMPV6_ECHO_REPLY : Z := 129.

(** [balancer_consts.h]. *)
Definition FURTHER_PROCESSING : Z := -1.
Definition PCKT_FRAGMENTED : Z := 65343.
Definition DEFAULT_TTL : Z := 64.
Definition F_ICMP : Z := 1.
Definition F_SYN_SET : Z := 2.
Definition IPIP_V4_PREFIX : Z := 4268.
Definition IPIP_V6_PREFIX1 : Z := 1.
Definition IPIP_V6_PREFIX2 : Z := 0.
Definition IPIP_V6_PREFIX3 : Z := 0.
Definition QUIC_LONG_HEADER : Z := 128.
Definition QUIC_PACKET_TYPE_MASK : Z := 48.
Definition QUIC_HANDSHAKE : Z := 32.
Definition QUIC_MIN_CONNID_LEN : Z := 8.
Definition CONCRETE_QUIC_REAL_ID : Z := 3.
Definition V4_SRC_INDEX : Z := 0.
Definition V6_SRC_INDEX : Z := 1.
Definition DEFAULT_TOS : Z := 0.
Definition GUE_DPORT : Z := 6080.

(** The bit fields of a byte: the low and the high four bits. *)
Definition st_low (data : list Z) (off v : Z) : res (list Z) :=
  x ← ld8 data off; wr data off (16 * (x / 16) + v mod 16).
Definition st_high (data : list Z) (off v : Z) : res (list Z) :=
  x ← ld8 data off; wr data off (x mod 16 + 16 * (v mod 16)).

(** [encap_helpers.h] *)
Definition create_v4_hdr (data : list Z) (iph tos saddr daddr pkt_bytes proto : Z) : res (list Z) :=
  let csum := 0 in
  data ← st_high data (iph + IPV4_VERSION_IHL) 4;
  data ← st_low data (iph + IPV4_VERSION_IHL) 5;
  data ← st16 data (iph + IPV4_FRAG_OFF) 0;
  data ← wr data (iph + IPV4_NEXT_PROTO_ID) (u8 proto);
  data ← st16 data (iph + IPV4_HDR_CHECKSUM) 0;
  data ← wr data (iph + IPV4_TOS) (u8 tos);
  data ← st16 data (iph + IPV4_TOTAL_LENGTH) (bpf_htons (u16 (pkt_bytes + SIZEOF_IPV4_HDR)));
  data ← st32 data (iph + IPV4_DST_ADDR) daddr;
  data ← st32 data (iph + IPV4_SRC_ADDR) saddr;
  data ← wr data (iph + IPV4_TTL) DEFAULT_TTL;
  csum ← ipv4_csum_inline data iph csum;
  st16 data (iph + IPV4_HDR_CHECKSUM) csum.

Definition create_v6_hdr (data : list Z) (ip6h tc : Z) (saddr daddr : in6) (payload_len proto : Z)
    : res (list Z) :=
  data ← st_high data ip6h 6;
  data ← st_bytes data (ip6h + IPV6_FLOW_LBL) [0; 0; 0];
  data ← st_low data ip6h (Z.shiftr (Z.land tc 240) 4);
  data ← wr data (ip6h + IPV6_FLOW_LBL) (u8 (Z.shiftl (Z.land tc 15) 4));
  data ← wr data (ip6h + IPV6_NEXTHDR) (u8 proto);
  data ← st16 data (ip6h + IPV6_PAYLOAD_LEN) (bpf_htons payload_len);
  data ← wr data (ip6h + IPV6_HOP_LIMIT) DEFAULT_TTL;
  data ← st_bytes data (ip6h + IPV6_SADDR) (in6_bytes saddr);
  st_bytes data (ip6h + IPV6_DADDR) (in6_bytes daddr).

Definition create_udp_hdr (data : list Z) (udph sport dport len csum : Z) : res (list Z) :=
  data ← st16 data (udph + TCPUDP_SRC_PORT) sport;
  data ← st16 data (udph + TCPUDP_DST_PORT) (bpf_htons dport);
  data ← st16 data (udph + 4) (bpf_htons len);
  st16 data (udph + 6) csum.

(** ** [pckt_parsing.h] *)
Definition calc_offset (is_ipv6 is_icmp : bool) : Z :=
  let off := SIZEOF_ETHER_HDR in
  if is_ipv6 then
    let off := off + SIZEOF_IPV6HDR in
    if is_icmp then off + (SIZEOF_ICMP6HDR + SIZEOF_IPV6HDR) else off
  else
    let off := off + SIZEOF_IPV4_HDR in
    if is_icmp then off + (SIZEOF_ICMPHDR + SIZEOF_IPV4_HDR) else off.

(** [None] is [false]. *)
Definition parse_udp (data : list Z) (is_ipv6 : bool) (pckt : packet_description)
    : res (option packet_description) :=
  let is_icmp := negb (Z.land (flags pckt) F_ICMP =? 0) in
  let udp := calc_offset is_ipv6 is_icmp in
  if zlen data <? udp + SIZEOF_UDPHDR then Ok None
  else
    source ← ld16 data (udp + TCPUDP_SRC_PORT);
    dest ← ld16 data (udp + TCPUDP_DST_PORT);
    if negb is_icmp then Ok (Some (set_ports pckt source dest))
    else Ok (Some (set_ports pckt dest source)).

Definition parse_tcp (data : list Z) (is_ipv6 : bool) (pckt : packet_description)
    : res (option packet_description) :=
  let is_icmp := negb (Z.land (flags pckt) F_ICMP =? 0) in
  let tcp := calc_offset is_ipv6 is_icmp in
  if zlen data <? tcp + SIZEOF_TCPHDR then Ok None
  else
    x ← ld8 data (tcp + TCP_FLAGS);
    let pckt := if Z.testbit x 1 then set_flags pckt (Z.lor (flags pckt) F_SYN_SET) else pckt in
    source ← ld16 data (tcp + TCPUDP_SRC_PORT);
    dest ← ld16 data (tcp + TCPUDP_DST_PORT);
    if negb is_icmp then Ok (Some (set_ports pckt source dest))
    else Ok (Some (set_ports pckt dest source)).

(** The headers of QUIC: flags, version and lengths before the connection id. *)
Definition SIZEOF_QUIC_LONG_HEADER : Z := 6 + QUIC_MIN_CONNID_LEN.
Definition SIZEOF_QUIC_SHORT_HEADER : Z := 1 + QUIC_MIN_CONNID_LEN.
Definition QUIC_CONN_ID_LENS : Z := 5.

(** The code behind the first return of the constant is not reachable. *)
Definition parse_quic (data : list Z) (is_ipv6 : bool) (pckt : packet_description) : res Z :=
  let is_icmp := negb (Z.land (flags pckt) F_ICMP =? 0) in
  let off := calc_offset is_ipv6 is_icmp in
  if zlen data <? off + SIZEOF_UDPHDR + 1 then Ok FURTHER_PROCESSING
  else
    let quic_data := off + SIZEOF_UDPHDR in
    pkt_type ← ld8 data quic_data;
    if Z.land pkt_type QUIC_LONG_HEADER =? QUIC_LONG_HEADER then
      if zlen data <? quic_data + SIZEOF_QUIC_LONG_HEADER then Ok FURTHER_PROCESSING
      else if Z.land pkt_type QUIC_PACKET_TYPE_MASK <? QUIC_HANDSHAKE then Ok FURTHER_PROCESSING
      else
        conn_id_lens ← ld8 data (quic_data + QUIC_CONN_ID_LENS);
        if conn_id_lens <? QUIC_MIN_CONNID_LEN then Ok FURTHER_PROCESSING
        else Ok CONCRETE_QUIC_REAL_ID
    else
      if zlen data <? quic_data + SIZEOF_QUIC_SHORT_HEADER then Ok FURTHER_PROCESSING
      else Ok CONCRETE_QUIC_REAL_ID.

(** ** [balancer_helpers.h] *)
Definition decrement_ttl (data : list Z) (offset : Z) (is_ipv6 : bool) : res (Z * list Z) :=
  if is_ipv6 then
    if zlen data <? offset + SIZEOF_IPV6HDR then Ok (XDP_DROP, data)
    else
      x ← ld8 data (offset + IPV6_HOP_LIMIT);
      let x := u8 (x - 1) in
      data ← wr data (offset + IPV6_HOP_LIMIT) x;
      if x =? 0 then Ok (XDP_DROP, data) else Ok (FURTHER_PROCESSING, data)
  else
    if zlen data <? offset + SIZEOF_IPV4_HDR then Ok (XDP_DROP, data)
    else
      x ← ld8 data (offset + IPV4_TTL);
      let x := u8 (x - 1) in
      data ← wr data (offset + IPV4_TTL) x;
      if x =? 0 then Ok (XDP_DROP, data)
      else
        check ← ld16 data (offset + IPV4_HDR_CHECKSUM);
        let csum := u32 (check + 1) in
        data ← st16 data (offset + IPV4_HDR_CHECKSUM) (u16 (Z.land csum 65535 + Z.shiftr csum 16));
        Ok (FURTHER_PROCESSING, data).

(** ** [handle_icmp.h] *)
Definition swap_mac_and_send (data : list Z) : res (Z * list Z) :=
  tmp_mac ← ld_bytes data ETHER_S_ADDR 6;
  dest ← ld_bytes data ETHER_D_ADDR 6;
  data ← st_bytes data ETHER_S_ADDR dest;
  data ← st_bytes data ETHER_D_ADDR tmp_mac;
  Ok (XDP_TX, data).

Definition ICMP_TYPE : Z := 0.

Definition send_icmp_reply (data : list Z) : res (Z * list Z) :=
  if zlen data <? SIZEOF_ETHER_HDR + SIZEOF_IPV4_HDR + SIZEOF_ICMPHDR then Ok (XDP_DROP, data)
  else
    let iph := SIZEOF_ETHER_HDR in
    let icmp_hdr := iph + SIZEOF_IPV4_HDR in
    data ← wr data (icmp_hdr + ICMP_TYPE) ICMP_ECHOREPLY;
    checksum ← ld16 data (icmp_hdr + ICMP_CKSUM);
    data ← st16 data (icmp_hdr + ICMP_CKSUM) (u16 (checksum + 8));
    data ← wr data (iph + IPV4_TTL) DEFAULT_TTL;
    tmp_addr ← ld32 data (iph + IPV4_DST_ADDR);
    saddr ← ld32 data (iph + IPV4_SRC_ADDR);
    data ← st32 data (iph + IPV4_DST_ADDR) saddr;
    data ← st32 data (iph + IPV4_SRC_ADDR) tmp_addr;
    data ← st16 data (iph + IPV4_HDR_CHECKSUM) 0;
    csum ← ipv4_csum_inline data iph 0;
    data ← st16 data (iph + IPV4_HDR_CHECKSUM) csum;
    swap_mac_and_send data.

Definition send_icmp6_reply (data : list Z) : res (Z * list Z) :=
  if zlen data <? SIZEOF_ETHER_HDR + SIZEOF_IPV6HDR + SIZEOF_ICMP6HDR then Ok (XDP_DROP, data)
  else
    let ip6h := SIZEOF_ETHER_HDR in
    let icmp_hdr := ip6h + SIZEOF_IPV6HDR in
    data ← wr data (icmp_hdr + ICMP_TYPE) ICMPV6_ECHO_REPLY;
    cksum ← ld16 data (icmp_hdr + ICMP_CKSUM);
    data ← st16 data (icmp_hdr + ICMP_CKSUM) (u16 (cksum - 1));
    data ← wr data (ip6h + IPV6_HOP_LIMIT) DEFAULT_TTL;
    tmp_addr ← ld_bytes data (ip6h + IPV6_SADDR) 16;
    daddr ← ld_bytes data (ip6h + IPV6_DADDR) 16;
    data ← st_bytes data (ip6h + IPV6_SADDR) daddr;
    data ← st_bytes data (ip6h + IPV6_DADDR) tmp_addr;
    swap_mac_and_send data.

(** The action, the description and the frame. *)
Definition parse_icmpv6 (data : list Z) (off : Z) (pckt : packet_description)
    : res (Z * packet_description * list Z) :=
  let icmp_hdr := off in
  if zlen data <? icmp_hdr + SIZEOF_ICMP6HDR then Ok (XDP_DROP, pckt, data)
  else
    type ← ld8 data (icmp_hdr + ICMP_TYPE);
    if type =? ICMPV6_ECHO_REQUEST then '(action, data) ← send_icmp6_reply data; Ok (action, pckt, data)
    else if negb (type =? ICMPV6_PKT_TOOBIG) && negb (type =? ICMPV6_DEST_UNREACH)
    then Ok (XDP_PASS, pckt, data)
    else
      let ip6h := off + SIZEOF_ICMP6HDR in
      if zlen data <? ip6h + SIZEOF_IPV6HDR then Ok (XDP_DROP, pckt, data)
      else
        nexthdr ← ld8 data (ip6h + IPV6_NEXTHDR);
        let pckt := set_flags (set_proto pckt nexthdr) (Z.lor (flags pckt) F_ICMP) in
        daddr ← ld_in6 data (ip6h + IPV6_DADDR);
        saddr ← ld_in6 data (ip6h + IPV6_SADDR);
        Ok (FURTHER_PROCESSING, set_addrs pckt daddr saddr, data).

Definition parse_icmp (data : list Z) (off : Z) (pckt : packet_description)
    : res (Z * packet_description * list Z) :=
  let icmp_hdr := off in
  if zlen data <? icmp_hdr + SIZEOF_ICMPHDR then Ok (XDP_DROP, pckt, data)
  else
    type ← ld8 data (icmp_hdr + ICMP_TYPE);
    if type =? ICMP_ECHO then '(action, data) ← send_icmp_reply data; Ok (action, pckt, data)
    else if negb (type =? ICMP_DEST_UNREACH) then Ok (XDP_PASS, pckt, data)
    else
      let iph := off + SIZEOF_ICMPHDR in
      if zlen data <? iph + SIZEOF_IPV4_HDR then Ok (XDP_DROP, pckt, data)
      else
        x ← ihl data iph;
        if negb (x =? 5) then Ok (XDP_DROP, pckt, data)
        else
          protocol ← ld8 data (iph + IPV4_NEXT_PROTO_ID);
          let pckt := set_flags (set_proto pckt protocol) (Z.lor (flags pckt) F_ICMP) in
          daddr ← ld32 data (iph + IPV4_DST_ADDR);
          saddr ← ld32 data (iph + IPV4_SRC_ADDR);
          let f := flow pckt in
          Ok (FURTHER_PROCESSING, set_addrs pckt (in6_set0 (srcv6 f) daddr) (in6_set0 (dstv6 f) saddr),
              data).

(** ** [pckt_encap.h] *)
Section encap.
(** The helper of the kernel gives the bytes of the new frame, or fails. *)
Variable bpf_xdp_adjust_head : list Z → Z → option (list Z).
Implicit Types (data mac : list Z) (pckt : packet_description) (dst : in6).

(** The addresses and the protocol of the new Ethernet header. *)
Definition new_eth_hdr data (old_eth : Z) mac (eth_proto : Z) : res (list Z) :=
  data ← st_bytes data ETHER_D_ADDR mac;
  old_dest ← ld_bytes data (old_eth + ETHER_D_ADDR) 6;
  data ← st_bytes data ETHER_S_ADDR old_dest;
  st16 data ETHER_TYPE eth_proto.

Definition encap_v6 data mac (is_ipv6 : bool) pckt dst (pkt_bytes : Z) : res (bool * list Z) :=
  match bpf_xdp_adjust_head data (0 - SIZEOF_IPV6HDR) with
  | None => Ok (false, data)
  | Some data =>
      let ip6h := SIZEOF_ETHER_HDR in
      let old_eth := SIZEOF_IPV6HDR in
      if (zlen data <? SIZEOF_ETHER_HDR) || (zlen data <? old_eth + SIZEOF_ETHER_HDR)
         || (zlen data <? ip6h + SIZEOF_IPV6HDR)
      then Ok (false, data)
      else
        data ← new_eth_hdr data old_eth mac ETH_P_IPV6_BE;
        let '(proto, ip_suffix, payload_len) :=
          if is_ipv6 then
            (IPPROTO_IPV6, Z.lxor (in6_word3 (srcv6 (flow pckt))) (port16_0 (flow pckt)),
             u16 (pkt_bytes + SIZEOF_IPV6HDR))
          else
            (IPPROTO_IPIP, Z.lxor (in6_word0 (srcv6 (flow pckt))) (port16_0 (flow pckt)), u16 pkt_bytes) in
        let saddr := (IPIP_V6_PREFIX1, IPIP_V6_PREFIX2, IPIP_V6_PREFIX3, ip_suffix) in
        data ← create_v6_hdr data ip6h (tos pckt) saddr dst payload_len proto;
        Ok (true, data)
  end.

Definition encap_v4 data mac pckt dst (pkt_bytes : Z) : res (bool * list Z) :=
  let ip_suffix := bpf_htons (port16_0 (flow pckt)) in
  let ip_suffix := u32 (Z.shiftl ip_suffix 16) in
  let ip_suffix := Z.lxor ip_suffix (in6_word0 (srcv6 (flow pckt))) in
  match bpf_xdp_adjust_head data (0 - SIZEOF_IPV4_HDR) with
  | None => Ok (false, data)
  | Some data =>
      let iph := SIZEOF_ETHER_HDR in
      let old_eth := SIZEOF_IPV4_HDR in
      if (zlen data <? SIZEOF_ETHER_HDR) || (zlen data <? old_eth + SIZEOF_ETHER_HDR)
         || (zlen data <? iph + SIZEOF_IPV4_HDR)
      then Ok (false, data)
      else
        data ← new_eth_hdr data old_eth mac ETHER_TYPE_IPV4_BE;
        data ← create_v4_hdr data iph (tos pckt) (Z.lor (Z.land 4294901760 ip_suffix) IPIP_V4_PREFIX)
                 (in6_word0 dst) pkt_bytes IPPROTO_IPIP;
        Ok (true, data)
  end.

(** The addresses of the old Ethernet header go in front of the inner packet. *)
Definition decap_v6 data (inner_v4 : bool) : res (bool * list Z) :=
  let new_eth := SIZEOF_IPV6HDR in
  source ← ld_bytes data ETHER_S_ADDR 6;
  data ← st_bytes data (new_eth + ETHER_S_ADDR) source;
  dest ← ld_bytes data ETHER_D_ADDR 6;
  data ← st_bytes data (new_eth + ETHER_D_ADDR) dest;
  data ← st16 data (new_eth + ETHER_TYPE) (if inner_v4 then ETHER_TYPE_IPV4_BE else ETH_P_IPV6_BE);
  match bpf_xdp_adjust_head data SIZEOF_IPV6HDR with
  | None => Ok (false, data)
  | Some data => Ok (true, data)
  end.

Definition decap_v4 data : res (bool * list Z) :=
  let new_eth := SIZEOF_IPV4_HDR in
  source ← ld_bytes data ETHER_S_ADDR 6;
  data ← st_bytes data (new_eth + ETHER_S_ADDR) source;
  dest ← ld_bytes data ETHER_D_ADDR 6;
  data ← st_bytes data (new_eth + ETHER_D_ADDR) dest;
  data ← st16 data (new_eth + ETHER_TYPE) ETHER_TYPE_IPV4_BE;
  match bpf_xdp_adjust_head data SIZEOF_IPV4_HDR with
  | None => Ok (false, data)
  | Some data => Ok (true, data)
  end.
End encap.

(** ** Lemmas: the hash *)
Lemma jhash_loop_total fuel key k length abc :
  0 <= k → 0 <= length → k + length <= zlen key → length <= Z.of_nat fuel →
  ∃ k' length' abc', jhash_loop fuel key k length abc = Ok (k', length', abc') ∧
    0 <= k' ∧ 0 <= length' <= 12 ∧ k' + length' = k + length ∧ (0 < length → 0 < length').
Proof.
  revert k length abc. induction fuel as [|fuel IH]; intros k length [[a b] c] Hk Hl Hle Hf; cbn [jhash_loop];
    destruct (Z.ltb_spec 12 length) as [Hgt|Hgt]; try (do 3 eexists; split; [done|]; lia); [lia|].
  rewrite !ld32_ok by lia. cbn [mbind res_bind].
  destruct (IH (k + 12) (length - 12) (jhash_mix (u32 (a + w32 key k), u32 (b + w32 key (k + 4)),
    u32 (c + w32 key (k + 8))))) as (k' & l' & abc' & -> & H); [lia..|].
  do 3 eexists. split; [done|]. lia.
Qed.

Lemma jhash_case_total n length key k shift x :
  0 <= k → 1 <= n → k + length <= zlen key → ∃ y, jhash_case n length key k shift x = Ok y.
Proof.
  intros Hk Hn Hl. unfold jhash_case. destruct (Z.ltb_spec length n); [by eexists|].
  rewrite rd_ok by lia. by eexists.
Qed.

Lemma jhash_final_bound abc : 0 <= snd (jhash_final abc) < 2 ^ 32.
Proof. destruct abc as [[a b] c]. apply Z.mod_pos_bound. lia. Qed.

(** The hash of a key of any length, inside of the key. *)
Lemma jhash_total key length initval :
  0 <= length <= zlen key →
  ∃ h, jhash key length initval = Ok h ∧ 0 <= h < 2 ^ 32.
Proof.
  intros Hl. unfold jhash. set (x := u32 _). assert (Hx : 0 <= x < 2 ^ 32) by (apply Z.mod_pos_bound; lia).
  destruct (jhash_loop_total (Z.to_nat length) key 0 length (x, x, x)) as (k & l & abc & E & Hk & Hl' & Hs & Hp);
    [lia..|]. rewrite E. cbn [mbind res_bind].
  assert (Hc : 0 < l ∨ abc = (x, x, x)).
  { destruct (decide (0 < length)); [lia|]. right. assert (length = 0) as -> by lia. by simplify_eq/=. }
  clear E. destruct abc as [[a b] c]. unfold jhash_switch.
  repeat match goal with |- context [jhash_case ?n l key k ?sh ?y] =>
    let E := fresh "E" in
    destruct (jhash_case_total n l key k sh y) as [? E]; [lia..|]; rewrite E; cbn [mbind res_bind] end.
  destruct (Z.ltb_spec l 1).
  - destruct Hc as [|[= -> -> ->]]; [lia|]. eexists. split; [done|].
    repeat match goal with E : jhash_case ?n l _ _ _ _ = Ok _ |- _ =>
      unfold jhash_case in E; rewrite (proj2 (Z.ltb_lt l n)) in E by lia; injection E as <- end. done.
  - match goal with |- context [jhash_final ?t] => pose proof (jhash_final_bound t) as Hb;
      destruct (jhash_final t) as [[? ?] h] end.
    by exists h.
Qed.

(** ** Lemmas: checksums *)
Lemma csum_words_ok n data p csum :
  0 <= p → p + 2 * Z.of_nat n <= zlen data → bytes_ok data → 0 <= csum →
  csum + 65536 * Z.of_nat n < 2 ^ 64 → csum_words n data p csum = Ok (csum + wsum data p n).
Proof.
  revert p csum. induction n as [|n IH]; intros p csum Hp Hl Hb Hc Hlt; cbn [csum_words wsum]; [f_equal; lia|].
  rewrite ld16_ok by lia. cbn [mbind res_bind].
  assert (0 <= w16 data p < 65536).
  { unfold w16. pose proof (bytes_ok_get data p Hb). pose proof (bytes_ok_get data (p + 1) Hb). lia. }
  rewrite u64_id by lia. rewrite IH by (done || lia). f_equal. lia.
Qed.

Lemma csum_fold_step csum :
  0 <= csum < 2 ^ 32 →
  (if Z.shiftr csum 16 =? 0 then csum else u64 (Z.land csum 65535 + Z.shiftr csum 16)) =
  csum / 65536 + csum mod 65536.
Proof.
  intros Hc. change 65535 with (Z.ones 16). rewrite Z.land_ones, Z.shiftr_div_pow2 by lia.
  change (2 ^ 16) with 65536. pose proof (Z.mod_pos_bound csum 65536). pose proof (Z.div_mod csum 65536).
  destruct (Z.eqb_spec (csum / 65536) 0) as [E|E]; [lia|].
  rewrite u64_id; [lia|]. pose proof (Z.div_pos csum 65536). lia.
Qed.

Lemma csum_fold_spec csum :
  0 <= csum < 2 ^ 32 →
  ∃ r, csum_fold_helper csum = u16 (Z.lnot r) ∧ 0 <= r <= 65535 ∧ r mod 65535 = csum mod 65535.
Proof.
  intros Hc. unfold csum_fold_helper. eexists. split; [reflexivity|]. cbn [csum_fold_loop].
  assert (Hstep : ∀ c, 0 <= c < 2 ^ 32 → 0 <= c / 65536 + c mod 65536 <= c / 65536 + 65535 ∧
    c / 65536 + c mod 65536 <= c ∧ (c / 65536 + c mod 65536) mod 65535 = c mod 65535).
  { intros c Hc'. pose proof (Z.mod_pos_bound c 65536). pose proof (Z.div_mod c 65536).
    pose proof (Z.div_pos c 65536). split; [lia|]. split; [lia|]. apply fold_residue. }
  rewrite (csum_fold_step csum) by done. destruct (Hstep csum Hc) as (B1 & L1 & M1).
  set (c1 := csum / 65536 + csum mod 65536) in *.
  assert (U1 : c1 <= 131070) by (pose proof (Z.div_lt_upper_bound csum 65536 65536); lia).
  rewrite (csum_fold_step c1) by lia. destruct (Hstep c1 ltac:(lia)) as (B2 & L2 & M2).
  assert (U2 : c1 / 65536 + c1 mod 65536 <= 65535).
  { pose proof (Z.div_mod c1 65536). pose proof (Z.mod_pos_bound c1 65536). lia. }
  set (c2 := c1 / 65536 + c1 mod 65536) in *.
  rewrite (csum_fold_step c2) by lia. destruct (Hstep c2 ltac:(lia)) as (B3 & L3 & M3).
  set (c3 := c2 / 65536 + c2 mod 65536) in *.
  rewrite (csum_fold_step c3) by lia. destruct (Hstep c3 ltac:(lia)) as (B4 & L4 & M4).
  split; [lia|]. congruence.
Qed.

(** The checksum of a header: the complement of a number congruent to its sum. *)
Lemma ipv4_csum_spec l1 hdr l2 :
  zlen l1 = 14 → zlen hdr = 20 → bytes_ok hdr → bytes_ok (l1 ++ hdr ++ l2) →
  ∃ r, ipv4_csum_inline (l1 ++ hdr ++ l2) 14 0 = Ok (u16 (Z.lnot r)) ∧ 0 <= r <= 65535 ∧
    r mod 65535 = sum16 hdr mod 65535.
Proof.
  intros L1 L2 Bh Hb. unfold ipv4_csum_inline. change (Z.to_nat (Z.shiftr SIZEOF_IPV4_HDR 1)) with 10%nat.
  assert (Hl : 34 <= zlen (l1 ++ hdr ++ l2)) by (rewrite !zlen_app; pose proof (zlen_nonneg l2); lia).
  rewrite csum_words_ok by (done || lia). cbn [mbind res_bind].
  assert (E : wsum (l1 ++ hdr ++ l2) 14 10 = sum16 hdr).
  { rewrite <- sum16_slice by lia. f_equal. unfold slice, zlen in *.
    rewrite drop_app_length' by lia. by rewrite take_app_length' by lia. }
  rewrite E, Z.add_0_l.
  assert (Hs : ∀ n (l : list Z), bytes_ok l → (length l <= 2 * n)%nat → 0 <= sum16 l <= 65535 * Z.of_nat n).
  { induction n as [|n IH]; intros [|x0 [|x1 l]] Hbl Hll; cbn [length sum16] in *; try lia.
    - apply Forall_cons in Hbl as [? _]. lia.
    - apply Forall_cons in Hbl as [? [? Hbl]%Forall_cons]. specialize (IH l Hbl). lia. }
  destruct (csum_fold_spec (sum16 hdr)) as (r & -> & Hr).
  { pose proof (Hs 10%nat hdr Bh ltac:(unfold zlen in L2; lia)). lia. }
  by exists r.
Qed.

(** The checksum field of a header is set. *)
Lemma set_check_spec l1 a b l2 rest old :
  zlen l1 = 14 → zlen a = 10 → zlen b = 8 → bytes_ok a → bytes_ok b → 0 < sum16 a →
  old = [0; 0] → bytes_ok l1 → bytes_ok rest → l2 = b ++ rest →
  ∃ ck, 0 <= ck < 65536 ∧ csum_ok (a ++ bytes16 ck ++ b) ∧
    ipv4_csum_inline (l1 ++ a ++ old ++ l2) 14 0 = Ok ck ∧
    ∀ x, st_bytes (l1 ++ a ++ old ++ l2) 24 (bytes16 x) = Ok (l1 ++ a ++ bytes16 x ++ l2).
Proof.
  intros L1 La Lb Ba Bb Hpos -> B1 Br ->.
  destruct (ipv4_csum_spec l1 (a ++ [0; 0] ++ b) rest) as (r & E & Hr & Hm); [done| | | |].
  { rewrite !zlen_app, La, Lb. done. }
  { by repeat (apply bytes_ok_app; [done || bytes|]). }
  { by repeat first [apply bytes_ok_app | bytes]. }
  exists (u16 (Z.lnot r)). split; [apply u16_bound|]. split; [|split].
  - apply (field_verifies a b []); try done; [by rewrite La|constructor].
  - rewrite <- E. f_equal. by rewrite <- !app_assoc.
  - intros x. rewrite !(app_assoc l1 a). rewrite st_bytes_piece; [done|by rewrite zlen_app, L1, La|done].
Qed.

(** ** Lemmas: headers *)
(** The headers that the builders write. *)
Definition v4_header (tos saddr daddr pkt_bytes proto ck : Z) (id : list Z) : list Z :=
  [69; u8 tos] ++ bytes16 (bpf_htons (u16 (pkt_bytes + SIZEOF_IPV4_HDR))) ++ id ++
  [0; 0; DEFAULT_TTL; u8 proto] ++ bytes16 ck ++ bytes32 saddr ++ bytes32 daddr.

Definition v6_header (tc : Z) (saddr daddr : in6) (payload_len proto : Z) : list Z :=
  [96 + tc / 16; 16 * (tc mod 16); 0; 0] ++ bytes16 (bpf_htons payload_len) ++
  [u8 proto; DEFAULT_TTL] ++ in6_bytes saddr ++ in6_bytes daddr.

Lemma wr_piece l1 (x y : Z) l2 off : off = zlen l1 → wr (l1 ++ x :: l2) off y = Ok (l1 ++ y :: l2).
Proof.
  intros ->. pose proof (st_bytes_piece l1 [x] [y] l2 (zlen l1) eq_refl eq_refl) as E.
  cbn [st_bytes] in E. cbn [app] in E. destruct (wr _ _ _); cbn in E; congruence.
Qed.

Lemma ld8_piece l1 (x : Z) l2 off : off = zlen l1 → ld8 (l1 ++ x :: l2) off = Ok x.
Proof.
  intros ->. pose proof (zlen_nonneg l1). pose proof (zlen_nonneg l2).
  rewrite ld8_ok by (split; [lia|rewrite zlen_app, zlen_cons; lia]).
  rewrite getz_app_r by lia. by rewrite Z.sub_diag.
Qed.

Lemma st_high_piece l1 x l2 off v :
  off = zlen l1 → st_high (l1 ++ x :: l2) off v = Ok (l1 ++ (x mod 16 + 16 * (v mod 16)) :: l2).
Proof. intros E. unfold st_high. rewrite ld8_piece by done. cbn [mbind res_bind]. by rewrite wr_piece. Qed.

Lemma st_low_piece l1 x l2 off v :
  off = zlen l1 → st_low (l1 ++ x :: l2) off v = Ok (l1 ++ (16 * (x / 16) + v mod 16) :: l2).
Proof. intros E. unfold st_low. rewrite ld8_piece by done. cbn [mbind res_bind]. by rewrite wr_piece. Qed.

(** The low bits after the high ones. *)
Lemma nibbles x hi lo :
  0 <= hi < 16 → 0 <= lo < 16 → 16 * ((x mod 16 + 16 * (hi mod 16)) / 16) + lo mod 16 = 16 * hi + lo.
Proof.
  intros Hh Hl. rewrite (Z.mod_small hi), (Z.mod_small lo) by done. pose proof (Z.mod_pos_bound x 16).
  rewrite <- (Z.div_unique_pos (x mod 16 + 16 * hi) 16 hi (x mod 16)) by lia. lia.
Qed.

Lemma nibble_bytes l1 x l2 off hi lo :
  off = zlen l1 → 0 <= hi < 16 → 0 <= lo < 16 →
  (b ← st_high (l1 ++ x :: l2) off hi; st_low b off lo) = Ok (l1 ++ (16 * hi + lo) :: l2).
Proof.
  intros Ho Hh Hl. rewrite st_high_piece by done. cbn [mbind res_bind].
  by rewrite st_low_piece, nibbles.
Qed.

Ltac done_peel l := destruct l; [|exfalso; match goal with H : zlen _ = _ |- _ => unfold zlen in H; cbn [length] in H; lia end].

(** Stores of single bytes and of fields into an explicit list. *)
Lemma wr_bytes b off v : wr b off v = st_bytes b off [v].
Proof. cbn. by destruct (wr b off v). Qed.

Lemma create_v4_hdr_spec l1 old rest tos saddr daddr pkt_bytes proto :
  zlen l1 = 14 → zlen old = 20 → bytes_ok l1 → bytes_ok old → bytes_ok rest →
  ∃ ck, let hdr := v4_header tos saddr daddr pkt_bytes proto ck (slice old 4 2) in
    0 <= ck < 65536 ∧ csum_ok hdr ∧
    create_v4_hdr (l1 ++ old ++ rest) 14 tos saddr daddr pkt_bytes proto = Ok (l1 ++ hdr ++ rest).
Proof.
  intros L1 Lo B1 Bo Br. unfold create_v4_hdr. unfold IPV4_VERSION_IHL, IPV4_FRAG_OFF, IPV4_NEXT_PROTO_ID,
    IPV4_HDR_CHECKSUM, IPV4_TOS, IPV4_TOTAL_LENGTH, IPV4_DST_ADDR, IPV4_SRC_ADDR, IPV4_TTL. offsets.

  do 20 peel old Lo. done_peel old. cbn [app].
  rewrite st_high_piece by done. cbn [mbind res_bind]. rewrite st_low_piece by done. cbn [mbind res_bind].
  rewrite nibbles by lia. change (16 * 4 + 5) with 69.
  rewrite st16_bytes.
  do 14 peel l1 L1. done_peel l1. clear L1 Lo.
  set (len := bpf_htons _). unfold bytes16 at 1. store. rewrite wr_bytes. store.
  rewrite st16_bytes. unfold bytes16 at 1. store. rewrite wr_bytes. store.
  rewrite st16_bytes. unfold bytes16 at 1. store.
  rewrite st32_bytes. unfold bytes32 at 1. store. rewrite st32_bytes. unfold bytes32 at 1. store.
  rewrite wr_bytes. store. bytes_ne B1. bytes_ne Bo.
  match goal with |- context [ipv4_csum_inline (?a :: ?D) _ _] =>
    destruct (set_check_spec (take 14 (a :: D)) (take 10 (drop 14 (a :: D))) (take 8 (drop 26 (a :: D)))
      (drop 26 (a :: D)) rest [u8 0; u8 (0 / 2 ^ 8)]) as (ck & Hck & Hok & E & S) end; try done; try bytes.
  { cbn [take drop sum16]. match goal with |- context [u8 ?x] => idtac end.
    repeat match goal with |- context [u8 ?x] =>
      let H := fresh in pose proof (u8_byte x) as H; generalize dependent (u8 x); intros end.
    unfold DEFAULT_TTL. lia. }
  exists ck. split; [done|]. revert Hok E S. unfold v4_header, bytes16, bytes32, DEFAULT_TTL. explicit. intros Hok E S.
  split; [exact Hok|]. rewrite E, bind_Ok. rewrite st16_bytes. unfold bytes16. apply S.
Qed.

Lemma tc_high tc : 0 <= tc < 256 → Z.shiftr (Z.land tc 240) 4 = tc / 16 ∧ 0 <= tc / 16 < 16.
Proof.
  intros Ht. rewrite Z.shiftr_land. change (Z.shiftr 240 4) with (Z.ones 4).
  rewrite Z.land_ones, Z.shiftr_div_pow2 by lia. change (2 ^ 4) with 16.
  pose proof (Z.div_pos tc 16). pose proof (Z.div_lt_upper_bound tc 16 16).
  rewrite Z.mod_small by lia. lia.
Qed.

Lemma tc_low tc : u8 (Z.shiftl (Z.land tc 15) 4) = 16 * (tc mod 16).
Proof.
  change 15 with (Z.ones 4). rewrite Z.land_ones, Z.shiftl_mul_pow2 by lia. change (2 ^ 4) with 16.
  pose proof (Z.mod_pos_bound tc 16). rewrite u8_small; lia.
Qed.

Lemma in6_bytes_length a : length (in6_bytes a) = 16%nat.
Proof. by destruct a as [[[? ?] ?] ?]. Qed.

Lemma create_v6_hdr_spec l1 old rest tc saddr daddr payload_len proto :
  zlen l1 = 14 → zlen old = 40 → 0 <= tc < 256 →
  create_v6_hdr (l1 ++ old ++ rest) 14 tc saddr daddr payload_len proto =
    Ok (l1 ++ v6_header tc saddr daddr payload_len proto ++ rest).
Proof.
  intros L1 Lo Ht. destruct (tc_high tc Ht) as [Eh Bh]. unfold create_v6_hdr. rewrite Eh, tc_low.
  unfold IPV6_FLOW_LBL, IPV6_NEXTHDR, IPV6_PAYLOAD_LEN, IPV6_HOP_LIMIT, IPV6_SADDR, IPV6_DADDR. offsets.
  do 8 peel old Lo. cbn [app]. rewrite st_high_piece by done. rewrite bind_Ok.
  set (x := _ + _). do 14 peel l1 L1. done_peel l1. clear L1. cbn [app].
  rewrite <- (take_drop 16 old). assert (Ls : length (take 16 old) = 16%nat).
  { rewrite length_take. unfold zlen in Lo. cbn [length] in Lo. lia. }
  assert (Ld : length (drop 16 old) = 16%nat).
  { rewrite length_drop. unfold zlen in Lo. cbn [length] in Lo. lia. }
  generalize dependent (take 16 old); generalize dependent (drop 16 old). clear Lo. intros d Ld s Ls.
  rewrite <- !app_assoc. remember (s ++ d ++ rest) as R eqn:ER. store.
  match goal with |- context [st_low (?a :: ?D) 14 _] =>
    pose proof (st_low_piece (take 14 (a :: D)) x (drop 14 D) 14 (tc / 16) eq_refl) as E end.
  unfold x in E. rewrite nibbles in E by lia. revert E. explicit. intros E. fold x in E. rewrite E, bind_Ok. clear E x.
  rewrite wr_bytes. store. rewrite wr_bytes. store. rewrite st16_bytes. unfold bytes16 at 1. store.
  rewrite wr_bytes. store. subst R.
  match goal with |- context [st_bytes (?a :: ?D) 22 _] =>
    pose proof (st_bytes_piece (take 22 (a :: D)) s (in6_bytes saddr) (d ++ rest) 22 eq_refl) as E end.
  revert E. cbn [take]. rewrite take_0. cbn [app]. intros E. rewrite E by by rewrite in6_bytes_length. rewrite bind_Ok. clear E.
  match goal with |- context [st_bytes (?a :: ?D) 38 _] =>
    pose proof (st_bytes_piece (take 22 (a :: D) ++ in6_bytes saddr) d (in6_bytes daddr) rest 38) as E end.
  revert E. cbn [take]. rewrite take_0, zlen_app. unfold zlen at 2. rewrite in6_bytes_length. cbn [app].
  rewrite <- ?app_assoc. intros E. rewrite E by done || by rewrite in6_bytes_length.
  unfold v6_header. fold (@app Z). by rewrite <- !app_assoc.
Qed.

Lemma zlen_v4_header tos saddr daddr n proto ck id :
  zlen id = 2 → zlen (v4_header tos saddr daddr n proto ck id) = 20.
Proof. intros L. unfold v4_header. rewrite !zlen_app, L. done. Qed.

Lemma zlen_v6_header tc saddr daddr n proto : zlen (v6_header tc saddr daddr n proto) = 40.
Proof. unfold v6_header. rewrite !zlen_app. unfold zlen. by rewrite !in6_bytes_length. Qed.

(** A UDP header, and what is stored. *)
Definition udp_header (sport dport len : Z) : list Z :=
  bytes16 sport ++ bytes16 (bpf_htons dport) ++ bytes16 (bpf_htons len) ++ [0; 0].

Lemma create_udp_hdr_spec l1 old rest sport dport len udph :
  udph = zlen l1 → zlen old = 8 →
  create_udp_hdr (l1 ++ old ++ rest) udph sport dport len 0 =
    Ok (l1 ++ udp_header sport dport len ++ rest).
Proof.
  intros -> Lo. unfold create_udp_hdr, TCPUDP_SRC_PORT, TCPUDP_DST_PORT, udp_header.
  rewrite !Z.add_0_r.
  do 8 (destruct old as [|? old]; [exfalso; unfold zlen in Lo; cbn in Lo; lia|]).
  destruct old; [|exfalso; unfold zlen in Lo; cbn [length] in Lo; lia]. clear Lo.
  set (p := bytes16 sport). set (q := bytes16 (bpf_htons dport)). set (r := bytes16 (bpf_htons len)).
  assert (Hp : zlen p = 2) by done. assert (Hq : zlen q = 2) by done. assert (Hr : zlen r = 2) by done.
  assert (P : ∀ l a b c d new off, off = zlen l → length new = 2%nat →
    st_bytes (l ++ (a :: b :: c) ++ d) off new = Ok ((l ++ new) ++ c ++ d)).
  { intros l a b c d new off Ho Hn. rewrite <- (app_assoc l). by apply (st_bytes_piece l [a; b] new (c ++ d)). }
  rewrite st16_bytes, (P l1 z z0 [z1; z2; z3; z4; z5; z6] rest p), bind_Ok by done.
  rewrite st16_bytes, (P (l1 ++ p) z1 z2 [z3; z4; z5; z6] rest q), bind_Ok by (rewrite ?zlen_app; done || lia).
  rewrite st16_bytes, (P ((l1 ++ p) ++ q) z3 z4 [z5; z6] rest r), bind_Ok by (rewrite ?zlen_app; done || lia).
  rewrite st16_bytes, (P (((l1 ++ p) ++ q) ++ r) z5 z6 [] rest (bytes16 0)) by (rewrite ?zlen_app; done || lia).
  by rewrite <- !app_assoc.
Qed.

(** ** Lemmas: encapsulation *)
Lemma split_at (n : nat) (b : list Z) :
  Z.of_nat n <= zlen b → b = take n b ++ drop n b ∧ zlen (take n b) = Z.of_nat n ∧
    zlen (drop n b) = zlen b - Z.of_nat n.
Proof.
  intros Hn. split; [by rewrite take_drop|]. unfold zlen in *. rewrite length_take, length_drop. lia.
Qed.

Lemma slice_app_r l1 l2 off n : zlen l1 <= off → slice (l1 ++ l2) off n = slice l2 (off - zlen l1) n.
Proof.
  intros Ho. unfold slice, zlen in *. rewrite drop_app_ge by lia. do 2 f_equal. lia.
Qed.

Lemma new_eth_hdr_spec data old_eth mac p :
  14 <= old_eth → old_eth + 14 <= zlen data → zlen mac = 6 →
  new_eth_hdr data old_eth mac p = Ok (mac ++ slice data old_eth 6 ++ bytes16 p ++ drop 14 data).
Proof.
  intros Ho Hl Hm. destruct (split_at 6 data) as (E1 & L1 & L1'); [lia|].
  destruct (split_at 6 (drop 6 data)) as (E2 & L2 & L2'); [lia|].
  destruct (split_at 2 (drop 6 (drop 6 data))) as (E3 & L3 & L3'); [lia|].
  assert (Es : slice data old_eth 6 = slice (drop 6 data) (old_eth - 6) 6).
  { rewrite E1 at 1. rewrite slice_app_r by lia. by rewrite L1. }
  rewrite Es. replace (drop 14 data) with (drop 2 (drop 6 (drop 6 data))) by by rewrite !drop_drop.
  rewrite E1 at 1. unfold new_eth_hdr, ETHER_D_ADDR, ETHER_S_ADDR, ETHER_TYPE.
  set (d1 := drop 6 data) in *. set (d2 := drop 6 d1) in *. set (d3 := drop 2 d2) in *.
  rewrite (st_bytes_piece [] (take 6 data) mac d1) by (done || (unfold zlen in *; lia)).
  rewrite bind_Ok. cbn [app]. replace (old_eth + 0) with old_eth by lia.
  rewrite ld_bytes_ok by (rewrite ?zlen_app; lia). rewrite bind_Ok.
  rewrite slice_app_r, Hm by lia. change (Z.of_nat 6) with 6. set (s := slice d1 (old_eth - 6) 6).
  assert (Ls : zlen s = 6) by (unfold s; apply zlen_slice; lia).
  rewrite E2. rewrite (st_bytes_piece mac (take 6 d1) s d2) by (unfold zlen in *; lia).
  rewrite bind_Ok. rewrite E3, st16_bytes, (app_assoc mac s).
  rewrite st_bytes_piece; [by rewrite <- app_assoc|rewrite zlen_app; lia|change (length (bytes16 p)) with 2%nat; unfold zlen in *; lia].
Qed.

(** What the kernel does to the front of a frame. *)
Class AdjustHead (bpf_xdp_adjust_head : list Z → Z → option (list Z)) := {
  adjust_grow data n d :
    0 < n → bpf_xdp_adjust_head data (0 - n) = Some d → ∃ h, zlen h = n ∧ bytes_ok h ∧ d = h ++ data;
  adjust_shrink data n d :
    0 < n → bpf_xdp_adjust_head data n = Some d → d = drop (Z.to_nat n) data
}.

Definition outer_v4 (data mac : list Z) (pckt : packet_description) (dst : in6) (pkt_bytes ck : Z)
    (id : list Z) : list Z :=
  let saddr := Z.lor (Z.land 4294901760 (Z.lxor (u32 (Z.shiftl (bpf_htons (port16_0 (flow pckt))) 16))
                 (in6_word0 (srcv6 (flow pckt))))) IPIP_V4_PREFIX in
  mac ++ slice data 0 6 ++ bytes16 ETHER_TYPE_IPV4_BE ++
  v4_header (tos pckt) saddr (in6_word0 dst) pkt_bytes IPPROTO_IPIP ck id.

Definition outer_v6 (data mac : list Z) (is_ipv6 : bool) (pckt : packet_description) (dst : in6)
    (pkt_bytes : Z) : list Z :=
  let suffix := if is_ipv6 then in6_word3 (srcv6 (flow pckt)) else in6_word0 (srcv6 (flow pckt)) in
  mac ++ slice data 0 6 ++ bytes16 ETH_P_IPV6_BE ++
  v6_header (tos pckt) (IPIP_V6_PREFIX1, IPIP_V6_PREFIX2, IPIP_V6_PREFIX3,
                        Z.lxor suffix (port16_0 (flow pckt))) dst
    (if is_ipv6 then u16 (pkt_bytes + SIZEOF_IPV6HDR) else u16 pkt_bytes)
    (if is_ipv6 then IPPROTO_IPV6 else IPPROTO_IPIP).

Section encap_lemmas.
Context (bpf_xdp_adjust_head : list Z → Z → option (list Z)) `{!AdjustHead bpf_xdp_adjust_head}.
Implicit Types (data mac : list Z) (pckt : packet_description) (dst : in6).

(** The new front of the frame: [n] bytes more, and the old Ethernet header gone. *)
Lemma room_split h data n :
  zlen h = n → 14 <= n → 14 <= zlen data →
  ∃ old, zlen old = n ∧ drop 14 (h ++ data) = old ++ drop 14 data ∧
    slice (h ++ data) n 6 = slice data 0 6 ∧ (bytes_ok h → bytes_ok data → bytes_ok old) ∧
    (20 <= n → slice old 4 2 = slice h 18 2).
Proof.
  intros Lh Hn Hl. exists (drop 14 h ++ take 14 data). unfold zlen in *.
  rewrite length_app, length_drop, length_take. split; [lia|]. split; [|split; [|split]].
  - rewrite drop_app_le by lia. by rewrite <- app_assoc, take_drop.
  - rewrite slice_app_r by (unfold zlen; lia). unfold zlen. by rewrite Lh, Z.sub_diag.
  - intros Bh Bd. apply bytes_ok_app; [by apply Forall_drop|by apply Forall_take].
  - intros H20. unfold slice. rewrite drop_app_le by (rewrite length_drop; change (Z.to_nat 4) with 4%nat; lia).
    rewrite take_app_le by (rewrite !length_drop; change (Z.to_nat 4) with 4%nat; change (Z.to_nat 2) with 2%nat; lia).
    by rewrite drop_drop.
Qed.

Lemma encap_v4_spec data mac pckt dst pkt_bytes d :
  bpf_xdp_adjust_head data (0 - SIZEOF_IPV4_HDR) = Some d → 14 <= zlen data → zlen mac = 6 →
  bytes_ok data → bytes_ok mac →
  ∃ ck id, 0 <= ck < 65536 ∧ zlen id = 2 ∧
    encap_v4 bpf_xdp_adjust_head data mac pckt dst pkt_bytes =
      Ok (true, outer_v4 data mac pckt dst pkt_bytes ck id ++ drop 14 data) ∧
    csum_ok (slice (outer_v4 data mac pckt dst pkt_bytes ck id) 14 20).
Proof.
  intros Ed Hl Lm Bd Bm. destruct (adjust_grow data SIZEOF_IPV4_HDR d eq_refl Ed) as (h & Lh & Bh & ->).
  unfold SIZEOF_IPV4_HDR in Lh. destruct (room_split h data 20) as (old & Lo & Eo & Es & Bo & Ei); [done|lia|done|].
  unfold encap_v4. rewrite Ed. unfold SIZEOF_ETHER_HDR, SIZEOF_IPV4_HDR.
  assert (Ll : zlen (h ++ data) = 20 + zlen data) by (rewrite zlen_app; lia).
  rewrite !(proj2 (Z.ltb_ge _ _)) by lia. cbn [orb].
  rewrite new_eth_hdr_spec by lia. rewrite bind_Ok, Es, Eo.
  set (saddr := Z.lor _ _). set (eth := mac ++ slice data 0 6 ++ bytes16 ETHER_TYPE_IPV4_BE).
  assert (Le : zlen eth = 14).
  { unfold eth. rewrite !zlen_app, zlen_slice, Lm by lia. done. }
  assert (Be : bytes_ok eth).
  { unfold eth. repeat (apply bytes_ok_app; [done || by apply bytes_ok_slice|]). apply bytes16_ok. }
  destruct (create_v4_hdr_spec eth old (drop 14 data) (tos pckt) saddr (in6_word0 dst) pkt_bytes IPPROTO_IPIP)
    as (ck & Hck & Hok & E); [done|done|done|by apply Bo|by apply Forall_drop|].
  exists ck, (slice old 4 2). split; [done|]. split; [by rewrite zlen_slice by lia|].
  unfold outer_v4. fold saddr. split.
  - assert (E' : mac ++ slice data 0 6 ++ bytes16 ETHER_TYPE_IPV4_BE ++ old ++ drop 14 data =
                 eth ++ old ++ drop 14 data) by (unfold eth; by rewrite <- !app_assoc).
    rewrite E', E, bind_Ok. unfold eth. by rewrite <- !app_assoc.
  - rewrite (app_assoc (slice data 0 6)), (app_assoc mac). fold eth. rewrite slice_app_r by lia.
    rewrite Le. unfold slice at 1. change (Z.to_nat (14 - 14)) with 0%nat. rewrite drop_0.
    rewrite take_ge; [done|]. unfold v4_header. rewrite !length_app.
    replace (length (slice old 4 2)) with 2%nat; [done|]. pose proof (zlen_slice old 4 2). unfold zlen in *. lia.
Qed.

Lemma encap_v6_spec data mac is_ipv6 pckt dst pkt_bytes d :
  bpf_xdp_adjust_head data (0 - SIZEOF_IPV6HDR) = Some d → 14 <= zlen data → zlen mac = 6 →
  0 <= tos pckt < 256 →
  encap_v6 bpf_xdp_adjust_head data mac is_ipv6 pckt dst pkt_bytes =
    Ok (true, outer_v6 data mac is_ipv6 pckt dst pkt_bytes ++ drop 14 data).
Proof.
  intros Ed Hl Lm Ht. destruct (adjust_grow data SIZEOF_IPV6HDR d eq_refl Ed) as (h & Lh & _ & ->).
  unfold SIZEOF_IPV6HDR in Lh. destruct (room_split h data 40) as (old & Lo & Eo & Es & _); [done|lia|done|].
  unfold encap_v6. rewrite Ed. unfold SIZEOF_ETHER_HDR, SIZEOF_IPV6HDR.
  assert (Ll : zlen (h ++ data) = 40 + zlen data) by (rewrite zlen_app; lia).
  rewrite !(proj2 (Z.ltb_ge _ _)) by lia. cbn [orb].
  rewrite new_eth_hdr_spec by lia. rewrite bind_Ok, Es, Eo.
  set (eth := mac ++ slice data 0 6 ++ bytes16 ETH_P_IPV6_BE).
  assert (Le : zlen eth = 14) by (unfold eth; rewrite !zlen_app, zlen_slice, Lm by lia; done).
  assert (E' : mac ++ slice data 0 6 ++ bytes16 ETH_P_IPV6_BE ++ old ++ drop 14 data =
               eth ++ old ++ drop 14 data) by (unfold eth; by rewrite <- !app_assoc).
  rewrite E'. unfold outer_v6. destruct is_ipv6; rewrite create_v6_hdr_spec, bind_Ok by done;
    unfold eth; by rewrite <- !app_assoc.
Qed.
End encap_lemmas.

(** ** Lemmas: decapsulation *)
Lemma decap_body {A} (k : list Z → res A) n p data :
  14 <= n → n + 14 <= zlen data →
  (source ← ld_bytes data ETHER_S_ADDR 6;
   data ← st_bytes data (n + ETHER_S_ADDR) source;
   dest ← ld_bytes data ETHER_D_ADDR 6;
   data ← st_bytes data (n + ETHER_D_ADDR) dest;
   data ← st16 data (n + ETHER_TYPE) p;
   k data) =
  k (take (Z.to_nat n) data ++ slice data 0 6 ++ slice data 6 6 ++ bytes16 p ++
     drop (Z.to_nat n + 14) data).
Proof.
  intros Hn Hl. unfold ETHER_S_ADDR, ETHER_D_ADDR, ETHER_TYPE.
  rewrite ld_bytes_ok by lia. rewrite bind_Ok. change (Z.of_nat 6) with 6.
  set (s := slice data 6 6). assert (Ls : zlen s = 6) by (unfold s; rewrite zlen_slice; lia).
  destruct (split_at (Z.to_nat n) data) as (E0 & L0 & L0'); [lia|].
  set (pre := take (Z.to_nat n) data) in *. set (d0 := drop (Z.to_nat n) data) in *.
  destruct (split_at 6 d0) as (E1 & L1 & L1'); [lia|].
  destruct (split_at 6 (drop 6 d0)) as (E2 & L2 & L2'); [lia|].
  destruct (split_at 2 (drop 6 (drop 6 d0))) as (E3 & L3 & L3'); [lia|].
  assert (Er : drop (Z.to_nat n + 14) data = drop 2 (drop 6 (drop 6 d0))).
  { unfold d0. rewrite !drop_drop. f_equal; lia. }
  rewrite Er. set (x := take 6 d0) in *. set (d1 := drop 6 d0) in *. set (y := take 6 d1) in *.
  set (d2 := drop 6 d1) in *. set (z := take 2 d2) in *. set (d3 := drop 2 d2) in *.
  assert (Sd : slice data 0 6 = slice pre 0 6).
  { rewrite E0. unfold slice. rewrite drop_0, take_app_le; [done|]. unfold zlen in L0. lia. }
  assert (Ep : ld_bytes (pre ++ x ++ s ++ d2) 0 6 = Ok (slice pre 0 6)).
  { rewrite ld_bytes_ok; [|lia|rewrite zlen_app; pose proof (zlen_nonneg (x ++ s ++ d2)); lia].
    unfold slice. rewrite drop_0, take_app_le; [done|]. unfold zlen in L0. change (Z.to_nat (Z.of_nat 6)) with 6%nat. lia. }
  rewrite Sd. set (e := slice pre 0 6) in *.
  assert (Le : zlen e = 6) by (unfold e; rewrite zlen_slice; lia).
  rewrite E0, E1, E2 at 1. rewrite (app_assoc pre x).
  rewrite (st_bytes_piece (pre ++ x) y s d2) by (rewrite ?zlen_app; unfold zlen in *; lia).
  rewrite bind_Ok, <- app_assoc, Ep, bind_Ok. replace (n + 0) with n by lia.
  rewrite (st_bytes_piece pre x e (s ++ d2)) by (unfold zlen in *; lia). rewrite bind_Ok.
  rewrite E3, st16_bytes. rewrite (app_assoc e), (app_assoc pre).
  rewrite st_bytes_piece; [rewrite bind_Ok; by rewrite <- !app_assoc|rewrite !zlen_app; lia|].
  change (length (bytes16 p)) with 2%nat. unfold zlen in *; lia.
Qed.

(** The tunnel in front of a packet is taken off again. *)
Lemma decap_outer (eth hdr rest : list Z) p n :
  zlen eth = 14 → zlen hdr = n → 14 <= n →
  drop (Z.to_nat n) (take (Z.to_nat n) (eth ++ hdr ++ rest) ++ slice (eth ++ hdr ++ rest) 0 6 ++
    slice (eth ++ hdr ++ rest) 6 6 ++ bytes16 p ++ drop (Z.to_nat n + 14) (eth ++ hdr ++ rest)) =
  take 12 eth ++ bytes16 p ++ rest.
Proof.
  intros Le Lh Hn. unfold zlen in *. rewrite drop_app_length'
    by (rewrite length_take, !length_app; lia).
  assert (E1 : slice (eth ++ hdr ++ rest) 0 6 = take 6 eth).
  { unfold slice. rewrite drop_0, take_app_le; [done|]. change (Z.to_nat 6) with 6%nat. lia. }
  assert (E2 : slice (eth ++ hdr ++ rest) 6 6 = take 6 (drop 6 eth)).
  { unfold slice. rewrite drop_app_le, take_app_le; [done|rewrite length_drop|]; change (Z.to_nat 6) with 6%nat; lia. }
  rewrite E1, E2, app_assoc. f_equal.
  - by rewrite take_take_drop.
  - f_equal. rewrite app_assoc, drop_app_length'; [done|]. rewrite length_app. lia.
Qed.

(** ** Every access is inside of the frame *)
Lemma wr_total (b : list Z) off v : 0 <= off < zlen b → ∃ b', wr b off v = Ok b' ∧ zlen b' = zlen b.
Proof. intros Ho. rewrite wr_ok by done. eexists. split; [done|]. by rewrite zlen_setz. Qed.

Lemma st32_total b off v : 0 <= off → off + 4 <= zlen b → ∃ b', st32 b off v = Ok b' ∧ zlen b' = zlen b.
Proof. intros. rewrite st32_bytes. apply st_bytes_total; [done|]. by change (zlen (bytes32 v)) with 4. Qed.

Lemma csum_words_total n data p csum :
  0 <= p → p + 2 * Z.of_nat n <= zlen data → ∃ c, csum_words n data p csum = Ok c.
Proof.
  revert p csum. induction n as [|n IH]; intros p csum Hp Hl; cbn [csum_words]; [by eexists|].
  rewrite ld16_ok by lia. rewrite bind_Ok. apply IH; lia.
Qed.

Lemma ipv4_csum_total data iph csum :
  0 <= iph → iph + 20 <= zlen data → ∃ c, ipv4_csum_inline data iph csum = Ok c.
Proof.
  intros Hi Hl. unfold ipv4_csum_inline. change (Z.to_nat (Z.shiftr SIZEOF_IPV4_HDR 1)) with 10%nat.
  destruct (csum_words_total 10 data iph csum) as (c & ->); [lia..|]. by eexists.
Qed.

(** Runs one load or store. *)
Ltac access :=
  match goal with
  | |- context [ld8 ?b ?o] => rewrite (ld8_ok b o) by lia
  | |- context [ld16 ?b ?o] => rewrite (ld16_ok b o) by lia
  | |- context [ld32 ?b ?o] => rewrite (ld32_ok b o) by lia
  | |- context [ld_bytes ?b ?o ?n] => rewrite (ld_bytes_ok b o n) by lia
  | |- context [wr ?b ?o ?v ≫= _] =>
      let b' := fresh "b" in let E := fresh in let L := fresh "L" in
      destruct (wr_total b o v) as (b' & E & L); [lia|]; rewrite E; clear E
  | |- context [st16 ?b ?o ?v ≫= _] =>
      let b' := fresh "b" in let E := fresh in let L := fresh "L" in
      destruct (st16_total b o v) as (b' & E & L); [lia..|]; rewrite E; clear E
  | |- context [st32 ?b ?o ?v ≫= _] =>
      let b' := fresh "b" in let E := fresh in let L := fresh "L" in
      destruct (st32_total b o v) as (b' & E & L); [lia..|]; rewrite E; clear E
  | |- context [st_bytes ?b ?o ?v ≫= _] =>
      let b' := fresh "b" in let E := fresh in let L := fresh "L" in
      destruct (st_bytes_total b o v) as (b' & E & L); [lia|rewrite ?zlen_slice by lia; lia|]; rewrite E; clear E
  | |- context [ipv4_csum_inline ?b ?o ?c] =>
      let c' := fresh "c" in let E := fresh in
      destruct (ipv4_csum_total b o c) as (c' & E); [lia..|]; rewrite E; clear E
  end; rewrite ?bind_Ok.

Lemma create_udp_hdr_total data udph sport dport len csum :
  0 <= udph → udph + 8 <= zlen data →
  ∃ d, create_udp_hdr data udph sport dport len csum = Ok d ∧ zlen d = zlen data.
Proof.
  intros Hu Hl. unfold create_udp_hdr, TCPUDP_SRC_PORT, TCPUDP_DST_PORT. repeat access.
  match goal with |- context [st16 ?b ?o ?v] => destruct (st16_total b o v) as (d & -> & ?); [lia..|] end.
  eexists. split; [done|lia].
Qed.

Lemma swap_mac_total data :
  14 <= zlen data → ∃ d, swap_mac_and_send data = Ok (XDP_TX, d) ∧ zlen d = zlen data.
Proof.
  intros Hl. unfold swap_mac_and_send, ETHER_S_ADDR, ETHER_D_ADDR. do 2 access.
  change (Z.of_nat 6) with 6. repeat access. eexists. split; [done|lia].
Qed.

Lemma send_icmp_reply_total data :
  ∃ a d, send_icmp_reply data = Ok (a, d) ∧ (a = XDP_DROP ∨ a = XDP_TX) ∧ zlen d = zlen data.
Proof.
  unfold send_icmp_reply, SIZEOF_ETHER_HDR, SIZEOF_IPV4_HDR, SIZEOF_ICMPHDR, ICMP_TYPE, ICMP_CKSUM, IPV4_TTL,
    IPV4_DST_ADDR, IPV4_SRC_ADDR, IPV4_HDR_CHECKSUM. offsets.
  destruct (Z.ltb_spec (zlen data) 42); [do 2 eexists; split; [done|by auto]|].
  repeat access. destruct (swap_mac_total b5) as (d & -> & Ld); [lia|].
  do 2 eexists. split; [done|]. split; [by right|lia].
Qed.

Lemma send_icmp6_reply_total data :
  ∃ a d, send_icmp6_reply data = Ok (a, d) ∧ (a = XDP_DROP ∨ a = XDP_TX) ∧ zlen d = zlen data.
Proof.
  unfold send_icmp6_reply, SIZEOF_ETHER_HDR, SIZEOF_IPV6HDR, SIZEOF_ICMP6HDR, ICMP_TYPE, ICMP_CKSUM,
    IPV6_HOP_LIMIT, IPV6_SADDR, IPV6_DADDR. offsets.
  destruct (Z.ltb_spec (zlen data) 62); [do 2 eexists; split; [done|by auto]|].
  do 6 access. change (Z.of_nat 16) with 16. repeat access.
  match goal with |- context [swap_mac_and_send ?b] => destruct (swap_mac_total b) as (d & -> & Ld) end; [lia|].
  do 2 eexists. split; [done|]. split; [by right|lia].
Qed.

(** ** Round trip *)
(** A tunnel header that the balancer puts in front of a packet is one that the
    decapsulation takes off: what is left is the packet behind an Ethernet header with
    the new destination, for IPv4 in IPv4, and for both protocols in IPv6. *)
Theorem katran_encap_decap (bpf_xdp_adjust_head : list Z → Z → option (list Z))
    `{!AdjustHead bpf_xdp_adjust_head} data mac pckt dst pkt_bytes (is_ipv6 : bool) :
  (∀ l n, bpf_xdp_adjust_head l n ≠ None) →
  14 <= zlen data → zlen mac = 6 → bytes_ok data → bytes_ok mac → 0 <= tos pckt < 256 →
  (∃ tunnel, encap_v4 bpf_xdp_adjust_head data mac pckt dst pkt_bytes = Ok (true, tunnel) ∧
    zlen tunnel = zlen data + 20 ∧
    decap_v4 bpf_xdp_adjust_head tunnel =
      Ok (true, mac ++ slice data 0 6 ++ bytes16 ETHER_TYPE_IPV4_BE ++ drop 14 data)) ∧
  (∃ tunnel, encap_v6 bpf_xdp_adjust_head data mac is_ipv6 pckt dst pkt_bytes = Ok (true, tunnel) ∧
    zlen tunnel = zlen data + 40 ∧
    decap_v6 bpf_xdp_adjust_head tunnel (negb is_ipv6) =
      Ok (true, mac ++ slice data 0 6 ++
                bytes16 (if is_ipv6 then ETH_P_IPV6_BE else ETHER_TYPE_IPV4_BE) ++ drop 14 data)).
Proof.
  intros Hall Hl Lm Bd Bm Ht.
  assert (Hadj : ∀ l n, ∃ d, bpf_xdp_adjust_head l n = Some d).
  { intros l n. destruct (bpf_xdp_adjust_head l n) eqn:E; [by eexists|by apply Hall in E]. }
  assert (Ls : zlen (slice data 0 6) = 6) by (by apply zlen_slice; lia).
  assert (T12 : ∀ l p, take 12 (mac ++ slice data 0 6 ++ bytes16 p) ++ l = mac ++ slice data 0 6 ++ l).
  { intros l p. rewrite (app_assoc mac), take_app_length' by (rewrite length_app; unfold zlen in *; lia).
    by rewrite <- app_assoc. }
  assert (L14 : ∀ p, zlen (mac ++ slice data 0 6 ++ bytes16 p) = 14).
  { intros p. rewrite !zlen_app, Lm, Ls. reflexivity. }
  assert (Ld : zlen (drop 14 data) = zlen data - 14) by (unfold zlen in *; rewrite length_drop; lia).
  split.
  - destruct (Hadj data (0 - SIZEOF_IPV4_HDR)) as [d Ed].
    destruct (encap_v4_spec bpf_xdp_adjust_head data mac pckt dst pkt_bytes d)
      as (ck & id & _ & Lid & E & _); try done.
    eexists. split; [exact E|]. unfold outer_v4. set (saddr := Z.lor _ _).
    set (hdr := v4_header _ _ _ _ _ _ _).
    assert (Lh : zlen hdr = 20) by (unfold hdr, v4_header; rewrite !zlen_app, Lid; reflexivity).
    rewrite (app_assoc (slice data 0 6)), (app_assoc mac).
    set (eth := mac ++ slice data 0 6 ++ bytes16 ETHER_TYPE_IPV4_BE) in *. specialize (L14 ETHER_TYPE_IPV4_BE).
    fold eth in L14. rewrite <- (app_assoc eth).
    split; [rewrite !zlen_app; lia|]. unfold decap_v4, SIZEOF_IPV4_HDR.
    rewrite decap_body; [|lia|rewrite !zlen_app; lia].
    match goal with |- context [bpf_xdp_adjust_head ?l 20] => destruct (Hadj l 20) as [d' Ed']; rewrite Ed' end.
    apply adjust_shrink in Ed' as ->; [|done]. rewrite decap_outer by done. unfold eth. by rewrite T12.
  - destruct (Hadj data (0 - SIZEOF_IPV6HDR)) as [d Ed].
    pose proof (encap_v6_spec bpf_xdp_adjust_head data mac is_ipv6 pckt dst pkt_bytes d Ed Hl Lm Ht) as E.
    eexists. split; [exact E|]. unfold outer_v6. set (hdr := v6_header _ _ _ _ _).
    assert (Lh : zlen hdr = 40).
    { unfold hdr, v6_header. rewrite !zlen_app. unfold zlen. by rewrite !in6_bytes_length. }
    rewrite (app_assoc (slice data 0 6)), (app_assoc mac).
    set (eth := mac ++ slice data 0 6 ++ bytes16 ETH_P_IPV6_BE) in *. specialize (L14 ETH_P_IPV6_BE).
    fold eth in L14. rewrite <- (app_assoc eth).
    split; [rewrite !zlen_app; lia|]. unfold decap_v6, SIZEOF_IPV6HDR.
    rewrite decap_body; [|lia|rewrite !zlen_app; lia].
    match goal with |- context [bpf_xdp_adjust_head ?l 40] => destruct (Hadj l 40) as [d' Ed']; rewrite Ed' end.
    apply adjust_shrink in Ed' as ->; [|done]. rewrite decap_outer by done. unfold eth. rewrite T12.
    by destruct is_ipv6.
Qed.

(** ** Echo replies *)
Lemma csum_ok_iff l : bytes_ok l → csum_ok l ↔ sum16 l mod 65535 = 0 ∧ sum16 l ≠ 0.
Proof.
  intros Hb. split; [|intros [? ?]; by apply csum_ok_intro].
  intros Hc. destruct (ones_sum_spec l Hb) as (_ & Hm & Hz). unfold csum_ok in Hc. rewrite Hc in *.
  split; [by rewrite <- Hm|lia].
Qed.

(** The reply: the addresses of both headers swapped. *)
Definition echo_reply (data : list Z) (ip_check : Z) : list Z :=
  slice data 6 6 ++ slice data 0 6 ++ slice data 12 10 ++ [DEFAULT_TTL; getz data 23] ++
  bytes16 ip_check ++ slice data 30 4 ++ slice data 26 4 ++
  [ICMP_ECHOREPLY; getz data 35] ++ bytes16 (u16 (w16 data 36 + 8)) ++ drop 38 data.

Lemma send_icmp_reply_spec data :
  42 <= zlen data → bytes_ok data → 0 < getz data 14 →
  ∃ ck, send_icmp_reply data = Ok (XDP_TX, echo_reply data ck) ∧
    csum_ok (slice (echo_reply data ck) 14 20).
Proof.
  intros Hl Hb Hv. unfold send_icmp_reply, SIZEOF_ETHER_HDR, SIZEOF_IPV4_HDR, SIZEOF_ICMPHDR, ICMP_TYPE,
    ICMP_CKSUM, IPV4_TTL, IPV4_DST_ADDR, IPV4_SRC_ADDR, IPV4_HDR_CHECKSUM. offsets.
  rewrite (proj2 (Z.ltb_ge _ _)) by lia.
  do 42 peel data Hl. clear Hl. pose proof Hb as Hb'. bytes_ne Hb'.
  rewrite wr_bytes. store. rewrite ld16_ok by len. rewrite bind_Ok. rewrite st16_bytes.
  match goal with |- context [w16 ?l 36] => change (w16 l 36) with (z35 + 256 * z36) end.
  unfold echo_reply. match goal with |- context [w16 ?l 36] => change (w16 l 36) with (z35 + 256 * z36) end.
  set (ck := u16 (z35 + 256 * z36 + 8)). unfold bytes16 at 1. store.
  rewrite wr_bytes. store. rewrite (ld32_ok _ 30) by len. rewrite bind_Ok. rewrite (ld32_ok _ 26) by len. rewrite bind_Ok.
  repeat match goal with |- context [w32 ?l 30] =>
    change (w32 l 30) with (z29 + 256 * z30 + 65536 * (z31 + 256 * z32)) end.
  match goal with |- context [w32 ?l 26] =>
    change (w32 l 26) with (z25 + 256 * z26 + 65536 * (z27 + 256 * z28)) end.
  rewrite st32_bytes, bytes32_le by done. store.
  rewrite st32_bytes, bytes32_le by done. store. rewrite st16_bytes. unfold bytes16 at 1. store.
  match goal with |- context [ipv4_csum_inline (?a :: ?D) _ _] =>
    destruct (set_check_spec (take 14 (a :: D)) (take 10 (drop 14 (a :: D))) (take 8 (drop 26 (a :: D)))
      (drop 26 (a :: D)) (drop 34 (a :: D)) [u8 0; u8 (0 / 2 ^ 8)]) as (c & Hc & Hok & E & S) end; try done; try bytes.
  { cbn [take drop sum16]. change (0 < z13) in Hv. unfold DEFAULT_TTL. lia. }
  exists c. revert Hok E S. unfold bytes16, DEFAULT_TTL. explicit. intros Hok E S. rewrite E, bind_Ok.
  rewrite st16_bytes. unfold bytes16. rewrite S, bind_Ok. split; [|exact Hok].
  unfold swap_mac_and_send, ETHER_S_ADDR, ETHER_D_ADDR.
  rewrite (ld_bytes_ok _ 6) by len. rewrite bind_Ok. rewrite (ld_bytes_ok _ 0) by len. rewrite bind_Ok.
  change (Z.of_nat 6) with 6. explicit. store. store. reflexivity.
Qed.

(** The message of the reply verifies if the request does, except when the checksum
    wraps: the code adds 8 without the end-around carry. *)
Lemma echo_message data ck :
  42 <= zlen data → bytes_ok data → getz data 34 = ICMP_ECHO → csum_ok (drop 34 data) →
  csum_ok (drop 34 (echo_reply data ck)) ↔ w16 data 36 < 65528.
Proof.
  intros Hl Hb Ht. assert (Hbr : bytes_ok (drop 34 (echo_reply data ck)) ∧
    drop 34 data = [ICMP_ECHO; getz data 35; getz data 36; getz data 37] ++ drop 38 data ∧
    drop 34 (echo_reply data ck) =
      [ICMP_ECHOREPLY; getz data 35] ++ bytes16 (u16 (w16 data 36 + 8)) ++ drop 38 data).
  { do 42 peel data Hl. clear Hl. pose proof Hb as Hb'. bytes_ne Hb'. unfold echo_reply. explicit.
    change (z33 = ICMP_ECHO) in Ht. subst z33. split; [|split; [reflexivity|]].
    - apply (bytes_ok_app [_; _]); [bytes|]. apply (bytes_ok_app [_; _]); [apply bytes16_ok|bytes].
    - reflexivity. }
  destruct Hbr as (Hbr & E & E'). pose proof (bytes_ok_get data 36 Hb ltac:(lia)).
  pose proof (bytes_ok_get data 37 Hb ltac:(lia)).
  rewrite (csum_ok_iff (drop 34 data)) by by apply Forall_drop. rewrite (csum_ok_iff _ Hbr), E, E'.
  pose proof (u16_bound (w16 data 36 + 8)) as Hu.
  rewrite (field_sum [ICMP_ECHOREPLY; getz data 35]) by done. cbn [app sum16].
  unfold w16 in *. change (36 + 1) with 37 in *. unfold ICMP_ECHO, ICMP_ECHOREPLY.
  set (c := getz data 36 + 256 * getz data 37) in *. set (s := sum16 (drop 38 data)).
  assert (0 <= s) by (apply sum16_nonneg; by apply Forall_drop).
  pose proof (bytes_ok_get data 35 Hb ltac:(lia)). set (y := getz data 35) in *.
  intros [Hm Hnz]. assert (Hc : 0 <= c < 65536) by lia. destruct (Z.ltb_spec c 65528) as [Hlt|Hge].
  - rewrite u16_id by lia. split; [done|]. intros _. split; [|lia]. rewrite <- Hm. f_equal. lia.
  - split; [|lia]. intros [Hm' _]. exfalso.
    assert (Eu : u16 (c + 8) = c + 8 - 65536).
    { unfold u16. replace (c + 8) with (c + 8 - 65536 + 1 * 2 ^ 16) by lia.
      rewrite Z.mod_add, Z.mod_small by lia. lia. }
    rewrite Eu in Hm'. revert Hm Hm'. 
    replace (8 + 256 * y + (c + s)) with (0 + 256 * y + 0 + (c + 8 - 65536) + s + 65536) by lia.
    set (t := 0 + 256 * y + 0 + (c + 8 - 65536) + s).
    replace (0 + 256 * y + (c + 8 - 65536) + s) with t by lia. intros Hm Hm'.
    replace (t + 65536) with (t + 1 + 1 * 65535) in Hm by lia. rewrite Z.mod_add in Hm by lia.
    rewrite <- Z.add_mod_idemp_l, Hm' in Hm by lia. discriminate.
Qed.

(** C35: An echo request is answered by its sender's and receiver's addresses swapped
    in both headers, under an IPv4 checksum that verifies. But of a request whose ICMP
    checksum verifies, the answer's does if and only if the checksum field is below
    65528: the end-around carry is lost. *)
Theorem katran_echo_reply data :
  42 <= zlen data → bytes_ok data → 0 < getz data 14 → getz data 34 = ICMP_ECHO →
  ∃ data', send_icmp_reply data = Ok (XDP_TX, data') ∧
    zlen data' = zlen data ∧ slice data' 0 12 = slice data 6 6 ++ slice data 0 6 ∧
    slice data' 26 8 = slice data 30 4 ++ slice data 26 4 ∧ csum_ok (slice data' 14 20) ∧
    (csum_ok (drop 34 data) → csum_ok (drop 34 data') ↔ w16 data 36 < 65528).
Proof.
  intros Hl Hb Hv Ht. destruct (send_icmp_reply_spec data Hl Hb Hv) as (ck & E & Hok).
  exists (echo_reply data ck). split; [exact E|].
  assert (H : zlen (echo_reply data ck) = zlen data ∧
    slice (echo_reply data ck) 0 12 = slice data 6 6 ++ slice data 0 6 ∧
    slice (echo_reply data ck) 26 8 = slice data 30 4 ++ slice data 26 4).
  { clear -Hl. do 42 peel data Hl. unfold echo_reply, bytes16. explicit. split; [|done].
    unfold zlen. cbn [length]. done. }
  destruct H as (L & S1 & S2). repeat (split; [done|]). intros Hc. by apply echo_message.
Qed.

(** ** Decrementing the time to live *)
Lemma st_bytes_bytes_ok b off bytes b' :
  bytes_ok b → bytes_ok bytes → 0 <= off → off + zlen bytes <= zlen b →
  st_bytes b off bytes = Ok b' → bytes_ok b'.
Proof.
  intros Hb Hy Ho Hl. rewrite st_bytes_list by done. intros [= <-].
  apply bytes_ok_app; [by apply Forall_take|]. apply bytes_ok_app; [done|by apply Forall_drop].
Qed.

(** The incremental update of the checksum is right, unless the TTL is 0 already and
    wraps to 255. *)
Theorem decrement_ttl_keeps_checksum data off data' :
  0 <= off → off + 20 <= zlen data → bytes_ok data → csum_ok (slice data off 20) →
  getz data (off + IPV4_TTL) ≠ 0 → 0 < getz data off →
  decrement_ttl data off false = Ok (FURTHER_PROCESSING, data') →
  getz data' (off + IPV4_TTL) = getz data (off + IPV4_TTL) - 1 ∧ csum_ok (slice data' off 20).
Proof.
  intros Ho Hl Hb Hc Ht Hv. unfold decrement_ttl, SIZEOF_IPV4_HDR, IPV4_TTL, IPV4_HDR_CHECKSUM in *.
  rewrite (proj2 (Z.ltb_ge _ _)) by lia. rewrite ld8_ok by lia. rewrite bind_Ok.
  pose proof (bytes_ok_get data (off + 8) Hb ltac:(lia)) as Hb8.
  rewrite u8_small by lia. rewrite wr_ok by lia. rewrite bind_Ok.
  destruct (Z.eqb_spec (getz data (off + 8) - 1) 0) as [|Hnz]; [done|].
  set (d1 := setz data (off + 8) (getz data (off + 8) - 1)).
  assert (L1 : zlen d1 = zlen data) by apply zlen_setz.
  assert (F1 : frame (off + 8) 2 data d1).
  { split; [done|]. intros i Hi Hn. apply getz_setz_ne; lia. }
  rewrite ld16_ok by lia. rewrite bind_Ok. set (check := w16 d1 (off + 10)).
  assert (Ec : check = w16 data (off + 10)) by (apply (frame_w16 _ _ _ _ _ F1); lia).
  assert (Bc : 0 <= check < 65536).
  { rewrite Ec. unfold w16. pose proof (bytes_ok_get data (off + 10) Hb).
    pose proof (bytes_ok_get data (off + 10 + 1) Hb). lia. }
  destruct (st16_ok d1 (off + 10) (u16 (Z.land (u32 (check + 1)) 65535 + Z.shiftr (u32 (check + 1)) 16)))
    as (d2 & E2 & F2 & W2); [lia..|]. rewrite E2, bind_Ok. intros [= <-].
  split.
  { destruct F2 as [_ F2]. rewrite F2 by lia. apply getz_setz_eq. lia. }
  assert (Enew : u16 (u16 (Z.land (u32 (check + 1)) 65535 + Z.shiftr (u32 (check + 1)) 16)) =
                 if check =? 65535 then 1 else check + 1).
  { destruct (Z.eqb_spec check 65535) as [->|]; [done|]. change 65535 with (Z.ones 16).
    rewrite (u32_id (check + 1)), Z.land_ones, Z.shiftr_div_pow2 by lia.
    rewrite Z.mod_small, Z.div_small by lia. rewrite Z.add_0_r, (u16_id (check + 1)), u16_id; lia. }
  rewrite Enew in W2. clear Enew.
  assert (Bd2 : bytes_ok (slice d2 off 20)).
  { apply bytes_ok_slice. rewrite st16_bytes in E2. eapply st_bytes_bytes_ok; [| | | |exact E2].
    - unfold d1. by apply Forall_insert; [|lia].
    - apply bytes16_ok.
    - lia.
    - change (zlen (bytes16 _)) with 2. lia. }
  assert (S1 : wsum d1 off 10 = wsum data off 10 - 1).
  { rewrite (wsum_update data d1 off 10 (off + 8)); [|lia..| |done].
    - unfold w16 at 2, d1. rewrite getz_setz_eq, getz_setz_ne by lia. unfold w16. lia.
    - replace (off + 8 - off) with 8 by lia. done. }
  assert (S2 : wsum d2 off 10 = wsum d1 off 10 - check + w16 d2 (off + 10)).
  { apply (wsum_update d1 d2 off 10 (off + 10)); [lia..| |done]. replace (off + 10 - off) with 10 by lia. done. }
  rewrite (csum_ok_iff (slice data off 20)) in Hc by by apply bytes_ok_slice.
  change 20 with (2 * Z.of_nat 10) in *. rewrite (sum16_slice data) in Hc by lia.
  destruct Hc as [Hm Hz]. apply csum_ok_iff; [done|]. pose proof (proj1 F2) as L2.
  rewrite (sum16_slice d2) by lia.
  assert (Hpos : 0 < wsum d2 off 10).
  { rewrite S2, S1, W2. pose proof (bytes_ok_get data (off + 1) Hb ltac:(lia)).
    assert (Hs : w16 data off + w16 data (off + 8) + w16 data (off + 10) <= wsum data off 10).
    { cbn [wsum]. replace (off + 2 + 2 + 2 + 2) with (off + 8) by lia.
      replace (off + 8 + 2) with (off + 10) by lia.
      pose proof (w16_bound data (off + 2) Hb). pose proof (w16_bound data (off + 2 + 2) Hb).
      pose proof (w16_bound data (off + 2 + 2 + 2) Hb). pose proof (w16_bound data (off + 10 + 2) Hb).
      pose proof (w16_bound data (off + 10 + 2 + 2) Hb). pose proof (w16_bound data (off + 10 + 2 + 2 + 2) Hb).
      pose proof (w16_bound data (off + 10 + 2 + 2 + 2 + 2) Hb). lia. }
    pose proof (w16_bound data (off + 8) Hb). rewrite <- Ec in Hs. unfold w16 at 1 in Hs.
    destruct (check =? 65535); lia. }
  split; [|lia]. rewrite S2, S1, W2, <- Hm. destruct (Z.eqb_spec check 65535) as [->|].
  - replace (wsum data off 10 - 1 - 65535 + 1) with (wsum data off 10 + (-1) * 65535) by lia.
    by rewrite Z.mod_add by lia.
  - f_equal. lia.
Qed.

(** ** Witnesses: zeros in front of the frame *)
Definition zero_room (data : list Z) (delta : Z) : option (list Z) :=
  Some (if delta <? 0 then replicate (Z.to_nat (- delta)) 0 ++ data else drop (Z.to_nat delta) data).

#[global] Instance zero_room_adjusts : AdjustHead zero_room.
Proof.
  split; intros data n d Hn; unfold zero_room.
  - rewrite (proj2 (Z.ltb_lt _ _)) by lia. intros [= <-]. exists (replicate (Z.to_nat (- (0 - n))) 0).
    split; [by rewrite zlen_replicate; lia|]. split; [|done]. apply Forall_replicate. lia.
  - rewrite (proj2 (Z.ltb_ge _ _)) by lia. by intros [= <-].
Qed.

(** An echo request: [check] is its ICMP checksum. *)
Definition echo_request (check : list Z) : list Z :=
  replicate 6 1 ++ replicate 6 2 ++ [8; 0; 69; 0; 0; 28; 0; 0; 0; 0; 64; 1; 0; 0; 10; 0; 0; 1; 10; 0; 0; 2] ++
  [8; 0] ++ check ++ [0; 0; 0; 0].

Lemma katran_encap_decap_witness :
  let p := mk_pckt (mk_flow (1, 2, 3, 4) (5, 6, 7, 8) 9 10 6) 0 0 7 in
  (∃ tunnel, encap_v4 zero_room (echo_request [0; 0]) (replicate 6 3) p (9, 0, 0, 0) 28 = Ok (true, tunnel) ∧
    zlen tunnel = zlen (echo_request [0; 0]) + 20 ∧
    decap_v4 zero_room tunnel =
      Ok (true, replicate 6 3 ++ slice (echo_request [0; 0]) 0 6 ++ bytes16 ETHER_TYPE_IPV4_BE ++
                drop 14 (echo_request [0; 0]))) ∧
  (∃ tunnel, encap_v6 zero_room (echo_request [0; 0]) (replicate 6 3) true p (9, 0, 0, 0) 28 =
      Ok (true, tunnel) ∧
    zlen tunnel = zlen (echo_request [0; 0]) + 40 ∧
    decap_v6 zero_room tunnel (negb true) =
      Ok (true, replicate 6 3 ++ slice (echo_request [0; 0]) 0 6 ++ bytes16 ETH_P_IPV6_BE ++
                drop 14 (echo_request [0; 0]))).
Proof.
  intros p. apply (katran_encap_decap zero_room (echo_request [0; 0]) (replicate 6 3) p (9, 0, 0, 0) 28 true).
  - discriminate.
  - vm_compute. congruence.
  - reflexivity.
  - apply bytes_ok_b_spec. reflexivity.
  - apply bytes_ok_b_spec. reflexivity.
  - split; [vm_compute; congruence|reflexivity].
Defined.

Lemma katran_echo_reply_witness :
  ∃ data', send_icmp_reply (echo_request [247; 255]) = Ok (XDP_TX, data') ∧
    zlen data' = zlen (echo_request [247; 255]) ∧
    slice data' 0 12 = slice (echo_request [247; 255]) 6 6 ++ slice (echo_request [247; 255]) 0 6 ∧
    slice data' 26 8 = slice (echo_request [247; 255]) 30 4 ++ slice (echo_request [247; 255]) 26 4 ∧
    csum_ok (slice data' 14 20) ∧
    (csum_ok (drop 34 (echo_request [247; 255])) →
     csum_ok (drop 34 data') ↔ w16 (echo_request [247; 255]) 36 < 65528).
Proof.
  apply katran_echo_reply; [vm_compute; congruence|apply bytes_ok_b_spec; reflexivity|reflexivity|reflexivity].
Defined.

(** A header whose checksum verifies, with [ttl]. *)
Definition ip_header : list Z :=
  [69; 0; 0; 20; 0; 0; 0; 0; 64; 6; 102; 226; 10; 0; 0; 1; 10; 0; 0; 2].

Lemma decrement_ttl_keeps_checksum_witness :
  ∃ data', getz data' (0 + IPV4_TTL) = getz ip_header (0 + IPV4_TTL) - 1 ∧ csum_ok (slice data' 0 20).
Proof.
  destruct (decrement_ttl ip_header 0 false) as [[a d]|] eqn:E; [|exfalso; revert E; vm_compute; discriminate].
  exists d. apply (decrement_ttl_keeps_checksum ip_header 0 d); try reflexivity; try (vm_compute; congruence).
  - apply bytes_ok_b_spec. reflexivity.
  - rewrite E. do 2 f_equal. revert E. vm_compute. congruence.
Defined.
