(* ===== verification/Katran.v ===== *)
(** * Katran: the balancer [ebpf-nfs/katran/balancer_kern.h]

    A packet to a virtual address (a VIP) is sent in an IP tunnel to one of the real
    servers: the one the connection table remembers for the flow, else the one that
    the consistent-hashing ring of the VIP gives for the hash of the flow. The maps
    of [balancer_maps.h] and [control_data_maps.h] are the state, the packet is
    handled by a monad with the early returns of the code. The optional features are
    off (see [KatranNet]). *)

From Stdlib Require Import Sorting.Sorted.
From S2P Require Import Prelude.
From S2P Require Import NfUtil.
From S2P Require Import Xdp.
From S2P Require Import Checksum.
From S2P Require Import KatranNet.

(** ** [balancer_consts.h] *)
Definition RING_SIZE : Z := 127.
Definition MAX_VIPS : Z := 32.
Definition MAX_REALS : Z := 256.
Definition CTL_MAP_SIZE : Z := 16.
Definition CH_RINGS_SIZE : Z := MAX_VIPS * RING_SIZE.
Definition STATS_MAP_SIZE : Z := MAX_VIPS * 2.
Definition ONE_SEC : Z := 1000000000.
Definition LRU_UDP_TIMEOUT : Z := 30000000000.
Definition F_IPV6 : Z := 1.
Definition F_HASH_NO_SRC_PORT : Z := 1.
Definition F_LRU_BYPASS : Z := 2.
Definition F_QUIC_VIP : Z := 4.
Definition F_HASH_DPORT_ONLY : Z := 8.
Definition QUIC_CONNID_VERSION_V1_MAX_VAL : Z := 65535.
Definition MAX_PCKT_SIZE : Z := 1514.
Definition LRU_CNTRS : Z := 0.
Definition LRU_MISS_CNTR : Z := 1.
Definition NEW_CONN_RATE_CNTR : Z := 2.
Definition FALLBACK_LRU_CNTR : Z := 3.
Definition QUIC_ROUTE_STATS : Z := 7.
Definition QUIC_CID_VERSION_STATS : Z := 8.
Definition QUIC_CID_DROP_STATS : Z := 9.
Definition MAX_CONN_RATE : Z := 125000.
Definition INIT_JHASH_SEED : Z := CH_RINGS_SIZE.
Definition INIT_JHASH_SEED_V6 : Z := MAX_VIPS.

(** A test of a flag. *)
Definition has (flags flag : Z) : bool := negb (Z.land flags flag =? 0).

(** ** [balancer_structs.h] *)
Record vip_definition := mk_vip { vip : in6; vip_port : Z; vip_proto : Z }.
Record vip_meta := mk_meta { vip_flags : Z; vip_num : Z }.
Record real_pos_lru := mk_pos { pos : Z; atime : Z }.
Record real_definition := mk_real { real_dst : in6; real_flags : Z }.
Record lb_stats := mk_stats { v1 : Z; v2 : Z }.
(** [struct ctl_value] is a union of 64 bits, and this is its view [mac]. *)
Definition ctl_mac (value : Z) : list Z :=
  [u8 value; u8 (value / 2 ^ 8); u8 (value / 2 ^ 16); u8 (value / 2 ^ 24); u8 (value / 2 ^ 32);
   u8 (value / 2 ^ 40)].

#[global] Instance vip_definition_eq_dec : EqDecision vip_definition.
Proof. solve_decision. Defined.
#[global] Instance vip_definition_countable : Countable vip_definition.
Proof.
  apply (inj_countable' (λ v, (vip v, vip_port v, vip_proto v)) (λ '(a, p, q), mk_vip a p q)).
  by intros [].
Defined.

(** ** The maps

    The inner maps of [lru_mapping] are among the [caches], which [fallback_cache] is
    the first of: two processors, or a processor and the fallback, may share one. *)
Record katran (VIPS LRU : Type) := mk_katran {
  vip_map : VIPS; lru_mapping : list (option Z); caches : list LRU; ch_rings : list Z;
  reals : list real_definition; reals_stats : list lb_stats; stats : list lb_stats;
  quic_mapping : list Z; ctl_array : list Z
}.
Arguments mk_katran {VIPS LRU} _ _ _ _ _ _ _ _ _.
Arguments vip_map {VIPS LRU} _.
Arguments lru_mapping {VIPS LRU} _.
Arguments caches {VIPS LRU} _.
Arguments ch_rings {VIPS LRU} _.
Arguments reals {VIPS LRU} _.
Arguments reals_stats {VIPS LRU} _.
Arguments stats {VIPS LRU} _.
Arguments quic_mapping {VIPS LRU} _.
Arguments ctl_array {VIPS LRU} _.

Definition fallback_cache : Z := 0.

(** What the helpers of the kernel say: the processor and the two readings of the
    clock, for the connection table and for the rate of new connections. *)
Record env := mk_env { smp_processor_id : Z; ktime_lookup : Z; ktime_flood : Z }.

(** ** Programs

    They work on the frame and the maps; [Return] is a [return] of the function, the
    rest of which does not run. *)
Inductive outcome (A : Type) := Return (action : Z) | Next (a : A).
Arguments Return {A} action.
Arguments Next {A} a.

Section program.
Context {VIPS LRU : Type} `{!BpfMap vip_definition vip_meta VIPS} `{!BpfMap flow_key real_pos_lru LRU}.
Variable bpf_xdp_adjust_head : list Z → Z → option (list Z).
Implicit Types (s : katran VIPS LRU).

Definition world : Type := list Z * katran VIPS LRU.
Definition M (A : Type) : Type := world → res (outcome A * world).

#[global] Instance M_ret : MRet M := λ A a w, Ok (Next a, w).
#[global] Instance M_bind : MBind M := λ A B k m w,
  match m w with
  | Ok (Next a, w') => k a w'
  | Ok (Return action, w') => Ok (Return action, w')
  | Err e => Err e
  end.

Definition ret_action {A} (action : Z) : M A := λ w, Ok (Return action, w).
Definition lift {A} (r : res A) : M A := λ w, match r with Ok a => Ok (Next a, w) | Err e => Err e end.
Definition frame_bytes : M (list Z) := λ w, Ok (Next w.1, w).
Definition set_frame (data : list Z) : M unit := λ w, Ok (Next tt, (data, w.2)).
Definition maps : M (katran VIPS LRU) := λ w, Ok (Next w.2, w).
Definition set_maps s : M unit := λ w, Ok (Next tt, (w.1, s)).

(** A pointer to an element that the program writes to. *)
Definition set_vip_map (v : VIPS) : M unit :=
  s ← maps; set_maps (mk_katran v (lru_mapping s) (caches s) (ch_rings s) (reals s) (reals_stats s)
                        (stats s) (quic_mapping s) (ctl_array s)).
Definition set_caches (c : list LRU) : M unit :=
  s ← maps; set_maps (mk_katran (vip_map s) (lru_mapping s) c (ch_rings s) (reals s) (reals_stats s)
                        (stats s) (quic_mapping s) (ctl_array s)).
Definition set_reals_stats (r : list lb_stats) : M unit :=
  s ← maps; set_maps (mk_katran (vip_map s) (lru_mapping s) (caches s) (ch_rings s) (reals s) r
                        (stats s) (quic_mapping s) (ctl_array s)).
Definition set_stats (r : list lb_stats) : M unit :=
  s ← maps; set_maps (mk_katran (vip_map s) (lru_mapping s) (caches s) (ch_rings s) (reals s)
                        (reals_stats s) r (quic_mapping s) (ctl_array s)).

(** A lookup of statistics; the pointer is the key. *)
Definition lookup_stats (key : Z) : M (option Z) :=
  s ← maps; mret (bpf_map_lookup_elem (stats s) key ≫= λ _, Some key).
Definition load_stats (key : Z) : M lb_stats := s ← maps; lift (rd (stats s) key).
Definition store_stats (key : Z) (x : lb_stats) : M unit :=
  s ← maps; st ← lift (wr (stats s) key x); set_stats st.

(** [p->v1 += x] and [p->v2 += x]. *)
Definition add_v1 (p x : Z) : M unit :=
  y ← load_stats p; store_stats p (mk_stats (u64 (v1 y + x)) (v2 y)).
Definition add_v2 (p x : Z) : M unit :=
  y ← load_stats p; store_stats p (mk_stats (v1 y) (u64 (v2 y + x))).

(** What a pointer into [vip_map] or to a connection table points to. *)
Definition load_vip (p : vip_definition) : M vip_meta :=
  s ← maps;
  match bpf_map_lookup_elem (vip_map s) p with
  | Some m => mret m
  | None => lift (Err OutOfBounds)
  end.
Definition load_cache (lru_map : Z) : M LRU := s ← maps; lift (rd (caches s) lru_map).
Definition store_cache (lru_map : Z) (c : LRU) : M unit :=
  s ← maps; cs ← lift (wr (caches s) lru_map c); set_caches cs.

(** ** [balancer_kern.h] *)
Definition get_packet_hash (pckt : packet_description) (hash_16bytes : bool) : res Z :=
  if hash_16bytes then
    h ← jhash (in6_bytes (srcv6 (flow pckt))) 16 INIT_JHASH_SEED_V6;
    Ok (jhash_2words h (ports (flow pckt)) INIT_JHASH_SEED)
  else Ok (jhash_2words (in6_word0 (srcv6 (flow pckt))) (ports (flow pckt)) INIT_JHASH_SEED).

(** The result and [cur_time]. *)
Definition is_under_flood (e : env) : M (bool * Z) :=
  let conn_rate_key := MAX_VIPS + NEW_CONN_RATE_CNTR in
  conn_rate_stats ← lookup_stats conn_rate_key;
  match conn_rate_stats with
  | None => mret (true, 0)
  | Some p =>
      let cur_time := ktime_flood e in
      x ← load_stats p;
      if ONE_SEC <? u64 (cur_time - v2 x) then
        _ ← store_stats p (mk_stats 1 cur_time); mret (false, cur_time)
      else
        _ ← add_v1 p 1;
        x ← load_stats p;
        if MAX_CONN_RATE <? v1 x then mret (true, cur_time) else mret (false, cur_time)
  end.

(** The packet as it is hashed. *)
Definition hashed_pckt (vip_info : vip_meta) (pckt : packet_description) : packet_description :=
  if has (vip_flags vip_info) F_HASH_DPORT_ONLY then
    let pckt := set_ports pckt (port16_1 (flow pckt)) (port16_1 (flow pckt)) in
    set_addrs pckt in6_zero (dstv6 (flow pckt))
  else pckt.

(** The real, [None] is the result [false], and the packet. *)
Definition get_packet_dst (e : env) (pckt : packet_description) (vip_info : vip_definition)
    (is_ipv6 : bool) (lru_map : Z) : M (option real_definition * packet_description) :=
  '(under_flood, cur_time) ← is_under_flood e;
  meta ← load_vip vip_info;
  let hash_16bytes := is_ipv6 in
  let pckt := hashed_pckt meta pckt in
  hash ← lift (get_packet_hash pckt hash_16bytes);
  let hash := hash mod RING_SIZE in
  let key := u32 (RING_SIZE * vip_num meta + hash) in
  s ← maps;
  match bpf_map_lookup_elem (ch_rings s) key with
  | None => mret (None, pckt)
  | Some key =>
      let pckt := set_real_index pckt key in
      match bpf_map_lookup_elem (reals s) key with
      | None => mret (None, pckt)
      | Some real =>
          if negb (has (vip_flags meta) F_LRU_BYPASS) && negb under_flood then
            let time := if proto (flow pckt) =? IPPROTO_UDP then cur_time else 0 in
            lru ← load_cache lru_map;
            _ ← match bpf_map_update_elem lru (flow pckt) (mk_pos key time) with
                | Some lru => store_cache lru_map lru
                | None => mret tt
                end;
            mret (Some real, pckt)
          else mret (Some real, pckt)
      end
  end.

(** The real, if there is one, and the packet. *)
Definition connection_table_lookup (e : env) (pckt : packet_description) (lru_map : Z)
    : M (option real_definition * packet_description) :=
  lru ← load_cache lru_map;
  match bpf_map_lookup_elem lru (flow pckt) with
  | None => mret (None, pckt)
  | Some dst_lru =>
      let is_udp := proto (flow pckt) =? IPPROTO_UDP in
      let cur_time := ktime_lookup e in
      if is_udp && (LRU_UDP_TIMEOUT <? u64 (cur_time - atime dst_lru)) then mret (None, pckt)
      else
        _ ← (if is_udp then
               store_cache lru_map (bpf_map_store lru (flow pckt) (mk_pos (pos dst_lru) cur_time))
             else mret tt);
        let key := pos dst_lru in
        s ← maps;
        mret (bpf_map_lookup_elem (reals s) key, set_real_index pckt key)
  end.

(** The action, the packet and [pkt_bytes]; the frame may be turned into a reply. *)
Definition process_l3_headers (pckt : packet_description) (off : Z) (is_ipv6 : bool)
    : M (Z * packet_description * Z) :=
  data ← frame_bytes;
  if is_ipv6 then
    let ip6h := off in
    if zlen data <? ip6h + SIZEOF_IPV6HDR then ret_action XDP_DROP
    else
      let iph_len := SIZEOF_IPV6HDR in
      protocol ← lift (ld8 data (ip6h + IPV6_NEXTHDR));
      let pckt := set_proto pckt protocol in
      x0 ← lift (ld8 data ip6h);
      x1 ← lift (ld8 data (ip6h + IPV6_FLOW_LBL));
      let pckt := set_tos pckt (Z.land (u8 (Z.shiftl (x0 mod 16) 4)) 240) in
      let pckt := set_tos pckt (Z.lor (tos pckt) (Z.land (Z.shiftr x1 4) 15)) in
      payload_len ← lift (ld16 data (ip6h + IPV6_PAYLOAD_LEN));
      let pkt_bytes := bpf_ntohs payload_len in
      let off := off + iph_len in
      if protocol =? IPPROTO_FRAGMENT then ret_action XDP_DROP
      else if protocol =? IPPROTO_ICMPV6 then
        '(action, pckt, data) ← lift (parse_icmpv6 data off pckt);
        _ ← set_frame data;
        if 0 <=? action then ret_action action else mret (FURTHER_PROCESSING, pckt, pkt_bytes)
      else
        saddr ← lift (ld_in6 data (ip6h + IPV6_SADDR));
        daddr ← lift (ld_in6 data (ip6h + IPV6_DADDR));
        mret (FURTHER_PROCESSING, set_addrs pckt saddr daddr, pkt_bytes)
  else
    let iph := off in
    if zlen data <? iph + SIZEOF_IPV4_HDR then ret_action XDP_DROP
    else
      x ← lift (ihl data iph);
      if negb (x =? 5) then ret_action XDP_DROP
      else
        x ← lift (ld8 data (iph + IPV4_TOS));
        let pckt := set_tos pckt x in
        protocol ← lift (ld8 data (iph + IPV4_NEXT_PROTO_ID));
        let pckt := set_proto pckt protocol in
        tot_len ← lift (ld16 data (iph + IPV4_TOTAL_LENGTH));
        let pkt_bytes := bpf_ntohs tot_len in
        let off := off + SIZEOF_IPV4_HDR in
        frag_off ← lift (ld16 data (iph + IPV4_FRAG_OFF));
        if negb (Z.land frag_off PCKT_FRAGMENTED =? 0) then ret_action XDP_DROP
        else if protocol =? IPPROTO_ICMP then
          '(action, pckt, data) ← lift (parse_icmp data off pckt);
          _ ← set_frame data;
          if 0 <=? action then ret_action action else mret (FURTHER_PROCESSING, pckt, pkt_bytes)
        else
          saddr ← lift (ld32 data (iph + IPV4_SRC_ADDR));
          daddr ← lift (ld32 data (iph + IPV4_DST_ADDR));
          let f := flow pckt in
          mret (FURTHER_PROCESSING,
                set_addrs pckt (in6_set0 (srcv6 f) saddr) (in6_set0 (dstv6 f) daddr), pkt_bytes).

Definition increment_quic_cid_version_stats (host_id : Z) : M unit :=
  quic_version ← lookup_stats (MAX_VIPS + QUIC_CID_VERSION_STATS);
  match quic_version with
  | None => mret tt
  | Some p => if QUIC_CONNID_VERSION_V1_MAX_VAL <? host_id then add_v2 p 1 else add_v1 p 1
  end.

Definition increment_quic_cid_drop_no_real : M unit :=
  quic_drop ← lookup_stats (MAX_VIPS + QUIC_CID_DROP_STATS);
  match quic_drop with None => mret tt | Some p => add_v1 p 1 end.

Definition increment_quic_cid_drop_real_0 : M unit :=
  quic_drop ← lookup_stats (MAX_VIPS + QUIC_CID_DROP_STATS);
  match quic_drop with None => mret tt | Some p => add_v2 p 1 end.

(** [process_packet] in its parts. The ports: *)
Definition parse_ports (is_ipv6 : bool) (pckt : packet_description) : M packet_description :=
  let protocol := proto (flow pckt) in
  data ← frame_bytes;
  if (protocol =? IPPROTO_UDP) || (protocol =? IPPROTO_TCP) then
    p ← lift (if protocol =? IPPROTO_TCP then parse_tcp data is_ipv6 pckt else parse_udp data is_ipv6 pckt);
    match p with None => ret_action XDP_DROP | Some pckt => mret pckt end
  else ret_action XDP_PASS.

(** The VIP, first with the port, then without; the pointer is the key. *)
Definition lookup_vip (is_ipv6 : bool) (pckt : packet_description) : M (vip_definition * packet_description) :=
  let f := flow pckt in
  let addr := if is_ipv6 then dstv6 f else in6_set0 in6_zero (in6_word0 (dstv6 f)) in
  let v := mk_vip addr (port16_1 f) (proto f) in
  s ← maps;
  match bpf_map_lookup_elem (vip_map s) v with
  | Some _ => mret (v, pckt)
  | None =>
      let v := mk_vip addr 0 (proto f) in
      match bpf_map_lookup_elem (vip_map s) v with
      | None => ret_action XDP_PASS
      | Some vip_info =>
          if negb (has (vip_flags vip_info) F_HASH_DPORT_ONLY)
          then mret (v, set_ports pckt (port16_0 f) 0) else mret (v, pckt)
      end
  end.

(** The real of a QUIC packet, if there is one. *)
Definition quic_dst (is_ipv6 : bool) (pckt : packet_description)
    : M (option real_definition * packet_description) :=
  quic_stats ← lookup_stats (MAX_VIPS + QUIC_ROUTE_STATS);
  match quic_stats with
  | None => ret_action XDP_DROP
  | Some quic_stats =>
      data ← frame_bytes;
      real_index ← lift (parse_quic data is_ipv6 pckt);
      if 0 <? real_index then
        _ ← increment_quic_cid_version_stats real_index;
        s ← maps;
        match bpf_map_lookup_elem (quic_mapping s) (u32 real_index) with
        | Some key =>
            _ ← (if key =? 0 then increment_quic_cid_drop_real_0 else mret tt);
            let pckt := set_real_index pckt key in
            match bpf_map_lookup_elem (reals s) key with
            | None => _ ← increment_quic_cid_drop_no_real; ret_action XDP_DROP
            | Some dst => _ ← add_v2 quic_stats 1; mret (Some dst, pckt)
            end
        | None => _ ← add_v1 quic_stats 1; mret (None, pckt)
        end
      else _ ← add_v1 quic_stats 1; mret (None, pckt)
  end.

(** The connection table of the processor. *)
Definition select_lru (e : env) : M Z :=
  s ← maps;
  match bpf_map_lookup_elem (lru_mapping s) (smp_processor_id e) with
  | Some (Some lru_map) => mret lru_map
  | _ =>
      lru_stats ← lookup_stats (MAX_VIPS + FALLBACK_LRU_CNTR);
      match lru_stats with
      | None => ret_action XDP_DROP
      | Some p => _ ← add_v1 p 1; mret fallback_cache
      end
  end.

(** A miss of a TCP packet is counted. *)
Definition count_miss (pckt : packet_description) : M unit :=
  if proto (flow pckt) =? IPPROTO_TCP then
    lru_stats ← lookup_stats (MAX_VIPS + LRU_MISS_CNTR);
    match lru_stats with
    | None => ret_action XDP_DROP
    | Some p => if has (flags pckt) F_SYN_SET then add_v1 p 1 else add_v2 p 1
    end
  else mret tt.

(** The real without QUIC: the connection table, then the ring. *)
Definition flow_dst (e : env) (is_ipv6 : bool) (vip_info : vip_definition) (data_stats : Z)
    (pckt : packet_description) : M (real_definition * packet_description) :=
  meta ← load_vip vip_info;
  let pckt := if has (vip_flags meta) F_HASH_NO_SRC_PORT then set_ports pckt 0 (port16_1 (flow pckt))
              else pckt in
  lru_map ← select_lru e;
  '(dst, pckt) ← (if negb (has (flags pckt) F_SYN_SET) && negb (has (vip_flags meta) F_LRU_BYPASS)
                  then connection_table_lookup e pckt lru_map else mret (None, pckt));
  match dst with
  | Some dst => mret (dst, pckt)
  | None =>
      _ ← count_miss pckt;
      '(dst, pckt) ← get_packet_dst e pckt vip_info is_ipv6 lru_map;
      match dst with
      | None => ret_action XDP_DROP
      | Some dst => _ ← add_v2 data_stats 1; mret (dst, pckt)
      end
  end.

Definition send_to_real (is_ipv6 : bool) (vip_info : vip_definition) (dst : real_definition)
    (pckt : packet_description) (pkt_bytes : Z) : M Z :=
  s ← maps;
  match bpf_map_lookup_elem (ctl_array s) 0 with
  | None => ret_action XDP_DROP
  | Some cval =>
      data ← frame_bytes;
      '(ok, data) ← lift (if is_ipv6 && has (real_flags dst) F_IPV6
        then encap_v6 bpf_xdp_adjust_head data (ctl_mac cval) is_ipv6 pckt (real_dst dst) pkt_bytes
        else encap_v4 bpf_xdp_adjust_head data (ctl_mac cval) pckt (real_dst dst) pkt_bytes);
      _ ← set_frame data;
      if negb (ok : bool) then ret_action XDP_DROP
      else
        meta ← load_vip vip_info;
        data_stats ← lookup_stats (vip_num meta);
        match data_stats with
        | None => ret_action XDP_DROP
        | Some p =>
            _ ← add_v1 p 1;
            _ ← add_v2 p pkt_bytes;
            s ← maps;
            match bpf_map_lookup_elem (reals_stats s) (real_index pckt) with
            | None => ret_action XDP_DROP
            | Some x =>
                _ ← set_reals_stats (bpf_map_store (reals_stats s) (real_index pckt)
                       (mk_stats (u64 (v1 x + 1)) (u64 (v2 x + pkt_bytes))));
                mret XDP_TX
            end
        end
  end.

Definition process_packet (e : env) (off : Z) (is_ipv6 : bool) : M Z :=
  '(action, pckt, pkt_bytes) ← process_l3_headers pckt_zero off is_ipv6;
  pckt ← parse_ports is_ipv6 pckt;
  '(vip_info, pckt) ← lookup_vip is_ipv6 pckt;
  meta ← load_vip vip_info;
  s ← maps;
  _ ← set_vip_map (bpf_map_store (vip_map s) vip_info (mk_meta (vip_flags meta) 7));
  data ← frame_bytes;
  if MAX_PCKT_SIZE <? zlen data then ret_action XDP_DROP
  else
    data_stats ← lookup_stats (MAX_VIPS + LRU_CNTRS);
    match data_stats with
    | None => ret_action XDP_DROP
    | Some data_stats =>
        _ ← add_v1 data_stats 1;
        meta ← load_vip vip_info;
        '(dst, pckt) ← (if (proto (flow pckt) =? IPPROTO_UDP) && has (vip_flags meta) F_QUIC_VIP
                        then quic_dst is_ipv6 pckt else mret (None, pckt));
        '(dst, pckt) ← match dst with
                       | Some dst => mret (dst, pckt)
                       | None => flow_dst e is_ipv6 vip_info data_stats pckt
                       end;
        send_to_real is_ipv6 vip_info dst pckt pkt_bytes
    end.

(** The result of a function: its last value or an earlier return. *)
Definition run_fn (m : M Z) (data : list Z) s : res (Z * list Z * katran VIPS LRU) :=
  match m (data, s) with
  | Ok (Return action, (data, s)) | Ok (Next action, (data, s)) => Ok (action, data, s)
  | Err e => Err e
  end.

Definition balancer_ingress (e : env) (data : list Z) s : res (Z * list Z * katran VIPS LRU) :=
  let nh_off := SIZEOF_ETHER_HDR in
  if zlen data <? nh_off then Ok (XDP_DROP, data, s)
  else
    eth_proto ← ld16 data ETHER_TYPE;
    if eth_proto =? ETHER_TYPE_IPV4_BE then run_fn (process_packet e nh_off false) data s
    else if eth_proto =? ETH_P_IPV6_BE then run_fn (process_packet e nh_off true) data s
    else Ok (XDP_PASS, data, s).
End program.

(** ** Reasoning about programs

    A program is safe with a postcondition if, from any state that satisfies the
    invariant, it has a result, keeps the invariant, and either returns [XDP_DROP] or
    [XDP_TX] or gives a value with the postcondition. *)
#[global] Instance lb_stats_inhabited : Inhabited lb_stats := populate (mk_stats 0 0).
#[global] Instance real_inhabited : Inhabited real_definition := populate (mk_real in6_zero 0).

Section safety.
Context {VIPS LRU : Type} `{!BpfMap vip_definition vip_meta VIPS} `{!BpfMap flow_key real_pos_lru LRU}.
Context `{!BpfMapLaws vip_definition vip_meta VIPS}.
Variable bpf_xdp_adjust_head : list Z → Z → option (list Z).
Implicit Types (s : katran VIPS LRU).

(** The sizes of the maps; the inner maps of [lru_mapping] exist. *)
Record katran_ok s : Prop := {
  ok_stats : zlen (stats s) = STATS_MAP_SIZE;
  ok_reals_stats : zlen (reals_stats s) = MAX_REALS;
  ok_reals : zlen (reals s) = MAX_REALS;
  ok_rings : zlen (ch_rings s) = CH_RINGS_SIZE;
  ok_quic : zlen (quic_mapping s) = MAX_REALS;
  ok_ctl : zlen (ctl_array s) = CTL_MAP_SIZE;
  ok_fallback : fallback_cache < zlen (caches s);
  ok_mapping cpu id : rd (lru_mapping s) cpu = Ok (Some id) → 0 <= id < zlen (caches s)
}.

(** The invariant behind the lookup of the VIP [v]; there are [n] caches. *)
Definition inv (v : vip_definition) (n : Z) (w : world) : Prop :=
  katran_ok w.2 ∧ zlen (caches w.2) = n ∧ is_Some (bpf_map_lookup_elem (vip_map w.2) v).

Definition safe (v : vip_definition) (n : Z) {A} (P : A → Prop) (m : M A) : Prop :=
  ∀ w, inv v n w → ∃ o w', m w = Ok (o, w') ∧ inv v n w' ∧
    match o with Return a => a = XDP_DROP ∨ a = XDP_TX | Next x => P x end.

Section rules.
Context (v : vip_definition) (n : Z).

Lemma safe_bind {A B} (P : A → Prop) (Q : B → Prop) (m : M A) (k : A → M B) :
  safe v n P m → (∀ a, P a → safe v n Q (k a)) → safe v n Q (m ≫= k).
Proof.
  intros Hm Hk w Hw. destruct (Hm w Hw) as (o & w' & E & Hw' & Ho). unfold mbind, M_bind. rewrite E.
  destruct o as [a|x]; [by do 2 eexists|]. by apply Hk.
Qed.

Lemma safe_ret {A} (P : A → Prop) (x : A) : P x → safe v n P (mret x).
Proof. intros Hx w Hw. by do 2 eexists. Qed.

Lemma safe_return {A} (P : A → Prop) a : a = XDP_DROP ∨ a = XDP_TX → safe v n P (ret_action a).
Proof. intros Ha w Hw. by do 2 eexists. Qed.

Lemma safe_lift {A} (P : A → Prop) (r : res A) : (∃ x, r = Ok x ∧ P x) → safe v n P (lift r).
Proof. intros (x & -> & Hx) w Hw. by do 2 eexists. Qed.

Lemma safe_weaken {A} (P Q : A → Prop) (m : M A) : (∀ x, P x → Q x) → safe v n P m → safe v n Q m.
Proof.
  intros HPQ Hm w Hw. destruct (Hm w Hw) as (o & w' & E & Hw' & Ho). do 2 eexists. split; [done|].
  split; [done|]. destruct o; auto.
Qed.

Lemma safe_maps : safe v n (λ s, katran_ok s ∧ zlen (caches s) = n ∧
  is_Some (bpf_map_lookup_elem (vip_map s) v)) maps.
Proof. intros w Hw. do 2 eexists. split; [done|]. by split. Qed.

Lemma safe_frame : safe v n (λ _, True) frame_bytes.
Proof. intros w Hw. by do 2 eexists. Qed.

Lemma safe_set_frame data : safe v n (λ _, True) (set_frame data).
Proof. intros w Hw. by do 2 eexists. Qed.

Lemma safe_set_stats st : zlen st = STATS_MAP_SIZE → safe v n (λ _, True) (set_stats st).
Proof.
  intros Hl [d s] ([] & Hn & Hv). do 2 eexists. split; [reflexivity|].
  split; [split; [split; cbn in *; eauto|by split]|done].
Qed.

Lemma safe_set_reals_stats st : zlen st = MAX_REALS → safe v n (λ _, True) (set_reals_stats st).
Proof.
  intros Hl [d s] ([] & Hn & Hv). do 2 eexists. split; [reflexivity|].
  split; [split; [split; cbn in *; eauto|by split]|done].
Qed.

Lemma safe_set_vip_map m : is_Some (bpf_map_lookup_elem m v) → safe v n (λ _, True) (set_vip_map m).
Proof.
  intros Hl [d s] ([] & Hn & Hv). do 2 eexists. split; [reflexivity|].
  split; [split; [split; cbn in *; eauto|by split]|done].
Qed.

Lemma safe_set_caches c : zlen c = n → safe v n (λ _, True) (set_caches c).
Proof.
  intros Hl [d s] ([] & Hn & Hv). do 2 eexists. split; [reflexivity|]. cbn in Hn.
  split; [split; [split; cbn in *; rewrite ?Hl, ?Hn in *; eauto|by split]|done].
Qed.

Lemma safe_lookup_stats key :
  safe v n (λ p, ∀ p', p = Some p' → 0 <= p' < STATS_MAP_SIZE) (lookup_stats key).
Proof.
  unfold lookup_stats. eapply safe_bind; [apply safe_maps|]. intros s ([] & _ & _). apply safe_ret.
  intros p' Hp. cbn in Hp. destruct (decide (0 <= key < zlen (stats s))) as [Hk|Hk].
  - rewrite rd_ok in Hp by done. cbn in Hp. injection Hp as <-. lia.
  - by rewrite rd_err in Hp by done.
Qed.

Lemma safe_load_stats p : 0 <= p < STATS_MAP_SIZE → safe v n (λ _, True) (load_stats p).
Proof.
  intros Hp. unfold load_stats. eapply safe_bind; [apply safe_maps|]. intros s ([] & _ & _).
  apply safe_lift. rewrite rd_ok by lia. by eexists.
Qed.

Lemma safe_store_stats p x : 0 <= p < STATS_MAP_SIZE → safe v n (λ _, True) (store_stats p x).
Proof.
  intros Hp. unfold store_stats. eapply safe_bind; [apply safe_maps|]. intros s ([] & _ & _).
  eapply (safe_bind (λ st, zlen st = STATS_MAP_SIZE)).
  - apply safe_lift. rewrite wr_ok by lia. eexists. split; [done|]. by rewrite zlen_setz.
  - intros st Hst. by apply safe_set_stats.
Qed.

Lemma safe_add_v1 p x : 0 <= p < STATS_MAP_SIZE → safe v n (λ _, True) (add_v1 p x).
Proof. intros Hp. eapply safe_bind; [by apply safe_load_stats|]. intros. by apply safe_store_stats. Qed.

Lemma safe_add_v2 p x : 0 <= p < STATS_MAP_SIZE → safe v n (λ _, True) (add_v2 p x).
Proof. intros Hp. eapply safe_bind; [by apply safe_load_stats|]. intros. by apply safe_store_stats. Qed.

Lemma safe_load_vip : safe v n (λ _, True) (load_vip v).
Proof.
  unfold load_vip. eapply safe_bind; [apply safe_maps|]. intros s (_ & _ & [m ->]). by apply safe_ret.
Qed.

Lemma safe_load_cache l : 0 <= l < n → safe v n (λ _, True) (load_cache l).
Proof.
  intros Hl. unfold load_cache. eapply safe_bind; [apply safe_maps|]. intros s (_ & Hn & _).
  intros w Hw. assert (Hr : is_Some (caches s !! Z.to_nat l)).
  { apply lookup_lt_is_Some. unfold zlen in Hn. lia. }
  destruct Hr as [c Hc]. unfold lift, rd. rewrite (proj2 (Z.leb_le _ _)) by lia. rewrite Hc.
  by do 2 eexists.
Qed.

Lemma safe_store_cache l c : 0 <= l < n → safe v n (λ _, True) (store_cache l c).
Proof.
  intros Hl. unfold store_cache. eapply safe_bind; [apply safe_maps|]. intros s (_ & Hn & _).
  eapply (safe_bind (λ cs, zlen cs = n)).
  - apply safe_lift. unfold wr. rewrite (proj2 (Z.leb_le _ _)), (proj2 (Z.ltb_lt _ _)) by lia.
    eexists. split; [done|]. unfold zlen. rewrite length_insert. done.
  - intros cs Hcs. by apply safe_set_caches.
Qed.
End rules.
End safety.

(** ** Encapsulation stays inside of the frame *)
Section encap_total.
Variable bpf_xdp_adjust_head : list Z → Z → option (list Z).

Lemma st_high_total b off v : 0 <= off < zlen b → ∃ b', st_high b off v = Ok b' ∧ zlen b' = zlen b.
Proof. intros Ho. unfold st_high. rewrite ld8_ok by done. rewrite bind_Ok. by apply wr_total. Qed.

Lemma st_low_total b off v : 0 <= off < zlen b → ∃ b', st_low b off v = Ok b' ∧ zlen b' = zlen b.
Proof. intros Ho. unfold st_low. rewrite ld8_ok by done. rewrite bind_Ok. by apply wr_total. Qed.

Ltac nibble :=
  match goal with
  | |- context [st_high ?b ?o ?v ≫= _] => destruct (st_high_total b o v) as (? & E & ?); [lia|]
  | |- context [st_low ?b ?o ?v ≫= _] => destruct (st_low_total b o v) as (? & E & ?); [lia|]
  end; match goal with E : _ = Ok _ |- _ => rewrite E, bind_Ok; clear E end.

Lemma create_v4_hdr_total data tos saddr daddr pkt_bytes proto :
  34 <= zlen data → ∃ d, create_v4_hdr data 14 tos saddr daddr pkt_bytes proto = Ok d.
Proof.
  intros Hl. unfold create_v4_hdr. unfold IPV4_VERSION_IHL, IPV4_FRAG_OFF, IPV4_NEXT_PROTO_ID,
    IPV4_HDR_CHECKSUM, IPV4_TOS, IPV4_TOTAL_LENGTH, IPV4_DST_ADDR, IPV4_SRC_ADDR, IPV4_TTL. offsets.
  do 2 nibble. repeat access.
  match goal with |- context [st16 ?b ?o ?v] => destruct (st16_total b o v) as (d & -> & _); [lia..|] end.
  by eexists.
Qed.

Lemma create_v6_hdr_total data tc saddr daddr payload_len proto :
  54 <= zlen data → ∃ d, create_v6_hdr data 14 tc saddr daddr payload_len proto = Ok d.
Proof.
  intros Hl. unfold create_v6_hdr. unfold IPV6_FLOW_LBL, IPV6_NEXTHDR, IPV6_PAYLOAD_LEN,
    IPV6_HOP_LIMIT, IPV6_SADDR, IPV6_DADDR. offsets.
  assert (L3 : zlen [0; 0; 0] = 3) by done.
  assert (L16 : ∀ a, zlen (in6_bytes a) = 16) by (intros a; unfold zlen; by rewrite in6_bytes_length).
  pose proof (L16 saddr). pose proof (L16 daddr).
  nibble. access. nibble. repeat access.
  match goal with |- context [st_bytes ?b ?o ?v] => destruct (st_bytes_total b o v) as (d & -> & _); [lia..|] end.
  by eexists.
Qed.

Lemma new_eth_hdr_total data old_eth mac p :
  14 <= old_eth → old_eth + 14 <= zlen data → zlen mac = 6 →
  ∃ d, new_eth_hdr data old_eth mac p = Ok d ∧ zlen d = zlen data.
Proof.
  intros Ho Hl Hm. rewrite new_eth_hdr_spec by done. eexists. split; [done|].
  rewrite !zlen_app, zlen_slice, Hm by lia. change (zlen (bytes16 p)) with 2.
  assert (Hd : zlen (drop 14 data) = zlen data - 14) by (unfold zlen in *; rewrite length_drop; lia). lia.
Qed.

Lemma encap_v4_total data mac pckt dst pkt_bytes :
  zlen mac = 6 → ∃ ok d, encap_v4 bpf_xdp_adjust_head data mac pckt dst pkt_bytes = Ok (ok, d).
Proof.
  intros Hm. unfold encap_v4, SIZEOF_ETHER_HDR, SIZEOF_IPV4_HDR.
  destruct (bpf_xdp_adjust_head data _) as [d|]; [|by do 2 eexists].
  destruct (_ || _) eqn:E; [by do 2 eexists|]. apply orb_false_iff in E as [[E1 E2]%orb_false_iff E3].
  rewrite Z.ltb_ge in *.
  destruct (new_eth_hdr_total d 20 mac ETHER_TYPE_IPV4_BE) as (d1 & -> & L1); [lia..|]. rewrite bind_Ok.
  match goal with |- context [create_v4_hdr d1 14 ?t ?s ?a ?p ?q] =>
    destruct (create_v4_hdr_total d1 t s a p q) as (d2 & ->); [lia|] end.
  by do 2 eexists.
Qed.

Lemma encap_v6_total data mac is_ipv6 pckt dst pkt_bytes :
  zlen mac = 6 → ∃ ok d, encap_v6 bpf_xdp_adjust_head data mac is_ipv6 pckt dst pkt_bytes = Ok (ok, d).
Proof.
  intros Hm. unfold encap_v6, SIZEOF_ETHER_HDR, SIZEOF_IPV6HDR.
  destruct (bpf_xdp_adjust_head data _) as [d|]; [|by do 2 eexists].
  destruct (_ || _) eqn:E; [by do 2 eexists|]. apply orb_false_iff in E as [[E1 E2]%orb_false_iff E3].
  rewrite Z.ltb_ge in *.
  destruct (new_eth_hdr_total d 40 mac ETH_P_IPV6_BE) as (d1 & -> & L1); [lia..|]. rewrite bind_Ok.
  destruct is_ipv6; match goal with |- context [create_v6_hdr d1 14 ?t ?s ?a ?p ?q] =>
    destruct (create_v6_hdr_total d1 t s a p q) as (d2 & ->); [lia|] end; by do 2 eexists.
Qed.
End encap_total.

Lemma ctl_mac_length value : zlen (ctl_mac value) = 6.
Proof. done. Qed.

(** ** The operations are safe *)
Section operations.
Context {VIPS LRU : Type} `{!BpfMap vip_definition vip_meta VIPS} `{!BpfMap flow_key real_pos_lru LRU}.
Context `{!BpfMapLaws vip_definition vip_meta VIPS}.
Variable bpf_xdp_adjust_head : list Z → Z → option (list Z).
Context (v : vip_definition) (n : Z).
Implicit Types (s : katran VIPS LRU).

Abbreviation sf := (safe (VIPS := VIPS) (LRU := LRU) v n).

(** One statement of a program. *)
Ltac step :=
  lazymatch goal with
  | |- sf _ (maps ≫= _) => eapply safe_bind; [apply safe_maps|intros ? ([] & ? & ?)]
  | |- sf _ (frame_bytes ≫= _) => eapply safe_bind; [apply safe_frame|intros ? _]
  | |- sf _ (set_frame _ ≫= _) => eapply safe_bind; [apply safe_set_frame|intros ? _]
  | |- sf _ (lookup_stats _ ≫= _) => let p := fresh "p" in let H := fresh "Hptr" in
      eapply safe_bind; [apply safe_lookup_stats|intros p H; destruct p; [specialize (H _ eq_refl)|clear H]]
  | |- sf _ (load_stats _ ≫= _) => eapply safe_bind; [apply safe_load_stats; done|intros ? _]
  | |- sf _ (store_stats _ _ ≫= _) => eapply safe_bind; [apply safe_store_stats; done|intros ? _]
  | |- sf _ (add_v1 _ _ ≫= _) => eapply safe_bind; [apply safe_add_v1; done|intros ? _]
  | |- sf _ (add_v2 _ _ ≫= _) => eapply safe_bind; [apply safe_add_v2; done|intros ? _]
  | |- sf _ (load_vip v ≫= _) => eapply safe_bind; [apply safe_load_vip|intros ? _]
  | |- sf _ (load_cache _ ≫= _) => eapply safe_bind; [apply safe_load_cache; done|intros ? _]
  | |- sf _ (mret _ ≫= _) => eapply (safe_bind (VIPS := VIPS) (LRU := LRU) v n (λ _, True)); [by apply safe_ret|intros ? _]
  | |- sf _ (mret _) => apply safe_ret
  | |- sf _ (ret_action XDP_DROP) => apply safe_return; by left
  | |- sf _ (add_v1 _ _) => apply safe_add_v1; done
  | |- sf _ (add_v2 _ _) => apply safe_add_v2; done
  end.

Lemma safe_is_under_flood e : sf (λ _, True) (is_under_flood e).
Proof.
  unfold is_under_flood. step; [|by step]. step. case_match.
  - step. by step.
  - step. step. case_match; by step.
Qed.

Lemma get_packet_hash_total pckt hash_16bytes : ∃ h, get_packet_hash pckt hash_16bytes = Ok h.
Proof.
  unfold get_packet_hash. destruct hash_16bytes; [|by eexists].
  destruct (jhash_total (in6_bytes (srcv6 (flow pckt))) 16 INIT_JHASH_SEED_V6) as (h & -> & _).
  { unfold zlen. rewrite in6_bytes_length. lia. }
  by eexists.
Qed.

Lemma safe_get_packet_dst e pckt is_ipv6 lru_map :
  0 <= lru_map < n → sf (λ _, True) (get_packet_dst e pckt v is_ipv6 lru_map).
Proof.
  intros Hl. unfold get_packet_dst. eapply safe_bind; [apply safe_is_under_flood|]. intros [flood t] _.
  step. destruct (get_packet_hash_total (hashed_pckt a pckt) is_ipv6) as [h ->].
  eapply (safe_bind (VIPS := VIPS) (LRU := LRU) v n (λ _, True)); [apply safe_lift; by eexists|]. intros h' _.
  step. case_match; [|by step]. case_match; [|by step]. case_match; [|by step]. step.
  eapply (safe_bind (VIPS := VIPS) (LRU := LRU) v n (λ _, True)).
  - case_match; [by apply safe_store_cache|by step].
  - intros _ _. by step.
Qed.

Lemma safe_connection_table_lookup e pckt lru_map :
  0 <= lru_map < n → sf (λ _, True) (connection_table_lookup e pckt lru_map).
Proof.
  intros Hl. unfold connection_table_lookup. step. case_match; [|by step]. case_match; [by step|].
  eapply (safe_bind (VIPS := VIPS) (LRU := LRU) v n (λ _, True)).
  - case_match; [by apply safe_store_cache|by step].
  - intros _ _. step. by step.
Qed.

Lemma safe_count : sf (λ _, True) increment_quic_cid_drop_no_real ∧
  sf (λ _, True) increment_quic_cid_drop_real_0 ∧
  ∀ id, sf (λ _, True) (increment_quic_cid_version_stats id).
Proof.
  unfold increment_quic_cid_drop_no_real, increment_quic_cid_drop_real_0, increment_quic_cid_version_stats.
  split; [|split]; [..|intros id]; (step; [|by step]); try case_match; step.
Qed.

Lemma parse_quic_total data is_ipv6 pckt :
  ∃ r, parse_quic data is_ipv6 pckt = Ok r ∧ (r = FURTHER_PROCESSING ∨ r = CONCRETE_QUIC_REAL_ID).
Proof.
  unfold parse_quic. set (off := calc_offset _ _).
  assert (Ho : 0 <= off).
  { unfold off, calc_offset. repeat case_match; vm_compute; congruence. }
  unfold SIZEOF_UDPHDR, SIZEOF_QUIC_LONG_HEADER, SIZEOF_QUIC_SHORT_HEADER, QUIC_CONN_ID_LENS, QUIC_MIN_CONNID_LEN.
  destruct (Z.ltb_spec (zlen data) (off + 8 + 1)); [by eexists; auto|].
  rewrite (ld8_ok data (off + 8)) by lia. rewrite bind_Ok. case_match.
  - destruct (Z.ltb_spec (zlen data) (off + 8 + (6 + 8))); [by eexists; auto|].
    case_match; [by eexists; auto|]. rewrite ld8_ok by lia. rewrite bind_Ok. case_match; eexists; auto.
  - case_match; eexists; auto.
Qed.

Lemma safe_quic_dst is_ipv6 pckt : sf (λ _, True) (quic_dst is_ipv6 pckt).
Proof.
  destruct safe_count as (C1 & C2 & C3).
  unfold quic_dst. step; [|by step]. step.
  destruct (parse_quic_total a is_ipv6 pckt) as (r & -> & _).
  eapply (safe_bind (VIPS := VIPS) (LRU := LRU) v n (λ _, True)); [apply safe_lift; by eexists|]. intros r' _.
  case_match; [|step; by step]. eapply safe_bind; [apply C3|]. intros _ _. step.
  case_match; [|step; by step]. eapply (safe_bind (VIPS := VIPS) (LRU := LRU) v n (λ _, True)); [case_match; [apply C2|by step]|].
  intros _ _. case_match.
  - step. by step.
  - eapply safe_bind; [apply C1|]. intros _ _. step.
Qed.

Lemma safe_select_lru e : sf (λ l, 0 <= l < n) (select_lru e).
Proof.
  unfold select_lru. step.
  assert (Hf : sf (λ l, 0 <= l < n)
    (lru_stats ← lookup_stats (MAX_VIPS + FALLBACK_LRU_CNTR);
     match lru_stats with Some p => _ ← add_v1 p 1; mret fallback_cache | None => ret_action XDP_DROP end)).
  { step; [|step]. step. step. unfold fallback_cache in *. lia. }
  destruct (bpf_map_lookup_elem (lru_mapping _) _) as [[l|]|] eqn:E; [|exact Hf..].
  step. cbn in E. destruct (rd _ _) as [x|] eqn:Er; simplify_eq. apply ok_mapping0 in Er. lia.
Qed.

Lemma safe_count_miss pckt : sf (λ _, True) (count_miss pckt).
Proof. unfold count_miss. case_match; [|by step]. step; [|by step]. case_match; step. Qed.

Lemma safe_flow_dst e is_ipv6 data_stats pckt :
  0 <= data_stats < STATS_MAP_SIZE → sf (λ _, True) (flow_dst e is_ipv6 v data_stats pckt).
Proof.
  intros Hp. unfold flow_dst. step. eapply safe_bind; [apply safe_select_lru|]. intros l Hl.
  eapply (safe_bind (VIPS := VIPS) (LRU := LRU) v n (λ _, True)).
  { case_match; [by apply safe_connection_table_lookup|by step]. }
  intros [[dst|] pckt'] _; [by step|]. eapply safe_bind; [apply safe_count_miss|]. intros _ _.
  eapply safe_bind; [by apply safe_get_packet_dst|]. intros [[dst|] pckt''] _; [|step]. step. by step.
Qed.

Lemma safe_send_to_real is_ipv6 dst pckt pkt_bytes :
  sf (λ a, a = XDP_TX) (send_to_real bpf_xdp_adjust_head is_ipv6 v dst pckt pkt_bytes).
Proof.
  unfold send_to_real. step. destruct (bpf_map_lookup_elem (ctl_array _) 0) as [cval|]; [|step].
  eapply safe_bind; [apply safe_frame|intros data _].
  eapply (safe_bind (VIPS := VIPS) (LRU := LRU) v n (λ _, True)).
  { apply safe_lift. case_match.
    - destruct (encap_v6_total bpf_xdp_adjust_head data (ctl_mac cval) is_ipv6 pckt (real_dst dst) pkt_bytes)
        as (ok & d & ->); [done|by eexists].
    - destruct (encap_v4_total bpf_xdp_adjust_head data (ctl_mac cval) pckt (real_dst dst) pkt_bytes)
        as (ok & d & ->); [done|by eexists]. }
  intros [ok d] _. step. case_match; [step|]. step. step; [|step]. step. step. step.
  case_match; [|step]. eapply safe_bind; [|intros _ _; by step].
  apply safe_set_reals_stats. cbn. case_match eqn:Ew; [|done].
  unfold wr in Ew. case_match; [|done]. simplify_eq. unfold zlen in *. by rewrite length_insert.
Qed.
End operations.

(** ** The headers *)
Section headers.
Context {VIPS LRU : Type} `{!BpfMap vip_definition vip_meta VIPS} `{!BpfMap flow_key real_pos_lru LRU}.
Implicit Types (s : katran VIPS LRU) (data : list Z).

Lemma parse_icmp_total data off pckt :
  0 <= off → ∃ a p d, parse_icmp data off pckt = Ok (a, p, d) ∧
    (a = XDP_DROP ∨ a = XDP_TX ∨ (a = XDP_PASS ∨ a = FURTHER_PROCESSING) ∧ d = data).
Proof.
  intros Ho. unfold parse_icmp, SIZEOF_ICMPHDR, SIZEOF_IPV4_HDR, ICMP_TYPE.
  destruct (Z.ltb_spec (zlen data) (off + 8)); [do 3 eexists; split; [done|by left]|].
  rewrite (ld8_ok data (off + 0)) by lia. rewrite bind_Ok. case_match.
  { destruct (send_icmp_reply_total data) as (a & d & -> & Ha & _). rewrite bind_Ok.
    do 3 eexists. split; [done|]. destruct Ha; auto. }
  case_match; [do 3 eexists; split; [done|]; right; right; by auto|].
  destruct (Z.ltb_spec (zlen data) (off + 8 + 20)); [do 3 eexists; split; [done|by left]|].
  unfold ihl, IPV4_VERSION_IHL, IPV4_NEXT_PROTO_ID, IPV4_DST_ADDR, IPV4_SRC_ADDR.
  rewrite (ld8_ok data (off + 8 + 0)) by lia. rewrite !bind_Ok.
  case_match; [do 3 eexists; split; [done|by left]|].
  rewrite (ld8_ok data (off + 8 + 9)) by lia. rewrite bind_Ok.
  rewrite (ld32_ok data (off + 8 + 16)) by lia. rewrite bind_Ok.
  rewrite (ld32_ok data (off + 8 + 12)) by lia. rewrite bind_Ok.
  do 3 eexists. split; [done|]. right; right; by auto.
Qed.

Lemma ld_in6_ok data off :
  0 <= off → off + 16 <= zlen data →
  ld_in6 data off = Ok (w32 data off, w32 data (off + 4), w32 data (off + 8), w32 data (off + 12)).
Proof. intros. unfold ld_in6. rewrite !ld32_ok by lia. done. Qed.

Lemma parse_icmpv6_total data off pckt :
  0 <= off → ∃ a p d, parse_icmpv6 data off pckt = Ok (a, p, d) ∧
    (a = XDP_DROP ∨ a = XDP_TX ∨ (a = XDP_PASS ∨ a = FURTHER_PROCESSING) ∧ d = data).
Proof.
  intros Ho. unfold parse_icmpv6, SIZEOF_ICMP6HDR, SIZEOF_IPV6HDR, ICMP_TYPE.
  destruct (Z.ltb_spec (zlen data) (off + 8)); [do 3 eexists; split; [done|by left]|].
  rewrite (ld8_ok data (off + 0)) by lia. rewrite bind_Ok. case_match.
  { destruct (send_icmp6_reply_total data) as (a & d & -> & Ha & _). rewrite bind_Ok.
    do 3 eexists. split; [done|]. destruct Ha; auto. }
  case_match; [do 3 eexists; split; [done|]; right; right; by auto|].
  destruct (Z.ltb_spec (zlen data) (off + 8 + 40)); [do 3 eexists; split; [done|by left]|].
  unfold IPV6_NEXTHDR, IPV6_DADDR, IPV6_SADDR.
  rewrite (ld8_ok data (off + 8 + 6)) by lia. rewrite bind_Ok.
  rewrite (ld_in6_ok data (off + 8 + 24)) by lia. rewrite bind_Ok.
  rewrite (ld_in6_ok data (off + 8 + 8)) by lia. rewrite bind_Ok.
  do 3 eexists. split; [done|]. right; right; by auto.
Qed.

(** What a part does before the VIP is known: the maps stay, and a frame that is
    passed on is as it came. *)
Definition gentle {A} (m : M (VIPS := VIPS) (LRU := LRU) A) : Prop :=
  ∀ data s, ∃ o data', m (data, s) = Ok (o, (data', s)) ∧
    match o with
    | Return a => a = XDP_DROP ∨ a = XDP_TX ∨ a = XDP_PASS ∧ data' = data
    | Next _ => data' = data
    end.

Lemma gentle_bind {A B} (m : M A) (k : A → M B) : gentle m → (∀ a, gentle (k a)) → gentle (m ≫= k).
Proof.
  intros Hm Hk data s. destruct (Hm data s) as (o & d & E & Ho). unfold mbind, M_bind. rewrite E.
  destruct o as [a|x]; [by do 2 eexists|]. subst d. apply Hk.
Qed.

Lemma gentle_ret {A} (x : A) : gentle (mret x).
Proof. intros data s. by do 2 eexists. Qed.

Lemma gentle_return {A} a : a = XDP_DROP ∨ a = XDP_PASS → gentle (A := A) (ret_action a).
Proof. intros Ha data s. do 2 eexists. split; [done|]. destruct Ha; auto. Qed.

Lemma gentle_frame {A} (k : list Z → M A) :
  (∀ data s, ∃ o data', k data (data, s) = Ok (o, (data', s)) ∧
    match o with
    | Return a => a = XDP_DROP ∨ a = XDP_TX ∨ a = XDP_PASS ∧ data' = data
    | Next _ => data' = data
    end) → gentle (frame_bytes ≫= k).
Proof. intros Hk data s. apply Hk. Qed.

Lemma bind_lift {A B} (r : res A) (x : A) (k : A → M (VIPS := VIPS) (LRU := LRU) B) :
  r = Ok x → (lift r ≫= k) = k x.
Proof. by intros ->. Qed.

Ltac drop := do 2 eexists; split; [reflexivity|by left].

(** The reply or the description that the ICMP parsers make. *)
Lemma gentle_icmp (r : res (Z * packet_description * list Z)) data s pkt_bytes a p d :
  r = Ok (a, p, d) → (a = XDP_DROP ∨ a = XDP_TX ∨ (a = XDP_PASS ∨ a = FURTHER_PROCESSING) ∧ d = data) →
  ∃ o data', ('(action, pckt, data) ← lift r; _ ← set_frame data;
     if 0 <=? action then ret_action action else mret (FURTHER_PROCESSING, pckt, pkt_bytes)
     : M (VIPS := VIPS) (LRU := LRU) (Z * packet_description * Z)) (data, s) = Ok (o, (data', s)) ∧
    match o with
    | Return a => a = XDP_DROP ∨ a = XDP_TX ∨ a = XDP_PASS ∧ data' = data
    | Next _ => data' = data
    end.
Proof.
  intros -> [->|[->|[[->| ->] ->]]]; do 2 eexists; (split; [reflexivity|cbn; auto]).
Qed.

Lemma gentle_l3 pckt is_ipv6 : gentle (process_l3_headers pckt 14 is_ipv6).
Proof.
  apply gentle_frame. intros data s. destruct is_ipv6.
  - unfold SIZEOF_IPV6HDR, IPV6_NEXTHDR, IPV6_FLOW_LBL, IPV6_PAYLOAD_LEN, IPV6_SADDR, IPV6_DADDR.
    destruct (Z.ltb_spec (zlen data) (14 + 40)); [drop|].
    rewrite (bind_lift (ld8 data (14 + 6)) _ _ (ld8_ok data (14 + 6) ltac:(lia))).
    rewrite (bind_lift (ld8 data 14) _ _ (ld8_ok data 14 ltac:(lia))).
    rewrite (bind_lift (ld8 data (14 + 1)) _ _ (ld8_ok data (14 + 1) ltac:(lia))).
    rewrite (bind_lift (ld16 data (14 + 4)) _ _ (ld16_ok data (14 + 4) ltac:(lia) ltac:(lia))).
    case_match; [drop|]. case_match.
    + match goal with |- context [parse_icmpv6 data ?o ?p] =>
        destruct (parse_icmpv6_total data o p) as (a & p' & d & E & Ha); [lia|] end.
      by eapply gentle_icmp.
    + rewrite (bind_lift (ld_in6 data (14 + 8)) _ _ (ld_in6_ok data (14 + 8) ltac:(lia) ltac:(lia))).
      rewrite (bind_lift (ld_in6 data (14 + 24)) _ _ (ld_in6_ok data (14 + 24) ltac:(lia) ltac:(lia))).
      by do 2 eexists.
  - unfold SIZEOF_IPV4_HDR, IPV4_TOS, IPV4_NEXT_PROTO_ID, IPV4_TOTAL_LENGTH, IPV4_FRAG_OFF, IPV4_SRC_ADDR,
      IPV4_DST_ADDR, ihl, IPV4_VERSION_IHL.
    destruct (Z.ltb_spec (zlen data) (14 + 20)); [drop|].
    rewrite (ld8_ok data (14 + 0)) by lia. rewrite bind_Ok. rewrite (bind_lift _ _ _ eq_refl).
    case_match; [drop|].
    rewrite (bind_lift (ld8 data (14 + 1)) _ _ (ld8_ok data (14 + 1) ltac:(lia))).
    rewrite (bind_lift (ld8 data (14 + 9)) _ _ (ld8_ok data (14 + 9) ltac:(lia))).
    rewrite (bind_lift (ld16 data (14 + 2)) _ _ (ld16_ok data (14 + 2) ltac:(lia) ltac:(lia))).
    rewrite (bind_lift (ld16 data (14 + 6)) _ _ (ld16_ok data (14 + 6) ltac:(lia) ltac:(lia))).
    case_match; [drop|]. case_match.
    + match goal with |- context [parse_icmp data ?o ?p] =>
        destruct (parse_icmp_total data o p) as (a & p' & d & E & Ha); [lia|] end.
      by eapply gentle_icmp.
    + rewrite (bind_lift (ld32 data (14 + 12)) _ _ (ld32_ok data (14 + 12) ltac:(lia) ltac:(lia))).
      rewrite (bind_lift (ld32 data (14 + 16)) _ _ (ld32_ok data (14 + 16) ltac:(lia) ltac:(lia))).
      by do 2 eexists.
Qed.

Lemma calc_offset_bound is_ipv6 is_icmp : 34 <= calc_offset is_ipv6 is_icmp <= 102.
Proof. destruct is_ipv6, is_icmp; vm_compute; split; congruence. Qed.

Lemma parse_tcp_total data is_ipv6 pckt : ∃ p, parse_tcp data is_ipv6 pckt = Ok p.
Proof.
  unfold parse_tcp. set (off := calc_offset _ _). pose proof (calc_offset_bound is_ipv6
    (negb (Z.land (flags pckt) F_ICMP =? 0))) as Ho. fold off in Ho.
  unfold SIZEOF_TCPHDR, TCP_FLAGS, TCPUDP_SRC_PORT, TCPUDP_DST_PORT.
  destruct (Z.ltb_spec (zlen data) (off + 20)); [by eexists|].
  rewrite (ld8_ok data (off + 13)) by lia. rewrite bind_Ok.
  rewrite (ld16_ok data (off + 0)) by lia. rewrite bind_Ok.
  rewrite (ld16_ok data (off + 2)) by lia. rewrite bind_Ok. case_match; by eexists.
Qed.

Lemma parse_udp_total data is_ipv6 pckt : ∃ p, parse_udp data is_ipv6 pckt = Ok p.
Proof.
  unfold parse_udp. set (off := calc_offset _ _). pose proof (calc_offset_bound is_ipv6
    (negb (Z.land (flags pckt) F_ICMP =? 0))) as Ho. fold off in Ho.
  unfold SIZEOF_UDPHDR, TCPUDP_SRC_PORT, TCPUDP_DST_PORT.
  destruct (Z.ltb_spec (zlen data) (off + 8)); [by eexists|].
  rewrite (ld16_ok data (off + 0)) by lia. rewrite bind_Ok.
  rewrite (ld16_ok data (off + 2)) by lia. rewrite bind_Ok. case_match; by eexists.
Qed.

Lemma gentle_ports is_ipv6 pckt : gentle (parse_ports is_ipv6 pckt).
Proof.
  apply gentle_frame. intros data s. case_match; [|do 2 eexists; split; [reflexivity|cbn; auto]].
  assert (∃ p, (if proto (flow pckt) =? IPPROTO_TCP then parse_tcp data is_ipv6 pckt
                else parse_udp data is_ipv6 pckt) = Ok p) as [p ->].
  { case_match; [apply parse_tcp_total|apply parse_udp_total]. }
  destruct p; do 2 eexists; (split; [reflexivity|cbn; auto]).
Qed.

(** The VIP that is found is in the map. *)
Lemma lookup_vip_spec is_ipv6 pckt data s :
  lookup_vip is_ipv6 pckt (data, s) = Ok (Return XDP_PASS, (data, s)) ∨
  ∃ v p, lookup_vip is_ipv6 pckt (data, s) = Ok (Next (v, p), (data, s)) ∧
    is_Some (bpf_map_lookup_elem (vip_map s) v).
Proof.
  unfold lookup_vip. set (addr := if is_ipv6 then _ else _). unfold mbind, M_bind, maps. cbn [fst snd].
  destruct (bpf_map_lookup_elem (vip_map s) (mk_vip addr _ _)) eqn:E1.
  { right. do 2 eexists. split; [reflexivity|]. by eexists. }
  destruct (bpf_map_lookup_elem (vip_map s) (mk_vip addr 0 _)) as [m|] eqn:E2; [|by left].
  right. case_match; do 2 eexists; (split; [reflexivity|]); by eexists.
Qed.
End headers.

Section ingress.
Context {VIPS LRU : Type} `{!BpfMap vip_definition vip_meta VIPS} `{!BpfMap flow_key real_pos_lru LRU}.
Context `{!BpfMapLaws vip_definition vip_meta VIPS}.
Variable bpf_xdp_adjust_head : list Z → Z → option (list Z).
Implicit Types (s : katran VIPS LRU) (data : list Z).

Lemma bind_next {A B} (m : M (VIPS := VIPS) (LRU := LRU) A) (k : A → M B) w x w' :
  m w = Ok (Next x, w') → (m ≫= k) w = k x w'.
Proof. intros E. unfold mbind, M_bind. by rewrite E. Qed.

Lemma bind_return {A B} (m : M (VIPS := VIPS) (LRU := LRU) A) (k : A → M B) w a w' :
  m w = Ok (Return a, w') → (m ≫= k) w = Ok (Return a, w').
Proof. intros E. unfold mbind, M_bind. by rewrite E. Qed.

(** The program behind the lookup of the VIP. *)
Lemma safe_balance e is_ipv6 v n pckt pkt_bytes :
  safe (VIPS := VIPS) (LRU := LRU) v n (λ a, a = XDP_TX)
   (meta ← load_vip v;
    s ← maps;
    _ ← set_vip_map (bpf_map_store (vip_map s) v (mk_meta (vip_flags meta) 7));
    data ← frame_bytes;
    if MAX_PCKT_SIZE <? zlen data then ret_action XDP_DROP
    else
      data_stats ← lookup_stats (MAX_VIPS + LRU_CNTRS);
      match data_stats with
      | None => ret_action XDP_DROP
      | Some data_stats =>
          _ ← add_v1 data_stats 1;
          meta ← load_vip v;
          '(dst, pckt) ← (if (proto (flow pckt) =? IPPROTO_UDP) && has (vip_flags meta) F_QUIC_VIP
                          then quic_dst is_ipv6 pckt else mret (None, pckt));
          '(dst, pckt) ← match dst with
                         | Some dst => mret (dst, pckt)
                         | None => flow_dst e is_ipv6 v data_stats pckt
                         end;
          send_to_real bpf_xdp_adjust_head is_ipv6 v dst pckt pkt_bytes
      end).
Proof.
  eapply safe_bind; [apply safe_load_vip|]. intros meta _.
  eapply safe_bind; [apply safe_maps|]. intros s (_ & _ & [m Hm]).
  eapply safe_bind; [apply safe_set_vip_map; eexists; eapply bpf_store_here; exact Hm|]. intros _ _.
  eapply safe_bind; [apply safe_frame|]. intros data _. case_match; [apply safe_return; by left|].
  eapply safe_bind; [apply safe_lookup_stats|]. intros [p|] Hp; [|apply safe_return; by left].
  specialize (Hp p eq_refl). eapply safe_bind; [by apply safe_add_v1|]. intros _ _.
  eapply safe_bind; [apply safe_load_vip|]. intros meta' _.
  eapply (safe_bind v n (λ _, True)); [case_match; [apply safe_quic_dst|by apply safe_ret]|].
  intros [dst pckt'] _.
  eapply (safe_bind v n (λ _, True)); [case_match; [by apply safe_ret|by apply safe_flow_dst]|].
  intros [dst' pckt''] _. apply safe_send_to_real.
Qed.

Lemma process_packet_total e is_ipv6 data s :
  katran_ok s → ∃ a data' s', run_fn (process_packet bpf_xdp_adjust_head e 14 is_ipv6) data s =
    Ok (a, data', s') ∧ katran_ok s' ∧
    (a = XDP_DROP ∨ a = XDP_TX ∨ a = XDP_PASS ∧ data' = data ∧ s' = s).
Proof.
  intros Hok. unfold run_fn, process_packet.
  destruct (gentle_l3 (VIPS := VIPS) (LRU := LRU) pckt_zero is_ipv6 data s) as (o & d & E & Ho).
  destruct o as [a|[[a p] pb]].
  { rewrite (bind_return _ _ _ _ _ E). do 3 eexists. split; [done|]. split; [done|].
    destruct Ho as [-> |[-> |[-> ->]]]; auto. }
  rewrite (bind_next _ _ _ _ _ E). subst d. clear E. cbv beta iota.
  destruct (gentle_ports (VIPS := VIPS) (LRU := LRU) is_ipv6 p data s) as (o & d & E & Ho).
  destruct o as [a'|p'].
  { rewrite (bind_return _ _ _ _ _ E). do 3 eexists. split; [done|]. split; [done|].
    destruct Ho as [-> |[-> |[-> ->]]]; auto. }
  rewrite (bind_next _ _ _ _ _ E). subst d. clear E. cbv beta iota.
  destruct (lookup_vip_spec is_ipv6 p' data s) as [E|(v & p'' & E & Hv)].
  { rewrite (bind_return _ _ _ _ _ E). do 3 eexists. split; [done|]. split; [done|]. auto. }
  rewrite (bind_next _ _ _ _ _ E). clear E. cbv beta iota.
  destruct (safe_balance e is_ipv6 v (zlen (caches s)) p'' pb (data, s)) as (o & [d s'] & -> & (Hok' & _) & Ho).
  { split; [done|by split]. }
  destruct o as [a'|a']; do 3 eexists; (split; [done|]); (split; [done|]); destruct Ho; auto.
Qed.

(** C34: Katran is total on frames of any length and content: no access outside of the
    frame or of a map, no endless loop. A frame is dropped, sent out, or passed to the
    kernel; one that is passed is as it came and has not changed a map. *)
Theorem katran_safe e data s :
  katran_ok s → ∃ a data' s', balancer_ingress bpf_xdp_adjust_head e data s = Ok (a, data', s') ∧
    katran_ok s' ∧ (a = XDP_DROP ∨ a = XDP_TX ∨ a = XDP_PASS ∧ data' = data ∧ s' = s).
Proof.
  intros Hok. unfold balancer_ingress, SIZEOF_ETHER_HDR, ETHER_TYPE.
  destruct (Z.ltb_spec (zlen data) 14).
  { do 3 eexists. split; [done|]. auto. }
  rewrite ld16_ok by lia. rewrite bind_Ok.
  case_match; [by apply process_packet_total|]. case_match; [by apply process_packet_total|].
  do 3 eexists. split; [done|]. auto 8.
Qed.
End ingress.

(** ** What the parts compute

    A state with other VIPs, connection tables and statistics. *)
Section runs.
Context {VIPS LRU : Type} `{!BpfMap vip_definition vip_meta VIPS} `{!BpfMap flow_key real_pos_lru LRU}.
Context `{!BpfMapLaws vip_definition vip_meta VIPS}.
Implicit Types (s : katran VIPS LRU) (data : list Z) (st rs : list lb_stats).

Definition upd s (vm : VIPS) (cs : list LRU) st rs : katran VIPS LRU :=
  mk_katran vm (lru_mapping s) cs (ch_rings s) (reals s) rs st (quic_mapping s) (ctl_array s).

Lemma upd_id s : upd s (vip_map s) (caches s) (stats s) (reals_stats s) = s.
Proof. by destruct s. Qed.

(** Numbers added to one element. *)
Definition add_stats st (p x1 x2 : Z) : list lb_stats :=
  setz st p (mk_stats (u64 (v1 (getz st p) + x1)) (u64 (v2 (getz st p) + x2))).

Definition stats64 st : Prop := Forall (λ x, 0 <= v1 x < 2 ^ 64 ∧ 0 <= v2 x < 2 ^ 64) st.

Lemma stats64_get st p : stats64 st → 0 <= p < zlen st →
  0 <= v1 (getz st p) < 2 ^ 64 ∧ 0 <= v2 (getz st p) < 2 ^ 64.
Proof. unfold stats64. rewrite Forall_forall. intros Hs Hp. apply Hs, getz_elem_of. by exists p. Qed.

Lemma stats64_set st p x : stats64 st → 0 <= v1 x < 2 ^ 64 → 0 <= v2 x < 2 ^ 64 → stats64 (setz st p x).
Proof. intros. by apply Forall_insert. Qed.

Lemma stats64_add st p x1 x2 : stats64 st → stats64 (add_stats st p x1 x2).
Proof. intros. apply stats64_set; [done|apply Z.mod_pos_bound; lia..]. Qed.

Lemma add_v1_run d s vm cs st rs p x :
  0 <= p < zlen st → stats64 st →
  add_v1 p x (d, upd s vm cs st rs) = Ok (Next tt, (d, upd s vm cs (add_stats st p x 0) rs)).
Proof.
  intros Hp Hs. unfold add_v1, load_stats, store_stats, set_stats, maps, set_maps, lift, mbind, M_bind, mret.
  cbn. rewrite rd_ok by done. cbn. rewrite wr_ok by done. cbn. unfold add_stats.
  destruct (stats64_get st p Hs Hp). rewrite Z.add_0_r, (u64_id (v2 _)) by done. done.
Qed.

Lemma add_v2_run d s vm cs st rs p x :
  0 <= p < zlen st → stats64 st →
  add_v2 p x (d, upd s vm cs st rs) = Ok (Next tt, (d, upd s vm cs (add_stats st p 0 x) rs)).
Proof.
  intros Hp Hs. unfold add_v2, load_stats, store_stats, set_stats, maps, set_maps, lift, mbind, M_bind, mret.
  cbn. rewrite rd_ok by done. cbn. rewrite wr_ok by done. cbn. unfold add_stats.
  destruct (stats64_get st p Hs Hp). rewrite Z.add_0_r, (u64_id (v1 _)) by done. done.
Qed.

Lemma lookup_stats_run d s p :
  0 <= p < zlen (stats s) → lookup_stats p (d, s) = Ok (Next (Some p), (d, s)).
Proof. intros Hp. unfold lookup_stats, maps, mbind, M_bind. cbn. rewrite rd_ok by done. done. Qed.

Lemma load_vip_run d s v m :
  bpf_map_lookup_elem (vip_map s) v = Some m → load_vip v (d, s) = Ok (Next m, (d, s)).
Proof. intros E. unfold load_vip, maps, mbind, M_bind. cbn. by rewrite E. Qed.

Lemma load_cache_run d s l c : rd (caches s) l = Ok c → load_cache l (d, s) = Ok (Next c, (d, s)).
Proof. intros E. unfold load_cache, maps, mbind, M_bind, lift. cbn. by rewrite E. Qed.

Lemma store_cache_run d s vm cs st rs l c :
  0 <= l < zlen cs →
  store_cache l c (d, upd s vm cs st rs) = Ok (Next tt, (d, upd s vm (<[Z.to_nat l := c]> cs) st rs)).
Proof.
  intros Hl. unfold store_cache, set_caches, set_maps, maps, mbind, M_bind, lift. cbn. unfold wr.
  rewrite (proj2 (Z.leb_le _ _)), (proj2 (Z.ltb_lt _ _)) by lia. done.
Qed.

(** The rate of new connections. *)
Definition CONN_RATE : Z := MAX_VIPS + NEW_CONN_RATE_CNTR.
Definition flood_next (now : Z) (x : lb_stats) : lb_stats :=
  if ONE_SEC <? u64 (now - v2 x) then mk_stats 1 now else mk_stats (u64 (v1 x + 1)) (v2 x).
Definition floods (now : Z) (x : lb_stats) : bool :=
  if ONE_SEC <? u64 (now - v2 x) then false else MAX_CONN_RATE <? u64 (v1 x + 1).

Lemma is_under_flood_run e d s vm cs st rs :
  CONN_RATE < zlen st → stats64 st →
  is_under_flood e (d, upd s vm cs st rs) =
    Ok (Next (floods (ktime_flood e) (getz st CONN_RATE), ktime_flood e),
        (d, upd s vm cs (setz st CONN_RATE (flood_next (ktime_flood e) (getz st CONN_RATE))) rs)).
Proof.
  intros Hl Hs. assert (Hp : 0 <= CONN_RATE < zlen st) by (split; [vm_compute; congruence|done]).
  unfold is_under_flood. fold CONN_RATE.
  rewrite (bind_next _ _ _ _ _ (lookup_stats_run d (upd s vm cs st rs) CONN_RATE Hp)).
  assert (El : ∀ st', zlen st' = zlen st → load_stats CONN_RATE (d, upd s vm cs st' rs) =
    Ok (Next (getz st' CONN_RATE), (d, upd s vm cs st' rs))).
  { intros st' L. unfold load_stats, maps, mbind, M_bind, lift. cbn. rewrite rd_ok by lia. done. }
  rewrite (bind_next _ _ _ _ _ (El st eq_refl)). unfold floods, flood_next. cbv zeta.
  destruct (ONE_SEC <? _).
  - unfold store_stats, set_stats, maps, set_maps, lift, mbind, M_bind. cbn. rewrite wr_ok by done. done.
  - rewrite (bind_next _ _ _ _ _ (add_v1_run d s vm cs st rs _ 1 Hp Hs)).
    assert (L : zlen (add_stats st CONN_RATE 1 0) = zlen st) by apply zlen_setz.
    rewrite (bind_next _ _ _ _ _ (El _ L)). unfold add_stats.
    rewrite getz_setz_eq by done. cbn [v1]. destruct (stats64_get st _ Hs Hp).
    rewrite Z.add_0_r, (u64_id (v2 _)) by done. by case_match.
Qed.
End runs.

(** ** The real server of a TCP packet over IPv4 *)
Section forward.
Context {VIPS LRU : Type} `{!BpfMap vip_definition vip_meta VIPS} `{!BpfMap flow_key real_pos_lru LRU}.
Context `{!BpfMapLaws vip_definition vip_meta VIPS}.
Context (bpf_xdp_adjust_head : list Z → Z → option (list Z)) `{!AdjustHead bpf_xdp_adjust_head}.
Implicit Types (s : katran VIPS LRU) (data : list Z) (st rs : list lb_stats) (p : packet_description).

(** The hash of an IPv4 packet, and the position in the ring: the same part of
    [ch_rings] for every VIP. *)
Definition packet_hash p : Z :=
  jhash_2words (in6_word0 (srcv6 (flow p))) (ports (flow p)) INIT_JHASH_SEED.
Definition ring_pos p : Z := RING_SIZE * 7 + packet_hash p mod RING_SIZE.

Lemma get_packet_hash_v4 p : get_packet_hash p false = Ok (packet_hash p).
Proof. reflexivity. Qed.

Lemma ring_pos_bound p : RING_SIZE * 7 <= ring_pos p < RING_SIZE * 8.
Proof. unfold ring_pos, RING_SIZE. pose proof (Z.mod_pos_bound (packet_hash p) 127). lia. Qed.

Lemma ring_key p : u32 (RING_SIZE * 7 + packet_hash p mod RING_SIZE) = ring_pos p.
Proof.
  pose proof (ring_pos_bound p) as Hb. unfold ring_pos in *. generalize dependent (packet_hash p).
  unfold RING_SIZE. intros h Hb. apply u32_id. lia.
Qed.

(** The real that the ring of VIP number 7 has for the hash [h], and the packet. *)
Definition ring_at (h : Z) : Z := RING_SIZE * 7 + h mod RING_SIZE.
Definition ring_dst s p (h : Z) : option real_definition * packet_description :=
  match bpf_map_lookup_elem (ch_rings s) (ring_at h) with
  | Some i => (bpf_map_lookup_elem (reals s) i, set_real_index p i)
  | None => (None, p)
  end.

(** The connection table that gets the flow of the packet with this real; a table
    without room for it, and a flow without a real, leave it as it is. *)
Definition learn s (now : Z) (c : LRU) p (h : Z) : LRU :=
  match bpf_map_lookup_elem (ch_rings s) (ring_at h) with
  | Some i =>
      match bpf_map_lookup_elem (reals s) i with
      | Some _ =>
          let time := if proto (flow p) =? IPPROTO_UDP then now else 0 in
          match bpf_map_update_elem c (flow p) (mk_pos i time) with Some c' => c' | None => c end
      | None => c
      end
  | None => c
  end.

(** The connection table after a miss. *)
Definition remember (now : Z) (x : lb_stats) (c : LRU) p (i : Z) : LRU :=
  if floods now x then c
  else match bpf_map_update_elem c (flow p) (mk_pos i 0) with Some c' => c' | None => c end.

Lemma maps_run d s : maps (d, s) = Ok (Next s, (d, s)).
Proof. done. Qed.

Lemma frame_run d s : frame_bytes (d, s) = Ok (Next d, (d, s)).
Proof. done. Qed.

Lemma array_lookup {A} (t : list A) k x : rd t k = Ok x → bpf_map_lookup_elem t k = Some x.
Proof. intros E. cbn. by rewrite E. Qed.

Lemma insert_rd (cs : list LRU) l c : rd cs l = Ok c → <[Z.to_nat l := c]> cs = cs.
Proof.
  intros Hr. unfold rd in Hr. case_match; [|done]. destruct (cs !! Z.to_nat l) eqn:E; simplify_eq.
  by apply list_insert_id.
Qed.

Lemma rd_range {A} (l : list A) i x : rd l i = Ok x → 0 <= i < zlen l.
Proof.
  unfold rd. destruct (Z.leb_spec 0 i); [|done]. destruct (l !! Z.to_nat i) eqn:E; [|done].
  apply lookup_lt_Some in E. unfold zlen. lia.
Qed.

(** For any packet to a VIP: the real is that of the ring; the table learns it, unless
    the rate is exceeded or the VIP does not use the table. *)
Lemma get_packet_dst_spec e d s vm cs st rs p v fl is_ipv6 l c h :
  bpf_map_lookup_elem vm v = Some (mk_meta fl 7) → rd cs l = Ok c →
  let hp := hashed_pckt (mk_meta fl 7) p in
  get_packet_hash hp is_ipv6 = Ok h → CONN_RATE < zlen st → stats64 st →
  get_packet_dst e p v is_ipv6 l (d, upd s vm cs st rs) =
    Ok (Next (ring_dst s hp h),
        (d, upd s vm (<[Z.to_nat l :=
               if has fl F_LRU_BYPASS || floods (ktime_flood e) (getz st CONN_RATE) then c
               else learn s (ktime_flood e) c hp h]> cs)
              (setz st CONN_RATE (flood_next (ktime_flood e) (getz st CONN_RATE))) rs)).
Proof.
  intros Hv Hc hp Hh Hl Hs. unfold get_packet_dst.
  rewrite (bind_next _ _ _ _ _ (is_under_flood_run e d s vm cs st rs Hl Hs)). cbv beta iota.
  set (st' := setz st CONN_RATE _). set (over := floods _ _).
  rewrite (bind_next _ _ _ _ _ (load_vip_run d (upd s vm cs st' rs) v _ Hv)).
  fold hp. clearbody hp. rewrite Hh, (bind_lift (Ok h) h _ eq_refl). cbn [vip_num vip_flags].
  assert (Ek : u32 (RING_SIZE * 7 + h mod RING_SIZE) = ring_at h).
  { unfold ring_at, RING_SIZE. pose proof (Z.mod_pos_bound h 127). apply u32_id. lia. }
  rewrite Ek. rewrite (bind_next _ _ _ _ _ (maps_run d (upd s vm cs st' rs))).
  cbn [upd ch_rings reals]. fold (upd s vm cs st' rs). unfold ring_dst, learn.
  destruct (bpf_map_lookup_elem (ch_rings s) (ring_at h)) as [i|];
    [|case_match; by rewrite (insert_rd cs l c Hc)].
  destruct (bpf_map_lookup_elem (reals s) i) as [real|]; [|case_match; by rewrite (insert_rd cs l c Hc)].
  rewrite <- negb_orb. destruct (has fl F_LRU_BYPASS || over); cbn [negb];
    [by rewrite (insert_rd cs l c Hc)|].
  cbn [set_real_index flow].
  rewrite (bind_next _ _ _ _ _ (load_cache_run d (upd s vm cs st' rs) l c Hc)). cbv beta zeta.
  destruct (bpf_map_update_elem c (flow hp) _) as [c'|].
  - by rewrite (bind_next _ _ _ _ _ (store_cache_run d s vm cs st' rs l c' (rd_range _ _ _ Hc))).
  - by rewrite (insert_rd cs l c Hc).
Qed.

Lemma get_packet_dst_run e d s vm cs st rs p v fl l c i real :
  bpf_map_lookup_elem vm v = Some (mk_meta fl 7) →
  has fl F_LRU_BYPASS = false → proto (flow p) = IPPROTO_TCP → rd cs l = Ok c →
  let hp := hashed_pckt (mk_meta fl 7) p in
  rd (ch_rings s) (ring_pos hp) = Ok i → rd (reals s) i = Ok real →
  CONN_RATE < zlen st → stats64 st →
  get_packet_dst e p v false l (d, upd s vm cs st rs) =
    Ok (Next (Some real, set_real_index hp i),
        (d, upd s vm (<[Z.to_nat l := remember (ktime_flood e) (getz st CONN_RATE) c hp i]> cs)
              (setz st CONN_RATE (flood_next (ktime_flood e) (getz st CONN_RATE))) rs)).
Proof.
  intros Hv Hb Hp Hc hp Hi Hr Hl Hs.
  rewrite (get_packet_dst_spec e d s vm cs st rs p v fl false l c (packet_hash hp) Hv Hc
    (get_packet_hash_v4 _) Hl Hs). fold hp.
  unfold ring_dst, learn, remember. change (ring_at (packet_hash hp)) with (ring_pos hp).
  rewrite (array_lookup _ _ _ Hi), (array_lookup _ _ _ Hr), Hb.
  assert (Hhp : proto (flow hp) = IPPROTO_TCP) by (unfold hp, hashed_pckt; by case_match).
  rewrite Hhp. cbn [orb]. by case_match.
Qed.

(** The real that the connection table remembers for a packet. *)
Definition hit s (c : LRU) p : option Z :=
  if has (flags p) F_SYN_SET then None
  else match bpf_map_lookup_elem c (flow p) with
       | Some q => match rd (reals s) (pos q) with Ok _ => Some (pos q) | Err _ => None end
       | None => None
       end.

(** The packet as the connection table and the hash see it. *)
Definition keyed (fl : Z) p : packet_description :=
  if has fl F_HASH_NO_SRC_PORT then set_ports p 0 (port16_1 (flow p)) else p.

Lemma keyed_proto fl p : proto (flow (keyed fl p)) = proto (flow p).
Proof. unfold keyed. by case_match. Qed.

Lemma keyed_flags fl p : flags (keyed fl p) = flags p.
Proof. unfold keyed. by case_match. Qed.

Lemma set_stats_other st j x k : 0 <= j → 0 <= k → k ≠ j → getz (setz st j x) k = getz st k.
Proof.
  intros. unfold getz, setz. apply list_lookup_total_insert_ne. lia.
Qed.

Lemma connection_table_lookup_run e d s vm cs st rs p l c :
  proto (flow p) = IPPROTO_TCP → rd cs l = Ok c →
  connection_table_lookup e p l (d, upd s vm cs st rs) =
    Ok (Next match bpf_map_lookup_elem c (flow p) with
             | Some q => (match rd (reals s) (pos q) with Ok r => Some r | Err _ => None end,
                          set_real_index p (pos q))
             | None => (None, p)
             end, (d, upd s vm cs st rs)).
Proof.
  intros Hp Hc. unfold connection_table_lookup.
  rewrite (bind_next _ _ _ _ _ (load_cache_run d (upd s vm cs st rs) l c Hc)).
  destruct (bpf_map_lookup_elem c (flow p)) as [q|]; [|done]. rewrite Hp.
  change (IPPROTO_TCP =? IPPROTO_UDP) with false. cbn [andb]. cbv zeta iota.
  rewrite (bind_next (mret tt) _ (d, upd s vm cs st rs) tt (d, upd s vm cs st rs) eq_refl).
  by rewrite (bind_next _ _ _ _ _ (maps_run d (upd s vm cs st rs))).
Qed.

(** The statistics after a miss: it is counted, as a SYN or as another packet, the
    rate of new connections moves on, and the packet was sent by the ring. *)
Definition miss_stats (syn : bool) (now : Z) st : list lb_stats :=
  add_stats (setz (if syn then add_stats st (MAX_VIPS + LRU_MISS_CNTR) 1 0
                   else add_stats st (MAX_VIPS + LRU_MISS_CNTR) 0 1)
               CONN_RATE (flood_next now (getz st CONN_RATE))) (MAX_VIPS + LRU_CNTRS) 0 1.

Lemma zlen_add_stats st k x1 x2 : zlen (add_stats st k x1 x2) = zlen st.
Proof. apply zlen_setz. Qed.

Lemma zlen_miss_stats syn now st : zlen (miss_stats syn now st) = zlen st.
Proof. unfold miss_stats. rewrite zlen_add_stats, zlen_setz. destruct syn; apply zlen_add_stats. Qed.

Lemma stats64_flood now st :
  stats64 st → 0 <= now < 2 ^ 64 → 0 <= v2 (getz st CONN_RATE) < 2 ^ 64 →
  ∀ st', stats64 st' → stats64 (setz st' CONN_RATE (flood_next now (getz st CONN_RATE))).
Proof.
  intros Hs Ht B2 st' Hs'. unfold flood_next. case_match; (apply stats64_set; [done|cbn|cbn]); try lia.
  apply Z.mod_pos_bound. lia.
Qed.

(** What both cases share. *)
Section tcp.
Variables (e : env) (d : list Z) (s : katran VIPS LRU) (vm : VIPS) (cs : list LRU) (st rs : list lb_stats).
Variables (p : packet_description) (v : vip_definition) (fl l : Z) (c : LRU).
Hypothesis (Hv : bpf_map_lookup_elem vm v = Some (mk_meta fl 7)).
Hypothesis (Hb : has fl F_LRU_BYPASS = false) (Hp : proto (flow p) = IPPROTO_TCP).
Hypothesis (Hl : rd (lru_mapping s) (smp_processor_id e) = Ok (Some l)) (Hc : rd cs l = Ok c).

Lemma select_lru_run : select_lru e (d, upd s vm cs st rs) = Ok (Next l, (d, upd s vm cs st rs)).
Proof.
  unfold select_lru. rewrite (bind_next _ _ _ _ _ (maps_run d (upd s vm cs st rs))). cbn [upd lru_mapping].
  by rewrite (array_lookup _ _ _ Hl).
Qed.

Lemma flow_dst_hit data_stats i real :
  hit s c (keyed fl p) = Some i → rd (reals s) i = Ok real →
  flow_dst e false v data_stats p (d, upd s vm cs st rs) =
    Ok (Next (real, set_real_index (keyed fl p) i), (d, upd s vm cs st rs)).
Proof.
  intros Hh Hr. unfold hit in Hh. rewrite keyed_flags in Hh. unfold flow_dst.
  rewrite (bind_next _ _ _ _ _ (load_vip_run d (upd s vm cs st rs) v _ Hv)). cbn [vip_flags].
  fold (keyed fl p). rewrite (bind_next _ _ _ _ _ select_lru_run). rewrite keyed_flags, Hb.
  destruct (has (flags p) F_SYN_SET); [done|]. cbn [negb andb].
  assert (Hk : proto (flow (keyed fl p)) = IPPROTO_TCP) by by rewrite keyed_proto.
  rewrite (bind_next _ _ _ _ _ (connection_table_lookup_run e d s vm cs st rs (keyed fl p) l c Hk Hc)).
  destruct (bpf_map_lookup_elem c (flow (keyed fl p))) as [q|]; [|done].
  destruct (rd (reals s) (pos q)) as [r|] eqn:Er; [|done]. assert (pos q = i) as -> by congruence.
  by assert (r = real) as -> by congruence.
Qed.

Lemma flow_dst_miss i real :
  hit s c (keyed fl p) = None → has fl F_HASH_DPORT_ONLY = false →
  rd (ch_rings s) (ring_pos (keyed fl p)) = Ok i → rd (reals s) i = Ok real →
  zlen st = STATS_MAP_SIZE → stats64 st → 0 <= ktime_flood e < 2 ^ 64 →
  let st' := miss_stats (has (flags p) F_SYN_SET) (ktime_flood e) st in
  stats64 st' ∧
    flow_dst e false v (MAX_VIPS + LRU_CNTRS) p (d, upd s vm cs st rs) =
      Ok (Next (real, set_real_index (keyed fl p) i),
          (d, upd s vm (<[Z.to_nat l := remember (ktime_flood e) (getz st CONN_RATE) c (keyed fl p) i]> cs)
                st' rs)).
Proof.
  intros Hh Hd Hi Hr Hst Hs Ht st'. unfold flow_dst.
  rewrite (bind_next _ _ _ _ _ (load_vip_run d (upd s vm cs st rs) v _ Hv)). cbn [vip_flags].
  fold (keyed fl p). set (kp := keyed fl p) in *. rewrite (bind_next _ _ _ _ _ select_lru_run).
  assert (Hk : proto (flow kp) = IPPROTO_TCP) by (unfold kp; by rewrite keyed_proto).
  assert (Hlook : ∃ q, (if negb (has (flags kp) F_SYN_SET) && negb (has fl F_LRU_BYPASS)
      then connection_table_lookup e kp l else mret (None, kp)) (d, upd s vm cs st rs) =
      Ok (Next (None, q), (d, upd s vm cs st rs)) ∧ flow q = flow kp ∧ flags q = flags kp ∧
      set_real_index q i = set_real_index kp i).
  { rewrite Hb. unfold hit in Hh. destruct (has (flags kp) F_SYN_SET); cbn [negb andb]; [by exists kp|].
    rewrite (connection_table_lookup_run e d s vm cs st rs kp l c Hk Hc).
    destruct (bpf_map_lookup_elem c (flow kp)) as [x|]; [|by exists kp].
    destruct (rd (reals s) (pos x)); [done|]. by eexists. }
  destruct Hlook as (q & Eq & Qf & Qg & Qi). rewrite (bind_next _ _ _ _ _ Eq). cbv beta iota. clear Eq.
  set (st1 := if has (flags p) F_SYN_SET then add_stats st (MAX_VIPS + LRU_MISS_CNTR) 1 0
              else add_stats st (MAX_VIPS + LRU_MISS_CNTR) 0 1).
  assert (Em : count_miss q (d, upd s vm cs st rs) = Ok (Next tt, (d, upd s vm cs st1 rs))).
  { unfold count_miss. rewrite Qf, Hk. change (IPPROTO_TCP =? IPPROTO_TCP) with true. cbv iota.
    assert (Hp33 : 0 <= MAX_VIPS + LRU_MISS_CNTR < zlen st) by (rewrite Hst; vm_compute; split; congruence).
    rewrite (bind_next _ _ _ _ _ (lookup_stats_run d (upd s vm cs st rs) _ Hp33)).
    unfold st1. rewrite Qg. unfold kp. rewrite keyed_flags. case_match; [by apply add_v1_run|by apply add_v2_run]. }
  rewrite (bind_next _ _ _ _ _ Em). clear Em.
  assert (L1 : zlen st1 = STATS_MAP_SIZE) by (unfold st1; case_match; by rewrite zlen_add_stats).
  assert (S1 : stats64 st1) by (unfold st1; case_match; by apply stats64_add).
  assert (G1 : getz st1 CONN_RATE = getz st CONN_RATE) by (unfold st1; case_match; by apply set_stats_other).
  assert (Hrp : ring_pos q = ring_pos kp) by (unfold ring_pos, packet_hash; by rewrite Qf).
  assert (Hhq : hashed_pckt (mk_meta fl 7) q = q) by (unfold hashed_pckt; cbn [vip_flags]; by rewrite Hd).
  pose proof (get_packet_dst_run e d s vm cs st1 rs q v fl l c i real Hv Hb
    ltac:(by rewrite Qf) Hc ltac:(by rewrite Hhq, Hrp) Hr ltac:(by rewrite L1) S1) as Eg. rewrite Hhq in Eg.
  rewrite (bind_next _ _ _ _ _ Eg). cbv beta iota. clear Eg. rewrite G1.
  set (st2 := setz st1 _ _). assert (L2 : zlen st2 = STATS_MAP_SIZE) by (unfold st2; by rewrite zlen_setz).
  assert (S2 : stats64 st2).
  { destruct (stats64_get st CONN_RATE Hs) as [_ B2]; [rewrite Hst; vm_compute; split; congruence|].
    by apply stats64_flood. }
  assert (Hp32 : 0 <= MAX_VIPS + LRU_CNTRS < zlen st2) by (rewrite L2; vm_compute; split; congruence).
  unfold remember. rewrite Qf.
  rewrite (bind_next _ _ _ _ _ (add_v2_run d s vm _ st2 rs _ 1 Hp32 S2)). rewrite Qi.
  split; [by apply stats64_add|reflexivity].
Qed.
End tcp.

(** The tunnel packet and the counters of the VIP and of the real. *)
Lemma send_to_real_run s d vm cs st rs v fl real p n cval x :
  zlen (ctl_array s) = CTL_MAP_SIZE → rd (ctl_array s) 0 = Ok cval →
  bpf_map_lookup_elem vm v = Some (mk_meta fl 7) →
  bpf_xdp_adjust_head d (0 - SIZEOF_IPV4_HDR) = Some x → 14 <= zlen d → bytes_ok d →
  zlen st = STATS_MAP_SIZE → stats64 st → 0 <= real_index p < zlen rs →
  ∃ ck id, zlen id = 2 ∧
    csum_ok (slice (outer_v4 d (ctl_mac cval) p (real_dst real) n ck id) 14 20) ∧
    send_to_real bpf_xdp_adjust_head false v real p n (d, upd s vm cs st rs) =
      Ok (Next XDP_TX, (outer_v4 d (ctl_mac cval) p (real_dst real) n ck id ++ drop 14 d,
        upd s vm cs (add_stats (add_stats st 7 1 0) 7 0 n) (add_stats rs (real_index p) 1 n))).
Proof.
  intros Hc Hcv Hv Hx Hd Hb Hst Hs Hr.
  assert (Bm : bytes_ok (ctl_mac cval)) by (repeat constructor; apply u8_byte).
  destruct (encap_v4_spec bpf_xdp_adjust_head d (ctl_mac cval) p (real_dst real) n x)
    as (ck & id & _ & Lid & E & Hok); try done.
  exists ck, id. split; [done|]. split; [done|]. unfold send_to_real.
  rewrite (bind_next _ _ _ _ _ (maps_run d (upd s vm cs st rs))). cbn [upd ctl_array].
  rewrite (array_lookup _ _ _ Hcv). fold (upd s vm cs st rs).
  rewrite (bind_next _ _ _ _ _ (frame_run d (upd s vm cs st rs))). cbn [andb].
  rewrite (bind_lift _ _ _ E). cbv beta iota. set (out := outer_v4 _ _ _ _ _ _ _ ++ _).
  rewrite (bind_next (set_frame out) _ (d, upd s vm cs st rs) tt (out, upd s vm cs st rs) eq_refl).
  cbn [negb]. rewrite (bind_next _ _ _ _ _ (load_vip_run out (upd s vm cs st rs) v _ Hv)). cbn [vip_num].
  assert (H7 : 0 <= 7 < zlen st) by (rewrite Hst; vm_compute; split; congruence).
  rewrite (bind_next _ _ _ _ _ (lookup_stats_run out (upd s vm cs st rs) 7 H7)).
  rewrite (bind_next _ _ _ _ _ (add_v1_run out s vm cs st rs 7 1 H7 Hs)).
  assert (H7' : 0 <= 7 < zlen (add_stats st 7 1 0)) by (unfold add_stats; by rewrite zlen_setz).
  rewrite (bind_next _ _ _ _ _ (add_v2_run out s vm cs _ rs 7 n H7' (stats64_add _ _ _ _ Hs))).
  set (st' := add_stats (add_stats st 7 1 0) 7 0 n).
  rewrite (bind_next _ _ _ _ _ (maps_run out (upd s vm cs st' rs))). cbn [upd reals_stats].
  rewrite (array_lookup _ _ _ (rd_ok rs _ Hr)).
  assert (Es : bpf_map_store rs (real_index p) (mk_stats (u64 (v1 (getz rs (real_index p)) + 1))
    (u64 (v2 (getz rs (real_index p)) + n))) = add_stats rs (real_index p) 1 n).
  { cbn. by rewrite wr_ok. }
  rewrite Es. reflexivity.
Qed.

(** A TCP packet over IPv4, and its description. *)
Definition tcp4 data : bool :=
  (54 <=? zlen data) && (zlen data <=? MAX_PCKT_SIZE) && (w16 data 12 =? ETHER_TYPE_IPV4_BE) &&
  (Z.land (getz data 14) 15 =? 5) && (Z.land (w16 data 20) PCKT_FRAGMENTED =? 0) &&
  (getz data 23 =? IPPROTO_TCP).
Definition tcp4_pckt data : packet_description :=
  mk_pckt (mk_flow (w32 data 26, 0, 0, 0) (w32 data 30, 0, 0, 0) (w16 data 34) (w16 data 36) IPPROTO_TCP)
    0 (if Z.testbit (getz data 47) 1 then F_SYN_SET else 0) (getz data 15).
Definition tcp4_vip data : vip_definition := mk_vip (w32 data 30, 0, 0, 0) (w16 data 36) IPPROTO_TCP.
Definition tot_len data : Z := bpf_ntohs (w16 data 16).

Lemma tcp4_parsed data s :
  tcp4 data = true → ∃ p,
    process_l3_headers pckt_zero 14 false (data, s) =
      Ok (Next (FURTHER_PROCESSING, p, tot_len data), (data, s)) ∧
    parse_ports false p (data, s) = Ok (Next (tcp4_pckt data), (data, s)).
Proof.
  intros Ht. unfold tcp4 in Ht. repeat (apply andb_prop in Ht as [Ht ?]).
  rewrite ?Z.eqb_eq, ?Z.leb_le in *.
  exists (mk_pckt (mk_flow (w32 data 26, 0, 0, 0) (w32 data 30, 0, 0, 0) 0 0 IPPROTO_TCP) 0 0 (getz data 15)).
  split.
  - unfold process_l3_headers. rewrite (bind_next _ _ _ _ _ (frame_run data s)).
    unfold SIZEOF_IPV4_HDR, IPV4_TOS, IPV4_NEXT_PROTO_ID, IPV4_TOTAL_LENGTH, IPV4_FRAG_OFF, IPV4_SRC_ADDR,
      IPV4_DST_ADDR, ihl, IPV4_VERSION_IHL. offsets.
    rewrite (proj2 (Z.ltb_ge _ _)) by lia. rewrite (ld8_ok data 14) by lia. rewrite bind_Ok.
    rewrite (bind_lift _ _ _ eq_refl). rewrite (proj2 (Z.eqb_eq _ 5)) by done. cbn [negb].
    rewrite (bind_lift _ _ _ (ld8_ok data 15 ltac:(lia))), (bind_lift _ _ _ (ld8_ok data 23 ltac:(lia))).
    rewrite (bind_lift _ _ _ (ld16_ok data 16 ltac:(lia) ltac:(lia))).
    rewrite (bind_lift _ _ _ (ld16_ok data 20 ltac:(lia) ltac:(lia))).
    rewrite (proj2 (Z.eqb_eq (Z.land (w16 data 20) _) 0)) by done. cbn [negb].
    replace (getz data 23) with IPPROTO_TCP. change (IPPROTO_TCP =? IPPROTO_ICMP) with false. cbv iota.
    rewrite (bind_lift _ _ _ (ld32_ok data 26 ltac:(lia) ltac:(lia))).
    rewrite (bind_lift _ _ _ (ld32_ok data 30 ltac:(lia) ltac:(lia))). reflexivity.
  - unfold parse_ports. rewrite (bind_next _ _ _ _ _ (frame_run data s)).
    cbn [flow proto].
    change (IPPROTO_TCP =? IPPROTO_TCP) with true. change (IPPROTO_TCP =? IPPROTO_UDP) with false. cbn [orb].
    unfold parse_tcp. cbn [flags]. change (negb (Z.land 0 F_ICMP =? 0)) with false.
    change (calc_offset false false) with 34. unfold SIZEOF_TCPHDR, TCP_FLAGS, TCPUDP_SRC_PORT, TCPUDP_DST_PORT.
    offsets. rewrite (proj2 (Z.ltb_ge _ _)) by lia. rewrite (ld8_ok data 47) by lia. rewrite bind_Ok.
    rewrite (ld16_ok data 34) by lia. rewrite bind_Ok. rewrite (ld16_ok data 36) by lia. rewrite bind_Ok.
    cbn [negb]. rewrite (bind_lift _ _ _ eq_refl). unfold tcp4_pckt. by destruct (Z.testbit (getz data 47) 1).
Qed.

(** The real of a packet: the one that the table remembers, else that of the ring;
    and the table after the packet. *)
Definition chosen s (c : LRU) p : option Z :=
  match hit s c p with
  | Some i => Some i
  | None => match rd (ch_rings s) (ring_pos p) with Ok i => Some i | Err _ => None end
  end.
Definition table_after s (c : LRU) p (now i : Z) : LRU :=
  match hit s c p with Some _ => c | None => remember now (getz (stats s) CONN_RATE) c p i end.

Definition count_packet (x : lb_stats) (n : Z) : lb_stats := mk_stats (u64 (v1 x + 1)) (u64 (v2 x + n)).

(** What a packet of [n] bytes makes of the element [x] of [stats] at [k]: the VIP (it
    has the number 7) counts the packet and its bytes, [LRU_CNTRS] the packets and
    those that the table did not know; of these [LRU_MISS_CNTR] counts the SYNs and
    the others, and [CONN_RATE] is the rate. No other element changes. *)
Definition counter_after (miss syn : bool) (now n k : Z) (x : lb_stats) : lb_stats :=
  if k =? 7 then count_packet x n
  else if k =? MAX_VIPS + LRU_CNTRS then mk_stats (u64 (v1 x + 1)) (u64 (v2 x + if miss then 1 else 0))
  else if miss then
    if k =? MAX_VIPS + LRU_MISS_CNTR then
      if syn then mk_stats (u64 (v1 x + 1)) (v2 x) else mk_stats (v1 x) (u64 (v2 x + 1))
    else if k =? CONN_RATE then flood_next now x
    else x
  else x.

(** The statistics, step by step. *)
Definition stats_after (miss syn : bool) (now n : Z) st : list lb_stats :=
  let st := add_stats st (MAX_VIPS + LRU_CNTRS) 1 0 in
  let st := if miss then miss_stats syn now st else st in
  add_stats (add_stats st 7 1 0) 7 0 n.

Lemma getz_stats st j k x :
  0 <= j < zlen st → 0 <= k → getz (setz st j x) k = if k =? j then x else getz st k.
Proof.
  intros Hj Hk. destruct (Z.eqb_spec k j) as [->|]; [by apply getz_setz_eq|apply set_stats_other; lia].
Qed.

Lemma getz_add st j k x1 x2 :
  0 <= j < zlen st → 0 <= k →
  getz (add_stats st j x1 x2) k =
    if k =? j then mk_stats (u64 (v1 (getz st k) + x1)) (u64 (v2 (getz st k) + x2)) else getz st k.
Proof. intros Hj Hk. unfold add_stats. rewrite getz_stats by done. by destruct (Z.eqb_spec k j) as [->|]. Qed.

Lemma u64_add_twice x a b : u64 (u64 (x + a) + b) = u64 (x + a + b).
Proof. unfold u64. by rewrite Z.add_mod_idemp_l by lia. Qed.

Lemma stats_after_counters miss syn now n st k :
  zlen st = STATS_MAP_SIZE → stats64 st → 0 <= k < STATS_MAP_SIZE →
  getz (stats_after miss syn now n st) k = counter_after miss syn now n k (getz st k).
Proof.
  intros Hl Hs Hk. pose proof (stats64_get st k Hs ltac:(lia)) as [B1 B2].
  unfold stats_after, counter_after, miss_stats, count_packet, CONN_RATE, NEW_CONN_RATE_CNTR, LRU_MISS_CNTR,
    LRU_CNTRS in *.
  change (MAX_VIPS + 0) with 32. change (MAX_VIPS + 1) with 33. change (MAX_VIPS + 2) with 34.
  change STATS_MAP_SIZE with 64 in *.
  assert (E : u64 (v1 (getz st k)) = v1 (getz st k) ∧ u64 (v2 (getz st k)) = v2 (getz st k))
    by (split; by apply u64_id).
  destruct E as [E1 E2]. destruct miss, syn;
    rewrite !getz_add by (rewrite ?zlen_add_stats, ?zlen_setz, ?zlen_add_stats; lia);
    rewrite ?getz_stats, ?getz_add by (rewrite ?zlen_add_stats; lia);
    (destruct (Z.eqb_spec k 7) as [->|];
      [|destruct (Z.eqb_spec k 32) as [->|]; [|destruct (Z.eqb_spec k 33) as [->|];
        [|destruct (Z.eqb_spec k 34) as [->|]]]]);
    cbn [Z.eqb Pos.eqb v1 v2]; rewrite ?u64_add_twice, ?Z.add_0_r, ?E1, ?E2; try done; by destruct (getz st _).
Qed.

(** What the packet needs: a VIP that uses the connection table, the table of the
    processor, a real, and room in front of the frame. *)
Record forwardable (e : env) data s (fl l i : Z) (c : LRU) (real : real_definition) (cval : Z) : Prop := {
  fw_ok : katran_ok s;
  fw_stats : stats64 (stats s);
  fw_clock : 0 <= ktime_flood e < 2 ^ 64;
  fw_bytes : bytes_ok data;
  fw_tcp : tcp4 data = true;
  fw_vip : ∃ k, bpf_map_lookup_elem (vip_map s) (tcp4_vip data) = Some (mk_meta fl k);
  fw_flags : has fl F_LRU_BYPASS = false ∧ has fl F_HASH_DPORT_ONLY = false;
  fw_cpu : rd (lru_mapping s) (smp_processor_id e) = Ok (Some l);
  fw_table : rd (caches s) l = Ok c;
  fw_chosen : chosen s c (keyed fl (tcp4_pckt data)) = Some i;
  fw_real : rd (reals s) i = Ok real;
  fw_mac : rd (ctl_array s) 0 = Ok cval;
  fw_room : ∃ x, bpf_xdp_adjust_head data (0 - SIZEOF_IPV4_HDR) = Some x
}.

Lemma tcp4_syn data : has (flags (tcp4_pckt data)) F_SYN_SET = Z.testbit (getz data 47) 1.
Proof. cbn [tcp4_pckt flags]. by case_match. Qed.

(** The maps after the packet. *)
Definition katran_after (e : env) data s (fl l i : Z) (c : LRU) : katran VIPS LRU :=
  let kp := keyed fl (tcp4_pckt data) in
  let miss := bool_decide (hit s c kp = None) in
  upd s (bpf_map_store (vip_map s) (tcp4_vip data) (mk_meta fl 7))
    (<[Z.to_nat l := table_after s c kp (ktime_flood e) i]> (caches s))
    (stats_after miss (Z.testbit (getz data 47) 1) (ktime_flood e) (tot_len data) (stats s))
    (add_stats (reals_stats s) i 1 (tot_len data)).

(** The destination of the packet, with the tables and counters. *)
Lemma flow_dst_chosen e data s fl l i c real cval st :
  forwardable e data s fl l i c real cval → zlen st = STATS_MAP_SIZE → stats64 st →
  getz st CONN_RATE = getz (stats s) CONN_RATE →
  let vm := bpf_map_store (vip_map s) (tcp4_vip data) (mk_meta fl 7) in
  let st' := if decide (hit s c (keyed fl (tcp4_pckt data)) = None)
             then miss_stats (Z.testbit (getz data 47) 1) (ktime_flood e) st else st in
  stats64 st' ∧
    flow_dst e false (tcp4_vip data) (MAX_VIPS + LRU_CNTRS) (tcp4_pckt data)
      (data, upd s vm (caches s) st (reals_stats s)) =
      Ok (Next (real, set_real_index (keyed fl (tcp4_pckt data)) i),
          (data, upd s vm (<[Z.to_nat l := table_after s c (keyed fl (tcp4_pckt data)) (ktime_flood e) i]>
                             (caches s)) st' (reals_stats s))).
Proof.
  intros [] Hst Hs Hrate vm st'. destruct fw_vip0 as [k Hv], fw_flags0 as [Hb Hd].
  assert (Hvm : bpf_map_lookup_elem vm (tcp4_vip data) = Some (mk_meta fl 7)).
  { unfold vm. eapply bpf_store_here. exact Hv. }
  unfold chosen in fw_chosen0. unfold st', table_after. clear st'. set (kp := keyed fl (tcp4_pckt data)) in *.
  destruct (hit s c kp) as [j|] eqn:Eh.
  - injection fw_chosen0 as ->. rewrite decide_False by done. split; [done|].
    rewrite (insert_rd _ _ _ fw_table0). by eapply flow_dst_hit.
  - destruct (rd (ch_rings s) (ring_pos kp)) as [j|] eqn:Er; [|done]. injection fw_chosen0 as ->.
    destruct (flow_dst_miss e data s vm (caches s) st (reals_stats s) (tcp4_pckt data) (tcp4_vip data) fl l c
      Hvm Hb eq_refl fw_cpu0 fw_table0 i real Eh Hd Er fw_real0 Hst Hs fw_clock0) as [Hs' E].
    rewrite tcp4_syn in Hs', E. rewrite decide_True by done. split; [done|]. rewrite E. by rewrite Hrate.
Qed.

Lemma balancer_tcp4 e data s fl l i c real cval :
  forwardable e data s fl l i c real cval →
  let kp := keyed fl (tcp4_pckt data) in
  ∃ ck id, zlen id = 2 ∧
    let outer := outer_v4 data (ctl_mac cval) kp (real_dst real) (tot_len data) ck id in
    balancer_ingress bpf_xdp_adjust_head e data s =
      Ok (XDP_TX, outer ++ drop 14 data, katran_after e data s fl l i c) ∧
    csum_ok (slice outer 14 20).
Proof.
  intros Hf kp. pose proof Hf as []. destruct fw_ok0 as []. destruct fw_vip0 as [k Hv], fw_room0 as [x Hx].
  pose proof fw_tcp0 as Ht. unfold tcp4 in Ht. repeat (apply andb_prop in Ht as [Ht ?]).
  rewrite ?Z.eqb_eq, ?Z.leb_le in *.
  unfold balancer_ingress, SIZEOF_ETHER_HDR, ETHER_TYPE. rewrite (proj2 (Z.ltb_ge (zlen data) 14)) by lia.
  rewrite (ld16_ok data 12) by lia. rewrite bind_Ok. rewrite (proj2 (Z.eqb_eq (w16 data 12) _)) by done.
  unfold run_fn, process_packet. destruct (tcp4_parsed data s fw_tcp0) as (p & E1 & E2).
  rewrite (bind_next _ _ _ _ _ E1). cbv beta iota. rewrite (bind_next _ _ _ _ _ E2). clear E1 E2.
  assert (E3 : lookup_vip false (tcp4_pckt data) (data, s) =
    Ok (Next (tcp4_vip data, tcp4_pckt data), (data, s))).
  { unfold lookup_vip. cbv zeta iota. rewrite (bind_next _ _ _ _ _ (maps_run data s)).
    cbn [tcp4_pckt flow dstv6 in6_word0 in6_set0 in6_zero port16_1 proto]. fold (tcp4_vip data). by rewrite Hv. }
  rewrite (bind_next _ _ _ _ _ E3). clear E3. cbv beta iota.
  rewrite (bind_next _ _ _ _ _ (load_vip_run data s _ _ Hv)).
  rewrite (bind_next _ _ _ _ _ (maps_run data s)). cbn [vip_flags].
  set (vm := bpf_map_store _ _ _).
  assert (Hvm : bpf_map_lookup_elem vm (tcp4_vip data) = Some (mk_meta fl 7)).
  { unfold vm. eapply bpf_store_here. exact Hv. }
  set (s1 := upd s vm (caches s) (stats s) (reals_stats s)).
  rewrite (bind_next (set_vip_map vm) _ (data, s) tt (data, s1) eq_refl).
  rewrite (bind_next _ _ _ _ _ (frame_run data s1)).
  rewrite (proj2 (Z.ltb_ge MAX_PCKT_SIZE _)) by done.
  assert (H32 : 0 <= MAX_VIPS + LRU_CNTRS < zlen (stats s)) by (rewrite ok_stats0; vm_compute; split; congruence).
  rewrite (bind_next _ _ _ _ _ (lookup_stats_run data s1 _ H32)).
  rewrite (bind_next _ _ _ _ _ (add_v1_run data s vm (caches s) (stats s) (reals_stats s) _ 1 H32 fw_stats0)).
  set (st1 := add_stats (stats s) _ 1 0).
  assert (L1 : zlen st1 = STATS_MAP_SIZE) by (unfold st1, add_stats; by rewrite zlen_setz).
  assert (S1 : stats64 st1) by by apply stats64_add.
  rewrite (bind_next _ _ _ _ _ (load_vip_run data (upd s vm (caches s) st1 (reals_stats s)) _ _ Hvm)).
  change (proto (flow (tcp4_pckt data)) =? IPPROTO_UDP) with false. cbn [andb].
  rewrite (bind_next (mret (None, tcp4_pckt data)) _ _ (None, tcp4_pckt data) _ eq_refl). cbv beta iota.
  destruct (flow_dst_chosen e data s fl l i c real cval st1 Hf L1 S1) as [S2 E4].
  { by apply set_stats_other. }
  fold kp in S2, E4. set (st2 := if decide _ then _ else _) in *.
  assert (L2 : zlen st2 = STATS_MAP_SIZE) by (unfold st2; case_decide; by rewrite ?zlen_miss_stats).
  rewrite (bind_next _ _ _ _ _ E4). clear E4. cbv beta iota.
  destruct (send_to_real_run s data vm (<[Z.to_nat l := table_after s c kp (ktime_flood e) i]> (caches s)) st2
    (reals_stats s) (tcp4_vip data) fl real (set_real_index kp i) (tot_len data) cval x)
    as (ck & id & Lid & Hok & E5); try done; try lia.
  { cbn [real_index set_real_index]. apply rd_range in fw_real0. lia. }
  fold vm kp. rewrite E5. clear E5. exists ck, id. split; [done|]. split; [|exact Hok].
  unfold katran_after, stats_after. fold kp vm st1. cbv zeta. rewrite bool_decide_decide. fold kp.
  unfold st2. by destruct (decide (hit s c kp = None)).
Qed.

Lemma katran_after_table e data s fl l i c :
  rd (caches s) l = Ok c →
  rd (caches (katran_after e data s fl l i c)) l =
    Ok (table_after s c (keyed fl (tcp4_pckt data)) (ktime_flood e) i).
Proof.
  intros Hc. cbn [katran_after upd caches]. pose proof (rd_range _ _ _ Hc) as Hl. unfold rd.
  rewrite (proj2 (Z.leb_le _ _)) by lia. rewrite list_lookup_insert_eq by (unfold zlen in Hl; lia). done.
Qed.
End forward.

(** ** The claims *)
Section claims.
Context {VIPS LRU : Type} `{!BpfMap vip_definition vip_meta VIPS} `{!BpfMap flow_key real_pos_lru LRU}.
Context `{!BpfMapLaws vip_definition vip_meta VIPS} `{!BpfMapLaws flow_key real_pos_lru LRU}.
Context (bpf_xdp_adjust_head : list Z → Z → option (list Z)) `{!AdjustHead bpf_xdp_adjust_head}.
Implicit Types (s : katran VIPS LRU) (data : list Z) (p : packet_description).

Abbreviation ingress := (balancer_ingress (VIPS := VIPS) (LRU := LRU) bpf_xdp_adjust_head).
Abbreviation to_forward := (forwardable (VIPS := VIPS) (LRU := LRU) bpf_xdp_adjust_head).

(** C23: A TCP packet over IPv4 leaves in an IP tunnel to the real server that the
    connection table remembers for its flow, else to the one the ring gives for its
    hash. The packet itself is unchanged behind a new Ethernet and a new IPv4 header
    with a checksum that verifies. The table holds the new flow if the rate of new
    connections allows it; every element of the statistics is that of
    [counter_after]: the packet and its length for the VIP, the packets, the misses
    (SYNs apart from the others), the rate; the packet and its length are counted for
    the real, and no other real and no other map changes. The VIP's number is 7
    afterwards, whatever it was: all VIPs use the ring positions and the counter of
    number 7. It is for a frame of at most [MAX_PCKT_SIZE] bytes without IP options
    and not a fragment, a VIP that is registered with the packet's port and has
    neither [F_LRU_BYPASS] nor [F_HASH_DPORT_ONLY], a processor with a connection
    table of its own, an index of an existing real, and room in front of the frame;
    the identification of the new header is whatever the room held. *)
Theorem katran_forwards e data s fl l i c real cval :
  to_forward e data s fl l i c real cval →
  let kp := keyed fl (tcp4_pckt data) in
  let miss := bool_decide (hit s c kp = None) in
  let syn := Z.testbit (getz data 47) 1 in
  ∃ ck id s', zlen id = 2 ∧
    let outer := outer_v4 data (ctl_mac cval) kp (real_dst real) (tot_len data) ck id in
    ingress e data s = Ok (XDP_TX, outer ++ drop 14 data, s') ∧
    csum_ok (slice outer 14 20) ∧
    caches s' = <[Z.to_nat l := table_after s c kp (ktime_flood e) i]> (caches s) ∧
    (∀ k, 0 <= k < STATS_MAP_SIZE →
       getz (stats s') k = counter_after miss syn (ktime_flood e) (tot_len data) k (getz (stats s) k)) ∧
    reals_stats s' = setz (reals_stats s) i (count_packet (getz (reals_stats s) i) (tot_len data)) ∧
    vip_map s' = bpf_map_store (vip_map s) (tcp4_vip data) (mk_meta fl 7) ∧
    bpf_map_lookup_elem (vip_map s') (tcp4_vip data) = Some (mk_meta fl 7) ∧
    s' = upd s (vip_map s') (caches s') (stats s') (reals_stats s') ∧
    RING_SIZE * 7 <= ring_pos kp < RING_SIZE * 8.
Proof.
  intros Hf kp miss syn. destruct (balancer_tcp4 bpf_xdp_adjust_head e data s fl l i c real cval Hf)
    as (ck & id & Lid & E & Hok). pose proof Hf as []. destruct fw_vip0 as [k Hv].
  exists ck, id, (katran_after e data s fl l i c). cbn [katran_after upd caches stats reals_stats vip_map].
  split; [done|]. split; [exact E|]. split; [exact Hok|]. split; [done|]. split.
  { intros j Hj. apply stats_after_counters; try done. by destruct fw_ok0. }
  split; [done|]. split; [done|]. split; [by eapply bpf_store_here|]. split; [done|]. apply ring_pos_bound.
Qed.

(** The address the tunnel packet goes to. *)
Lemma outer_daddr data mac p dst n ck id rest :
  14 <= zlen data → zlen mac = 6 → zlen id = 2 →
  slice (outer_v4 data mac p dst n ck id ++ rest) 30 4 = bytes32 (in6_word0 dst).
Proof.
  intros Hl Lm Li. unfold outer_v4, v4_header. set (saddr := Z.lor _ _).
  set (pre := mac ++ slice data 0 6 ++ bytes16 ETHER_TYPE_IPV4_BE ++ [69; u8 (tos p)] ++
    bytes16 (bpf_htons (u16 (n + SIZEOF_IPV4_HDR))) ++ id ++ [0; 0; DEFAULT_TTL; u8 IPPROTO_IPIP] ++
    bytes16 ck ++ bytes32 saddr).
  assert (Lp : zlen pre = 30).
  { unfold pre. rewrite !zlen_app, zlen_slice, Lm, Li by lia. reflexivity. }
  assert (E : (mac ++ slice data 0 6 ++ bytes16 ETHER_TYPE_IPV4_BE ++ [69; u8 (tos p)] ++
    bytes16 (bpf_htons (u16 (n + SIZEOF_IPV4_HDR))) ++ id ++ [0; 0; DEFAULT_TTL; u8 IPPROTO_IPIP] ++
    bytes16 ck ++ bytes32 saddr ++ bytes32 (in6_word0 dst)) ++ rest =
    pre ++ bytes32 (in6_word0 dst) ++ rest) by (unfold pre; by rewrite <- !app_assoc).
  rewrite E, slice_app_r by lia. rewrite Lp. unfold slice. change (Z.to_nat (30 - 30)) with 0%nat.
  by rewrite drop_0, take_app_le by done.
Qed.

(** The table remembers the real of a packet it has room for. *)
Lemma table_remembers s c p now i :
  chosen s c p = Some i → floods now (getz (stats s) CONN_RATE) = false →
  bpf_map_update_elem c (flow p) (mk_pos i 0) ≠ None →
  ∃ q, bpf_map_lookup_elem (table_after s c p now i) (flow p) = Some q ∧ pos q = i.
Proof.
  intros Hc Hfl Hup. unfold chosen, table_after in *. destruct (hit s c p) as [j|] eqn:Eh.
  - injection Hc as ->. unfold hit in Eh. destruct (has _ _); [done|].
    destruct (bpf_map_lookup_elem c (flow p)) as [q|]; [|done]. destruct (rd _ _); [|done].
    exists q. split; [done|]. by injection Eh.
  - unfold remember. rewrite Hfl. destruct (bpf_map_update_elem c (flow p) (mk_pos i 0)) as [c'|] eqn:Eu; [|done].
    exists (mk_pos i 0). split; [by eapply bpf_update_here|done].
Qed.

(** C32: A TCP flow over IPv4 keeps its real. After a packet of the flow was sent to a
    real, a later packet of the same flow that is not a SYN goes to the same address,
    on any processor and whatever the ring has become, as long as its connection table
    still has the entry of the flow as the first packet left it. Needed: both packets
    are [forwardable], which also says what the frame and the VIP must be; at the first
    packet the rate of new connections is not exceeded and the table has room; the
    VIP has the same flags both times, and neither [F_LRU_BYPASS] nor
    [F_HASH_DPORT_ONLY] (with that flag the entry is never found again,
    [katran_dport_only_forgets]); the array of reals is the same. UDP is not covered:
    there an entry that was idle for 30 seconds is ignored (balancer_kern.h:156). *)
Theorem katran_affinity e1 e2 data1 data2 s1 s2 s1' out1 fl l1 l2 i j c1 c2 real1 real2 mac1 mac2 :
  to_forward e1 data1 s1 fl l1 i c1 real1 mac1 → to_forward e2 data2 s2 fl l2 j c2 real2 mac2 →
  flow (tcp4_pckt data2) = flow (tcp4_pckt data1) → Z.testbit (getz data2 47) 1 = false →
  reals s2 = reals s1 →
  floods (ktime_flood e1) (getz (stats s1) CONN_RATE) = false →
  let k := flow (keyed fl (tcp4_pckt data1)) in
  bpf_map_update_elem c1 k (mk_pos i 0) ≠ None →
  ingress e1 data1 s1 = Ok (XDP_TX, out1, s1') →
  (∀ t, rd (caches s1') l1 = Ok t → bpf_map_lookup_elem c2 k = bpf_map_lookup_elem t k) →
  j = i ∧ ∃ out2 s2', ingress e2 data2 s2 = Ok (XDP_TX, out2, s2') ∧ slice out2 30 4 = slice out1 30 4.
Proof.
  intros H1 H2 Hflow Hsyn Hreals Hfl k Hup E1 Hk.
  destruct (balancer_tcp4 bpf_xdp_adjust_head _ _ _ _ _ _ _ _ _ H1) as (ck1 & id1 & L1 & E1' & _).
  destruct (balancer_tcp4 bpf_xdp_adjust_head _ _ _ _ _ _ _ _ _ H2) as (ck2 & id2 & L2 & E2 & _).
  assert (Es : katran_after e1 data1 s1 fl l1 i c1 = s1') by congruence.
  pose proof (katran_after_table e1 data1 s1 fl l1 i c1 (fw_table _ _ _ _ _ _ _ _ _ _ H1)) as T1. rewrite Es in T1.
  match type of E1' with _ = Ok (_, ?o, _) => assert (Eo : out1 = o) by congruence end.
  rewrite Eo. clear Eo E1 E1'.
  destruct (table_remembers s1 c1 (keyed fl (tcp4_pckt data1)) (ktime_flood e1) i) as (q & Hq & Hi);
    [apply H1|done|done|]. fold k in Hq. rewrite <- (Hk _ T1) in Hq.
  assert (Hk2 : flow (keyed fl (tcp4_pckt data2)) = k).
  { unfold k, keyed. case_match; [|done]. unfold set_ports. cbn [flow]. by rewrite Hflow. }
  assert (Hij : j = i).
  { pose proof (fw_chosen _ _ _ _ _ _ _ _ _ _ H2) as Hc. unfold chosen, hit in Hc.
    rewrite keyed_flags, Hk2, Hq in Hc. unfold tcp4_pckt in Hc at 1. cbn [flags] in Hc. rewrite Hsyn in Hc.
    change (has 0 F_SYN_SET) with false in Hc. rewrite Hi, Hreals in Hc.
    rewrite (fw_real _ _ _ _ _ _ _ _ _ _ H1) in Hc. by injection Hc. }
  split; [done|]. eexists _, _. split; [exact E2|].
  pose proof (fw_tcp _ _ _ _ _ _ _ _ _ _ H1) as Ht1. pose proof (fw_tcp _ _ _ _ _ _ _ _ _ _ H2) as Ht2.
  unfold tcp4 in Ht1, Ht2. repeat (apply andb_prop in Ht1 as [Ht1 _]). repeat (apply andb_prop in Ht2 as [Ht2 _]).
  rewrite Z.leb_le in *. rewrite !outer_daddr by (done || lia).
  pose proof (fw_real _ _ _ _ _ _ _ _ _ _ H1) as R1. pose proof (fw_real _ _ _ _ _ _ _ _ _ _ H2) as R2.
  rewrite Hreals, Hij, R1 in R2. by injection R2 as ->.
Qed.

(** A VIP that is hashed by destination port only: the flow is changed before it is
    put into the connection table, so that no later packet finds it there. *)
Theorem katran_dport_only_forgets e d s v fl l c i real p w p' t :
  bpf_map_lookup_elem (vip_map s) v = Some (mk_meta fl 7) → has fl F_HASH_DPORT_ONLY = true →
  has fl F_LRU_BYPASS = false → proto (flow p) = IPPROTO_TCP → rd (caches s) l = Ok c →
  rd (ch_rings s) (ring_pos (hashed_pckt (mk_meta fl 7) p)) = Ok i → rd (reals s) i = Ok real →
  katran_ok s → stats64 (stats s) → srcv6 (flow p) ≠ in6_zero → bpf_map_lookup_elem c (flow p) = None →
  get_packet_dst e p v false l (d, s) = Ok (Next (Some real, p'), w) → rd (caches w.2) l = Ok t →
  bpf_map_lookup_elem t (flow p) = None.
Proof.
  intros Hv Hd Hb Hp Hc Hi Hr Hok Hs Hsrc Hnone E Ht. destruct Hok.
  rewrite <- (upd_id s) in E.
  rewrite (get_packet_dst_run e d s (vip_map s) (caches s) (stats s) (reals_stats s) p v fl l c i real Hv Hb
    Hp Hc Hi Hr ltac:(by rewrite ok_stats0) Hs) in E.
  injection E as _ <-. cbn [upd caches snd] in Ht. pose proof (rd_range _ _ _ Hc) as Hl.
  unfold rd in Ht. rewrite (proj2 (Z.leb_le _ _)) in Ht by lia.
  rewrite list_lookup_insert_eq in Ht by (unfold zlen in Hl; lia). injection Ht as <-.
  unfold remember. case_match; [done|].
  destruct (bpf_map_update_elem c _ _) as [c'|] eqn:Eu; [|done].
  destruct (bpf_map_lookup_elem c' (flow p)) as [q|] eqn:Eq; [|done].
  exfalso. rewrite (bpf_update_old c c' _ (flow p) _ q Eu) in Hnone; [done| |exact Eq].
  unfold hashed_pckt. cbn [vip_flags]. rewrite Hd. intros Ef. apply Hsrc. by rewrite Ef.
Qed.

(** ** The rate of new connections *)
(** A packet that the ring decides, as [flow_dst] passes it to [get_packet_dst]. *)
Record ring_call := mk_call {
  call_env : env; call_pckt : packet_description; call_vip : vip_definition; call_v6 : bool; call_lru : Z
}.

(** Such calls one after the other: the real of each, and the tables before and after. *)
Fixpoint ring_calls (cs : list ring_call) (w : list Z * katran VIPS LRU)
    : res (list (option real_definition * list LRU * list LRU)) :=
  match cs with
  | [] => Ok []
  | c :: cs =>
      match get_packet_dst (call_env c) (call_pckt c) (call_vip c) (call_v6 c) (call_lru c) w with
      | Ok (Next (real, _), w') => tr ← ring_calls cs w'; Ok ((real, caches w.2, caches w'.2) :: tr)
      | Ok (Return _, _) => Ok []
      | Err err => Err err
      end
  end.

(** The VIP of the call is in the map, with the number that [process_packet] gives it,
    and uses the table; the table exists. *)
Definition call_ok s (c : ring_call) : Prop :=
  0 <= ktime_flood (call_env c) < 2 ^ 64 ∧ 0 <= call_lru c < zlen (caches s) ∧
  ∃ fl, bpf_map_lookup_elem (vip_map s) (call_vip c) = Some (mk_meta fl 7) ∧ has fl F_LRU_BYPASS = false.

(** The packet of the call as it is hashed, and its hash. *)
Definition call_hashed s (c : ring_call) : packet_description :=
  match bpf_map_lookup_elem (vip_map s) (call_vip c) with
  | Some m => hashed_pckt m (call_pckt c)
  | None => call_pckt c
  end.
Definition call_hash s (c : ring_call) : Z :=
  match get_packet_hash (call_hashed s c) (call_v6 c) with Ok h => h | Err _ => 0 end.

(** A call that is [over] the limit has the same real as any other, and leaves every
    table as it is; one that is not lets the table learn the flow. *)
Definition call_result s (c : ring_call) (over : bool)
    (r : option real_definition * list LRU * list LRU) : Prop :=
  let '(real, before, after) := r in
  real = (ring_dst s (call_hashed s c) (call_hash s c)).1 ∧
  if over then after = before
  else ∃ t, rd before (call_lru c) = Ok t ∧
    after = <[Z.to_nat (call_lru c) :=
      learn s (ktime_flood (call_env c)) t (call_hashed s c) (call_hash s c)]> before.

(** Which calls are over the limit, by the counter alone. *)
Fixpoint over_limit (times : list Z) (x : lb_stats) : list bool :=
  match times with
  | [] => []
  | now :: times => floods now x :: over_limit times (flood_next now x)
  end.

Definition count_false (bs : list bool) : Z := zlen (filter (λ b, b = false) bs).

Lemma zlen_over_limit times x : zlen (over_limit times x) = zlen times.
Proof. revert x. induction times as [|t times IH]; intros x; [done|]. cbn [over_limit]. by rewrite !zlen_cons, IH. Qed.

Lemma ring_calls_run cs d s ca st :
  zlen ca = zlen (caches s) → zlen st = STATS_MAP_SIZE → stats64 st → Forall (call_ok s) cs →
  ∃ tr, ring_calls cs (d, upd s (vip_map s) ca st (reals_stats s)) = Ok tr ∧
    Forall3 (call_result s) cs (over_limit ((ktime_flood ∘ call_env) <$> cs) (getz st CONN_RATE)) tr.
Proof.
  revert ca st. induction cs as [|c cs IH]; intros ca st Hca Hl Hs Hcs; [eexists; split; [done|constructor]|].
  apply Forall_cons in Hcs as [(Ht & Hlru & fl & Hv & Hb) Hcs]. rewrite <- Hca in Hlru.
  destruct (get_packet_hash_total (hashed_pckt (mk_meta fl 7) (call_pckt c)) (call_v6 c)) as [h Hh].
  assert (Hc : ∃ t, rd ca (call_lru c) = Ok t).
  { unfold rd. rewrite (proj2 (Z.leb_le _ _)) by lia. destruct (ca !! _) eqn:E; [by eexists|].
    apply lookup_ge_None in E. unfold zlen in Hlru. lia. }
  destruct Hc as [t Hc].
  pose proof (get_packet_dst_spec (call_env c) d s (vip_map s) ca st (reals_stats s) (call_pckt c) (call_vip c)
    fl (call_v6 c) (call_lru c) t h Hv Hc Hh ltac:(by rewrite Hl) Hs) as E. rewrite Hb in E. cbn [orb] in E.
  cbn [fmap list_fmap over_limit]. cbn [compose]. set (now := ktime_flood (call_env c)) in *.
  set (hp := hashed_pckt _ _) in *. set (x := getz st CONN_RATE) in *.
  set (ca' := <[_ := _]> ca) in E. set (st' := setz st _ _) in E.
  destruct (IH ca' st') as (tr & Etr & Htr); try done.
  { unfold ca'. unfold zlen in *. by rewrite length_insert. }
  { unfold st'. by rewrite zlen_setz. }
  { destruct (stats64_get st CONN_RATE Hs) as [_ B2]; [rewrite Hl; vm_compute; split; congruence|].
    by apply stats64_flood. }
  assert (Gx : getz st' CONN_RATE = flood_next now x).
  { unfold st'. apply getz_setz_eq. rewrite Hl. vm_compute. split; congruence. }
  rewrite Gx in Htr. destruct (ring_dst s hp h) as [real p'] eqn:Er.
  eexists. cbn [ring_calls]. rewrite E, Etr, bind_Ok. split; [reflexivity|]. constructor; [|exact Htr].
  assert (Ep : call_hashed s c = hp) by (unfold call_hashed; by rewrite Hv).
  unfold call_result, call_hash. rewrite Ep, Hh, Er. cbn [upd caches snd].
  split; [done|]. fold now. unfold ca'. destruct (floods now x); [by apply insert_rd|]. by exists t.
Qed.

Lemma count_false_cons b bs : count_false (b :: bs) = (if b then 0 else 1) + count_false bs.
Proof. unfold count_false. rewrite filter_cons. destruct b; [by rewrite decide_False|]. by rewrite decide_True, zlen_cons. Qed.

Lemma count_false_all bs : count_false bs = zlen bs → Forall (λ b, b = false) bs.
Proof.
  induction bs as [|b bs IH]; [constructor|]. rewrite count_false_cons, zlen_cons.
  pose proof (length_filter (λ b, b = false) bs) as Hf. unfold count_false, zlen in *. intros Hc. destruct b; [lia|].
  constructor; [done|apply IH; lia].
Qed.

(** As long as the quantum lasts, the counter bounds what is admitted; behind a new
    quantum that starts inside of the second there is no other one. *)
Lemma admitted_bound t0 times x :
  Forall (λ t, t0 <= t <= t0 + ONE_SEC) times → Sorted Z.le times → 0 <= t0 → t0 + ONE_SEC < 2 ^ 64 →
  0 <= v1 x → v1 x + zlen times < 2 ^ 64 → 0 <= v2 x →
  (∀ t, t ∈ times → v2 x <= t) →
  (t0 <= v2 x → count_false (over_limit times x) <= Z.max 0 (MAX_CONN_RATE - v1 x)) ∧
  count_false (over_limit times x) <= Z.max 0 (MAX_CONN_RATE - v1 x) + MAX_CONN_RATE.
Proof.
  intros Hin Hsort H0 Hmax. revert x. induction times as [|t times IH]; intros x Hv1 Hwrap Hv2 Hle.
  { cbn. unfold MAX_CONN_RATE. change (count_false []) with 0. lia. }
  apply Forall_cons in Hin as [Ht Hin]. apply Sorted_StronglySorted in Hsort; [|intros ? ? ?; apply Z.le_trans].
  inversion_clear Hsort as [|? ? Hs Hall]. rewrite zlen_cons in Hwrap. pose proof (zlen_nonneg times).
  specialize (IH Hin (StronglySorted_Sorted Hs)). cbn [over_limit]. rewrite count_false_cons.
  pose proof (Hle t ltac:(left)) as Hvt. unfold floods, flood_next.
  unfold ONE_SEC, MAX_CONN_RATE in *.
  rewrite (u64_id (t - v2 x)) by lia. destruct (Z.ltb_spec 1000000000 (t - v2 x)) as [Hq|Hq].
  - destruct (IH (mk_stats 1 t)) as [IH1 _]; cbn [v1 v2]; try lia.
    { intros t' Hin'. rewrite Forall_forall in Hall. apply Hall. done. }
    cbn [v1 v2] in IH1. split; [lia|]. specialize (IH1 ltac:(lia)). lia.
  - rewrite (u64_id (v1 x + 1)) by lia. destruct (IH (mk_stats (v1 x + 1) (v2 x))) as [IH1 IH2]; cbn [v1 v2]; try lia.
    { intros t' Hin'. apply Hle. by right. }
    cbn [v1 v2] in IH1, IH2. destruct (Z.ltb_spec 125000 (v1 x + 1)); split; try lia.
Qed.

(** Up to the limit nothing is over it. *)
Lemma all_admitted times x :
  Forall (λ t, 0 <= t < 2 ^ 64) times → 0 <= v1 x → v1 x + zlen times <= MAX_CONN_RATE →
  count_false (over_limit times x) = zlen times.
Proof.
  revert x. induction times as [|t times IH]; intros x Hin Hv1 Hle; [done|].
  apply Forall_cons in Hin as [Ht Hin]. rewrite zlen_cons in *. pose proof (zlen_nonneg times).
  cbn [over_limit]. rewrite count_false_cons. unfold floods, flood_next, MAX_CONN_RATE in *. destruct (ONE_SEC <? _).
  - rewrite IH; cbn [v1]; try lia; done.
  - rewrite (u64_id (v1 x + 1)) by lia. rewrite (proj2 (Z.ltb_ge _ _)) by lia.
    rewrite IH; cbn [v1]; try lia; done.
Qed.

(** C27: In any second, at most twice [MAX_CONN_RATE] of the packets that the ring
    decides get into the connection table. There is a mark for each call of
    [get_packet_dst] such that at most so many are not [over]; every packet, marked or
    not, gets the real that the ring has for its hash, a marked one leaves all tables
    as they are, and one that is not marked is learned by the table of its processor.
    As long as no more than [MAX_CONN_RATE] packets were counted, none is marked.
    The limit of the code is for a quantum, which starts with the first packet behind
    the end of the last one, so that one second touches two of them: twice the limit,
    not the limit, is what holds. It is for clock readings in order that do not wrap,
    a counter that does not wrap and whose quantum starts before the second does, and
    for VIPs without [F_LRU_BYPASS] that have the number 7. *)
Theorem katran_rate_bound cs d s t0 :
  zlen (stats s) = STATS_MAP_SIZE → stats64 (stats s) → Forall (call_ok s) cs →
  let times := (ktime_flood ∘ call_env) <$> cs in
  Sorted Z.le times → Forall (λ t, t0 <= t <= t0 + ONE_SEC) times →
  0 <= t0 → t0 + ONE_SEC < 2 ^ 64 → v2 (getz (stats s) CONN_RATE) <= t0 →
  v1 (getz (stats s) CONN_RATE) + zlen cs < 2 ^ 64 →
  ∃ tr over, ring_calls cs (d, s) = Ok tr ∧ Forall3 (call_result s) cs over tr ∧
    count_false over <= 2 * MAX_CONN_RATE ∧
    (v1 (getz (stats s) CONN_RATE) + zlen cs <= MAX_CONN_RATE → Forall (λ b, b = false) over).
Proof.
  intros Hl Hs Hcs times Hsort Hin H0 Hmax Hv2 Hwrap.
  destruct (ring_calls_run cs d s (caches s) (stats s) eq_refl Hl Hs Hcs) as (tr & E & H3).
  rewrite upd_id in E. fold times in H3.
  eexists tr, _. split; [exact E|]. split; [exact H3|].
  destruct (stats64_get (stats s) CONN_RATE Hs) as [B1 B2]; [rewrite Hl; vm_compute; split; congruence|].
  assert (Lt : zlen times = zlen cs) by (unfold times, zlen; by rewrite length_fmap).
  assert (Hle : ∀ t, t ∈ times → v2 (getz (stats s) CONN_RATE) <= t).
  { intros t Ht. rewrite Forall_forall in Hin. specialize (Hin t Ht). lia. }
  split.
  - destruct (admitted_bound t0 times (getz (stats s) CONN_RATE)) as [_ Hb]; try done; try lia.
    unfold MAX_CONN_RATE in *. lia.
  - intros Hlim. apply count_false_all. rewrite zlen_over_limit. apply all_admitted; [|lia|lia].
    eapply Forall_impl; [exact Hin|]. cbn. intros. unfold ONE_SEC in *. lia.
Qed.
End claims.

(** ** Witnesses: one VIP, 256 reals, a ring of five of them *)
Definition katran_okb {VIPS LRU} (s : katran VIPS LRU) : bool :=
  (zlen (stats s) =? STATS_MAP_SIZE) && (zlen (reals_stats s) =? MAX_REALS) && (zlen (reals s) =? MAX_REALS) &&
  (zlen (ch_rings s) =? CH_RINGS_SIZE) && (zlen (quic_mapping s) =? MAX_REALS) &&
  (zlen (ctl_array s) =? CTL_MAP_SIZE) && (fallback_cache <? zlen (caches s)) &&
  forallb (λ m, match m with Some id => (0 <=? id) && (id <? zlen (caches s)) | None => true end) (lru_mapping s).

Lemma katran_okb_spec {VIPS LRU} (s : katran VIPS LRU) : katran_okb s = true → katran_ok s.
Proof.
  unfold katran_okb. intros H. repeat (apply andb_prop in H as [H ?]).
  rewrite ?Z.eqb_eq, ?Z.ltb_lt in *. split; try done.
  intros cpu id Hr. unfold rd in Hr. destruct (0 <=? cpu); [|done].
  destruct (lru_mapping s !! Z.to_nat cpu) as [o|] eqn:E; [|done]. injection Hr as ->.
  rewrite forallb_forall in *. apply list_elem_of_lookup_2, list_elem_of_In in E.
  match goal with H : ∀ x, In x _ → _ |- _ => apply H in E end. apply andb_prop in E as [? ?]. lia.
Qed.

Definition stats64b (st : list lb_stats) : bool :=
  forallb (λ x, (0 <=? v1 x) && (v1 x <? 2 ^ 64) && ((0 <=? v2 x) && (v2 x <? 2 ^ 64))) st.

Lemma stats64b_spec st : stats64b st = true → stats64 st.
Proof.
  unfold stats64b. rewrite forallb_forall. intros H. apply Forall_forall. intros x Hx%list_elem_of_In.
  apply H in Hx. apply andb_prop in Hx as [[? ?]%andb_prop [? ?]%andb_prop]. lia.
Qed.

Definition wit_katran : Type := katran (bpf_hash vip_definition vip_meta) (bpf_hash flow_key real_pos_lru).
Definition wit_maps (ring : list Z) : wit_katran :=
  mk_katran (mk_hash 32 {[ mk_vip (33554442, 0, 0, 0) 20480 6 := mk_meta 0 3 ]}) [Some 1; None]
    [mk_hash 10 ∅; mk_hash 10 ∅] ring ((λ i, mk_real (100 + i, 0, 0, 0) 0) <$> seqZ 0 256)
    (replicate 256 (mk_stats 0 0)) (replicate 64 (mk_stats 0 0)) (replicate 256 0)
    (replicate 16 6618611909121).
Definition wit_ring : list Z := (λ i, i mod 5) <$> seqZ 0 CH_RINGS_SIZE.

Lemma is_some_neq {A} (o : option A) : (if o then true else false) = true → o ≠ None.
Proof. by destruct o. Qed.

(** From 10.0.0.1 to 10.0.0.2, port 80, with the TCP [flags]. *)
Definition wit_frame (flags : Z) : list Z :=
  replicate 6 1 ++ replicate 6 2 ++ [8; 0; 69; 7; 0; 40; 0; 0; 0; 0; 60; 6; 0; 0; 10; 0; 0; 1; 10; 0; 0; 2] ++
  [4; 5; 0; 80] ++ replicate 9 0 ++ [flags] ++ replicate 6 0.
Definition wit_env : env := mk_env 0 5 2000000000.

(** The frame and the maps after a SYN. *)
Definition wit_next : list Z * wit_katran :=
  match balancer_ingress zero_room wit_env (wit_frame 2) (wit_maps wit_ring) with
  | Ok (_, data, s) => (data, s)
  | Err _ => ([], wit_maps wit_ring)
  end.

Lemma wit_ran :
  balancer_ingress zero_room wit_env (wit_frame 2) (wit_maps wit_ring) = Ok (XDP_TX, wit_next.1, wit_next.2).
Proof.
  assert (H : match balancer_ingress zero_room wit_env (wit_frame 2) (wit_maps wit_ring) with
    | Ok (a, _, _) => a =? XDP_TX | Err _ => false end = true) by (vm_compute; reflexivity).
  unfold wit_next. destruct (balancer_ingress _ _ _ _) as [[[a d] s]|]; [|done].
  by apply Z.eqb_eq in H as ->.
Qed.

(** Another ring, with the table from after the SYN. *)
Definition with_ring (s : wit_katran) (ring : list Z) : wit_katran :=
  mk_katran (vip_map s) (lru_mapping s) (caches s) ring (reals s) (reals_stats s) (stats s)
    (quic_mapping s) (ctl_array s).
Definition wit_later : wit_katran := with_ring wit_next.2 (replicate (Z.to_nat CH_RINGS_SIZE) 77).

Lemma caches_with_ring s ring : caches (with_ring s ring) = caches s.
Proof. reflexivity. Qed.

Definition wit_table (s : wit_katran) : bpf_hash flow_key real_pos_lru :=
  match rd (caches s) 1 with Ok c => c | Err _ => mk_hash 0 ∅ end.

Lemma wit_table_eq s t : rd (caches s) 1 = Ok t → wit_table s = t.
Proof. unfold wit_table. by intros ->. Qed.

Lemma wit_forwardable (s : wit_katran) data :
  katran_okb s && stats64b (stats s) && bytes_ok_b data && tcp4 data = true →
  vip_flags <$> (bpf_map_lookup_elem (vip_map s) (tcp4_vip data)) = Some 0 →
  rd (lru_mapping s) 0 = Ok (Some 1) → (1 <? zlen (caches s)) = true →
  chosen s (wit_table s) (tcp4_pckt data) = Some 2 → rd (reals s) 2 = Ok (mk_real (102, 0, 0, 0) 0) →
  rd (ctl_array s) 0 = Ok 6618611909121 →
  forwardable zero_room wit_env data s 0 1 2 (wit_table s) (mk_real (102, 0, 0, 0) 0) 6618611909121.
Proof.
  intros [[[H1 H2]%andb_prop H3]%andb_prop H4]%andb_prop H5 H6 H7 H8 H9 H10. split; try done.
  - by apply katran_okb_spec.
  - by apply stats64b_spec.
  - by apply bytes_ok_b_spec.
  - destruct (bpf_map_lookup_elem (vip_map s) (tcp4_vip data)) as [[f k]|]; [|done]. exists k. by injection H5 as ->.
  - unfold wit_table. destruct (rd (caches s) 1) eqn:E; [done|]. unfold rd in E. cbn in E.
    destruct (caches s !! Z.to_nat 1) eqn:E'; [done|]. apply lookup_ge_None in E'.
    apply Z.ltb_lt in H7. unfold zlen in H7. lia.
  - by eexists.
Qed.

Lemma wit_first : forwardable zero_room wit_env (wit_frame 2) (wit_maps wit_ring) 0 1 2
  (wit_table (wit_maps wit_ring)) (mk_real (102, 0, 0, 0) 0) 6618611909121.
Proof. apply wit_forwardable; vm_compute; reflexivity. Qed.

Lemma wit_second : forwardable zero_room wit_env (wit_frame 16) wit_later 0 1 2
  (wit_table wit_later) (mk_real (102, 0, 0, 0) 0) 6618611909121.
Proof. apply wit_forwardable; vm_compute; reflexivity. Qed.

Lemma katran_safe_witness :
  ∃ a data' s', balancer_ingress zero_room wit_env [1; 2; 3] (wit_maps wit_ring) = Ok (a, data', s') ∧
    katran_ok s' ∧ (a = XDP_DROP ∨ a = XDP_TX ∨ a = XDP_PASS ∧ data' = [1; 2; 3] ∧ s' = wit_maps wit_ring).
Proof. apply katran_safe. apply katran_okb_spec. vm_compute. reflexivity. Defined.

Lemma katran_forwards_witness :
  let s := wit_maps wit_ring in
  let kp := keyed 0 (tcp4_pckt (wit_frame 2)) in
  let miss := bool_decide (hit s (wit_table s) kp = None) in
  let syn := Z.testbit (getz (wit_frame 2) 47) 1 in
  ∃ ck id s', zlen id = 2 ∧
    let outer := outer_v4 (wit_frame 2) (ctl_mac 6618611909121) kp (102, 0, 0, 0) 40 ck id in
    balancer_ingress zero_room wit_env (wit_frame 2) s = Ok (XDP_TX, outer ++ drop 14 (wit_frame 2), s') ∧
    csum_ok (slice outer 14 20) ∧
    caches s' = <[Z.to_nat 1 := table_after s (wit_table s) kp 2000000000 2]> (caches s) ∧
    (∀ k, 0 <= k < STATS_MAP_SIZE →
       getz (stats s') k = counter_after miss syn 2000000000 40 k (getz (stats s) k)) ∧
    reals_stats s' = setz (reals_stats s) 2 (count_packet (getz (reals_stats s) 2) 40) ∧
    vip_map s' = bpf_map_store (vip_map s) (tcp4_vip (wit_frame 2)) (mk_meta 0 7) ∧
    bpf_map_lookup_elem (vip_map s') (tcp4_vip (wit_frame 2)) = Some (mk_meta 0 7) ∧
    s' = upd s (vip_map s') (caches s') (stats s') (reals_stats s') ∧
    RING_SIZE * 7 <= ring_pos kp < RING_SIZE * 8.
Proof. exact (katran_forwards zero_room wit_env (wit_frame 2) (wit_maps wit_ring) 0 1 2 _ _ _ wit_first). Defined.

Lemma katran_affinity_witness :
  2 = 2 ∧ ∃ out2 s2', balancer_ingress zero_room wit_env (wit_frame 16) wit_later = Ok (XDP_TX, out2, s2') ∧
    slice out2 30 4 = slice wit_next.1 30 4.
Proof.
  apply (katran_affinity zero_room wit_env wit_env (wit_frame 2) (wit_frame 16) (wit_maps wit_ring) wit_later
    wit_next.2 wit_next.1 0 1 1 2 2 _ _ _ _ _ _ wit_first wit_second).
  - vm_compute. reflexivity.
  - reflexivity.
  - vm_compute. reflexivity.
  - vm_compute. reflexivity.
  - apply is_some_neq. vm_compute. reflexivity.
  - apply wit_ran.
  - intros t Ht. rewrite (wit_table_eq wit_later t); [reflexivity|].
    unfold wit_later. by rewrite caches_with_ring.
Defined.

Definition wit_call : ring_call :=
  mk_call wit_env (tcp4_pckt (wit_frame 2)) (tcp4_vip (wit_frame 2)) false 1.
(** The VIP as [process_packet] leaves it. *)
Definition wit_numbered : wit_katran :=
  let s := wit_maps wit_ring in
  upd s (bpf_map_store (vip_map s) (tcp4_vip (wit_frame 2)) (mk_meta 0 7)) (caches s) (stats s) (reals_stats s).

Lemma katran_rate_bound_witness :
  ∃ tr over, ring_calls [wit_call; wit_call] ([], wit_numbered) = Ok tr ∧
    Forall3 (call_result wit_numbered) [wit_call; wit_call] over tr ∧
    count_false over <= 2 * MAX_CONN_RATE ∧
    (v1 (getz (stats wit_numbered) CONN_RATE) + 2 <= MAX_CONN_RATE → Forall (λ b, b = false) over).
Proof.
  apply (katran_rate_bound [wit_call; wit_call] [] wit_numbered 2000000000); try done.
  - apply stats64b_spec. vm_compute. reflexivity.
  - assert (Hok : call_ok wit_numbered wit_call).
    { split; [done|]. split; [vm_compute; split; congruence|]. exists 0. split; [vm_compute|]; reflexivity. }
    repeat constructor; apply Hok.
  - repeat constructor. cbn. lia.
  - repeat constructor; vm_compute; discriminate.
Defined.
