(* ===== verification/HealthCheck.v ===== *)
(** * Katran: the health checks

    The balancer's own host sends health checks to the real servers. The programs of
    this file run on the packets that leave: a packet with a mark is sent to the real
    server that its mark stands for, in a tunnel. Module [Kern] is
    [healthchecking_kern.c], which builds the headers of the tunnel itself with
    [healthchecking_helpers.h]; module [Ipip] is [healthchecking_ipip.c], which leaves
    that to a device of the kernel. *)

From S2P Require Import Prelude.
From S2P Require Import NfUtil.
From S2P Require Import Xdp.
From S2P Require Import Checksum.
From S2P Require Import KatranNet.
From S2P Require Import Katran.

(** ** Data *)
Definition HC_MAIN_INTF_POSITION : Z := 3.
Definition REDIRECT_EGRESS : Z := 0.
Definition HC_MAX_PACKET_SIZE : Z := 1474.
Definition GENERIC_STATS_INDEX : Z := 0.
Definition V6DADDR : Z := 1.
Definition HC_SRC_MAC_POS : Z := 0.
Definition HC_DST_MAC_POS : Z := 1.

(** The union of the addresses is the longer one; its first word is [daddr]. *)
Record hc_real_definition := mk_hc_real { v6daddr : in6; hc_flags : Z }.
Definition daddr (real : hc_real_definition) : Z := in6_word0 (v6daddr real).

Record hc_stats := mk_hc_stats {
  pckts_processed : Z; pckts_dropped : Z; pckts_skipped : Z; pckts_too_big : Z }.

(** The maps; the statistics are those of the processor that runs the program, and an
    address in [hc_pckt_macs] is a list of six bytes. *)
Record hc_maps (REALS : Type) := mk_hc {
  hc_ctrl_map : list Z; hc_reals_map : REALS; hc_pckt_srcs_map : list hc_real_definition;
  hc_pckt_macs : list (list Z); hc_stats_map : list hc_stats }.
Arguments mk_hc {REALS} _ _ _ _ _.
Arguments hc_ctrl_map {REALS} _.
Arguments hc_reals_map {REALS} _.
Arguments hc_pckt_srcs_map {REALS} _.
Arguments hc_pckt_macs {REALS} _.
Arguments hc_stats_map {REALS} _.

(** The fields of [struct __sk_buff] that the programs use: [skb_data] are the bytes from
    [data] to [data_end], which may be fewer than [skb_len]. *)
Record sk_buff := mk_skb { mark : Z; skb_len : Z; skb_data : list Z }.

(** What a program returns: [bpf_redirect] gives the last one. *)
Inductive tc_action := TC_ACT_UNSPEC | TC_ACT_SHOT | TC_ACT_REDIRECT (ifindex flags : Z).

(** The statements [prog_stats->field += 1]. *)
Definition add_processed (s : hc_stats) : hc_stats :=
  mk_hc_stats (u64 (pckts_processed s + 1)) (pckts_dropped s) (pckts_skipped s) (pckts_too_big s).
Definition add_dropped (s : hc_stats) : hc_stats :=
  mk_hc_stats (pckts_processed s) (u64 (pckts_dropped s + 1)) (pckts_skipped s) (pckts_too_big s).
Definition add_skipped (s : hc_stats) : hc_stats :=
  mk_hc_stats (pckts_processed s) (pckts_dropped s) (u64 (pckts_skipped s + 1)) (pckts_too_big s).
Definition add_too_big (s : hc_stats) : hc_stats :=
  mk_hc_stats (pckts_processed s) (pckts_dropped s) (pckts_skipped s) (u64 (pckts_too_big s + 1)).

Section count.
Context {REALS : Type}.

(** A statement of this kind, through the pointer that the lookup gave. *)
Definition count (add : hc_stats → hc_stats) (hc : hc_maps REALS) : res (hc_maps REALS) :=
  s ← rd (hc_stats_map hc) GENERIC_STATS_INDEX;
  m ← wr (hc_stats_map hc) GENERIC_STATS_INDEX (add s);
  Ok (mk_hc (hc_ctrl_map hc) (hc_reals_map hc) (hc_pckt_srcs_map hc) (hc_pckt_macs hc) m).
End count.

(** ** [healthchecking_kern.c] *)
Module Kern.

Definition BPF_ADJ_ROOM_MAC : Z := 1.
Definition BPF_F_ADJ_ROOM_FIXED_GSO : Z := 1.
Definition BPF_F_ADJ_ROOM_ENCAP_L3_IPV4 : Z := 2.
Definition BPF_F_ADJ_ROOM_ENCAP_L3_IPV6 : Z := 4.
Definition BPF_F_ADJ_ROOM_ENCAP_L4_UDP : Z := 16.

Section program.
Context {REALS : Type} `{!BpfMap Z hc_real_definition REALS}.

(** The helper of the kernel gives the bytes with the room, or fails. *)
Variable bpf_skb_adjust_room : list Z → Z → Z → Z → option (list Z).
Implicit Types (skb : sk_buff) (hc : hc_maps REALS) (real : hc_real_definition).

Definition adjust_room skb (len_diff mode flags : Z) : option sk_buff :=
  match bpf_skb_adjust_room (skb_data skb) len_diff mode flags with
  | Some data => Some (mk_skb (mark skb) (skb_len skb + len_diff) data)
  | None => None
  end.

Definition with_data skb (data : list Z) : sk_buff := mk_skb (mark skb) (skb_len skb) data.

(** For an IPv4 real the type of the Ethernet header stays that of the packet. *)
Definition hc_encap_ipip skb hc real (is_ipv6 : bool) : res (bool * sk_buff) :=
  let flags := 0 in
  let pkt_len := u16 (skb_len skb - SIZEOF_ETHER_HDR) in
  if hc_flags real =? V6DADDR then
    let proto := IPPROTO_IPV6 in
    match bpf_map_lookup_elem (hc_pckt_srcs_map hc) V6_SRC_INDEX with
    | None => Ok (false, skb)
    | Some src =>
        let flags := Z.lor flags (Z.lor BPF_F_ADJ_ROOM_FIXED_GSO BPF_F_ADJ_ROOM_ENCAP_L3_IPV6) in
        match adjust_room skb SIZEOF_IPV6HDR BPF_ADJ_ROOM_MAC flags with
        | None => Ok (false, skb)
        | Some skb =>
            if zlen (skb_data skb) <? SIZEOF_ETHER_HDR + SIZEOF_IPV6HDR then Ok (false, skb)
            else
              data ← st16 (skb_data skb) ETHER_TYPE ETH_P_IPV6_BE;
              let ip6h := SIZEOF_ETHER_HDR in
              let proto := if negb is_ipv6 then IPPROTO_IPIP else proto in
              data ← create_v6_hdr data ip6h DEFAULT_TOS (v6daddr src) (v6daddr real) pkt_len proto;
              Ok (true, with_data skb data)
        end
    end
  else
    match bpf_map_lookup_elem (hc_pckt_srcs_map hc) V4_SRC_INDEX with
    | None => Ok (false, skb)
    | Some src =>
        let flags := Z.lor flags (Z.lor BPF_F_ADJ_ROOM_FIXED_GSO BPF_F_ADJ_ROOM_ENCAP_L3_IPV4) in
        match adjust_room skb SIZEOF_IPV4_HDR BPF_ADJ_ROOM_MAC flags with
        | None => Ok (false, skb)
        | Some skb =>
            if zlen (skb_data skb) <? SIZEOF_ETHER_HDR + SIZEOF_IPV4_HDR then Ok (false, skb)
            else
              let iph := SIZEOF_ETHER_HDR in
              data ← create_v4_hdr (skb_data skb) iph DEFAULT_TOS (daddr src) (daddr real) pkt_len IPPROTO_IPIP;
              Ok (true, with_data skb data)
        end
    end.

Definition gue_sport (seed : Z) : Z := u16 (Z.land (Z.lxor seed (Z.shiftr seed 16)) 65535).

Definition hc_encap_gue skb hc real (is_ipv6 : bool) : res (bool * sk_buff) :=
  let flags := 0 in
  let pkt_len := u16 (skb_len skb - SIZEOF_ETHER_HDR) in
  if hc_flags real =? V6DADDR then
    let sport := gue_sport (Z.lor (in6_word0 (v6daddr real)) (in6_word3 (v6daddr real))) in
    match bpf_map_lookup_elem (hc_pckt_srcs_map hc) V6_SRC_INDEX with
    | None => Ok (false, skb)
    | Some src =>
        let flags := Z.lor flags (Z.lor (Z.lor BPF_F_ADJ_ROOM_FIXED_GSO BPF_F_ADJ_ROOM_ENCAP_L3_IPV6)
                                    BPF_F_ADJ_ROOM_ENCAP_L4_UDP) in
        match adjust_room skb (SIZEOF_IPV6HDR + SIZEOF_UDPHDR) BPF_ADJ_ROOM_MAC flags with
        | None => Ok (false, skb)
        | Some skb =>
            if zlen (skb_data skb) <? SIZEOF_ETHER_HDR + SIZEOF_IPV6HDR + SIZEOF_UDPHDR
            then Ok (false, skb)
            else
              data ← st16 (skb_data skb) ETHER_TYPE ETH_P_IPV6_BE;
              let ip6h := SIZEOF_ETHER_HDR in
              let udph := ip6h + SIZEOF_IPV6HDR in
              let pkt_len := u16 (pkt_len + SIZEOF_UDPHDR) in
              data ← create_udp_hdr data udph sport GUE_DPORT pkt_len 0;
              data ← create_v6_hdr data ip6h DEFAULT_TOS (v6daddr src) (v6daddr real) pkt_len IPPROTO_UDP;
              Ok (true, with_data skb data)
        end
    end
  else
    let sport := gue_sport (daddr real) in
    match bpf_map_lookup_elem (hc_pckt_srcs_map hc) V4_SRC_INDEX with
    | None => Ok (false, skb)
    | Some src =>
        let flags := Z.lor flags (Z.lor (Z.lor BPF_F_ADJ_ROOM_FIXED_GSO BPF_F_ADJ_ROOM_ENCAP_L3_IPV4)
                                    BPF_F_ADJ_ROOM_ENCAP_L4_UDP) in
        match adjust_room skb (SIZEOF_IPV4_HDR + SIZEOF_UDPHDR) BPF_ADJ_ROOM_MAC flags with
        | None => Ok (false, skb)
        | Some skb =>
            if zlen (skb_data skb) <? SIZEOF_ETHER_HDR + SIZEOF_IPV4_HDR + SIZEOF_UDPHDR
            then Ok (false, skb)
            else
              let iph := SIZEOF_ETHER_HDR in
              let udph := iph + SIZEOF_IPV4_HDR in
              let pkt_len := u16 (pkt_len + SIZEOF_UDPHDR) in
              data ← create_udp_hdr (skb_data skb) udph sport GUE_DPORT pkt_len 0;
              data ← create_v4_hdr data iph DEFAULT_TOS (daddr src) (daddr real) pkt_len IPPROTO_UDP;
              Ok (true, with_data skb data)
        end
    end.

(** [HC_ENCAP] is one of the two, as the program is compiled. *)
Definition healthchecker (HC_ENCAP : sk_buff → hc_maps REALS → hc_real_definition → bool → res (bool * sk_buff))
    skb hc : res (tc_action * sk_buff * hc_maps REALS) :=
  let drop hc := hc ← count add_dropped hc; Ok (TC_ACT_SHOT, skb, hc) in
  let skip hc := hc ← count add_skipped hc; Ok (TC_ACT_UNSPEC, skb, hc) in
  let somark := mark skb in
  match bpf_map_lookup_elem (hc_stats_map hc) GENERIC_STATS_INDEX with
  | None => Ok (TC_ACT_UNSPEC, skb, hc)
  | Some _ =>
      if somark =? 0 then skip hc
      else
        match bpf_map_lookup_elem (hc_reals_map hc) somark with
        | None => skip hc
        | Some real =>
            if HC_MAX_PACKET_SIZE <? skb_len skb then
              hc ← count add_dropped hc; hc ← count add_too_big hc; Ok (TC_ACT_SHOT, skb, hc)
            else
              match bpf_map_lookup_elem (hc_ctrl_map hc) HC_MAIN_INTF_POSITION,
                    bpf_map_lookup_elem (hc_pckt_macs hc) HC_SRC_MAC_POS,
                    bpf_map_lookup_elem (hc_pckt_macs hc) HC_DST_MAC_POS with
              | Some intf_ifindex, Some esrc, Some edst =>
                  if zlen (skb_data skb) <? SIZEOF_ETHER_HDR then drop hc
                  else
                    h_proto ← ld16 (skb_data skb) ETHER_TYPE;
                    let is_ipv6 := h_proto =? ETH_P_IPV6_BE in
                    let skb := mk_skb 0 (skb_len skb) (skb_data skb) in
                    '(ok, skb) ← HC_ENCAP skb hc real is_ipv6;
                    if negb ok then hc ← count add_dropped hc; Ok (TC_ACT_SHOT, skb, hc)
                    else if zlen (skb_data skb) <? SIZEOF_ETHER_HDR then
                      hc ← count add_dropped hc; Ok (TC_ACT_SHOT, skb, hc)
                    else
                      data ← st_bytes (skb_data skb) ETHER_S_ADDR esrc;
                      data ← st_bytes data ETHER_D_ADDR edst;
                      hc ← count add_processed hc;
                      Ok (TC_ACT_REDIRECT intf_ifindex REDIRECT_EGRESS, with_data skb data, hc)
              | _, _, _ => drop hc
              end
        end
  end.
End program.
End Kern.

(** ** [healthchecking_ipip.c] *)
Module Ipip.

(** [struct bpf_tunnel_key]: the fields that the program sets, the others are zero. *)
Record tunnel_key := mk_tkey { remote : in6; tunnel_ttl : Z }.

(** The values [v4_intf_pos] and [v6_intf_pos]. *)
Definition v4_intf_pos : Z := 1.
Definition v6_intf_pos : Z := 2.
Definition BPF_F_TUNINFO_IPV6 : Z := 1.
Definition MAX_PACKET_SIZE : Z := 1474.

Section program.
Context {REALS : Type} `{!BpfMap Z hc_real_definition REALS}.
Implicit Types (skb : sk_buff) (hc : hc_maps REALS).

(** The third result is the call of [bpf_skb_set_tunnel_key] with its flags, if the
    program makes one; it does not look at what the helper returns. *)
Definition healthchecker skb hc : res (tc_action * sk_buff * option (tunnel_key * Z) * hc_maps REALS) :=
  let drop hc := hc ← count add_dropped hc; Ok (TC_ACT_SHOT, skb, None, hc) in
  let skip hc := hc ← count add_skipped hc; Ok (TC_ACT_UNSPEC, skb, None, hc) in
  let somark := mark skb in
  match bpf_map_lookup_elem (hc_stats_map hc) GENERIC_STATS_INDEX with
  | None => Ok (TC_ACT_UNSPEC, skb, None, hc)
  | Some _ =>
      if mark skb =? 0 then skip hc
      else
        match bpf_map_lookup_elem (hc_reals_map hc) somark with
        | None => skip hc
        | Some real =>
            if MAX_PACKET_SIZE <? skb_len skb then
              hc ← count add_dropped hc; hc ← count add_too_big hc; Ok (TC_ACT_SHOT, skb, None, hc)
            else
              match bpf_map_lookup_elem (hc_ctrl_map hc) v4_intf_pos with
              | None => drop hc
              | Some v4_intf_ifindex =>
                  match bpf_map_lookup_elem (hc_ctrl_map hc) v6_intf_pos with
                  | None => drop hc
                  | Some v6_intf_ifindex =>
                      let skb := mk_skb 0 (skb_len skb) (skb_data skb) in
                      let '(tun_flag, tkey, ifindex) :=
                        if hc_flags real =? V6DADDR
                        then (BPF_F_TUNINFO_IPV6, mk_tkey (v6daddr real) DEFAULT_TTL, v6_intf_ifindex)
                        else (0, mk_tkey (in6_set0 in6_zero (daddr real)) DEFAULT_TTL, v4_intf_ifindex) in
                      hc ← count add_processed hc;
                      Ok (TC_ACT_REDIRECT ifindex REDIRECT_EGRESS, skb, Some (tkey, tun_flag), hc)
                  end
              end
        end
  end.
End program.
End Ipip.

(** ** Counting *)
Section counting.
Context {REALS : Type}.
Implicit Types (hc : hc_maps REALS) (s : hc_stats).

Definition with_stats hc s : hc_maps REALS :=
  mk_hc (hc_ctrl_map hc) (hc_reals_map hc) (hc_pckt_srcs_map hc) (hc_pckt_macs hc) [s].

(** What a packet adds to the statistics. *)
Definition tally (action : tc_action) (too_big : bool) s : hc_stats :=
  match action with
  | TC_ACT_UNSPEC => add_skipped s
  | TC_ACT_SHOT => if too_big then add_too_big (add_dropped s) else add_dropped s
  | TC_ACT_REDIRECT _ _ => add_processed s
  end.

Lemma count_ok add hc s : hc_stats_map hc = [s] → count add hc = Ok (with_stats hc (add s)).
Proof. intros E. unfold count. by rewrite E. Qed.

Lemma lookup_stats_one hc s :
  hc_stats_map hc = [s] → bpf_map_lookup_elem (hc_stats_map hc) GENERIC_STATS_INDEX = Some s.
Proof. by intros ->. Qed.
End counting.

(** ** [healthchecking_kern.c]: every packet is counted once *)
Section kern_total.
Context {REALS : Type} `{!BpfMap Z hc_real_definition REALS}.
Variable bpf_skb_adjust_room : list Z → Z → Z → Z → option (list Z).
Implicit Types (skb : sk_buff) (hc : hc_maps REALS) (real : hc_real_definition) (s : hc_stats).

(** Ends without an access outside of the packet, and leaves the mark. *)
Definition encap_total (enc : sk_buff → hc_maps REALS → hc_real_definition → bool → res (bool * sk_buff)) : Prop :=
  ∀ skb hc real is_ipv6, ∃ ok skb', enc skb hc real is_ipv6 = Ok (ok, skb') ∧ mark skb' = mark skb.

Lemma adjust_room_mark skb n mode flags skb' :
  Kern.adjust_room bpf_skb_adjust_room skb n mode flags = Some skb' → mark skb' = mark skb.
Proof. unfold Kern.adjust_room. destruct (bpf_skb_adjust_room _ _ _ _); [|done]. by intros [= <-]. Qed.

(** The part that the four cases of the encapsulation share. *)
Lemma grown_total skb n mode flags m (k : sk_buff → res (bool * sk_buff)) :
  (∀ skb', mark skb' = mark skb → m <= zlen (skb_data skb') →
     ∃ ok skb'', k skb' = Ok (ok, skb'') ∧ mark skb'' = mark skb) →
  ∃ ok skb', match Kern.adjust_room bpf_skb_adjust_room skb n mode flags with
             | None => Ok (false, skb)
             | Some skb => if zlen (skb_data skb) <? m then Ok (false, skb) else k skb
             end = Ok (ok, skb') ∧ mark skb' = mark skb.
Proof.
  intros Hk. destruct (Kern.adjust_room _ _ _ _ _) as [skb1|] eqn:E; [|by exists false, skb].
  pose proof (adjust_room_mark _ _ _ _ _ E) as Hm.
  destruct (Z.ltb_spec (zlen (skb_data skb1)) m); [by exists false, skb1|]. by apply Hk.
Qed.

Lemma st_eth_type_total (b : list Z) v : 14 <= zlen b → ∃ b', st16 b ETHER_TYPE v = Ok b' ∧ zlen b' = zlen b.
Proof. intros. apply st16_total; unfold ETHER_TYPE; lia. Qed.

Lemma ipip_total : encap_total (Kern.hc_encap_ipip bpf_skb_adjust_room).
Proof.
  intros skb hc real is_ipv6. unfold Kern.hc_encap_ipip. cbv zeta.
  destruct (hc_flags real =? V6DADDR); destruct (bpf_map_lookup_elem _ _) as [src|]; try by exists false, skb.
  - apply grown_total. intros skb1 Hm Hl. unfold SIZEOF_ETHER_HDR, SIZEOF_IPV6HDR in *.
    destruct (st_eth_type_total (skb_data skb1) ETH_P_IPV6_BE) as (d & -> & Ld); [lia|]. rewrite bind_Ok.
    match goal with |- context [create_v6_hdr d 14 ?t ?x ?a ?p ?q] =>
      destruct (create_v6_hdr_total d t x a p q) as (d2 & ->); [lia|] end.
    rewrite bind_Ok. by exists true, (Kern.with_data skb1 d2).
  - apply grown_total. intros skb1 Hm Hl. unfold SIZEOF_ETHER_HDR, SIZEOF_IPV4_HDR in *.
    match goal with |- context [create_v4_hdr ?d 14 ?t ?x ?a ?p ?q] =>
      destruct (create_v4_hdr_total d t x a p q) as (d2 & ->); [lia|] end.
    rewrite bind_Ok. by exists true, (Kern.with_data skb1 d2).
Qed.

Lemma gue_total : encap_total (Kern.hc_encap_gue bpf_skb_adjust_room).
Proof.
  intros skb hc real is_ipv6. unfold Kern.hc_encap_gue. cbv zeta.
  destruct (hc_flags real =? V6DADDR); destruct (bpf_map_lookup_elem _ _) as [src|]; try by exists false, skb.
  - apply grown_total. intros skb1 Hm Hl. unfold SIZEOF_ETHER_HDR, SIZEOF_IPV6HDR, SIZEOF_UDPHDR in *.
    destruct (st_eth_type_total (skb_data skb1) ETH_P_IPV6_BE) as (d & -> & Ld); [lia|]. rewrite bind_Ok.
    match goal with |- context [create_udp_hdr d ?u ?p ?q ?n ?c] =>
      destruct (create_udp_hdr_total d u p q n c) as (d1 & -> & L1); [lia..|] end. rewrite bind_Ok.
    match goal with |- context [create_v6_hdr d1 14 ?t ?x ?a ?p ?q] =>
      destruct (create_v6_hdr_total d1 t x a p q) as (d2 & ->); [lia|] end.
    rewrite bind_Ok. by exists true, (Kern.with_data skb1 d2).
  - apply grown_total. intros skb1 Hm Hl. unfold SIZEOF_ETHER_HDR, SIZEOF_IPV4_HDR, SIZEOF_UDPHDR in *.
    match goal with |- context [create_udp_hdr ?d ?u ?p ?q ?n ?c] =>
      destruct (create_udp_hdr_total d u p q n c) as (d1 & -> & L1); [lia..|] end. rewrite bind_Ok.
    match goal with |- context [create_v4_hdr ?d 14 ?t ?x ?a ?p ?q] =>
      destruct (create_v4_hdr_total d t x a p q) as (d2 & ->); [lia|] end.
    rewrite bind_Ok. by exists true, (Kern.with_data skb1 d2).
Qed.

(** A packet without a mark, or with one that stands for no real server. *)
Definition no_check skb hc : Prop :=
  mark skb = 0 ∨ bpf_map_lookup_elem (hc_reals_map hc) (mark skb) = None.

Lemma kern_counts enc skb hc s :
  encap_total enc → hc_stats_map hc = [s] → Forall (λ m, zlen m = 6) (hc_pckt_macs hc) →
  ∃ action skb', Kern.healthchecker enc skb hc =
      Ok (action, skb', with_stats hc (tally action (HC_MAX_PACKET_SIZE <? skb_len skb) s)) ∧
    (action = TC_ACT_UNSPEC ↔ no_check skb hc) ∧
    (action = TC_ACT_UNSPEC → skb' = skb) ∧
    (∀ ifindex flags, action = TC_ACT_REDIRECT ifindex flags → mark skb' = 0).
Proof.
  intros He Es Hm. unfold Kern.healthchecker. cbv zeta. rewrite (lookup_stats_one hc s Es).
  unfold no_check. destruct (Z.eqb_spec (mark skb) 0) as [E0|E0].
  { rewrite (count_ok add_skipped hc s Es), bind_Ok. exists TC_ACT_UNSPEC, skb. split; [done|]. naive_solver. }
  destruct (bpf_map_lookup_elem (hc_reals_map hc) (mark skb)) as [real|].
  2:{ rewrite (count_ok add_skipped hc s Es), bind_Ok. exists TC_ACT_UNSPEC, skb. split; [done|]. naive_solver. }
  destruct (HC_MAX_PACKET_SIZE <? skb_len skb) eqn:Eb.
  { rewrite (count_ok add_dropped hc s Es), bind_Ok.
    rewrite (count_ok add_too_big (with_stats hc (add_dropped s)) (add_dropped s) eq_refl), bind_Ok.
    exists TC_ACT_SHOT, skb. split; [done|]. naive_solver. }
  assert (Hdrop : ∀ skb', ∃ action skb'',
    (hc0 ← count add_dropped hc; Ok (TC_ACT_SHOT, skb', hc0)) = Ok (action, skb'', with_stats hc (tally action false s)) ∧
    (action = TC_ACT_UNSPEC ↔ mark skb = 0 ∨ Some real = None) ∧
    (action = TC_ACT_UNSPEC → skb'' = skb) ∧
    (∀ ifindex flags, action = TC_ACT_REDIRECT ifindex flags → mark skb'' = 0)).
  { intros skb'. rewrite (count_ok add_dropped hc s Es), bind_Ok. exists TC_ACT_SHOT, skb'. split; [done|].
    naive_solver. }
  destruct (bpf_map_lookup_elem (hc_ctrl_map hc) _) as [intf|]; [|apply Hdrop].
  destruct (bpf_map_lookup_elem (hc_pckt_macs hc) HC_SRC_MAC_POS) as [esrc|] eqn:E1; [|apply Hdrop].
  destruct (bpf_map_lookup_elem (hc_pckt_macs hc) HC_DST_MAC_POS) as [edst|] eqn:E2; [|apply Hdrop].
  unfold SIZEOF_ETHER_HDR. destruct (Z.ltb_spec (zlen (skb_data skb)) 14); [apply Hdrop|].
  rewrite ld16_ok by (unfold ETHER_TYPE; lia). rewrite bind_Ok.
  match goal with |- context [enc ?x hc real ?b] => destruct (He x hc real b) as (ok & skb1 & -> & Hk) end.
  rewrite bind_Ok. destruct ok; cbn [negb]; [|apply Hdrop].
  destruct (Z.ltb_spec (zlen (skb_data skb1)) 14); [apply Hdrop|].
  assert (Hmac : ∀ i m, bpf_map_lookup_elem (hc_pckt_macs hc) i = Some m → zlen m = 6).
  { intros i m E. cbn in E. unfold rd in E. destruct (0 <=? i); [|done].
    destruct (hc_pckt_macs hc !! Z.to_nat i) eqn:El; [|done]. injection E as ->.
    rewrite Forall_forall in Hm. apply Hm. by apply list_elem_of_lookup_2 in El. }
  apply Hmac in E1. apply Hmac in E2. unfold ETHER_S_ADDR, ETHER_D_ADDR. do 2 access.
  rewrite (count_ok add_processed hc s Es), bind_Ok.
  exists (TC_ACT_REDIRECT intf REDIRECT_EGRESS), (Kern.with_data skb1 b0). split; [done|]. naive_solver.
Qed.
End kern_total.

(** ** [healthchecking_kern.c]: what is sent *)
(** What the kernel does for [BPF_ADJ_ROOM_MAC]: the room is behind the Ethernet header. *)
Class AdjustRoom (bpf_skb_adjust_room : list Z → Z → Z → Z → option (list Z)) :=
  adjust_room_grows data n flags d :
    0 < n → 14 <= zlen data → bpf_skb_adjust_room data n Kern.BPF_ADJ_ROOM_MAC flags = Some d →
    ∃ room, zlen room = n ∧ bytes_ok room ∧ d = take 14 data ++ room ++ drop 14 data.

Definition is_v6 (real : hc_real_definition) : bool := hc_flags real =? V6DADDR.

(** The headers between the Ethernet header and the packet: for IPv4 [ck] is the checksum
    and [id] the identification, which the program does not set. *)
Definition ipip_headers (src real : hc_real_definition) (is_ipv6 : bool) (len ck : Z) (id : list Z) : list Z :=
  let pkt_len := u16 (len - SIZEOF_ETHER_HDR) in
  if is_v6 real
  then v6_header 0 (v6daddr src) (v6daddr real) pkt_len (if is_ipv6 then IPPROTO_IPV6 else IPPROTO_IPIP)
  else v4_header 0 (daddr src) (daddr real) pkt_len IPPROTO_IPIP ck id.

Definition gue_headers (src real : hc_real_definition) (len ck : Z) (id : list Z) : list Z :=
  let pkt_len := u16 (u16 (len - SIZEOF_ETHER_HDR) + SIZEOF_UDPHDR) in
  if is_v6 real
  then v6_header 0 (v6daddr src) (v6daddr real) pkt_len IPPROTO_UDP ++
       udp_header (Kern.gue_sport (Z.lor (in6_word0 (v6daddr real)) (in6_word3 (v6daddr real)))) GUE_DPORT pkt_len
  else v4_header 0 (daddr src) (daddr real) pkt_len IPPROTO_UDP ck id ++
       udp_header (Kern.gue_sport (daddr real)) GUE_DPORT pkt_len.

(** The type in the Ethernet header that is sent. *)
Definition sent_type (real : hc_real_definition) (data : list Z) : list Z :=
  if is_v6 real then bytes16 ETH_P_IPV6_BE else slice data 12 2.

Lemma take_14 (data : list Z) : 14 <= zlen data → take 14 data = take 12 data ++ slice data 12 2.
Proof.
  intros Hl. unfold slice. change (Z.to_nat 12) with 12%nat. change (Z.to_nat 2) with 2%nat.
  rewrite take_take_drop. done.
Qed.

Section kern_sends.
Context {REALS : Type} `{!BpfMap Z hc_real_definition REALS}.
Context (bpf_skb_adjust_room : list Z → Z → Z → Z → option (list Z)) `{!AdjustRoom bpf_skb_adjust_room}.
Implicit Types (skb : sk_buff) (hc : hc_maps REALS) (real src : hc_real_definition) (s : hc_stats)
  (data : list Z).

(** The type of the Ethernet header, at a fixed place of the frame. *)
Lemma set_type data rest v :
  14 <= zlen data →
  st16 (take 14 data ++ rest) ETHER_TYPE v = Ok ((take 12 data ++ bytes16 v) ++ rest).
Proof.
  intros Hl. rewrite take_14 by done. rewrite st16_bytes, <- !app_assoc.
  apply st_bytes_piece.
  - unfold ETHER_TYPE, zlen in *. rewrite length_take. lia.
  - pose proof (zlen_slice data 12 2). unfold zlen in *. change (length (bytes16 v)) with 2%nat. lia.
Qed.

(** One line of the encapsulation, for each of the two protocols outside. *)
Lemma v4_outside data room (rest : list Z) src real n proto :
  14 <= zlen data → zlen room = 20 → bytes_ok data → bytes_ok room → bytes_ok rest →
  ∃ ck id, zlen id = 2 ∧ csum_ok (v4_header 0 (daddr src) (daddr real) n proto ck id) ∧
    create_v4_hdr (take 14 data ++ room ++ rest) 14 DEFAULT_TOS (daddr src) (daddr real) n proto =
      Ok (take 14 data ++ v4_header 0 (daddr src) (daddr real) n proto ck id ++ rest).
Proof.
  intros Hl Lr Bd Br Bt.
  destruct (create_v4_hdr_spec (take 14 data) room rest DEFAULT_TOS (daddr src) (daddr real) n proto)
    as (ck & _ & Hok & E); [|done|by apply Forall_take|done|done|].
  { unfold zlen in *. rewrite length_take. lia. }
  exists ck, (slice room 4 2). split; [by rewrite zlen_slice by lia|]. by split.
Qed.

Lemma v6_outside data room (rest : list Z) src real n proto :
  14 <= zlen data → zlen room = 40 →
  create_v6_hdr ((take 12 data ++ bytes16 ETH_P_IPV6_BE) ++ room ++ rest) 14 DEFAULT_TOS
    (v6daddr src) (v6daddr real) n proto =
    Ok ((take 12 data ++ bytes16 ETH_P_IPV6_BE) ++ v6_header 0 (v6daddr src) (v6daddr real) n proto ++ rest).
Proof.
  intros Hl Lr. apply create_v6_hdr_spec; [|done|unfold DEFAULT_TOS; lia].
  rewrite zlen_app. change (zlen (bytes16 ETH_P_IPV6_BE)) with 2. unfold zlen in *. rewrite length_take. lia.
Qed.

(** What an encapsulation does when it succeeds: it puts [hdr] between the Ethernet
    header, the type of which may change, and the packet. *)
Definition encapsulates (enc : sk_buff → hc_maps REALS → hc_real_definition → bool → res (bool * sk_buff))
    skb hc real (is_ipv6 : bool) (hdr : list Z) : Prop :=
  enc skb hc real is_ipv6 =
    Ok (true, mk_skb (mark skb) (skb_len skb + zlen hdr)
                (take 12 (skb_data skb) ++ sent_type real (skb_data skb) ++ hdr ++ drop 14 (skb_data skb))).

Lemma ipip_encapsulates skb hc real src is_ipv6 :
  14 <= zlen (skb_data skb) → bytes_ok (skb_data skb) →
  bpf_map_lookup_elem (hc_pckt_srcs_map hc) (if is_v6 real then V6_SRC_INDEX else V4_SRC_INDEX) = Some src →
  (∀ n flags, bpf_skb_adjust_room (skb_data skb) n Kern.BPF_ADJ_ROOM_MAC flags ≠ None) →
  ∃ ck id, zlen id = 2 ∧
    (is_v6 real = false → csum_ok (ipip_headers src real is_ipv6 (skb_len skb) ck id)) ∧
    encapsulates (Kern.hc_encap_ipip bpf_skb_adjust_room) skb hc real is_ipv6
      (ipip_headers src real is_ipv6 (skb_len skb) ck id).
Proof.
  destruct skb as [mk len data]. cbn [mark skb_len skb_data]. intros Hl Bd Es Hadj.
  unfold encapsulates, Kern.hc_encap_ipip, Kern.adjust_room, ipip_headers, sent_type. cbv zeta.
  cbn [mark skb_len skb_data]. fold (is_v6 real). set (pkt_len := u16 (len - SIZEOF_ETHER_HDR)).
  destruct (is_v6 real) eqn:Ev; rewrite Es.
  - destruct (bpf_skb_adjust_room data SIZEOF_IPV6HDR _ _) as [d|] eqn:Ea; [|by apply Hadj in Ea].
    destruct (adjust_room_grows data SIZEOF_IPV6HDR _ d eq_refl Hl Ea) as (room & Lr & Br & ->).
    unfold SIZEOF_IPV6HDR in Lr. cbn [mark skb_len skb_data].
    destruct (split_at 14 data) as (_ & L14 & Ld); [lia|].
    rewrite (proj2 (Z.ltb_ge _ _)) by (rewrite !zlen_app; unfold SIZEOF_ETHER_HDR, SIZEOF_IPV6HDR; lia).
    rewrite set_type, bind_Ok by done. unfold SIZEOF_ETHER_HDR. rewrite v6_outside, bind_Ok by done.
    exists 0, [0; 0]. split; [done|]. split; [done|]. unfold Kern.with_data. cbn [mark skb_len].
    rewrite zlen_v6_header, <- !app_assoc. by destruct is_ipv6.
  - destruct (bpf_skb_adjust_room data SIZEOF_IPV4_HDR _ _) as [d|] eqn:Ea; [|by apply Hadj in Ea].
    destruct (adjust_room_grows data SIZEOF_IPV4_HDR _ d eq_refl Hl Ea) as (room & Lr & Br & ->).
    unfold SIZEOF_IPV4_HDR in Lr. cbn [mark skb_len skb_data].
    destruct (split_at 14 data) as (_ & L14 & Ld); [lia|].
    rewrite (proj2 (Z.ltb_ge _ _)) by (rewrite !zlen_app; unfold SIZEOF_ETHER_HDR, SIZEOF_IPV4_HDR; lia).
    unfold SIZEOF_ETHER_HDR.
    destruct (v4_outside data room (drop 14 data) src real pkt_len IPPROTO_IPIP) as (ck & id & Li & Hok & ->);
      [done..|by apply Forall_drop|]. rewrite bind_Ok.
    exists ck, id. split; [done|]. split; [done|]. unfold Kern.with_data. cbn [mark skb_len].
    rewrite zlen_v4_header by done. rewrite take_14 by done. by rewrite <- !app_assoc.
Qed.

Lemma gue_encapsulates skb hc real src is_ipv6 :
  14 <= zlen (skb_data skb) → bytes_ok (skb_data skb) →
  bpf_map_lookup_elem (hc_pckt_srcs_map hc) (if is_v6 real then V6_SRC_INDEX else V4_SRC_INDEX) = Some src →
  (∀ n flags, bpf_skb_adjust_room (skb_data skb) n Kern.BPF_ADJ_ROOM_MAC flags ≠ None) →
  ∃ ck id, zlen id = 2 ∧
    (is_v6 real = false → csum_ok (take 20 (gue_headers src real (skb_len skb) ck id))) ∧
    encapsulates (Kern.hc_encap_gue bpf_skb_adjust_room) skb hc real is_ipv6
      (gue_headers src real (skb_len skb) ck id).
Proof.
  destruct skb as [mk len data]. cbn [mark skb_len skb_data]. intros Hl Bd Es Hadj.
  unfold encapsulates, Kern.hc_encap_gue, Kern.adjust_room, gue_headers, sent_type. cbv zeta.
  cbn [mark skb_len skb_data]. fold (is_v6 real). set (pkt_len := u16 (u16 (len - SIZEOF_ETHER_HDR) + _)).
  destruct (is_v6 real) eqn:Ev; rewrite Es.
  - destruct (bpf_skb_adjust_room data (SIZEOF_IPV6HDR + SIZEOF_UDPHDR) _ _) as [d|] eqn:Ea; [|by apply Hadj in Ea].
    destruct (adjust_room_grows data (SIZEOF_IPV6HDR + SIZEOF_UDPHDR) _ d eq_refl Hl Ea) as (room & Lr & Br & ->).
    unfold SIZEOF_IPV6HDR, SIZEOF_UDPHDR in Lr. cbn [mark skb_len skb_data].
    destruct (split_at 14 data) as (_ & L14 & Ld); [lia|].
    rewrite (proj2 (Z.ltb_ge _ _)) by (rewrite !zlen_app; unfold SIZEOF_ETHER_HDR, SIZEOF_IPV6HDR, SIZEOF_UDPHDR; lia).
    rewrite set_type, bind_Ok by done. unfold SIZEOF_ETHER_HDR.
    destruct (split_at 40 room) as (Er & L40 & L8); [lia|]. rewrite Er, <- app_assoc. rewrite Lr in L8.
    rewrite (app_assoc (take 12 data ++ bytes16 ETH_P_IPV6_BE)).
    rewrite create_udp_hdr_spec, bind_Ok; [|rewrite !zlen_app, L40; change (zlen (bytes16 ETH_P_IPV6_BE)) with 2;
      unfold SIZEOF_IPV6HDR, zlen in *; rewrite length_take; lia|done].
    rewrite <- (app_assoc (take 12 data ++ bytes16 ETH_P_IPV6_BE)).
    rewrite v6_outside, bind_Ok by done.
    exists 0, [0; 0]. split; [done|]. split; [done|]. unfold Kern.with_data. cbn [mark skb_len].
    rewrite (zlen_app (v6_header _ _ _ _ _)), zlen_v6_header, <- !app_assoc. done.
  - destruct (bpf_skb_adjust_room data (SIZEOF_IPV4_HDR + SIZEOF_UDPHDR) _ _) as [d|] eqn:Ea; [|by apply Hadj in Ea].
    destruct (adjust_room_grows data (SIZEOF_IPV4_HDR + SIZEOF_UDPHDR) _ d eq_refl Hl Ea) as (room & Lr & Br & ->).
    unfold SIZEOF_IPV4_HDR, SIZEOF_UDPHDR in Lr. cbn [mark skb_len skb_data].
    destruct (split_at 14 data) as (_ & L14 & Ld); [lia|].
    rewrite (proj2 (Z.ltb_ge _ _)) by (rewrite !zlen_app; unfold SIZEOF_ETHER_HDR, SIZEOF_IPV4_HDR, SIZEOF_UDPHDR; lia).
    unfold SIZEOF_ETHER_HDR.
    destruct (split_at 20 room) as (Er & L20 & L8); [lia|]. rewrite Er, <- app_assoc. rewrite Lr in L8.
    rewrite (app_assoc (take 14 data)).
    rewrite create_udp_hdr_spec, bind_Ok; [|rewrite zlen_app; unfold SIZEOF_IPV4_HDR; lia|done].
    rewrite <- (app_assoc (take 14 data) (take 20 room) (udp_header _ _ _ ++ _)).
    destruct (v4_outside data (take 20 room) (udp_header (Kern.gue_sport (daddr real)) GUE_DPORT pkt_len ++ drop 14 data)
      src real pkt_len IPPROTO_UDP) as (ck & id & Li & Hok & ->); [done|done|done|by apply Forall_take| |].
    { apply bytes_ok_app; [|by apply Forall_drop]. unfold udp_header.
      repeat (apply bytes_ok_app; [apply bytes16_ok|]). by apply bytes_ok_b_spec. }
    rewrite bind_Ok. pose proof (zlen_v4_header 0 (daddr src) (daddr real) pkt_len IPPROTO_UDP ck id Li) as L4.
    exists ck, id. split; [done|]. split.
    + intros _. by rewrite take_app_length' by (unfold zlen in L4; lia).
    + unfold Kern.with_data. cbn [mark skb_len].
      rewrite (zlen_app (v4_header _ _ _ _ _ _ _)), L4. rewrite take_14 by done. by rewrite <- !app_assoc.
Qed.

(** A packet that the program sends to a real server. *)
Record to_check skb hc real (intf : Z) (esrc edst : list Z) s : Prop := {
  tc_stats : hc_stats_map hc = [s];
  tc_mark : mark skb ≠ 0;
  tc_real : bpf_map_lookup_elem (hc_reals_map hc) (mark skb) = Some real;
  tc_len : skb_len skb <= HC_MAX_PACKET_SIZE;
  tc_intf : bpf_map_lookup_elem (hc_ctrl_map hc) HC_MAIN_INTF_POSITION = Some intf;
  tc_src : bpf_map_lookup_elem (hc_pckt_macs hc) HC_SRC_MAC_POS = Some esrc;
  tc_dst : bpf_map_lookup_elem (hc_pckt_macs hc) HC_DST_MAC_POS = Some edst;
  tc_macs : zlen esrc = 6 ∧ zlen edst = 6;
  tc_eth : 14 <= zlen (skb_data skb)
}.

Lemma kern_sends enc skb hc real intf esrc edst s hdr :
  to_check skb hc real intf esrc edst s →
  encapsulates enc (mk_skb 0 (skb_len skb) (skb_data skb)) hc real
    (w16 (skb_data skb) ETHER_TYPE =? ETH_P_IPV6_BE) hdr →
  Kern.healthchecker enc skb hc =
    Ok (TC_ACT_REDIRECT intf REDIRECT_EGRESS,
        mk_skb 0 (skb_len skb + zlen hdr)
          (edst ++ esrc ++ sent_type real (skb_data skb) ++ hdr ++ drop 14 (skb_data skb)),
        with_stats hc (add_processed s)).
Proof.
  intros [Es Hm Er Hl Ei E1 E2 [L1 L2] H14] He. unfold Kern.healthchecker. cbv zeta.
  rewrite (lookup_stats_one hc s Es). rewrite (proj2 (Z.eqb_neq _ _)) by done. rewrite Er.
  rewrite (proj2 (Z.ltb_ge _ _)) by done. rewrite Ei, E1, E2.
  unfold SIZEOF_ETHER_HDR. rewrite (proj2 (Z.ltb_ge _ _)) by done.
  rewrite ld16_ok by (unfold ETHER_TYPE; lia). rewrite bind_Ok.
  unfold encapsulates in He. cbn [mark skb_len skb_data] in He. rewrite He, bind_Ok. cbn [negb skb_data].
  set (data := skb_data skb) in *. set (rest := sent_type real data ++ hdr ++ drop 14 data).
  assert (Lt : zlen (sent_type real data) = 2).
  { unfold sent_type. destruct (is_v6 real); [done|]. by rewrite zlen_slice by lia. }
  assert (L12 : zlen (take 12 data) = 12) by (unfold zlen in *; rewrite length_take; lia).
  rewrite (proj2 (Z.ltb_ge _ _)) by (unfold rest; rewrite !zlen_app; pose proof (zlen_nonneg hdr);
    pose proof (zlen_nonneg (drop 14 data)); lia).
  destruct (split_at 6 (take 12 data)) as (E & La & Lb); [lia|]. rewrite E, <- app_assoc. rewrite L12 in Lb.
  unfold ETHER_S_ADDR, ETHER_D_ADDR.
  rewrite (st_bytes_piece (take 6 (take 12 data)) (drop 6 (take 12 data)) esrc rest), bind_Ok
    by (unfold zlen in *; lia).
  rewrite (st_bytes_piece [] (take 6 (take 12 data)) edst (esrc ++ rest)), bind_Ok by (unfold zlen in *; cbn; lia).
  by rewrite (count_ok add_processed hc s Es), bind_Ok.
Qed.
End kern_sends.

(** ** Theorems *)
Section theorems.
Context {REALS : Type} `{!BpfMap Z hc_real_definition REALS}.
Context (bpf_skb_adjust_room : list Z → Z → Z → Z → option (list Z)) `{!AdjustRoom bpf_skb_adjust_room}.
Implicit Types (skb : sk_buff) (hc : hc_maps REALS) (real src : hc_real_definition) (s : hc_stats)
  (esrc edst : list Z).

(** C36: A packet whose mark stands for a real server leaves on the main interface, between
    the configured addresses, unchanged behind the header of an IP tunnel to that server,
    of the server's protocol: the lengths are those of the packet, the checksum of an
    IPv4 header verifies, the mark is gone and the packet is counted. The same holds
    for tunnels over UDP. *)
Theorem hc_tunnels skb hc real src intf esrc edst s :
  to_check skb hc real intf esrc edst s → bytes_ok (skb_data skb) →
  bpf_map_lookup_elem (hc_pckt_srcs_map hc) (if is_v6 real then V6_SRC_INDEX else V4_SRC_INDEX) = Some src →
  (∀ n flags, bpf_skb_adjust_room (skb_data skb) n Kern.BPF_ADJ_ROOM_MAC flags ≠ None) →
  let data := skb_data skb in
  let sent hdr := Ok (TC_ACT_REDIRECT intf REDIRECT_EGRESS,
    mk_skb 0 (skb_len skb + zlen hdr) (edst ++ esrc ++ sent_type real data ++ hdr ++ drop 14 data),
    with_stats hc (add_processed s)) in
  let is_ipv6 := w16 data ETHER_TYPE =? ETH_P_IPV6_BE in
  (∃ ck id, let hdr := ipip_headers src real is_ipv6 (skb_len skb) ck id in
    zlen id = 2 ∧ (is_v6 real = false → csum_ok hdr) ∧
    Kern.healthchecker (Kern.hc_encap_ipip bpf_skb_adjust_room) skb hc = sent hdr) ∧
  (∃ ck id, let hdr := gue_headers src real (skb_len skb) ck id in
    zlen id = 2 ∧ (is_v6 real = false → csum_ok (take 20 hdr)) ∧
    Kern.healthchecker (Kern.hc_encap_gue bpf_skb_adjust_room) skb hc = sent hdr).
Proof.
  intros Hc Bd Es Hadj. cbv zeta. pose proof (tc_eth _ _ _ _ _ _ _ Hc) as H14.
  set (unmarked := mk_skb 0 (skb_len skb) (skb_data skb)). split.
  - destruct (ipip_encapsulates bpf_skb_adjust_room unmarked hc real src
      (w16 (skb_data skb) ETHER_TYPE =? ETH_P_IPV6_BE) H14 Bd Es Hadj) as (ck & id & Li & Hok & He).
    exists ck, id. split; [done|]. split; [done|]. by apply (kern_sends _ _ _ real).
  - destruct (gue_encapsulates bpf_skb_adjust_room unmarked hc real src
      (w16 (skb_data skb) ETHER_TYPE =? ETH_P_IPV6_BE) H14 Bd Es Hadj) as (ck & id & Li & Hok & He).
    exists ck, id. split; [done|]. split; [done|]. by apply (kern_sends _ _ _ real).
Qed.

(** An IPv6 packet for a real server with an IPv4 address leaves as a frame of type IPv6
    that holds an IPv4 header, the protocol of which says that IPv4 follows. *)
Theorem hc_mislabels_ipv6 skb hc real src intf esrc edst s :
  to_check skb hc real intf esrc edst s → bytes_ok (skb_data skb) →
  bpf_map_lookup_elem (hc_pckt_srcs_map hc) V4_SRC_INDEX = Some src → is_v6 real = false →
  (∀ n flags, bpf_skb_adjust_room (skb_data skb) n Kern.BPF_ADJ_ROOM_MAC flags ≠ None) →
  slice (skb_data skb) 12 2 = bytes16 ETH_P_IPV6_BE →
  ∃ len tail s', Kern.healthchecker (Kern.hc_encap_ipip bpf_skb_adjust_room) skb hc =
    Ok (TC_ACT_REDIRECT intf REDIRECT_EGRESS,
        mk_skb 0 (skb_len skb + 20)
          (edst ++ esrc ++ bytes16 ETH_P_IPV6_BE ++ [69; 0] ++ len ++ [0; 0; 64; IPPROTO_IPIP] ++ tail),
        with_stats hc s') ∧ zlen len = 4.
Proof.
  intros Hc Bd Es Hv Hadj Ht. pose proof (tc_eth _ _ _ _ _ _ _ Hc) as H14.
  destruct (ipip_encapsulates bpf_skb_adjust_room (mk_skb 0 (skb_len skb) (skb_data skb)) hc real src
    (w16 (skb_data skb) ETHER_TYPE =? ETH_P_IPV6_BE) H14 Bd) as (ck & id & Li & Hok & He); [by rewrite Hv|done|].
  rewrite (kern_sends _ _ _ _ _ _ _ _ _ Hc He). unfold sent_type, ipip_headers. rewrite Hv, Ht.
  rewrite zlen_v4_header by done. unfold v4_header.
  eexists (bytes16 _ ++ id), _, _. split; [rewrite <- !app_assoc; reflexivity|].
  by rewrite zlen_app, Li.
Qed.

(** Both programs of [healthchecking_kern.c] end without an access outside of the packet,
    and count it once: as skipped if it is no health check, and then it is as it was; as
    dropped, and too big if it is; or as processed, and then it has lost its mark, so
    that it will be skipped when it passes again. *)
Theorem hc_counts_kern skb hc s enc :
  enc = Kern.hc_encap_ipip bpf_skb_adjust_room ∨ enc = Kern.hc_encap_gue bpf_skb_adjust_room →
  hc_stats_map hc = [s] → Forall (λ m, zlen m = 6) (hc_pckt_macs hc) →
  ∃ action skb', Kern.healthchecker enc skb hc =
      Ok (action, skb', with_stats hc (tally action (HC_MAX_PACKET_SIZE <? skb_len skb) s)) ∧
    (action = TC_ACT_UNSPEC ↔ no_check skb hc) ∧
    (action = TC_ACT_UNSPEC → skb' = skb) ∧
    (∀ ifindex flags, action = TC_ACT_REDIRECT ifindex flags → no_check skb' hc).
Proof.
  intros He Es Hm. destruct (kern_counts bpf_skb_adjust_room enc skb hc s) as (a & skb' & E & H1 & H2 & H3); [|done|done|].
  { destruct He as [-> | ->]; [apply ipip_total|apply gue_total]. }
  exists a, skb'. split; [done|]. split; [done|]. split; [done|]. intros i f Ha. left. by apply (H3 i f).
Qed.

(** Facts on what a program returned. *)
Ltac outcome_facts :=
  repeat match goal with |- _ ∧ _ => split | |- _ ↔ _ => split | |- _ → _ => intros end;
  try congruence; naive_solver.

(** The same for [healthchecking_ipip.c], with the tunnel that it asks for. *)
Theorem hc_counts_ipip skb hc s :
  hc_stats_map hc = [s] →
  ∃ action skb' tunnel, Ipip.healthchecker skb hc =
      Ok (action, skb', tunnel, with_stats hc (tally action (Ipip.MAX_PACKET_SIZE <? skb_len skb) s)) ∧
    (action = TC_ACT_UNSPEC ↔ no_check skb hc) ∧
    ((∃ ifindex flags, action = TC_ACT_REDIRECT ifindex flags) ↔ tunnel ≠ None) ∧
    (tunnel ≠ None → no_check skb' hc) ∧ (tunnel = None → skb' = skb).
Proof.
  intros Es. unfold Ipip.healthchecker. cbv zeta. rewrite (lookup_stats_one hc s Es). unfold no_check.
  destruct (Z.eqb_spec (mark skb) 0) as [E0|E0].
  { rewrite (count_ok add_skipped hc s Es), bind_Ok. exists TC_ACT_UNSPEC, skb, None. split; [done|]. outcome_facts. }
  destruct (bpf_map_lookup_elem (hc_reals_map hc) (mark skb)) as [real|].
  2:{ rewrite (count_ok add_skipped hc s Es), bind_Ok. exists TC_ACT_UNSPEC, skb, None. split; [done|]. outcome_facts. }
  destruct (Ipip.MAX_PACKET_SIZE <? skb_len skb) eqn:Eb.
  { rewrite (count_ok add_dropped hc s Es), bind_Ok.
    rewrite (count_ok add_too_big (with_stats hc (add_dropped s)) (add_dropped s) eq_refl), bind_Ok.
    exists TC_ACT_SHOT, skb, None. split; [done|]. outcome_facts. }
  destruct (bpf_map_lookup_elem (hc_ctrl_map hc) Ipip.v4_intf_pos) as [i4|];
    [|rewrite (count_ok add_dropped hc s Es), bind_Ok; exists TC_ACT_SHOT, skb, None; split; [done|]; outcome_facts].
  destruct (bpf_map_lookup_elem (hc_ctrl_map hc) Ipip.v6_intf_pos) as [i6|];
    [|rewrite (count_ok add_dropped hc s Es), bind_Ok; exists TC_ACT_SHOT, skb, None; split; [done|]; outcome_facts].
  destruct (hc_flags real =? V6DADDR); rewrite (count_ok add_processed hc s Es), bind_Ok;
    match goal with |- context [Ok (?a, ?b, ?c, _)] => exists a, b, c end; (split; [done|]); outcome_facts.
Qed.
End theorems.

(** ** A packet: ten bytes over IPv4 to a server with an IPv4 address *)
Definition room_after_eth (data : list Z) (n mode flags : Z) : option (list Z) :=
  Some (take 14 data ++ replicate (Z.to_nat n) 0 ++ drop 14 data).

#[global] Instance room_after_eth_grows : AdjustRoom room_after_eth.
Proof.
  intros data n flags d Hn Hl [= <-]. exists (replicate (Z.to_nat n) 0).
  split; [rewrite zlen_replicate; lia|]. split; [|done]. apply Forall_replicate. lia.
Qed.

Definition check_packet : list Z :=
  replicate 6 1 ++ replicate 6 2 ++ [8; 0; 69; 0; 0; 20; 0; 0; 0; 0; 64; 6].
Definition check_real : hc_real_definition := mk_hc_real (16777226, 0, 0, 0) 0.
Definition check_maps : hc_maps (bpf_hash Z hc_real_definition) :=
  mk_hc [0; 4; 6; 2] (mk_hash 16 {[5 := check_real]}) [mk_hc_real (33554442, 0, 0, 0) 0; mk_hc_real (1, 2, 3, 4) 1]
    [replicate 6 7; replicate 6 8] [mk_hc_stats 0 0 0 0].

Lemma hc_tunnels_witness :
  let skb := mk_skb 5 24 check_packet in
  let src := mk_hc_real (33554442, 0, 0, 0) 0 in
  let sent (hdr : list Z) := Ok (TC_ACT_REDIRECT 2 0,
    mk_skb 0 (24 + zlen hdr) (replicate 6 8 ++ replicate 6 7 ++ sent_type check_real check_packet ++ hdr ++
      drop 14 check_packet), with_stats check_maps (mk_hc_stats 1 0 0 0)) in
  (∃ ck id, let hdr := ipip_headers src check_real false 24 ck id in
    zlen id = 2 ∧ (is_v6 check_real = false → csum_ok hdr) ∧
    Kern.healthchecker (Kern.hc_encap_ipip room_after_eth) skb check_maps = sent hdr) ∧
  (∃ ck id, let hdr := gue_headers src check_real 24 ck id in
    zlen id = 2 ∧ (is_v6 check_real = false → csum_ok (take 20 hdr)) ∧
    Kern.healthchecker (Kern.hc_encap_gue room_after_eth) skb check_maps = sent hdr).
Proof.
  apply (hc_tunnels room_after_eth (mk_skb 5 24 check_packet) check_maps check_real
    (mk_hc_real (33554442, 0, 0, 0) 0) 2 (replicate 6 7) (replicate 6 8) (mk_hc_stats 0 0 0 0)).
  - split; try reflexivity; try discriminate; first [by split | vm_compute; congruence].
  - apply bytes_ok_b_spec. reflexivity.
  - reflexivity.
  - discriminate.
Defined.
