(* ===== verification/KatranOptions.v ===== *)
(** * Katran: the optional features

    The parts of [ebpf-nfs/katran] that [balancer_consts.h] leaves off unless they are asked
    for: tunnels over UDP ([GUE_ENCAP]), the decapsulation of tunnels on their way in
    ([INLINE_DECAP_IPIP], [INLINE_DECAP_GUE]), the answer to packets that are too big
    ([ICMP_TOOBIG_GENERATION]), and the choice of the real by the address a packet comes from
    ([LPM_SRC_LOOKUP]). Each is the step that [process_packet] takes with it. *)

From S2P Require Import Prelude.
From S2P Require Import NfUtil.
From S2P Require Import Xdp.
From S2P Require Import Checksum.
From S2P Require Import KatranNet.
From S2P Require Import Katran.

(** ** [balancer_consts.h] *)
Definition GUEV1_IPV6MASK : Z := 48.
Definition GUE_CSUM : Z := 0.
Definition ICMP_TOOBIG_SIZE : Z := 98.
Definition ICMP6_TOOBIG_SIZE : Z := 262.
Definition ICMP6_TOOBIG_PAYLOAD_SIZE : Z := ICMP6_TOOBIG_SIZE - 6.
Definition ICMP_TOOBIG_PAYLOAD_SIZE : Z := ICMP_TOOBIG_SIZE - 6.
Definition ICMP_TOOBIG_CNTRS : Z := 4.
Definition REMOTE_ENCAP_CNTRS : Z := 6.
Definition RECIRCULATION_INDEX : Z := 0.
Definition LPM_SRC_CNTRS : Z := 5.
Definition F_SRC_ROUTING : Z := 16.

(** ** [balancer_structs.h] *)
Record v4_lpm_key := mk_v4_lpm { prefixlen_v4 : Z; addr_v4 : Z }.
Record v6_lpm_key := mk_v6_lpm { prefixlen_v6 : Z; addr_v6 : in6 }.

#[global] Instance v4_lpm_key_eq_dec : EqDecision v4_lpm_key.
Proof. solve_decision. Defined.
#[global] Instance v4_lpm_key_countable : Countable v4_lpm_key.
Proof.
  apply (inj_countable' (λ k, (prefixlen_v4 k, addr_v4 k)) (λ '(n, a), mk_v4_lpm n a)). by intros [].
Defined.
#[global] Instance v6_lpm_key_eq_dec : EqDecision v6_lpm_key.
Proof. solve_decision. Defined.
#[global] Instance v6_lpm_key_countable : Countable v6_lpm_key.
Proof.
  apply (inj_countable' (λ k, (prefixlen_v6 k, addr_v6 k)) (λ '(n, a), mk_v6_lpm n a)). by intros [].
Defined.

Definition ICMP_FRAG_NEEDED : Z := 4.

(** What the program ends with: an action, or a jump to the program at an index of
    [subprograms]. *)
Inductive decap_verdict := Action (action : Z) | TailCall (index : Z).

Section options.
(** The helpers of the kernel. [bpf_xdp_adjust_tail] gives the bytes of the new frame, or
    fails, as [bpf_xdp_adjust_head] does. *)
Variable bpf_csum_diff : list Z → Z → Z.
Variables bpf_xdp_adjust_head bpf_xdp_adjust_tail : list Z → Z → option (list Z).
Implicit Types (data mac : list Z) (pckt : packet_description) (dst : in6).

(** ** [pckt_encap.h] with [GUE_ENCAP] *)
(** [pckt_srcs] is an array of addresses. *)
Definition gue_encap_v4 (pckt_srcs : list real_definition) data mac pckt dst (pkt_bytes : Z)
    : res (bool * list Z) :=
  let sport := bpf_htons (port16_0 (flow pckt)) in
  match bpf_map_lookup_elem pckt_srcs V4_SRC_INDEX with
  | None => Ok (false, data)
  | Some src =>
      let ipv4_src := in6_word0 (real_dst src) in
      let sport := Z.lxor sport (Z.land (Z.shiftr (in6_word0 (srcv6 (flow pckt))) 16) 65535) in
      match bpf_xdp_adjust_head data (0 - (SIZEOF_IPV4_HDR + SIZEOF_UDPHDR)) with
      | None => Ok (false, data)
      | Some data =>
          let iph := SIZEOF_ETHER_HDR in
          let udph := iph + SIZEOF_IPV4_HDR in
          let old_eth := SIZEOF_IPV4_HDR + SIZEOF_UDPHDR in
          if (zlen data <? SIZEOF_ETHER_HDR) || (zlen data <? old_eth + SIZEOF_ETHER_HDR)
             || (zlen data <? iph + SIZEOF_IPV4_HDR) || (zlen data <? udph + SIZEOF_UDPHDR)
          then Ok (false, data)
          else
            data ← new_eth_hdr data old_eth mac ETHER_TYPE_IPV4_BE;
            data ← create_udp_hdr data udph sport GUE_DPORT (u16 (pkt_bytes + SIZEOF_UDPHDR)) GUE_CSUM;
            data ← create_v4_hdr data iph (tos pckt) ipv4_src (in6_word0 dst)
                     (u16 (pkt_bytes + SIZEOF_UDPHDR)) IPPROTO_UDP;
            Ok (true, data)
      end
  end.

Definition gue_encap_v6 (pckt_srcs : list real_definition) data mac (is_ipv6 : bool) pckt dst
    (pkt_bytes : Z) : res (bool * list Z) :=
  match bpf_map_lookup_elem pckt_srcs V6_SRC_INDEX with
  | None => Ok (false, data)
  | Some src =>
      match bpf_xdp_adjust_head data (0 - (SIZEOF_IPV6HDR + SIZEOF_UDPHDR)) with
      | None => Ok (false, data)
      | Some data =>
          let ip6h := SIZEOF_ETHER_HDR in
          let udph := ip6h + SIZEOF_IPV6HDR in
          let old_eth := SIZEOF_IPV6HDR + SIZEOF_UDPHDR in
          if (zlen data <? SIZEOF_ETHER_HDR) || (zlen data <? old_eth + SIZEOF_ETHER_HDR)
             || (zlen data <? ip6h + SIZEOF_IPV6HDR) || (zlen data <? udph + SIZEOF_UDPHDR)
          then Ok (false, data)
          else
            data ← new_eth_hdr data old_eth mac ETH_P_IPV6_BE;
            let '(sport, pkt_bytes) :=
              if is_ipv6
              then (Z.lxor (Z.land (in6_word3 (srcv6 (flow pckt))) 65535) (port16_0 (flow pckt)),
                    u32 (pkt_bytes + (SIZEOF_IPV6HDR + SIZEOF_UDPHDR)))
              else (Z.lxor (Z.land (Z.shiftr (in6_word0 (srcv6 (flow pckt))) 16) 65535) (port16_0 (flow pckt)),
                    u32 (pkt_bytes + SIZEOF_UDPHDR)) in
            data ← create_udp_hdr data udph sport GUE_DPORT (u16 pkt_bytes) GUE_CSUM;
            data ← create_v6_hdr data ip6h (tos pckt) (real_dst src) dst (u16 pkt_bytes) IPPROTO_UDP;
            Ok (true, data)
      end
  end.

(** ** [pckt_encap.h] with [INLINE_DECAP_GUE] *)
Definition gue_decap_v4 data : res (bool * list Z) :=
  let new_eth := SIZEOF_IPV4_HDR + SIZEOF_UDPHDR in
  source ← ld_bytes data ETHER_S_ADDR 6;
  data ← st_bytes data (new_eth + ETHER_S_ADDR) source;
  dest ← ld_bytes data ETHER_D_ADDR 6;
  data ← st_bytes data (new_eth + ETHER_D_ADDR) dest;
  data ← st16 data (new_eth + ETHER_TYPE) ETHER_TYPE_IPV4_BE;
  match bpf_xdp_adjust_head data (SIZEOF_IPV4_HDR + SIZEOF_UDPHDR) with
  | None => Ok (false, data)
  | Some data => Ok (true, data)
  end.

Definition gue_decap_v6 data (inner_v4 : bool) : res (bool * list Z) :=
  let new_eth := SIZEOF_IPV6HDR + SIZEOF_UDPHDR in
  source ← ld_bytes data ETHER_S_ADDR 6;
  data ← st_bytes data (new_eth + ETHER_S_ADDR) source;
  dest ← ld_bytes data ETHER_D_ADDR 6;
  data ← st_bytes data (new_eth + ETHER_D_ADDR) dest;
  data ← st16 data (new_eth + ETHER_TYPE) (if inner_v4 then ETHER_TYPE_IPV4_BE else ETH_P_IPV6_BE);
  match bpf_xdp_adjust_head data (SIZEOF_IPV6HDR + SIZEOF_UDPHDR) with
  | None => Ok (false, data)
  | Some data => Ok (true, data)
  end.

(** ** [balancer_kern.h] with [INLINE_DECAP_GENERIC] *)
(** [recirculate]: the jump succeeds. *)
Definition recirculate : decap_verdict := TailCall RECIRCULATION_INDEX.

(** The end of both functions: [action] is that of [decrement_ttl]. *)
Definition decap_end (action : Z) (pass : bool) : decap_verdict :=
  if 0 <=? action then Action action else if pass then Action XDP_PASS else recirculate.

(** For any other protocol the variable [action] is never set. *)
Definition process_encaped_ipip_pckt data (is_ipv6 : bool) (protocol : Z) (pass : bool)
    : res (decap_verdict * list Z) :=
  if protocol =? IPPROTO_IPIP then
    if is_ipv6 then
      let offset := SIZEOF_IPV6HDR + SIZEOF_ETHER_HDR in
      if zlen data <? offset then Ok (Action XDP_DROP, data)
      else
        '(action, data) ← decrement_ttl data offset false;
        '(ok, data) ← decap_v6 bpf_xdp_adjust_head data true;
        if negb ok then Ok (Action XDP_DROP, data) else Ok (decap_end action pass, data)
    else
      let offset := SIZEOF_IPV4_HDR + SIZEOF_ETHER_HDR in
      if zlen data <? offset then Ok (Action XDP_DROP, data)
      else
        '(action, data) ← decrement_ttl data offset false;
        '(ok, data) ← decap_v4 bpf_xdp_adjust_head data;
        if negb ok then Ok (Action XDP_DROP, data) else Ok (decap_end action pass, data)
  else if protocol =? IPPROTO_IPV6 then
    let offset := SIZEOF_IPV6HDR + SIZEOF_ETHER_HDR in
    if zlen data <? offset then Ok (Action XDP_DROP, data)
    else
      '(action, data) ← decrement_ttl data offset true;
      '(ok, data) ← decap_v6 bpf_xdp_adjust_head data false;
      if negb ok then Ok (Action XDP_DROP, data) else Ok (decap_end action pass, data)
  else Err OutOfBounds.

Definition process_encaped_gue_pckt data (is_ipv6 pass : bool) : res (decap_verdict * list Z) :=
  if is_ipv6 then
    let offset := SIZEOF_IPV6HDR + SIZEOF_ETHER_HDR + SIZEOF_UDPHDR in
    if zlen data <? offset + 1 then Ok (Action XDP_DROP, data)
    else
      x ← ld8 data offset;
      let v6 := Z.land x GUEV1_IPV6MASK in
      if negb (v6 =? 0) then
        '(action, data) ← decrement_ttl data offset true;
        '(ok, data) ← gue_decap_v6 data false;
        if negb ok then Ok (Action XDP_DROP, data) else Ok (decap_end action pass, data)
      else
        '(action, data) ← decrement_ttl data offset false;
        '(ok, data) ← gue_decap_v6 data true;
        if negb ok then Ok (Action XDP_DROP, data) else Ok (decap_end action pass, data)
  else
    let offset := SIZEOF_IPV4_HDR + SIZEOF_ETHER_HDR + SIZEOF_UDPHDR in
    if zlen data <? offset then Ok (Action XDP_DROP, data)
    else
      '(action, data) ← decrement_ttl data offset false;
      '(ok, data) ← gue_decap_v4 data;
      if negb ok then Ok (Action XDP_DROP, data) else Ok (decap_end action pass, data).

(** ** [csum_helpers.h] *)
(** [__builtin_bswap32] *)
Definition bswap32 (x : Z) : Z :=
  u8 x * 2 ^ 24 + u8 (x / 2 ^ 8) * 2 ^ 16 + u8 (x / 2 ^ 16) * 2 ^ 8 + u8 (x / 2 ^ 24).

Definition ipv4_csum data (data_start data_size csum : Z) : res Z :=
  bytes ← ld_bytes data data_start (Z.to_nat data_size);
  Ok (csum_fold_helper (bpf_csum_diff bytes csum)).

Definition ipv6_csum data (data_start data_size csum ip6h : Z) : res Z :=
  saddr ← ld_bytes data (ip6h + IPV6_SADDR) 16;
  let csum := bpf_csum_diff saddr csum in
  daddr ← ld_bytes data (ip6h + IPV6_DADDR) 16;
  let csum := bpf_csum_diff daddr csum in
  let csum := bpf_csum_diff (bytes32 (bswap32 data_size)) csum in
  nexthdr ← ld8 data (ip6h + IPV6_NEXTHDR);
  let csum := bpf_csum_diff (bytes32 (bswap32 nexthdr)) csum in
  bytes ← ld_bytes data data_start (Z.to_nat data_size);
  let csum := bpf_csum_diff bytes csum in
  Ok (csum_fold_helper csum).

(** ** [handle_icmp.h] *)
Definition ICMP_CODE : Z := 1.
Definition ICMP_MTU : Z := 6.
Definition ICMP6_MTU : Z := 4.

Definition swap_mac data (orig_eth : Z) : res (list Z) :=
  dest ← ld_bytes data (orig_eth + ETHER_D_ADDR) 6;
  data ← st_bytes data ETHER_S_ADDR dest;
  source ← ld_bytes data (orig_eth + ETHER_S_ADDR) 6;
  data ← st_bytes data ETHER_D_ADDR source;
  proto ← ld16 data (orig_eth + ETHER_TYPE);
  st16 data ETHER_TYPE proto.

Definition send_icmp4_too_big data : res (Z * list Z) :=
  let headroom := SIZEOF_IPV4_HDR + SIZEOF_ICMPHDR in
  match bpf_xdp_adjust_head data (0 - headroom) with
  | None => Ok (XDP_DROP, data)
  | Some data =>
      if zlen data <? ICMP_TOOBIG_SIZE + headroom then Ok (XDP_DROP, data)
      else
        let orig_eth := headroom in
        data ← swap_mac data orig_eth;
        let iph := SIZEOF_ETHER_HDR in
        let icmp_hdr := iph + SIZEOF_IPV4_HDR in
        let orig_iph := icmp_hdr + SIZEOF_ICMPHDR in
        data ← wr data (icmp_hdr + ICMP_TYPE) ICMP_DEST_UNREACH;
        data ← wr data (icmp_hdr + ICMP_CODE) ICMP_FRAG_NEEDED;
        data ← st16 data (icmp_hdr + ICMP_MTU) (bpf_htons (u16 (MAX_PCKT_SIZE - SIZEOF_ETHER_HDR)));
        data ← st16 data (icmp_hdr + ICMP_CKSUM) 0;
        csum ← ipv4_csum data icmp_hdr ICMP_TOOBIG_PAYLOAD_SIZE 0;
        data ← st16 data (icmp_hdr + ICMP_CKSUM) csum;
        data ← wr data (iph + IPV4_TTL) DEFAULT_TTL;
        saddr ← ld32 data (orig_iph + IPV4_SRC_ADDR);
        data ← st32 data (iph + IPV4_DST_ADDR) saddr;
        daddr ← ld32 data (orig_iph + IPV4_DST_ADDR);
        data ← st32 data (iph + IPV4_SRC_ADDR) daddr;
        data ← st_high data (iph + IPV4_VERSION_IHL) 4;
        data ← st_low data (iph + IPV4_VERSION_IHL) 5;
        data ← wr data (iph + IPV4_NEXT_PROTO_ID) IPPROTO_ICMP;
        data ← wr data (iph + IPV4_TOS) 0;
        data ← st16 data (iph + IPV4_TOTAL_LENGTH)
                 (bpf_htons (u16 (ICMP_TOOBIG_SIZE + headroom - SIZEOF_ETHER_HDR)));
        data ← st16 data (iph + IPV4_HDR_CHECKSUM) 0;
        csum ← ipv4_csum data iph SIZEOF_IPV4_HDR 0;
        data ← st16 data (iph + IPV4_HDR_CHECKSUM) csum;
        Ok (XDP_TX, data)
  end.

Definition send_icmp6_too_big data : res (Z * list Z) :=
  let headroom := SIZEOF_IPV6HDR + SIZEOF_ICMP6HDR in
  match bpf_xdp_adjust_head data (0 - headroom) with
  | None => Ok (XDP_DROP, data)
  | Some data =>
      if zlen data <? ICMP6_TOOBIG_SIZE + headroom then Ok (XDP_DROP, data)
      else
        let orig_eth := headroom in
        data ← swap_mac data orig_eth;
        let ip6h := SIZEOF_ETHER_HDR in
        let icmp6_hdr := ip6h + SIZEOF_IPV6HDR in
        let orig_ip6h := icmp6_hdr + SIZEOF_ICMP6HDR in
        data ← st_high data ip6h 6;
        data ← st_low data ip6h 0;
        data ← wr data (ip6h + IPV6_NEXTHDR) IPPROTO_ICMPV6;
        data ← wr data (ip6h + IPV6_HOP_LIMIT) DEFAULT_TTL;
        data ← st16 data (ip6h + IPV6_PAYLOAD_LEN) (bpf_htons ICMP6_TOOBIG_PAYLOAD_SIZE);
        data ← st_bytes data (ip6h + IPV6_FLOW_LBL) [0; 0; 0];
        saddr ← ld_bytes data (orig_ip6h + IPV6_SADDR) 16;
        data ← st_bytes data (ip6h + IPV6_DADDR) saddr;
        daddr ← ld_bytes data (orig_ip6h + IPV6_DADDR) 16;
        data ← st_bytes data (ip6h + IPV6_SADDR) daddr;
        data ← wr data (icmp6_hdr + ICMP_TYPE) ICMPV6_PKT_TOOBIG;
        data ← wr data (icmp6_hdr + ICMP_CODE) 0;
        data ← st32 data (icmp6_hdr + ICMP6_MTU) (bswap32 (MAX_PCKT_SIZE - SIZEOF_ETHER_HDR));
        data ← st16 data (icmp6_hdr + ICMP_CKSUM) 0;
        csum ← ipv6_csum data icmp6_hdr ICMP6_TOOBIG_PAYLOAD_SIZE 0 ip6h;
        data ← st16 data (icmp6_hdr + ICMP_CKSUM) csum;
        Ok (XDP_TX, data)
  end.

Definition send_icmp_too_big data (is_ipv6 : bool) (pckt_size : Z) : res (Z * list Z) :=
  let offset := pckt_size in
  let offset := if is_ipv6 then offset - ICMP6_TOOBIG_SIZE else offset - ICMP_TOOBIG_SIZE in
  match bpf_xdp_adjust_tail data (0 - offset) with
  | None => Ok (XDP_DROP, data)
  | Some data => if is_ipv6 then send_icmp6_too_big data else send_icmp4_too_big data
  end.

(** ** The features in [process_packet] *)
Section process.
Context {VIPS LRU DECAP : Type} `{!BpfMap vip_definition vip_meta VIPS} `{!BpfMap flow_key real_pos_lru LRU}
  `{!BpfMap in6 Z DECAP}.
Abbreviation prog := (M (VIPS := VIPS) (LRU := LRU)).

(** The result and [*pass]; the maps are those of [Katran.v] and [decap_dst]. *)
Definition check_decap_dst (decap_dst : DECAP) pckt (is_ipv6 : bool) : prog (Z * bool) :=
  let dst_addr := if is_ipv6 then dstv6 (flow pckt) else in6_set0 in6_zero (in6_word0 (dstv6 (flow pckt))) in
  match bpf_map_lookup_elem decap_dst dst_addr with
  | None => mret (FURTHER_PROCESSING, true)
  | Some _ =>
      data_stats ← lookup_stats (MAX_VIPS + REMOTE_ENCAP_CNTRS);
      match data_stats with
      | None => mret (XDP_DROP, false)
      | Some p => _ ← add_v1 p 1; mret (FURTHER_PROCESSING, false)
      end
  end.

(** What [process_packet] does next; [None]: goes on. *)
Definition inline_decap_ipip (decap_dst : DECAP) pckt (is_ipv6 : bool) (protocol : Z)
    : prog (option decap_verdict) :=
  if (protocol =? IPPROTO_IPIP) || (protocol =? IPPROTO_IPV6) then
    '(action, pass) ← check_decap_dst decap_dst pckt is_ipv6;
    if 0 <=? action then mret (Some (Action action))
    else
      data ← frame_bytes;
      '(v, data) ← lift (process_encaped_ipip_pckt data is_ipv6 protocol pass);
      _ ← set_frame data;
      mret (Some v)
  else mret None.

Definition inline_decap_gue (decap_dst : DECAP) pckt (is_ipv6 : bool) : prog (option decap_verdict) :=
  if port16_1 (flow pckt) =? bpf_htons GUE_DPORT then
    '(action, pass) ← check_decap_dst decap_dst pckt is_ipv6;
    if 0 <=? action then mret (Some (Action action))
    else
      data ← frame_bytes;
      '(v, data) ← lift (process_encaped_gue_pckt data is_ipv6 pass);
      _ ← set_frame data;
      mret (Some v)
  else mret None.

(** [process_packet] up to the lookup of the VIP: a tunnel that ends here, or the packet
    with its ports and its length. *)
Definition process_packet_decap (decap_dst : DECAP) (off : Z) (is_ipv6 : bool)
    : prog (decap_verdict + packet_description * Z) :=
  '(action, pckt, pkt_bytes) ← process_l3_headers pckt_zero off is_ipv6;
  let protocol := proto (flow pckt) in
  v ← inline_decap_ipip decap_dst pckt is_ipv6 protocol;
  match v with
  | Some v => mret (inl v)
  | None =>
      pckt ← parse_ports is_ipv6 pckt;
      v ← (if protocol =? IPPROTO_UDP then inline_decap_gue decap_dst pckt is_ipv6 else mret None);
      match v with
      | Some v => mret (inl v)
      | None => mret (inr (pckt, pkt_bytes))
      end
  end.

(** A frame longer than [MAX_PCKT_SIZE]. *)
Definition report_too_big (is_ipv6 : bool) : prog Z :=
  data ← frame_bytes;
  data_stats ← lookup_stats (MAX_VIPS + ICMP_TOOBIG_CNTRS);
  match data_stats with
  | None => mret XDP_DROP
  | Some p =>
      _ ← (if is_ipv6 then add_v2 p 1 else add_v1 p 1);
      '(action, data) ← lift (send_icmp_too_big data is_ipv6 (zlen data));
      _ ← set_frame data;
      mret action
  end.
End process.

(** ** Source routing ([LPM_SRC_LOOKUP])

    The tables hold prefixes, and their lookup, the kernel's, is that of the longest one. *)
Section routing.
Context {VIPS LRU LPM4 LPM6 : Type} `{!BpfMap vip_definition vip_meta VIPS}
  `{!BpfMap flow_key real_pos_lru LRU} `{!BpfMap v4_lpm_key Z LPM4} `{!BpfMap v6_lpm_key Z LPM6}.
Abbreviation prog := (M (VIPS := VIPS) (LRU := LRU)).
Variables (lpm_src_v4 : LPM4) (lpm_src_v6 : LPM6).

(** [src_found] with its [key]. *)
Definition lpm_src (vip_info : vip_definition) pckt (is_ipv6 under_flood : bool) : prog (option Z) :=
  meta ← load_vip vip_info;
  if has (vip_flags meta) F_SRC_ROUTING && negb under_flood then
    let lpm_val := if is_ipv6 then bpf_map_lookup_elem lpm_src_v6 (mk_v6_lpm 128 (srcv6 (flow pckt)))
                   else bpf_map_lookup_elem lpm_src_v4 (mk_v4_lpm 32 (in6_word0 (srcv6 (flow pckt)))) in
    data_stats ← lookup_stats (MAX_VIPS + LPM_SRC_CNTRS);
    _ ← match data_stats with
        | Some p => if lpm_val then add_v2 p 1 else add_v1 p 1
        | None => mret tt
        end;
    mret lpm_val
  else mret None.

(** The index of the real in the ring. *)
Definition ring_real (vip_info : vip_definition) pckt (is_ipv6 : bool)
    : prog (option Z * packet_description) :=
  meta ← load_vip vip_info;
  let hash_16bytes := is_ipv6 in
  let pckt := hashed_pckt meta pckt in
  hash ← lift (get_packet_hash pckt hash_16bytes);
  let hash := hash mod RING_SIZE in
  let key := u32 (RING_SIZE * vip_num meta + hash) in
  s ← maps;
  mret (bpf_map_lookup_elem (ch_rings s) key, pckt).

(** The end of [get_packet_dst]. *)
Definition enter_real (vip_info : vip_definition) pckt (key cur_time : Z) (under_flood : bool) (lru_map : Z)
    : prog (option real_definition * packet_description) :=
  s ← maps;
  let pckt := set_real_index pckt key in
  match bpf_map_lookup_elem (reals s) key with
  | None => mret (None, pckt)
  | Some real =>
      meta ← load_vip vip_info;
      if negb (has (vip_flags meta) F_LRU_BYPASS) && negb under_flood then
        let time := if proto (flow pckt) =? IPPROTO_UDP then cur_time else 0 in
        lru ← load_cache lru_map;
        _ ← match bpf_map_update_elem lru (flow pckt) (mk_pos key time) with
            | Some lru => store_cache lru_map lru
            | None => mret tt
            end;
        mret (Some real, pckt)
      else mret (Some real, pckt)
  end.

Definition get_packet_dst_lpm (e : env) pckt (vip_info : vip_definition) (is_ipv6 : bool) (lru_map : Z)
    : prog (option real_definition * packet_description) :=
  '(under_flood, cur_time) ← is_under_flood e;
  src ← lpm_src vip_info pckt is_ipv6 under_flood;
  '(key, pckt) ← match src with
                 | Some key => mret (Some key, pckt)
                 | None => ring_real vip_info pckt is_ipv6
                 end;
  match key with
  | None => mret (None, pckt)
  | Some key => enter_real vip_info pckt key cur_time under_flood lru_map
  end.
End routing.
End options.

(** ** Lemmas: a header behind some bytes *)
Section shift.
Implicit Types (a l : list Z) (off : Z).

Lemma rd_shift {A} (a l : list A) off : 0 <= off → rd (a ++ l) (zlen a + off) = rd l off.
Proof.
  intros Ho. unfold rd, zlen. rewrite !(proj2 (Z.leb_le _ _)) by lia.
  rewrite lookup_app_r by lia. by replace (Z.to_nat (Z.of_nat (length a) + off) - length a)%nat with (Z.to_nat off) by lia.
Qed.

Lemma wr_shift a l off v : 0 <= off → wr (a ++ l) (zlen a + off) v = (λ l, a ++ l) <$> wr l off v.
Proof.
  intros Ho. unfold wr. rewrite zlen_app. pose proof (zlen_nonneg a).
  replace (zlen a + off <? zlen a + zlen l) with (off <? zlen l)
    by (destruct (Z.ltb_spec off (zlen l)), (Z.ltb_spec (zlen a + off) (zlen a + zlen l)); lia || done).
  rewrite !(proj2 (Z.leb_le _ _)) by lia. destruct (off <? zlen l); [|done]. cbn. f_equal. unfold zlen.
  rewrite insert_app_r_alt by lia. do 2 f_equal. lia.
Qed.

Lemma ld16_shift a l off : 0 <= off → ld16 (a ++ l) (zlen a + off) = ld16 l off.
Proof. intros Ho. unfold ld16, ld8. by rewrite <- Z.add_assoc, !rd_shift by lia. Qed.

Lemma st16_shift a l off v : 0 <= off → st16 (a ++ l) (zlen a + off) v = (λ l, a ++ l) <$> st16 l off v.
Proof.
  intros Ho. unfold st16. rewrite wr_shift by lia. destruct (wr l off _) as [l'|]; [|done].
  cbn [fmap res_fmap]. rewrite !bind_Ok, <- Z.add_assoc. apply wr_shift. lia.
Qed.

Lemma decrement_ttl_shift a l off is_ipv6 :
  0 <= off →
  decrement_ttl (a ++ l) (zlen a + off) is_ipv6 = (λ '(r, l), (r, a ++ l)) <$> decrement_ttl l off is_ipv6.
Proof.
  intros Ho. unfold decrement_ttl. rewrite zlen_app.
  unfold SIZEOF_IPV6HDR, SIZEOF_IPV4_HDR, IPV6_HOP_LIMIT, IPV4_TTL, IPV4_HDR_CHECKSUM.
  rewrite <- !Z.add_assoc. destruct is_ipv6.
  - destruct (Z.ltb_spec (zlen l) (off + 40)); [by rewrite (proj2 (Z.ltb_lt _ _)) by lia|].
    rewrite (proj2 (Z.ltb_ge _ _)) by lia. unfold ld8. rewrite rd_shift by lia.
    destruct (rd l (off + 7)) as [x|]; [|done]. rewrite !bind_Ok, wr_shift by lia.
    destruct (wr l (off + 7) _) as [l'|]; [|done]. cbn [fmap res_fmap]. rewrite !bind_Ok. by case_match.
  - destruct (Z.ltb_spec (zlen l) (off + 20)); [by rewrite (proj2 (Z.ltb_lt _ _)) by lia|].
    rewrite (proj2 (Z.ltb_ge _ _)) by lia. unfold ld8. rewrite rd_shift by lia.
    destruct (rd l (off + 8)) as [x|]; [|done]. rewrite !bind_Ok, wr_shift by lia.
    destruct (wr l (off + 8) _) as [l'|]; [|done]. cbn [fmap res_fmap]. rewrite !bind_Ok.
    destruct (_ =? 0); [done|]. rewrite ld16_shift by lia.
    destruct (ld16 l' _) as [check|]; [|done]. rewrite !bind_Ok, st16_shift by lia.
    destruct (st16 l' _ _) as [l2|]; done.
Qed.

(** The frame keeps its length. *)
Lemma decrement_ttl_total l is_ipv6 :
  ∃ r l', decrement_ttl l 0 is_ipv6 = Ok (r, l') ∧ zlen l' = zlen l.
Proof.
  unfold decrement_ttl. unfold SIZEOF_IPV6HDR, SIZEOF_IPV4_HDR, IPV6_HOP_LIMIT, IPV4_TTL, IPV4_HDR_CHECKSUM.
  destruct is_ipv6.
  - destruct (Z.ltb_spec (zlen l) (0 + 40)); [by do 2 eexists|]. do 2 access. case_match; do 2 eexists; (split; [done|lia]).
  - destruct (Z.ltb_spec (zlen l) (0 + 20)); [by do 2 eexists|]. do 2 access.
    case_match; [do 2 eexists; split; [done|lia]|]. do 2 access. do 2 eexists. split; [done|lia].
Qed.
End shift.

(** ** Decapsulation *)
(** The packet one hop later: the time to live, in IPv4 byte 8 and in IPv6 byte 7, is
    one less (behind 0 comes 255), and the checksum of IPv4, bytes 10 and 11, one more
    with its carry around the end. *)
Definition hop_limit_at (v6 : bool) : Z := if v6 then 7 else 8.
Definition one_less (x : Z) : Z := if x =? 0 then 255 else x - 1.
Definition one_hop_less (v6 : bool) (l : list Z) : list Z :=
  if v6 then take 7 l ++ [one_less (getz l 7)] ++ drop 8 l
  else
    let check := getz l 10 + 256 * getz l 11 in
    let check' := if check =? 65535 then 1 else check + 1 in
    take 8 l ++ [one_less (getz l 8); getz l 9; check' mod 256; check' / 256] ++ drop 12 l.

(** It is dropped if the header is not there or the time to live is over. *)
Definition hops_over (v6 : bool) (l : list Z) : bool :=
  (zlen l <? if v6 then 40 else 20) || (getz l (hop_limit_at v6) =? 1).

(** A tunnel that ends [here] goes through the balancer again. *)
Definition tunnel_verdict (over here : bool) : decap_verdict :=
  if over then Action XDP_DROP else if here then TailCall 0 else Action XDP_PASS.

(** The frame without the tunnel as the code handles it; [macs] are its addresses. *)
Definition decapsulated (macs : list Z) (eth_type : Z) (inner : list Z) (is_ipv6 pass : bool)
    : res (decap_verdict * list Z) :=
  '(action, data) ← decrement_ttl ((macs ++ bytes16 eth_type) ++ inner) 14 is_ipv6;
  Ok (decap_end action pass, data).

Lemma u8_one_less x : 0 <= x < 256 → u8 (x - 1) = one_less x.
Proof.
  intros Hx. unfold one_less. destruct (Z.eqb_spec x 0) as [->|]; [done|]. apply Z.mod_small. lia.
Qed.

Lemma one_less_zero x : 0 <= x < 256 → (one_less x =? 0) = (x =? 1).
Proof. intros Hx. unfold one_less. destruct (Z.eqb_spec x 0), (Z.eqb_spec x 1); lia. Qed.

Lemma setz_pieces l i (x : Z) : 0 <= i < zlen l → setz l i x = take (Z.to_nat i) l ++ [x] ++ drop (S (Z.to_nat i)) l.
Proof. intros Hi. unfold setz. rewrite insert_take_drop; [done|]. unfold zlen in Hi. lia. Qed.

Lemma decrement_ttl_v6 l :
  bytes_ok l → ∃ l', decrement_ttl l 0 true = Ok (if hops_over true l then XDP_DROP else FURTHER_PROCESSING, l') ∧
    (hops_over true l = false → l' = one_hop_less true l).
Proof.
  intros Hb. unfold decrement_ttl, hops_over, SIZEOF_IPV6HDR, IPV6_HOP_LIMIT. cbn [hop_limit_at]. rewrite !Z.add_0_l.
  destruct (Z.ltb_spec (zlen l) 40); [by eexists|]. cbn [orb].
  pose proof (bytes_ok_get l 7 Hb ltac:(lia)) as Hx. rewrite ld8_ok by lia. rewrite bind_Ok, u8_one_less by done.
  rewrite wr_ok by lia. rewrite bind_Ok, one_less_zero, setz_pieces by lia. case_match; by eexists.
Qed.

Lemma carry_around c : 0 <= c < 65536 →
  u16 (Z.land (u32 (c + 1)) 65535 + Z.shiftr (u32 (c + 1)) 16) = if c =? 65535 then 1 else c + 1.
Proof.
  intros Hc. destruct (Z.eqb_spec c 65535) as [->|]; [done|]. change 65535 with (Z.ones 16).
  rewrite (u32_id (c + 1)), Z.land_ones, Z.shiftr_div_pow2 by lia.
  rewrite Z.mod_small, Z.div_small by lia. rewrite Z.add_0_r. apply u16_id. lia.
Qed.

Lemma decrement_ttl_v4 l :
  bytes_ok l → ∃ l', decrement_ttl l 0 false = Ok (if hops_over false l then XDP_DROP else FURTHER_PROCESSING, l') ∧
    (hops_over false l = false → l' = one_hop_less false l).
Proof.
  intros Hb. unfold decrement_ttl, hops_over, SIZEOF_IPV4_HDR, IPV4_TTL, IPV4_HDR_CHECKSUM. cbn [hop_limit_at].
  rewrite !Z.add_0_l. destruct (Z.ltb_spec (zlen l) 20) as [|Hl]; [by eexists|]. cbn [orb].
  pose proof (bytes_ok_get l 8 Hb ltac:(lia)) as Hx. pose proof (w16_bound l 10 Hb ltac:(lia) ltac:(lia)) as Hc.
  rewrite ld8_ok by lia. rewrite bind_Ok, u8_one_less by done.
  rewrite wr_ok by lia. rewrite bind_Ok, one_less_zero by lia. destruct (getz l 8 =? 1); [by eexists|].
  assert (L : zlen (setz l 8 (one_less (getz l 8))) = zlen l) by apply zlen_setz.
  rewrite ld16_ok by lia. rewrite bind_Ok.
  assert (Ew : w16 (setz l 8 (one_less (getz l 8))) 10 = getz l 10 + 256 * getz l 11).
  { unfold w16. rewrite !getz_setz by lia. done. }
  change (w16 l 10) with (getz l 10 + 256 * getz l 11) in Hc.
  rewrite Ew, carry_around, st16_bytes by lia. cbv zeta.
  unfold one_hop_less. set (check := if _ =? 65535 then _ else _).
  assert (Hk : 0 <= check < 65536) by (unfold check; destruct (Z.eqb_spec (getz l 10 + 256 * getz l 11) 65535); lia).
  assert (Eb : bytes16 check = [check mod 256; check / 256]).
  { unfold bytes16, u8. change (2 ^ 8) with 256. rewrite (Z.mod_small (check / 256)); [done|].
    split; [apply Z.div_pos; lia|apply Z.div_lt_upper_bound; lia]. }
  rewrite Eb. clearbody check. clear Ew Hc Eb L Hx. do 12 peel l Hl.
  rewrite st_bytes_list by (rewrite ?zlen_setz; unfold zlen in *; cbn [length] in *; lia). rewrite bind_Ok.
  eexists. split; reflexivity.
Qed.

(** The frame of the code is that of the reference. *)
Lemma decapsulated_spec macs eth_type inner v6 pass :
  zlen macs = 12 → bytes_ok inner →
  ∃ frame, decapsulated macs eth_type inner v6 pass = Ok (tunnel_verdict (hops_over v6 inner) (negb pass), frame) ∧
    (hops_over v6 inner = false → frame = macs ++ bytes16 eth_type ++ one_hop_less v6 inner).
Proof.
  intros Lm Hb. unfold decapsulated.
  replace 14 with (zlen (macs ++ bytes16 eth_type) + 0) by (rewrite zlen_app, Lm; done).
  rewrite decrement_ttl_shift by done.
  assert (∃ l', decrement_ttl inner 0 v6 = Ok (if hops_over v6 inner then XDP_DROP else FURTHER_PROCESSING, l') ∧
    (hops_over v6 inner = false → l' = one_hop_less v6 inner)) as (l' & -> & Hl).
  { destruct v6; [by apply decrement_ttl_v6|by apply decrement_ttl_v4]. }
  cbn [fmap res_fmap]. rewrite bind_Ok. eexists. split.
  - unfold decap_end, tunnel_verdict. destruct (hops_over v6 inner), pass; reflexivity.
  - intros Hn. rewrite Hl by done. by rewrite <- app_assoc.
Qed.

Section decap.
Context (bpf_xdp_adjust_head : list Z → Z → option (list Z)) `{!AdjustHead bpf_xdp_adjust_head}.
Hypothesis Hroom : ∀ l n, bpf_xdp_adjust_head l n ≠ None.
Implicit Types (eth hdr inner : list Z) (pass : bool).


Lemma strip_tunnel eth hdr inner n p :
  zlen eth = 14 → zlen hdr = n → 14 <= n →
  (source ← ld_bytes (eth ++ hdr ++ inner) ETHER_S_ADDR 6;
   data ← st_bytes (eth ++ hdr ++ inner) (n + ETHER_S_ADDR) source;
   dest ← ld_bytes data ETHER_D_ADDR 6;
   data ← st_bytes data (n + ETHER_D_ADDR) dest;
   data ← st16 data (n + ETHER_TYPE) p;
   match bpf_xdp_adjust_head data n with None => Ok (false, data) | Some data => Ok (true, data) end) =
  Ok (true, (take 12 eth ++ bytes16 p) ++ inner).
Proof.
  intros Le Lh Hn. rewrite decap_body; [|done|rewrite !zlen_app; pose proof (zlen_nonneg inner); lia].
  match goal with |- context [bpf_xdp_adjust_head ?l n] => destruct (bpf_xdp_adjust_head l n) as [d|] eqn:E end;
    [|by apply Hroom in E].
  apply adjust_shrink in E as ->; [|lia]. rewrite decap_outer by done. by rewrite <- app_assoc.
Qed.

(** The time to live behind the tunnel, and then the tunnel is taken off. *)
Lemma ttl_then_strip eth hdr inner (n offset p : Z) is_ipv6 pass (strip : list Z → res (bool * list Z)) :
  zlen eth = 14 → zlen hdr = n → offset = 14 + n →
  (∀ l, zlen l = zlen inner → strip (eth ++ hdr ++ l) = Ok (true, (take 12 eth ++ bytes16 p) ++ l)) →
  ('(action, data) ← decrement_ttl (eth ++ hdr ++ inner) offset is_ipv6;
   '(ok, data) ← strip data;
   if negb ok then Ok (Action XDP_DROP, data) else Ok (decap_end action pass, data)) =
  decapsulated (take 12 eth) p inner is_ipv6 pass.
Proof.
  intros Le Lh -> Hs. unfold decapsulated.
  replace (14 + n) with (zlen (eth ++ hdr) + 0) by (rewrite zlen_app; lia). rewrite app_assoc.
  replace 14 with (zlen (take 12 eth ++ bytes16 p) + 0).
  2:{ rewrite zlen_app. change (zlen (bytes16 p)) with 2. unfold zlen in *. rewrite length_take. lia. }
  rewrite !decrement_ttl_shift by lia.
  destruct (decrement_ttl_total inner is_ipv6) as (r & l & -> & Ll). cbn [fmap res_fmap]. rewrite !bind_Ok.
  rewrite <- app_assoc, Hs, bind_Ok by done. done.
Qed.

Section tunnels.
Variables (eth hdr inner : list Z) (pass : bool).
Hypothesis Le : zlen eth = 14.

Lemma ipip_decap_v4 :
  zlen hdr = 20 →
  process_encaped_ipip_pckt bpf_xdp_adjust_head (eth ++ hdr ++ inner) false IPPROTO_IPIP pass =
    decapsulated (take 12 eth) ETHER_TYPE_IPV4_BE inner false pass.
Proof.
  intros Lh. unfold process_encaped_ipip_pckt. change (IPPROTO_IPIP =? IPPROTO_IPIP) with true. cbv zeta iota.
  unfold SIZEOF_IPV4_HDR, SIZEOF_ETHER_HDR. pose proof (zlen_nonneg inner).
  rewrite (proj2 (Z.ltb_ge _ _)) by (rewrite !zlen_app; lia).
  apply (ttl_then_strip eth hdr inner 20); [done|done|done|]. intros l Ll. by apply (strip_tunnel eth hdr l 20).
Qed.

Lemma ipip_decap_v6 (inner_v6 : bool) :
  zlen hdr = 40 →
  process_encaped_ipip_pckt bpf_xdp_adjust_head (eth ++ hdr ++ inner) true
      (if inner_v6 then IPPROTO_IPV6 else IPPROTO_IPIP) pass =
    decapsulated (take 12 eth) (if inner_v6 then ETH_P_IPV6_BE else ETHER_TYPE_IPV4_BE) inner inner_v6 pass.
Proof.
  intros Lh. unfold process_encaped_ipip_pckt. pose proof (zlen_nonneg inner).
  destruct inner_v6.
  - change (IPPROTO_IPV6 =? IPPROTO_IPIP) with false. change (IPPROTO_IPV6 =? IPPROTO_IPV6) with true. cbv zeta iota.
    unfold SIZEOF_IPV6HDR, SIZEOF_ETHER_HDR.
    rewrite (proj2 (Z.ltb_ge _ _)) by (rewrite !zlen_app; lia).
    apply (ttl_then_strip eth hdr inner 40); [done|done|done|]. intros l Ll. by apply (strip_tunnel eth hdr l 40).
  - change (IPPROTO_IPIP =? IPPROTO_IPIP) with true. cbv zeta iota.
    unfold SIZEOF_IPV6HDR, SIZEOF_ETHER_HDR.
    rewrite (proj2 (Z.ltb_ge _ _)) by (rewrite !zlen_app; lia).
    apply (ttl_then_strip eth hdr inner 40); [done|done|done|]. intros l Ll. by apply (strip_tunnel eth hdr l 40).
Qed.

Lemma gue_decap_v4_spec :
  zlen hdr = 28 →
  process_encaped_gue_pckt bpf_xdp_adjust_head (eth ++ hdr ++ inner) false pass =
    decapsulated (take 12 eth) ETHER_TYPE_IPV4_BE inner false pass.
Proof.
  intros Lh. unfold process_encaped_gue_pckt. cbv zeta.
  unfold SIZEOF_IPV4_HDR, SIZEOF_ETHER_HDR, SIZEOF_UDPHDR. pose proof (zlen_nonneg inner).
  rewrite (proj2 (Z.ltb_ge _ _)) by (rewrite !zlen_app; lia).
  apply (ttl_then_strip eth hdr inner 28); [done|done|done|]. intros l Ll. by apply (strip_tunnel eth hdr l 28).
Qed.

(** The version of the inner packet is that of its first byte. *)
Lemma gue_decap_v6_spec (inner_v6 : bool) :
  zlen hdr = 48 → 0 < zlen inner → getz inner 0 / 16 = (if inner_v6 then 6 else 4) →
  0 <= getz inner 0 < 256 →
  process_encaped_gue_pckt bpf_xdp_adjust_head (eth ++ hdr ++ inner) true pass =
    decapsulated (take 12 eth) (if inner_v6 then ETH_P_IPV6_BE else ETHER_TYPE_IPV4_BE) inner inner_v6 pass.
Proof.
  intros Lh Hi Hv Hb. unfold process_encaped_gue_pckt. cbv zeta.
  unfold SIZEOF_IPV6HDR, SIZEOF_ETHER_HDR, SIZEOF_UDPHDR.
  rewrite (proj2 (Z.ltb_ge _ _)) by (rewrite !zlen_app; lia).
  assert (L62 : zlen (eth ++ hdr) = 62) by (rewrite zlen_app; lia).
  assert (E : ld8 (eth ++ hdr ++ inner) (40 + 14 + 8) = Ok (getz inner 0)).
  { rewrite app_assoc. replace (40 + 14 + 8) with (zlen (eth ++ hdr) + 0) by lia.
    unfold ld8. rewrite rd_shift by lia. by apply rd_ok. }
  rewrite E, bind_Ok. set (x := getz inner 0) in *. clearbody x. clear E.
  assert (Em : Z.land x GUEV1_IPV6MASK = if inner_v6 then 32 else 0).
  { assert (Hx : x = 16 * (x / 16) + x mod 16) by (apply Z.div_mod; lia).
    pose proof (Z.mod_pos_bound x 16 ltac:(lia)) as Hm. rewrite Hv in Hx.
    assert (Hc : ∀ m, 0 <= m < 16 → Z.land (16 * (if inner_v6 then 6 else 4) + m) 48 = if inner_v6 then 32 else 0).
    { intros k Hk. assert (k = 0 ∨ k = 1 ∨ k = 2 ∨ k = 3 ∨ k = 4 ∨ k = 5 ∨ k = 6 ∨ k = 7 ∨ k = 8 ∨ k = 9 ∨ k = 10 ∨
        k = 11 ∨ k = 12 ∨ k = 13 ∨ k = 14 ∨ k = 15) as Hk' by lia.
      destruct inner_v6; repeat destruct Hk' as [-> | Hk']; try done; by subst. }
    rewrite Hx. by apply Hc. }
  rewrite Em. destruct inner_v6; cbn [Z.eqb negb].
  - apply (ttl_then_strip eth hdr inner 48); [done|done|done|]. intros l Ll. by apply (strip_tunnel eth hdr l 48).
  - apply (ttl_then_strip eth hdr inner 48); [done|done|done|]. intros l Ll. by apply (strip_tunnel eth hdr l 48).
Qed.
End tunnels.
End decap.

(** ** Encapsulation with GUE *)
Definition gue_outer_v4 (data mac : list Z) (pckt : packet_description) (src dst : in6)
    (pkt_bytes ck : Z) (id : list Z) : list Z :=
  let len := u16 (pkt_bytes + SIZEOF_UDPHDR) in
  (mac ++ slice data 0 6 ++ bytes16 ETHER_TYPE_IPV4_BE) ++
  (v4_header (tos pckt) (in6_word0 src) (in6_word0 dst) len IPPROTO_UDP ck id ++
   udp_header (Z.lxor (bpf_htons (port16_0 (flow pckt)))
     (Z.land (Z.shiftr (in6_word0 (srcv6 (flow pckt))) 16) 65535)) GUE_DPORT len).

Definition gue_outer_v6 (data mac : list Z) (is_ipv6 : bool) (pckt : packet_description) (src dst : in6)
    (pkt_bytes : Z) : list Z :=
  let s := srcv6 (flow pckt) in
  let sport := Z.lxor (if is_ipv6 then Z.land (in6_word3 s) 65535 else Z.land (Z.shiftr (in6_word0 s) 16) 65535)
                 (port16_0 (flow pckt)) in
  let len := u16 (u32 (pkt_bytes + (if is_ipv6 then SIZEOF_IPV6HDR + SIZEOF_UDPHDR else SIZEOF_UDPHDR))) in
  (mac ++ slice data 0 6 ++ bytes16 ETH_P_IPV6_BE) ++
  (v6_header (tos pckt) src dst len IPPROTO_UDP ++ udp_header sport GUE_DPORT len).

Section gue.
Context (bpf_xdp_adjust_head : list Z → Z → option (list Z)) `{!AdjustHead bpf_xdp_adjust_head}.
Implicit Types (data mac : list Z) (pckt : packet_description) (dst : in6) (srcs : list real_definition).

Lemma zlen_eth mac data p :
  zlen mac = 6 → 14 <= zlen data → zlen (mac ++ slice data 0 6 ++ bytes16 p) = 14.
Proof. intros Lm Hl. rewrite !zlen_app, zlen_slice, Lm by lia. done. Qed.

Lemma gue_encap_v4_spec srcs src data mac pckt dst n d :
  bpf_map_lookup_elem srcs V4_SRC_INDEX = Some src →
  bpf_xdp_adjust_head data (0 - (SIZEOF_IPV4_HDR + SIZEOF_UDPHDR)) = Some d →
  14 <= zlen data → zlen mac = 6 → bytes_ok data → bytes_ok mac →
  ∃ ck id, zlen id = 2 ∧
    gue_encap_v4 bpf_xdp_adjust_head srcs data mac pckt dst n =
      Ok (true, gue_outer_v4 data mac pckt (real_dst src) dst n ck id ++ drop 14 data) ∧
    csum_ok (slice (gue_outer_v4 data mac pckt (real_dst src) dst n ck id) 14 20).
Proof.
  intros Es Ed Hl Lm Bd Bm.
  destruct (adjust_grow data (SIZEOF_IPV4_HDR + SIZEOF_UDPHDR) d eq_refl Ed) as (h & Lh & Bh & ->).
  change (SIZEOF_IPV4_HDR + SIZEOF_UDPHDR) with 28 in *.
  destruct (room_split h data 28) as (old & Lo & Eo & Esl & Bo & _); [done|lia|done|].
  unfold gue_encap_v4. rewrite Es. change (SIZEOF_IPV4_HDR + SIZEOF_UDPHDR) with 28. rewrite Ed.
  unfold SIZEOF_ETHER_HDR, SIZEOF_IPV4_HDR, SIZEOF_UDPHDR.
  assert (Ll : zlen (h ++ data) = 28 + zlen data) by (rewrite zlen_app; lia).
  rewrite !(proj2 (Z.ltb_ge _ _)) by lia. cbn [orb].
  rewrite new_eth_hdr_spec, bind_Ok, Esl, Eo by lia.
  set (eth := mac ++ slice data 0 6 ++ bytes16 ETHER_TYPE_IPV4_BE).
  assert (Le : zlen eth = 14) by by apply zlen_eth.
  assert (Be : bytes_ok eth).
  { unfold eth. repeat (apply bytes_ok_app; [done || by apply bytes_ok_slice|]). apply bytes16_ok. }
  assert (E' : mac ++ slice data 0 6 ++ bytes16 ETHER_TYPE_IPV4_BE ++ old ++ drop 14 data =
               eth ++ old ++ drop 14 data) by (unfold eth; by rewrite <- !app_assoc).
  rewrite E'. clear E'. specialize (Bo Bh Bd).
  assert (∃ o1 o2, old = o1 ++ o2 ∧ zlen o1 = 20 ∧ zlen o2 = 8) as (o1 & o2 & -> & L20 & L8).
  { destruct (split_at 20 old) as (Er & L20 & L8); [lia|]. exists (take 20 old), (drop 20 old). split; [done|lia]. }
  apply Forall_app in Bo as [B20 _].
  unfold GUE_CSUM. set (sport := Z.lxor _ _). set (len := u16 (n + 8)).
  rewrite <- (app_assoc o1), (app_assoc eth), create_udp_hdr_spec, bind_Ok by (rewrite ?zlen_app; lia).
  rewrite <- (app_assoc eth).
  destruct (create_v4_hdr_spec eth o1 (udp_header sport GUE_DPORT len ++ drop 14 data) (tos pckt)
    (in6_word0 (real_dst src)) (in6_word0 dst) len IPPROTO_UDP) as (ck & _ & Hok & E); [done|done|done|done| |].
  { apply bytes_ok_app; [|by apply Forall_drop]. unfold udp_header.
    repeat (apply bytes_ok_app; [apply bytes16_ok|]). by apply bytes_ok_b_spec. }
  rewrite E, bind_Ok. exists ck, (slice o1 4 2). split; [by rewrite zlen_slice by lia|].
  unfold gue_outer_v4. change (u16 (n + SIZEOF_UDPHDR)) with len. fold sport. fold eth.
  split; [by rewrite <- !app_assoc|].
  rewrite slice_app_r by lia. rewrite Le. unfold slice at 1. change (Z.to_nat (14 - 14)) with 0%nat. rewrite drop_0.
  assert (L : length (v4_header (tos pckt) (in6_word0 (real_dst src)) (in6_word0 dst) len IPPROTO_UDP ck
    (slice o1 4 2)) = 20%nat).
  { unfold v4_header. rewrite !length_app. pose proof (zlen_slice o1 4 2). unfold zlen in *.
    replace (length (slice o1 4 2)) with 2%nat by lia. done. }
  by rewrite take_app_length'.
Qed.

Lemma gue_encap_v6_spec srcs src data mac is_ipv6 pckt dst n d :
  bpf_map_lookup_elem srcs V6_SRC_INDEX = Some src →
  bpf_xdp_adjust_head data (0 - (SIZEOF_IPV6HDR + SIZEOF_UDPHDR)) = Some d →
  14 <= zlen data → zlen mac = 6 → 0 <= tos pckt < 256 →
  gue_encap_v6 bpf_xdp_adjust_head srcs data mac is_ipv6 pckt dst n =
    Ok (true, gue_outer_v6 data mac is_ipv6 pckt (real_dst src) dst n ++ drop 14 data).
Proof.
  intros Es Ed Hl Lm Ht.
  destruct (adjust_grow data (SIZEOF_IPV6HDR + SIZEOF_UDPHDR) d eq_refl Ed) as (h & Lh & _ & ->).
  change (SIZEOF_IPV6HDR + SIZEOF_UDPHDR) with 48 in *.
  destruct (room_split h data 48) as (old & Lo & Eo & Esl & _); [done|lia|done|].
  unfold gue_encap_v6. rewrite Es. change (SIZEOF_IPV6HDR + SIZEOF_UDPHDR) with 48. rewrite Ed.
  unfold SIZEOF_ETHER_HDR, SIZEOF_IPV6HDR, SIZEOF_UDPHDR.
  assert (Ll : zlen (h ++ data) = 48 + zlen data) by (rewrite zlen_app; lia).
  rewrite !(proj2 (Z.ltb_ge _ _)) by lia. cbn [orb].
  rewrite new_eth_hdr_spec, bind_Ok, Esl, Eo by lia.
  set (eth := mac ++ slice data 0 6 ++ bytes16 ETH_P_IPV6_BE).
  assert (Le : zlen eth = 14) by by apply zlen_eth.
  assert (E' : mac ++ slice data 0 6 ++ bytes16 ETH_P_IPV6_BE ++ old ++ drop 14 data =
               eth ++ old ++ drop 14 data) by (unfold eth; by rewrite <- !app_assoc).
  rewrite E'. clear E'.
  assert (∃ o1 o2, old = o1 ++ o2 ∧ zlen o1 = 40 ∧ zlen o2 = 8) as (o1 & o2 & -> & L40 & L8).
  { destruct (split_at 40 old) as (Er & L40 & L8); [lia|]. exists (take 40 old), (drop 40 old). split; [done|lia]. }
  unfold gue_outer_v6, GUE_CSUM, SIZEOF_IPV6HDR, SIZEOF_UDPHDR. fold eth.
  destruct is_ipv6; cbv zeta iota beta; rewrite <- (app_assoc o1), (app_assoc eth), create_udp_hdr_spec, bind_Ok
    by (rewrite ?zlen_app; lia); rewrite <- (app_assoc eth);
    rewrite create_v6_hdr_spec, bind_Ok by done; by rewrite <- !app_assoc.
Qed.
End gue.

(** ** From one balancer to the next *)
Lemma w32_at (l1 l : list Z) k off : off = zlen l1 + k → 0 <= k → w32 (l1 ++ l) off = w32 l k.
Proof.
  intros -> Hk. unfold w32, w16. pose proof (zlen_nonneg l1).
  rewrite !getz_app_r by lia. repeat f_equal; lia.
Qed.

Lemma w16_at (l1 l : list Z) k off : off = zlen l1 + k → 0 <= k → w16 (l1 ++ l) off = w16 l k.
Proof. intros -> Hk. unfold w16. pose proof (zlen_nonneg l1). rewrite !getz_app_r by lia. repeat f_equal; lia. Qed.

Lemma getz_at (l1 l : list Z) k off : off = zlen l1 + k → 0 <= k → getz (l1 ++ l) off = getz l k.
Proof. intros -> Hk. rewrite getz_app_r by lia. f_equal. lia. Qed.

(** An address whose words have 32 bits. *)
Definition in6_ok (a : in6) : Prop :=
  let '(x, y, z, w) := a in 0 <= x < 2 ^ 32 ∧ 0 <= y < 2 ^ 32 ∧ 0 <= z < 2 ^ 32 ∧ 0 <= w < 2 ^ 32.

Section arrival.
Context {VIPS LRU DECAP : Type} `{!BpfMap vip_definition vip_meta VIPS} `{!BpfMap flow_key real_pos_lru LRU}
  `{!BpfMap in6 Z DECAP} `{!BpfMapLaws vip_definition vip_meta VIPS}.
Context (bpf_xdp_adjust_head : list Z → Z → option (list Z)) (decap_dst : DECAP).
Implicit Types (s : katran VIPS LRU) (eth inner data : list Z) (p : packet_description).

(** The headers of a tunnel as the balancer reads them. *)
Lemma tunnel_v4_headers eth rest s tos sa da n protocol ck id :
  zlen eth = 14 → zlen id = 2 → 0 <= protocol < 256 → protocol ≠ IPPROTO_ICMP → 0 <= da < 2 ^ 32 →
  let data := eth ++ v4_header tos sa da n protocol ck id ++ rest in
  ∃ p pb, process_l3_headers pckt_zero 14 false (data, s) =
      Ok (Next (FURTHER_PROCESSING, p, pb), (data, s)) ∧
    proto (flow p) = protocol ∧ dstv6 (flow p) = (da, 0, 0, 0) ∧ flags p = 0.
Proof.
  intros Le Li Hp Hicmp Hda data. do 2 peel id Li. done_peel id.
  assert (L : 34 <= zlen data).
  { unfold data. rewrite !zlen_app, zlen_v4_header by done. pose proof (zlen_nonneg rest). lia. }
  assert (G14 : getz data 14 = 69) by (unfold data; by rewrite (getz_at eth _ 0) by lia).
  assert (G23 : getz data 23 = protocol).
  { unfold data. rewrite (getz_at eth _ 9) by lia. apply (u8_small protocol Hp). }
  assert (G20 : w16 data 20 = 0) by (unfold data; by rewrite (w16_at eth _ 6) by lia).
  assert (G30 : w32 data 30 = da).
  { unfold data. rewrite (w32_at eth _ 16) by lia. apply (bytes32_sum da Hda). }
  clearbody data. unfold process_l3_headers. rewrite (bind_next _ _ _ _ _ (frame_run data s)).
  unfold SIZEOF_IPV4_HDR, IPV4_TOS, IPV4_NEXT_PROTO_ID, IPV4_TOTAL_LENGTH, IPV4_FRAG_OFF, IPV4_SRC_ADDR,
    IPV4_DST_ADDR, ihl, IPV4_VERSION_IHL. offsets.
  rewrite (proj2 (Z.ltb_ge _ _)) by lia. rewrite (ld8_ok data 14) by lia. rewrite bind_Ok.
  rewrite (bind_lift _ _ _ eq_refl), G14. change (negb (Z.land 69 15 =? 5)) with false. cbv iota.
  rewrite (bind_lift _ _ _ (ld8_ok data 15 ltac:(lia))), (bind_lift _ _ _ (ld8_ok data 23 ltac:(lia))), G23.
  rewrite (bind_lift _ _ _ (ld16_ok data 16 ltac:(lia) ltac:(lia))).
  rewrite (bind_lift _ _ _ (ld16_ok data 20 ltac:(lia) ltac:(lia))), G20.
  change (negb (Z.land 0 PCKT_FRAGMENTED =? 0)) with false. cbv iota.
  rewrite (proj2 (Z.eqb_neq protocol IPPROTO_ICMP)) by done.
  rewrite (bind_lift _ _ _ (ld32_ok data 26 ltac:(lia) ltac:(lia))).
  rewrite (bind_lift _ _ _ (ld32_ok data 30 ltac:(lia) ltac:(lia))), G30.
  do 2 eexists. split; [reflexivity|]. done.
Qed.

Lemma tunnel_v6_headers eth rest s tc sa da n protocol :
  zlen eth = 14 → 0 <= protocol < 256 → protocol ≠ IPPROTO_FRAGMENT → protocol ≠ IPPROTO_ICMPV6 → in6_ok da →
  let data := eth ++ v6_header tc sa da n protocol ++ rest in
  ∃ p pb, process_l3_headers pckt_zero 14 true (data, s) =
      Ok (Next (FURTHER_PROCESSING, p, pb), (data, s)) ∧
    proto (flow p) = protocol ∧ dstv6 (flow p) = da ∧ flags p = 0.
Proof.
  intros Le Hp Hf Hicmp Hda data. destruct da as [[[x y] z] w], sa as [[[sx sy] sz] sw], Hda as (Hx & Hy & Hz & Hw).
  assert (L : 54 <= zlen data).
  { unfold data. rewrite !zlen_app, zlen_v6_header by done. pose proof (zlen_nonneg rest). lia. }
  assert (G20 : getz data 20 = protocol).
  { unfold data. rewrite (getz_at eth _ 6) by lia. apply (u8_small protocol Hp). }
  assert (G38 : w32 data 38 = x) by (unfold data; rewrite (w32_at eth _ 24) by lia; apply (bytes32_sum x Hx)).
  assert (G42 : w32 data 42 = y) by (unfold data; rewrite (w32_at eth _ 28) by lia; apply (bytes32_sum y Hy)).
  assert (G46 : w32 data 46 = z) by (unfold data; rewrite (w32_at eth _ 32) by lia; apply (bytes32_sum z Hz)).
  assert (G50 : w32 data 50 = w) by (unfold data; rewrite (w32_at eth _ 36) by lia; apply (bytes32_sum w Hw)).
  clearbody data. unfold process_l3_headers. rewrite (bind_next _ _ _ _ _ (frame_run data s)).
  unfold SIZEOF_IPV6HDR, IPV6_NEXTHDR, IPV6_FLOW_LBL, IPV6_PAYLOAD_LEN, IPV6_SADDR, IPV6_DADDR. offsets.
  rewrite (proj2 (Z.ltb_ge _ _)) by lia. rewrite (bind_lift _ _ _ (ld8_ok data 20 ltac:(lia))), G20.
  rewrite (bind_lift _ _ _ (ld8_ok data 14 ltac:(lia))), (bind_lift _ _ _ (ld8_ok data 15 ltac:(lia))).
  rewrite (bind_lift _ _ _ (ld16_ok data 18 ltac:(lia) ltac:(lia))).
  rewrite (proj2 (Z.eqb_neq protocol IPPROTO_FRAGMENT)), (proj2 (Z.eqb_neq protocol IPPROTO_ICMPV6)) by done.
  rewrite (bind_lift _ _ _ (ld_in6_ok data 22 ltac:(lia) ltac:(lia))).
  rewrite (bind_lift _ _ _ (ld_in6_ok data 38 ltac:(lia) ltac:(lia))). offsets. rewrite G38, G42, G46, G50.
  do 2 eexists. split; [reflexivity|]. done.
Qed.
(** The address of a tunnel that ends here, and the statistics of such a tunnel. *)
Definition decap_here (a : in6) : bool :=
  match bpf_map_lookup_elem decap_dst a with Some _ => true | None => false end.
Definition decap_counted s (a : in6) : katran VIPS LRU :=
  if decap_here a then
    upd s (vip_map s) (caches s) (add_stats (stats s) (MAX_VIPS + REMOTE_ENCAP_CNTRS) 1 0) (reals_stats s)
  else s.

Lemma check_decap_dst_run data s p (over_v6 : bool) a :
  zlen (stats s) = STATS_MAP_SIZE → stats64 (stats s) →
  (if over_v6 then dstv6 (flow p) else in6_set0 in6_zero (in6_word0 (dstv6 (flow p)))) = a →
  check_decap_dst decap_dst p over_v6 (data, s) =
    Ok (Next (FURTHER_PROCESSING, negb (decap_here a)), (data, decap_counted s a)).
Proof.
  intros Hl Hs Ha. unfold check_decap_dst, decap_counted, decap_here. rewrite Ha.
  destruct (bpf_map_lookup_elem decap_dst a); [|done].
  assert (Hp : 0 <= MAX_VIPS + REMOTE_ENCAP_CNTRS < zlen (stats s)) by (rewrite Hl; vm_compute; split; congruence).
  rewrite (bind_next _ _ _ _ _ (lookup_stats_run data s _ Hp)).
  pose proof (add_v1_run data s (vip_map s) (caches s) (stats s) (reals_stats s) _ 1 Hp Hs) as E.
  rewrite upd_id in E. by rewrite (bind_next _ _ _ _ _ E).
Qed.

(** What has to become of a [tunnel] to the address [a] with the packet [inner]. *)
Definition tunnel_ends (tunnel : list Z) s (over_v6 : bool) (a : in6) (macs inner : list Z) (v6 : bool) : Prop :=
  ∃ frame, process_packet_decap bpf_xdp_adjust_head decap_dst 14 over_v6 (tunnel, s) =
      Ok (Next (inl (tunnel_verdict (hops_over v6 inner) (decap_here a))), (frame, decap_counted s a)) ∧
    (hops_over v6 inner = false →
     frame = macs ++ bytes16 (if v6 then ETH_P_IPV6_BE else ETHER_TYPE_IPV4_BE) ++ one_hop_less v6 inner).

Section ends.
Variables (data : list Z) (s : katran VIPS LRU) (over_v6 v6 : bool) (p : packet_description) (pb : Z) (a : in6)
  (macs inner : list Z).
Hypothesis (Hl : zlen (stats s) = STATS_MAP_SIZE) (Hs : stats64 (stats s)).
Hypothesis (E3 : process_l3_headers pckt_zero 14 over_v6 (data, s) =
  Ok (Next (FURTHER_PROCESSING, p, pb), (data, s))).
Hypothesis (Ha : (if over_v6 then dstv6 (flow p) else in6_set0 in6_zero (in6_word0 (dstv6 (flow p)))) = a).
Hypothesis (Hm : zlen macs = 12) (Hi : bytes_ok inner).
Abbreviation eth_type := (if v6 then ETH_P_IPV6_BE else ETHER_TYPE_IPV4_BE).

Lemma ipip_ends :
  proto (flow p) = IPPROTO_IPIP ∨ proto (flow p) = IPPROTO_IPV6 →
  (∀ pass, process_encaped_ipip_pckt bpf_xdp_adjust_head data over_v6 (proto (flow p)) pass =
    decapsulated macs eth_type inner v6 pass) →
  tunnel_ends data s over_v6 a macs inner v6.
Proof.
  intros Hp E. destruct (decapsulated_spec macs eth_type inner v6 (negb (decap_here a)) Hm Hi) as (frame & Ed & Hf).
  exists frame. split; [|exact Hf]. unfold process_packet_decap.
  rewrite (bind_next _ _ _ _ _ E3). cbv beta iota zeta.
  unfold inline_decap_ipip.
  assert (Et : (proto (flow p) =? IPPROTO_IPIP) || (proto (flow p) =? IPPROTO_IPV6) = true)
    by by destruct Hp as [-> | ->].
  rewrite Et. rewrite (bind_next (_ ≫= _) _ (data, s)
    (Some (tunnel_verdict (hops_over v6 inner) (decap_here a))) (frame, decap_counted s a)); [done|].
  rewrite (bind_next _ _ _ _ _ (check_decap_dst_run data s p over_v6 a Hl Hs Ha)). cbv beta iota.
  change (0 <=? FURTHER_PROCESSING) with false. cbv iota.
  rewrite (bind_next _ _ _ _ _ (frame_run data (decap_counted s a))).
  rewrite E, Ed, negb_involutive. by rewrite (bind_lift _ _ _ eq_refl).
Qed.

(** A UDP header with the port of GUE. *)
Lemma gue_ends :
  let udp := if over_v6 then 54 else 34 in
  proto (flow p) = IPPROTO_UDP → flags p = 0 → udp + 8 <= zlen data → w16 data (udp + 2) = bpf_htons GUE_DPORT →
  (∀ pass, process_encaped_gue_pckt bpf_xdp_adjust_head data over_v6 pass =
    decapsulated macs eth_type inner v6 pass) →
  tunnel_ends data s over_v6 a macs inner v6.
Proof.
  intros udp Hp Hflags Hudp Hport E.
  destruct (decapsulated_spec macs eth_type inner v6 (negb (decap_here a)) Hm Hi) as (frame & Ed & Hf).
  exists frame. split; [|exact Hf]. unfold process_packet_decap.
  rewrite (bind_next _ _ _ _ _ E3). cbv beta iota zeta. unfold inline_decap_ipip. rewrite Hp.
  change ((IPPROTO_UDP =? IPPROTO_IPIP) || (IPPROTO_UDP =? IPPROTO_IPV6)) with false. cbv iota.
  rewrite (bind_next (mret None) _ (data, s) None (data, s) eq_refl).
  assert (Ep : parse_ports over_v6 p (data, s) =
    Ok (Next (set_ports p (w16 data udp) (bpf_htons GUE_DPORT)), (data, s))).
  { unfold parse_ports. rewrite (bind_next _ _ _ _ _ (frame_run data s)). cbv zeta. rewrite Hp.
    change (IPPROTO_UDP =? IPPROTO_UDP) with true. change (IPPROTO_UDP =? IPPROTO_TCP) with false. cbn [orb].
    assert (Eu : parse_udp data over_v6 p = Ok (Some (set_ports p (w16 data udp) (bpf_htons GUE_DPORT)))).
    { unfold parse_udp. rewrite Hflags. change (negb (Z.land 0 F_ICMP =? 0)) with false. cbv zeta.
      assert (Ec : calc_offset over_v6 false = udp) by by destruct over_v6. rewrite Ec.
      assert (Hu0 : 0 <= udp) by (unfold udp; by destruct over_v6).
      unfold SIZEOF_UDPHDR, TCPUDP_SRC_PORT, TCPUDP_DST_PORT. rewrite (proj2 (Z.ltb_ge _ _)) by lia.
      rewrite !ld16_ok by lia. rewrite !bind_Ok, Hport, Z.add_0_r. done. }
    rewrite (bind_lift _ _ _ Eu). done. }
  rewrite (bind_next _ _ _ _ _ Ep). change (IPPROTO_UDP =? IPPROTO_UDP) with true. cbv iota.
  unfold inline_decap_gue. cbn [set_ports flow port16_1]. rewrite Z.eqb_refl.
  rewrite (bind_next (_ ≫= _) _ (data, s)
    (Some (tunnel_verdict (hops_over v6 inner) (decap_here a))) (frame, decap_counted s a)); [done|].
  rewrite (bind_next _ _ _ _ _ (check_decap_dst_run data s (set_ports p (w16 data udp) (bpf_htons GUE_DPORT))
    over_v6 a Hl Hs Ha)). cbv beta iota.
  change (0 <=? FURTHER_PROCESSING) with false. cbv iota.
  rewrite (bind_next _ _ _ _ _ (frame_run data (decap_counted s a))).
  rewrite E, Ed, negb_involutive. by rewrite (bind_lift _ _ _ eq_refl).
Qed.
End ends.
End arrival.

Section relay.
Context {VIPS LRU DECAP : Type} `{!BpfMap vip_definition vip_meta VIPS} `{!BpfMap flow_key real_pos_lru LRU}
  `{!BpfMap in6 Z DECAP} `{!BpfMapLaws vip_definition vip_meta VIPS}.
Context (bpf_xdp_adjust_head : list Z → Z → option (list Z)) `{!AdjustHead bpf_xdp_adjust_head}.
Implicit Types (s : katran VIPS LRU) (data mac : list Z) (pckt : packet_description) (dst : in6)
  (srcs : list real_definition).

Abbreviation ends := (tunnel_ends (VIPS := VIPS) (LRU := LRU) bpf_xdp_adjust_head).

(** C33: What a balancer with inline decapsulation makes of a tunnel that a balancer sent,
    IP in IP or GUE, over IPv4 or over IPv6, from the bytes of the tunnel, whose headers
    it parses. What is left is the packet that was sent behind an Ethernet header, with
    the time to live one less and the checksum of IPv4 adjusted ([one_hop_less]); it is
    dropped if its header is cut short or the time to live was 1, else goes to the host,
    or through the balancer again and is counted if [decap_dst] has the tunnel's address.
    Over IPv6 that is for packets of both protocols. Over IPv4 every packet is taken for
    IPv4: the balancer does send IPv6 packets in IPv4 tunnels, to a real with an IPv4
    address, under the protocol number of IPv4 in IPv4, and such a packet is left with
    the Ethernet type of IPv4 and with bytes 8, 10 and 11, of its source address,
    changed. The kernel's [bpf_xdp_adjust_head] does not fail, the addresses of the
    balancer and of the real are 32-bit words, [tos] is a byte. *)
Theorem katran_inline_decap (decap_dst : DECAP) srcs (s4 s6 : real_definition) data mac pckt dst n (is_ipv6 : bool) s :
  (∀ l m, bpf_xdp_adjust_head l m ≠ None) →
  bpf_map_lookup_elem srcs V4_SRC_INDEX = Some s4 → bpf_map_lookup_elem srcs V6_SRC_INDEX = Some s6 →
  14 < zlen data → zlen mac = 6 → bytes_ok data → bytes_ok mac → 0 <= tos pckt < 256 → in6_ok dst →
  getz data 14 / 16 = (if is_ipv6 then 6 else 4) → zlen (stats s) = STATS_MAP_SIZE → stats64 (stats s) →
  let macs := mac ++ slice data 0 6 in
  let inner := drop 14 data in
  let dst4 := (in6_word0 dst, 0, 0, 0) in
  (∃ tunnel, encap_v4 bpf_xdp_adjust_head data mac pckt dst n = Ok (true, tunnel) ∧
    ends decap_dst tunnel s false dst4 macs inner false) ∧
  (∃ tunnel, encap_v6 bpf_xdp_adjust_head data mac is_ipv6 pckt dst n = Ok (true, tunnel) ∧
    ends decap_dst tunnel s true dst macs inner is_ipv6) ∧
  (∃ tunnel, gue_encap_v4 bpf_xdp_adjust_head srcs data mac pckt dst n = Ok (true, tunnel) ∧
    ends decap_dst tunnel s false dst4 macs inner false) ∧
  (∃ tunnel, gue_encap_v6 bpf_xdp_adjust_head srcs data mac is_ipv6 pckt dst n = Ok (true, tunnel) ∧
    ends decap_dst tunnel s true dst macs inner is_ipv6).
Proof.
  intros Hall E4 E6 Hl Lm Bd Bm Ht Hdst Hver Hst Hs macs inner dst4.
  assert (Hadj : ∀ l m, ∃ d, bpf_xdp_adjust_head l m = Some d).
  { intros l m. destruct (bpf_xdp_adjust_head l m) eqn:E; [by eexists|by apply Hall in E]. }
  assert (Le : ∀ p, zlen (mac ++ slice data 0 6 ++ bytes16 p) = 14) by (intros p; apply zlen_eth; lia).
  assert (Lmacs : zlen macs = 12) by (unfold macs; rewrite zlen_app, zlen_slice by lia; lia).
  assert (T12 : ∀ p, take 12 (mac ++ slice data 0 6 ++ bytes16 p) = macs).
  { intros p. rewrite app_assoc, take_app_length'; [done|]. unfold macs, zlen in Lmacs. lia. }
  assert (Bi : bytes_ok inner) by by apply Forall_drop.
  assert (Hd4 : 0 <= in6_word0 dst < 2 ^ 32) by (destruct dst as [[[x y] z] w]; apply Hdst).
  split; [|split; [|split]].
  - destruct (Hadj data (0 - SIZEOF_IPV4_HDR)) as [d Ed].
    destruct (encap_v4_spec bpf_xdp_adjust_head data mac pckt dst n d Ed ltac:(lia) Lm Bd Bm)
      as (ck & id & _ & Lid & E & _). eexists. split; [exact E|]. unfold outer_v4. set (saddr := Z.lor _ _).
    rewrite (app_assoc (slice data 0 6)), (app_assoc mac), <- (app_assoc _ (v4_header _ _ _ _ _ _ _)).
    edestruct (tunnel_v4_headers (VIPS := VIPS) (LRU := LRU)) as (p & pb & E3 & Hp & Hda & Hfl); cycle -1.
    + eapply ipip_ends; [done|done|exact E3|by rewrite Hda|done|done|by left|].
      intros pass. rewrite Hp, (ipip_decap_v4 _ Hall) by (done || by apply zlen_v4_header). by rewrite T12.
    + apply Le. + done. + done. + done. + done.
  - destruct (Hadj data (0 - SIZEOF_IPV6HDR)) as [d Ed].
    pose proof (encap_v6_spec bpf_xdp_adjust_head data mac is_ipv6 pckt dst n d Ed ltac:(lia) Lm Ht) as E.
    eexists. split; [exact E|]. unfold outer_v6.
    rewrite (app_assoc (slice data 0 6)), (app_assoc mac), <- (app_assoc _ (v6_header _ _ _ _ _)).
    edestruct (tunnel_v6_headers (VIPS := VIPS) (LRU := LRU)) as (p & pb & E3 & Hp & Hda & Hfl); cycle -1.
    + eapply ipip_ends; [done|done|exact E3|by rewrite Hda|done|done|rewrite Hp; destruct is_ipv6; auto|].
      intros pass. rewrite Hp, (ipip_decap_v6 _ Hall) by (done || apply zlen_v6_header). by rewrite T12.
    + apply Le. + by destruct is_ipv6. + by destruct is_ipv6. + by destruct is_ipv6. + done.
  - destruct (Hadj data (0 - (SIZEOF_IPV4_HDR + SIZEOF_UDPHDR))) as [d Ed].
    destruct (gue_encap_v4_spec bpf_xdp_adjust_head srcs s4 data mac pckt dst n d E4 Ed ltac:(lia) Lm Bd Bm)
      as (ck & id & Lid & E & _). eexists. split; [exact E|]. unfold gue_outer_v4. cbv zeta.
    set (udp := udp_header _ _ _).
    match goal with |- context [v4_header ?a ?b ?c ?d ?e ?f ?g] =>
      destruct (tunnel_v4_headers (VIPS := VIPS) (LRU := LRU) (mac ++ slice data 0 6 ++ bytes16 ETHER_TYPE_IPV4_BE)
        (udp ++ inner) s a b c d e f g) as (p & pb & E3 & Hp & Hda & Hfl); [apply Le|done..|] end.
    set (hdr := v4_header _ _ _ _ _ _ _) in *. rewrite <- (app_assoc _ (hdr ++ udp)).
    assert (L20 : zlen hdr = 20) by by apply zlen_v4_header.
    assert (L28 : zlen (hdr ++ udp) = 28) by (rewrite zlen_app, L20; done).
    rewrite (app_assoc hdr) in E3.
    eapply gue_ends; [done|done|exact E3|by rewrite Hda|done|done|exact Hp|exact Hfl|..].
    + rewrite !zlen_app. pose proof (zlen_nonneg (drop 14 data)). rewrite zlen_app in L28. specialize (Le ETHER_TYPE_IPV4_BE).
      rewrite !zlen_app in Le. cbv iota. lia.
    + cbv iota. rewrite (w16_at _ _ 22) by (rewrite ?Le; lia). rewrite <- app_assoc, (w16_at hdr _ 2) by lia. reflexivity.
    + intros pass. by rewrite (gue_decap_v4_spec _ Hall), T12 by (apply Le || done).
  - destruct (Hadj data (0 - (SIZEOF_IPV6HDR + SIZEOF_UDPHDR))) as [d Ed].
    pose proof (gue_encap_v6_spec bpf_xdp_adjust_head srcs s6 data mac is_ipv6 pckt dst n d E6 Ed ltac:(lia) Lm Ht) as E.
    eexists. split; [exact E|]. unfold gue_outer_v6. cbv zeta.
    set (udp := udp_header _ _ _).
    match goal with |- context [v6_header ?a ?b ?c ?d ?e] =>
      destruct (tunnel_v6_headers (VIPS := VIPS) (LRU := LRU) (mac ++ slice data 0 6 ++ bytes16 ETH_P_IPV6_BE)
        (udp ++ inner) s a b c d e) as (p & pb & E3 & Hp & Hda & Hfl); [apply Le|done..|] end.
    set (hdr := v6_header _ _ _ _ _) in *. rewrite <- (app_assoc _ (hdr ++ udp)).
    assert (L40 : zlen hdr = 40) by apply zlen_v6_header.
    assert (L48 : zlen (hdr ++ udp) = 48) by (rewrite zlen_app, L40; done).
    assert (Eg : getz inner 0 = getz data 14) by (unfold getz, inner; by rewrite lookup_total_drop).
    rewrite (app_assoc hdr) in E3.
    eapply gue_ends; [done|done|exact E3|by rewrite Hda|done|done|exact Hp|exact Hfl|..].
    + rewrite !zlen_app. pose proof (zlen_nonneg (drop 14 data)). rewrite zlen_app in L48. specialize (Le ETH_P_IPV6_BE).
      rewrite !zlen_app in Le. cbv iota. lia.
    + cbv iota. rewrite (w16_at _ _ 42) by (rewrite ?Le; lia). rewrite <- app_assoc, (w16_at hdr _ 2) by lia. reflexivity.
    + intros pass. rewrite (gue_decap_v6_spec _ Hall _ _ inner pass (Le _) is_ipv6 L48), T12; [done|..].
      * unfold inner, zlen in *. rewrite length_drop. lia.
      * by rewrite Eg.
      * rewrite Eg. apply bytes_ok_get; [done|lia].
Qed.
End relay.

(** ** Packets that are too big *)
(** What the kernel does to the end of a frame. *)
Class AdjustTail (bpf_xdp_adjust_tail : list Z → Z → option (list Z)) :=
  adjust_tail_shrink data n d :
    0 <= n <= zlen data → bpf_xdp_adjust_tail data (0 - n) = Some d →
    d = take (Z.to_nat (zlen data - n)) data.

Section swap.
Implicit Types (data : list Z).

Lemma bytes16_w16 data off :
  bytes_ok data → 0 <= off → off + 2 <= zlen data → bytes16 (w16 data off) = slice data off 2.
Proof.
  intros Hb Ho Hl. unfold w16. rewrite bytes16_le by (apply bytes_ok_get; [done|lia]).
  rewrite (slice_S data off), (slice_S data (off + 1)) by lia. done.
Qed.

Lemma swap_mac_spec data orig :
  bytes_ok data → 14 <= orig → orig + 14 <= zlen data →
  swap_mac data orig =
    Ok ((slice data (orig + 6) 6 ++ slice data orig 6 ++ slice data (orig + 12) 2) ++ drop 14 data).
Proof.
  intros Hb Ho Hl. unfold swap_mac, ETHER_D_ADDR, ETHER_S_ADDR, ETHER_TYPE. rewrite Z.add_0_r.
  destruct (split_at 6 data) as (E1 & L1 & L1'); [lia|].
  destruct (split_at 6 (drop 6 data)) as (E2 & L2 & L2'); [lia|].
  destruct (split_at 2 (drop 6 (drop 6 data))) as (E3 & L3 & L3'); [lia|].
  assert (E14 : drop 2 (drop 6 (drop 6 data)) = drop 14 data) by by rewrite !drop_drop. rewrite E14 in E3.
  assert (Ed : data = take 6 data ++ take 6 (drop 6 data) ++ take 2 (drop 6 (drop 6 data)) ++ drop 14 data) by congruence.
  revert L1 L2 L3 Ed. generalize (take 6 data) (take 6 (drop 6 data)) (take 2 (drop 6 (drop 6 data))).
  clear E1 E2 E3 E14 L1' L2' L3'. intros a b c La Lb Lc Ed.
  assert (G : ∀ x y z k n, zlen x = 6 → zlen y = 6 → zlen z = 2 → 14 <= k →
    slice (x ++ y ++ z ++ drop 14 data) k n = slice data k n).
  { intros x y z k n Lx Ly Lz Hk. rewrite Ed at 2.
    rewrite (app_assoc x), (app_assoc (x ++ y)), (app_assoc a), (app_assoc (a ++ b)).
    rewrite !slice_app_r by (rewrite !zlen_app; lia). by rewrite !zlen_app, La, Lb, Lc, Lx, Ly, Lz. }
  set (sd := slice data orig 6). set (ss := slice data (orig + 6) 6).
  assert (Lsd : zlen sd = 6) by (unfold sd; rewrite zlen_slice; lia).
  assert (Lss : zlen ss = 6) by (unfold ss; rewrite zlen_slice; lia).
  rewrite ld_bytes_ok by lia. rewrite bind_Ok. change (Z.of_nat 6) with 6. fold sd.
  assert (Lall : ∀ x y z, zlen x = 6 → zlen y = 6 → zlen z = 2 → zlen (x ++ y ++ z ++ drop 14 data) = zlen data).
  { intros x y z Lx Ly Lz. rewrite Ed at 2. rewrite !zlen_app. lia. }
  rewrite Ed at 1. rewrite (st_bytes_piece a b sd), bind_Ok by (unfold zlen in *; lia).
  rewrite ld_bytes_ok by (rewrite ?Lall by done; lia). rewrite bind_Ok. change (Z.of_nat 6) with 6.
  rewrite G by (done || lia). fold ss.
  rewrite (st_bytes_piece [] a ss (sd ++ c ++ drop 14 data)), bind_Ok by (unfold zlen in *; cbn; lia). cbn [app].
  rewrite ld16_ok by (rewrite ?Lall by done; lia). rewrite bind_Ok, st16_bytes.
  assert (Bn : bytes_ok (ss ++ sd ++ c ++ drop 14 data)).
  { assert (Bc : bytes_ok (c ++ drop 14 data)).
    { rewrite Ed in Hb. apply Forall_app in Hb as [_ Hb]. by apply Forall_app in Hb as [_ Hb]. }
    repeat (apply bytes_ok_app; [by apply bytes_ok_slice|]). done. }
  rewrite bytes16_w16 by (done || rewrite ?Lall by done; lia). rewrite G by (done || lia).
  set (t := slice data (orig + 12) 2). assert (Lt : zlen t = 2) by (unfold t; rewrite zlen_slice; lia).
  rewrite (app_assoc ss), (st_bytes_piece (ss ++ sd) c t) by (rewrite ?zlen_app; unfold zlen in *; lia).
  by rewrite <- !app_assoc.
Qed.
End swap.

(** The checksum field of a message, for the helper of the kernel. *)
Section fields.
Context (bpf_csum_diff : list Z → Z → Z) `{!CsumDiff bpf_csum_diff}.

Lemma ipv4_csum_field (p a b rest : list Z) start size :
  start = zlen p → size = zlen a + 2 + zlen b → size mod 4 = 0 → zlen a mod 2 = 0 →
  bytes_ok a → bytes_ok b → 0 < sum16 a →
  ∃ ck, 0 <= ck < 65536 ∧ csum_ok (a ++ bytes16 ck ++ b) ∧
    ipv4_csum bpf_csum_diff (p ++ (a ++ [0; 0] ++ b) ++ rest) start size 0 = Ok ck.
Proof.
  intros -> -> Hm Ha Ba Bb Hpos. unfold ipv4_csum.
  set (l := a ++ [0; 0] ++ b). assert (Ll : zlen l = zlen a + 2 + zlen b).
  { unfold l. rewrite !zlen_app. change (zlen [0; 0]) with 2. lia. }
  rewrite ld_bytes_piece by (done || unfold zlen in *; lia). rewrite bind_Ok.
  assert (Bl : bytes_ok l) by (unfold l; repeat (apply bytes_ok_app; [done || by apply bytes_ok_b_spec|]); done).
  destruct (csum_fold_spec (bpf_csum_diff l 0)) as (r & -> & Hr & Hrm); [by apply csum_diff_bound|].
  exists (u16 (Z.lnot r)). split; [apply u16_bound|]. split; [|done].
  apply (field_verifies a b []); try done; [constructor|]. cbn [app]. fold l.
  rewrite Hrm. rewrite csum_diff_spec by (done || by rewrite Ll). by rewrite Z.add_0_l.
Qed.
End fields.

(** The ICMP message and the headers of the answers, where [frame] is the packet. *)
Definition too_big_eth (frame : list Z) : list Z := slice frame 6 6 ++ slice frame 0 6 ++ slice frame 12 2.
Definition too_big_v4_header (saddr daddr : list Z) (ck : Z) (id : list Z) : list Z :=
  [69; 0] ++ bytes16 (bpf_htons 112) ++ id ++ [DEFAULT_TTL; IPPROTO_ICMP] ++ bytes16 ck ++ saddr ++ daddr.
Definition too_big_v4_message (ck : Z) (unused : list Z) : list Z :=
  [ICMP_DEST_UNREACH; ICMP_FRAG_NEEDED] ++ bytes16 ck ++ unused ++ bytes16 (bpf_htons 1500).

(** One store into an explicit list behind [q]. *)
Lemma st_bytes_shift (a l : list Z) off k v :
  off = zlen a + k → 0 <= k → st_bytes (a ++ l) off v = (λ l, a ++ l) <$> st_bytes l k v.
Proof.
  intros ->. revert l k. induction v as [|x v IH]; intros l k Hk; cbn [st_bytes]; [done|].
  rewrite wr_shift by done. destruct (wr l k x) as [l'|]; [|done]. cbn [fmap res_fmap].
  rewrite !bind_Ok. rewrite <- (IH l' (k + 1)) by lia. f_equal. lia.
Qed.


Ltac behind q off k :=
  rewrite (st_bytes_shift q _ off k) by lia; rewrite st_bytes_list by len; explicit; fold (@app Z);
  cbn [fmap res_fmap]; rewrite bind_Ok.

Section room.
Context (bpf_xdp_adjust_head : list Z → Z → option (list Z)) `{!AdjustHead bpf_xdp_adjust_head}.

(** How both answers begin: the new headers are still the [old] bytes. *)
Lemma too_big_room d n r :
  14 <= n → 14 <= zlen d → bytes_ok d → bpf_xdp_adjust_head d (0 - n) = Some r →
  zlen r = n + zlen d ∧
  ∃ old, zlen old = n ∧ bytes_ok old ∧ swap_mac r n = Ok (too_big_eth d ++ old ++ drop 14 d).
Proof.
  intros Hn Hd Bd Er. destruct (adjust_grow d n r ltac:(lia) Er) as (h & Lh & Bh & ->).
  rewrite zlen_app, Lh. split; [done|].
  destruct (room_split h d n) as (old & Lo & Eo & _ & Bo & _); [done|lia|lia|].
  exists old. split; [done|]. split; [by apply Bo|].
  rewrite swap_mac_spec by (done || (rewrite zlen_app; lia) || by apply bytes_ok_app).
  rewrite !slice_app_r, Eo, Lh by lia. unfold too_big_eth. do 2 f_equal.
  by rewrite Z.sub_diag, !Z.add_simpl_l.
Qed.

Lemma too_big_eth_ok d : 14 <= zlen d → bytes_ok d → zlen (too_big_eth d) = 14 ∧ bytes_ok (too_big_eth d).
Proof.
  intros Hl Bd. unfold too_big_eth. rewrite !zlen_app, !zlen_slice by lia. split; [done|].
  repeat apply bytes_ok_app; by apply bytes_ok_slice.
Qed.
End room.

Section too_big_v4.
Context (bpf_csum_diff : list Z → Z → Z) `{!CsumDiff bpf_csum_diff}.

(** The stores to the message. *)
Lemma too_big_v4_stores_message {A} (k : list Z → res A) eth ip icmp body :
  zlen eth = 14 → zlen ip = 20 → zlen icmp = 8 → zlen body = 84 → bytes_ok icmp → bytes_ok body →
  ∃ ick, csum_ok (too_big_v4_message ick (slice icmp 4 2) ++ body) ∧
  (data ← wr (eth ++ ip ++ icmp ++ body) 34 ICMP_DEST_UNREACH;
   data ← wr data 35 ICMP_FRAG_NEEDED;
   data ← st16 data 40 (bpf_htons (u16 (MAX_PCKT_SIZE - 14)));
   data ← st16 data 36 0;
   csum ← ipv4_csum bpf_csum_diff data 34 ICMP_TOOBIG_PAYLOAD_SIZE 0;
   data ← st16 data 36 csum;
   k data) = k (eth ++ ip ++ too_big_v4_message ick (slice icmp 4 2) ++ body).
Proof.
  intros Le Li Lm Lb Bm Bb. rewrite (app_assoc eth). assert (Lp : zlen (eth ++ ip) = 34) by (rewrite zlen_app; lia).
  remember (eth ++ ip) as p eqn:Ep.
  do 8 peel icmp Lm. done_peel icmp. bytes_ne Bm. clear Lm.
  rewrite wr_bytes. behind p 34 0. rewrite wr_bytes. behind p 35 1.
  rewrite st16_bytes. change (bytes16 (bpf_htons (u16 (MAX_PCKT_SIZE - 14)))) with [5; 220]. behind p 40 6.
  rewrite st16_bytes. change (bytes16 0) with [0; 0]. behind p 36 2.
  destruct (ipv4_csum_field bpf_csum_diff p [ICMP_DEST_UNREACH; ICMP_FRAG_NEEDED] ([z3; z4; 5; 220] ++ body) []
    34 ICMP_TOOBIG_PAYLOAD_SIZE) as (ick & Hick & Hok & E); try done.
  { rewrite zlen_app, Lb. done. } { bytes. } { bytes. }
  exists ick. split; [exact Hok|]. rewrite (app_assoc eth), <- Ep. rewrite app_nil_r in E. cbn [app] in E. rewrite E, bind_Ok.
  rewrite st16_bytes. unfold bytes16 at 1. behind p 36 2. reflexivity.
Qed.

(** The stores to the header, with the addresses of the packet in [body]. *)
Lemma too_big_v4_stores_header {A} (k : list Z → res A) eth ip icmp body :
  zlen eth = 14 → zlen ip = 20 → zlen icmp = 8 → zlen body = 84 → bytes_ok ip → bytes_ok body →
  ∃ ck, csum_ok (too_big_v4_header (slice body 16 4) (slice body 12 4) ck (slice ip 4 4)) ∧
  (data ← wr (eth ++ ip ++ icmp ++ body) 22 DEFAULT_TTL;
   saddr ← ld32 data 54;
   data ← st32 data 30 saddr;
   daddr ← ld32 data 58;
   data ← st32 data 26 daddr;
   data ← st_high data 14 4;
   data ← st_low data 14 5;
   data ← wr data 23 IPPROTO_ICMP;
   data ← wr data 15 0;
   data ← st16 data 16 (bpf_htons (u16 (ICMP_TOOBIG_SIZE + 28 - 14)));
   data ← st16 data 24 0;
   csum ← ipv4_csum bpf_csum_diff data 14 20 0;
   data ← st16 data 24 csum;
   k data) =
  k (eth ++ too_big_v4_header (slice body 16 4) (slice body 12 4) ck (slice ip 4 4) ++ icmp ++ body).
Proof.
  intros Le Li Lm Lb Bi Bb. do 20 peel ip Li. done_peel ip. clear Li. bytes_ne Bi.
  assert (W : ∀ ip' o x, zlen ip' = 20 → o = 42 + x → 0 <= x <= 80 →
    ld32 (eth ++ ip' ++ icmp ++ body) o = Ok (w32 body x)).
  { intros ip' o x Li -> Hx. rewrite ld32_ok by (rewrite ?zlen_app; lia).
    rewrite (app_assoc eth), (app_assoc (eth ++ ip')).
    by rewrite (w32_at _ _ x) by (rewrite ?zlen_app; lia). }
  rewrite <- !(bytes32_w32 body) by (done || lia). rewrite wr_bytes. behind eth 22 8.
  match goal with |- context [ld32 (eth ++ ?l) 54] => replace (ld32 (eth ++ l) 54) with (Ok (w32 body 12))
    by exact (eq_sym (W (take 20 l) 54 12 eq_refl eq_refl ltac:(lia))) end.
  rewrite bind_Ok, st32_bytes. unfold bytes32. behind eth 30 16.
  match goal with |- context [ld32 (eth ++ ?l) 58] => replace (ld32 (eth ++ l) 58) with (Ok (w32 body 16))
    by exact (eq_sym (W (take 20 l) 58 16 eq_refl eq_refl ltac:(lia))) end.
  rewrite bind_Ok, st32_bytes. unfold bytes32. behind eth 26 12.
  rewrite st_high_piece, bind_Ok, st_low_piece, bind_Ok, nibbles by done. change (16 * 4 + 5) with 69.
  rewrite wr_bytes. behind eth 23 9. rewrite wr_bytes. behind eth 15 1.
  rewrite st16_bytes. change (bytes16 (bpf_htons (u16 (ICMP_TOOBIG_SIZE + 28 - 14)))) with [0; 112]. behind eth 16 2.
  rewrite st16_bytes. change (bytes16 0) with [0; 0]. behind eth 24 10.
  match goal with |- context [ipv4_csum _ (eth ++ ?l) _ _ _] =>
    destruct (ipv4_csum_field bpf_csum_diff eth (take 10 l) (take 8 (drop 12 l)) (icmp ++ body) 14 20)
      as (ck & Hck & Hok & E) end; try done.
  { cbn [take drop]. bytes. } { cbn [take drop]. bytes. }
  { cbn [take drop sum16]. unfold DEFAULT_TTL, IPPROTO_ICMP. lia. }
  exists ck. split; [exact Hok|].
  match goal with |- context [ipv4_csum ?f ?l ?o ?n 0] => replace (ipv4_csum f l o n 0) with (Ok ck) by exact (eq_sym E) end.
  rewrite bind_Ok, st16_bytes. unfold bytes16 at 1. behind eth 24 10. reflexivity.
Qed.
End too_big_v4.

Section answer_v4.
Context (bpf_csum_diff : list Z → Z → Z) `{!CsumDiff bpf_csum_diff}.
Context (bpf_xdp_adjust_head : list Z → Z → option (list Z)) `{!AdjustHead bpf_xdp_adjust_head}.

Lemma slice_drop (l : list Z) n m off : 0 <= off → slice (drop n l) off m = slice l (Z.of_nat n + off) m.
Proof. intros Ho. unfold slice. rewrite drop_drop. do 2 f_equal. lia. Qed.

Lemma icmp4_too_big_spec d r :
  zlen d = 98 → bytes_ok d → bpf_xdp_adjust_head d (0 - 28) = Some r →
  let header := too_big_v4_header (slice d 30 4) (slice d 26 4) in
  ∃ ck ick id unused, zlen id = 4 ∧ zlen unused = 2 ∧ csum_ok (header ck id) ∧
    csum_ok (too_big_v4_message ick unused ++ drop 14 d) ∧
    send_icmp4_too_big bpf_csum_diff bpf_xdp_adjust_head d =
      Ok (XDP_TX, too_big_eth d ++ header ck id ++ too_big_v4_message ick unused ++ drop 14 d).
Proof.
  intros Ld Bd Er header. destruct (too_big_room _ d 28 r) as (Lr & old & Lo & Bo & Es); [done|lia|done..|].
  destruct (too_big_eth_ok d) as [Le Be]; [lia|done|].
  unfold send_icmp4_too_big. change (SIZEOF_IPV4_HDR + SIZEOF_ICMPHDR) with 28. cbv zeta. rewrite Er.
  rewrite (proj2 (Z.ltb_ge _ _)) by (unfold ICMP_TOOBIG_SIZE; lia). rewrite Es, bind_Ok.
  assert (∃ ip icmp, old = ip ++ icmp ∧ zlen ip = 20 ∧ zlen icmp = 8) as (ip & icmp & -> & Li & Lm).
  { destruct (split_at 20 old) as (Eo & Li & Lm); [lia|]. exists (take 20 old), (drop 20 old). split; [done|lia]. }
  apply Forall_app in Bo as [Bi Bm].
  rewrite <- app_assoc. set (body := drop 14 d).
  assert (Lb : zlen body = 84) by (unfold body, zlen in *; rewrite length_drop; lia).
  assert (Bb : bytes_ok body) by by apply Forall_drop.
  unfold ICMP_TYPE, ICMP_CODE, ICMP_MTU, ICMP_CKSUM, IPV4_TTL, IPV4_SRC_ADDR, IPV4_DST_ADDR, IPV4_VERSION_IHL,
    IPV4_NEXT_PROTO_ID, IPV4_TOS, IPV4_TOTAL_LENGTH, IPV4_HDR_CHECKSUM, SIZEOF_ETHER_HDR, SIZEOF_IPV4_HDR,
    SIZEOF_ICMPHDR. offsets.
  edestruct (too_big_v4_stores_message bpf_csum_diff (A := Z * list Z)) as (ick & Hm & E);
    [exact Le|exact Li|exact Lm|exact Lb|done|done|]. rewrite E. clear E.
  edestruct (too_big_v4_stores_header bpf_csum_diff (A := Z * list Z))
    with (icmp := too_big_v4_message ick (slice icmp 4 2)) as (ck & Hh & E);
    [exact Le|exact Li| |exact Lb|done|done|].
  { unfold too_big_v4_message. rewrite !zlen_app, zlen_slice by lia. done. }
  rewrite E. unfold body in Hh |- *. rewrite !slice_drop in Hh |- * by done.
  exists ck, ick, (slice ip 4 4), (slice icmp 4 2). rewrite !zlen_slice by lia. done.
Qed.
End answer_v4.

Section too_big_v6.
Context (bpf_csum_diff : list Z → Z → Z) `{!CsumDiff bpf_csum_diff}.
Context (bpf_xdp_adjust_head : list Z → Z → option (list Z)) `{!AdjustHead bpf_xdp_adjust_head}.

Lemma csum_diff_step l seed s :
  bytes_ok l → zlen l mod 4 = 0 → 0 <= seed < 2 ^ 32 → seed mod 65535 = s mod 65535 →
  0 <= bpf_csum_diff l seed < 2 ^ 32 ∧ bpf_csum_diff l seed mod 65535 = (s + sum16 l) mod 65535.
Proof.
  intros Hb Hl Hs E. split; [by apply csum_diff_bound|].
  rewrite csum_diff_spec by done. by rewrite Z.add_mod, E, <- Z.add_mod by lia.
Qed.

Lemma bswap32_bytes x : bytes_ok (bytes32 (bswap32 x)).
Proof. unfold bytes32. bytes. Qed.

(** The pseudo header: the addresses, the length and the protocol, as words. *)
Definition pseudo_v6 (saddr daddr : list Z) (size nexthdr : Z) : list Z :=
  saddr ++ daddr ++ bytes32 (bswap32 size) ++ bytes32 (bswap32 nexthdr).

Lemma pseudo_v6_ok sa da size nh : bytes_ok sa → bytes_ok da → bytes_ok (pseudo_v6 sa da size nh).
Proof. intros. repeat apply bytes_ok_app; auto using bswap32_bytes. Qed.

(** [hd]: the eight bytes before the addresses. *)
Lemma ipv6_csum_field (eth hd sa da a b : list Z) start size :
  zlen eth = 14 → zlen hd = 8 → zlen sa = 16 → zlen da = 16 → start = 54 →
  size = zlen a + 2 + zlen b → size mod 4 = 0 → zlen a mod 2 = 0 →
  bytes_ok sa → bytes_ok da → bytes_ok a → bytes_ok b → 0 < sum16 a →
  ∃ ck, 0 <= ck < 65536 ∧
    csum_ok (pseudo_v6 sa da size (getz hd 6) ++ a ++ bytes16 ck ++ b) ∧
    ipv6_csum bpf_csum_diff (eth ++ hd ++ sa ++ da ++ a ++ [0; 0] ++ b) start size 0 14 = Ok ck.
Proof.
  intros Le Lh Ls Ld -> Hsz Hm Ha Bs Bd Ba Bb Hpos. unfold ipv6_csum, IPV6_SADDR, IPV6_DADDR, IPV6_NEXTHDR. offsets.
  set (l := a ++ [0; 0] ++ b). assert (Ll : zlen l = size).
  { unfold l. rewrite !zlen_app. change (zlen [0; 0]) with 2. lia. }
  assert (Bl : bytes_ok l) by (unfold l; repeat (apply bytes_ok_app; [done || by apply bytes_ok_b_spec|]); done).
  rewrite (app_assoc eth), (ld_bytes_piece (eth ++ hd) sa _ 22) by (rewrite ?zlen_app; unfold zlen in *; lia).
  rewrite bind_Ok, (app_assoc (eth ++ hd)), (ld_bytes_piece ((eth ++ hd) ++ sa) da _ 38)
    by (rewrite ?zlen_app; unfold zlen in *; lia).
  rewrite bind_Ok, (app_assoc ((eth ++ hd) ++ sa)).
  rewrite (ld8_ok _ 20) by (rewrite !zlen_app; pose proof (zlen_nonneg l); lia). rewrite bind_Ok.
  assert (En : getz ((((eth ++ hd) ++ sa) ++ da) ++ l) 20 = getz hd 6).
  { rewrite <- !app_assoc, getz_app_r by lia. rewrite Le. change (20 - 14) with 6. unfold getz.
    rewrite !list_lookup_total_alt, lookup_app_l by (unfold zlen in Lh; lia). done. }
  rewrite En. rewrite <- (app_nil_r l).
  rewrite (ld_bytes_piece _ l []) by (rewrite ?zlen_app; unfold zlen in *; lia). rewrite bind_Ok.
  destruct (csum_diff_step sa 0 0 Bs) as [B1 E1]; [by rewrite Ls|done|done|].
  destruct (csum_diff_step da _ _ Bd ltac:(by rewrite Ld) B1 E1) as [B2 E2].
  destruct (csum_diff_step (bytes32 (bswap32 size)) _ _ (bswap32_bytes _) eq_refl B2 E2) as [B3 E3].
  destruct (csum_diff_step (bytes32 (bswap32 (getz hd 6))) _ _ (bswap32_bytes _) eq_refl B3 E3) as [B4 E4].
  destruct (csum_diff_step l _ _ Bl ltac:(by rewrite Ll) B4 E4) as [B5 E5].
  destruct (csum_fold_spec _ B5) as (r & -> & Hr & Hrm).
  exists (u16 (Z.lnot r)). split; [apply u16_bound|]. split; [|done].
  assert (Bp := pseudo_v6_ok sa da size (getz hd 6) Bs Bd).
  assert (Ep : zlen (pseudo_v6 sa da size (getz hd 6)) mod 2 = 0).
  { unfold pseudo_v6. rewrite !zlen_app, Ls, Ld. done. }
  apply field_verifies; try done.
  - rewrite Hrm, E5, sum16_app by done. fold l. f_equal. unfold pseudo_v6.
    rewrite !sum16_app by (rewrite ?Ls, ?Ld; done). lia.
  - rewrite sum16_app by done. pose proof (sum16_nonneg _ Bp). lia.
Qed.
End too_big_v6.

Definition too_big_v6_header (saddr daddr : list Z) : list Z :=
  [96; 0; 0; 0] ++ bytes16 (bpf_htons 256) ++ [IPPROTO_ICMPV6; DEFAULT_TTL] ++ saddr ++ daddr.
Definition too_big_v6_message (ck : Z) : list Z :=
  [ICMPV6_PKT_TOOBIG; 0] ++ bytes16 ck ++ bytes32 (bswap32 1500).

Section too_big_v6_stores.
Context (bpf_csum_diff : list Z → Z → Z) `{!CsumDiff bpf_csum_diff}.
Implicit Types (eth hd os od icmp body rest : list Z).

Lemma too_big_v6_stores_fields {A} (k : list Z → res A) eth hd rest :
  zlen eth = 14 → zlen hd = 8 →
  (data ← st_high (eth ++ hd ++ rest) 14 6;
   data ← st_low data 14 0;
   data ← wr data 20 IPPROTO_ICMPV6;
   data ← wr data 21 DEFAULT_TTL;
   data ← st16 data 18 (bpf_htons ICMP6_TOOBIG_PAYLOAD_SIZE);
   data ← st_bytes data 15 [0; 0; 0];
   k data) = k (eth ++ [96; 0; 0; 0; 1; 0; IPPROTO_ICMPV6; DEFAULT_TTL] ++ rest).
Proof.
  intros Le Lh. do 8 peel hd Lh. done_peel hd. cbn [app].
  rewrite st_high_piece, bind_Ok, st_low_piece, bind_Ok, nibbles by done. change (16 * 6 + 0) with 96.
  rewrite wr_bytes. behind eth 20 6. rewrite wr_bytes. behind eth 21 7.
  rewrite st16_bytes. change (bytes16 (bpf_htons ICMP6_TOOBIG_PAYLOAD_SIZE)) with [1; 0]. behind eth 18 4.
  behind eth 15 1. done.
Qed.

(** The addresses of the packet in [body], exchanged. *)
Lemma too_big_v6_stores_addresses {A} (k : list Z → res A) eth hd os od icmp body :
  zlen eth = 14 → zlen hd = 8 → zlen os = 16 → zlen od = 16 → zlen icmp = 8 → 40 <= zlen body →
  (saddr ← ld_bytes (eth ++ hd ++ os ++ od ++ icmp ++ body) 70 16;
   data ← st_bytes (eth ++ hd ++ os ++ od ++ icmp ++ body) 38 saddr;
   daddr ← ld_bytes data 86 16;
   data ← st_bytes data 22 daddr;
   k data) = k (eth ++ hd ++ slice body 24 16 ++ slice body 8 16 ++ icmp ++ body).
Proof.
  intros Le Lh Los Lod Lm Lb.
  assert (G : ∀ x y off n, zlen x = 16 → zlen y = 16 → off = 62 + n → 0 <= n → n + 16 <= zlen body →
    ld_bytes (eth ++ hd ++ x ++ y ++ icmp ++ body) off 16 = Ok (slice body n 16)).
  { intros x y off n Lx Ly -> Hn Hn'. assert (Lq : zlen (eth ++ hd ++ x ++ y ++ icmp) = 62) by (rewrite !zlen_app; lia).
    replace (eth ++ hd ++ x ++ y ++ icmp ++ body) with ((eth ++ hd ++ x ++ y ++ icmp) ++ body) by by rewrite <- !app_assoc.
    rewrite ld_bytes_ok by (rewrite ?zlen_app; lia). rewrite slice_app_r by lia. rewrite Lq. do 2 f_equal. lia. }
  rewrite (G os od 70 8) by (done || lia). rewrite bind_Ok.
  assert (Ls : ∀ n, 0 <= n → n + 16 <= zlen body → zlen (slice body n 16) = 16) by (intros; rewrite zlen_slice; lia).
  rewrite (app_assoc eth), (app_assoc (eth ++ hd)), st_bytes_piece, bind_Ok
    by (rewrite ?zlen_app; first [lia | pose proof (Ls 8); unfold zlen in *; lia]).
  rewrite <- (app_assoc (eth ++ hd)), <- (app_assoc eth).
  rewrite (G os _ 86 24), bind_Ok by first [done | lia | apply Ls; lia].
  rewrite (app_assoc eth), st_bytes_piece, bind_Ok
    by (rewrite ?zlen_app; first [lia | pose proof (Ls 24); unfold zlen in *; lia]).
  by rewrite <- (app_assoc eth).
Qed.

Lemma too_big_v6_stores_message {A} (k : list Z → res A) eth hd sa da icmp body :
  zlen eth = 14 → zlen hd = 8 → zlen sa = 16 → zlen da = 16 → zlen icmp = 8 → zlen body = 248 →
  bytes_ok sa → bytes_ok da → bytes_ok body →
  ∃ ck, csum_ok (pseudo_v6 sa da 256 (getz hd 6) ++ too_big_v6_message ck ++ body) ∧
  (data ← wr (eth ++ hd ++ sa ++ da ++ icmp ++ body) 54 ICMPV6_PKT_TOOBIG;
   data ← wr data 55 0;
   data ← st32 data 58 (bswap32 (MAX_PCKT_SIZE - 14));
   data ← st16 data 56 0;
   csum ← ipv6_csum bpf_csum_diff data 54 ICMP6_TOOBIG_PAYLOAD_SIZE 0 14;
   data ← st16 data 56 csum;
   k data) = k (eth ++ hd ++ sa ++ da ++ too_big_v6_message ck ++ body).
Proof.
  intros Le Lh Ls Ld Lm Lb Bs Bd Bb. do 8 peel icmp Lm. done_peel icmp. clear Lm.
  assert (Eq : ∀ l, eth ++ hd ++ sa ++ da ++ l = (eth ++ hd ++ sa ++ da) ++ l) by (intros l; by rewrite <- !app_assoc).
  destruct (ipv6_csum_field bpf_csum_diff eth hd sa da [ICMPV6_PKT_TOOBIG; 0] ([0; 0; 5; 220] ++ body) 54
    ICMP6_TOOBIG_PAYLOAD_SIZE) as (ck & Hck & Hok & E); try done.
  { rewrite zlen_app, Lb. done. } { bytes. } { bytes. }
  exists ck. split; [exact Hok|]. revert E. rewrite !Eq.
  assert (Lq : zlen (eth ++ hd ++ sa ++ da) = 54) by (rewrite !zlen_app; lia).
  revert Lq. generalize (eth ++ hd ++ sa ++ da). clear Eq. intros q Lq E. cbn [app] in E.
  rewrite wr_bytes. behind q 54 0. rewrite wr_bytes. behind q 55 1.
  rewrite st32_bytes. change (bytes32 (bswap32 (MAX_PCKT_SIZE - 14))) with [0; 0; 5; 220]. behind q 58 4.
  rewrite st16_bytes. change (bytes16 0) with [0; 0]. behind q 56 2.
  rewrite E, bind_Ok, st16_bytes. unfold bytes16 at 1. behind q 56 2. done.
Qed.
End too_big_v6_stores.

Section answer_v6.
Context (bpf_csum_diff : list Z → Z → Z) `{!CsumDiff bpf_csum_diff}.
Context (bpf_xdp_adjust_head : list Z → Z → option (list Z)) `{!AdjustHead bpf_xdp_adjust_head}.

Lemma header_pieces (l : list Z) :
  l = take 8 l ++ take 16 (drop 8 l) ++ take 16 (drop 24 l) ++ drop 40 l.
Proof.
  rewrite <- (take_drop 8 l) at 1. f_equal. rewrite <- (take_drop 16 (drop 8 l)) at 1. f_equal.
  rewrite drop_drop. rewrite <- (take_drop 16 (drop (8 + 16) l)) at 1. f_equal. by rewrite drop_drop.
Qed.

Lemma icmp6_too_big_spec d r :
  zlen d = 262 → bytes_ok d → bpf_xdp_adjust_head d (0 - 48) = Some r →
  let saddr := slice d 38 16 in let daddr := slice d 22 16 in
  ∃ ck, csum_ok (pseudo_v6 saddr daddr 256 IPPROTO_ICMPV6 ++ too_big_v6_message ck ++ drop 14 d) ∧
    send_icmp6_too_big bpf_csum_diff bpf_xdp_adjust_head d =
      Ok (XDP_TX, too_big_eth d ++ too_big_v6_header saddr daddr ++ too_big_v6_message ck ++ drop 14 d).
Proof.
  intros Ld Bd Er saddr daddr. destruct (too_big_room _ d 48 r) as (Lr & old & Lo & _ & Es); [done|lia|done..|].
  destruct (too_big_eth_ok d) as [Le Be]; [lia|done|].
  unfold send_icmp6_too_big. change (SIZEOF_IPV6HDR + SIZEOF_ICMP6HDR) with 48. cbv zeta. rewrite Er.
  rewrite (proj2 (Z.ltb_ge _ _)) by (unfold ICMP6_TOOBIG_SIZE; lia). rewrite Es, bind_Ok.
  assert (∃ hd os od m, old = hd ++ os ++ od ++ m ∧ zlen hd = 8 ∧ zlen os = 16 ∧ zlen od = 16 ∧ zlen m = 8)
    as (hd & os & od & icmp & -> & Lhd & Los & Lod & Lm).
  { exists (take 8 old), (take 16 (drop 8 old)), (take 16 (drop 24 old)), (drop 40 old).
    split; [apply header_pieces|]. unfold zlen in *. rewrite !length_take, !length_drop. lia. }
  rewrite <- !app_assoc. set (body := drop 14 d).
  assert (Lb : zlen body = 248) by (unfold body, zlen in *; rewrite length_drop; lia).
  assert (Bb : bytes_ok body) by by apply Forall_drop.
  unfold ICMP_TYPE, ICMP_CODE, ICMP6_MTU, ICMP_CKSUM, IPV6_NEXTHDR, IPV6_HOP_LIMIT, IPV6_PAYLOAD_LEN, IPV6_FLOW_LBL,
    IPV6_SADDR, IPV6_DADDR, SIZEOF_ETHER_HDR, SIZEOF_IPV6HDR, SIZEOF_ICMP6HDR. offsets.
  rewrite too_big_v6_stores_fields by done. rewrite too_big_v6_stores_addresses by (done || lia).
  edestruct (too_big_v6_stores_message bpf_csum_diff (A := Z * list Z)) as (ck & Hok & E); cycle -1.
  - rewrite E. exists ck. revert Hok. unfold body. rewrite !slice_drop by done. intros Hok.
    split; [exact Hok|]. unfold too_big_v6_header. rewrite <- !app_assoc. cbn [app]. by rewrite <- ?app_assoc.
  - done. 
  - done.
  - rewrite zlen_slice; lia.
  - rewrite zlen_slice; lia.
  - done.
  - done.
  - by apply bytes_ok_slice.
  - by apply bytes_ok_slice.
  - done.
Qed.
End answer_v6.

(** ** Source routing *)
Section routing_lemmas.
Context {VIPS LRU LPM4 LPM6 : Type} `{!BpfMap vip_definition vip_meta VIPS}
  `{!BpfMap flow_key real_pos_lru LRU} `{!BpfMap v4_lpm_key Z LPM4} `{!BpfMap v6_lpm_key Z LPM6}.
Context `{!BpfMapLaws vip_definition vip_meta VIPS}.
Variables (lpm_src_v4 : LPM4) (lpm_src_v6 : LPM6).
Implicit Types (s : katran VIPS LRU) (p : packet_description) (st rs : list lb_stats).

Definition lpm_lookup p (is_ipv6 : bool) : option Z :=
  if is_ipv6 then bpf_map_lookup_elem lpm_src_v6 (mk_v6_lpm 128 (srcv6 (flow p)))
  else bpf_map_lookup_elem lpm_src_v4 (mk_v4_lpm 32 (in6_word0 (srcv6 (flow p)))).

(** Without an entry for the address the ring decides. *)
Lemma ring_enters v meta p is_ipv6 cur_time under_flood l d s :
  bpf_map_lookup_elem (vip_map s) v = Some meta →
  ('(key, p) ← ring_real v p is_ipv6;
   match key with
   | None => mret (None, p)
   | Some key => enter_real v p key cur_time under_flood l
   end) (d, s) =
  ('(h) ← lift (get_packet_hash (hashed_pckt meta p) is_ipv6);
   match bpf_map_lookup_elem (ch_rings s) (u32 (RING_SIZE * vip_num meta + h mod RING_SIZE)) with
   | None => mret (None, hashed_pckt meta p)
   | Some key => enter_real v (hashed_pckt meta p) key cur_time under_flood l
   end) (d, s).
Proof.
  intros Hv. unfold ring_real. unfold mbind, M_bind. cbv beta. rewrite (load_vip_run _ _ _ _ Hv). cbv iota.
  unfold lift. destruct (get_packet_hash _ _); [|done]. cbn. done.
Qed.

Lemma lpm_src_run d s vm cs st rs v meta p is_ipv6 under_flood :
  bpf_map_lookup_elem vm v = Some meta → MAX_VIPS + LPM_SRC_CNTRS < zlen st → stats64 st →
  lpm_src lpm_src_v4 lpm_src_v6 v p is_ipv6 under_flood (d, upd s vm cs st rs) =
    if has (vip_flags meta) F_SRC_ROUTING && negb under_flood then
      Ok (Next (lpm_lookup p is_ipv6), (d, upd s vm cs
            (if lpm_lookup p is_ipv6 then add_stats st (MAX_VIPS + LPM_SRC_CNTRS) 0 1
             else add_stats st (MAX_VIPS + LPM_SRC_CNTRS) 1 0) rs))
    else Ok (Next None, (d, upd s vm cs st rs)).
Proof.
  intros Hv Hl Hs. assert (Hp : 0 <= MAX_VIPS + LPM_SRC_CNTRS < zlen st) by (split; [vm_compute; congruence|done]).
  unfold lpm_src. rewrite (bind_next _ _ _ _ _ (load_vip_run d (upd s vm cs st rs) v _ Hv)).
  destruct (_ && _); [|done]. cbv zeta. fold (lpm_lookup p is_ipv6).
  rewrite (bind_next _ _ _ _ _ (lookup_stats_run d (upd s vm cs st rs) _ Hp)).
  destruct (lpm_lookup p is_ipv6).
  - by rewrite (bind_next _ _ _ _ _ (add_v2_run d s vm cs st rs _ 1 Hp Hs)).
  - by rewrite (bind_next _ _ _ _ _ (add_v1_run d s vm cs st rs _ 1 Hp Hs)).
Qed.

(** Source routing sends a packet to the real that the tables of prefixes name for its
    address, whatever the ring says, counts that, and enters the connection under its own
    flow; for other VIPs, and during a flood of new connections, the ring decides as without
    the feature. *)
Theorem katran_source_routing e d s vm cs st rs p v meta (is_ipv6 : bool) l c :
  bpf_map_lookup_elem vm v = Some meta → rd cs l = Ok c → zlen st = STATS_MAP_SIZE → stats64 st →
  0 <= ktime_flood e < 2 ^ 64 →
  let now := ktime_flood e in let rate := getz st CONN_RATE in
  let st' := setz st CONN_RATE (flood_next now rate) in
  (has (vip_flags meta) F_SRC_ROUTING && negb (floods now rate) = false →
   get_packet_dst_lpm lpm_src_v4 lpm_src_v6 e p v is_ipv6 l (d, upd s vm cs st rs) =
     get_packet_dst e p v is_ipv6 l (d, upd s vm cs st rs)) ∧
  (∀ key real, has (vip_flags meta) F_SRC_ROUTING && negb (floods now rate) = true →
   lpm_lookup p is_ipv6 = Some key → rd (reals s) key = Ok real →
   get_packet_dst_lpm lpm_src_v4 lpm_src_v6 e p v is_ipv6 l (d, upd s vm cs st rs) =
     Ok (Next (Some real, set_real_index p key),
         (d, upd s vm
               (if has (vip_flags meta) F_LRU_BYPASS then cs else
                match bpf_map_update_elem c (flow p)
                        (mk_pos key (if proto (flow p) =? IPPROTO_UDP then now else 0)) with
                | Some c' => <[Z.to_nat l := c']> cs
                | None => cs
                end)
               (add_stats st' (MAX_VIPS + LPM_SRC_CNTRS) 0 1) rs))).
Proof.
  intros Hv Hc Hl Hs Hnow now rate st'. assert (Hcr : CONN_RATE < zlen st) by by rewrite Hl.
  assert (Hl' : MAX_VIPS + LPM_SRC_CNTRS < zlen st') by (unfold st'; rewrite zlen_setz, Hl; done).
  assert (Hs' : stats64 st').
  { assert (Hr : 0 <= v2 rate < 2 ^ 64) by (apply stats64_get; [done|split; [done|lia]]).
    apply stats64_set; [done|..]; unfold flood_next; destruct (_ <? _); cbn [v1 v2];
      try done; apply Z.mod_pos_bound; lia. }
  pose proof (is_under_flood_run e d s vm cs st rs Hcr Hs) as Ef. fold now rate st' in Ef.
  unfold get_packet_dst_lpm. rewrite (bind_next _ _ _ _ _ Ef). cbv beta iota.
  pose proof (lpm_src_run d s vm cs st' rs v meta p is_ipv6 (floods now rate) Hv Hl' Hs') as El.
  split.
  - intros E. rewrite E in El. rewrite (bind_next _ _ _ _ _ El). cbv beta iota.
    rewrite (ring_enters v meta) by done. unfold get_packet_dst. rewrite (bind_next _ _ _ _ _ Ef). cbv beta iota.
    rewrite (bind_next _ _ _ _ _ (load_vip_run d (upd s vm cs st' rs) v _ Hv)). cbv beta zeta.
    unfold mbind, M_bind, lift. cbv beta. destruct (get_packet_hash _ _); [|done].
    rewrite maps_run. cbn [upd ch_rings]. destruct (bpf_map_lookup_elem (ch_rings s) _) as [key|]; [|done].
    unfold enter_real. unfold mbind, M_bind. rewrite !maps_run. cbn [upd reals].
    destruct (bpf_map_lookup_elem (reals s) key); [|done].
    fold (upd s vm cs st' rs). by rewrite (load_vip_run d (upd s vm cs st' rs) v _ Hv).
  - intros key real E Ek Er. rewrite E, Ek in El. rewrite (bind_next _ _ _ _ _ El). cbv beta iota.
    clear El Ef. set (st2 := add_stats _ _ _ _). rewrite (bind_next (mret (Some key, p)) _ _ _ _ eq_refl). cbv beta iota.
    unfold enter_real. rewrite (bind_next _ _ _ _ _ (maps_run d (upd s vm cs st2 rs))). cbv zeta beta.
    cbn [upd reals]. rewrite (array_lookup _ _ _ Er). fold (upd s vm cs st2 rs).
    rewrite (bind_next _ _ _ _ _ (load_vip_run d (upd s vm cs st2 rs) v _ Hv)).
    apply andb_prop in E as [_ E]. rewrite E, andb_true_r. destruct (has (vip_flags meta) F_LRU_BYPASS); [done|].
    cbn [negb]. rewrite (bind_next _ _ _ _ _ (load_cache_run d (upd s vm cs st2 rs) l c Hc)). cbv beta.
    change (flow (set_real_index p key)) with (flow p).
    destruct (bpf_map_update_elem c (flow p) _) as [c'|]; [|done].
    by rewrite (bind_next _ _ _ _ _ (store_cache_run d s vm cs st2 rs l c' (rd_range _ _ _ Hc))).
Qed.
End routing_lemmas.

(** ** The answers *)
Section too_big.
Context (bpf_csum_diff : list Z → Z → Z) `{!CsumDiff bpf_csum_diff}.
Context (bpf_xdp_adjust_head : list Z → Z → option (list Z)) `{!AdjustHead bpf_xdp_adjust_head}.
Context (bpf_xdp_adjust_tail : list Z → Z → option (list Z)) `{!AdjustTail bpf_xdp_adjust_tail}.

(** The answer to a packet that is too big, with the addresses swapped in both headers,
    quotes the beginning of the packet behind an ICMP message that gives the MTU; the checksum
    of the message verifies, that of ICMPv6 with its pseudo header, and so does that of the
    IPv4 header. Two bytes of the ICMP message that has to be zero there ([unused]), and the
    identification and fragment fields ([id]), are not written. *)
Theorem katran_too_big frame :
  (∀ l n, bpf_xdp_adjust_head l n ≠ None) → (∀ l n, bpf_xdp_adjust_tail l n ≠ None) →
  262 <= zlen frame → bytes_ok frame →
  (let cut := take 98 frame in
   let header := too_big_v4_header (slice cut 30 4) (slice cut 26 4) in
   ∃ ck ick id unused, zlen id = 4 ∧ zlen unused = 2 ∧ csum_ok (header ck id) ∧
     csum_ok (too_big_v4_message ick unused ++ drop 14 cut) ∧
     send_icmp_too_big bpf_csum_diff bpf_xdp_adjust_head bpf_xdp_adjust_tail frame false (zlen frame) =
       Ok (XDP_TX, too_big_eth cut ++ header ck id ++ too_big_v4_message ick unused ++ drop 14 cut)) ∧
  (let cut := take 262 frame in
   let saddr := slice cut 38 16 in let daddr := slice cut 22 16 in
   ∃ ck, csum_ok (pseudo_v6 saddr daddr 256 IPPROTO_ICMPV6 ++ too_big_v6_message ck ++ drop 14 cut) ∧
     send_icmp_too_big bpf_csum_diff bpf_xdp_adjust_head bpf_xdp_adjust_tail frame true (zlen frame) =
       Ok (XDP_TX, too_big_eth cut ++ too_big_v6_header saddr daddr ++ too_big_v6_message ck ++ drop 14 cut)).
Proof.
  intros Hh Ht Hl Hb.
  assert (Hcut : ∀ n : nat, Z.of_nat n <= zlen frame →
    bpf_xdp_adjust_tail frame (0 - (zlen frame - Z.of_nat n)) = Some (take n frame)).
  { intros n Hn. destruct (bpf_xdp_adjust_tail frame _) as [d|] eqn:E; [|by apply Ht in E].
    apply adjust_tail_shrink in E as ->; [|lia]. do 2 f_equal. lia. }
  assert (Hgrow : ∀ l n, ∃ d, bpf_xdp_adjust_head l n = Some d).
  { intros l n. destruct (bpf_xdp_adjust_head l n) eqn:E; [by eexists|by apply Hh in E]. }
  assert (Lcut : ∀ n : nat, Z.of_nat n <= zlen frame → zlen (take n frame) = Z.of_nat n).
  { intros n Hn. unfold zlen in *. rewrite length_take. lia. }
  split; cbv zeta; unfold send_icmp_too_big; cbv zeta iota.
  - change ICMP_TOOBIG_SIZE with (Z.of_nat 98). rewrite Hcut by lia.
    destruct (Hgrow (take 98 frame) (0 - 28)) as [d E].
    apply (icmp4_too_big_spec _ _ _ d); [by rewrite Lcut by lia|by apply Forall_take|done].
  - change ICMP6_TOOBIG_SIZE with (Z.of_nat 262). rewrite Hcut by lia.
    destruct (Hgrow (take 262 frame) (0 - 48)) as [d E].
    apply (icmp6_too_big_spec _ _ _ d); [by rewrite Lcut by lia|by apply Forall_take|done].
Qed.
End too_big.

(** A kernel that can always cut. *)
Definition cut_tail (data : list Z) (delta : Z) : option (list Z) := Some (take (Z.to_nat (zlen data + delta)) data).

#[global] Instance cut_tail_adjusts : AdjustTail cut_tail.
Proof. by intros data n d Hn [= <-]. Qed.

(** ** Witnesses *)
Lemma katran_too_big_witness :
  let frame := replicate 1600 1 in
  (∃ answer, send_icmp_too_big csum_partial zero_room cut_tail frame false (zlen frame) = Ok (XDP_TX, answer)) ∧
  (∃ answer, send_icmp_too_big csum_partial zero_room cut_tail frame true (zlen frame) = Ok (XDP_TX, answer)).
Proof.
  intros frame.
  destruct (katran_too_big csum_partial zero_room cut_tail frame)
    as [(ck & ick & id & un & _ & _ & _ & _ & E4) (ck6 & _ & E6)]; [done|done| | |].
  - vm_compute. discriminate.
  - by apply bytes_ok_b_spec.
  - split; eexists; [exact E4|exact E6].
Defined.

Lemma katran_inline_decap_witness :
  let p := mk_pckt (mk_flow (1, 2, 3, 4) (5, 6, 7, 8) 9 10 6) 0 0 7 in
  let srcs := [mk_real (1, 0, 0, 0) 0; mk_real (1, 2, 3, 4) 1] in
  let frame := echo_request [0; 0] in
  let decap_dst := mk_hash 4 {[ (9, 0, 0, 0) : in6 := 0 ]} in
  let inner := drop 14 frame in
  (∃ tunnel, gue_encap_v6 zero_room srcs frame (replicate 6 3) false p (9, 0, 0, 0) 28 = Ok (true, tunnel) ∧
    tunnel_ends zero_room decap_dst tunnel (wit_maps wit_ring) true (9, 0, 0, 0)
      (replicate 6 3 ++ slice frame 0 6) inner false) ∧
  hops_over false inner = false ∧ decap_here decap_dst (9, 0, 0, 0) = true.
Proof.
  intros p srcs frame decap_dst inner. split; [|split; vm_compute; reflexivity].
  apply (katran_inline_decap zero_room decap_dst srcs (mk_real (1, 0, 0, 0) 0) (mk_real (1, 2, 3, 4) 1) frame
    (replicate 6 3) p (9, 0, 0, 0) 28 false (wit_maps wit_ring)).
  - discriminate.
  - reflexivity.
  - reflexivity.
  - reflexivity.
  - reflexivity.
  - apply bytes_ok_b_spec. reflexivity.
  - apply bytes_ok_b_spec. reflexivity.
  - split; [vm_compute; congruence|reflexivity].
  - repeat split; vm_compute; congruence.
  - reflexivity.
  - vm_compute. reflexivity.
  - apply stats64b_spec. vm_compute. reflexivity.
Defined.
