(* ===== verification/Config.v ===== *)
(** * Command lines: [nf_util_parse_int] and the configurations

    Each network function reads its configuration from the command line with
    [getopt_long] (a library: the options it returns, a character and the
    argument string, are the input here), and parses numbers with
    [nf_util_parse_int] of [lib/nf_util.c]. This file models the parsing of
    numbers and the four functions [*_config_init] that fill a configuration, and
    shows when they accept a command line and what the accepted configurations
    guarantee to the packet handlers. *)

From Stdlib Require Import String Ascii DecimalString DecimalN DecimalPos.
From stdpp Require Import strings.
From S2P Require Import Prelude.
From S2P Require Import NfUtil.
From S2P Require Import Nat.
From S2P Require Import Firewall.
From S2P Require Import Policer.
From S2P Require Import Balancer.

#[local] Open Scope string_scope.
#[local] Open Scope Z_scope.

(** ** C strings and [strtoimax]

    A C string is a [string]; the character after its end is the null
    character. *)
Definition NUL : ascii := "000"%char.
Definition c_char (s : string) : ascii := match s with EmptyString => NUL | String c _ => c end.

Definition isspace (c : ascii) : bool :=
  let n := Z.of_N (N_of_ascii c) in (n =? 32) || ((9 <=? n) && (n <=? 13)).

Fixpoint skip_spaces (s : string) : string :=
  match s with
  | String c s' => if isspace c then skip_spaces s' else s
  | EmptyString => s
  end.

(** The value of a digit or letter as a digit. *)
Definition digit_value (c : ascii) : option Z :=
  let n := Z.of_N (N_of_ascii c) in
  if (48 <=? n) && (n <=? 57) then Some (n - 48)
  else if (97 <=? n) && (n <=? 122) then Some (n - 87)
  else if (65 <=? n) && (n <=? 90) then Some (n - 55)
  else None.

(** The longest run of digits: the number and the rest of the string. *)
Fixpoint digits (base : Z) (s : string) (acc : Z) : Z * string :=
  match s with
  | String c s' =>
      match digit_value c with
      | Some d => if d <? base then digits base s' (acc * base + d) else (acc, s)
      | None => (acc, s)
      end
  | EmptyString => (acc, s)
  end.

Definition has_digit (base : Z) (s : string) : bool :=
  match digit_value (c_char s) with Some d => d <? base | None => false end.

Definition INTMAX_MAX : Z := 2 ^ 63 - 1.
Definition INTMAX_MIN : Z := - 2 ^ 63.

(** [strtoimax] for bases without a prefix (all callers use 10): white space, an
    optional sign, digits; a number out of range saturates. [None] is an end
    pointer equal to the start, for a string without digits. *)
Definition strtoimax (str : string) (base : Z) : Z * option string :=
  let s := skip_spaces str in
  let '(negative, s) := match s with
                        | String "-"%char s' => (true, s')
                        | String "+"%char s' => (false, s')
                        | _ => (false, s)
                        end in
  if has_digit base s then
    let '(v, rest) := digits base s 0 in
    (Z.max INTMAX_MIN (Z.min INTMAX_MAX (if negative : bool then - v else v)), Some rest)
  else (0, None).

(** [nf_util_parse_int]; the name is only printed. *)
Definition nf_util_parse_int (str : string) (base : Z) (next : ascii) : res Z :=
  match strtoimax str base with
  | (result, Some temp) =>
      if negb (Ascii.eqb (c_char temp) next) then Err Exit else Ok (u64 result)
  | (_, None) => Err Exit
  end.

(** [PARSE_ERROR] prints and exits. *)
Definition parse_error_if (b : bool) : res unit := if b then Err Exit else Ok tt.

(** [optarg += n]: one may go up to the end of the string, not past it. *)
Fixpoint advance (n : nat) (s : string) : res string :=
  match n, s with
  | O, _ => Ok s
  | S n', String _ s' => advance n' s'
  | S _, EmptyString => Err OutOfBounds
  end.

(** The loop [while ((opt = getopt_long(...)) != EOF)] over the options. *)
Fixpoint getopt_loop {C} (option_case : C → ascii → string → res C) (config : C)
    (opts : list (ascii * string)) : res C :=
  match opts with
  | [] => Ok config
  | (opt, optarg) :: opts' =>
      config ← option_case config opt optarg;
      getopt_loop option_case config opts'
  end.

Section config.
(** [rte_eth_dev_count_avail()], the size of the arrays of addresses, what
    [rte_eth_macaddr_get] writes, and what [rte_ethtool_get_drv_type] finds out
    about a device ([None] is an error). *)
Variables (nb_devices RTE_MAX_ETHPORTS : Z).
Variable rte_eth_macaddr_get : Z → list Z.
Variable rte_ethtool_get_drv_type : Z → option Z.
(** The parsers of DPDK for addresses; [None] is a negative result. *)
Variable cmdline_parse_etheraddr : string → option (list Z).
Variable cmdline_parse_ipaddr : string → option Z.

(** The loop over the devices that fetches their addresses. *)
Fixpoint get_macs (n : nat) (device : Z) (macs : list (list Z)) : res (list (list Z)) :=
  match n with
  | O => Ok macs
  | S n' =>
      macs ← wr macs device (rte_eth_macaddr_get device);
      get_macs n' (device + 1) macs
  end.

(** The option [eth-dest] of three programs. *)
Definition eth_dest (endpoint_macs : list (list Z)) (optarg : string) : res (list (list Z)) :=
  device ← nf_util_parse_int optarg 10 ","%char;
  let device := u32 device in
  _ ← parse_error_if (nb_devices <=? device);
  optarg ← advance 2 optarg;
  match cmdline_parse_etheraddr optarg with
  | None => Err Exit
  | Some mac => wr endpoint_macs device mac
  end.

(** *** [nat_config_init], for the NAT, the LPM forwarder and the router *)
Definition nat_config_option (c : nat_config) (opt : ascii) (optarg : string) : res nat_config :=
  let '(mk_nat_config lan wan ext macs ends drv start exp flows) := c in
  if Ascii.eqb opt "m" then
    ends ← eth_dest ends optarg;
    Ok (mk_nat_config lan wan ext macs ends drv start exp flows)
  else if Ascii.eqb opt "t" then
    v ← nf_util_parse_int optarg 10 NUL;
    _ ← parse_error_if (u32 v =? 0);
    Ok (mk_nat_config lan wan ext macs ends drv start (u32 v) flows)
  else if Ascii.eqb opt "i" then
    match cmdline_parse_ipaddr optarg with
    | None => Err Exit
    | Some addr => Ok (mk_nat_config lan wan addr macs ends drv start exp flows)
    end
  else if Ascii.eqb opt "l" then
    v ← nf_util_parse_int optarg 10 NUL;
    _ ← parse_error_if (nb_devices <=? u16 v);
    Ok (mk_nat_config (u16 v) wan ext macs ends drv start exp flows)
  else if Ascii.eqb opt "f" then
    v ← nf_util_parse_int optarg 10 NUL;
    _ ← parse_error_if (u32 v <=? 0);
    Ok (mk_nat_config lan wan ext macs ends drv start exp (u32 v))
  else if Ascii.eqb opt "s" then
    v ← nf_util_parse_int optarg 10 NUL;
    Ok (mk_nat_config lan wan ext macs ends drv (u16 v) exp flows)
  else if Ascii.eqb opt "w" then
    v ← nf_util_parse_int optarg 10 NUL;
    _ ← parse_error_if (nb_devices <=? u16 v);
    Ok (mk_nat_config lan (u16 v) ext macs ends drv start exp flows)
  else Err Exit.

(** The loop over the devices: addresses, and the driver type of the last one. *)
Fixpoint nat_config_devices (n : nat) (device : Z) (c : nat_config) : res nat_config :=
  match n with
  | O => Ok c
  | S n' =>
      let '(mk_nat_config lan wan ext macs ends _ start exp flows) := c in
      macs ← wr macs device (rte_eth_macaddr_get device);
      match rte_ethtool_get_drv_type device with
      | None => Err Exit
      | Some device_type =>
          nat_config_devices n' (device + 1)
            (mk_nat_config lan wan ext macs ends device_type start exp flows)
      end
  end.

Definition nat_config_init (config : nat_config) (opts : list (ascii * string)) : res nat_config :=
  config ← nat_config_devices (Z.to_nat nb_devices) 0 config;
  getopt_loop nat_config_option config opts.

(** *** [fw_config_init] *)
Definition fw_config_option (c : fw_config) (opt : ascii) (optarg : string) : res fw_config :=
  let '(mk_fw_config lan wan cap exp macs ends) := c in
  if Ascii.eqb opt "l" then
    v ← nf_util_parse_int optarg 10 NUL;
    _ ← parse_error_if (nb_devices <=? u16 v);
    Ok (mk_fw_config (u16 v) wan cap exp macs ends)
  else if Ascii.eqb opt "w" then
    v ← nf_util_parse_int optarg 10 NUL;
    _ ← parse_error_if (nb_devices <=? u16 v);
    Ok (mk_fw_config lan (u16 v) cap exp macs ends)
  else if Ascii.eqb opt "c" then
    v ← nf_util_parse_int optarg 10 NUL;
    _ ← parse_error_if (u32 v <=? 0);
    Ok (mk_fw_config lan wan (u32 v) exp macs ends)
  else if Ascii.eqb opt "t" then
    v ← nf_util_parse_int optarg 10 NUL;
    _ ← parse_error_if (u32 v =? 0);
    Ok (mk_fw_config lan wan cap (u32 v) macs ends)
  else if Ascii.eqb opt "m" then
    ends ← eth_dest ends optarg;
    Ok (mk_fw_config lan wan cap exp macs ends)
  else Err Exit.

Definition fw_config_init (config : fw_config) (opts : list (ascii * string)) : res fw_config :=
  let '(mk_fw_config lan wan cap exp macs ends) := config in
  macs ← get_macs (Z.to_nat nb_devices) 0 macs;
  getopt_loop fw_config_option (mk_fw_config lan wan cap exp macs ends) opts.

(** *** [policer_config_init] *)
Definition DEFAULT_LAN : Z := 1.
Definition DEFAULT_WAN : Z := 0.
Definition DEFAULT_RATE : Z := 1000000.
Definition DEFAULT_BURST : Z := 100000.
Definition DEFAULT_CAPACITY : Z := 128.

Definition policer_config_option (c : policer_config) (opt : ascii) (optarg : string)
    : res policer_config :=
  let '(mk_policer_config lan wan rate burst cap macs ends) := c in
  if Ascii.eqb opt "l" then
    v ← nf_util_parse_int optarg 10 NUL;
    _ ← parse_error_if (nb_devices <=? u16 v);
    Ok (mk_policer_config (u16 v) wan rate burst cap macs ends)
  else if Ascii.eqb opt "w" then
    v ← nf_util_parse_int optarg 10 NUL;
    _ ← parse_error_if (nb_devices <=? u16 v);
    Ok (mk_policer_config lan (u16 v) rate burst cap macs ends)
  else if Ascii.eqb opt "r" then
    v ← nf_util_parse_int optarg 10 NUL;
    _ ← parse_error_if (v =? 0);
    Ok (mk_policer_config lan wan v burst cap macs ends)
  else if Ascii.eqb opt "b" then
    v ← nf_util_parse_int optarg 10 NUL;
    _ ← parse_error_if (v =? 0);
    Ok (mk_policer_config lan wan rate v cap macs ends)
  else if Ascii.eqb opt "c" then
    v ← nf_util_parse_int optarg 10 NUL;
    _ ← parse_error_if (u32 v <=? 0);
    Ok (mk_policer_config lan wan rate burst (u32 v) macs ends)
  else if Ascii.eqb opt "m" then
    ends ← eth_dest ends optarg;
    Ok (mk_policer_config lan wan rate burst cap macs ends)
  else Err Exit.

Definition policer_config_init (config : policer_config) (opts : list (ascii * string))
    : res policer_config :=
  let '(mk_policer_config _ _ _ _ _ macs ends) := config in
  macs ← get_macs (Z.to_nat nb_devices) 0 macs;
  getopt_loop policer_config_option
    (mk_policer_config DEFAULT_LAN DEFAULT_WAN DEFAULT_RATE DEFAULT_BURST DEFAULT_CAPACITY macs ends)
    opts.

(** *** [lb_config_init]: the checks of three options look at other fields *)
Definition lb_config_option (c : lb_config) (opt : ascii) (optarg : string) : res lb_config :=
  let '(mk_lb_config macs flow_cap flow_exp back_cap height back_exp) := c in
  if Ascii.eqb opt "x" then
    v ← nf_util_parse_int optarg 10 NUL;
    _ ← parse_error_if (v =? 0);
    Ok (mk_lb_config macs flow_cap v back_cap height back_exp)
  else if Ascii.eqb opt "f" then
    v ← nf_util_parse_int optarg 10 NUL;
    _ ← parse_error_if (u32 v <=? 0);
    Ok (mk_lb_config macs (u32 v) flow_exp back_cap height back_exp)
  else if Ascii.eqb opt "s" then
    v ← nf_util_parse_int optarg 10 NUL;
    _ ← parse_error_if (flow_cap <=? 0);
    Ok (mk_lb_config macs flow_cap flow_exp (u32 v) height back_exp)
  else if Ascii.eqb opt "h" then
    v ← nf_util_parse_int optarg 10 NUL;
    _ ← parse_error_if (flow_cap <=? 0);
    Ok (mk_lb_config macs flow_cap flow_exp back_cap (u32 v) back_exp)
  else if Ascii.eqb opt "t" then
    v ← nf_util_parse_int optarg 10 NUL;
    _ ← parse_error_if (flow_exp =? 0);
    Ok (mk_lb_config macs flow_cap flow_exp back_cap height v)
  else Err Exit.

(** [device_macs] is allocated here; [fresh_macs] is the result of [malloc] with
    its contents ([None] is a null pointer, which is not checked). *)
Definition lb_config_init (fresh_macs : option (list (list Z))) (config : lb_config)
    (opts : list (ascii * string)) : res lb_config :=
  '(mk_lb_config _ flow_cap flow_exp back_cap height back_exp) ←
    getopt_loop lb_config_option config opts;
  macs ← get_macs (Z.to_nat nb_devices) 0 (default [] fresh_macs);
  Ok (mk_lb_config macs flow_cap flow_exp back_cap height back_exp).
End config.

(** *** [bridge_config_init] *)
Record bridge_config := mk_bridge_config {
  br_expiration_time : Z; br_dyn_capacity : Z; static_config_fname : string }.

Definition BRIDGE_DEFAULT_EXP_TIME : Z := 300.
Definition BRIDGE_DEFAULT_CAPACITY : Z := 128.
Definition CONFIG_FNAME_LEN : nat := 512.

Definition bridge_config_option (c : bridge_config) (opt : ascii) (optarg : string)
    : res bridge_config :=
  let '(mk_bridge_config exp cap fname) := c in
  if Ascii.eqb opt "t" then
    v ← nf_util_parse_int optarg 10 NUL;
    _ ← parse_error_if (u32 v =? 0);
    Ok (mk_bridge_config (u32 v) cap fname)
  else if Ascii.eqb opt "c" then
    v ← nf_util_parse_int optarg 10 NUL;
    _ ← parse_error_if (u32 v <=? 0);
    Ok (mk_bridge_config exp (u32 v) fname)
  else if Ascii.eqb opt "f" then
    Ok (mk_bridge_config exp cap (String.substring 0 (CONFIG_FNAME_LEN - 1) optarg))
  else Err Exit.

Definition bridge_config_init (opts : list (ascii * string)) : res bridge_config :=
  getopt_loop bridge_config_option
    (mk_bridge_config BRIDGE_DEFAULT_EXP_TIME BRIDGE_DEFAULT_CAPACITY EmptyString) opts.

(** ** Numbers

    [printed z] is how [printf] writes [z] in decimal. *)
Definition decimal (n : N) : string := NilZero.string_of_uint (N.to_uint n).
Definition printed (z : Z) : string :=
  if z <? 0 then String "-" (decimal (Z.to_N (- z))) else decimal (Z.to_N z).

Lemma digits_end base s acc : has_digit base s = false → digits base s acc = (acc, s).
Proof.
  unfold has_digit. destruct s as [|c s]; [done|]. cbn [c_char digits].
  destruct (digit_value c) as [d|]; [|done]. by intros ->.
Qed.

Lemma append_cons c s t : (String c s ++ t)%string = String c (s ++ t).
Proof. done. Qed.

Lemma digits_uint_acc d acc rest :
  has_digit 10 rest = false →
  digits 10 (NilEmpty.string_of_uint d ++ rest) (Z.pos acc) =
  (Z.pos (Pos.of_uint_acc d acc), rest).
Proof.
  intros Hr. revert acc.
  induction d as [|d IH|d IH|d IH|d IH|d IH|d IH|d IH|d IH|d IH|d IH]; intros acc.
  { by apply digits_end. }
  all: cbn [NilEmpty.string_of_uint]; rewrite append_cons; cbn [digits];
    match goal with |- context [digit_value ?c] =>
      let v := eval vm_compute in (digit_value c) in change (digit_value c) with v end;
    cbn [Z.ltb Z.compare Pos.compare Pos.compare_cont];
    cbn [Pos.of_uint_acc]; rewrite <- IH; f_equal; lia.
Qed.

Lemma digits_uint d rest :
  has_digit 10 rest = false →
  digits 10 (NilEmpty.string_of_uint d ++ rest) 0 = (Z.of_N (Pos.of_uint d), rest).
Proof.
  intros Hr. induction d as [|d IH|d IH|d IH|d IH|d IH|d IH|d IH|d IH|d IH|d IH].
  { by apply digits_end. }
  { exact IH. }
  all: cbn [NilEmpty.string_of_uint]; rewrite append_cons; cbn [digits];
    match goal with |- context [digit_value ?c] =>
      let v := eval vm_compute in (digit_value c) in change (digit_value c) with v end;
    cbn [Z.ltb Z.compare Pos.compare Pos.compare_cont];
    match goal with |- digits _ _ ?a = _ =>
      let v := eval vm_compute in a in change a with v end;
    by rewrite digits_uint_acc.
Qed.

(** A number that was printed starts with a digit. *)
Lemma decimal_digits n rest :
  has_digit 10 rest = false →
  has_digit 10 (decimal n ++ rest) = true ∧ digits 10 (decimal n ++ rest) 0 = (Z.of_N n, rest) ∧
  skip_spaces (decimal n ++ rest) = (decimal n ++ rest)%string ∧
  (∀ A (f g : string → A) (h : A),
     match (decimal n ++ rest)%string with
     | String "-"%char s' => f s' | String "+"%char s' => g s' | _ => h end = h).
Proof.
  intros Hr. unfold decimal.
  assert (Hd : digits 10 (NilZero.string_of_uint (N.to_uint n) ++ rest) 0 = (Z.of_N n, rest)).
  { rewrite <- (DecimalN.Unsigned.of_to n) at 2. unfold N.of_uint.
    destruct (N.to_uint n) eqn:E; [|rewrite <- E; unfold NilZero.string_of_uint; rewrite E;
      by apply digits_uint..].
    exfalso. by destruct n as [|p]; [|apply (DecimalPos.Unsigned.to_uint_nonnil p)]. }
  rewrite Hd. clear Hd. destruct (N.to_uint n); repeat split.
Qed.

(** Parsing what was printed: the number, if it fits into an [intmax_t]. *)
Lemma strtoimax_printed z rest :
  has_digit 10 rest = false →
  strtoimax (printed z ++ rest) 10 = (Z.max INTMAX_MIN (Z.min INTMAX_MAX z), Some rest).
Proof.
  intros Hr. unfold strtoimax, printed. destruct (Z.ltb_spec z 0).
  - rewrite append_cons.
    destruct (decimal_digits (Z.to_N (- z)) rest Hr) as (Hd & Hv & _ & _).
    cbn [skip_spaces]. change (isspace "-") with false. cbn iota.
    rewrite Hd, Hv. cbn iota. do 3 f_equal. lia.
  - destruct (decimal_digits (Z.to_N z) rest Hr) as (Hd & Hv & Hs & Hm).
    rewrite Hs, (Hm _ (λ s', (true, s')) (λ s', (false, s'))). rewrite Hd, Hv. do 3 f_equal. lia.
Qed.

(** What the options of a configuration guarantee: the result satisfies [Q], or
    the program has exited. *)
Definition exits_or {A} (Q : A → Prop) (r : res A) : Prop :=
  match r with Ok a => Q a | Err e => e = Exit end.

Lemma exits_or_bind {A B} (Q : A → Prop) (R : B → Prop) (m : res A) (f : A → res B) :
  exits_or Q m → (∀ a, Q a → exits_or R (f a)) → exits_or R (m ≫= f).
Proof. destruct m; simpl; [auto|done]. Qed.

Lemma parse_exits str base next :
  exits_or (λ v, 0 <= v < 2 ^ 64) (nf_util_parse_int str base next).
Proof.
  unfold nf_util_parse_int. destruct (strtoimax str base) as [v [rest|]]; [|done].
  destruct (negb _); [done|]. simpl. apply Z.mod_pos_bound. lia.
Qed.

Lemma parse_error_exits b : exits_or (λ _, b = false) (parse_error_if b).
Proof. by destruct b. Qed.

Lemma getopt_loop_exits {C} (I : C → Prop) (option_case : C → ascii → string → res C) c opts :
  (∀ c opt optarg, I c → exits_or I (option_case c opt optarg)) → I c →
  exits_or I (getopt_loop option_case c opts).
Proof.
  intros Hstep. revert c. induction opts as [|[opt optarg] opts IH]; intros c Hc; [done|].
  cbn [getopt_loop]. eapply exits_or_bind; [by apply Hstep|]. intros c' Hc'. by apply IH.
Qed.

(** The options of one command line, one after the other. *)
Lemma getopt_loop_app {C} (option_case : C → ascii → string → res C) c opts1 opts2 :
  getopt_loop option_case c (opts1 ++ opts2) =
  (c ← getopt_loop option_case c opts1; getopt_loop option_case c opts2).
Proof.
  revert c. induction opts1 as [|[opt optarg] opts1 IH]; intros c; [done|].
  cbn [getopt_loop app]. destruct (option_case c opt optarg); [apply IH|done].
Qed.

(** The rest of a string after a number is shorter. *)
Lemma digits_shorter base s acc : (String.length (digits base s acc).2 <= String.length s)%nat.
Proof.
  revert acc. induction s as [|c s IH]; intros acc; [done|]. cbn [digits].
  destruct (digit_value c) as [d|]; [|done]. destruct (d <? base); [|done].
  simpl. specialize (IH (acc * base + d)). lia.
Qed.

Lemma skip_shorter s : (String.length (skip_spaces s) <= String.length s)%nat.
Proof. induction s as [|c s IH]; [done|]. simpl. destruct (isspace c); simpl; lia. Qed.

Lemma strtoimax_shorter str base v rest :
  strtoimax str base = (v, Some rest) → (String.length rest < String.length str)%nat.
Proof.
  unfold strtoimax. pose proof (skip_shorter str) as Hskip. revert Hskip.
  generalize (skip_spaces str) as s. intros s Hs.
  assert (Hsign : ∃ neg s', match s with
      | String "-"%char s' => (true, s') | String "+"%char s' => (false, s')
      | _ => (false, s) end = (neg, s') ∧ (String.length s' <= String.length s)%nat).
  { destruct s as [|[[] [] [] [] [] [] [] []] s]; do 2 eexists; (split; [reflexivity|simpl; lia]). }
  destruct Hsign as (neg & s' & -> & Hs'). unfold has_digit.
  destruct s' as [|c s']; [done|]. cbn [c_char digits].
  destruct (digit_value c) as [d|]; [|done]. destruct (d <? base); [|done].
  pose proof (digits_shorter base s' (0 * base + d)) as Hd.
  destruct (digits base s' (0 * base + d)) as [w r]. intros [= _ <-]. simpl in *. lia.
Qed.

(** [optarg += 2] stays inside the string if a number and a comma were there. *)
Lemma advance_after_number str base v :
  nf_util_parse_int str base ","%char = Ok v → ∃ s, advance 2 str = Ok s.
Proof.
  unfold nf_util_parse_int. destruct (strtoimax str base) as [w [rest|]] eqn:E; [|done].
  apply strtoimax_shorter in E. destruct rest as [|c rest]; [done|]. intros _.
  destruct str as [|c1 [|c2 s]]; simpl in *; [lia|lia|by eexists].
Qed.

(** An option with a number: parse it, check it, store it. *)
Ltac parse_option :=
  repeat (eapply exits_or_bind;
    [first [apply parse_exits|apply parse_error_exits]|intros ? ?; cbv beta in *]);
  split; simpl; try assumption;
  repeat match goal with
         | H : (_ <=? _) = false |- _ => apply Z.leb_gt in H
         | H : (_ =? _) = false |- _ => apply Z.eqb_neq in H
         end;
  unfold u16, u32 in *;
  match goal with v : Z, H : 0 <= ?v < 2 ^ 64 |- _ =>
    pose proof (Z.mod_pos_bound v (2 ^ 16)); pose proof (Z.mod_pos_bound v (2 ^ 32)) end; lia.

Section accepted.
Variables (nb_devices RTE_MAX_ETHPORTS : Z).
Variable rte_eth_macaddr_get : Z → list Z.
Variable rte_ethtool_get_drv_type : Z → option Z.
Variable cmdline_parse_etheraddr : string → option (list Z).
Variable cmdline_parse_ipaddr : string → option Z.
(** There is a device, the arrays have room for all of them, and addresses have
    six bytes. *)
Hypothesis Hdevices : 0 < nb_devices <= RTE_MAX_ETHPORTS.
Hypothesis Hmac : ∀ d, zlen (rte_eth_macaddr_get d) = 6.
Hypothesis Hparse : ∀ s a, cmdline_parse_etheraddr s = Some a → zlen a = 6.

Definition macs_ok (macs : list (list Z)) : Prop :=
  zlen macs = RTE_MAX_ETHPORTS ∧ Forall (λ a, zlen a = 6) macs.

Lemma wr_macs macs d a :
  macs_ok macs → 0 <= d < RTE_MAX_ETHPORTS → zlen a = 6 →
  ∃ macs', wr macs d a = Ok macs' ∧ macs_ok macs'.
Proof.
  intros [Hl Hf] Hd Ha. rewrite wr_ok by lia. eexists. split; [done|]. split.
  - by rewrite zlen_setz.
  - by apply Forall_insert.
Qed.

Lemma macs_ok_get macs i : macs_ok macs → 0 <= i < nb_devices → zlen (getz macs i) = 6.
Proof.
  intros [Hl Hf] Hi. rewrite Forall_forall in Hf. apply Hf, getz_elem_of.
  exists i. split; [lia|done].
Qed.

Lemma get_macs_ok n d macs :
  macs_ok macs → 0 <= d → d + Z.of_nat n <= RTE_MAX_ETHPORTS →
  ∃ macs', get_macs rte_eth_macaddr_get n d macs = Ok macs' ∧ macs_ok macs'.
Proof.
  revert d macs. induction n as [|n IH]; intros d macs Hm Hd Hn; [by exists macs|].
  cbn [get_macs]. destruct (wr_macs macs d (rte_eth_macaddr_get d)) as (macs' & -> & Hm');
    [done|lia|done|]. apply IH; [done|lia|lia].
Qed.

Lemma eth_dest_exits ends optarg :
  macs_ok ends → exits_or macs_ok (eth_dest nb_devices cmdline_parse_etheraddr ends optarg).
Proof.
  intros Hm. unfold eth_dest. destruct (nf_util_parse_int optarg 10 ",") as [v|e] eqn:E.
  2: { pose proof (parse_exits optarg 10 ",") as H. by rewrite E in H. }
  cbn [mbind res_bind]. destruct (Z.leb_spec nb_devices (u32 v)); [done|]. cbn [parse_error_if mbind res_bind].
  apply advance_after_number in E as [s ->]. cbn [mbind res_bind].
  destruct (cmdline_parse_etheraddr s) as [a|] eqn:Ea; [|done].
  destruct (wr_macs ends (u32 v) a) as (ends' & -> & Hm'); [done| |by eapply Hparse|done].
  unfold u32 in *. pose proof (Z.mod_pos_bound v (2 ^ 32)). lia.
Qed.

(** What an accepted command line of the NAT guarantees. *)
Record nat_config_sound (c : nat_config) : Prop := {
  ns_macs : macs_ok (Nat.device_macs c);
  ns_ends : macs_ok (Nat.endpoint_macs c);
  ns_lan : 0 <= lan_main_device c < nb_devices;
  ns_wan : 0 <= Nat.wan_device c < nb_devices;
  ns_start : 0 <= cfg_start_port c < 2 ^ 16;
  ns_exp : 0 <= Nat.cfg_expiration_time c < 2 ^ 32;
  ns_flows : 0 <= cfg_max_flows c < 2 ^ 32
}.

Lemma nat_option_exits c opt optarg :
  nat_config_sound c → exits_or nat_config_sound
    (nat_config_option nb_devices cmdline_parse_etheraddr cmdline_parse_ipaddr c opt optarg).
Proof.
  destruct c as [lan wan ext macs ends drv start exp flows].
  intros [H1 H2 H3 H4 H5 H6 H7]. simpl in *. unfold nat_config_option.
  destruct (Ascii.eqb opt "m").
  { eapply exits_or_bind; [by apply eth_dest_exits|]. intros ends' He. by split. }
  destruct (Ascii.eqb opt "t"); [parse_option|].
  destruct (Ascii.eqb opt "i"); [by destruct (cmdline_parse_ipaddr optarg)|].
  destruct (Ascii.eqb opt "l"); [parse_option|].
  destruct (Ascii.eqb opt "f"); [parse_option|].
  destruct (Ascii.eqb opt "s"); [parse_option|].
  destruct (Ascii.eqb opt "w"); [parse_option|done].
Qed.

Lemma nat_devices_exits n d c :
  nat_config_sound c → 0 <= d → d + Z.of_nat n <= RTE_MAX_ETHPORTS →
  exits_or nat_config_sound (nat_config_devices rte_eth_macaddr_get rte_ethtool_get_drv_type n d c).
Proof.
  revert d c. induction n as [|n IH]; intros d c Hc Hd Hn; [done|].
  destruct c as [lan wan ext macs ends drv start exp flows]. pose proof Hc as [H1 H2 H3 H4 H5 H6 H7].
  simpl in H1. cbn [nat_config_devices].
  destruct (wr_macs macs d (rte_eth_macaddr_get d)) as (macs' & -> & Hm'); [done|lia|done|].
  cbn [mbind res_bind]. destruct (rte_ethtool_get_drv_type d); [|done]. apply IH; [by split|lia|lia].
Qed.

Lemma nat_config_exits c opts :
  nat_config_sound c → exits_or nat_config_sound
    (nat_config_init nb_devices rte_eth_macaddr_get rte_ethtool_get_drv_type
       cmdline_parse_etheraddr cmdline_parse_ipaddr c opts).
Proof.
  intros Hc. unfold nat_config_init. eapply exits_or_bind.
  - apply nat_devices_exits; [done|lia|lia].
  - intros c' Hc'. apply getopt_loop_exits; [|done]. intros. by apply nat_option_exits.
Qed.

Lemma nat_sound_config_ok c : nat_config_sound c → Nat.config_ok c nb_devices.
Proof.
  intros [H1 H2 H3 H4 _ _ _].
  split; [lia|by destruct H1 as [-> _]; lia|by destruct H2 as [-> _]; lia| |];
    intros i Hi; by apply macs_ok_get.
Qed.

(** ... and of the firewall. *)
Record fw_config_sound (c : fw_config) : Prop := {
  fs_macs : macs_ok (Firewall.device_macs c);
  fs_ends : macs_ok (Firewall.endpoint_macs c);
  fs_lan : 0 <= Firewall.lan_device c < nb_devices;
  fs_wan : 0 <= Firewall.wan_device c < nb_devices;
  fs_exp : 0 <= Firewall.cfg_expiration_time c < 2 ^ 32;
  fs_cap : 0 <= capacity c < 2 ^ 32
}.

Lemma fw_option_exits c opt optarg :
  fw_config_sound c → exits_or fw_config_sound
    (fw_config_option nb_devices cmdline_parse_etheraddr c opt optarg).
Proof.
  destruct c as [lan wan cap exp macs ends]. intros [H1 H2 H3 H4 H5 H6]. simpl in *.
  unfold fw_config_option.
  destruct (Ascii.eqb opt "l"); [parse_option|].
  destruct (Ascii.eqb opt "w"); [parse_option|].
  destruct (Ascii.eqb opt "c"); [parse_option|].
  destruct (Ascii.eqb opt "t"); [parse_option|].
  destruct (Ascii.eqb opt "m"); [|done].
  eapply exits_or_bind; [by apply eth_dest_exits|]. intros ends' He. by split.
Qed.

Lemma fw_config_exits c opts :
  fw_config_sound c → exits_or fw_config_sound
    (fw_config_init nb_devices rte_eth_macaddr_get cmdline_parse_etheraddr c opts).
Proof.
  intros Hc. destruct c as [lan wan cap exp macs ends]. pose proof Hc as [H1 H2 H3 H4 H5 H6].
  unfold fw_config_init. simpl in H1.
  destruct (get_macs_ok (Z.to_nat nb_devices) 0 macs) as (macs' & -> & Hm'); [done|lia|lia|].
  cbn [mbind res_bind]. apply getopt_loop_exits; [|by split]. intros. by apply fw_option_exits.
Qed.

Lemma fw_sound_config_ok c : fw_config_sound c → Firewall.config_ok c nb_devices.
Proof.
  intros [H1 H2 H3 H4 _ _].
  split; [lia|lia|by destruct H1 as [-> _]; lia|by destruct H2 as [-> _]; lia| |];
    intros i Hi; by apply macs_ok_get.
Qed.
End accepted.

(** ** The claims *)

(** [nf_util_parse_int] reads back the decimal digits of a number, up to the
    character it is told to expect: exactly for numbers of an [intmax_t], and
    saturated beyond that. *)
Theorem parse_int_printed z rest :
  has_digit 10 rest = false →
  nf_util_parse_int (printed z ++ rest) 10 (c_char rest) =
  Ok (u64 (Z.max INTMAX_MIN (Z.min INTMAX_MAX z))).
Proof.
  intros Hr. unfold nf_util_parse_int. rewrite strtoimax_printed by done.
  by rewrite Ascii.eqb_refl.
Qed.

Lemma parse_int_printed_witness :
  nf_util_parse_int (printed 1234 ++ ",01:02") 10 "," = Ok 1234 ∧
  nf_util_parse_int (printed (-1)) 10 NUL = Ok (2 ^ 64 - 1) ∧
  nf_util_parse_int (printed (10 ^ 30)) 10 NUL = Ok (2 ^ 63 - 1).
Proof.
  split; [exact (parse_int_printed 1234 ",01:02" eq_refl)|].
  split; [exact (parse_int_printed (-1) "" eq_refl)|exact (parse_int_printed (10 ^ 30) "" eq_refl)].
Defined.

Lemma parse_int_value z rest :
  has_digit 10 rest = false → 0 <= z < 2 ^ 63 →
  nf_util_parse_int (printed z ++ rest) 10 (c_char rest) = Ok z.
Proof.
  intros Hr Hz. unfold nf_util_parse_int. rewrite strtoimax_printed, Ascii.eqb_refl by done.
  simpl. f_equal. unfold INTMAX_MIN, INTMAX_MAX. rewrite u64_id; lia.
Qed.

Lemma append_nil s : (s ++ "")%string = s.
Proof. induction s as [|c s IH]; [done|]. rewrite append_cons. by f_equal. Qed.

Lemma parse_value z w :
  0 <= z < 2 ^ w → 0 <= w <= 63 → nf_util_parse_int (printed z) 10 NUL = Ok z.
Proof.
  intros Hz Hw. pose proof (Z.pow_le_mono_r 2 w 63). rewrite <- (append_nil (printed z)).
  apply (parse_int_value z ""); [done|lia].
Qed.

Ltac read_number z w :=
  cbn [mbind res_bind getopt_loop fw_config_option Ascii.eqb Bool.eqb parse_error_if];
  rewrite (parse_value z w) by lia; cbn [mbind res_bind].

(** A command line that gives the devices, capacity and expiration time of the
    firewall in decimal yields exactly that configuration, with the addresses of
    the devices filled in: parsing is the inverse of printing. *)
Theorem fw_config_roundtrip nb_devices macaddr_get parse_ether c lan wan cap exp macs :
  nb_devices <= 2 ^ 16 → 0 <= lan < nb_devices → 0 <= wan < nb_devices →
  0 < cap < 2 ^ 32 → 0 < exp < 2 ^ 32 →
  get_macs macaddr_get (Z.to_nat nb_devices) 0 (Firewall.device_macs c) = Ok macs →
  fw_config_init nb_devices macaddr_get parse_ether c
    [("l"%char, printed lan); ("w"%char, printed wan); ("c"%char, printed cap);
     ("t"%char, printed exp)] =
  Ok (mk_fw_config lan wan cap exp macs (Firewall.endpoint_macs c)).
Proof.
  intros Hn Hlan Hwan Hcap Hexp Hmacs. destruct c as [lan0 wan0 cap0 exp0 macs0 ends]. simpl in *.
  rewrite Hmacs. cbn [mbind res_bind].
  read_number lan 16. rewrite (u16_id lan), (proj2 (Z.leb_gt nb_devices lan)) by lia.
  read_number wan 16. rewrite (u16_id wan), (proj2 (Z.leb_gt nb_devices wan)) by lia.
  read_number cap 32. rewrite (u32_id cap), (proj2 (Z.leb_gt cap 0)) by lia.
  read_number exp 32. rewrite (u32_id exp), (proj2 (Z.eqb_neq exp 0)) by lia. done.
Qed.

(** The firewall of the tests: two devices, 1024 flows. *)
Definition mac_of (d : Z) : list Z := replicate 6 d.
Definition zero_fw_config : fw_config :=
  mk_fw_config 0 0 0 0 (replicate 32 (replicate 6 0)) (replicate 32 (replicate 6 0)).

Lemma zero_fw_config_sound : fw_config_sound 2 32 zero_fw_config.
Proof. split; simpl; [..|lia|lia|lia|lia]; (split; [done|]); by repeat constructor. Qed.

Lemma fw_config_roundtrip_witness :
  fw_config_init 2 mac_of (λ _, None) zero_fw_config
    [("l"%char, "1"); ("w"%char, "0"); ("c"%char, "1024"); ("t"%char, "4000000000")] =
  Ok (mk_fw_config 1 0 1024 4000000000
        (mac_of 0 :: mac_of 1 :: replicate 30 (replicate 6 0)) (replicate 32 (replicate 6 0))).
Proof.
  apply (fw_config_roundtrip 2 mac_of (λ _, None) zero_fw_config 1 0 1024 4000000000);
    [lia|lia|lia|lia|lia|done].
Defined.

(** C24: Whatever the options are, [nat_config_init] either exits with an error or
    accepts a configuration that the packet handler can work with: the WAN device
    and the LAN device exist, there is an address of six bytes for each device,
    and the numbers fit into their fields. It never runs off a string or an
    array. *)
Theorem nat_config_accepts nb_devices max_ports macaddr_get drv_type parse_ether parse_ip c opts :
  0 < nb_devices <= max_ports → (∀ d, zlen (macaddr_get d) = 6) →
  (∀ s a, parse_ether s = Some a → zlen a = 6) → nat_config_sound nb_devices max_ports c →
  match nat_config_init nb_devices macaddr_get drv_type parse_ether parse_ip c opts with
  | Ok c' => Nat.config_ok c' nb_devices ∧ 0 <= lan_main_device c' < nb_devices ∧
             0 <= cfg_start_port c' < 2 ^ 16 ∧ 0 <= Nat.cfg_expiration_time c' < 2 ^ 32
  | Err e => e = Exit
  end.
Proof.
  intros Hn Hm Hp Hc.
  pose proof (nat_config_exits nb_devices max_ports macaddr_get drv_type parse_ether parse_ip
    Hn Hm Hp c opts Hc) as H.
  destruct (nat_config_init _ _ _ _ _ _ _) as [c'|e]; [|exact H].
  split; [by eapply nat_sound_config_ok|]. by destruct H.
Qed.

(** Parsers of addresses that know one address each. *)
Definition one_mac (s : string) : option (list Z) :=
  if String.eqb s "01:02:03:04:05:06" then Some [1; 2; 3; 4; 5; 6] else None.
Definition one_ip (s : string) : option Z :=
  if String.eqb s "10.0.0.1" then Some 16777226 else None.
Definition zero_nat_config : nat_config :=
  mk_nat_config 0 0 0 (replicate 32 (replicate 6 0)) (replicate 32 (replicate 6 0)) 0 0 0 0.
Definition nat_options : list (ascii * string) :=
  [("m"%char, "1,01:02:03:04:05:06"); ("t"%char, "100"); ("i"%char, "10.0.0.1");
   ("l"%char, "0"); ("f"%char, "4"); ("s"%char, "1000"); ("w"%char, "1")].

Lemma one_mac_ok s a : one_mac s = Some a → zlen a = 6.
Proof. unfold one_mac. destruct (String.eqb s _); [|done]. by intros [= <-]. Qed.

Lemma zero_nat_config_sound : nat_config_sound 2 32 zero_nat_config.
Proof.
  split; simpl; [|..|lia|lia|lia|lia|lia]; (split; [done|]); by repeat constructor.
Qed.

Lemma nat_config_accepts_witness :
  match nat_config_init 2 mac_of (λ _, Some 1) one_mac one_ip zero_nat_config nat_options with
  | Ok c' => Nat.config_ok c' 2 ∧ 0 <= lan_main_device c' < 2 ∧
             0 <= cfg_start_port c' < 2 ^ 16 ∧ 0 <= Nat.cfg_expiration_time c' < 2 ^ 32
  | Err e => e = Exit
  end ∧
  (c' ← nat_config_init 2 mac_of (λ _, Some 1) one_mac one_ip zero_nat_config nat_options;
   Ok (Nat.wan_device c', cfg_start_port c', cfg_max_flows c', getz (Nat.endpoint_macs c') 1)) =
  Ok (1, 1000, 4, [1; 2; 3; 4; 5; 6]).
Proof.
  split; [|reflexivity].
  apply (nat_config_accepts 2 32); [lia|done|exact one_mac_ok|exact zero_nat_config_sound].
Defined.

(** [printed] on small numbers. *)
Lemma printed_length d :
  0 <= d < 100 → String.length (printed d) = (if (d <? 10)%Z then 1 else 2)%nat.
Proof.
  intros Hd.
  assert (Hall : forallb (λ d, Nat.eqb (String.length (printed d)) (if (d <? 10)%Z then 1 else 2)%nat)
                   (seqZ 0 100) = true) by by vm_compute.
  rewrite forallb_forall in Hall. apply Nat.eqb_eq, Hall, list_elem_of_In, elem_of_seqZ. lia.
Qed.

Lemma advance_app s t : advance (String.length s) (s ++ t) = Ok t.
Proof. induction s as [|c s IH]; [done|]. rewrite append_cons. exact IH. Qed.

Lemma advance_S s c t : String.length s = 1%nat → advance 2 (s ++ String c t) = Ok t.
Proof. destruct s as [|a [|]]; done. Qed.

(** [--eth-dest device,mac] sets the address of the endpoint of a device below
    10; for the devices from 10 to 99 the comma is handed to the parser of
    addresses, because the argument is advanced by two characters whatever the
    length of the number was. *)
Theorem eth_dest_one_digit_only nb_devices parse_ether ends d mac :
  nb_devices <= 2 ^ 16 → 0 <= d < nb_devices → d < 100 →
  eth_dest nb_devices parse_ether ends (printed d ++ String "," mac) =
  match parse_ether (if d <? 10 then mac else String "," mac) with
  | Some a => wr ends d a
  | None => Err Exit
  end.
Proof.
  intros Hn Hd Hd100. unfold eth_dest.
  pose proof (parse_int_value d (String "," mac) eq_refl ltac:(lia)) as E. cbn [c_char] in E.
  rewrite E. cbn [mbind res_bind]. rewrite u32_id by lia.
  rewrite (proj2 (Z.leb_gt nb_devices d)) by lia. cbn [parse_error_if mbind res_bind].
  pose proof (printed_length d ltac:(lia)) as Hl. destruct (Z.ltb_spec d 10).
  - rewrite (advance_S (printed d) "," mac Hl). done.
  - rewrite <- Hl, advance_app. done.
Qed.

Lemma eth_dest_one_digit_only_witness :
  eth_dest 16 one_mac (replicate 16 []) "7,01:02:03:04:05:06" =
    Ok (setz (replicate 16 []) 7 [1; 2; 3; 4; 5; 6]) ∧
  eth_dest 16 one_mac (replicate 16 []) "12,01:02:03:04:05:06" = Err Exit.
Proof.
  split.
  - apply (eth_dest_one_digit_only 16 one_mac (replicate 16 []) 7 "01:02:03:04:05:06"); lia.
  - apply (eth_dest_one_digit_only 16 one_mac (replicate 16 []) 12 "01:02:03:04:05:06"); lia.
Defined.

Definition zero_lb_config : lb_config := mk_lb_config [] 0 0 0 0 0.

(** The checks of [lb_config_init] after three of its options look at the
    fields of other options: a backend capacity, whatever it is, is refused as
    long as no flow capacity was given, and afterwards a backend capacity and a
    table height of zero are accepted. *)
Theorem lb_config_checks_other_fields nb_devices macaddr_get fresh :
  (∀ arg opts, lb_config_init nb_devices macaddr_get fresh zero_lb_config (("s"%char, arg) :: opts) =
     Err Exit) ∧
  getopt_loop lb_config_option zero_lb_config
    [("f"%char, "8"); ("s"%char, "0"); ("h"%char, "0")] = Ok (mk_lb_config [] 8 0 0 0 0).
Proof.
  split; [|reflexivity]. intros arg opts. unfold lb_config_init.
  pose proof (parse_exits arg 10 NUL) as He.
  cbn [getopt_loop lb_config_option zero_lb_config Ascii.eqb Bool.eqb].
  destruct (nf_util_parse_int arg 10 NUL) as [v|e]; cbn in *; congruence.
Qed.
