(* ===== verification/Machine.v ===== *)
(** * Whole programs: a network function in the main loop

    Each network function of the repository is an instance of the interface of
    [MainLoop.v]. For the firewall and the NAT the pieces are put together, from the
    command line to the frames on the wire; and for the NAT, what happens with a size
    of the flow table that the command line accepts and the containers do not. *)

From Stdlib Require Import String Ascii.
From stdpp Require Import strings.
From S2P Require Import Prelude.
From S2P Require Import Malloc.
From S2P Require Import DChain.
From S2P Require Import MapSpec.
From S2P Require Import Map.
From S2P Require Import Vector.
From S2P Require Import Coherence.
From S2P Require Import Fresh.
From S2P Require Import Table.
From S2P Require Import NfUtil.
From S2P Require Import Nat.
From S2P Require Import Firewall.
From S2P Require Import Bridge.
From S2P Require Import Policer.
From S2P Require Import Cht.
From S2P Require Import Balancer.
From S2P Require Import MainLoop.
From S2P Require Import Router.
From S2P Require Import Config.

(** ** The firewall in the loop *)
Section firewall.
Context {M : Type} `{!MapOps (ptr Flow) Flow M}.
Variables (config : fw_config) (n_devices : Z).

#[local] Instance fw_function : NetworkFunction (Firewall.FlowManager M) := {|
  nf_process := Firewall.nf_core_process config;
  nf_accepts manager m now := True;
  nf_horizon := 2 ^ 63
|}.

Context `{!MapLaws (ptr Flow) Flow M}.
Hypothesis Hcfg : Firewall.config_ok config n_devices.
(** The expiration time the firewall was started with. *)
Variable exp : Z.

#[local] Program Instance fw_laws : NFLaws (Firewall.FlowManager M) n_devices := {|
  nf_good manager past t := ∃ ch, fw_inv manager ch ∧ dchain_high_fp ch <= t ∧
    Firewall.explained config past (Firewall.abs manager ch) ∧
    Firewall.expiration_time manager = exp
|}.
Next Obligation.
  intros manager past t t' (ch & Hinv & Hh & Hex & He) Ht. exists ch.
  split; [done|]. split; [lia|done].
Qed.
Next Obligation.
  intros manager past t m now (ch & Hinv & Hh & Hex & He) Ht Hnow Hport Hlen _. cbn in Hnow.
  destruct (fw_process_spec config n_devices Hcfg manager ch m now Hinv Hlen)
    as (dev & m' & manager' & ch' & pass & E & Hinv' & He' & Hh' & _ & Hstep & Hfw); [lia|lia|].
  exists dev, m', manager'. split; [exact E|]. split.
  - exists ch'. split; [done|]. split; [done|]. split; [by eapply explained_step|congruence].
  - left. destruct pass; [|by destruct Hfw as [-> _]].
    destruct Hfw as [-> _]. destruct Hcfg. by destruct (_ =? _).
Qed.

(** What leaves the machine, and what came in before. *)
Definition from_solicited (v : view) (e : event) : Prop :=
  match e with
  | ETx device b m' _ =>
      ∃ past m now, received v = past ++ [(m, now)] ∧ device ≠ port m ∧
        agree (λ i, 12 <= i) (buf m) (buf m') ∧
        ((∃ id, Firewall.classify config m = Internal id ∧ device = Firewall.wan_device config) ∨
         (∃ id, Firewall.classify config m = External id ∧ device = Firewall.lan_device config ∧
            solicited config exp now past id))
  | _ => True
  end.

Lemma fw_guar_solicited st0 v e :
  n_devices < FLOOD_FRAME → guar n_devices st0 v e → from_solicited v e.
Proof.
  intros Hn. destruct e as [|?|device b m' sent|?|?]; try done.
  intros (_ & _ & past & m & now & manager & dst & manager' & Hrcv & _ & E & Hdst & Hne &
          (ch & Hinv & Hh & Hex & He) & _ & Hport & Hlen & Hnow).
  cbn in Hnow. exists past, m, now. split; [done|]. split; [done|].
  destruct (fw_process_spec config n_devices Hcfg manager ch m now Hinv Hlen)
    as (dev & m1 & mgr1 & ch1 & pass & E1 & _ & _ & _ & _ & Hstep & Hfw); [lia|lia|].
  cbn in E. rewrite E in E1. injection E1 as <- <- _. rewrite He in Hstep.
  destruct Hcfg as [Hw Hl _ _ _ _]. destruct pass; [|destruct Hfw; lia].
  destruct Hfw as [Hdev Hagree]. split; [exact Hagree|].
  assert (device = dst) as -> by (destruct (_ =? _); lia). clear Hdst.
  unfold Firewall.classify in *. destruct (is_tcpudp (buf m)).
  2: { by injection Hstep. }
  destruct (port m =? Firewall.wan_device config).
  - right. eexists. split; [reflexivity|]. split; [done|].
    exact (passed_solicited _ _ _ _ _ _ _ _ Hex Hstep).
  - left. eexists. split; [reflexivity|done].
Qed.
End firewall.

(** C4: The firewall from its command line to the wire. If [main] gets through its
    start with some options, the capacity is a power of two of at most 2^27 (a flow takes
    16 bytes, and [vector_allocate] computes sizes in 32 bits) and [nf_core_init]
    succeeds, then any number of iterations of the loop run without an access outside of
    an array, a failed assertion or a buffer lost or used twice, and can only end with
    [rte_exit]; a frame leaves through the LAN device only if it
    is the last packet received, came from the WAN device, and answers a flow that
    an earlier packet from inside opened and that was in use within the expiration
    time. *)
Theorem firewall_program_safe n_devices max_ports macaddr_get parse_ether c0 opts ok mem h
    conf txq rxq start_dev promisc eal mbuf_pool clone_pool c manager h' k log r :
  0 < n_devices <= max_ports → n_devices < FLOOD_FRAME → (∀ d, zlen (macaddr_get d) = 6) →
  (∀ s a, parse_ether s = Some a → zlen a = 6) → fw_config_sound n_devices max_ports c0 →
  memory_ok mem → heap_wf h →
  main_start conf txq rxq start_dev promisc eal
    (fw_config_init n_devices macaddr_get parse_ether c0 opts) n_devices mbuf_pool clone_pool = Ok c →
  (∃ j, 0 <= j <= 27 ∧ capacity c = 2 ^ j) →
  Firewall.nf_core_init ok mem None c h = Ok (manager, h') →
  let nf := fw_function (M := Map (ptr Flow) Flow) c in
  let start := mk_view ∅ 0 [] in
  runs (main_loop n_devices k manager) log r → follows (rely manager) start log →
  follows (λ v e, uses_held n_devices v e ∧
             from_solicited c (Firewall.cfg_expiration_time c) v e) start log ∧
  match r with
  | Ok manager' => held (view_of start log) = ∅ ∧
                   nf_run manager (received (view_of start log)) = Ok manager'
  | Err e => e = Exit
  end.
Proof.
  intros Hn Hflood Hmac Hparse Hc0 Hmem Hwf Hopts%main_start_config Hcap Hinit nf start Hruns Hrely.
  pose proof (fw_config_exits n_devices max_ports macaddr_get parse_ether Hn Hmac Hparse c0 opts Hc0)
    as Hc. rewrite Hopts in Hc. cbn in Hc.
  pose proof (fw_sound_config_ok n_devices max_ports Hn c Hc) as Hcfg.
  destruct (fw_starts_empty ok mem c h Hmem Hwf Hcap (fs_exp _ _ _ Hc))
    as [(mgr & h1 & E & Hinv & Habs & He)|[E _]]; [|by rewrite E in Hinit].
  rewrite E in Hinit. injection Hinit as -> _.
  pose (laws := fw_laws (M := Map (ptr Flow) Flow) c n_devices Hcfg (Firewall.cfg_expiration_time c)).
  eapply (main_loop_program (NFLaws0 := laws) n_devices manager); [lia| | |exact Hruns|exact Hrely].
  - intros v e. by apply fw_guar_solicited.
  - exists (empty_dchain_fp (capacity c) 0). split; [exact Hinv|]. split; [done|].
    split; [|exact He]. intros id t Hin. rewrite Habs in Hin. by apply elem_of_nil in Hin.
Qed.

(** A firewall on two devices, started with four options: a packet from inside and
    its answer. *)
Definition fw_options : list (ascii * string) :=
  [("l"%char, "0"%string); ("w"%char, "1"%string); ("c"%char, "4"%string); ("t"%char, "100"%string)].
Definition started_config : fw_config :=
  mk_fw_config 0 1 4 100 (mac_of 0 :: mac_of 1 :: replicate 30 (replicate 6 0))
    (replicate 32 (replicate 6 0)).
Definition started_firewall : res (Firewall.FlowManager (Map (ptr Flow) Flow) * Malloc.heap) :=
  Firewall.nf_core_init (λ _, true) zero_memory None started_config (mk_heap 0 []).
Definition started_manager : Firewall.FlowManager (Map (ptr Flow) Flow) :=
  match started_firewall with Ok (manager, _) => manager | Err _ => small_fw end.
Definition passed (m : mbuf) (dev : Z) : mbuf :=
  mk_mbuf (port m) (pkt_len m) (replicate 6 0 ++ replicate 6 dev ++ drop 12 (buf m)).
Definition exchange_log : list event :=
  [EClock 10; ERx 0 (Some (500, Firewall.request)); ETx 1 500 (passed Firewall.request 1) true;
   ERx 1 (Some (501, Firewall.reply)); ETx 0 501 (passed Firewall.reply 0) true].

Lemma started_firewall_ok : ∃ h, started_firewall = Ok (started_manager, h).
Proof.
  destruct (fw_starts_empty (λ _, true) zero_memory started_config (mk_heap 0 []))
    as [(manager & h & E & _)|[_ []]]; [exact zero_memory_ok|exact heap_wf_empty|by exists 2|done| |done].
  exists h. unfold started_manager, started_firewall. by rewrite E.
Qed.

Lemma firewall_program_safe_witness :
  follows (λ v e, uses_held 2 v e ∧ from_solicited started_config 100 v e)
    (mk_view ∅ 0 []) exchange_log.
Proof.
  destruct started_firewall_ok as [h Hstart].
  destruct (replay_completes (main_loop (NetworkFunction0 := fw_function started_config) 2 1
    started_manager) exchange_log) as [manager' Hruns]; [vm_compute; reflexivity|].
  refine (proj1 (firewall_program_safe 2 32 mac_of (λ _, None) zero_fw_config fw_options
    (λ _, true) zero_memory (mk_heap 0 []) (λ _, 0) (λ _ _, 0) (λ _ _, 0) (λ _, 0) (λ _, 1) 0
    true true started_config started_manager h 1 exchange_log (Ok manager') _ _ _ _ _ _ _ _ _
    Hstart Hruns _)).
  - lia.
  - done.
  - done.
  - done.
  - exact zero_fw_config_sound.
  - exact zero_memory_ok.
  - exact heap_wf_empty.
  - reflexivity.
  - by exists 2.
  - apply (env_ok_rely (NetworkFunction0 := fw_function started_config)); [|reflexivity].
    by repeat constructor.
Defined.

(** ** The NAT in the loop *)
Section nat.
Context {M : Type} `{!MapOps (ptr FlowId) FlowId M}.
Variables (config : nat_config) (n_devices : Z).
Variables (c1 : list Z → Z → Z → Z) (c2 : list Z → Z → Z) (c3 : list Z → Z → Z → Z).

(** Packets from outside are acceptable if their port is one of the NAT. *)
#[local] Instance nat_function : NetworkFunction (Nat.FlowManager M) := {|
  nf_process := Nat.nf_core_process config c1 c2 c3;
  nf_accepts manager m now :=
    match Nat.classify config m with
    | Nat.External dport => 0 <= dport - cfg_start_port config < cfg_max_flows config
    | _ => True
    end;
  nf_horizon := 2 ^ 63
|}.

Context `{!MapLaws (ptr FlowId) FlowId M}.
Hypothesis Hcfg : Nat.config_ok config n_devices.

(** Every outcome names a device that exists. *)
Lemma nat_emitted_device cap start now es p (manager : Nat.FlowManager M) ch out m dev m' :
  nat_inv n_devices manager ch → nat_step cap start now es p (Nat.flows manager ch) out →
  Nat.emitted config out m dev m' → 0 <= port m < n_devices → 0 <= dev < n_devices.
Proof.
  intros Hinv Hstep Hem Hport. destruct out as [|ext|f]; destruct Hem as [-> _].
  - done.
  - apply Hcfg.
  - inversion Hstep as [| | | |dport id t1 l1 l2 Es1 Eid Eflows|]; subst.
    assert (Hin : (f, dport - start, now) ∈ Nat.flows manager ch)
      by (rewrite <- Eflows; apply elem_of_app; right; by left).
    apply list_elem_of_fmap in Hin as ([i u] & Ei & Hin). simplify_eq/=.
    apply (ni_dev _ _ _ Hinv), list_elem_of_fmap. eexists. by split; [|exact Hin].
Qed.

(** Translations to the outside are for packets from inside, and conversely. *)
Lemma nat_step_direction cap start now es es' out m :
  nat_step cap start now es (Nat.classify config m) es' out →
  match out with
  | Nat.Drop => True
  | ToWan _ => port m ≠ Nat.wan_device config
  | ToLan _ => port m = Nat.wan_device config
  end.
Proof.
  unfold Nat.classify. intros Hstep.
  destruct (is_tcpudp (buf m)); [destruct (Z.eqb_spec (port m) (Nat.wan_device config))|];
    by inversion Hstep.
Qed.

#[local] Program Instance nat_laws : NFLaws (Nat.FlowManager M) n_devices := {|
  nf_good manager past t := ∃ ch, nat_inv n_devices manager ch ∧ dchain_high_fp ch <= t ∧
    dchain_index_range_fp ch = cfg_max_flows config ∧
    start_port (Nat.state manager) = cfg_start_port config
|}.
Next Obligation.
  intros manager past t t' (ch & Hinv & Hh & Hr) Ht. exists ch. split; [done|]. split; [lia|done].
Qed.
Next Obligation.
  intros manager past t m now (ch & Hinv & Hh & Hr & Hs) Ht Hnow Hport Hlen Hacc. cbn in *.
  destruct (nat_process_spec config n_devices c1 c2 c3 Hcfg manager ch m now Hinv)
    as (dev & m' & manager' & ch' & out & E & Hinv' & (Es & _) & Hh' & Hr' & Hstep & Hem);
    [done|lia|lia|unfold port_in_range; by rewrite Hs, Hr|].
  exists dev, m', manager'. split; [exact E|]. split.
  - exists ch'. split; [done|]. split; [done|]. split; congruence.
  - left. by eapply nat_emitted_device.
Qed.

(** What leaves the machine: the last packet, translated, coming from another
    device. *)
Definition from_translated (v : view) (e : event) : Prop :=
  match e with
  | ETx device b m' _ =>
      ∃ past m now out, received v = past ++ [(m, now)] ∧ device ≠ port m ∧
        Nat.emitted config out m device m' ∧
        match out with
        | Nat.Drop => False
        | ToWan _ => port m ≠ Nat.wan_device config
        | ToLan _ => port m = Nat.wan_device config
        end
  | _ => True
  end.

Lemma nat_guar_translated st0 v e :
  n_devices < FLOOD_FRAME → guar n_devices st0 v e → from_translated v e.
Proof.
  intros Hn. destruct e as [|?|device b m' sent|?|?]; try done.
  intros (_ & Hdev & past & m & now & manager & dst & manager' & Hrcv & _ & E & Hdst & Hne &
          (ch & Hinv & Hh & Hr & Hs) & Hacc & Hport & Hlen & Hnow).
  cbn in *. exists past, m, now.
  destruct (nat_process_spec config n_devices c1 c2 c3 Hcfg manager ch m now Hinv)
    as (dev & m1 & mgr1 & ch1 & out & E1 & Hinv1 & _ & _ & _ & Hstep & Hem);
    [done|lia|lia|unfold port_in_range; by rewrite Hs, Hr|].
  rewrite E in E1. injection E1 as <- <- _.
  pose proof (nat_emitted_device _ _ _ _ _ _ _ _ _ _ _ Hinv1 Hstep Hem Hport) as Hd.
  assert (device = dst) as -> by lia.
  exists out. split; [done|]. split; [done|]. split; [done|].
  pose proof (nat_step_direction _ _ _ _ _ _ _ Hstep) as Hdir.
  destruct out; [|exact Hdir..]. by destruct Hem.
Qed.
End nat.

(** C5: The NAT from its command line to the wire, like the firewall: if [main] gets
    through its start, the size of the flow table is a power of two of at most 2^27 (for
    more, the size of its vector overflows in [vector_allocate]) and [nf_core_init]
    succeeds, then any number of iterations of the loop run without an access outside of
    an array, a failed assertion or a buffer lost or used twice, as long as every packet from outside is addressed to one of the ports the NAT
    allocates from, that is from the first port up to the size of the flow table above it
    (for another port the code reads outside of its arrays); and
    every frame that leaves is the last packet received, coming from the other
    side, with the address and port of its flow translated. *)
Theorem nat_program_safe n_devices max_ports macaddr_get drv_type parse_ether parse_ip c1 c2 c3
    c0 opts ok mem h conf txq rxq start_dev promisc eal mbuf_pool clone_pool c manager h' k log r :
  0 < n_devices <= max_ports → n_devices < FLOOD_FRAME → (∀ d, zlen (macaddr_get d) = 6) →
  (∀ s a, parse_ether s = Some a → zlen a = 6) → nat_config_sound n_devices max_ports c0 →
  memory_ok mem → heap_wf h →
  main_start conf txq rxq start_dev promisc eal
    (nat_config_init n_devices macaddr_get drv_type parse_ether parse_ip c0 opts)
    n_devices mbuf_pool clone_pool = Ok c →
  (∃ j, 0 <= j <= 27 ∧ cfg_max_flows c = 2 ^ j) →
  Nat.nf_core_init ok mem None c h = Ok (manager, h') →
  let nf := nat_function (M := Map (ptr FlowId) FlowId) c c1 c2 c3 in
  let start := mk_view ∅ 0 [] in
  runs (main_loop n_devices k manager) log r → follows (rely manager) start log →
  follows (λ v e, uses_held n_devices v e ∧ from_translated c v e) start log ∧
  match r with
  | Ok manager' => held (view_of start log) = ∅ ∧
                   nf_run manager (received (view_of start log)) = Ok manager'
  | Err e => e = Exit
  end.
Proof.
  intros Hn Hflood Hmac Hparse Hc0 Hmem Hwf Hopts%main_start_config Hcap Hinit nf start Hruns Hrely.
  pose proof (nat_config_exits n_devices max_ports macaddr_get drv_type parse_ether parse_ip
    Hn Hmac Hparse c0 opts Hc0) as Hc. rewrite Hopts in Hc. cbn in Hc.
  pose proof (nat_sound_config_ok n_devices max_ports Hn c Hc) as Hcfg.
  destruct (nat_starts_empty ok mem c n_devices h Hmem Hwf Hcap (ns_exp _ _ _ Hc))
    as [(mgr & h1 & E & Hinv & _ & Hport & _)|[E _]]; [|by rewrite E in Hinit].
  rewrite E in Hinit. injection Hinit as -> _.
  pose (laws := nat_laws (M := Map (ptr FlowId) FlowId) c n_devices c1 c2 c3 Hcfg).
  eapply (main_loop_program (NFLaws0 := laws) n_devices manager); [lia| | |exact Hruns|exact Hrely].
  - intros v e. by apply nat_guar_translated.
  - by exists (empty_dchain_fp (cfg_max_flows c) 0).
Qed.

(** A NAT on two devices with four flows: a packet from inside and its answer. *)
Definition started_nat_config : nat_config :=
  mk_nat_config 0 1 16777226 (mac_of 0 :: mac_of 1 :: replicate 30 (replicate 6 0))
    (setz (replicate 32 (replicate 6 0)) 1 [1; 2; 3; 4; 5; 6]) 1 1000 100 4.
Definition started_nat : Nat.FlowManager (Map (ptr FlowId) FlowId) :=
  match Nat.nf_core_init (λ _, true) zero_memory None started_nat_config (mk_heap 0 []) with
  | Ok (manager, _) => manager
  | Err _ => small_nat
  end.
Definition small_nat_process := Nat.nf_core_process started_nat_config no_cksum3 no_cksum2 no_cksum3
  (M := Map (ptr FlowId) FlowId).
(** The packet as it leaves when the first packet was [m1], or the second. *)
Definition translated (m1 : mbuf) : mbuf :=
  match small_nat_process started_nat m1 10 with Ok (_, m', _) => m' | Err _ => m1 end.
Definition translated2 (m1 m2 : mbuf) : mbuf :=
  match '(_, _, manager) ← small_nat_process started_nat m1 10; small_nat_process manager m2 10 with
  | Ok (_, m', _) => m'
  | Err _ => m2
  end.
Definition nat_log : list event :=
  [EClock 10; ERx 0 (Some (500, Nat.request)); ETx 1 500 (translated Nat.request) true;
   ERx 1 (Some (501, Nat.reply)); ETx 0 501 (translated2 Nat.request Nat.reply) true].

Lemma started_nat_ok :
  ∃ h, Nat.nf_core_init (λ _, true) zero_memory None started_nat_config (mk_heap 0 []) =
    Ok (started_nat, h).
Proof.
  destruct (nat_starts_empty (λ _, true) zero_memory started_nat_config 2 (mk_heap 0 []))
    as [(manager & h & E & _)|[_ []]]; [exact zero_memory_ok|exact heap_wf_empty|by exists 2|done| |done].
  exists h. unfold started_nat. by rewrite E.
Qed.

Lemma nat_program_safe_witness :
  follows (λ v e, uses_held 2 v e ∧ from_translated started_nat_config v e)
    (mk_view ∅ 0 []) nat_log.
Proof.
  destruct started_nat_ok as [h Hstart].
  destruct (replay_completes (main_loop (NetworkFunction0 :=
      nat_function started_nat_config no_cksum3 no_cksum2 no_cksum3) 2 1 started_nat) nat_log)
    as [manager' Hruns]; [vm_compute; reflexivity|].
  refine (proj1 (nat_program_safe 2 32 mac_of (λ _, Some 1) one_mac one_ip no_cksum3 no_cksum2
    no_cksum3 zero_nat_config nat_options (λ _, true) zero_memory (mk_heap 0 []) (λ _, 0)
    (λ _ _, 0) (λ _ _, 0) (λ _, 0) (λ _, 1) 0 true true started_nat_config started_nat h 1 nat_log
    (Ok manager') _ _ _ _ _ _ _ _ _ Hstart Hruns _)).
  - lia.
  - done.
  - done.
  - exact one_mac_ok.
  - exact zero_nat_config_sound.
  - exact zero_memory_ok.
  - exact heap_wf_empty.
  - reflexivity.
  - by exists 2.
  - apply (env_ok_rely (NetworkFunction0 := nat_function started_nat_config no_cksum3 no_cksum2
      no_cksum3)); [|reflexivity].
    repeat apply Forall_cons_2; [done| |done| |done|by apply Forall_nil];
      intros st now; vm_compute; intuition congruence.
Defined.

(** A NAT with a flow table of the size given on the command line, and what comes
    of a trace. *)
Definition nat_sized (size : string) (trace : list (mbuf * Z)) : res unit :=
  c ← nat_config_init 2 mac_of (λ _, Some 1) one_mac one_ip zero_nat_config
    [("f"%char, size); ("s"%char, "1000"%string); ("t"%char, "100"%string); ("w"%char, "1"%string)];
  '(manager, _) ← Nat.nf_core_init (λ _, true) zero_memory None c (mk_heap 0 []);
  _ ← nat_run c no_cksum3 no_cksum2 no_cksum3 manager trace;
  Ok tt.
Definition inside (host : Z) : mbuf := Nat.small_packet 0 [1; 2; 3; 4] [10; 0; 0; host] [8; 8; 8; 8].

(** The command line accepts sizes of the flow table that are not powers of two,
    and then the NAT breaks before the table is full: with [--max-flows 3] the third
    host that sends a packet makes it write outside of the arrays of the map, while
    with [--max-flows 4] all is well. *)
Theorem nat_size_must_be_power_of_two :
  nat_sized "3" [(inside 1, 10); (inside 2, 20); (inside 3, 30)] = Err OutOfBounds ∧
  nat_sized "3" [(inside 1, 10); (inside 2, 20)] = Ok tt ∧
  nat_sized "4" [(inside 1, 10); (inside 2, 20); (inside 3, 30); (inside 4, 40)] = Ok tt.
Proof. split; [|split]; vm_compute; reflexivity. Qed.

(** ** The bridge in the loop *)
Section bridge.
Context {M : Type} `{!MapOps (ptr ether_addr) ether_addr M}.
Variables (exp n_devices : Z).

#[local] Instance bridge_function : NetworkFunction (DynamicFilterTable M) := {|
  nf_process ft m now := '(dev, ft) ← Bridge.nf_core_process exp ft m now; Ok (dev, m, ft);
  nf_accepts ft m now := True;
  nf_horizon := 2 ^ 63
|}.

Context `{!MapLaws (ptr ether_addr) ether_addr M}.
Hypothesis Hexp : 0 <= exp < 2 ^ 32.

(** Where a frame goes was learned from frames, so it is a device. *)
Lemma bridge_step_device past cap now m s s' dev :
  learned past s → Forall (λ p, 0 <= port p.1 < n_devices) past → 0 <= port m < n_devices →
  bridge_step cap exp now (addr_at (buf m) 6) (addr_at (buf m) 0) (port m) s = (s', dev) →
  0 <= dev < n_devices ∨ dev = FLOOD_FRAME.
Proof.
  intros Hl Hpast Hport Hstep. pose proof (learned_step _ _ _ _ _ _ _ _ Hl Hstep) as Hl'.
  unfold bridge_step in Hstep. injection Hstep as Hs Hdev. rewrite Hs in Hdev. subst dev.
  destruct (bridge_lookup (addr_at (buf m) 0) s') as [d|] eqn:El; [left|by right].
  apply bridge_lookup_in in El as [t Hin]. destruct (Hl' _ _ _ Hin) as [(m1 & t1 & Hin1 & _ & <-) _].
  apply elem_of_app in Hin1 as [Hin1|Hin1].
  - rewrite Forall_forall in Hpast. apply (Hpast _ Hin1).
  - apply list_elem_of_singleton in Hin1 as [= -> _]. done.
Qed.

#[local] Program Instance bridge_laws : NFLaws (DynamicFilterTable M) n_devices := {|
  nf_good ft past t := ∃ ch, bridge_inv ft ch ∧ dchain_high_fp ch <= t ∧
    learned past (Bridge.abs ft ch) ∧ Forall (λ p, 0 <= port p.1 < n_devices) past
|}.
Next Obligation.
  intros ft past t t' (ch & Hinv & Hh & Hl) Ht. exists ch. split; [done|]. split; [lia|done].
Qed.
Next Obligation.
  intros ft past t m now (ch & Hinv & Hh & Hl & Hp) Ht Hnow Hport Hlen _. cbn in *.
  destruct (bridge_process_spec exp Hexp ft ch m now Hinv) as (dev & ft' & ch' & -> & Hinv' & Hh' & _ & Hstep);
    [lia|lia|lia|lia|].
  exists dev, m, ft'. split; [done|]. split; [|by eapply bridge_step_device].
  exists ch'. split; [done|]. split; [done|]. split; [by eapply learned_step|].
  apply Forall_app. by split; [|constructor; [|constructor]].
Qed.
End bridge.

(** ** The load balancer in the loop *)
Section balancer.
Context {MF : Type} `{!MapOps (ptr lb_flowi) lb_flowi MF}.
Context {MB : Type} `{!MapOps (ptr Z) Z MB}.
Variables (config : lb_config) (n_devices : Z) (junk : LoadBalancedBackend).

(** Packets of flows whose backend is gone are not acceptable. *)
#[local] Instance lb_function : NetworkFunction (LoadBalancer MF MB) := {|
  nf_process := Balancer.nf_core_process config junk;
  nf_accepts balancer m now := meets_dead_backend balancer m now = Ok false;
  nf_horizon := 2 ^ 62
|}.

Context `{!MapLaws (ptr lb_flowi) lb_flowi MF, !MapLaws (ptr Z) Z MB}.
Hypothesis Hcfg : Balancer.config_ok n_devices config.
Hypothesis Hjunk : zlen (mac junk) = 6.

#[local] Program Instance lb_laws : NFLaws (LoadBalancer MF MB) n_devices := {|
  nf_good balancer past t := ∃ chf chb, lb_inv n_devices balancer chf chb ∧
    dchain_high_fp chf <= t ∧ dchain_high_fp chb <= t
|}.
Next Obligation.
  intros b past t t' (chf & chb & Hinv & Hf & Hb) Ht. exists chf, chb.
  split; [done|]. split; lia.
Qed.
Next Obligation.
  intros b past t m now (chf & chb & Hinv & Hf & Hb) Ht Hnow Hport Hlen Hacc. cbn in *.
  destruct (lb_process_spec n_devices config junk Hcfg Hjunk b chf chb m now Hinv)
    as (dev & m' & b' & chf' & chb' & out & E & Hinv' & _ & Hf' & Hb' & _ & _ & Hstep & Hem);
    [done|lia|lia|lia|by apply (meets_dead_backend_spec n_devices); [|lia|]|].
  exists dev, m', b'. split; [exact E|]. split; [by exists chf', chb'|]. left.
  destruct out as [| |v]; [by destruct Hem as [-> _]|by rewrite Hem|]. destruct Hem as [-> _].
  destruct (lb_step_to _ _ _ _ _ _ _ _ _ _ Hstep) as (a & i & u & [Hin _]%elem_of_unexpired).
  pose proof (entry_index _ _ _ _ _ _ _ Hin) as Hi. apply elem_of_entries in Hin as (_ & _ & ->).
  apply (li_rec _ _ _ _ Hinv i Hi).
Qed.
End balancer.

(** ** The router and the forwarder in the loop

    They have no state; the router is given enough turns, and only packets without
    options; the forwarder, packets with a route. *)
Section stateless.
Variables (config : nat_config) (n_devices : Z) (fuel : nat).
Variable rte_lpm_lookup : Z → option Z.

Definition router_function : NetworkFunction unit := {|
  nf_process _ m now := '(dst, m) ← router_process fuel config m; Ok (dst, m, tt);
  nf_accepts _ m now := Z.land (getz (buf m) 14) 15 <= 5;
  nf_horizon := 2 ^ 63
|}.

Definition lpm_function : NetworkFunction unit := {|
  nf_process _ m now := '(dst, m) ← lpm_process rte_lpm_lookup config m; Ok (dst, m, tt);
  nf_accepts _ m now :=
    ∃ hop, rte_lpm_lookup (be_to_cpu_32 (w32 (buf m) 30)) = Some hop ∧ 0 <= hop < n_devices;
  nf_horizon := 2 ^ 63
|}.

Hypothesis Hcfg : Nat.config_ok config n_devices.
Hypothesis Hlan : 0 <= lan_main_device config < n_devices.
Hypothesis Hfew : n_devices <= 256.

#[local] Existing Instance router_function.
#[local] Program Instance router_laws : NFLaws unit n_devices := {| nf_good _ past t := True |}.
Next Obligation. done. Qed.
Next Obligation.
  intros [] past t m now _ Ht Hnow Hport Hlen Hacc. cbn in *.
  destruct (router_plain fuel config n_devices m Hcfg Hlan Hfew Hlen Hacc) as (dst & m' & -> & _ & ->).
  do 3 eexists. split; [done|]. split; [done|]. left. destruct (_ =? _); [|done].
  by apply other_side_ok.
Qed.

#[local] Existing Instance lpm_function.
#[local] Program Instance lpm_laws : NFLaws unit n_devices := {| nf_good _ past t := True |}.
Next Obligation. done. Qed.
Next Obligation.
  intros [] past t m now _ Ht Hnow Hport Hlen (hop & Hroute & Hhop). cbn in *.
  destruct (lpm_forwards rte_lpm_lookup config n_devices m hop Hcfg Hhop Hfew Hlen Hroute)
    as (dst & m' & -> & _ & ->).
  do 3 eexists. split; [done|]. split; [done|]. left. by destruct (_ =? _).
Qed.
End stateless.
